(* ===== verification/_CoqProject ===== *)
-Q . S2P
Prelude.v
JsString.v
JsNumber.v
JsNumberOrder.v
JsNumberRound.v
Json.v
JsonText.v
JsObject.v
JsRegex.v
JsRegexMatch.v
StatusCodeRules.v
ChannelGuards.v
AdvancedCustom.v
ChannelForm.v
ChannelDrawer.v
ChannelList.v
SettingsForm.v
NavSettings.v
Navigation.v
Permissions.v
TableUrl.v
Currency.v
EntityForms.v
RatioSync.v
BillingExpr.v
ModelSquare.v
JsExpr.v
TierExpr.v
TierEval.v
TieredEditor.v
ModelPricing.v
PricingPanel.v
Flow.v
PlaygroundMessages.v
PlaygroundChat.v
PlaygroundStorage.v
PlaygroundPage.v
ParamOverride.v
ParamOverrideEditor.v
