(* ===== verification/Prelude.v ===== *)
(** * A verification of the logic of the gateway's web client

    The repository is an API gateway for language models with a web client in
    [src/web/default/src].  The client's pages are React components around
    library files that hold its own logic: parsers of settings texts, the channel
    form with its guards and its list, the editor of parameter overrides, the
    synchronisation of prices, the billing expression language with the editor
    and the estimator of tiered prices, the usage flow of the dashboard, the chat
    playground, the navigation with its settings and permissions, the currency
    of quotas, the forms of keys, codes, plans and models, the model square and the
    table state that every list keeps in the address.  This library models those files, function by function and under the names of the source, and proves
    what each of them promises.

    ** Parts and files

    - [Prelude], [JsString], [JsNumber], [JsNumberOrder], [JsNumberRound], [Json], [JsonText], [JsObject],
      [JsRegex], [JsRegexMatch], [JsExpr] model what the code uses of the language: insertion-ordered [Set] and [Map], strings as lists
      of UTF-16 code units, numbers as IEEE doubles ([spec_float], precision 53),
      [JSON.parse] and [JSON.stringify], and the backtracking matcher of regular
      expressions with captures and back references.  [JsNumberOrder] shows that
      doubles compare as the rationals they stand for, and [JsNumberRound], over
      the real numbers, how far a product or a quotient is from the exact one; [JsonText] shows that the
      parser reads back what the printer writes and which values it can return;
      [JsObject] holds the objects that settings are kept in, with member access,
      update and deletion;
      [JsRegexMatch] gives judgements from which matches are computed on texts
      that are only known in part; [JsExpr] is the fragment of expressions that
      generated prices use, with a lexer, a parser and an evaluator.
    - [StatusCodeRules]: [lib/http-status-code-rules.ts].  The text of status
      codes and ranges; the parser is shown to compute the canonical form of the
      set of codes that the text denotes.
    - [ChannelGuards]: [features/channels/lib/status-code-risk-guard.ts] and
      [model-mapping-validation.ts].  The checks the channel form makes before
      it saves JSON mappings, each shown to report exactly what it looks for.
    - [AdvancedCustom]: [features/channels/lib/advanced-custom.ts].  Routes of a
      custom channel, as texts, as JSON values and as configurations; the
      validation is shown to refine a declarative reading of a valid
      configuration, and what the page offers is shown to be valid.
      [new URL] is a parameter of the section with its documented behaviour.
    - [ChannelForm]: [features/channels/lib/channel-form.ts].  The schema of the
      form, the two settings texts of a channel spread over its fields, and the
      payloads it is saved with; saving is shown to refine a table of the managed
      settings, and opening to be inverse to it.
    - [ChannelDrawer]: [features/channels/components/drawers/channel-mutate-drawer.tsx],
      [hooks/use-channel-mutate-form.ts] and [lib/channel-connection-info.ts].
      Loading, editing and submitting with the two questions to the user, as a
      step relation up to the request that is sent.
    - [ChannelList]: [channel-utils.ts], [upstream-update-utils.ts] and
      [use-channel-upstream-updates.ts] of [features/channels].  Rows by tag, key
      lists and the dialog of upstream models.
    - [SettingsForm]: [features/system-settings/hooks/use-settings-form.ts].  Options
      with dotted names as nested forms; saving the changed fields is shown to
      refine saving all of them.
    - [NavSettings]: [config.ts], [header-navigation-section.tsx] and
      [sidebar-modules-section.tsx] of [features/system-settings/maintenance], and
      [features/profile/components/sidebar-modules-card.tsx].  The switches of the
      header and of the sidebar, as stored texts, as forms and as the user's card.
    - [Navigation]: [lib/nav-modules.ts], [hooks/use-top-nav-links.ts],
      [hooks/use-sidebar-data.ts], [hooks/use-sidebar-config.ts],
      [hooks/use-sidebar-view.ts] and the guards of the routes.  The links, the guards
      and the sidebar with its groups, links and chats, shown to apply the switches
      and the role.
    - [Permissions]: [lib/admin-permissions.ts] and [features/users/lib/user-form.ts].
      The matrix of permissions against the server's catalog, and the user form.
    - [TableUrl]: [hooks/use-table-url-state.ts] and its use in [channels-table.tsx].
      The address, the state of the hook and its effect as a step relation; the
      class [TableConfig] states what a table must provide, and the channel table
      is an instance.
    - [Currency]: [lib/currency.ts], the quotas and colours of [lib/format.ts],
      [stores/system-config-store.ts] and [hooks/use-system-config.ts].  What a quota
      is shown as and read back from, in doubles.
    - [EntityForms]: [api-key-form.ts], [redemption-form.ts], [plan-form.ts] and
      [model-form.ts] of [features/keys], [redemption-codes], [subscriptions] and
      [models].
    - [RatioSync]: [features/system-settings/models/upstream-ratio-sync-helpers.ts],
      with the handlers of the page and its table.  The state is the map of
      chosen prices; reachable states are shown coherent by rule induction.
    - [BillingExpr]: [features/pricing/lib/billing-expr.ts].  Prices as texts with
      request rules; building and parsing are shown inverse, and the separation
      of price and rules inverse to their combination.
    - [ModelSquare]: [filters.ts], [model-helpers.ts], [price.ts] and
      [dynamic-price.ts] of [features/pricing/lib] and [hooks/use-filters.ts].  The
      list of models with its filters, orders and prices; the state of the filters
      is shown to refine a record of choices.
    - [TierExpr] and [TierEval]: [features/pricing/lib/tier-expr.ts].  Tiers with
      conditions and prices, the generator and the reader of their expressions,
      shown inverse, and the estimator, shown to charge the first tier whose
      conditions hold.  The [Function] constructor is a parameter.
    - [TieredEditor]: [features/system-settings/models/tiered-pricing-editor.tsx].
      The editor's state and its page; a commit runs the four effects in order on
      the values of the rendering, handlers change the state between commits, and
      the effects are shown to come to rest.
    - [ModelPricing]: [pricing-format.ts], [model-pricing-snapshots.ts] and the table
      of [model-ratio-visual-editor.tsx] in [features/system-settings/models].  Ten
      JSON texts with the prices of all models, their rows, saving and deleting.
    - [PricingPanel]: [model-pricing-core.ts] and the panel of
      [model-pricing-sheet.tsx] there.  The prices on screen and the form of ratios
      that is saved: each ratio is the one its prices give or the untouched stored
      one, and what a panel shows again after saving is stated for every mode.
    - [ParamOverride] and [ParamOverrideEditor]:
      [features/channels/components/dialogs/param-override-editor-dialog.tsx].  The
      rules of a channel on request parameters, their reading, checking and
      writing, and the dialog as a state machine with its two effects.
    - [Flow]: [features/dashboard/lib/flow.ts], with the types of
      [features/dashboard/types.ts] and the colours of [charts.ts].  Usage rows
      as paths through the visible stages, aggregated into nodes and links; the
      aggregation is shown to conserve what the rows carry.  [localeCompare], the
      formatter of [Intl] and the chart library's colours are parameters.
    - [PlaygroundMessages]: [features/playground/lib/message], with [types.ts] and
      [constants.ts].  Messages, streaming, reasoning tags and conversation edits.
    - [PlaygroundChat]: the hooks [use-chat-handler.ts], [use-stream-request.ts],
      [use-playground-conversation.ts] and [features/playground/lib/streaming].
      The hooks' state is one record, each handler a function on it, and the
      interleavings of user, network and timer are the runs of a step relation.
      Edits may be submitted at any time; the [calm] runs are those in which none
      is while an answer is generated.
    - [PlaygroundStorage]: [features/playground/lib/storage/storage.ts].  What is
      kept of a stored conversation and how it is repaired; the limits are shown
      to hold and to lose nothing else.
    - [PlaygroundPage]: [lib/parameters], [lib/options], [lib/state], the settings of
      [storage.ts] and the hooks [use-playground-state.ts] and
      [use-playground-options.ts].  Clamped parameters, choices kept valid against
      the server's offers, and the page with its load and save timers as a step
      relation.  The schema library is a parameter.

    The components interact as the code's imports do: [ChannelDrawer] submits what
    [ChannelForm] accepts, after the guards of [ChannelGuards], and [ChannelForm]
    checks and writes the configurations of [AdvancedCustom], on texts that [Json]
    reads;
    [PlaygroundChat] updates conversations only through [PlaygroundMessages];
    [BillingExpr] reads and writes its literals with [Json] and its patterns with
    [JsRegex]; [TieredEditor] drives the generators and readers of [TierExpr] and
    [BillingExpr]; [ModelPricing] separates and combines expressions with
    [BillingExpr], [PricingPanel] saves through [ModelPricing], [Navigation] reads
    the texts that [NavSettings] writes, [EntityForms] and [Permissions] show quotas
    through [Currency], [ModelSquare] formats with [Currency] and reads tiers with
    [BillingExpr], and [PlaygroundPage]
    loads and saves conversations through [PlaygroundStorage].

    ** Theorems

    - Normal forms and round trips: the status code text, the models text, the
      authentication modes, the request rules, the combined billing expression,
      the tiers, the override rules and the forms inside them, the price panel
      through the ten texts, the channel form through the stored channel, the header
      settings through every page that reads them, a quota through any currency
      and the rounding of four operations, and keys, codes, plans and models through
      their forms.  Where the code changes a value on the way, the statement gives
      its normal form and shows which values are their own: keys and plans
      ([EntityForms.normal_key], [normal_plan]), a base price in parentheses, the
      panel of a model with a fixed price.
    - Exactness of checks: redirect guard, mapping validation, missing models,
      configuration validation; what is reported is what is wrong, and nothing
      else.  A form the schema accepts is saved without an exception, and the
      warnings under its mapping field are what its submission asks about.
    - State machines: price synchronisation never mixes pricing kinds and its
      bulk actions do what they announce; the chat is settled whenever it is idle,
      is disturbed by no late event but the answer to a request that an edit left
      behind, always has a stream or a request that can end a generation, and
      rewrites nothing but
      the answer being generated; the override editor keeps its rules typed and
      its identifiers distinct, and reports the first incomplete one; the tier editor
      stores what it shows after any edits of the tiers; the price
      panel keeps its ratios in step; the playground page loses nothing; the
      channel drawer sends only what was checked, the risky redirects only after
      the user confirmed them, and never a field
      its user may not change; the filters of a table follow its address.
    - Access: the entries of the sidebar are exactly those that both layers of
      switches and the role allow, where a link that names other pages is shown if
      any of them is on, and the permissions that are saved are the ones chosen,
      completed by the baseline.
    - The model square shows exactly the models that match, in the chosen order, and
      every choice reads back.
    - Termination: from every page the effects of the tier editor come to rest
      within five commits, and those of the playground's choices within two; the
      page of a table is brought into range by one navigation.
    - Bounds: what loading keeps of a conversation, the nodes of a flow stage, and
      the values of the playground's parameters, as doubles; the parts of a colour
      under the overflow of a 32-bit hash.
    - The flow graph: totals per stage and per node, the limit on the nodes of a
      stage, the filters, the highlighted paths and the masking of labels.
    - Equivalences: a batch of selections and its parts; a streamed answer and
      one response with the text and the reasoning that were received.
    - Behaviours that differ from what the code means to do are theorems too: a
      third part of a range token is ignored, an edit submitted while an answer is
      generated leaves the earlier request running and shows the chunks that waited
      in the new answer, a delta that repeats the text so
      far replaces it, a split closing tag leaves a fragment, a rule that
      compares a parameter cannot be read back, every load of a conversation
      writes it back, edits of pruning rules are lost, the tier editor overwrites
      the prices and the rules it cannot read, and the price panel does not save
      token prices beside a fixed price or above an input price of zero; a base URL
      may need two saves to settle, a tag row hides a priority of minus one, and
      a missing model whose name has a comma stays missing; the guard of the
      playground and the header read some stored switches differently from the
      settings pages, saving a key switches its model limits on, the ratio the model
      square shows is not always the best one, and the search text of a table does
      not follow the address.

    ** Bounds and assumptions

    Functions are structurally recursive or recurse on fuel that the caller sets
    to a length that every iteration decreases ([thinkLoop], [unwrapLoop],
    [matchAll], the parsers of [Json] and [JsExpr]); no theorem assumes that fuel
    suffices.  [TieredEditor.settle] runs five commits, and [editor_settles] shows
    that no page needs more.  Clock readings, fresh
    identifiers and the translation function are arguments.  The estimator's theorem
    assumes that the [Function] constructor runs generated expressions as the
    evaluator of [JsExpr] does ([TierEval.run_agrees]), and that of the playground
    page that the schema library returns conforming settings as they are.  Statements on numbers
    that pass through text ask that the text reads back as the number, a test
    that is computed ([JsonText.num_reads_back]).  The chat assumes of
    its event source that a closed source delivers no more events, and of its
    page what its buttons allow: while an answer is generated nothing is sent,
    regenerated, deleted or cleared, but edits are saved and submitted
    ([PlaygroundChat.enabled]).  The channel form's round trips assume that the
    server returns the fields it was sent, except a cleared [other], which it may
    keep ([ChannelForm.stores]), and the drawer
    that the form library runs the submit handler only on values the schema
    accepts; which fields are dirty is an input.  The usage metrics are the server's integers, whose
    sums are exact below [2^53].  The round trip of quotas is for rates between
    [2^-200] and [2^200] and quotas up to [2^49]; the times of the forms are whole
    seconds.  [toLowerCase], [localeCompare] and the formatter of [Intl] are
    arguments, with the laws of an order where a list is sorted.  A navigation of
    the router is assumed to install the parameters it is given, so that the schema
    of the route passes them on, and a table's
    configuration to read back what it writes ([TableUrl.TableConfig]); the channel
    table does, while the table of usage logs drops a type filter of zero and is no
    instance.  A write to the browser storage is assumed to succeed.  Property
    names that every object inherits are not used as keys.  The laws of the graph ask that no name contains
    the NUL character that separates the parts of its keys.

    ** Not modelled

    Rendering, HTTP wrappers and translation tables are input and output or data.
    The output of [Intl], of the date library, of the schema library and of the
    router is code of others.  Of the channel drawer the navigation of sections, the
    reveal of keys and the fetch dialogs are left out, of the sidebar the nested
    views, of [lib/format.ts] the dates and of the dashboard the options of the
    chart library.  The Go server is in another language; the brief client repeats
    most of the modelled files and the classic client is the earlier one in JavaScript. *)
From Stdlib Require Export ZArith Lia.
From stdpp Require Export base tactics option sets list numbers sorting.

(** ** Notations, hint databases and tactics of the development *)

Declare Scope js_scope.
Delimit Scope js_scope with js.
Create HintDb js discriminated.
Create Rewrite HintDb js.

#[export] Hint Rewrite @app_nil_r @length_app @length_map @rev_involutive : js.

#[global] Arguments bool_decide : simpl never.

(** Turns every boolean test of the context into the proposition it decides. *)
Ltac bool_to_prop :=
  repeat match goal with
  | H : (_ && _)%bool = true |- _ => apply andb_true_iff in H; destruct H
  | H : (_ || _)%bool = false |- _ => apply orb_false_iff in H; destruct H
  | H : negb _ = true |- _ => apply negb_true_iff in H
  | H : negb _ = false |- _ => apply negb_false_iff in H
  | H : bool_decide _ = true |- _ => apply bool_decide_eq_true in H
  | H : bool_decide _ = false |- _ => apply bool_decide_eq_false in H
  | H : (_ =? _)%Z = true |- _ => apply Z.eqb_eq in H
  | H : (_ =? _)%Z = false |- _ => apply Z.eqb_neq in H
  | H : (_ <=? _)%Z = true |- _ => apply Z.leb_le in H
  | H : (_ <=? _)%Z = false |- _ => apply Z.leb_gt in H
  | H : (_ <? _)%Z = true |- _ => apply Z.ltb_lt in H
  | H : (_ <? _)%Z = false |- _ => apply Z.ltb_ge in H
  end.

(** Case analysis on the first test or match that blocks the goal. *)
Ltac case_test :=
  match goal with
  | |- context [if ?b then _ else _] => destruct b eqn:?
  | |- context [match ?x with _ => _ end] => destruct x eqn:?
  end; bool_to_prop; simplify_eq/=.

Ltac case_test_in H :=
  match type of H with
  | context [if ?b then _ else _] => destruct b eqn:?
  | context [match ?x with _ => _ end] => destruct x eqn:?
  end; bool_to_prop; simplify_eq/=.

(** ** JavaScript [Set]: a duplicate-free list in insertion order *)
Section JsSet.
Context {A : Type} `{EqDecision A}.
Implicit Types (x y : A) (s l : list A).

Definition set_has x s : bool := bool_decide (x ∈ s).

Definition set_add x s : list A := if set_has x s then s else s ++ [x].

(** [new Set(arr)], and [Array.from(new Set(arr))]. *)
Definition set_of_list l : list A := fold_left (fun s x => set_add x s) l [].

Lemma elem_of_set_add x y s : y ∈ set_add x s <-> y = x \/ y ∈ s.
Proof. unfold set_add, set_has. case_bool_decide; set_solver. Qed.

Lemma NoDup_set_add x s : NoDup s -> NoDup (set_add x s).
Proof.
  unfold set_add, set_has. case_bool_decide as E; [done|].
  intros Hs. apply NoDup_app. split_and!; [done| |apply NoDup_singleton].
  intros y Hy Hx%list_elem_of_singleton. by subst.
Qed.

Lemma elem_of_set_fold l s y :
  y ∈ fold_left (fun s x => set_add x s) l s <-> y ∈ s \/ y ∈ l.
Proof.
  revert s. induction l as [|x l IH]; intros s; simpl; [set_solver|].
  rewrite IH, elem_of_set_add. set_solver.
Qed.

Lemma NoDup_set_fold l s : NoDup s -> NoDup (fold_left (fun s x => set_add x s) l s).
Proof. revert s. induction l; intros s Hs; simpl; auto using NoDup_set_add. Qed.

Lemma elem_of_set_of_list l y : y ∈ set_of_list l <-> y ∈ l.
Proof. unfold set_of_list. rewrite elem_of_set_fold. set_solver. Qed.

Lemma NoDup_set_of_list l : NoDup (set_of_list l).
Proof. apply NoDup_set_fold, NoDup_nil_2. Qed.

Lemma set_fold_NoDup l s :
  NoDup (s ++ l) -> fold_left (fun s x => set_add x s) l s = s ++ l.
Proof.
  revert s. induction l as [|x l IH]; intros s Hl; simpl; [by rewrite app_nil_r|].
  unfold set_add, set_has. rewrite bool_decide_eq_false_2.
  - rewrite IH; [by rewrite <-(assoc_L (++))|]. by rewrite <-(assoc_L (++)).
  - apply NoDup_app in Hl as (_ & Hd & _). intros Hx. apply (Hd x Hx). set_solver.
Qed.

(** Building a [Set] from a list without duplicates keeps the list as it is. *)
Lemma set_of_list_NoDup l : NoDup l -> set_of_list l = l.
Proof. intros Hl. unfold set_of_list. by rewrite set_fold_NoDup. Qed.

Lemma set_of_list_nil l : set_of_list l = [] <-> l = [].
Proof.
  split; [|by intros ->]. intros Hs. destruct l as [|x l]; [done|].
  assert (x ∈ set_of_list (x :: l)) as Hx by (apply elem_of_set_of_list; set_solver).
  rewrite Hs in Hx. set_solver.
Qed.
End JsSet.

(** ** JavaScript [Map]: an association list in insertion order *)
Section JsMap.
Context {K V : Type} `{EqDecision K}.
Implicit Types (k : K) (v : V) (m : list (K * V)).

Fixpoint map_get k m : option V :=
  match m with
  | [] => None
  | (k', v) :: m => if bool_decide (k = k') then Some v else map_get k m
  end.

(** [map.set(k, v)]: an existing key keeps its place, a new one goes last. *)
Fixpoint map_set k v m : list (K * V) :=
  match m with
  | [] => [(k, v)]
  | (k', v') :: m => if bool_decide (k = k') then (k', v) :: m else (k', v') :: map_set k v m
  end.

Fixpoint map_del k m : list (K * V) :=
  match m with
  | [] => []
  | (k', v') :: m => if bool_decide (k = k') then m else (k', v') :: map_del k m
  end.

Definition map_has k m : bool := if map_get k m is Some _ then true else false.
Definition map_keys m : list K := m.*1.
Definition map_values m : list V := m.*2.

Lemma map_get_set_eq k v m : map_get k (map_set k v m) = Some v.
Proof.
  induction m as [|[k' v'] m IH]; csimpl; [by rewrite bool_decide_eq_true_2|].
  case_bool_decide; simpl; [by rewrite bool_decide_eq_true_2|].
  by rewrite bool_decide_eq_false_2.
Qed.

Lemma map_get_set_ne k k' v m : k <> k' -> map_get k (map_set k' v m) = map_get k m.
Proof.
  intros Hne. induction m as [|[k'' v''] m IH]; simpl; [by rewrite bool_decide_eq_false_2|].
  repeat case_bool_decide; subst; simpl; repeat case_bool_decide; congruence.
Qed.

Lemma map_get_set k k' v m :
  map_get k (map_set k' v m) = if bool_decide (k = k') then Some v else map_get k m.
Proof. case_bool_decide; subst; eauto using map_get_set_eq, map_get_set_ne. Qed.

Lemma map_get_Some_elem k v m : map_get k m = Some v -> (k, v) ∈ m.
Proof.
  induction m as [|[k' v'] m IH]; csimpl; [done|].
  case_bool_decide; intros; simplify_eq; [by left|right; auto].
Qed.

Lemma map_get_None k m : map_get k m = None <-> k ∉ map_keys m.
Proof.
  unfold map_keys. induction m as [|[k' v'] m IH]; csimpl; [set_solver|].
  case_bool_decide; subst; [set_solver|]. rewrite IH. set_solver.
Qed.

Lemma elem_map_get k v m : NoDup (map_keys m) -> (k, v) ∈ m -> map_get k m = Some v.
Proof.
  unfold map_keys. induction m as [|[k' v'] m IH]; csimpl; [set_solver|].
  intros [Hn Hd]%NoDup_cons [[= -> ->]|Hin]%elem_of_cons;
    [by rewrite bool_decide_eq_true_2|].
  rewrite bool_decide_eq_false_2; [auto|].
  intros ->. apply Hn. apply list_elem_of_fmap. by exists (k', v).
Qed.

Lemma map_keys_set k v m :
  map_keys (map_set k v m) = if bool_decide (k ∈ map_keys m) then map_keys m else map_keys m ++ [k].
Proof.
  unfold map_keys. induction m as [|[k' v'] m IH]; csimpl; [done|].
  destruct (decide (k = k')) as [->|Hne].
  - by rewrite !bool_decide_eq_true_2 by set_solver.
  - rewrite (bool_decide_eq_false_2 (k = k')) by done. csimpl. rewrite IH.
    repeat case_bool_decide; set_solver.
Qed.

Lemma elem_of_map_keys_set k k' v m : k' ∈ map_keys (map_set k v m) <-> k' = k \/ k' ∈ map_keys m.
Proof. rewrite map_keys_set. case_bool_decide; set_solver. Qed.

Lemma NoDup_map_set k v m : NoDup (map_keys m) -> NoDup (map_keys (map_set k v m)).
Proof. rewrite map_keys_set. fold (set_has k (map_keys m)). apply NoDup_set_add. Qed.

Lemma map_get_del_eq k m : NoDup (map_keys m) -> map_get k (map_del k m) = None.
Proof.
  unfold map_keys. induction m as [|[k' v'] m IH]; csimpl; [done|].
  intros [Hn Hd]%NoDup_cons. case_bool_decide; subst; simpl.
  - by apply map_get_None.
  - rewrite bool_decide_eq_false_2; auto.
Qed.

Lemma map_get_del_ne k k' m : k <> k' -> map_get k (map_del k' m) = map_get k m.
Proof.
  intros Hne. induction m as [|[k'' v''] m IH]; simpl; [done|].
  repeat case_bool_decide; subst; simpl; repeat case_bool_decide; congruence.
Qed.

Lemma NoDup_map_del k m : NoDup (map_keys m) -> NoDup (map_keys (map_del k m)).
Proof.
  unfold map_keys. induction m as [|[k' v'] m IH]; csimpl; [done|].
  intros [Hn Hd]%NoDup_cons. case_bool_decide; subst; [done|].
  simpl. apply NoDup_cons; split; [|auto].
  intros Hin. apply Hn. clear -Hin. induction m as [|[k1 v1] m IH]; simpl in *; [done|].
  case_bool_decide; subst; set_solver.
Qed.

Lemma elem_of_map_keys k m : k ∈ map_keys m <-> exists v, map_get k m = Some v.
Proof.
  destruct (map_get k m) eqn:E.
  - split; [eauto|]. intros _. apply map_get_Some_elem in E.
    apply list_elem_of_fmap. by exists (k, v).
  - apply map_get_None in E. split; [done|]. by intros [? [=]].
Qed.
End JsMap.

#[export] Hint Resolve NoDup_set_of_list NoDup_set_add NoDup_map_set NoDup_map_del : js.
#[export] Hint Rewrite @elem_of_set_of_list @map_get_set_eq : js.

(** ** [Array.prototype.sort]: stable sorting by a JavaScript comparator

    A comparator returns a number; the elements are ordered when it is at most
    zero.  ECMAScript asks for a consistent comparator and gives a stable sort:
    with such a comparator the result is the only stable ordered permutation. *)

Class Comparator {A : Type} (cmp : A -> A -> Z) : Prop := {
  cmp_total : forall a b, (cmp a b <= 0)%Z \/ (cmp b a <= 0)%Z;
  cmp_trans : forall a b c, (cmp a b <= 0)%Z -> (cmp b c <= 0)%Z -> (cmp a c <= 0)%Z;
}.

Section JsSort.
Context {A : Type} (cmp : A -> A -> Z).
Implicit Types (x y : A) (l : list A).

Fixpoint sort_insert x l : list A :=
  match l with
  | [] => [x]
  | y :: l' => if (cmp x y <=? 0)%Z then x :: l else y :: sort_insert x l'
  end.

Definition js_sort l : list A := foldr sort_insert [] l.

Lemma sort_insert_Permutation x l : sort_insert x l ≡ₚ x :: l.
Proof.
  induction l as [|y l IH]; simpl; [done|]. case_match; [done|].
  rewrite IH. apply Permutation_swap.
Qed.

Lemma js_sort_Permutation l : js_sort l ≡ₚ l.
Proof. induction l as [|x l IH]; simpl; [done|]. by rewrite sort_insert_Permutation, IH. Qed.

Lemma elem_of_js_sort x l : x ∈ js_sort l <-> x ∈ l.
Proof. by rewrite js_sort_Permutation. Qed.

Lemma length_js_sort l : length (js_sort l) = length l.
Proof. by rewrite js_sort_Permutation. Qed.

Lemma StronglySorted_sort_insert `{!Comparator cmp} x l :
  StronglySorted (fun a b => cmp a b <= 0)%Z l ->
  StronglySorted (fun a b => cmp a b <= 0)%Z (sort_insert x l).
Proof.
  induction l as [|y l IH]; simpl; intros Hs; [repeat constructor|].
  apply StronglySorted_cons in Hs as [Hy Hs].
  destruct (Z.leb_spec (cmp x y) 0) as [Hxy|Hxy].
  - constructor; [by constructor|]. constructor; [done|].
    eapply Forall_impl; [exact Hy|]. intros z Hz. by eapply cmp_trans.
  - constructor; [auto|]. rewrite (sort_insert_Permutation x l).
    constructor; [|done]. destruct (cmp_total x y); lia.
Qed.

(** The sorted array is ordered pairwise. *)
Lemma StronglySorted_js_sort `{!Comparator cmp} l :
  StronglySorted (fun a b => cmp a b <= 0)%Z (js_sort l).
Proof. induction l; simpl; [constructor|by apply StronglySorted_sort_insert]. Qed.

Lemma sort_insert_head x l :
  Forall (fun y => cmp x y <= 0)%Z l -> sort_insert x l = x :: l.
Proof.
  destruct l as [|y l]; simpl; [done|]. intros Hf. apply Forall_cons in Hf as [Hy _].
  destruct (Z.leb_spec (cmp x y) 0); [done|lia].
Qed.

(** Sorting an ordered array changes nothing. *)
Lemma js_sort_sorted l :
  StronglySorted (fun a b => cmp a b <= 0)%Z l -> js_sort l = l.
Proof.
  induction 1 as [|x l Hs IH Hx]; simpl; [done|]. rewrite IH. by apply sort_insert_head.
Qed.
End JsSort.

(** Comparators that agree on the elements at hand sort alike. *)
Section SortOn.
Context {A : Type} (f g : A -> A -> Z).

Lemma sort_insert_on x l : (forall y, y ∈ l -> (f x y <= 0 <-> g x y <= 0)%Z) -> sort_insert f x l = sort_insert g x l.
Proof.
  induction l as [|y l IH]; intros H; cbn [sort_insert]; [done|]. pose proof (H y (list_elem_of_here y l)).
  rewrite IH by (intros z Hz; apply H; by right). destruct (Z.leb_spec (f x y) 0), (Z.leb_spec (g x y) 0); done || lia.
Qed.

Lemma js_sort_on l : (forall x y, x ∈ l -> y ∈ l -> (f x y <= 0 <-> g x y <= 0)%Z) -> js_sort f l = js_sort g l.
Proof.
  induction l as [|x l IH]; intros H; [done|]. cbn [js_sort foldr]. fold (js_sort f l) (js_sort g l). rewrite IH by (intros; apply H; by right).
  apply sort_insert_on. intros y Hy%elem_of_js_sort. apply H; [by left | by right].
Qed.
End SortOn.

Lemma sorted_on {A} (R S : A -> A -> Prop) l : (forall x y, x ∈ l -> y ∈ l -> R x y -> S x y) -> StronglySorted R l -> StronglySorted S l.
Proof.
  intros H Hs. induction Hs as [|x l Hs IH Hx]; [constructor|]. constructor; [apply IH; intros ???? ; apply H; by right|].
  rewrite Forall_forall in Hx |- *. intros y Hy. apply H; [by left | by right | by apply Hx].
Qed.

#[export] Hint Rewrite @elem_of_js_sort @length_js_sort : js.

(** [c1 || c2] of two comparators: the second decides where the first is zero. *)
Definition cmp_or {A} (c1 c2 : A -> A -> Z) (a b : A) : Z :=
  if (c1 a b =? 0)%Z then c2 a b else c1 a b.

(** A comparator whose sign changes when its arguments are exchanged, as the
    language asks of [localeCompare]; such comparators can be chained. *)
Class SignComparator {A : Type} (cmp : A -> A -> Z) : Prop := {
  sign_sym : forall a b, Z.sgn (cmp b a) = (- Z.sgn (cmp a b))%Z;
  sign_trans : forall a b c, (cmp a b <= 0)%Z -> (cmp b c <= 0)%Z -> (cmp a c <= 0)%Z;
}.

Lemma sign_flip {A} (cmp : A -> A -> Z) `{!SignComparator cmp} a b :
  ((0 < cmp a b <-> cmp b a < 0) /\ (cmp a b = 0 <-> cmp b a = 0))%Z.
Proof. pose proof (sign_sym a b). lia. Qed.

#[export] Instance SignComparator_Comparator {A} (cmp : A -> A -> Z) `{!SignComparator cmp} : Comparator cmp.
Proof. split; [|apply sign_trans]. intros a b. pose proof (sign_flip cmp a b). lia. Qed.

Lemma sign_zero_l {A} (cmp : A -> A -> Z) `{!SignComparator cmp} a b c :
  cmp a b = 0%Z -> ((cmp a c <= 0 <-> cmp b c <= 0) /\ (cmp a c = 0 <-> cmp b c = 0))%Z.
Proof.
  intros H. assert (H' : cmp b a = 0%Z) by (by apply (sign_flip cmp a b)).
  assert (Hle : (cmp a c <= 0 <-> cmp b c <= 0)%Z) by (split; intros; eapply sign_trans; try eassumption; lia).
  assert (Hge : (cmp c a <= 0 <-> cmp c b <= 0)%Z) by (split; intros; eapply sign_trans; try eassumption; lia).
  pose proof (sign_flip cmp a c). pose proof (sign_flip cmp b c). lia.
Qed.

#[export] Instance cmp_or_sign {A} (c1 c2 : A -> A -> Z) `{!SignComparator c1, !SignComparator c2} :
  SignComparator (cmp_or c1 c2).
Proof.
  unfold cmp_or. split.
  - intros a b. pose proof (sign_flip c1 a b). pose proof (sign_sym (cmp := c1) a b). pose proof (sign_sym (cmp := c2) a b).
    destruct (Z.eqb_spec (c1 a b) 0), (Z.eqb_spec (c1 b a) 0); lia.
  - intros a b c H1 H2. destruct (Z.eqb_spec (c1 a b) 0) as [E1|E1].
    + destruct (sign_zero_l c1 a b c E1) as [L Z0].
      destruct (Z.eqb_spec (c1 b c) 0) as [E2|E2], (Z.eqb_spec (c1 a c) 0) as [E3|E3]; try lia.
      by eapply sign_trans.
    + destruct (Z.eqb_spec (c1 b c) 0) as [E2|E2], (Z.eqb_spec (c1 a c) 0) as [E3|E3].
      * destruct (sign_zero_l c1 b c a E2) as [_ Z0]. pose proof (sign_flip c1 a b). pose proof (sign_flip c1 a c). lia.
      * eapply (sign_trans (cmp := c1)); [exact H1 | lia].
      * destruct (sign_zero_l c1 a c b E3) as [L _]. pose proof (sign_flip c1 b c). lia.
      * by eapply (sign_trans (cmp := c1)).
Qed.

Lemma fold_left_map {A B C} (f : A -> B -> A) (g : C -> B) l a : fold_left f (map g l) a = fold_left (fun a x => f a (g x)) l a.
Proof. revert a. induction l; intros; [done|]. cbn. auto. Qed.

(** ** Sums of integers over a list *)
Definition sum_with {A} (f : A -> Z) (l : list A) : Z := foldr (fun x s => f x + s)%Z 0%Z l.

Lemma sum_with_nil {A} (f : A -> Z) : sum_with f [] = 0%Z.
Proof. done. Qed.

Lemma sum_with_cons {A} (f : A -> Z) x l : sum_with f (x :: l) = (f x + sum_with f l)%Z.
Proof. done. Qed.

Lemma sum_with_app {A} (f : A -> Z) l1 l2 :
  sum_with f (l1 ++ l2) = (sum_with f l1 + sum_with f l2)%Z.
Proof. induction l1; simpl in *; lia. Qed.

Lemma sum_with_Permutation {A} (f : A -> Z) l1 l2 : l1 ≡ₚ l2 -> sum_with f l1 = sum_with f l2.
Proof. induction 1; simpl in *; lia. Qed.

Lemma sum_with_ext {A} (f g : A -> Z) l :
  (forall x, x ∈ l -> f x = g x) -> sum_with f l = sum_with g l.
Proof.
  induction l as [|x l IH]; simpl; intros He; [done|].
  rewrite (He x), IH; [done|intros; apply He|]; set_solver.
Qed.

Lemma sum_with_nonneg {A} (f : A -> Z) l : (forall x, x ∈ l -> 0 <= f x)%Z -> (0 <= sum_with f l)%Z.
Proof.
  induction l as [|x l IH]; simpl; intros Hn; [lia|].
  pose proof (Hn x ltac:(set_solver)). assert (0 <= sum_with f l)%Z; [|lia].
  apply IH. set_solver.
Qed.
