(* ===== verification/JsString.v ===== *)
(** * JavaScript strings

    A JavaScript string is a sequence of UTF-16 code units; it is modelled by
    the list of their values.  This file holds the operations of
    [String.prototype] the program uses ([trim], [split], [startsWith],
    [includes], [indexOf], [slice], [join] of arrays of strings), decimal
    printing and [Number.parseInt] on digits, with the laws the components
    rely on. *)
From Stdlib Require Import String Ascii.
Export StringSyntax.
From S2P Require Import Prelude.
Local Open Scope Z_scope.

Abbreviation jsstr := (list Z).

(** The string of an ASCII literal. *)
Definition js (s : string) : jsstr :=
  map (fun a => Z.of_N (N_of_ascii a)) (list_ascii_of_string s).

Arguments js _%_string_scope.

Definition dquote : Z := 34.
Definition comma : Z := 44.
Definition minus : Z := 45.

(** Code units of ECMAScript's WhiteSpace and LineTerminator: what [trim]
    removes and what [\s] matches. *)
Definition is_ws (c : Z) : bool :=
  (9 <=? c) && (c <=? 13) || (c =? 32) || (c =? 160) || (c =? 5760) ||
  (8192 <=? c) && (c <=? 8202) || (c =? 8232) || (c =? 8233) || (c =? 8239) ||
  (c =? 8287) || (c =? 12288) || (c =? 65279).

Definition is_digit (c : Z) : bool := (48 <=? c) && (c <=? 57).

(** ** Taking and dropping characters while a test holds *)
Section While.
Context (p : Z -> bool).

Fixpoint take_while (s : jsstr) : jsstr :=
  match s with
  | [] => []
  | c :: s' => if p c then c :: take_while s' else []
  end.

Fixpoint drop_while (s : jsstr) : jsstr :=
  match s with
  | [] => []
  | c :: s' => if p c then drop_while s' else s
  end.

Lemma take_drop_while s : take_while s ++ drop_while s = s.
Proof. induction s as [|c s IH]; simpl; [done|]. destruct (p c); simpl; congruence. Qed.

Lemma drop_while_app s t : forallb p s = true -> drop_while (s ++ t) = drop_while t.
Proof. induction s as [|c s IH]; simpl; [done|]. intros [-> ?]%andb_true_iff. auto. Qed.

Lemma take_while_app s t :
  forallb p s = true -> take_while (s ++ t) = s ++ take_while t.
Proof. induction s as [|c s IH]; simpl; [done|]. intros [-> ?]%andb_true_iff. by rewrite IH. Qed.

Lemma forallb_take_while s : forallb p (take_while s) = true.
Proof. induction s as [|c s IH]; simpl; [done|]. destruct (p c) eqn:E; simpl; by rewrite ?E. Qed.

Lemma drop_while_stop s : (match s with [] => true | c :: _ => negb (p c) end) = true ->
  drop_while s = s.
Proof. destruct s as [|c s]; simpl; [done|]. by intros ->%negb_true_iff. Qed.

Lemma drop_while_head s : match drop_while s with [] => true | c :: _ => negb (p c) end = true.
Proof. induction s as [|c s IH]; simpl; [done|]. destruct (p c) eqn:E; [done|]. simpl. by rewrite E. Qed.

Lemma drop_while_idemp s : drop_while (drop_while s) = drop_while s.
Proof. apply drop_while_stop, drop_while_head. Qed.

Lemma forallb_drop_while q s : forallb q s = true -> forallb q (drop_while s) = true.
Proof.
  induction s as [|c s IH]; simpl; [done|]. intros [Hq Hs]%andb_true_iff.
  destruct (p c); simpl; [auto|]. by rewrite Hq, Hs.
Qed.
End While.

(** ** [trim] *)
Definition trim_start (s : jsstr) : jsstr := drop_while is_ws s.
Definition trim_end (s : jsstr) : jsstr := rev (drop_while is_ws (rev s)).
Definition trim (s : jsstr) : jsstr := trim_end (trim_start s).

(** A string without whitespace at either end. *)
Definition trimmed (s : jsstr) : bool :=
  match s with [] => true | c :: _ => negb (is_ws c) end &&
  match rev s with [] => true | c :: _ => negb (is_ws c) end.

Lemma trim_trimmed s : trimmed s = true -> trim s = s.
Proof.
  unfold trimmed, trim, trim_end, trim_start. intros [H1 H2]%andb_true_iff.
  rewrite (drop_while_stop _ s H1), (drop_while_stop _ (rev s) H2). apply rev_involutive.
Qed.

Lemma drop_while_suffix p s : exists t, s = t ++ drop_while p s.
Proof. exists (take_while p s). by rewrite take_drop_while. Qed.

Lemma trimmed_trim s : trimmed (trim s) = true.
Proof.
  unfold trimmed, trim, trim_end. rewrite rev_involutive.
  apply andb_true_iff; split; [|apply drop_while_head].
  destruct (drop_while_suffix is_ws (rev (trim_start s))) as [t Ht].
  apply (f_equal (@rev Z)) in Ht. rewrite rev_involutive, rev_app_distr in Ht.
  pose proof (drop_while_head is_ws s) as Hh. fold (trim_start s) in Hh.
  rewrite Ht in Hh. clear Ht. destruct (rev (drop_while is_ws _)); [done|]. exact Hh.
Qed.

Lemma trim_idemp s : trim (trim s) = trim s.
Proof. apply trim_trimmed, trimmed_trim. Qed.

Lemma forallb_rev {A} (q : A -> bool) l : forallb q (rev l) = forallb q l.
Proof.
  induction l as [|x l IH]; simpl; [done|]. rewrite forallb_app. simpl.
  rewrite IH. destruct (q x), (forallb q l); done.
Qed.

Lemma forallb_trim q s : forallb q s = true -> forallb q (trim s) = true.
Proof.
  intros Hq. unfold trim, trim_end, trim_start.
  by rewrite forallb_rev, forallb_drop_while; rewrite ?forallb_rev, ?forallb_drop_while.
Qed.

Lemma trimmed_no_ws s : forallb (fun c => negb (is_ws c)) s = true -> trimmed s = true.
Proof.
  intros Hs. unfold trimmed. apply andb_true_iff; split.
  - destruct s; simpl in *; [done|]. by apply andb_true_iff in Hs as [-> _].
  - rewrite <-forallb_rev in Hs. destruct (rev s); simpl in *; [done|].
    by apply andb_true_iff in Hs as [-> _].
Qed.

Lemma trim_no_ws s : forallb (fun c => negb (is_ws c)) s = true -> trim s = s.
Proof. auto using trim_trimmed, trimmed_no_ws. Qed.

(** Appending whitespace at the end does not change the trimmed string when
    the string is trimmed already. *)
Lemma trim_nil_all_ws s : trim s = [] -> forallb is_ws s = true.
Proof.
  unfold trim, trim_end. intros Hr. apply (f_equal (@rev Z)) in Hr. rewrite rev_involutive in Hr.
  simpl in Hr. rewrite <-(take_drop_while is_ws s), forallb_app, forallb_take_while. simpl.
  fold (trim_start s). rewrite <-forallb_rev.
  rewrite <-(take_drop_while is_ws (rev (trim_start s))), Hr, app_nil_r. apply forallb_take_while.
Qed.

(** ** Prefixes, [includes], [indexOf], [slice] *)
Fixpoint strip_prefix (p s : jsstr) : option jsstr :=
  match p, s with
  | [], _ => Some s
  | a :: p', b :: s' => if a =? b then strip_prefix p' s' else None
  | _ :: _, [] => None
  end.

Definition starts_with (p s : jsstr) : bool :=
  if strip_prefix p s is Some _ then true else false.

Definition ends_with (p s : jsstr) : bool := starts_with (rev p) (rev s).

Fixpoint includes (p s : jsstr) : bool :=
  starts_with p s || match s with [] => false | _ :: s' => includes p s' end.

(** [s.indexOf(p)] ([None] for -1). *)
Fixpoint index_of (p s : jsstr) : option nat :=
  if starts_with p s then Some O
  else match s with [] => None | _ :: s' => S <$> index_of p s' end.

(** [s.slice(i, j)] for [0 <= i], [0 <= j]. *)
Definition slice (i j : nat) (s : jsstr) : jsstr := take (j - i) (drop i s).

Lemma strip_prefix_Some p s t : strip_prefix p s = Some t <-> s = p ++ t.
Proof.
  revert s. induction p as [|a p IH]; intros s; simpl; [naive_solver|].
  destruct s as [|b s]; simpl; [naive_solver|].
  destruct (Z.eqb_spec a b); [subst; rewrite IH|]; naive_solver.
Qed.

Lemma strip_prefix_app p t : strip_prefix p (p ++ t) = Some t.
Proof. by apply strip_prefix_Some. Qed.

Lemma starts_with_spec p s : starts_with p s = true <-> exists t, s = p ++ t.
Proof.
  unfold starts_with. destruct (strip_prefix p s) eqn:E.
  - apply strip_prefix_Some in E. naive_solver.
  - split; [done|]. intros [t ->]. by rewrite strip_prefix_app in E.
Qed.

Lemma starts_with_app p t : starts_with p (p ++ t) = true.
Proof. apply starts_with_spec; eauto. Qed.

Lemma includes_spec p s : includes p s = true <-> exists t u, s = t ++ p ++ u.
Proof.
  induction s as [|c s IH]; simpl; rewrite orb_true_iff, starts_with_spec.
  - split; [intros [[t ->]|?]; [exists [], t; done|done]|].
    intros (t & u & Hs). destruct t; [|done]. left; eauto.
  - rewrite IH. split.
    + intros [[t ->]|(t & u & ->)]; [exists [], t; done|exists (c :: t), u; done].
    + intros ([|d t] & u & Hs); simplify_eq/=; [left; eauto|right; eauto].
Qed.

Lemma index_of_None p s : index_of p s = None <-> includes p s = false.
Proof.
  induction s as [|c s IH]; simpl; destruct (starts_with p _) eqn:E; try naive_solver.
  simpl. rewrite <-IH. destruct (index_of p s); simpl; naive_solver.
Qed.

Lemma index_of_Some p s n :
  index_of p s = Some n ->
  s = take n s ++ p ++ drop (n + length p) s /\ includes p (take n s) = false \/ p = [].
Proof.
  revert n. induction s as [|c s IH]; intros n; simpl.
  - destruct (starts_with p []) eqn:E; [|done]. intros; simplify_eq.
    apply starts_with_spec in E as [t Ht]. symmetry in Ht. apply app_eq_nil in Ht as [-> _]. by right.
  - destruct (starts_with p (c :: s)) eqn:E.
    + intros; simplify_eq. apply starts_with_spec in E as [t Ht]. simpl.
      destruct p as [|a p]; [by right|]. left. split; [|done].
      rewrite Ht at 1. f_equal. rewrite Ht. by rewrite drop_app_length.
    + destruct (index_of p s) as [k|] eqn:Hk; simpl; [|done]. intros; simplify_eq.
      destruct (IH k eq_refl) as [[Hs Hn]| ->]; [|by right]. left. simpl. split; [by f_equal|].
      rewrite Hn, orb_false_r. apply not_true_iff_false. intros [t Ht]%starts_with_spec.
      apply not_true_iff_false in E. apply E, starts_with_spec.
      exists (t ++ p ++ drop (k + length p) s).
      rewrite (assoc_L (++)), <-Ht. simpl. by f_equal.
Qed.

(** A pattern whose first character occurs only once is found where it is
    first written. *)
Lemma index_of_first a p v t :
  a ∉ p -> includes (a :: p) v = false -> index_of (a :: p) (v ++ (a :: p) ++ t) = Some (length v).
Proof.
  intros Ha. induction v as [|c v IH]; intros Hv.
  - change (index_of (a :: p) ((a :: p) ++ t) = Some 0%nat).
    assert (E := starts_with_app (a :: p) t). unfold index_of. cbn [app] in *. by rewrite E.
  - cbn [includes] in Hv. apply orb_false_iff in Hv as [Hs Hv].
    assert (E : starts_with (a :: p) ((c :: v) ++ (a :: p) ++ t) = false).
    { apply not_true_iff_false. intros [u Hu]%starts_with_spec.
      apply not_true_iff_false in Hs. apply app_eq_inv in Hu as [(k & Hk & _)|(k & Hk & Hk')].
      - apply Hs, starts_with_spec. eauto.
      - destruct k as [|x k]; [apply Hs, starts_with_spec; exists []; by rewrite app_nil_r in Hk |- *|].
        injection Hk as -> Hp. injection Hk' as <- _. apply Ha. rewrite Hp. set_solver. }
    change (index_of (a :: p) ((c :: v) ++ (a :: p) ++ t)) with
      (if starts_with (a :: p) ((c :: v) ++ (a :: p) ++ t) then Some 0%nat
       else S <$> index_of (a :: p) (v ++ (a :: p) ++ t)).
    by rewrite E, IH.
Qed.

(** ** [split] on one character and [join] *)
Fixpoint split_on (c : Z) (s : jsstr) : list jsstr :=
  match s with
  | [] => [[]]
  | x :: s' =>
      if x =? c then [] :: split_on c s'
      else match split_on c s' with
           | w :: ws => (x :: w) :: ws
           | [] => [[x]]
           end
  end.

Fixpoint join (sep : jsstr) (l : list jsstr) : jsstr :=
  match l with
  | [] => []
  | [w] => w
  | w :: l' => w ++ sep ++ join sep l'
  end.

Lemma join_nil_concat l : join [] l = concat l.
Proof. induction l as [|w [|w' l] IH]; [done | by cbn; rewrite app_nil_r |]. cbn in *. by rewrite IH. Qed.

Definition no_char (c : Z) (s : jsstr) : bool := forallb (fun x => negb (x =? c)) s.

Lemma split_on_no_char c s : no_char c s = true -> split_on c s = [s].
Proof.
  unfold no_char. induction s as [|x s IH]; simpl; [done|].
  intros [->%negb_true_iff Hs]%andb_true_iff. by rewrite (IH Hs).
Qed.

Lemma split_on_app c w s :
  no_char c w = true -> split_on c (w ++ c :: s) = w :: split_on c s.
Proof.
  unfold no_char. induction w as [|x w IH]; simpl; [by rewrite Z.eqb_refl|].
  intros [->%negb_true_iff Hs]%andb_true_iff. by rewrite (IH Hs).
Qed.

(** Splitting at the separator undoes joining with it. *)
Lemma split_join c l :
  l <> [] -> forallb (no_char c) l = true -> split_on c (join [c] l) = l.
Proof.
  induction l as [|w l IH]; [done|]. intros _ [Hw Hl]%andb_true_iff. simpl.
  destruct l as [|w' l]; [by apply split_on_no_char|].
  simpl app. rewrite split_on_app by done. f_equal. by apply IH.
Qed.

Lemma no_char_app c s t : no_char c (s ++ t) = no_char c s && no_char c t.
Proof. apply forallb_app. Qed.

(** [/\s/g -> ''] *)
Definition remove_ws (s : jsstr) : jsstr := base.filter (fun c => is_ws c = false) s.

Lemma remove_ws_id s : forallb (fun c => negb (is_ws c)) s = true -> remove_ws s = s.
Proof.
  unfold remove_ws. induction s as [|c s IH]; [done|]. simpl.
  intros [Hc%negb_true_iff Hs]%andb_true_iff. rewrite filter_cons_True by done. by rewrite IH.
Qed.

(** [toUpperCase] and [toLowerCase] on the ASCII letters; used where the code
    compares the result with ASCII words that no other letter maps to. *)
Definition ascii_upper (s : jsstr) : jsstr := map (fun c => if (97 <=? c) && (c <=? 122) then c - 32 else c) s.
Definition ascii_lower (s : jsstr) : jsstr := map (fun c => if (65 <=? c) && (c <=? 90) then c + 32 else c) s.

(** ** Decimal digits *)
Definition parse_digits (s : jsstr) : Z := fold_left (fun acc c => acc * 10 + (c - 48)) s 0.

Fixpoint digits_of (fuel : nat) (n : Z) : jsstr :=
  match fuel with
  | O => []
  | S f => if n <? 10 then [48 + n] else digits_of f (n / 10) ++ [48 + n mod 10]
  end.

(** [String(n)] for an integer [n]; the fuel is the number of binary digits. *)
Definition string_of_Z (n : Z) : jsstr :=
  if n <? 0 then minus :: digits_of (S (Z.to_nat (Z.log2 (- n)))) (- n)
  else digits_of (S (Z.to_nat (Z.log2 n))) n.

Lemma parse_digits_app s t :
  parse_digits (s ++ t) = fold_left (fun acc c => acc * 10 + (c - 48)) t (parse_digits s).
Proof. apply fold_left_app. Qed.

Lemma digits_of_correct fuel n :
  0 <= n < 10 ^ Z.of_nat fuel ->
  parse_digits (digits_of fuel n) = n /\ forallb is_digit (digits_of fuel n) = true.
Proof.
  revert n. induction fuel as [|f IH]; intros n Hn; [simpl in *; unfold parse_digits; simpl; split; [lia|done]|].
  cbn [digits_of]. destruct (Z.ltb_spec n 10).
  - unfold parse_digits. simpl. split; [lia|]. unfold is_digit. rewrite andb_true_r. apply andb_true_iff; lia.
  - rewrite Nat2Z.inj_succ, Z.pow_succ_r in Hn by lia.
    destruct (IH (n / 10)) as [Hp Hd].
    { split; [apply Z.div_pos; lia|]. apply Z.div_lt_upper_bound; lia. }
    pose proof (Z.mod_pos_bound n 10). split.
    + rewrite parse_digits_app, Hp. simpl. pose proof (Z.div_mod n 10). lia.
    + rewrite forallb_app, Hd. simpl. unfold is_digit. rewrite andb_true_r. apply andb_true_iff; lia.
Qed.

Lemma digits_of_nonempty fuel n : digits_of (S fuel) n <> [].
Proof.
  simpl. destruct (n <? 10); [done|]. intros H%app_eq_nil. by destruct H.
Qed.

Lemma log2_fuel n : 0 <= n -> 0 <= n < 10 ^ Z.of_nat (S (Z.to_nat (Z.log2 n))).
Proof.
  intros Hn. split; [done|]. pose proof (Z.log2_nonneg n).
  rewrite Nat2Z.inj_succ, Z2Nat.id by lia.
  assert (n < 2 ^ Z.succ (Z.log2 n)).
  { destruct (Z.eq_dec n 0) as [->|]; [done|]. apply Z.log2_spec. lia. }
  enough (2 ^ Z.succ (Z.log2 n) <= 10 ^ Z.succ (Z.log2 n)) by lia.
  apply Z.pow_le_mono_l. lia.
Qed.

(** Printing a natural number and reading its digits back gives the number. *)
Lemma string_of_Z_digits n :
  0 <= n ->
  forallb is_digit (string_of_Z n) = true /\ parse_digits (string_of_Z n) = n /\ string_of_Z n <> [].
Proof.
  intros Hn. unfold string_of_Z. destruct (Z.ltb_spec n 0); [lia|].
  destruct (digits_of_correct _ _ (log2_fuel n Hn)) as [Hp Hd].
  split; [exact Hd|]. split; [exact Hp|]. apply digits_of_nonempty.
Qed.

Lemma is_digit_facts c :
  is_digit c = true -> is_ws c = false /\ (c =? comma) = false /\ (c =? minus) = false.
Proof. unfold is_digit, is_ws, comma, minus. intros. bool_to_prop. lia. Qed.

Lemma digits_no_ws s : forallb is_digit s = true -> forallb (fun c => negb (is_ws c)) s = true.
Proof.
  induction s as [|c s IH]; simpl; [done|]. intros [Hc Hs]%andb_true_iff.
  apply is_digit_facts in Hc as (-> & _ & _). auto.
Qed.

Lemma digits_no_char d s : is_digit d = false -> forallb is_digit s = true -> no_char d s = true.
Proof.
  intros Hd. unfold no_char. induction s as [|c s IH]; simpl; [done|].
  intros [Hc Hs]%andb_true_iff. rewrite IH by done. destruct (Z.eqb_spec c d); [congruence|done].
Qed.

(** ** Lexicographic order of code units: what [Array.prototype.sort] without a
    comparator uses on strings *)
Fixpoint str_cmp (a b : jsstr) : Z :=
  match a, b with
  | [], [] => 0
  | [], _ => -1
  | _, [] => 1
  | x :: a', y :: b' => if x =? y then str_cmp a' b' else if x <? y then -1 else 1
  end.

#[export] Instance str_cmp_Comparator : Comparator str_cmp.
Proof.
  split.
  - induction a as [|x a IH]; intros [|y b]; simpl; try lia.
    rewrite (Z.eqb_sym y x). destruct (Z.eqb_spec x y); [apply IH|].
    destruct (Z.ltb_spec x y), (Z.ltb_spec y x); lia.
  - induction a as [|x a IH]; intros [|y b] [|z c]; simpl; try lia.
    destruct (Z.eqb_spec x y), (Z.eqb_spec y z), (Z.eqb_spec x z); subst; try lia; eauto;
    repeat match goal with |- context [?u <? ?v] => destruct (Z.ltb_spec u v) end; try lia.
Qed.

Lemma str_cmp_eq a b : str_cmp a b = 0 <-> a = b.
Proof.
  revert b. induction a as [|x a IH]; intros [|y b]; simpl; try naive_solver lia.
  destruct (Z.eqb_spec x y); [rewrite IH; naive_solver|].
  destruct (Z.ltb_spec x y); naive_solver lia.
Qed.

Lemma str_cmp_sign a b : Z.sgn (str_cmp b a) = - Z.sgn (str_cmp a b).
Proof.
  revert b. induction a as [|x a IH]; intros [|y b]; simpl; try lia.
  rewrite (Z.eqb_sym y x). destruct (Z.eqb_spec x y); [apply IH|].
  destruct (Z.ltb_spec x y), (Z.ltb_spec y x); lia.
Qed.

#[export] Instance str_cmp_SignComparator : SignComparator str_cmp.
Proof. split; [apply str_cmp_sign | apply cmp_trans]. Qed.

#[export] Hint Resolve trim_trimmed trimmed_trim trim_no_ws digits_no_ws digits_no_char : js.
#[export] Hint Rewrite trim_idemp strip_prefix_app starts_with_app : js.
