(* ===== verification/JsNumber.v ===== *)
(** * JavaScript numbers

    A JavaScript number is an IEEE-754 double.  It is modelled by the standard
    library's [spec_float] at precision 53 and maximal exponent 1024, whose
    operations round as the hardware does and evaluate inside Rocq.  The file
    adds the conversions the language defines on top of them: from decimal
    literals and strings ([Number(s)]), to strings ([String(x)], shortest
    digits that read back), [toFixed], and the integer parts. *)
From Stdlib Require Import SpecFloat.
From S2P Require Import Prelude JsString.
Local Open Scope Z_scope.

Definition num : Set := spec_float.

Definition num_zero : num := S754_zero false.
Definition num_nan : num := S754_nan.
Definition num_inf (s : bool) : num := S754_infinity s.

Definition num_add : num -> num -> num := SFadd 53 1024.
Definition num_sub : num -> num -> num := SFsub 53 1024.
Definition num_mul : num -> num -> num := SFmul 53 1024.
Definition num_div : num -> num -> num := SFdiv 53 1024.
Definition num_opp : num -> num := SFopp.
Definition num_eqb : num -> num -> bool := SFeqb.
Definition num_ltb : num -> num -> bool := SFltb.
Definition num_leb : num -> num -> bool := SFleb.

#[export] Instance num_eq_dec : EqDecision num.
Proof. unfold num. solve_decision. Defined.

Definition num_is_nan (x : num) : bool := match x with S754_nan => true | _ => false end.
Definition num_is_finite (x : num) : bool :=
  match x with S754_nan | S754_infinity _ => false | _ => true end.

(** [Boolean(x)]: zeros and NaN are falsy. *)
Definition num_truthy (x : num) : bool :=
  match x with S754_nan | S754_zero _ => false | _ => true end.

Definition num_of_Z (z : Z) : num := binary_normalize 53 1024 z 0 false.

(** The double nearest to [m * 10^e] for [0 <= m]; an exponent out of reach of
    the format is an infinity or a zero without computing the power. *)
Definition num_of_dec (m e : Z) : num :=
  if m =? 0 then num_zero
  else if 400 <? e then num_inf false
  else if 0 <=? e then num_of_Z (m * 10 ^ e)
  else if 400 + Z.log2 m <? - e then num_zero
  else SFdiv 53 1024 (S754_finite false (Z.to_pos m) 0) (S754_finite false (Z.to_pos (10 ^ (- e))) 0).

(** ** Integer parts *)

(** A finite number as a fraction of integers, the denominator positive. *)
Definition num_fraction (x : num) : Z * Z :=
  match x with
  | S754_finite s m e =>
      let v := if s then - Z.pos m else Z.pos m in
      if 0 <=? e then (v * 2 ^ e, 1) else (v, 2 ^ (- e))
  | _ => (0, 1)
  end.

(** [Math.floor], [Math.ceil], [Math.trunc] of a finite number, as integers. *)
Definition num_floor (x : num) : Z := let '(n, d) := num_fraction x in n / d.
Definition num_ceil (x : num) : Z := let '(n, d) := num_fraction x in - ((- n) / d).
Definition num_trunc (x : num) : Z := let '(n, d) := num_fraction x in Z.quot n d.

Definition num_is_integer (x : num) : bool :=
  num_is_finite x && (let '(n, d) := num_fraction x in n mod d =? 0).

(** ** Reading decimal literals *)
Definition dot : Z := 46.

Definition exponent_part (s : jsstr) : Z * jsstr :=
  match s with
  | c :: r =>
      if (c =? 101) || (c =? 69) then
        let '(neg, r1) :=
          match r with
          | d :: r' => if d =? minus then (true, r') else if d =? 43 then (false, r') else (false, r)
          | [] => (false, r)
          end in
        match take_while is_digit r1 with
        | [] => (0, s)
        | ds => let e := parse_digits ds in (if neg then - e else e, drop_while is_digit r1)
        end
      else (0, s)
  | [] => (0, s)
  end.

(** The longest unsigned decimal literal at the start of the string: its
    mantissa, its exponent and what follows. *)
Definition decimal_prefix (s : jsstr) : option (Z * Z * jsstr) :=
  let ip := take_while is_digit s in
  let r1 := drop_while is_digit s in
  let '(fp, r2) :=
    match r1 with
    | c :: r => if c =? dot then (take_while is_digit r, drop_while is_digit r) else ([], r1)
    | [] => ([], r1)
    end in
  match ip ++ fp with
  | [] => None
  | ds => let '(e, r3) := exponent_part r2 in
          Some (parse_digits ds, e - Z.of_nat (length fp), r3)
  end.

Definition split_sign (s : jsstr) : bool * jsstr :=
  match s with
  | c :: r => if c =? minus then (true, r) else if c =? 43 then (false, r) else (false, s)
  | [] => (false, s)
  end.

(** Digits of the literals [0x..], [0o..] and [0b..]. *)
Definition digit_value (c : Z) : Z :=
  if is_digit c then c - 48
  else if (97 <=? c) && (c <=? 122) then c - 87
  else if (65 <=? c) && (c <=? 90) then c - 55 else 99.

Definition radix_of (c : Z) : option Z :=
  if (c =? 120) || (c =? 88) then Some 16
  else if (c =? 111) || (c =? 79) then Some 8
  else if (c =? 98) || (c =? 66) then Some 2 else None.

Definition parse_radix (base : Z) (ds : jsstr) : num :=
  match ds with
  | [] => num_nan
  | _ => if forallb (fun c => digit_value c <? base) ds
         then num_of_Z (fold_left (fun acc c => acc * base + digit_value c) ds 0) else num_nan
  end.

(** [Number(s)] of a string. *)
Definition num_of_string (s : jsstr) : num :=
  let t := trim s in
  match t with
  | [] => num_zero
  | z :: c :: ds =>
      match (if z =? 48 then radix_of c else None) with
      | Some base => parse_radix base ds
      | None =>
          let '(neg, r) := split_sign t in
          if bool_decide (r = js "Infinity") then num_inf neg
          else match decimal_prefix r with
               | Some (m, e, []) => if neg then num_opp (num_of_dec m e) else num_of_dec m e
               | _ => num_nan
               end
      end
  | [c] => if is_digit c then num_of_Z (c - 48) else num_nan
  end.

(** ** Printing *)

Definition ndiv_round (n d : Z) : Z := (2 * n + d) / (2 * d).

Definition scale10 (n d k : Z) : Z * Z := if 0 <=? k then (n, d * 10 ^ k) else (n * 10 ^ (- k), d).

(** The number of decimal digits before the point of [n / d] (at most zero for
    a fraction below one). *)
Definition decimal_exponent (n d : Z) : Z :=
  let g := (Z.log2 n - Z.log2 d) * 30103 / 100000 in
  let below k := let '(a, b) := scale10 n d k in a <? b in
  match List.find below [g - 1; g; g + 1; g + 2] with Some k => k | None => g + 2 end.

(** The shortest digits that read back as the number: [k] digits for the least
    [k], nearest to the value. *)
Fixpoint shortest_digits (fuel : nat) (x : num) (n d e k : Z) : Z * Z :=
  let '(a, b) := scale10 n d (e - k) in
  let ds := ndiv_round a b in
  match fuel with
  | O => (ds, k)
  | S f => if num_eqb (num_of_dec ds (e - k)) x then (ds, k) else shortest_digits f x n d e (k + 1)
  end.

Definition zeros (n : Z) : jsstr := repeat 48 (Z.to_nat n).

Definition format_decimal (ds : jsstr) (n : Z) : jsstr :=
  let k := Z.of_nat (length ds) in
  if (k <=? n) && (n <=? 21) then ds ++ zeros (n - k)
  else if (0 <? n) && (n <=? 21) then
    take (Z.to_nat n) ds ++ [dot] ++ drop (Z.to_nat n) ds
  else if (-6 <? n) && (n <=? 0) then js "0." ++ zeros (- n) ++ ds
  else
    let e := n - 1 in
    let mant := match ds with [c] => [c] | c :: r => [c; dot] ++ r | [] => [] end in
    mant ++ js "e" ++ (if 0 <? e then js "+" else js "-") ++ string_of_Z (Z.abs e).

(** [String(x)] *)
Definition num_to_string (x : num) : jsstr :=
  match x with
  | S754_nan => js "NaN"
  | S754_zero _ => js "0"
  | S754_infinity s => if s then js "-Infinity" else js "Infinity"
  | S754_finite s m e =>
      let a := S754_finite false m e in
      let '(n, d) := num_fraction a in
      let p := decimal_exponent n d in
      let '(ds, k) := shortest_digits 16 a n d p 1 in
      let '(ds, p) := if ds =? 10 ^ k then (1, p + 1) else (ds, p) in
      (if s then js "-" else []) ++ format_decimal (string_of_Z ds) p
  end.

(** [x.toFixed(f)] *)
Definition num_to_fixed (f : Z) (x : num) : jsstr :=
  match x with
  | S754_finite s m e =>
      let '(n, d) := num_fraction (S754_finite false m e) in
      if 10 ^ 21 * d <=? n then num_to_string x
      else
        let v := ndiv_round (n * 10 ^ f) d in
        let ds := string_of_Z v in
        let ds := zeros (f + 1 - Z.of_nat (length ds)) ++ ds in
        let k := length ds in
        let i := (k - Z.to_nat f)%nat in
        (if s then js "-" else []) ++
        (if f =? 0 then ds else take i ds ++ [dot] ++ drop i ds)
  | S754_zero _ => if f =? 0 then js "0" else js "0." ++ zeros f
  | _ => num_to_string x
  end.

(** ** [Math] and [parseFloat] *)
Definition num_abs : num -> num := SFabs.

(** [Math.max] and [Math.min] of numbers that are not [NaN]; of two zeros the
    first one. *)
Definition num_max (x y : num) : num := if num_ltb x y then y else x.
Definition num_min (x y : num) : num := if num_ltb y x then y else x.

(** [Math.round]: the nearest integer, the greater one of two; an integer of the
    format is itself. *)
Definition num_round (x : num) : num :=
  if num_is_integer x || negb (num_is_finite x) then x
  else let '(n, d) := num_fraction x in
       let z := (2 * n + d) / (2 * d) in
       if z =? 0 then S754_zero (num_ltb x num_zero) else num_of_Z z.

(** [Math.trunc] *)
Definition num_truncate (x : num) : num :=
  match x with
  | S754_finite s _ _ => let z := num_trunc x in if z =? 0 then S754_zero s else num_of_Z z
  | _ => x
  end.

(** [parseFloat] *)
Definition parseFloat (s : jsstr) : num :=
  let '(neg, r) := split_sign (trim_start s) in
  if starts_with (js "Infinity") r then num_inf neg
  else match decimal_prefix r with
       | Some (m, e, _) => if neg then num_opp (num_of_dec m e) else num_of_dec m e
       | None => num_nan
       end.

(** ** Checks of the conversions on known values *)
Example num_01 : num_to_string (num_add (num_of_string (js "0.1")) (num_of_string (js "0.2"))) =
  js "0.30000000000000004".
Proof. vm_compute. reflexivity. Qed.

Example num_print : map (fun s => num_to_string (num_of_string s))
  [js "1e21"; js " 123456789012345680000 "; js "1.50"; js "5e-324"; js "0x1F"; js "-0.000001"; js "1e-7"; js "100"; js "1e400"; js "abc"; js ""]
  = [js "1e+21"; js "123456789012345680000"; js "1.5"; js "5e-324"; js "31"; js "-0.000001"; js "1e-7"; js "100"; js "Infinity"; js "NaN"; js "0"].
Proof. vm_compute. reflexivity. Qed.

Example num_fixed : map (fun p => num_to_fixed p.1 (num_of_string p.2))
  [(2, js "1.005"); (2, js "0.34"); (0, js "2.5"); (1, js "-0.04"); (2, js "0")]
  = [js "1.00"; js "0.34"; js "3"; js "-0.0"; js "0.00"].
Proof. vm_compute. reflexivity. Qed.
