(* ===== verification/JsNumberOrder.v ===== *)
(** * The order of doubles

    [num_leb] compares sign, exponent and mantissa.  On the numbers of the format
    this is the order of the rationals they stand for: every finite double is an
    integer multiple of the smallest positive one, and the comparison is that of
    the multiples. *)
From S2P Require Import Prelude JsString JsNumber.
From Stdlib Require Import SpecFloat.
Local Open Scope Z_scope.

(** A number of the format. *)
Definition is_double (x : num) : bool := valid_binary 53 1024 x.

(** A finite number as a multiple of [2^-1074]. *)
Definition num_units (x : num) : Z :=
  match x with
  | S754_finite s m e => (if s then -1 else 1) * Z.pos m * 2 ^ (e + 1074)
  | _ => 0
  end.

Lemma digits2_bounds m : 2 ^ (Z.pos (digits2_pos m) - 1) <= Z.pos m < 2 ^ Z.pos (digits2_pos m).
Proof.
  induction m as [m IH|m IH|]; [| |cbn; lia]; cbn [digits2_pos]; rewrite Pos2Z.inj_succ; set (d := Z.pos (digits2_pos m)) in *;
    replace (Z.succ d - 1) with (Z.succ (d - 1)) by lia; rewrite !Z.pow_succ_r by lia; lia.
Qed.

(** The exponent of a double is at least -1074, its mantissa below [2^53], and at
    least [2^52] when the exponent is not the least one. *)
Lemma double_mantissa s m e : is_double (S754_finite s m e) = true -> -1074 <= e /\ Z.pos m < 2 ^ 53 /\ (-1074 < e -> 2 ^ 52 <= Z.pos m).
Proof.
  cbn. unfold bounded, canonical_mantissa, fexp. change (SpecFloat.emin 53 1024) with (-1074).
  rewrite andb_true_iff, Z.eqb_eq, Z.leb_le. intros [H _]. pose proof (digits2_bounds m) as [L U]. set (d := Z.pos (digits2_pos m)) in *.
  assert (d <= 53) by lia. split; [lia|]. split.
  - eapply Z.lt_le_trans; [exact U|]. apply Z.pow_le_mono_r; lia.
  - intros He. replace d with 53 in L by lia. exact L.
Qed.

Lemma units_lt s1 s2 m1 m2 e1 e2 :
  is_double (S754_finite s1 m1 e1) = true -> is_double (S754_finite s2 m2 e2) = true -> e1 < e2 -> Z.pos m1 * 2 ^ (e1 + 1074) < Z.pos m2 * 2 ^ (e2 + 1074).
Proof.
  intros H1 H2 He. apply double_mantissa in H1 as (L1 & U1 & _). apply double_mantissa in H2 as (L2 & _ & F2).
  replace (e2 + 1074) with ((e1 + 1074) + (e2 - e1)) by lia. rewrite (Z.pow_add_r 2 (e1 + 1074) (e2 - e1)) by lia.
  assert (0 < 2 ^ (e1 + 1074)) by (apply Z.pow_pos_nonneg; lia). assert (2 ^ 1 <= 2 ^ (e2 - e1)) by (apply Z.pow_le_mono_r; lia).
  specialize (F2 ltac:(lia)). change (2 ^ 53) with (2 ^ 52 * 2) in U1. change (2 ^ 1) with 2 in *. assert (0 < 2 ^ 52) by lia.
  set (P := 2 ^ (e1 + 1074)) in *. set (K := 2 ^ (e2 - e1)) in *. set (C := 2 ^ 52) in *.
  assert (Z.pos m1 < Z.pos m2 * K) by nia. replace (Z.pos m2 * (P * K)) with (Z.pos m2 * K * P) by ring. by apply Z.mul_lt_mono_pos_r.
Qed.

(** The comparison of finite doubles. *)
Lemma num_compare x y :
  is_double x = true -> is_double y = true -> num_is_finite x = true -> num_is_finite y = true -> SFcompare x y = Some (Z.compare (num_units x) (num_units y)).
Proof.
  intros Hx Hy Fx Fy. destruct x as [sx|sx| |sx mx ex]; try done; destruct y as [sy|sy| |sy my ey]; try done; cbn [num_units SFcompare]; f_equal.
  - symmetry. apply double_mantissa in Hy as (L & _). assert (0 < 2 ^ (ey + 1074)) by (apply Z.pow_pos_nonneg; lia).
    destruct sy; [apply Z.compare_gt_iff | apply Z.compare_lt_iff]; lia.
  - symmetry. apply double_mantissa in Hx as (L & _). assert (0 < 2 ^ (ex + 1074)) by (apply Z.pow_pos_nonneg; lia).
    destruct sx; [apply Z.compare_lt_iff | apply Z.compare_gt_iff]; lia.
  - pose proof (double_mantissa _ _ _ Hx) as (Lx & _). pose proof (double_mantissa _ _ _ Hy) as (Ly & _).
    assert (0 < 2 ^ (ex + 1074)) by (apply Z.pow_pos_nonneg; lia). assert (0 < 2 ^ (ey + 1074)) by (apply Z.pow_pos_nonneg; lia).
    destruct sx, sy; try (symmetry; (apply Z.compare_lt_iff || apply Z.compare_gt_iff); lia);
      destruct (Z.compare_spec ex ey) as [->|Hlt|Hlt];
      try (pose proof (units_lt _ _ _ _ _ _ Hx Hy Hlt)); try (pose proof (units_lt _ _ _ _ _ _ Hy Hx Hlt));
      try (symmetry; (apply Z.compare_lt_iff; lia) || (apply Z.compare_gt_iff; lia)).
    + change (Pos.compare_cont Eq mx my) with (Pos.compare mx my). rewrite <- Pos.compare_antisym. change (Pos.compare my mx) with (Z.compare (Z.pos my) (Z.pos mx)).
      destruct (Z.compare_spec (Z.pos my) (Z.pos mx)) as [E|E|E]; symmetry; [apply Z.compare_eq_iff; nia | apply Z.compare_lt_iff; nia | apply Z.compare_gt_iff; nia].
    + change (Pos.compare_cont Eq mx my) with (Z.compare (Z.pos mx) (Z.pos my)).
      destruct (Z.compare_spec (Z.pos mx) (Z.pos my)) as [E|E|E]; symmetry; [apply Z.compare_eq_iff; nia | apply Z.compare_lt_iff; nia | apply Z.compare_gt_iff; nia].
Qed.

Lemma num_leb_units x y :
  is_double x = true -> is_double y = true -> num_is_finite x = true -> num_is_finite y = true -> num_leb x y = (num_units x <=? num_units y).
Proof. intros. unfold num_leb, SFleb. rewrite num_compare by done. unfold Z.leb. by destruct (_ ?= _). Qed.

Lemma num_ltb_units x y :
  is_double x = true -> is_double y = true -> num_is_finite x = true -> num_is_finite y = true -> num_ltb x y = (num_units x <? num_units y).
Proof. intros. unfold num_ltb, SFltb. rewrite num_compare by done. unfold Z.ltb. by destruct (_ ?= _). Qed.

(** The fraction of a double in terms of its multiple. *)
Lemma num_fraction_units x : is_double x = true -> let '(n, d) := num_fraction x in 0 < d /\ n * 2 ^ 1074 = num_units x * d.
Proof.
  intros H. destruct x as [s|s| |s m e]; try (cbn; lia). pose proof (double_mantissa _ _ _ H) as (L & _).
  cbn [num_fraction num_units]. destruct (Z.leb_spec 0 e).
  - split; [lia|]. rewrite Z.pow_add_r by lia. destruct s; lia.
  - split; [apply Z.pow_pos_nonneg; lia|]. replace (2 ^ 1074) with (2 ^ (e + 1074) * 2 ^ (- e)) by (rewrite <- Z.pow_add_r by lia; f_equal; lia). destruct s; lia.
Qed.
