(* ===== verification/JsNumberRound.v ===== *)
(** * Rounding errors of doubles

    Products and quotients of [SpecFloat] are rounded to the nearest double.  For
    positive numbers away from the ends of the range this file bounds the relative
    error of one operation by [2^-53], which is what statements on amounts that are
    converted back and forth need. *)
From Stdlib Require Import SpecFloat Reals Lra.
From S2P Require Import Prelude JsString JsNumber JsNumberOrder.
Local Open Scope R_scope.

(** ** Powers of two *)
Definition bpow (e : Z) : R := powerRZ 2 e.

Lemma bpow_pos e : 0 < bpow e.
Proof. apply powerRZ_lt. lra. Qed.

Lemma bpow_add a b : bpow (a + b) = bpow a * bpow b.
Proof. apply powerRZ_add. lra. Qed.

Lemma bpow_IZR e : (0 <= e)%Z -> bpow e = IZR (2 ^ e).
Proof. intros H. unfold bpow. rewrite <- (Z2Nat.id e) by done. rewrite <- pow_powerRZ, <- pow_IZR. done. Qed.

Lemma bpow_le a b : (a <= b)%Z -> bpow a <= bpow b.
Proof.
  intros H. replace b with (a + (b - a))%Z by lia. rewrite bpow_add. pose proof (bpow_pos a).
  assert (1 <= bpow (b - a)); [|nra]. rewrite bpow_IZR by lia. apply IZR_le. pose proof (Z.pow_pos_nonneg 2 (b - a)). lia.
Qed.

Lemma bpow_lt_inv a b : bpow a < bpow b -> (a < b)%Z.
Proof. intros H. destruct (Z_lt_le_dec a b) as [|L]; [done|]. apply bpow_le in L. lra. Qed.

Lemma bpow_0 : bpow 0 = 1.
Proof. reflexivity. Qed.

Lemma bpow_1 : bpow 1 = 2.
Proof. unfold bpow. simpl. lra. Qed.

(** ** Locations *)

(** [v] lies at the integer [m] or strictly above it, where [l] says. *)
Definition located (m : Z) (l : location) (v : R) : Prop :=
  match l with
  | loc_Exact => v = IZR m
  | loc_Inexact Lt => IZR m < v < IZR m + / 2
  | loc_Inexact Eq => v = IZR m + / 2
  | loc_Inexact Gt => IZR m + / 2 < v < IZR m + 1
  end.

Definition recorded (r : shr_record) (v : R) : Prop := located (shr_m r) (loc_of_shr_record r) v.

Lemma recorded_of_loc m l v : located m l v -> recorded (shr_record_of_loc m l) v.
Proof. by destruct l as [|[]]. Qed.

(** One shift halves the value. *)
Lemma shr_1_recorded r v : (0 <= shr_m r)%Z -> recorded r v -> (0 <= shr_m (shr_1 r))%Z /\ recorded (shr_1 r) (v / 2).
Proof.
  destruct r as [m b s]. unfold recorded. cbn [shr_m]. intros Hm H. destruct m as [|p|p]; [| |lia].
  - split; [done|]. destruct b, s; cbn in *; lra.
  - destruct p as [p|p|]; (split; [done|]); destruct b, s; cbn [shr_1 shr_m loc_of_shr_record located orb] in *;
      rewrite ?(Pos2Z.inj_xI p), ?(Pos2Z.inj_xO p), ?plus_IZR, ?mult_IZR in H; lra.
Qed.

Lemma iter_shr_recorded p r v : (0 <= shr_m r)%Z -> recorded r v ->
  (0 <= shr_m (SpecFloat.iter_pos shr_1 p r))%Z /\ recorded (SpecFloat.iter_pos shr_1 p r) (v / bpow (Z.pos p)).
Proof.
  revert r v. induction p as [p IH|p IH|]; intros r v Hm H; cbn [SpecFloat.iter_pos].
  - destruct (shr_1_recorded _ _ Hm H) as [H1 H2]. destruct (IH _ _ H1 H2) as [H3 H4]. destruct (IH _ _ H3 H4) as [H5 H6]. split; [done|].
    replace (v / bpow (Z.pos p~1)) with (v / 2 / bpow (Z.pos p) / bpow (Z.pos p)); [done|].
    rewrite Pos2Z.inj_xI. replace (2 * Z.pos p + 1)%Z with (1 + Z.pos p + Z.pos p)%Z by lia. rewrite !bpow_add, bpow_1.
    pose proof (bpow_pos (Z.pos p)). field. lra.
  - destruct (IH _ _ Hm H) as [H3 H4]. destruct (IH _ _ H3 H4) as [H5 H6]. split; [done|].
    replace (v / bpow (Z.pos p~0)) with (v / bpow (Z.pos p) / bpow (Z.pos p)); [done|].
    rewrite Pos2Z.inj_xO. replace (2 * Z.pos p)%Z with (Z.pos p + Z.pos p)%Z by lia. rewrite bpow_add. pose proof (bpow_pos (Z.pos p)). field. lra.
  - rewrite bpow_1. by apply shr_1_recorded.
Qed.

Lemma shr_recorded r v e n : (0 <= n)%Z -> (0 <= shr_m r)%Z -> recorded r v ->
  exists r', shr r e n = (r', (e + n)%Z) /\ (0 <= shr_m r')%Z /\ recorded r' (v / bpow n).
Proof.
  intros Hn Hm H. destruct n as [|p|p]; [| |lia].
  - exists r. rewrite Z.add_0_r, bpow_0. split_and!; try done. by rewrite Rdiv_1_r.
  - destruct (iter_shr_recorded p r v Hm H) as [H1 H2]. eexists. split; [reflexivity | done].
Qed.

Lemma located_bounds m l v : located m l v -> IZR m <= v < IZR m + 1.
Proof. destruct l as [|[]]; cbn; lra. Qed.

Lemma rounded_near m l v : located m l v -> Rabs (IZR (round_nearest_even m l) - v) <= / 2 /\ (round_nearest_even m l = m \/ round_nearest_even m l = m + 1)%Z.
Proof.
  destruct l as [|[]]; cbn [located round_nearest_even]; intros H.
  - split; [rewrite H, Rminus_diag, Rabs_R0; lra | by left].
  - split; [|destruct (Z.even m); auto]. rewrite H. destruct (Z.even m); rewrite ?plus_IZR; apply Rabs_le; lra.
  - split; [apply Rabs_le; lra | by left].
  - split; [|by right]. rewrite plus_IZR. apply Rabs_le; lra.
Qed.

(** ** Rounding *)

(** A positive double with a full mantissa, and its value. *)
Definition normal (x : num) (r : R) : Prop :=
  exists m e, x = S754_finite false m e /\ (2 ^ 52 <= Z.pos m < 2 ^ 53)%Z /\ r = IZR (Z.pos m) * bpow e.

Lemma digits_range p d : (2 ^ (d - 1) <= Z.pos p < 2 ^ d)%Z -> (0 < d)%Z -> Z.pos (digits2_pos p) = d.
Proof.
  intros [L U] Hd. pose proof (digits2_bounds p) as [L' U']. set (c := Z.pos (digits2_pos p)) in *.
  assert (~ (c < d)%Z) by (intros H; assert (2 ^ c <= 2 ^ (d - 1))%Z by (apply Z.pow_le_mono_r; lia); lia).
  assert (~ (d < c)%Z) by (intros H1; assert (2 ^ d <= 2 ^ (c - 1))%Z by (apply Z.pow_le_mono_r; lia); lia). lia.
Qed.

(** A mantissa of 53 digits, or the next power of two, is kept. *)
Lemma second_shift m2 E : (2 ^ 52 <= m2 <= 2 ^ 53)%Z -> (-1074 <= E <= 960)%Z ->
  exists x, (let '(mrs, e) := shr_fexp 53 1024 m2 E loc_Exact in
             match shr_m mrs with Z0 => S754_zero false | Zpos m => if (e <=? 1024 - 53)%Z then S754_finite false m e else S754_infinity false | _ => S754_nan end) = x /\
            normal x (IZR m2 * bpow E).
Proof.
  intros Hm HE. destruct (decide (m2 = 2 ^ 53)%Z) as [->|Hne].
  - unfold shr_fexp, fexp. change (Zdigits2 (2 ^ 53)) with 54%Z. change (emin 53 1024) with (-1074)%Z.
    replace (Z.max (54 + E - 53) (-1074) - E)%Z with 1%Z by lia. cbn [shr shr_record_of_loc]. change (SpecFloat.iter_pos shr_1 1 {| shr_m := 2 ^ 53; shr_r := false; shr_s := false |})
      with (Build_shr_record (2 ^ 52) false false). cbn [shr_m]. change (2 ^ 52)%Z with (Z.pos 4503599627370496).
    destruct (Z.leb_spec (E + 1) (1024 - 53)); [|lia]. eexists. split; [reflexivity|]. exists 4503599627370496%positive, (E + 1)%Z. split; [done|]. split; [done|].
    change (2 ^ 53)%Z with (2 * Z.pos 4503599627370496)%Z. rewrite mult_IZR, bpow_add, bpow_1. ring.
  - destruct m2 as [|p|p]; [lia | | lia]. unfold shr_fexp, fexp. cbn [Zdigits2]. rewrite (digits_range p 53) by (cbn; lia).
    change (emin 53 1024) with (-1074)%Z. replace (Z.max (53 + E - 53) (-1074) - E)%Z with 0%Z by lia. cbn [shr shr_record_of_loc shr_m].
    destruct (Z.leb_spec E (1024 - 53)); [|lia]. eexists. split; [reflexivity|]. exists p, E. split; [done|]. split; [lia | done].
Qed.

(** The error of one rounding. *)
Lemma round_error m e l w : (2 ^ 52 <= m)%Z -> located m l (w / bpow e) -> bpow (-1000) <= w <= bpow 900 ->
  exists r, normal (binary_round_aux 53 1024 false m e l) r /\ Rabs (r - w) <= w * bpow (-53).
Proof.
  intros Hm Hl [Wl Wu]. destruct m as [|p|p]; [lia | | lia].
  pose proof (digits2_bounds p) as [DL DU]. set (d := Z.pos (digits2_pos p)) in *. pose proof (located_bounds _ _ _ Hl) as [VL VU].
  pose proof (bpow_pos e) as Pe.
  assert (Hd : (53 <= d)%Z). { destruct (Z_lt_le_dec d 53) as [H|]; [|done]. assert (2 ^ d <= 2 ^ 52)%Z by (apply Z.pow_le_mono_r; lia). lia. }
  assert (Wlow : bpow (d - 1 + e) <= w).
  { rewrite bpow_add, bpow_IZR by lia. apply IZR_le in DL. apply Rmult_le_reg_r with (/ bpow e); [by apply Rinv_0_lt_compat|].
    replace (IZR (2 ^ (d - 1)) * bpow e * / bpow e) with (IZR (2 ^ (d - 1))) by (field; lra). unfold Rdiv in VL. lra. }
  assert (Whigh : w < bpow (d + e)).
  { rewrite bpow_add, bpow_IZR by lia. assert (D : IZR (Z.pos p) + 1 <= IZR (2 ^ d)) by (rewrite <- plus_IZR; apply IZR_le; lia).
    apply Rmult_lt_reg_r with (/ bpow e); [by apply Rinv_0_lt_compat|]. replace (IZR (2 ^ d) * bpow e * / bpow e) with (IZR (2 ^ d)) by (field; lra). unfold Rdiv in VU. lra. }
  assert (El : (-1000 < d + e)%Z) by (apply bpow_lt_inv; lra).
  assert (Eu : (d - 1 + e < 901)%Z). { apply bpow_lt_inv. eapply Rle_lt_trans; [exact Wlow|]. eapply Rle_lt_trans; [exact Wu|]. replace 901%Z with (1 + 900)%Z by lia. rewrite bpow_add, bpow_1. pose proof (bpow_pos 900). lra. }
  unfold binary_round_aux. unfold shr_fexp at 1. unfold fexp. change (emin 53 1024) with (-1074)%Z. cbn [Zdigits2]. fold d.
  replace (Z.max (d + e - 53) (-1074) - e)%Z with (d - 53)%Z by lia.
  destruct (shr_recorded (shr_record_of_loc (Z.pos p) l) (w / bpow e) e (d - 53)) as (r' & Er & Hr0 & Hr); [lia | by destruct l as [|[]] | by apply recorded_of_loc|].
  rewrite Er. set (E := (e + (d - 53))%Z) in *. set (m1 := shr_m r') in *.
  assert (Ev : w / bpow e / bpow (d - 53) = w / bpow E).
  { unfold E. rewrite bpow_add. pose proof (bpow_pos (d - 53)). field. lra. }
  rewrite Ev in Hr. set (v := w / bpow E) in *. pose proof (bpow_pos E) as PE. assert (Wv : w = v * bpow E) by (unfold v; field; lra).
  assert (V1 : IZR (2 ^ 52) <= v).
  { apply Rmult_le_reg_r with (bpow E); [done|]. rewrite <- Wv. rewrite <- (bpow_IZR 52) by lia. rewrite <- bpow_add. by replace (52 + E)%Z with (d - 1 + e)%Z by (unfold E; lia). }
  assert (V2 : v < IZR (2 ^ 53)).
  { apply Rmult_lt_reg_r with (bpow E); [done|]. rewrite <- Wv. rewrite <- (bpow_IZR 53) by lia. rewrite <- bpow_add. by replace (53 + E)%Z with (d + e)%Z by (unfold E; lia). }
  unfold recorded in Hr. fold m1 in Hr. pose proof (located_bounds _ _ _ Hr) as [M1 M2].
  assert (N1 : (2 ^ 52 <= m1)%Z). { assert (2 ^ 52 < m1 + 1)%Z; [|lia]. apply lt_IZR. rewrite plus_IZR. lra. }
  assert (N2 : (m1 < 2 ^ 53)%Z) by (apply lt_IZR; lra).
  destruct (rounded_near _ _ _ Hr) as [Rn Rc]. set (m2 := round_nearest_even m1 (loc_of_shr_record r')) in *.
  destruct (second_shift m2 E) as (x & Ex & Nx); [lia | unfold E; lia|]. rewrite Ex. exists (IZR m2 * bpow E). split; [done|].
  replace (IZR m2 * bpow E - w) with ((IZR m2 - v) * bpow E) by (rewrite Wv; ring). rewrite Rabs_mult, (Rabs_pos_eq (bpow E)) by lra.
  apply Rle_trans with (/ 2 * bpow E); [apply Rmult_le_compat_r; lra|]. rewrite Wv.
  assert (T : bpow (-53) * IZR (2 ^ 52) = / 2). { rewrite <- (bpow_IZR 52) by lia. rewrite <- bpow_add. unfold bpow. simpl. lra. }
  pose proof (bpow_pos (-53)). rewrite <- T. replace (v * bpow E * bpow (-53)) with (bpow (-53) * v * bpow E) by ring.
  apply Rmult_le_compat_r; [lra|]. apply Rmult_le_compat_l; lra.
Qed.

(** ** Products and quotients *)
Lemma mul_error x y a b : normal x a -> normal y b -> bpow (-1000) <= a * b <= bpow 900 ->
  exists r, normal (num_mul x y) r /\ Rabs (r - a * b) <= a * b * bpow (-53).
Proof.
  intros (m1 & e1 & -> & H1 & ->) (m2 & e2 & -> & H2 & ->) Hw. unfold num_mul, SFmul. cbn [xorb].
  apply round_error; [|cbn [located] | done].
  - rewrite Pos2Z.inj_mul. nia.
  - rewrite Pos2Z.inj_mul, mult_IZR, bpow_add. pose proof (bpow_pos e1). pose proof (bpow_pos e2). field. lra.
Qed.

(** The location of a quotient. *)
Lemma quotient_located n m : (0 < m)%Z -> (0 <= n)%Z -> located (n / m) (new_location m (n mod m)) (IZR n / IZR m).
Proof.
  intros Hm Hn. pose proof (Z.mod_pos_bound n m Hm) as Hr. pose proof (Z.div_mod n m ltac:(lia)) as Hd.
  set (q := (n / m)%Z) in *. set (r := (n mod m)%Z) in *. assert (Pm : 0 < IZR m) by (apply IZR_lt; lia).
  assert (V : IZR n / IZR m = IZR q + IZR r / IZR m) by (rewrite Hd, plus_IZR, mult_IZR; field; lra). rewrite V. clear V.
  assert (B : forall k, (k < m)%Z -> IZR k / IZR m < 1) by (intros k Hk; apply Rmult_lt_reg_r with (IZR m); [done|]; unfold Rdiv; rewrite Rmult_assoc, Rinv_l, Rmult_1_r, Rmult_1_l by lra; by apply IZR_lt).
  assert (P : (0 < r)%Z -> 0 < IZR r / IZR m) by (intros Hp; apply Rdiv_lt_0_compat; [by apply IZR_lt | done]).
  assert (L : (2 * r < m)%Z -> IZR r / IZR m < / 2) by (intros Hk; pose proof (B _ Hk) as Hb; rewrite mult_IZR in Hb; unfold Rdiv in *; lra).
  assert (G : (m < 2 * r)%Z -> / 2 < IZR r / IZR m).
  { intros Hk. apply Rmult_lt_reg_r with (IZR m); [done|]. unfold Rdiv. rewrite Rmult_assoc, Rinv_l, Rmult_1_r by lra. apply IZR_lt in Hk. rewrite mult_IZR in Hk. lra. }
  specialize (B r ltac:(lia)). unfold new_location. destruct (Z.even m) eqn:Em; [unfold new_location_even | unfold new_location_odd];
    (destruct (Z.eqb_spec r 0) as [E|E]; [rewrite E; cbn [located]; lra|]); specialize (P ltac:(lia)).
  - destruct (Z.compare_spec (2 * r) m) as [C|C|C]; cbn [located].
    + assert (IZR r <> 0) by (apply not_0_IZR; lia). assert (K : IZR r / IZR m = / 2) by (rewrite <- C, mult_IZR; field; assumption). lra.
    + specialize (L C). lra.
    + specialize (G ltac:(lia)). lra.
  - assert (O : (2 * r <> m)%Z) by (intros C; rewrite <- C, Z.even_mul in Em; done).
    destruct (Z.compare_spec (2 * r + 1) m) as [C|C|C]; cbn [located];
      [specialize (L ltac:(lia)); lra | specialize (L ltac:(lia)); lra | specialize (G ltac:(lia)); lra].
Qed.

Lemma div_error x y a b : normal x a -> normal y b -> bpow (-1000) <= a / b <= bpow 900 ->
  exists r, normal (num_div x y) r /\ Rabs (r - a / b) <= a / b * bpow (-53).
Proof.
  intros (m1 & e1 & -> & H1 & ->) (m2 & e2 & -> & H2 & ->) [Wl Wu].
  assert (P1 : 0 < IZR (Z.pos m1)) by (apply IZR_lt; lia). assert (P2 : 0 < IZR (Z.pos m2)) by (apply IZR_lt; lia).
  pose proof (bpow_pos e1) as B1. pose proof (bpow_pos e2) as B2.
  assert (D1 : Z.pos (digits2_pos m1) = 53%Z) by (apply digits_range; cbn; lia). assert (D2 : Z.pos (digits2_pos m2) = 53%Z) by (apply digits_range; cbn; lia).
  unfold num_div, SFdiv, SFdiv_core_binary. cbn [xorb Zdigits2]. rewrite D1, D2. unfold fexp. change (emin 53 1024) with (-1074)%Z.
  assert (Wb : IZR (Z.pos m1) * bpow e1 / (IZR (Z.pos m2) * bpow e2) <= 2 * bpow (e1 - e2)).
  { replace (e1 - e2)%Z with (e1 + - e2)%Z by lia. rewrite bpow_add. assert (Hi : bpow (- e2) = / bpow e2) by (unfold bpow; apply powerRZ_neg'). rewrite Hi.
    apply Rmult_le_reg_r with (IZR (Z.pos m2) * bpow e2); [nra|]. replace (IZR (Z.pos m1) * bpow e1 / (IZR (Z.pos m2) * bpow e2) * (IZR (Z.pos m2) * bpow e2)) with (IZR (Z.pos m1) * bpow e1) by (field; lra).
    replace (2 * (bpow e1 * / bpow e2) * (IZR (Z.pos m2) * bpow e2)) with (2 * IZR (Z.pos m2) * bpow e1) by (field; lra).
    apply Rmult_le_compat_r; [lra|]. rewrite <- mult_IZR. apply IZR_le. lia. }
  assert (El : (-1001 < e1 - e2 + 1)%Z). { apply bpow_lt_inv. rewrite bpow_add, bpow_1. replace (-1001)%Z with (-1 + -1000)%Z by lia. rewrite bpow_add.
    assert (Hh : bpow (-1) = / 2) by (unfold bpow; simpl; lra). rewrite Hh. pose proof (bpow_pos (-1000)). lra. }
  replace (Z.min (Z.max (53 + e1 - (53 + e2) - 53) (-1074)) (e1 - e2))%Z with (e1 - e2 - 53)%Z by lia.
  replace (e1 - e2 - (e1 - e2 - 53))%Z with 53%Z by lia. rewrite Z.shiftl_mul_pow2 by lia.
  pose proof (quotient_located (Z.pos m1 * 2 ^ 53) (Z.pos m2) ltac:(lia) ltac:(lia)) as Hq.
  unfold Z.div, Z.modulo in Hq.
  assert (Hqd : (2 ^ 52 <= Z.pos m1 * 2 ^ 53 / Z.pos m2)%Z) by (apply Z.div_le_lower_bound; lia). unfold Z.div in Hqd.
  destruct (Z.div_eucl (Z.pos m1 * 2 ^ 53) (Z.pos m2)) as [q r]. apply round_error; [done | | done].
  replace (IZR (Z.pos m1) * bpow e1 / (IZR (Z.pos m2) * bpow e2) / bpow (e1 - e2 - 53)) with (IZR (Z.pos m1 * 2 ^ 53) / IZR (Z.pos m2)); [done|].
  rewrite mult_IZR, <- (bpow_IZR 53) by lia. replace e1 with ((e1 - e2 - 53) + (e2 + 53))%Z at 1 by lia. rewrite !bpow_add.
  pose proof (bpow_pos (e1 - e2 - 53)). field. split_and!; lra.
Qed.

(** ** Integers *)
Lemma normal_unique x y r : normal x r -> normal y r -> x = y.
Proof.
  intros (m1 & e1 & -> & H1 & E1) (m2 & e2 & -> & H2 & E2).
  assert (K : forall m m' e e', (2 ^ 52 <= Z.pos m < 2 ^ 53)%Z -> (2 ^ 52 <= Z.pos m' < 2 ^ 53)%Z -> (e < e')%Z -> IZR (Z.pos m) * bpow e < IZR (Z.pos m') * bpow e').
  { intros m m' e e' Hm Hm' He. pose proof (bpow_pos e). apply Rlt_le_trans with (IZR (2 ^ 53) * bpow e); [apply Rmult_lt_compat_r; [done | apply IZR_lt; lia]|].
    apply Rle_trans with (IZR (2 ^ 52) * bpow e'); [|apply Rmult_le_compat_r; [pose proof (bpow_pos e'); lra | apply IZR_le; lia]].
    rewrite <- !bpow_IZR, <- !bpow_add by lia. apply bpow_le. lia. }
  destruct (Ztrichotomy e1 e2) as [H|[->|H]]; [pose proof (K m1 m2 e1 e2 H1 H2 H); lra | |pose proof (K m2 m1 e2 e1 H2 H1 ltac:(lia)); lra].
  do 2 f_equal. rewrite E1 in E2. pose proof (bpow_pos e2). apply Rmult_eq_reg_r in E2; [|lra]. apply eq_IZR in E2. congruence.
Qed.

Lemma round_exact m e : (2 ^ 52 <= m < 2 ^ 53)%Z -> (-1074 <= e <= 960)%Z -> normal (binary_round_aux 53 1024 false m e loc_Exact) (IZR m * bpow e).
Proof.
  intros Hm He. destruct m as [|p|p]; [lia | | lia]. unfold binary_round_aux. unfold shr_fexp at 1, fexp. cbn [Zdigits2]. rewrite (digits_range p 53) by (cbn; lia).
  change (emin 53 1024) with (-1074)%Z. replace (Z.max (53 + e - 53) (-1074) - e)%Z with 0%Z by lia. cbn [shr shr_record_of_loc shr_m loc_of_shr_record round_nearest_even].
  destruct (second_shift (Z.pos p) e) as (x & Ex & Nx); [lia..|]. by rewrite Ex.
Qed.

Lemma iter_xO p k : Z.pos (Pos.iter xO p k) = (Z.pos p * 2 ^ Z.pos k)%Z.
Proof.
  induction k as [|k IH] using Pos.peano_ind; [cbn; lia|]. rewrite Pos.iter_succ, Pos2Z.inj_xO, IH, Pos2Z.inj_succ, Z.pow_succ_r by lia. lia.
Qed.

Lemma num_of_Z_normal u : (0 < u < 2 ^ 53)%Z -> normal (num_of_Z u) (IZR u).
Proof.
  intros Hu. destruct u as [|p|p]; [lia | | lia]. unfold num_of_Z, binary_normalize, binary_round.
  pose proof (digits2_bounds p) as [L U]. set (d := Z.pos (digits2_pos p)) in *. assert (Hd : (1 <= d <= 53)%Z).
  { split; [lia|]. destruct (Z_lt_le_dec 53 d) as [H|]; [|done]. assert (2 ^ 53 <= 2 ^ (d - 1))%Z by (apply Z.pow_le_mono_r; lia). lia. }
  unfold fexp. change (emin 53 1024) with (-1074)%Z. replace (Z.max (d + 0 - 53) (-1074)) with (d - 53)%Z by lia.
  unfold shl_align. rewrite Z.sub_0_r. destruct (Z.eq_dec d 53%Z) as [Hn|Hn].
  - rewrite Hn in L, U |- *. cbn. replace (IZR (Z.pos p)) with (IZR (Z.pos p) * bpow 0) by (rewrite bpow_0; ring). apply round_exact; lia.
  - destruct (d - 53)%Z as [|k|k] eqn:Ek; [lia..|]. pose proof (iter_xO p k) as Ei.
    replace (IZR (Z.pos p)) with (IZR (Z.pos (Pos.iter xO p k)) * bpow (Z.neg k)).
    + apply round_exact; [|lia]. rewrite Ei. replace d with (53 - Z.pos k)%Z in * by lia.
      assert (2 ^ (53 - Z.pos k - 1) * 2 ^ Z.pos k = 2 ^ 52)%Z by (rewrite <- Z.pow_add_r by lia; f_equal; lia).
      assert (2 ^ (53 - Z.pos k) * 2 ^ Z.pos k = 2 ^ 53)%Z by (rewrite <- Z.pow_add_r by lia; f_equal; lia).
      assert (0 < 2 ^ Z.pos k)%Z by (apply Z.pow_pos_nonneg; lia). nia.
    + rewrite Ei, mult_IZR, <- (bpow_IZR (Z.pos k)), Rmult_assoc, <- bpow_add by lia. replace (Z.pos k + Z.neg k)%Z with 0%Z by lia. rewrite bpow_0. ring.
Qed.

Lemma fraction_value x r : normal x r -> num_is_finite x = true /\ exists n d, num_fraction x = (n, d) /\ (0 < d)%Z /\ IZR n = r * IZR d.
Proof.
  intros (m & e & -> & _ & ->). split; [done|]. cbn [num_fraction]. destruct (Z.leb_spec 0 e).
  - eexists _, _. split; [reflexivity|]. split; [lia|]. rewrite mult_IZR, <- bpow_IZR by lia. ring.
  - eexists _, _. split; [reflexivity|]. split; [apply Z.pow_pos_nonneg; lia|]. rewrite <- bpow_IZR, Rmult_assoc, <- bpow_add by lia.
    replace (e + - e)%Z with 0%Z by lia. rewrite bpow_0. ring.
Qed.

(** Rounding returns the integer that is nearer than one half. *)
Lemma num_round_near x r u : normal x r -> (0 < u < 2 ^ 53)%Z -> Rabs (r - IZR u) < / 2 -> num_round x = num_of_Z u.
Proof.
  intros Hx Hu Hr. apply Rabs_def2 in Hr as [R1 R2]. destruct (fraction_value _ _ Hx) as (Hf & n & d & En & Hd & Hn).
  apply IZR_lt in Hd as Pd. unfold num_round, num_is_integer. rewrite Hf, En. cbn [negb andb orb]. rewrite orb_false_r.
  destruct (Z.eqb_spec (n mod d) 0) as [E|E].
  - apply (normal_unique _ _ r); [done|]. assert (Ed : n = (d * (n / d))%Z) by (apply Z_div_exact_full_2; lia). set (k := (n / d)%Z) in *.
    assert (Er : r = IZR k). { rewrite Ed, mult_IZR in Hn. apply Rmult_eq_reg_r with (IZR d); lra. }
    replace k with u in Er; [rewrite Er; by apply num_of_Z_normal|]. rewrite Er in R1, R2.
    assert (k < u + 1)%Z by (apply lt_IZR; rewrite plus_IZR; lra). assert (u < k + 1)%Z by (apply lt_IZR; rewrite plus_IZR; lra). lia.
  - replace ((2 * n + d) / (2 * d))%Z with u; [destruct (Z.eqb_spec u 0); [lia | done]|]. apply Z.div_unique with (2 * n + d - 2 * d * u)%Z; [left | lia].
    split; [apply le_IZR | apply lt_IZR]; rewrite ?minus_IZR, ?plus_IZR, ?mult_IZR, Hn; nra.
Qed.

(** ** Conversions *)
Lemma Rabs_between x a : Rabs x <= a -> - a <= x <= a.
Proof. unfold Rabs. destruct (Rcase_abs x); lra. Qed.

Definition near (k : nat) (r w : R) : Prop := w * (1 - bpow (-53)) ^ k <= r <= w * (1 + bpow (-53)) ^ k.

Lemma eta_small : 0 < bpow (-53) < / 1000.
Proof. split; [apply bpow_pos|]. unfold bpow. simpl. lra. Qed.

Lemma eta_powers k : (k <= 4)%nat -> / 2 <= (1 - bpow (-53)) ^ k <= 1 /\ 1 <= (1 + bpow (-53)) ^ k <= 1 + 5 * bpow (-53).
Proof.
  pose proof eta_small as [E1 E2]. set (h := bpow (-53)) in *. intros Hk.
  assert (S1 : forall i, (i <= 4)%nat -> 1 - INR i * / 10 <= (1 - h) ^ i <= 1).
  { induction i as [|j IH]; intros Hj; [rewrite pow_O; change (INR 0) with 0; lra|]. specialize (IH ltac:(lia)). rewrite S_INR. cbn [pow]. assert (INR j <= 4) by (rewrite INR_IZR_INZ; apply IZR_le; lia). nra. }
  assert (S2 : forall i, (i <= 4)%nat -> 1 <= (1 + h) ^ i <= 1 + INR i * (1.01 * h)).
  { induction i as [|j IH]; intros Hj; [rewrite pow_O; change (INR 0) with 0; lra|]. specialize (IH ltac:(lia)). rewrite S_INR. cbn [pow].
    assert (INR j <= 3) by (rewrite INR_IZR_INZ; apply IZR_le; lia). assert (0 <= INR j) by apply pos_INR. assert (INR j * h <= 3 * / 1000) by nra. split; [nra|].
    apply Rle_trans with ((1 + h) * (1 + INR j * (1.01 * h))); [apply Rmult_le_compat_l; lra|].
    replace ((1 + h) * (1 + INR j * (1.01 * h))) with (1 + h + INR j * (1.01 * h) + 1.01 * (INR j * h) * h) by ring.
    assert (1.01 * (INR j * h) * h <= 0.01 * h) by nra. lra. }
  specialize (S1 k Hk). specialize (S2 k Hk). assert (INR k <= 4) by (rewrite INR_IZR_INZ; apply IZR_le; lia). assert (0 <= INR k) by apply pos_INR. split; [lra|]. split; [lra|]. nra.
Qed.

Lemma near_bounds k r w : (k <= 4)%nat -> 0 < w -> near k r w -> w / 2 <= r <= 2 * w.
Proof.
  intros Hk Hw [N1 N2]. destruct (eta_powers k Hk) as [P1 P2]. pose proof eta_small as [E1 E2].
  split; [apply Rle_trans with (w * (1 - bpow (-53)) ^ k) | apply Rle_trans with (w * (1 + bpow (-53)) ^ k)]; try done; nra.
Qed.

Lemma near_step k r w r' b : 0 < b -> 0 <= r -> near k r w -> Rabs (r' - r * b) <= r * b * bpow (-53) -> near (S k) r' (w * b).
Proof.
  pose proof eta_small as [E1 E2]. set (h := bpow (-53)) in *. unfold near. intros Hb Hr [N1 N2] HA. apply Rabs_between in HA as [A1 A2]. fold h. cbn [pow]. fold h.
  assert (P : 0 <= r * b) by nra. split; [replace (w * b * ((1 - h) * (1 - h) ^ k)) with (w * (1 - h) ^ k * b * (1 - h)) by ring | replace (w * b * ((1 + h) * (1 + h) ^ k)) with (w * (1 + h) ^ k * b * (1 + h)) by ring].
  - apply Rle_trans with (r * b * (1 - h)); [|lra]. apply Rmult_le_compat_r; [lra|]. by apply Rmult_le_compat_r; [lra|].
  - apply Rle_trans with (r * b * (1 + h)); [lra|]. apply Rmult_le_compat_r; [lra|]. by apply Rmult_le_compat_r; [lra|].
Qed.

Lemma mul_near k x y r w b : (k < 4)%nat -> normal x r -> near k r w -> normal y b -> bpow (-999) <= w * b <= bpow 899 -> 0 < w ->
  exists r', normal (num_mul x y) r' /\ near (S k) r' (w * b).
Proof.
  intros Hk Hx Hn Hy [W1 W2] Hw. pose proof (near_bounds k r w ltac:(lia) Hw Hn) as [N1 N2].
  assert (Pb : 0 < b). { destruct Hy as (m & e & _ & Hm & ->). apply Rmult_lt_0_compat; [apply IZR_lt; lia | apply bpow_pos]. }
  assert (X1 : bpow (-999) = 2 * bpow (-1000)) by (replace (-999)%Z with (1 + -1000)%Z by lia; by rewrite bpow_add, bpow_1).
  assert (X2 : bpow 900 = 2 * bpow 899) by (replace 900%Z with (1 + 899)%Z by lia; by rewrite bpow_add, bpow_1).
  destruct (mul_error x y r b Hx Hy) as (r' & Hr & He); [split; nra|]. exists r'. split; [done|]. eapply near_step; [done | | done..]. nra.
Qed.

Lemma div_near k x y r w b : (k < 4)%nat -> normal x r -> near k r w -> normal y b -> bpow (-999) <= w / b <= bpow 899 -> 0 < w ->
  exists r', normal (num_div x y) r' /\ near (S k) r' (w / b).
Proof.
  intros Hk Hx Hn Hy [W1 W2] Hw. pose proof (near_bounds k r w ltac:(lia) Hw Hn) as [N1 N2].
  assert (Pb : 0 < b). { destruct Hy as (m & e & _ & Hm & ->). apply Rmult_lt_0_compat; [apply IZR_lt; lia | apply bpow_pos]. }
  assert (X1 : bpow (-999) = 2 * bpow (-1000)) by (replace (-999)%Z with (1 + -1000)%Z by lia; by rewrite bpow_add, bpow_1).
  assert (X2 : bpow 900 = 2 * bpow 899) by (replace 900%Z with (1 + 899)%Z by lia; by rewrite bpow_add, bpow_1).
  assert (Ib : 0 < / b) by (by apply Rinv_0_lt_compat). unfold Rdiv in *.
  destruct (div_error x y r b Hx Hy) as (r' & Hr & He); [unfold Rdiv; split; nra|]. exists r'. split; [done|]. eapply near_step; [done | | done..]. nra.
Qed.

(** A positive double between [2^-200] and [2^200]. *)
Definition moderate (x : num) : bool :=
  match x with
  | S754_finite false m e => ((2 ^ 52 <=? Z.pos m) && (Z.pos m <? 2 ^ 53) && (-252 <=? e) && (e <=? 147))%Z
  | _ => false
  end.

Lemma moderate_normal x : moderate x = true -> exists a, normal x a /\ bpow (-200) <= a <= bpow 200.
Proof.
  destruct x as [| | |[] m e]; try done. cbn [moderate]. rewrite !andb_true_iff, !Z.leb_le, Z.ltb_lt. intros [[[H1 H2] H3] H4].
  exists (IZR (Z.pos m) * bpow e). split; [by exists m, e|]. pose proof (bpow_pos e). split.
  - apply Rle_trans with (bpow 52 * bpow e); [rewrite <- bpow_add; apply bpow_le; lia|]. apply Rmult_le_compat_r; [lra|]. rewrite bpow_IZR by lia. apply IZR_le. lia.
  - apply Rle_trans with (bpow 53 * bpow e); [|rewrite <- bpow_add; apply bpow_le; lia]. apply Rmult_le_compat_r; [lra|]. rewrite bpow_IZR by lia. apply IZR_le. lia.
Qed.

Lemma normal_near x r : normal x r -> near 0 r r.
Proof. intros _. unfold near. cbn [pow]. lra. Qed.

(** Where the products of such numbers lie. *)
Lemma moderate_mul a b x y k l : bpow k <= a <= bpow l -> bpow x <= b <= bpow y -> bpow (k + x) <= a * b <= bpow (l + y).
Proof. intros [A1 A2] [B1 B2]. rewrite !bpow_add. pose proof (bpow_pos k). pose proof (bpow_pos x). split; apply Rmult_le_compat; lra. Qed.

Lemma moderate_inv b x y : bpow x <= b <= bpow y -> bpow (- y) <= / b <= bpow (- x).
Proof.
  intros [B1 B2]. pose proof (bpow_pos x). pose proof (bpow_pos y). assert (E : forall z, bpow (- z) = / bpow z) by (intros z; apply powerRZ_neg').
  rewrite !E. split; apply Rinv_le_contravar; lra.
Qed.

Lemma bpow_weaken a k l k' l' : bpow k <= a <= bpow l -> (k' <= k)%Z -> (l <= l')%Z -> bpow k' <= a <= bpow l'.
Proof. intros [A B] Hk%bpow_le Hl%bpow_le. lra. Qed.

(** Dividing an integer by a unit and multiplying by a rate. *)
Lemma convert_out (u : Z) (q rate : num) a b : (0 < u <= 2 ^ 49)%Z -> normal q a -> normal rate b ->
  bpow (-200) <= a <= bpow 200 -> bpow (-200) <= b <= bpow 200 ->
  exists r, normal (num_mul (num_div (num_of_Z u) q) rate) r /\ near 2 r (IZR u / a * b) /\ bpow (-200) <= IZR u / a <= bpow 249.
Proof.
  intros Hu Ha Hb A B. pose proof (num_of_Z_normal u ltac:(lia)) as Nu.
  assert (U : bpow 0 <= IZR u <= bpow 49) by (rewrite !bpow_IZR by lia; split; apply IZR_le; lia).
  assert (Pu : 0 < IZR u) by (apply IZR_lt; lia). pose proof (bpow_pos (-200)) as P0. assert (Pa : 0 < a) by lra.
  pose proof (moderate_mul _ _ _ _ _ _ U (moderate_inv _ _ _ A)) as W1. pose proof (moderate_mul _ _ _ _ _ _ W1 B) as W2.
  assert (Q1 : 0 < IZR u / a) by (by apply Rdiv_lt_0_compat).
  destruct (div_near 0 (num_of_Z u) q (IZR u) (IZR u) a) as (r1 & N1 & E1); [lia | done | by eapply normal_near | done | eapply bpow_weaken; [exact W1 | lia..] | done|].
  destruct (mul_near 1 (num_div (num_of_Z u) q) rate r1 (IZR u / a) b) as (r2 & N2 & E2); [lia | done.. | eapply bpow_weaken; [exact W2 | lia..] | done|].
  exists r2. split_and!; [done.. | |]; apply W1.
Qed.

Lemma normal_finite x r : normal x r -> num_is_finite x = true.
Proof. by intros (m & e & -> & _). Qed.

Lemma normal_positive x r : normal x r -> num_ltb num_zero x = true.
Proof. by intros (m & e & -> & _). Qed.

(** Dividing an integer by a unit and multiplying by a rate, and back again,
    gives the integer. *)
Lemma convert_back (u : Z) (q rate : num) : (0 < u <= 2 ^ 49)%Z -> moderate q = true -> moderate rate = true ->
  num_round (num_mul (num_div (num_mul (num_div (num_of_Z u) q) rate) rate) q) = num_of_Z u.
Proof.
  intros Hu (a & Ha & A)%moderate_normal (b & Hb & B)%moderate_normal. pose proof (num_of_Z_normal u ltac:(lia)) as Nu.
  assert (U : bpow 0 <= IZR u <= bpow 49) by (rewrite !bpow_IZR by lia; split; apply IZR_le; lia).
  assert (Pu : 0 < IZR u) by (apply IZR_lt; lia). pose proof (bpow_pos (-200)) as P0. assert (Pa : 0 < a) by lra. assert (Pb : 0 < b) by lra.
  destruct (convert_out u q rate a b Hu Ha Hb A B) as (r2 & N2 & E2 & W1).
  assert (Q1 : 0 < IZR u / a) by (by apply Rdiv_lt_0_compat). assert (Q2 : 0 < IZR u / a * b) by (by apply Rmult_lt_0_compat).
  assert (X1 : IZR u / a * b / b = IZR u / a) by (field; lra).
  destruct (div_near 2 (num_mul (num_div (num_of_Z u) q) rate) rate r2 (IZR u / a * b) b) as (r3 & N3 & E3); [lia | done.. | rewrite X1; eapply bpow_weaken; [exact W1 | lia..] | done|].
  rewrite X1 in E3. assert (X2 : IZR u / a * a = IZR u) by (field; lra).
  destruct (mul_near 3 (num_div (num_mul (num_div (num_of_Z u) q) rate) rate) q r3 (IZR u / a) a) as (r4 & N4 & E4); [lia | done.. | rewrite X2; eapply bpow_weaken; [exact U | lia..] | done|].
  rewrite X2 in E4. apply (num_round_near _ r4); [done | lia|]. destruct E4 as [L4 U4]. destruct (eta_powers 4 ltac:(lia)) as [_ [_ S2]].
  assert (Hh : IZR u * bpow (-53) <= / 16).
  { destruct U as [_ U]. apply Rle_trans with (bpow 49 * bpow (-53)); [apply Rmult_le_compat_r; [pose proof (bpow_pos (-53)); lra | done]|].
    rewrite <- bpow_add. unfold bpow. simpl. lra. }
  pose proof eta_small as [E1' E2']. assert (S1 : 1 - 4 * bpow (-53) <= (1 - bpow (-53)) ^ 4) by (cbn [pow]; nra).
  assert (L5 : IZR u * (1 - 4 * bpow (-53)) <= r4) by (eapply Rle_trans; [|exact L4]; apply Rmult_le_compat_l; lra).
  assert (U5 : r4 <= IZR u * (1 + 5 * bpow (-53))) by (eapply Rle_trans; [exact U4|]; apply Rmult_le_compat_l; lra).
  apply Rabs_def1; lra.
Qed.

(** ** The sign of a difference *)

Definition signed (s : bool) (x : num) : Prop := (exists m e, x = S754_finite s m e) \/ x = S754_infinity s.

(** The second shift of a positive mantissa that fits, or of the next power of two. *)
Lemma round_tail_signed s m2 E : (0 < m2)%Z -> (fexp 53 1024 (Zdigits2 m2 + E) <= E \/ 2 ^ 52 <= m2 <= 2 ^ 53 /\ -1074 <= E)%Z ->
  signed s (let '(mrs, e) := shr_fexp 53 1024 m2 E loc_Exact in
            match shr_m mrs with Z0 => S754_zero s | Zpos m => if (e <=? 1024 - 53)%Z then S754_finite s m e else S754_infinity s | _ => S754_nan end).
Proof.
  intros Hm HE. assert (K : exists r e, shr_fexp 53 1024 m2 E loc_Exact = (r, e) /\ (0 < shr_m r)%Z).
  { unfold shr_fexp. destruct (Z_le_gt_dec (fexp 53 1024 (Zdigits2 m2 + E)) E) as [L|G].
    - assert (Es : shr (shr_record_of_loc m2 loc_Exact) E (fexp 53 1024 (Zdigits2 m2 + E) - E) = (Build_shr_record m2 false false, E))
        by (destruct (fexp 53 1024 (Zdigits2 m2 + E) - E)%Z eqn:En; [done | lia | done]). rewrite Es. eauto.
    - destruct HE as [?|[H1 H2]]; [lia|]. destruct (decide (m2 = 2 ^ 53)%Z) as [->|Hne].
      + unfold fexp in *. change (Zdigits2 (2 ^ 53)) with 54%Z in *. change (emin 53 1024) with (-1074)%Z in *.
        replace (Z.max (54 + E - 53) (-1074) - E)%Z with 1%Z by lia. by eexists _, _.
      + exfalso. destruct m2 as [|p|p]; [lia | | lia]. cbn [Zdigits2] in G. rewrite (digits_range p 53) in G by (cbn; lia). unfold fexp in G.
        change (emin 53 1024) with (-1074)%Z in G. lia. }
  destruct K as (r & e & Ek & Hr). rewrite Ek. destruct (shr_m r) as [|p|p]; [lia | | lia]. unfold signed. destruct (e <=? 1024 - 53)%Z; eauto.
Qed.

Lemma iter_digits p k : Zdigits2 (Z.pos (Pos.iter xO p k)) = (Z.pos (digits2_pos p) + Z.pos k)%Z.
Proof.
  cbn [Zdigits2]. induction k as [|k IH] using Pos.peano_ind; [cbn; lia|]. rewrite Pos.iter_succ. cbn [digits2_pos]. lia.
Qed.

Lemma binary_round_signed s p e : (-1074 <= e)%Z -> signed s (binary_round 53 1024 s p e).
Proof.
  intros He. unfold binary_round. set (d := Z.pos (digits2_pos p)). pose proof (digits2_bounds p) as [DL DU]. fold d in DL, DU. unfold shl_align.
  assert (F : fexp 53 1024 (d + e) = Z.max (d + e - 53) (-1074)) by reflexivity. destruct (fexp 53 1024 (d + e) - e)%Z as [|k|k] eqn:En.
  - unfold binary_round_aux. unfold shr_fexp at 1. cbn [Zdigits2]. fold d. rewrite En. cbn [shr shr_record_of_loc shr_m loc_of_shr_record round_nearest_even].
    apply round_tail_signed; [lia|]. left. cbn [Zdigits2]. fold d. lia.
  - unfold binary_round_aux. unfold shr_fexp at 1. cbn [Zdigits2]. fold d. rewrite En.
    destruct (shr_recorded (shr_record_of_loc (Z.pos p) loc_Exact) (IZR (Z.pos p)) e (Z.pos k)) as (r & Er & Hr0 & Hr); [lia | done | done|]. rewrite Er.
    assert (Ek : Z.pos k = (d - 53)%Z) by lia. unfold recorded in Hr. pose proof (located_bounds _ _ _ Hr) as [M1 M2].
    assert (Pk : 0 < bpow (Z.pos k)) by apply bpow_pos. assert (V : IZR (Z.pos p) / bpow (Z.pos k) * bpow (Z.pos k) = IZR (Z.pos p)) by (field; lra).
    assert (V1 : IZR (2 ^ 52) <= IZR (Z.pos p) / bpow (Z.pos k)).
    { apply Rmult_le_reg_r with (bpow (Z.pos k)); [done|]. rewrite V. rewrite <- (bpow_IZR 52) by lia. rewrite <- bpow_add, bpow_IZR by lia.
      apply IZR_le. replace (52 + Z.pos k)%Z with (d - 1)%Z by lia. done. }
    assert (V2 : IZR (Z.pos p) / bpow (Z.pos k) < IZR (2 ^ 53)).
    { apply Rmult_lt_reg_r with (bpow (Z.pos k)); [done|]. rewrite V. rewrite <- (bpow_IZR 53) by lia. rewrite <- bpow_add, bpow_IZR by lia.
      apply IZR_lt. replace (53 + Z.pos k)%Z with d by lia. done. }
    assert (N1 : (2 ^ 52 <= shr_m r)%Z). { assert (2 ^ 52 < shr_m r + 1)%Z; [|lia]. apply lt_IZR. rewrite plus_IZR. lra. }
    assert (N2 : (shr_m r < 2 ^ 53)%Z) by (apply lt_IZR; lra). destruct (rounded_near _ _ _ Hr) as [_ Rc].
    apply round_tail_signed; [lia|]. right. lia.
  - pose proof (iter_digits p k) as Ed. fold d in Ed. assert (Hf : (fexp 53 1024 (d + e) = e + Z.neg k)%Z) by lia.
    assert (Es : (fexp 53 1024 (Zdigits2 (Z.pos (Pos.iter xO p k)) + fexp 53 1024 (d + e)) = fexp 53 1024 (d + e))%Z)
      by (rewrite Ed; rewrite Hf at 1; f_equal; lia).
    unfold binary_round_aux. unfold shr_fexp at 1. rewrite Es, Z.sub_diag. cbn [shr shr_record_of_loc shr_m loc_of_shr_record round_nearest_even].
    apply round_tail_signed; [lia|]. left. by rewrite Es.
Qed.

(** [Math.sign] as an integer, zero for [NaN]. *)
Definition num_sign (x : num) : Z := if num_ltb x num_zero then -1 else if num_ltb num_zero x then 1 else 0.

Lemma binary_normalize_sign m e : (-1074 <= e)%Z -> num_sign (binary_normalize 53 1024 m e false) = Z.sgn m.
Proof.
  intros He. destruct m as [|p|p]; cbn [binary_normalize]; [done | |];
    [destruct (binary_round_signed false p e He) as [(m & e' & E)|E] | destruct (binary_round_signed true p e He) as [(m & e' & E)|E]]; by rewrite E.
Qed.

Lemma shl_align_value m e e' : (e' <= e)%Z -> (Z.pos (fst (shl_align m e e')) = Z.pos m * 2 ^ (e - e'))%Z.
Proof.
  intros He. unfold shl_align. destruct (e' - e)%Z as [|k|k] eqn:Ek; [|lia|]; cbn [fst].
  - replace (e - e')%Z with 0%Z by lia. lia.
  - rewrite iter_xO. f_equal. f_equal. lia.
Qed.

(** The difference of two finite doubles has the sign of their order. *)
Lemma sub_sign x y : is_double x = true -> is_double y = true -> num_is_finite x = true -> num_is_finite y = true ->
  num_sign (num_sub x y) = Z.sgn (num_units x - num_units y).
Proof.
  intros Dx Dy Fx Fy. destruct x as [sx|sx| |sx mx ex]; try done; destruct y as [sy|sy| |sy my ey]; try done.
  - by destruct sx, sy.
  - apply double_mantissa in Dy as [L _]. cbn [num_units]. assert (0 < 2 ^ (ey + 1074))%Z by (apply Z.pow_pos_nonneg; lia).
    destruct sy; cbn [num_sub SFsub negb]; symmetry; [apply Z.sgn_pos | apply Z.sgn_neg]; lia.
  - apply double_mantissa in Dx as [L _]. cbn [num_units]. assert (0 < 2 ^ (ex + 1074))%Z by (apply Z.pow_pos_nonneg; lia).
    destruct sx; cbn [num_sub SFsub]; symmetry; [apply Z.sgn_neg | apply Z.sgn_pos]; lia.
  - apply double_mantissa in Dx as [Lx _]. apply double_mantissa in Dy as [Ly _]. unfold num_sub, SFsub. set (ez := Z.min ex ey).
    rewrite binary_normalize_sign by (unfold ez; lia). rewrite !shl_align_value by (unfold ez; lia). cbn [num_units].
    assert (P : (0 < 2 ^ (ez + 1074))%Z) by (apply Z.pow_pos_nonneg; unfold ez; lia).
    replace (2 ^ (ex + 1074))%Z with (2 ^ (ex - ez) * 2 ^ (ez + 1074))%Z by (rewrite <- Z.pow_add_r by (unfold ez; lia); f_equal; lia).
    replace (2 ^ (ey + 1074))%Z with (2 ^ (ey - ez) * 2 ^ (ez + 1074))%Z by (rewrite <- Z.pow_add_r by (unfold ez; lia); f_equal; lia).
    set (A := (Z.pos mx * 2 ^ (ex - ez))%Z). set (B := (Z.pos my * 2 ^ (ey - ez))%Z).
    transitivity (Z.sgn ((cond_Zopp sx A - cond_Zopp sy B) * 2 ^ (ez + 1074))%Z); [by rewrite Z.sgn_mul, (Z.sgn_pos _ P), Z.mul_1_r|].
    f_equal. unfold A, B, cond_Zopp. destruct sx, sy; ring.
Qed.
