(* ===== verification/Json.v ===== *)
(** * JSON values, [JSON.parse], [JSON.stringify] and [String(v)]

    The values that [JSON.parse] returns, with the property order of
    JavaScript objects (array index keys first, ascending, then the other keys
    in insertion order, a repeated key keeping its place and its last value). *)
From S2P Require Import Prelude JsString JsNumber.
Local Open Scope Z_scope.

Inductive json : Type :=
| JNull
| JBool (b : bool)
| JNum (n : num)
| JStr (s : jsstr)
| JArr (l : list json)
| JObj (props : list (jsstr * json)).

(** ** Objects *)

(** An array index: the canonical decimal text of an integer below 2^32 - 1. *)
Definition is_index (k : jsstr) : bool :=
  match k with
  | [] => false
  | c :: r => forallb is_digit k && (negb (c =? 48) || bool_decide (r = [])) &&
              (parse_digits k <? 4294967295)
  end.

Definition obj_order (props : list (jsstr * json)) : list (jsstr * json) :=
  js_sort (fun a b => parse_digits a.1 - parse_digits b.1) (base.filter (fun p => is_index p.1 = true) props)
  ++ base.filter (fun p => is_index p.1 = false) props.

Definition obj_of_members (ms : list (jsstr * json)) : list (jsstr * json) :=
  obj_order (fold_left (fun o p => map_set p.1 p.2 o) ms []).

(** ** Strings *)
Definition bslash : Z := 92.

Definition hex_digit (n : Z) : Z := if n <? 10 then 48 + n else 87 + n.
Definition hex4 (c : Z) : jsstr :=
  [hex_digit (c / 4096 mod 16); hex_digit (c / 256 mod 16); hex_digit (c / 16 mod 16); hex_digit (c mod 16)].

Definition is_hex (c : Z) : bool := digit_value c <? 16.

Definition is_high (c : Z) : bool := (55296 <=? c) && (c <=? 56319).
Definition is_low (c : Z) : bool := (56320 <=? c) && (c <=? 57343).

Definition u_escape (c : Z) : jsstr := [bslash; 117] ++ hex4 c.

(** The escape of one code unit that is no part of a surrogate pair. *)
Definition quote_char (c : Z) : jsstr :=
  if c =? dquote then [bslash; dquote]
  else if c =? bslash then [bslash; bslash]
  else if c =? 8 then [bslash; 98]
  else if c =? 12 then [bslash; 102]
  else if c =? 10 then [bslash; 110]
  else if c =? 13 then [bslash; 114]
  else if c =? 9 then [bslash; 116]
  else if (c <? 32) || is_high c || is_low c then u_escape c
  else [c].

Fixpoint quote_body (s : jsstr) : jsstr :=
  match s with
  | [] => []
  | c :: r =>
      match r with
      | d :: r' => if is_high c && is_low d then c :: d :: quote_body r' else quote_char c ++ quote_body r
      | [] => quote_char c
      end
  end.

(** [JSON.stringify(s)] of a string. *)
Definition json_quote (s : jsstr) : jsstr := [dquote] ++ quote_body s ++ [dquote].

Definition simple_escape (e : Z) : option Z :=
  if e =? dquote then Some dquote
  else if e =? bslash then Some bslash
  else if e =? 47 then Some 47
  else if e =? 98 then Some 8
  else if e =? 102 then Some 12
  else if e =? 110 then Some 10
  else if e =? 114 then Some 13
  else if e =? 116 then Some 9 else None.

(** The rest of a string literal after its opening quote. *)
Fixpoint parse_str_body (s : jsstr) : option (jsstr * jsstr) :=
  match s with
  | [] => None
  | c :: r =>
      if c =? dquote then Some ([], r)
      else if c =? bslash then
        match r with
        | [] => None
        | e :: r1 =>
            if e =? 117 then
              match r1 with
              | h1 :: h2 :: h3 :: h4 :: r2 =>
                  if is_hex h1 && is_hex h2 && is_hex h3 && is_hex h4 then
                    '(t, rest) ← parse_str_body r2;
                    Some ((((digit_value h1 * 16 + digit_value h2) * 16 + digit_value h3) * 16 + digit_value h4) :: t, rest)
                  else None
              | _ => None
              end
            else
              x ← simple_escape e;
              '(t, rest) ← parse_str_body r1;
              Some (x :: t, rest)
        end
      else if c <? 32 then None
      else '(t, rest) ← parse_str_body r; Some (c :: t, rest)
  end.

(** ** [JSON.parse] *)
Definition json_ws (c : Z) : bool := (c =? 32) || (c =? 9) || (c =? 10) || (c =? 13).
Definition skip_ws (s : jsstr) : jsstr := drop_while json_ws s.

(** The number grammar of JSON: no leading zeros, digits around the point. *)
Definition json_fraction (r1 : jsstr) : option (jsstr * jsstr) :=
  match r1 with
  | d :: r' => if d =? dot then
                 match take_while is_digit r' with
                 | [] => None
                 | fp => Some (fp, drop_while is_digit r')
                 end
               else Some ([], r1)
  | [] => Some ([], r1)
  end.

Definition json_unsigned (neg : bool) (r : jsstr) : option (num * jsstr) :=
  let ip := take_while is_digit r in
  match ip with
  | [] => None
  | c :: ipr =>
      if (c =? 48) && negb (bool_decide (ipr = [])) then None
      else
        '(fp, r2) ← json_fraction (drop_while is_digit r);
        let '(e, r3) := exponent_part r2 in
        let n := num_of_dec (parse_digits (ip ++ fp)) (e - Z.of_nat (length fp)) in
        match r2, r3 with
        | x :: _, y :: _ => if ((x =? 101) || (x =? 69)) && bool_decide (r2 = r3) then None
                            else Some (if neg then num_opp n else n, r3)
        | _, _ => Some (if neg then num_opp n else n, r3)
        end
  end.

Definition parse_json_number (s : jsstr) : option (num * jsstr) :=
  match s with
  | c :: r => if c =? minus then json_unsigned true r else json_unsigned false s
  | [] => None
  end.

Fixpoint parse_value (fuel : nat) (s : jsstr) {struct fuel} : option (json * jsstr) :=
  match fuel with
  | O => None
  | S f =>
      match skip_ws s with
      | [] => None
      | c :: r =>
          if c =? dquote then '(t, rest) ← parse_str_body r; Some (JStr t, rest)
          else if c =? 91 then
            match skip_ws r with
            | d :: r' => if d =? 93 then Some (JArr [], r') else
                         '(l, rest) ← parse_elems f r; Some (JArr l, rest)
            | [] => None
            end
          else if c =? 123 then
            match skip_ws r with
            | d :: r' => if d =? 125 then Some (JObj [], r') else
                         '(ms, rest) ← parse_members f r; Some (JObj (obj_of_members ms), rest)
            | [] => None
            end
          else
            match strip_prefix (js "null") (c :: r), strip_prefix (js "true") (c :: r),
                  strip_prefix (js "false") (c :: r) with
            | Some r', _, _ => Some (JNull, r')
            | _, Some r', _ => Some (JBool true, r')
            | _, _, Some r' => Some (JBool false, r')
            | _, _, _ => '(n, rest) ← parse_json_number (c :: r); Some (JNum n, rest)
            end
      end
  end
with parse_elems (fuel : nat) (s : jsstr) {struct fuel} : option (list json * jsstr) :=
  match fuel with
  | O => None
  | S f =>
      '(v, r) ← parse_value f s;
      match skip_ws r with
      | c :: r' =>
          if c =? 44 then '(l, rest) ← parse_elems f r'; Some (v :: l, rest)
          else if c =? 93 then Some ([v], r') else None
      | [] => None
      end
  end
with parse_members (fuel : nat) (s : jsstr) {struct fuel} : option (list (jsstr * json) * jsstr) :=
  match fuel with
  | O => None
  | S f =>
      match skip_ws s with
      | c :: r =>
          if c =? dquote then
            '(k, r1) ← parse_str_body r;
            match skip_ws r1 with
            | d :: r2 =>
                if d =? 58 then
                  '(v, r3) ← parse_value f r2;
                  match skip_ws r3 with
                  | e :: r4 =>
                      if e =? 44 then '(l, rest) ← parse_members f r4; Some ((k, v) :: l, rest)
                      else if e =? 125 then Some ([(k, v)], r4) else None
                  | [] => None
                  end
                else None
            | [] => None
            end
          else None
      | [] => None
      end
  end.

(** [JSON.parse(text)]; [None] when it throws.  Every character costs at most
    two units of fuel, so the fuel never runs out. *)
Definition json_parse (text : jsstr) : option json :=
  match parse_value (2 * length text + 2) text with
  | Some (v, rest) => if skip_ws rest is [] then Some v else None
  | None => None
  end.

(** ** [String(v)], [typeof] tests, truthiness *)
Fixpoint json_to_string (v : json) : jsstr :=
  match v with
  | JNull => js "null"
  | JBool b => if b then js "true" else js "false"
  | JNum n => num_to_string n
  | JStr s => s
  | JArr l => join [comma] (map (fun x => match x with JNull => [] | _ => json_to_string x end) l)
  | JObj _ => js "[object Object]"
  end.

Definition json_truthy (v : json) : bool :=
  match v with
  | JNull => false
  | JBool b => b
  | JNum n => num_truthy n
  | JStr s => match s with [] => false | _ => true end
  | JArr _ | JObj _ => true
  end.

(** [Number(v)] *)
Definition json_to_number (v : option json) : num :=
  match v with
  | None => num_nan
  | Some JNull => num_zero
  | Some (JBool b) => num_of_Z (if b then 1 else 0)
  | Some (JNum n) => n
  | Some (JStr s) => num_of_string s
  | Some (JArr l) => num_of_string (json_to_string (JArr l))
  | Some (JObj _) => num_nan
  end.

(** [typeof v === 'object' && v && !Array.isArray(v)]: the entries of a plain object. *)
Definition json_object (v : json) : option (list (jsstr * json)) :=
  match v with JObj ps => Some ps | _ => None end.

(** ** Quoting and parsing strings *)

(** A UTF-16 code unit. *)
Definition code_unit (c : Z) : bool := (0 <=? c) && (c <? 65536).

Lemma hex_digit_value n : 0 <= n < 16 -> is_hex (hex_digit n) = true /\ digit_value (hex_digit n) = n.
Proof.
  intros Hn. rewrite <- (Z2Nat.id n) by lia.
  assert (F : forallb (fun k => is_hex (hex_digit (Z.of_nat k)) && (digit_value (hex_digit (Z.of_nat k)) =? Z.of_nat k))
                      (seq 0 16) = true) by (vm_compute; reflexivity).
  rewrite forallb_forall in F. specialize (F (Z.to_nat n)).
  rewrite <- list_elem_of_In, elem_of_seq in F. specialize (F ltac:(lia)).
  apply andb_prop in F as [F1 F2]. by apply Z.eqb_eq in F2.
Qed.

Lemma parse_u_escape c rest :
  code_unit c = true ->
  parse_str_body (u_escape c ++ rest) = ('(t, r) ← parse_str_body rest; Some (c :: t, r)).
Proof.
  unfold code_unit. intros Hc. bool_to_prop. unfold u_escape, hex4. simpl app.
  cbn [parse_str_body]. change (bslash =? dquote) with false. change (bslash =? bslash) with true.
  change (117 =? 117) with true. cbv iota.
  destruct (hex_digit_value (c / 4096 mod 16)) as [-> ->]; [apply Z.mod_pos_bound; lia|].
  destruct (hex_digit_value (c / 256 mod 16)) as [-> ->]; [apply Z.mod_pos_bound; lia|].
  destruct (hex_digit_value (c / 16 mod 16)) as [-> ->]; [apply Z.mod_pos_bound; lia|].
  destruct (hex_digit_value (c mod 16)) as [-> ->]; [apply Z.mod_pos_bound; lia|].
  simpl. replace (((c / 4096 mod 16 * 16 + c / 256 mod 16) * 16 + c / 16 mod 16) * 16 + c mod 16)
    with c; [done|].
  replace (c / 4096) with (c / 16 / 16 / 16) by (rewrite !Z.div_div by lia; done).
  replace (c / 256) with (c / 16 / 16) by (rewrite Z.div_div by lia; done).
  rewrite (Z.mod_small (c / 16 / 16 / 16)) by (rewrite !Z.div_div by lia; split; [apply Z.div_pos|apply Z.div_lt_upper_bound]; lia).
  pose proof (Z.div_mod c 16). pose proof (Z.div_mod (c / 16) 16). pose proof (Z.div_mod (c / 16 / 16) 16). lia.
Qed.

Lemma parse_quote_char c rest :
  code_unit c = true ->
  parse_str_body (quote_char c ++ rest) = ('(t, r) ← parse_str_body rest; Some (c :: t, r)).
Proof.
  intros Hc. unfold quote_char.
  repeat match goal with
  | |- context [if ?a =? ?b then _ else _] => destruct (Z.eqb_spec a b); [by subst|]
  end.
  destruct ((c <? 32) || is_high c || is_low c) eqn:E; [by apply parse_u_escape|].
  apply orb_false_iff in E as [[E _]%orb_false_iff _]. simpl.
  rewrite E. destruct (Z.eqb_spec c dquote), (Z.eqb_spec c bslash); done.
Qed.

Lemma parse_plain c rest :
  32 <= c -> c <> dquote -> c <> bslash ->
  parse_str_body (c :: rest) = ('(t, r) ← parse_str_body rest; Some (c :: t, r)).
Proof.
  intros H1 H2 H3. simpl. destruct (Z.eqb_spec c dquote), (Z.eqb_spec c bslash), (Z.ltb_spec c 32); done || lia.
Qed.

Lemma quote_body_cons c d r :
  quote_body (c :: d :: r) =
  if is_high c && is_low d then c :: d :: quote_body r else quote_char c ++ quote_body (d :: r).
Proof. done. Qed.

(** A quoted string is read back, whatever follows it. *)
Lemma parse_quote_body s rest :
  forallb code_unit s = true ->
  parse_str_body (quote_body s ++ dquote :: rest) = Some (s, rest).
Proof.
  remember (length s) as n eqn:Hn. revert s Hn.
  induction n as [n IH] using lt_wf_ind. intros s Hn Hs.
  destruct s as [|c [|d r]]; simpl in Hs; bool_to_prop.
  - done.
  - simpl quote_body. rewrite parse_quote_char by done. done.
  - rewrite quote_body_cons. destruct (is_high c && is_low d) eqn:E.
    + unfold is_high, is_low in E. bool_to_prop.
      simpl app. rewrite !parse_plain by (unfold dquote, bslash; lia).
      by rewrite (IH (length r)) by (done || subst; simpl; lia).
    + rewrite <-(assoc_L (++)), parse_quote_char by done.
      rewrite (IH (length (d :: r))); [done|subst; simpl; lia|done|]. simpl. by rewrite !andb_true_iff.
Qed.

(** [JSON.parse(JSON.stringify(s))] is [s]. *)
Lemma json_parse_quote s : forallb code_unit s = true -> json_parse (json_quote s) = Some (JStr s).
Proof.
  intros Hs. unfold json_parse, json_quote. rewrite Nat.add_comm. simpl app.
  change (parse_value (2 + _) (dquote :: quote_body s ++ [dquote])) with
    ('(t, rest) ← parse_str_body (quote_body s ++ [dquote]); Some (JStr t, rest)).
  by rewrite parse_quote_body.
Qed.

Example json_parse_example :
  (fun v => json_to_string <$> v) (json_parse (js " [1.50, true, null, [2,3], {}] ")) =
  Some (js "1.5,true,,2,3,[object Object]").
Proof. vm_compute. reflexivity. Qed.

Example json_object_order :
  json_parse ([123] ++ json_quote (js "b") ++ js ":1," ++ json_quote (js "10") ++ js ":2," ++
              json_quote (js "9") ++ js ":3," ++ json_quote (js "b") ++ js ":4}") =
  Some (JObj [(js "9", JNum (num_of_Z 3)); (js "10", JNum (num_of_Z 2)); (js "b", JNum (num_of_Z 4))]).
Proof. vm_compute. reflexivity. Qed.
