(* ===== verification/JsonText.v ===== *)
(** * [JSON.stringify], and reading its texts back

    The serialiser with and without indentation, the proof that [JSON.parse]
    returns the value whose text it is given, and what every value that
    [JSON.parse] returns looks like.  A number is asked to read back from its
    own text; the demand is decidable, and a witness evaluates it. *)
From S2P Require Import Prelude JsString JsNumber Json.
Local Open Scope Z_scope.

(** Induction over JSON values, with the hypotheses for the elements of arrays
    and the values of objects. *)
Section json_induction.
Variable P : json -> Prop.
Hypotheses (Pnull : P JNull) (Pbool : forall b, P (JBool b)) (Pnum : forall n, P (JNum n)) (Pstr : forall s, P (JStr s)).
Hypothesis Parr : forall l, Forall P l -> P (JArr l).
Hypothesis Pobj : forall ps, Forall (fun p => P p.2) ps -> P (JObj ps).

Fixpoint json_nested_ind (v : json) : P v :=
  match v with
  | JNull => Pnull
  | JBool b => Pbool b
  | JNum n => Pnum n
  | JStr s => Pstr s
  | JArr l => Parr l ((fix go l : Forall P l :=
                         match l with [] => Forall_nil_2 P | x :: r => Forall_cons_2 P x r (json_nested_ind x) (go r) end) l)
  | JObj ps => Pobj ps ((fix go ps : Forall (fun p => P p.2) ps :=
                           match ps with
                           | [] => Forall_nil_2 _
                           | p :: r => Forall_cons_2 (fun p => P p.2) p r (json_nested_ind p.2) (go r)
                           end) ps)
  end.
End json_induction.

(** ** [JSON.stringify] *)

(** The items of an array or an object between its brackets: on lines of their
    own, indented by [cur ++ gap], when there is a gap, and side by side
    otherwise. *)
Definition json_wrap (o c : Z) (gap cur : jsstr) (items : list jsstr) : jsstr :=
  match items with
  | [] => [o; c]
  | _ =>
      match gap with
      | [] => [o] ++ join [comma] items ++ [c]
      | _ => [o] ++ (10 :: cur ++ gap) ++ join (comma :: 10 :: cur ++ gap) items ++ (10 :: cur) ++ [c]
      end
  end.

Fixpoint stringify (gap cur : jsstr) (v : json) : jsstr :=
  match v with
  | JNull => js "null"
  | JBool b => if b then js "true" else js "false"
  | JNum n => if num_is_finite n then num_to_string n else js "null"
  | JStr s => json_quote s
  | JArr l => json_wrap 91 93 gap cur (map (stringify gap (cur ++ gap)) l)
  | JObj ps =>
      json_wrap 123 125 gap cur
        (map (fun p => json_quote p.1 ++ [58] ++ (if gap is [] then [] else [32]) ++ stringify gap (cur ++ gap) p.2) ps)
  end.

(** [JSON.stringify(v)] and [JSON.stringify(v, null, 2)] *)
Definition json_stringify : json -> jsstr := stringify [] [].
Definition json_pretty : json -> jsstr := stringify [32; 32] [].

Example json_pretty_example :
  json_pretty (JObj [(js "a", JArr [JNum (num_of_Z 1); JNull]); (js "b", JObj []); (js "c", JArr [])]) =
  js "{" ++ [10] ++ js "  " ++ json_quote (js "a") ++ js ": [" ++ [10] ++ js "    1," ++ [10] ++ js "    null" ++ [10] ++
  js "  ]," ++ [10] ++ js "  " ++ json_quote (js "b") ++ js ": {}," ++ [10] ++ js "  " ++ json_quote (js "c") ++ js ": []" ++ [10] ++ js "}".
Proof. vm_compute. reflexivity. Qed.

#[export] Instance json_eq_dec : EqDecision json.
Proof.
  refine (fix go (v w : json) {struct v} : Decision (v = w) :=
    let r : EqDecision json := @go in
    match v, w with
    | JNull, JNull => left eq_refl
    | JBool a, JBool b => cast_if (decide (a = b))
    | JNum a, JNum b => cast_if (decide (a = b))
    | JStr a, JStr b => cast_if (decide (a = b))
    | JArr a, JArr b => cast_if (decide (a = b))
    | JObj a, JObj b => cast_if (decide (a = b))
    | _, _ => right _
    end); try clear r go; congruence.
Defined.

(** ** Reading back what [JSON.stringify] writes *)

(** The number is finite and its text reads back as the same double. *)
Definition num_reads_back (n : num) : bool :=
  num_is_finite n && bool_decide (parse_json_number (num_to_string n) = Some (n, [])).

(** The values that survive a trip through text: numbers that read back,
    strings of code units, objects with distinct keys in property order. *)
Fixpoint json_ok (v : json) : bool :=
  match v with
  | JNull | JBool _ => true
  | JNum n => num_reads_back n
  | JStr s => forallb code_unit s
  | JArr l => forallb json_ok l
  | JObj ps => bool_decide (obj_of_members ps = ps) && forallb (fun p => forallb code_unit p.1 && json_ok p.2) ps
  end.

(** A number ends where no digit, point or exponent follows. *)
Definition num_stop (rest : jsstr) : bool :=
  match rest with [] => true | c :: _ => negb (is_digit c) && negb (c =? dot) && negb (c =? 101) && negb (c =? 69) &&
                              negb (c =? minus) && negb (c =? 43) end.

Lemma take_while_stop_app s rest :
  num_stop rest = true ->
  take_while is_digit (s ++ rest) = take_while is_digit s /\
  drop_while is_digit (s ++ rest) = drop_while is_digit s ++ rest.
Proof.
  intros H. induction s as [|c s [IH1 IH2]]; simpl.
  - destruct rest as [|c r]; [done|]. simpl in *. bool_to_prop. by rewrite H.
  - destruct (is_digit c); [|done]. by rewrite IH1, IH2.
Qed.

Lemma exponent_part_stop rest : num_stop rest = true -> exponent_part rest = (0, rest).
Proof.
  destruct rest as [|c r]; [done|]. simpl. intros H. bool_to_prop.
  destruct (Z.eqb_spec c 101), (Z.eqb_spec c 69); done.
Qed.

Lemma exponent_part_app s rest :
  num_stop rest = true ->
  exponent_part (s ++ rest) = (let '(e, r) := exponent_part s in (e, r ++ rest)).
Proof.
  intros H. destruct s as [|c s]; simpl app; [by rewrite (exponent_part_stop rest)|].
  unfold exponent_part. destruct ((c =? 101) || (c =? 69)); [|done].
  assert (E : (match s ++ rest with
     | [] => (false, s ++ rest)
     | d :: r' => if d =? minus then (true, r') else if d =? 43 then (false, r') else (false, s ++ rest) end) =
     (let '(n, r) := (match s with
     | [] => (false, s)
     | d :: r' => if d =? minus then (true, r') else if d =? 43 then (false, r') else (false, s) end) in (n, r ++ rest))).
  { destruct s as [|d s]; simpl; [|by repeat case_match].
    destruct rest as [|d r]; [done|]. simpl in H. bool_to_prop.
    by destruct (Z.eqb_spec d minus), (Z.eqb_spec d 43). }
  rewrite E. destruct (match s with [] => _ | _ => _ end) as [n r].
  destruct (take_while_stop_app r rest H) as [-> ->].
  by destruct (take_while is_digit r).
Qed.

Lemma json_fraction_app r rest fp r2 :
  num_stop rest = true -> json_fraction r = Some (fp, r2) -> json_fraction (r ++ rest) = Some (fp, r2 ++ rest).
Proof.
  intros H. destruct r as [|d r]; simpl.
  - intros [= <- <-]. destruct rest as [|d r]; [done|]. simpl in *. bool_to_prop. by destruct (Z.eqb_spec d dot).
  - destruct (d =? dot); [|by intros [= <- <-]].
    destruct (take_while_stop_app r rest H) as [-> ->]. destruct (take_while is_digit r); [done|]. by intros [= <- <-].
Qed.

Lemma json_unsigned_app neg r rest n :
  num_stop rest = true -> json_unsigned neg r = Some (n, []) -> json_unsigned neg (r ++ rest) = Some (n, rest).
Proof.
  intros H. unfold json_unsigned. destruct (take_while_stop_app r rest H) as [-> ->].
  destruct (take_while is_digit r) as [|c ipr]; [done|]. destruct (_ && _); [done|].
  destruct (json_fraction (drop_while is_digit r)) as [[fp r2]|] eqn:E; [|done].
  rewrite (json_fraction_app _ _ _ _ H E). simpl. rewrite (exponent_part_app r2 rest H).
  destruct (exponent_part r2) as [e r3] eqn:Ee.
  destruct r2 as [|x r2]; simpl.
  - unfold exponent_part in Ee. simplify_eq. intros [= <-]. destruct rest as [|y t]; [done|]. simpl in *.
    bool_to_prop. by destruct (Z.eqb_spec y 101), (Z.eqb_spec y 69).
  - destruct r3 as [|y r3]; simpl; [|by destruct (_ && _)].
    intros [= <-]. destruct rest as [|z t]; [done|]. rewrite (bool_decide_eq_false_2 (_ = _)), andb_false_r; [done|].
    intros Heq. apply (f_equal length) in Heq. simpl in Heq. rewrite length_app in Heq. simpl in Heq. lia.
Qed.

(** A number text is read the same whatever it is followed by. *)
Lemma parse_json_number_app s rest n :
  parse_json_number s = Some (n, []) -> num_stop rest = true -> parse_json_number (s ++ rest) = Some (n, rest).
Proof.
  intros Hs Hr. destruct s as [|c s]; [done|]. simpl in *.
  destruct (c =? minus); [by apply json_unsigned_app|]. by apply (json_unsigned_app _ (c :: s)).
Qed.

Lemma parse_json_number_head s n rest :
  parse_json_number s = Some (n, rest) -> exists c r, s = c :: r /\ (c = minus \/ is_digit c = true).
Proof.
  destruct s as [|c s]; [done|]. simpl. destruct (Z.eqb_spec c minus); [eauto 6|].
  unfold json_unsigned. simpl. destruct (is_digit c) eqn:E; [eauto 6|done].
Qed.

Lemma skip_ws_app w c r :
  forallb json_ws w = true -> json_ws c = false -> skip_ws (w ++ c :: r) = c :: r.
Proof. intros Hw Hc. unfold skip_ws. rewrite drop_while_app by done. simpl. by rewrite Hc. Qed.

Lemma num_stop_ws w rest : forallb json_ws w = true -> num_stop rest = true -> num_stop (w ++ rest) = true.
Proof.
  intros Hw Hr. destruct w as [|c w]; [done|]. apply andb_true_iff in Hw as [Hc _].
  unfold json_ws in Hc. rewrite !orb_true_iff, !Z.eqb_eq in Hc. by destruct Hc as [[[-> | ->] | ->] | ->].
Qed.

(** Every text starts with a character that opens a value. *)
Definition opens_value (c : Z) : bool := negb (json_ws c) && negb (c =? 93) && negb (c =? 125).

Lemma stringify_head gap cur v :
  json_ok v = true -> exists c r, stringify gap cur v = c :: r /\ opens_value c = true.
Proof.
  destruct v as [|[]|n|s|l|ps]; simpl; intros H; try (by eexists _, _).
  - unfold num_reads_back in H. apply andb_true_iff in H as [-> H]. bool_to_prop.
    destruct (parse_json_number_head _ _ _ H) as (c & r & -> & Hc). exists c, r. split; [done|].
    destruct Hc as [-> |Hc]; [done|]. unfold is_digit in Hc. bool_to_prop. unfold opens_value, json_ws.
    by repeat match goal with |- context [Z.eqb ?a ?b] => destruct (Z.eqb_spec a b); try lia end.
  - unfold json_wrap. destruct (map _ l); [by eexists _, _|]. destruct gap; by eexists _, _.
  - unfold json_wrap. destruct (map _ ps); [by eexists _, _|]. destruct gap; by eexists _, _.
Qed.

Lemma json_wrap_cons o c gap cur x items :
  forallb json_ws gap = true -> forallb json_ws cur = true ->
  exists sep close, json_wrap o c gap cur (x :: items) = [o] ++ sep ++ join (comma :: sep) (x :: items) ++ close ++ [c] /\
    forallb json_ws sep = true /\ forallb json_ws close = true.
Proof.
  intros Hg Hc. unfold json_wrap. destruct gap as [|g gap].
  - exists [], []. split; [|done]. by rewrite !app_nil_l.
  - exists (10 :: cur ++ g :: gap), (10 :: cur). split; [done|]. cbn [forallb]. by rewrite forallb_app, Hc, Hg.
Qed.

Lemma join_cons sep x y l : join sep (x :: y :: l) = x ++ sep ++ join sep (y :: l).
Proof. done. Qed.

(** What the parser owes to one value: it reads its text, after white space
    and before anything that ends a number, with fuel for twice its length. *)
Definition reads_text (t : jsstr) (v : json) : Prop :=
  (exists c r, t = c :: r /\ opens_value c = true) /\
  forall w rest fuel, forallb json_ws w = true -> num_stop rest = true -> (2 * length t <= fuel)%nat ->
    parse_value fuel (w ++ t ++ rest) = Some (v, rest).

Lemma opens_value_facts c : opens_value c = true -> json_ws c = false /\ (c =? 93) = false /\ (c =? 125) = false.
Proof. unfold opens_value. intros H. by bool_to_prop; rewrite !Z.eqb_neq. Qed.

Lemma parse_elems_join sep close rest :
  forallb json_ws sep = true -> forallb json_ws close = true ->
  forall ts vs, Forall2 reads_text ts vs -> ts <> [] -> forall w fuel, forallb json_ws w = true ->
    (2 * length (join (comma :: sep) ts) < fuel)%nat ->
    parse_elems fuel (w ++ join (comma :: sep) ts ++ close ++ 93 :: rest) = Some (vs, rest).
Proof.
  intros Hs Hc ts vs F. induction F as [|t v ts vs [_ Ht] F IH]; [done|]. intros _ w fuel Hw Hf.
  destruct fuel as [|fuel]; [lia|]. destruct F as [|t' v' ts vs Ht' F].
  - cbn [join parse_elems]. rewrite Ht; [|done| |simpl in Hf; lia].
    + simpl. rewrite skip_ws_app by done. done.
    + by apply num_stop_ws.
  - rewrite join_cons in *. rewrite !length_app in Hf. cbn [length] in Hf.
    replace (w ++ (t ++ (comma :: sep) ++ join (comma :: sep) (t' :: ts)) ++ close ++ 93 :: rest)
      with (w ++ t ++ comma :: sep ++ join (comma :: sep) (t' :: ts) ++ close ++ 93 :: rest) by (by rewrite <- !(assoc_L (++))).
    cbn [parse_elems]. rewrite Ht by (done || lia). cbn [mbind option_bind].
    change (skip_ws (comma :: ?r)) with (comma :: r). cbv iota. change (comma =? 44) with true. cbv iota.
    rewrite IH; [done|done|done|lia].
Qed.

(** The text of a member: its quoted key, the colon and its value. *)
Definition member_text (pad : jsstr) (k t : jsstr) : jsstr := json_quote k ++ [58] ++ pad ++ t.

Definition reads_member (pad : jsstr) (t : jsstr) (p : jsstr * json) : Prop :=
  exists u, t = member_text pad p.1 u /\ forallb code_unit p.1 = true /\ reads_text u p.2.

Lemma parse_members_step pad u k v w tail fuel :
  forallb json_ws pad = true -> forallb code_unit k = true -> reads_text u v -> forallb json_ws w = true ->
  num_stop tail = true -> (2 * length u <= fuel)%nat ->
  parse_members (S fuel) (w ++ member_text pad k u ++ tail) =
  match skip_ws tail with
  | e :: r4 =>
      if e =? 44 then '(l, rest) ← parse_members fuel r4; Some ((k, v) :: l, rest)
      else if e =? 125 then Some ([(k, v)], r4) else None
  | [] => None
  end.
Proof.
  intros Hp Hk [_ Hu] Hw Ht Hf. unfold member_text, json_quote. rewrite <- !(assoc_L (++)).
  cbn [parse_members]. simpl app. rewrite skip_ws_app by done. change (dquote =? dquote) with true. cbv iota.
  rewrite parse_quote_body by done. cbn [mbind option_bind].
  change (skip_ws (58 :: ?r)) with (58 :: r). cbv iota. change (58 =? 58) with true. cbv iota.
  rewrite Hu by done. reflexivity.
Qed.

Lemma length_member_text pad k u : (length u + 3 <= length (member_text pad k u))%nat.
Proof. unfold member_text, json_quote. rewrite !length_app. simpl. lia. Qed.

Lemma parse_members_join pad sep close rest :
  forallb json_ws pad = true -> forallb json_ws sep = true -> forallb json_ws close = true ->
  forall ts ps, Forall2 (reads_member pad) ts ps -> ts <> [] -> forall w fuel, forallb json_ws w = true ->
    (2 * length (join (comma :: sep) ts) < fuel)%nat ->
    parse_members fuel (w ++ join (comma :: sep) ts ++ close ++ 125 :: rest) = Some (ps, rest).
Proof.
  intros Hp Hs Hc ts ps F. induction F as [|t [k v] ts ps (u & -> & Hk & Hu) F IH]; [done|]. intros _ w fuel Hw Hf.
  destruct fuel as [|fuel]; [lia|]. simpl in Hk, Hu. simpl fst in *. pose proof (length_member_text pad k u).
  destruct F as [|t' p' ts ps Ht' F].
  - cbn [join] in *. rewrite (parse_members_step pad u k v); try done; [|by apply num_stop_ws|lia].
    rewrite skip_ws_app by done. done.
  - rewrite join_cons in *. rewrite !length_app in Hf. cbn [length] in Hf.
    replace (w ++ (member_text pad k u ++ (comma :: sep) ++ join (comma :: sep) (t' :: ts)) ++ close ++ 125 :: rest)
      with (w ++ member_text pad k u ++ comma :: sep ++ join (comma :: sep) (t' :: ts) ++ close ++ 125 :: rest)
      by (by rewrite <- !(assoc_L (++))).
    rewrite (parse_members_step pad u k v) by (done || lia).
    change (skip_ws (comma :: ?r)) with (comma :: r). cbv iota. change (comma =? 44) with true. cbv iota.
    rewrite IH; [done|done|done|lia].
Qed.

Lemma reads_scalar t v :
  (exists c r, t = c :: r /\ opens_value c = true) ->
  (forall rest f, num_stop rest = true -> parse_value (S f) (t ++ rest) = Some (v, rest)) ->
  reads_text t v.
Proof.
  intros Ho H. split; [done|]. intros w rest fuel Hw Hr Hf.
  destruct Ho as (c & r & -> & Hc). apply opens_value_facts in Hc as (Hc & _ & _).
  simpl in Hf. destruct fuel as [|f]; [lia|]. rewrite <- (H rest f Hr). simpl app.
  cbn [parse_value]. rewrite skip_ws_app by done. rewrite (skip_ws_app [] c (r ++ rest) eq_refl Hc : skip_ws (c :: r ++ rest) = _). reflexivity.
Qed.

Lemma reads_number n : num_reads_back n = true -> reads_text (num_to_string n) (JNum n).
Proof.
  unfold num_reads_back. intros H. bool_to_prop.
  destruct (parse_json_number_head _ _ _ H0) as (c & r & E & Hc). apply reads_scalar.
  - rewrite E. exists c, r. split; [done|]. destruct Hc as [-> |Hc]; [done|]. unfold is_digit in Hc. bool_to_prop.
    unfold opens_value, json_ws. by repeat match goal with |- context [Z.eqb ?a ?b] => destruct (Z.eqb_spec a b); try lia end.
  - intros rest f Hr. pose proof (parse_json_number_app _ rest _ H0 Hr) as P. rewrite E in *. simpl app in *.
    assert (Hd : 45 <= c <= 57).
    { destruct Hc as [-> |Hc]; [unfold minus; lia|]. unfold is_digit in Hc. bool_to_prop. lia. }
    assert (Hw : json_ws c = false).
    { unfold json_ws. by repeat match goal with |- context [Z.eqb ?a ?b] => destruct (Z.eqb_spec a b); try lia end. }
    cbn [parse_value]. rewrite (skip_ws_app [] c (r ++ rest) eq_refl Hw : skip_ws (c :: r ++ rest) = _).
    unfold dquote. destruct (Z.eqb_spec c 34), (Z.eqb_spec c 91), (Z.eqb_spec c 123); try lia.
    change (js "null") with [110; 117; 108; 108]. change (js "true") with [116; 114; 117; 101].
    change (js "false") with [102; 97; 108; 115; 101]. cbn [strip_prefix].
    destruct (Z.eqb_spec 110 c), (Z.eqb_spec 116 c), (Z.eqb_spec 102 c); try lia. rewrite P. reflexivity.
Qed.

Lemma reads_word (t : jsstr) v :
  (exists c r, t = c :: r /\ opens_value c = true) ->
  (forall rest f, parse_value (S f) (t ++ rest) = Some (v, rest)) -> reads_text t v.
Proof. intros Ho H. apply reads_scalar; [done|]. intros. apply H. Qed.

Lemma reads_array gap cur ts vs :
  forallb json_ws gap = true -> forallb json_ws cur = true -> Forall2 reads_text ts vs ->
  reads_text (json_wrap 91 93 gap cur ts) (JArr vs).
Proof.
  intros Hg Hc F. destruct F as [|t v ts vs Ht F].
  { apply reads_word; [by eexists _, _|]. done. }
  destruct (json_wrap_cons 91 93 gap cur t ts Hg Hc) as (sep & close & -> & Hs & Hcl).
  pose proof Ht as [(c & r & -> & Hop) _]. apply opens_value_facts in Hop as (H1 & H2 & _).
  assert (exists r', join (comma :: sep) ((c :: r) :: ts) = c :: r') as [r' E] by (destruct ts; by eexists).
  split; [by eexists _, _|]. intros w rest fuel Hw Hr Hf. rewrite !length_app in Hf. cbn [length] in Hf.
  pose proof (parse_elems_join sep close rest Hs Hcl ((c :: r) :: ts) (v :: vs)) as P.
  rewrite E in *. destruct fuel as [|fuel]; [lia|]. simpl app. rewrite <- !(assoc_L (++)). simpl app. cbn [parse_value].
  rewrite skip_ws_app by done. cbv beta iota. change (91 =? dquote) with false. change (91 =? 91) with true. cbv iota.
  rewrite skip_ws_app, H2 by done. simpl app in P. rewrite <- !(assoc_L (++)). simpl app.
  rewrite P; [done|by constructor|done|done|lia].
Qed.

Lemma reads_object gap cur pad ts ps :
  forallb json_ws gap = true -> forallb json_ws cur = true -> forallb json_ws pad = true ->
  Forall2 (reads_member pad) ts ps -> obj_of_members ps = ps ->
  reads_text (json_wrap 123 125 gap cur ts) (JObj ps).
Proof.
  intros Hg Hc Hp F Ho. destruct F as [|t p ts ps Ht F].
  { apply reads_word; [by eexists _, _|]. done. }
  destruct (json_wrap_cons 123 125 gap cur t ts Hg Hc) as (sep & close & -> & Hs & Hcl).
  assert (exists r', join (comma :: sep) (t :: ts) = dquote :: r') as [r' E].
  { destruct Ht as (u & -> & _). destruct ts; by eexists. }
  split; [by eexists _, _|]. intros w rest fuel Hw Hr Hf. rewrite !length_app in Hf. cbn [length] in Hf.
  pose proof (parse_members_join pad sep close rest Hp Hs Hcl (t :: ts) (p :: ps)) as P.
  rewrite E in *. destruct fuel as [|fuel]; [lia|]. simpl app. rewrite <- !(assoc_L (++)). simpl app. cbn [parse_value].
  rewrite skip_ws_app by done. cbv beta iota. change (123 =? dquote) with false. change (123 =? 91) with false.
  change (123 =? 123) with true. cbv iota. rewrite skip_ws_app by done. change (dquote =? 125) with false. cbv iota.
  simpl app in P. rewrite <- !(assoc_L (++)). simpl app. rewrite P; [by simpl; rewrite Ho|by constructor|done|done|lia].
Qed.

(** The parser reads back the text of every such value. *)
Lemma reads_stringify gap v :
  forallb json_ws gap = true -> json_ok v = true ->
  forall cur, forallb json_ws cur = true -> reads_text (stringify gap cur v) v.
Proof.
  intros Hg. induction v as [|b|n|s|l IH|ps IH] using json_nested_ind; simpl; intros Hok cur Hc.
  - apply reads_word; [by eexists _, _|done].
  - destruct b; (apply reads_word; [by eexists _, _|done]).
  - pose proof Hok as Hf. unfold num_reads_back in Hf. apply andb_true_iff in Hf as [-> _]. by apply reads_number.
  - apply reads_scalar; [by eexists _, _|]. intros rest f _. unfold json_quote. simpl app. rewrite <- (assoc_L (++)).
    cbn [parse_value]. change (skip_ws (dquote :: ?r)) with (dquote :: r). change (dquote =? dquote) with true. cbv iota.
    simpl app. by rewrite parse_quote_body.
  - apply reads_array; [done..|]. rewrite forallb_forall in Hok. rewrite Forall_forall in IH.
    apply Forall2_fmap_l, Forall_Forall2_diag, Forall_forall. intros x Hx. apply IH; [done| |by rewrite forallb_app, Hc, Hg].
    apply Hok. by apply list_elem_of_In.
  - apply andb_true_iff in Hok as [Ho Hok]. bool_to_prop. rewrite forallb_forall in Hok. rewrite Forall_forall in IH.
    apply (reads_object _ _ (if gap is [] then [] else [32])); [done|done|by destruct gap| |done].
    apply Forall2_fmap_l, Forall_Forall2_diag, Forall_forall. intros p Hp.
    specialize (Hok p ltac:(by apply list_elem_of_In)). bool_to_prop.
    exists (stringify gap (cur ++ gap) p.2). split; [done|]. split; [done|].
    apply IH; [done|done|by rewrite forallb_app, Hc, Hg].
Qed.

Lemma json_parse_reads t v : reads_text t v -> json_parse t = Some v.
Proof.
  intros [_ H]. unfold json_parse. specialize (H [] [] (2 * length t + 2)%nat eq_refl eq_refl ltac:(lia)).
  rewrite app_nil_r in H. by rewrite (H : parse_value _ t = _).
Qed.

(** [JSON.parse(JSON.stringify(v))] is [v], with and without indentation. *)
Lemma json_parse_stringify v : json_ok v = true -> json_parse (json_stringify v) = Some v.
Proof. intros H. by apply json_parse_reads, reads_stringify. Qed.

Lemma json_parse_pretty v : json_ok v = true -> json_parse (json_pretty v) = Some v.
Proof. intros H. by apply json_parse_reads, reads_stringify. Qed.

(** ** Objects in property order *)

#[export] Instance index_comparator :
  Comparator (fun a b : jsstr * json => parse_digits a.1 - parse_digits b.1).
Proof. split; intros; lia. Qed.

Lemma obj_order_Permutation ps : obj_order ps ≡ₚ ps.
Proof.
  unfold obj_order. rewrite js_sort_Permutation. induction ps as [|p ps IH]; [done|].
  rewrite !filter_cons. destruct (is_index p.1); simpl; [by rewrite IH|]. by rewrite <- Permutation_middle, IH.
Qed.

Lemma filter_all {A} (P : A -> Prop) `{!forall x, Decision (P x)} l : Forall P l -> base.filter P l = l.
Proof. induction 1 as [|x l Hx _ IH]; [done|]. by rewrite filter_cons_True, IH. Qed.

Lemma filter_none {A} (P : A -> Prop) `{!forall x, Decision (P x)} l : Forall (fun x => ~ P x) l -> base.filter P l = [].
Proof. induction 1 as [|x l Hx _ IH]; [done|]. by rewrite filter_cons_False. Qed.

Lemma obj_order_idemp ps : obj_order (obj_order ps) = obj_order ps.
Proof.
  unfold obj_order at 1. set (f := fun a b : jsstr * json => _).
  assert (E1 : base.filter (fun p => is_index p.1 = true) (obj_order ps) =
               js_sort f (base.filter (fun p => is_index p.1 = true) ps)).
  { unfold obj_order. fold f. rewrite filter_app, (filter_all _ (js_sort f _)), (filter_none _ (base.filter _ ps)).
    - by rewrite app_nil_r.
    - apply Forall_forall. intros p Hp. apply list_elem_of_filter in Hp as [-> _]. done.
    - rewrite js_sort_Permutation. apply Forall_forall. by intros p [? _]%list_elem_of_filter. }
  assert (E2 : base.filter (fun p => is_index p.1 = false) (obj_order ps) =
               base.filter (fun p => is_index p.1 = false) ps).
  { unfold obj_order. fold f. rewrite filter_app, (filter_none _ (js_sort f _)), (filter_all _ (base.filter _ ps)).
    - done.
    - apply Forall_forall. by intros p [? _]%list_elem_of_filter.
    - rewrite js_sort_Permutation. apply Forall_forall. intros p Hp. apply list_elem_of_filter in Hp as [-> _]. done. }
  rewrite E1, E2. rewrite (js_sort_sorted f (js_sort f _)); [done|]. apply StronglySorted_js_sort. apply _.
Qed.

Lemma map_set_fresh {V} (k : jsstr) (v : V) m : k ∉ map_keys m -> map_set k v m = m ++ [(k, v)].
Proof.
  induction m as [|[k' v'] m IH]; simpl; intros Hk; [done|]. apply not_elem_of_cons in Hk as [Hne Hk].
  case_decide; [done|]. by rewrite IH.
Qed.

Lemma fold_map_set_NoDup {V} (ms acc : list (jsstr * V)) :
  NoDup (map_keys (acc ++ ms)) -> fold_left (fun o p => map_set p.1 p.2 o) ms acc = acc ++ ms.
Proof.
  revert acc. induction ms as [|[k v] ms IH]; intros acc Hn; simpl; [by rewrite app_nil_r|].
  assert (Hk : k ∉ map_keys acc).
  { unfold map_keys in *. rewrite fmap_app in Hn. apply NoDup_app in Hn as (_ & Hd & _). intros Hk. apply (Hd k Hk). simpl. set_solver. }
  rewrite map_set_fresh by done. rewrite IH by (by rewrite <- (assoc_L (++))). by rewrite <- (assoc_L (++)).
Qed.

Lemma NoDup_fold_map_set {V} (ms acc : list (jsstr * V)) :
  NoDup (map_keys acc) -> NoDup (map_keys (fold_left (fun o p => map_set p.1 p.2 o) ms acc)).
Proof. revert acc. induction ms; intros acc Ha; simpl; [done|]. auto with js. Qed.

Lemma obj_of_members_NoDup ms : NoDup (map_keys (obj_of_members ms)).
Proof.
  unfold obj_of_members, map_keys. rewrite obj_order_Permutation. apply NoDup_fold_map_set. constructor.
Qed.

(** An object built from members lists its properties in order, once each. *)
Lemma obj_of_members_idemp ms : obj_of_members (obj_of_members ms) = obj_of_members ms.
Proof.
  unfold obj_of_members at 1. rewrite (fold_map_set_NoDup _ []) by apply obj_of_members_NoDup.
  simpl. unfold obj_of_members. apply obj_order_idemp.
Qed.

(** Members with distinct keys none of which is an array index stay as they are. *)
Lemma obj_of_members_plain ps :
  NoDup (map_keys ps) -> Forall (fun p => is_index p.1 = false) ps -> obj_of_members ps = ps.
Proof.
  intros Hn Hf. unfold obj_of_members. rewrite (fold_map_set_NoDup _ []) by done. simpl. unfold obj_order.
  rewrite (filter_all (fun p => is_index p.1 = false) ps) by done. rewrite (filter_none _ ps); [done|]. eapply Forall_impl; [exact Hf|]. intros p ->. done.
Qed.

(** ** What [JSON.parse] returns *)

(** [json_ok] without its demand on numbers. *)
Fixpoint json_shape (v : json) : bool :=
  match v with
  | JNull | JBool _ | JNum _ => true
  | JStr s => forallb code_unit s
  | JArr l => forallb json_shape l
  | JObj ps => bool_decide (obj_of_members ps = ps) && forallb (fun p => forallb code_unit p.1 && json_shape p.2) ps
  end.

Fixpoint json_nums_ok (v : json) : bool :=
  match v with
  | JNum n => num_reads_back n
  | JArr l => forallb json_nums_ok l
  | JObj ps => forallb (fun p => json_nums_ok p.2) ps
  | _ => true
  end.

Lemma forallb_and {A} (f g : A -> bool) l : forallb (fun x => f x && g x) l = forallb f l && forallb g l.
Proof. induction l; simpl; [done|]. rewrite IHl. by destruct (f a), (g a), (forallb f l). Qed.

Lemma forallb_ext_in {A} (f g : A -> bool) l : Forall (fun x => f x = g x) l -> forallb f l = forallb g l.
Proof. induction 1 as [|x l E _ IH]; simpl; [done|]. by rewrite E, IH. Qed.

Lemma json_ok_split v : json_ok v = json_shape v && json_nums_ok v.
Proof.
  induction v as [|b|n|s|l IH|ps IH] using json_nested_ind; simpl; rewrite ?andb_true_r; try done.
  - by rewrite (forallb_ext_in _ _ _ IH), forallb_and.
  - rewrite <- andb_assoc. f_equal. rewrite <- forallb_and. apply forallb_ext_in. eapply Forall_impl; [exact IH|].
    simpl. intros p ->. by rewrite andb_assoc.
Qed.

Lemma forallb_skip_ws q s : forallb q s = true -> forallb q (skip_ws s) = true.
Proof. apply forallb_drop_while. Qed.

Lemma forallb_strip_prefix (q : Z -> bool) p s r : forallb q s = true -> strip_prefix p s = Some r -> forallb q r = true.
Proof. intros H ->%strip_prefix_Some. rewrite forallb_app in H. by bool_to_prop. Qed.

Lemma forallb_tail (q : Z -> bool) c s : forallb q (c :: s) = true -> forallb q s = true.
Proof. simpl. intros H. by bool_to_prop. Qed.

Lemma hex_value_bound c : is_hex c = true -> 0 <= digit_value c < 16.
Proof.
  unfold is_hex, digit_value. intros H. destruct (is_digit c) eqn:E; [unfold is_digit in E; bool_to_prop; lia|].
  destruct ((97 <=? c) && (c <=? 122)) eqn:E1; [bool_to_prop; lia|].
  destruct ((65 <=? c) && (c <=? 90)) eqn:E2; bool_to_prop; lia.
Qed.

Lemma simple_escape_unit e x : simple_escape e = Some x -> code_unit x = true.
Proof. unfold simple_escape. intros H. by repeat (case_match; [by simplify_eq|]). Qed.

(** The characters of a parsed string, and what follows it, are code units. *)
Lemma parse_str_body_units s t rest :
  forallb code_unit s = true -> parse_str_body s = Some (t, rest) ->
  forallb code_unit t = true /\ forallb code_unit rest = true.
Proof.
  remember (length s) as n eqn:Hn. revert s t rest Hn. induction n as [n IH] using lt_wf_ind. intros s t rest Hn Hs.
  destruct s as [|c r]; [done|]. simpl in Hs. apply andb_true_iff in Hs as [Hc Hr]. cbn [parse_str_body].
  destruct (c =? dquote); [by intros [= <- <-]|].
  assert (G : forall r' x y, (length r' < n)%nat -> forallb code_unit r' = true -> code_unit x = true ->
    ('(t, rest) ← parse_str_body r'; Some (x :: t, rest)) = Some y ->
    forallb code_unit y.1 = true /\ forallb code_unit y.2 = true).
  { intros r' x [t' rest'] Hl Hr' Hx. destruct (parse_str_body r') as [[t1 r1]|] eqn:E; simpl; [|done].
    intros [= <- <-]. destruct (IH _ Hl r' t1 r1 eq_refl Hr' E). simpl. by rewrite Hx. }
  destruct (c =? bslash).
  - destruct r as [|e r1]; [done|]. destruct (e =? 117).
    + destruct r1 as [|h1 [|h2 [|h3 [|h4 r2]]]]; try done.
      destruct (is_hex h1) eqn:H1; [|done]. destruct (is_hex h2) eqn:H2; [|done].
      destruct (is_hex h3) eqn:H3; [|done]. destruct (is_hex h4) eqn:H4; [|done].
      apply hex_value_bound in H1, H2, H3, H4. simpl andb. cbv iota. apply (G r2).
      * subst n. simpl. lia.
      * simpl in Hr. by bool_to_prop.
      * unfold code_unit. apply andb_true_iff. rewrite Z.leb_le, Z.ltb_lt. lia.
    + destruct (simple_escape e) as [x|] eqn:Ex; [|done]. apply (G r1).
      * subst n. simpl. lia.
      * by apply forallb_tail in Hr.
      * by eapply simple_escape_unit.
  - destruct (c <? 32); [done|]. apply (G r); [subst n; simpl; lia|done|done].
Qed.

Lemma exponent_part_suffix q s e r : forallb q s = true -> exponent_part s = (e, r) -> forallb q r = true.
Proof.
  intros Hs. unfold exponent_part. destruct s as [|c s]; [by intros [= _ <-]|].
  destruct (_ || _); [|by intros [= _ <-]]. apply forallb_tail in Hs as Ht.
  assert (Hr : forallb q (match s with
     | [] => (false, s)
     | d :: r' => if d =? minus then (true, r') else if d =? 43 then (false, r') else (false, s) end).2 = true).
  { destruct s as [|d s]; [done|]. apply forallb_tail in Ht as Ht'. by repeat case_match. }
  destruct (match s with [] => _ | _ => _ end) as [n r1]. simpl in Hr.
  destruct (take_while is_digit r1); [by intros [= _ <-]|]. intros [= _ <-]. by apply forallb_drop_while.
Qed.

Lemma json_unsigned_suffix q neg s n r : forallb q s = true -> json_unsigned neg s = Some (n, r) -> forallb q r = true.
Proof.
  intros Hs. unfold json_unsigned. destruct (take_while is_digit s) as [|c ip]; [done|]. destruct (_ && _); [done|].
  apply (forallb_drop_while is_digit) in Hs. destruct (json_fraction (drop_while is_digit s)) as [[fp r2]|] eqn:E; [|done].
  assert (H2 : forallb q r2 = true).
  { unfold json_fraction in E. destruct (drop_while is_digit s) as [|d r']; [by simplify_eq|].
    apply forallb_tail in Hs as Ht. destruct (d =? dot); [|by simplify_eq].
    destruct (take_while is_digit r'); [done|]. simplify_eq. by apply forallb_drop_while. }
  simpl. destruct (exponent_part r2) as [e r3] eqn:Ee. pose proof (exponent_part_suffix q r2 e r3 H2 Ee).
  destruct r2, r3; try (by intros [= _ <-]). destruct (_ && _); [done|]. by intros [= _ <-].
Qed.

Lemma parse_json_number_suffix q s n r : forallb q s = true -> parse_json_number s = Some (n, r) -> forallb q r = true.
Proof.
  intros Hs. destruct s as [|c s]; [done|]. simpl. apply forallb_tail in Hs as Ht.
  destruct (c =? minus); by apply json_unsigned_suffix.
Qed.

Lemma json_shape_members ms :
  forallb (fun p => forallb code_unit p.1 && json_shape p.2) ms = true -> json_shape (JObj (obj_of_members ms)) = true.
Proof.
  intros H. simpl. rewrite bool_decide_eq_true_2 by apply obj_of_members_idemp. simpl.
  apply forallb_forall. intros p Hp%list_elem_of_In. unfold obj_of_members in Hp. rewrite obj_order_Permutation in Hp.
  assert (G : forall l acc, Forall (fun p => forallb code_unit p.1 && json_shape p.2 = true) acc ->
    Forall (fun p => forallb code_unit p.1 && json_shape p.2 = true) l ->
    Forall (fun p => forallb code_unit p.1 && json_shape p.2 = true) (fold_left (fun o p => map_set p.1 p.2 o) l acc)).
  { induction l as [|[k v] l IH]; intros acc Ha Hl; [done|]. apply Forall_cons in Hl as [Hx Hl]. apply IH; [|done].
    clear - Ha Hx. induction Ha as [|[k' v'] m Hm Ha IH]; simpl; [by constructor|].
    case_decide; constructor; simpl in *; try done. bool_to_prop. subst. by apply andb_true_iff. }
  revert p Hp. apply Forall_forall. apply G; [constructor|]. apply Forall_forall. intros x Hx.
  rewrite forallb_forall in H. apply H. by apply list_elem_of_In.
Qed.

Section ParseShape.
Abbreviation units := (forallb code_unit).
Abbreviation member_shape := (fun p : jsstr * json => units p.1 && json_shape p.2).

(** What a parser that yields [Q] on texts of code units promises. *)
Definition yields {A} (p : jsstr -> option (A * jsstr)) (Q : A -> bool) : Prop :=
  forall s a r, units s = true -> p s = Some (a, r) -> Q a = true /\ units r = true.

Lemma yields_value f :
  yields (parse_elems f) (forallb json_shape) -> yields (parse_members f) (forallb member_shape) ->
  yields (parse_value (S f)) json_shape.
Proof.
  intros He Hm s v r Hs. apply forallb_skip_ws in Hs. cbn [parse_value].
  destruct (skip_ws s) as [|c t]; [done|]. apply forallb_tail in Hs as Ht.
  destruct (c =? dquote).
  { destruct (parse_str_body t) as [[u w]|] eqn:E; [|done]. intros [= <- <-]. by apply (parse_str_body_units t). }
  destruct (c =? 91).
  { apply forallb_skip_ws in Ht as Ht'. destruct (skip_ws t) as [|d t']; [done|]. apply forallb_tail in Ht'.
    destruct (d =? 93); [by intros [= <- <-]|]. destruct (parse_elems f t) as [[l w]|] eqn:E; [|done].
    intros [= <- <-]. by apply (He t). }
  destruct (c =? 123).
  { apply forallb_skip_ws in Ht as Ht'. destruct (skip_ws t) as [|d t']; [done|]. apply forallb_tail in Ht'.
    destruct (d =? 125); [by intros [= <- <-]|]. destruct (parse_members f t) as [[ms w]|] eqn:E; [|done].
    intros [= <- <-]. destruct (Hm t ms w Ht E). split; [|done]. by apply json_shape_members. }
  destruct (strip_prefix (js "null") (c :: t)) as [w|] eqn:E1.
  { intros [= <- <-]. split; [done|]. exact (forallb_strip_prefix _ _ _ _ Hs E1). }
  destruct (strip_prefix (js "true") (c :: t)) as [w|] eqn:E2.
  { intros [= <- <-]. split; [done|]. exact (forallb_strip_prefix _ _ _ _ Hs E2). }
  destruct (strip_prefix (js "false") (c :: t)) as [w|] eqn:E3.
  { intros [= <- <-]. split; [done|]. exact (forallb_strip_prefix _ _ _ _ Hs E3). }
  destruct (parse_json_number (c :: t)) as [[n w]|] eqn:E; [|done].
  intros [= <- <-]. split; [done|]. exact (parse_json_number_suffix _ _ _ _ Hs E).
Qed.

Lemma yields_elems f :
  yields (parse_value f) json_shape -> yields (parse_elems f) (forallb json_shape) ->
  yields (parse_elems (S f)) (forallb json_shape).
Proof.
  intros Hv He s l r Hs. cbn [parse_elems]. destruct (parse_value f s) as [[v t]|] eqn:E; [|done]. simpl.
  destruct (Hv s v t Hs E) as [Hsv Ht]. apply forallb_skip_ws in Ht. destruct (skip_ws t) as [|c t']; [done|].
  apply forallb_tail in Ht. destruct (c =? 44).
  - destruct (parse_elems f t') as [[l' w]|] eqn:E'; [|done]. intros [= <- <-]. destruct (He t' l' w Ht E').
    simpl. by rewrite Hsv.
  - destruct (c =? 93); [|done]. intros [= <- <-]. simpl. by rewrite Hsv.
Qed.

Lemma yields_members f :
  yields (parse_value f) json_shape -> yields (parse_members f) (forallb member_shape) ->
  yields (parse_members (S f)) (forallb member_shape).
Proof.
  intros Hv Hm s l r Hs. apply forallb_skip_ws in Hs. cbn [parse_members].
  destruct (skip_ws s) as [|c t]; [done|]. apply forallb_tail in Hs. destruct (c =? dquote); [|done].
  destruct (parse_str_body t) as [[k r1]|] eqn:Ek; [|done]. destruct (parse_str_body_units t k r1 Hs Ek) as [Hk Hr1].
  cbn [mbind option_bind]. apply forallb_skip_ws in Hr1. destruct (skip_ws r1) as [|d r2]; [done|].
  apply forallb_tail in Hr1. destruct (d =? 58); [|done].
  destruct (parse_value f r2) as [[v r3]|] eqn:Ev; [|done]. destruct (Hv r2 v r3 Hr1 Ev) as [Hsv Hr3].
  cbn [mbind option_bind]. apply forallb_skip_ws in Hr3. destruct (skip_ws r3) as [|e r4]; [done|].
  apply forallb_tail in Hr3. destruct (e =? 44).
  - destruct (parse_members f r4) as [[ms w]|] eqn:E; [|done]. intros [= <- <-]. destruct (Hm r4 ms w Hr3 E).
    simpl. by rewrite Hk, Hsv.
  - destruct (e =? 125); [|done]. intros [= <- <-]. simpl. by rewrite Hk, Hsv.
Qed.

Lemma parse_yields f :
  yields (parse_value f) json_shape /\ yields (parse_elems f) (forallb json_shape) /\
  yields (parse_members f) (forallb member_shape).
Proof.
  induction f as [|f (Hv & He & Hm)]; [by split_and!; intros ? ? ? ?|].
  split_and!; [by apply yields_value | by apply yields_elems | by apply yields_members].
Qed.

Lemma json_parse_shape text v : units text = true -> json_parse text = Some v -> json_shape v = true.
Proof.
  intros Ht. unfold json_parse. destruct (parse_value _ text) as [[w r]|] eqn:E; [|done].
  destruct (skip_ws r); [|done]. intros [= <-]. exact (proj1 (proj1 (parse_yields _) text w r Ht E)).
Qed.
End ParseShape.
