(* ===== verification/JsObject.v ===== *)
(** * Objects as the code updates them

    Assignment and deletion of a property, with the property order of [Json],
    and the objects that are read back from their text.  [apply_updates] runs a
    list of assignments and deletions, and the lemmas give the properties of the
    result. *)
From S2P Require Import Prelude JsString JsNumber Json JsonText.
Local Open Scope Z_scope.

Abbreviation members := (list (jsstr * json)).

(** [target[name] = v] on an object; [delete target[name]] is [map_del]. *)
Definition obj_put (name : jsstr) (v : json) (m : members) : members := obj_order (map_set name v m).

Lemma map_get_Permutation {V} (k : jsstr) (m m' : list (jsstr * V)) : NoDup (map_keys m) -> m ≡ₚ m' -> map_get k m = map_get k m'.
Proof.
  intros Hn Hp. assert (Hn' : NoDup (map_keys m')) by (unfold map_keys in *; by rewrite <- Hp).
  destruct (map_get k m) as [v|] eqn:E.
  - symmetry. apply elem_map_get; [done|]. rewrite <- Hp. by apply map_get_Some_elem.
  - symmetry. apply map_get_None. apply map_get_None in E. unfold map_keys in *. by rewrite <- Hp.
Qed.

Lemma keys_obj_put name v m : NoDup (map_keys m) -> NoDup (map_keys (obj_put name v m)).
Proof. intros Hn. unfold obj_put, map_keys. rewrite obj_order_Permutation. by apply NoDup_map_set. Qed.

Lemma get_obj_put k name v m : NoDup (map_keys m) -> map_get k (obj_put name v m) = if decide (k = name) then Some v else map_get k m.
Proof.
  intros Hn. unfold obj_put. rewrite (map_get_Permutation k _ (map_set name v m)); [|by apply keys_obj_put | apply obj_order_Permutation].
  case_decide; [subst; apply map_get_set_eq | by apply map_get_set_ne].
Qed.

Lemma get_map_del {V} k name (m : list (jsstr * V)) : NoDup (map_keys m) -> map_get k (map_del name m) = if decide (k = name) then None else map_get k m.
Proof. intros Hn. case_decide; [subst; by apply map_get_del_eq | by apply map_get_del_ne]. Qed.

Lemma map_del_sublist {V} k (m : list (jsstr * V)) : map_del k m `sublist_of` m.
Proof. induction m as [|[k' v] m IH]; simpl; [done|]. case_bool_decide; [by apply sublist_cons | by apply sublist_skip]. Qed.

Lemma map_del_app {V} k (m1 m2 : list (jsstr * V)) :
  map_del k (m1 ++ m2) = if bool_decide (k ∈ map_keys m1) then map_del k m1 ++ m2 else m1 ++ map_del k m2.
Proof.
  induction m1 as [|[k' v] m1 IH]; [done|]. simpl. destruct (decide (k = k')) as [<-|Hne].
  - rewrite !bool_decide_eq_true_2 by set_solver. done.
  - rewrite bool_decide_eq_false_2 by done. rewrite IH. unfold map_keys. csimpl. 
    destruct (decide (k ∈ m1.*1)); [rewrite !bool_decide_eq_true_2 by set_solver; done | rewrite !bool_decide_eq_false_2 by set_solver; done].
Qed.

Lemma sublist_Forall {A} (P : A -> Prop) l1 l2 : l1 `sublist_of` l2 -> Forall P l2 -> Forall P l1.
Proof. induction 1 as [|x l1 l2 Hs IH|x l1 l2 Hs IH]; intros H; [done | |]; apply Forall_cons in H as [Hx H]; [constructor|]; auto. Qed.

Lemma sublist_StronglySorted {A} (R : A -> A -> Prop) l1 l2 : l1 `sublist_of` l2 -> StronglySorted R l2 -> StronglySorted R l1.
Proof.
  induction 1 as [|x l1 l2 Hs IH|x l1 l2 Hs IH]; intros H; [done | |]; apply StronglySorted_cons in H as [Hx H]; [|by apply IH].
  constructor; [by apply IH|]. by eapply sublist_Forall.
Qed.

(** Deleting a property leaves the others in property order. *)
Lemma obj_order_del k m : obj_order m = m -> obj_order (map_del k m) = map_del k m.
Proof.
  intros H. rewrite <- H. unfold obj_order at 2 3. set (f := fun a b : jsstr * json => _).
  set (l1 := js_sort f _). set (l2 := base.filter _ m).
  assert (H1 : Forall (fun p => is_index p.1 = true) l1). { subst l1. rewrite js_sort_Permutation. apply Forall_forall. by intros p [? _]%list_elem_of_filter. }
  assert (H2 : Forall (fun p => is_index p.1 = false) l2) by (apply Forall_forall; by intros p [? _]%list_elem_of_filter).
  assert (Hs : StronglySorted (fun a b => f a b <= 0) l1) by (apply StronglySorted_js_sort; apply _).
  assert (K : forall a b, a `sublist_of` l1 -> b `sublist_of` l2 -> obj_order (a ++ b) = a ++ b).
  { intros a b Ha Hb. eapply sublist_Forall in Ha as Fa; [|exact H1]. eapply sublist_Forall in Hb as Fb; [|exact H2].
    unfold obj_order. rewrite !filter_app, (filter_all (fun p => is_index p.1 = true) a), (filter_none _ b), (filter_none _ a), (filter_all _ b); try done.
    - rewrite app_nil_r. cbn. f_equal. apply js_sort_sorted. by eapply sublist_StronglySorted.
    - eapply Forall_impl; [exact Fa|]. by intros p ->.
    - eapply Forall_impl; [exact Fb|]. by intros p ->. }
  rewrite map_del_app. case_bool_decide; apply K; done || apply map_del_sublist.
Qed.

Lemma obj_of_members_fixed m : obj_of_members m = m <-> NoDup (map_keys m) /\ obj_order m = m.
Proof.
  split.
  - intros H. assert (Hn : NoDup (map_keys m)) by (rewrite <- H; apply obj_of_members_NoDup). split; [done|].
    unfold obj_of_members in H. by rewrite (fold_map_set_NoDup _ []) in H.
  - intros [Hn H]. unfold obj_of_members. by rewrite (fold_map_set_NoDup _ []).
Qed.

(** ** Objects that survive their text *)
Definition map_ok (m : members) : bool := json_ok (JObj m).

Lemma map_ok_iff m :
  map_ok m = true <-> NoDup (map_keys m) /\ obj_order m = m /\ Forall (fun p => forallb code_unit p.1 = true /\ json_ok p.2 = true) m.
Proof.
  unfold map_ok. cbn [json_ok]. rewrite andb_true_iff, bool_decide_eq_true, obj_of_members_fixed.
  assert (E : forall l : members, forallb (fun p => forallb code_unit p.1 && json_ok p.2) l = true <-> Forall (fun p => forallb code_unit p.1 = true /\ json_ok p.2 = true) l).
  { induction l as [|p l IH]; [done|]. cbn [forallb]. rewrite !andb_true_iff, IH, Forall_cons. tauto. }
  rewrite E. tauto.
Qed.

Lemma map_ok_keys m : map_ok m = true -> NoDup (map_keys m).
Proof. by intros [? _]%map_ok_iff. Qed.

Lemma map_ok_del k m : map_ok m = true -> map_ok (map_del k m) = true.
Proof.
  rewrite !map_ok_iff. intros (Hn & Ho & Hf). split; [by apply NoDup_map_del|]. split; [by apply obj_order_del|].
  eapply sublist_Forall; [apply map_del_sublist | done].
Qed.

Lemma Forall_map_set (P : jsstr * json -> Prop) k v m : Forall P m -> P (k, v) -> Forall P (map_set k v m).
Proof. intros Hm Hk. induction Hm as [|[k1 v1] m Hx Hm IH]; simpl; [by constructor|]. case_bool_decide; subst; by constructor. Qed.

Lemma map_ok_put k v m : map_ok m = true -> forallb code_unit k = true -> json_ok v = true -> map_ok (obj_put k v m) = true.
Proof.
  rewrite !map_ok_iff. intros (Hn & Ho & Hf) Hk Hv. split; [by apply keys_obj_put|]. split; [apply obj_order_idemp|].
  unfold obj_put. rewrite obj_order_Permutation. by apply Forall_map_set.
Qed.

Lemma map_set_noop {V} k (v : V) (m : list (jsstr * V)) : map_get k m = Some v -> map_set k v m = m.
Proof. induction m as [|[k1 v1] m IH]; simpl; [done|]. case_bool_decide as E; [by intros [= ->]; subst|]. intros Hg. by rewrite IH. Qed.

Lemma map_del_noop {V} k (m : list (jsstr * V)) : map_get k m = None -> map_del k m = m.
Proof. induction m as [|[k1 v1] m IH]; simpl; [done|]. case_bool_decide; [done|]. intros Hg. by rewrite IH. Qed.

(** ** The text of an object *)
Lemma last_wrap o c gap cur items : last (json_wrap o c gap cur items) = Some c.
Proof.
  unfold json_wrap. destruct items; [done|]. destruct gap.
  - by rewrite (assoc_L (++)), last_snoc.
  - rewrite !(assoc_L (++)). by rewrite last_snoc.
Qed.

Lemma head_wrap o c gap cur items : head (json_wrap o c gap cur items) = Some o.
Proof. unfold json_wrap. destruct items; [done|]. by destruct gap. Qed.

(** It opens with a brace and has no whitespace at either end. *)
Lemma object_text gap cur m : exists r, stringify gap cur (JObj m) = 123 :: r /\ trim (stringify gap cur (JObj m)) = stringify gap cur (JObj m).
Proof.
  cbn [stringify]. set (t := json_wrap _ _ _ _ _).
  assert (Hh : head t = Some 123) by apply head_wrap. assert (Hl : last t = Some 125) by apply last_wrap.
  destruct t as [|c r] eqn:Et; [done|]. injection Hh as ->. exists r. split; [done|]. apply trim_trimmed.
  rewrite <- head_reverse in Hl. unfold reverse in Hl. rewrite <- rev_alt in Hl. unfold trimmed.
  destruct (rev (123 :: r)) as [|d u]; [done|]. by injection Hl as ->.
Qed.

(** ** Reading properties *)

(** [v.k] of a parsed value: [None] when it throws, on [null]. *)
Definition prop_of (k : jsstr) (v : json) : option (option json) :=
  match v with JNull => None | JObj ps => Some (map_get k ps) | _ => Some None end.

(** [v || d] *)
Definition json_or (v : option json) (d : json) : json :=
  match v with Some w => if json_truthy w then w else d | None => d end.

Lemma json_or_idemp v d : json_or (Some (json_or v d)) d = json_or v d.
Proof. unfold json_or. destruct v as [w|]; [destruct (json_truthy w) eqn:E|]; rewrite ?E; [done|..]; by destruct (json_truthy d). Qed.

Lemma json_ok_prop k v o : json_ok v = true -> prop_of k v = Some o -> match o with Some w => json_ok w = true | None => True end.
Proof.
  destruct v; cbn [prop_of]; intros Hv; try (by intros [= <-]); try done. intros [= <-]. destruct (map_get k props) as [w|] eqn:E; [|done].
  apply map_get_Some_elem in E. apply (proj1 (map_ok_iff props)) in Hv as (_ & _ & F). rewrite Forall_forall in F. by apply (F _ E).
Qed.

Lemma json_ok_or v d : match v with Some w => json_ok w = true | None => True end -> json_ok d = true -> json_ok (json_or v d) = true.
Proof. destruct v as [w|]; cbn [json_or]; [|done]. by destruct (json_truthy w). Qed.

Lemma json_ok_object ps : obj_of_members ps = ps -> Forall (fun p => forallb code_unit p.1 = true /\ json_ok p.2 = true) ps -> json_ok (JObj ps) = true.
Proof. intros Ho F. apply map_ok_iff. apply obj_of_members_fixed in Ho as [? ?]. done. Qed.

Ltac ok_members := repeat first [exact (List.Forall_nil _) | apply Forall_cons; split; [split; [vm_compute; reflexivity|]; cbn [snd]|]].

(** [Object.entries(v)] and [{...v}]: the own enumerable properties of a value. *)
Definition indexed {A} (f : A -> json) (l : list A) : list (jsstr * json) :=
  imap (fun i x => (string_of_Z (Z.of_nat i), f x)) l.

Definition spread (v : json) : list (jsstr * json) :=
  match v with
  | JObj ps => ps
  | JArr l => indexed id l
  | JStr s => indexed (fun c => JStr [c]) s
  | _ => []
  end.

(** [v[k]] of a value that is not [null], for names that no built-in object has. *)
Definition member (k : jsstr) (v : json) : option json := match v with JObj ps => map_get k ps | _ => None end.

(** ** Updates in sequence *)
(** [target[k] = v], or [delete target[k]]. *)
Definition apply_update (m : members) (u : jsstr * option json) : members :=
  match u.2 with Some v => obj_put u.1 v m | None => map_del u.1 m end.
Definition apply_updates (us : list (jsstr * option json)) (m : members) : members := fold_left apply_update us m.

Lemma apply_updates_app us vs m : apply_updates (us ++ vs) m = apply_updates vs (apply_updates us m).
Proof. apply fold_left_app. Qed.

Lemma keys_apply_update u m : NoDup (map_keys m) -> NoDup (map_keys (apply_update m u)).
Proof. destruct u as [k [v|]]; [apply keys_obj_put | apply NoDup_map_del]. Qed.

Lemma keys_apply_updates us m : NoDup (map_keys m) -> NoDup (map_keys (apply_updates us m)).
Proof. revert m. induction us as [|u us IH]; intros m Hm; [done|]. apply IH. by apply keys_apply_update. Qed.

Lemma get_apply_update k u m :
  NoDup (map_keys m) -> map_get k (apply_update m u) = if decide (k = u.1) then u.2 else map_get k m.
Proof. intros Hm. destruct u as [k' [v|]]; [by apply get_obj_put | by apply get_map_del]. Qed.

(** The last update of a key decides; other keys keep their value. *)
Lemma get_apply_updates k us m :
  NoDup (map_keys m) -> NoDup (map_keys us) ->
  map_get k (apply_updates us m) = match map_get k us with Some o => o | None => map_get k m end.
Proof.
  revert m. induction us as [|[k1 o] us IH]; intros m Hm Hu; [done|]. apply NoDup_cons in Hu as [Hk Hu].
  change (map_get k (apply_updates us (apply_update m (k1, o))) = match map_get k ((k1, o) :: us) with Some o => o | None => map_get k m end).
  rewrite IH by (done || by apply keys_apply_update). cbn [map_get]. rewrite get_apply_update by done. cbn [fst snd].
  destruct (decide (k = k1)) as [->|Hne].
  - rewrite bool_decide_eq_true_2 by done. by rewrite (proj2 (map_get_None k1 us) Hk).
  - by rewrite bool_decide_eq_false_2 by done.
Qed.

Definition update_ok (u : jsstr * option json) : bool :=
  forallb code_unit u.1 && match u.2 with Some v => json_ok v | None => true end.

Lemma map_ok_updates us m : map_ok m = true -> forallb update_ok us = true -> map_ok (apply_updates us m) = true.
Proof.
  revert m. induction us as [|[k [v|]] us IH]; intros m Hm Hu; [done | |];
    cbn [forallb] in Hu; apply andb_true_iff in Hu as [[Hk Hv]%andb_true_iff Hu]; apply IH; try done.
  - by apply map_ok_put.
  - by apply map_ok_del.
Qed.

(** Updates that are already in force change nothing. *)
Lemma apply_updates_noop us m :
  map_ok m = true -> Forall (fun u => map_get u.1 m = u.2) us -> apply_updates us m = m.
Proof.
  intros (Hn & Ho & _)%map_ok_iff Hu. induction Hu as [|[k o] us Hk Hu IH]; [done|].
  change (apply_updates us (apply_update m (k, o)) = m). replace (apply_update m (k, o)) with m; [done|].
  cbn in Hk. unfold apply_update. cbn. destruct o as [v|]; [|by rewrite map_del_noop].
  unfold obj_put. by rewrite map_set_noop.
Qed.

(** ** Evaluating with literal keys *)

(** Evaluates the comparison of two literal strings. *)
Ltac js_keys :=
  repeat match goal with
  | |- context [bool_decide (js ?a = js ?b)] =>
      let r := eval vm_compute in (bool_decide (js a = js b)) in
      change (bool_decide (js a = js b)) with r
  end; cbv iota.

Lemma map_get_cons {V} (k k' : jsstr) (v : V) m : map_get k ((k', v) :: m) = if bool_decide (k = k') then Some v else map_get k m.
Proof. simpl. by repeat case_decide; repeat case_bool_decide. Qed.

Lemma map_get_set_bool {V} (k : jsstr) k' (v : V) (m : list (jsstr * V)) :
  map_get k (map_set k' v m) = if bool_decide (k = k') then Some v else map_get k m.
Proof. rewrite map_get_set. by repeat case_decide; repeat case_bool_decide. Qed.

Lemma map_get_nil {V} (k : jsstr) : map_get k ([] : list (jsstr * V)) = None.
Proof. done. Qed.

Lemma if_same {A} (b : bool) (x : A) : (if b then x else x) = x.
Proof. by destruct b. Qed.

Lemma map_get_app {V} (k : jsstr) (m1 m2 : list (jsstr * V)) :
  map_get k (m1 ++ m2) = match map_get k m1 with Some v => Some v | None => map_get k m2 end.
Proof. induction m1 as [|[k1 v1] m1 IH]; simpl; [done|]. by case_bool_decide. Qed.

(** A property that [JSON.stringify] leaves out when it is [undefined]. *)
Definition opt_member (k : jsstr) (v : option json) : members := match v with Some w => [(k, w)] | None => [] end.

Lemma get_opt_member k k' v : map_get k (opt_member k' v) = if bool_decide (k = k') then v else None.
Proof. destruct v; simpl; by case_bool_decide. Qed.

(** Reads a property with a literal name off an object written as a list. *)
Ltac get_member := cbn [app]; repeat (rewrite ?map_get_app, ?map_get_cons, ?map_get_nil, ?get_opt_member; js_keys).

(** ** Folding over the entries of an object

    A loop over [Object.entries] that assigns, for an entry [(k, v)], a property
    [k] computed from [v] and from the property there so far, or skips it. *)
Section Entries.
Context (F : jsstr -> json -> option json -> option json).

Definition put_entry (m : members) (entry : jsstr * json) : members :=
  match F entry.1 entry.2 (map_get entry.1 m) with Some w => obj_put entry.1 w m | None => m end.

Lemma keys_put_entry m e : NoDup (map_keys m) -> NoDup (map_keys (put_entry m e)).
Proof. unfold put_entry. destruct (F _ _ _); [apply keys_obj_put | done]. Qed.

Lemma keys_put_entries es m : NoDup (map_keys m) -> NoDup (map_keys (fold_left put_entry es m)).
Proof. revert m. induction es as [|e es IH]; intros m Hm; [done|]. apply IH. by apply keys_put_entry. Qed.

Lemma get_put_entry k m e : NoDup (map_keys m) ->
  map_get k (put_entry m e) = if decide (k = e.1) then from_option Some (map_get k m) (F k e.2 (map_get k m)) else map_get k m.
Proof.
  intros Hm. unfold put_entry. case_decide as E; [subst k|]; destruct (F _ _ _) eqn:EF; try done;
    rewrite get_obj_put by done; [by rewrite decide_True | by rewrite decide_False].
Qed.

(** Each entry decides its own property, from its value before the loop. *)
Lemma get_put_entries k es m : NoDup (map_keys es) -> NoDup (map_keys m) ->
  map_get k (fold_left put_entry es m) =
    match map_get k es with Some v => from_option Some (map_get k m) (F k v (map_get k m)) | None => map_get k m end.
Proof.
  revert m. induction es as [|[k1 v] es IH]; intros m He Hm; [done|]. apply NoDup_cons in He as [Hk He]. cbn [fold_left].
  rewrite IH by (done || by apply keys_put_entry). rewrite get_put_entry by done. cbn [map_get fst snd].
  destruct (decide (k = k1)) as [->|Hne].
  - rewrite bool_decide_eq_true_2 by done. by rewrite (proj2 (map_get_None k1 es) Hk).
  - by rewrite bool_decide_eq_false_2 by done.
Qed.

(** What holds of every property that is there or assigned holds of the result. *)
Lemma Forall_put_entries (P : jsstr * json -> Prop) es m :
  Forall P m -> Forall (fun e => forall old w, F e.1 e.2 old = Some w -> P (e.1, w)) es -> Forall P (fold_left put_entry es m).
Proof.
  intros Hm He. revert m Hm. induction He as [|e es He Hes IH]; intros m Hm; [done|]. cbn [fold_left]. apply IH. unfold put_entry.
  destruct (F _ _ _) eqn:E; [|done]. unfold obj_put. rewrite obj_order_Permutation. apply Forall_map_set; [done | by eapply He].
Qed.

Lemma map_ok_put_entries es m :
  map_ok m = true -> Forall (fun e => forallb code_unit e.1 = true /\ forall old w, F e.1 e.2 old = Some w -> json_ok w = true) es ->
  map_ok (fold_left put_entry es m) = true.
Proof.
  intros Hm He. revert m Hm. induction He as [|e es [Hk He] Hes IH]; intros m Hm; [done|]. cbn [fold_left]. apply IH. unfold put_entry.
  destruct (F _ _ _) eqn:E; [|done]. apply map_ok_put; [done..|]. by eapply He.
Qed.
End Entries.

(** A loop whose body is such an assignment. *)
Lemma fold_put_entries F f es m : (forall m e, f m e = put_entry F m e) -> fold_left f es m = fold_left (put_entry F) es m.
Proof. intros H. revert m. induction es as [|e es IH]; intros m; [done|]. cbn [fold_left]. by rewrite H, IH. Qed.

(** ** Spreading two objects: the properties of the second win *)
Lemma get_fold_map_set {V} k (l m : list (jsstr * V)) : NoDup (map_keys l) ->
  map_get k (fold_left (fun o p => map_set p.1 p.2 o) l m) = match map_get k l with Some v => Some v | None => map_get k m end.
Proof.
  revert m. induction l as [|[k1 v] l IH]; intros m Hl; [done|]. apply NoDup_cons in Hl as [Hk Hl]. cbn [fold_left].
  rewrite IH by done. cbn [map_get fst snd]. destruct (decide (k = k1)) as [->|Hne].
  - rewrite (proj2 (map_get_None k1 l) Hk), map_get_set_eq. by rewrite bool_decide_eq_true_2.
  - rewrite map_get_set_ne by done. by rewrite bool_decide_eq_false_2.
Qed.

Lemma get_spread k l1 l2 : NoDup (map_keys l1) -> NoDup (map_keys l2) ->
  map_get k (obj_of_members (l1 ++ l2)) = match map_get k l2 with Some v => Some v | None => map_get k l1 end.
Proof.
  intros H1 H2. rewrite (map_get_Permutation k _ (fold_left (fun o p => map_set p.1 p.2 o) (l1 ++ l2) []));
    [|apply obj_of_members_NoDup | apply obj_order_Permutation].
  by rewrite fold_left_app, get_fold_map_set, (fold_map_set_NoDup l1 []).
Qed.

Lemma map_ok_get k m v : map_ok m = true -> map_get k m = Some v -> json_ok v = true.
Proof. intros (_ & _ & F)%map_ok_iff E. apply map_get_Some_elem in E. rewrite Forall_forall in F. by apply (F _ E). Qed.

(** ** Dropping properties *)
Lemma keys_filter {V} (p : jsstr * V -> bool) (m : list (jsstr * V)) : NoDup (map_keys m) -> NoDup (map_keys (List.filter p m)).
Proof.
  induction m as [|[k v] m IH]; [done|]. cbn. intros [Hk Hm]%NoDup_cons. destruct (p (k, v)); [|by apply IH]. cbn. apply NoDup_cons. split; [|by apply IH].
  contradict Hk. apply list_elem_of_In, List.in_map_iff in Hk as ([k' v'] & E & [Hi _]%List.filter_In). apply list_elem_of_In, List.in_map_iff. by exists (k', v').
Qed.

Lemma get_filter {V} (p : jsstr * V -> bool) k (m : list (jsstr * V)) : NoDup (map_keys m) ->
  map_get k (List.filter p m) = match map_get k m with Some v => if p (k, v) then Some v else None | None => None end.
Proof.
  induction m as [|[k' v] m IH]; [done|]. intros [Hk Hm]%NoDup_cons. specialize (IH Hm). cbn [List.filter map_get].
  destruct (decide (k = k')) as [->|Hne].
  - rewrite (bool_decide_eq_true_2 (k' = k')) by done. destruct (p (k', v)) eqn:E; cbn [map_get]; [by rewrite bool_decide_eq_true_2 by done|].
    by rewrite IH, (proj2 (map_get_None k' m) Hk).
  - rewrite (bool_decide_eq_false_2 (k = k')) by done. destruct (p (k', v)); cbn [map_get]; [by rewrite bool_decide_eq_false_2 by done | done].
Qed.
