(* ===== verification/JsRegex.v ===== *)
(** * Regular expressions of JavaScript

    The backtracking matcher of ECMAScript for the constructs the modelled
    files use: characters and classes, sequence, ordered alternative, greedy
    repetition (which fails on an iteration that consumes nothing), capture
    groups, back references, line anchors and word boundaries.  A matcher takes
    a continuation, as in the language specification.  No modelled pattern has
    a capture group under a repetition, so captures are not reset. *)
From S2P Require Import Prelude JsString.
Local Open Scope Z_scope.

Inductive regex :=
| RChar (p : Z -> bool)
| REps
| RSeq (a b : regex)
| RAlt (a b : regex)
| RStar (a : regex)
| RGroup (n : nat) (a : regex)
| RBackref (n : nat)
| RStart (multiline : bool)
| REnd (multiline : bool)
| RWordBoundary.

(** The character before the position, the text from it, and the captures. *)
Record rstate := mkR { prev : option Z; rest : jsstr; caps : list (nat * jsstr) }.

(** The position after [w], when the text from the position is [w ++ t]. *)
Definition after (w t : jsstr) (st : rstate) : rstate :=
  mkR (match last w with Some c => Some c | None => prev st end) t (caps st).

(** Line terminators, which [.] does not match and multiline anchors see. *)
Definition line_end (c : Z) : bool := (c =? 10) || (c =? 13) || (c =? 8232) || (c =? 8233).

Definition word_char (c : Z) : bool :=
  is_digit c || ((65 <=? c) && (c <=? 90)) || ((97 <=? c) && (c <=? 122)) || (c =? 95).

Definition is_word (c : option Z) : bool := match c with Some c => word_char c | None => false end.

Fixpoint rmatch {A} (r : regex) (st : rstate) (k : rstate -> option A) {struct r} : option A :=
  match r with
  | RChar p =>
      match rest st with
      | c :: t => if p c then k (mkR (Some c) t (caps st)) else None
      | [] => None
      end
  | REps => k st
  | RSeq a b => rmatch a st (fun st' => rmatch b st' k)
  | RAlt a b => match rmatch a st k with Some x => Some x | None => rmatch b st k end
  | RStar a =>
      (fix loop (n : nat) (st : rstate) : option A :=
         match n with
         | O => k st
         | S n =>
             match rmatch a st (fun st' => if (length (rest st') <? length (rest st))%nat then loop n st' else None) with
             | Some x => Some x
             | None => k st
             end
         end) (length (rest st)) st
  | RGroup n a =>
      rmatch a st (fun st' =>
        k (mkR (prev st') (rest st') (map_set n (take (length (rest st) - length (rest st')) (rest st)) (caps st'))))
  | RBackref n =>
      let w := default [] (map_get n (caps st)) in
      match strip_prefix w (rest st) with
      | Some t => k (after w t st)
      | None => None
      end
  | RStart multiline =>
      if match prev st with None => true | Some c => multiline && line_end c end then k st else None
  | REnd multiline =>
      if match rest st with [] => true | c :: _ => multiline && line_end c end then k st else None
  | RWordBoundary => if xorb (is_word (prev st)) (is_word (head (rest st))) then k st else None
  end.

(** ** Patterns *)
Definition rlit (s : jsstr) : regex := foldr (fun c r => RSeq (RChar (Z.eqb c)) r) REps s.
Definition rplus (a : regex) : regex := RSeq a (RStar a).
Definition ropt (a : regex) : regex := RAlt a REps.
Fixpoint ralts (l : list jsstr) : regex :=
  match l with
  | [] => RAlt REps REps
  | [s] => rlit s
  | s :: l => RAlt (rlit s) (ralts l)
  end.
Fixpoint rseq (l : list regex) : regex :=
  match l with
  | [] => REps
  | [a] => a
  | a :: l => RSeq a (rseq l)
  end.
(** [a{lo,hi}] *)
Fixpoint rupto (n : nat) (a : regex) : regex := match n with O => REps | S n => RAlt (RSeq a (rupto n a)) REps end.
Definition rrepeat (lo hi : nat) (a : regex) : regex := foldr RSeq (rupto (hi - lo) a) (repeat a lo).

(** [.] without and with the [s] flag. *)
Definition rdot : regex := RChar (fun c => negb (line_end c)).
Definition rany : regex := RChar (fun _ => true).

(** ** Use *)
(** [text.match(re)] of a pattern that starts with [^]: the captures. *)
Definition match_at_start (r : regex) (text : jsstr) : option (list (nat * jsstr)) :=
  rmatch r (mkR None text []) (fun st => Some (caps st)).

(** The captures and the position after the match. *)
Definition match_here (r : regex) (st : rstate) : option rstate := rmatch r (mkR (prev st) (rest st) []) Some.

(** [re.exec] with the [g] flag, from the position [st]: the first position at
    or after it where the pattern matches; the position of the match, and the
    state after it. *)
Fixpoint exec_from (r : regex) (p : option Z) (s : jsstr) : option (jsstr * rstate) :=
  match match_here r (mkR p s []) with
  | Some st => Some (s, st)
  | None => match s with [] => None | c :: t => exec_from r (Some c) t end
  end.

(** All the matches, each with the text from its start; the next search starts
    at the end of the match, or one character further after an empty match. *)
Fixpoint exec_all (fuel : nat) (r : regex) (p : option Z) (s : jsstr) : list (jsstr * rstate) :=
  match fuel with
  | O => []
  | S fuel =>
      match exec_from r p s with
      | None => []
      | Some (m, st) =>
          (m, st) ::
          (if (length (rest st) <? length m)%nat then exec_all fuel r (prev st) (rest st)
           else match rest st with [] => [] | c :: t => exec_all fuel r (Some c) t end)
      end
  end.

Definition matchAll (r : regex) (s : jsstr) : list (jsstr * rstate) := exec_all (S (length s)) r None s.

(** Group [n] of a match, the empty text when it did not take part. *)
Definition cap (n : nat) (c : list (nat * jsstr)) : jsstr := default [] (map_get n c).

(** ** Lemmas *)
Lemma after_nil st : after [] (rest st) st = st.
Proof. by destruct st. Qed.

Lemma after_cons c w t st : after (c :: w) t st = after w t (mkR (Some c) (w ++ t) (caps st)).
Proof. unfold after. cbn [caps prev]. rewrite last_cons. by destruct (last w). Qed.

Lemma after_app v w t st : after (v ++ w) t st = after w t (after v (w ++ t) st).
Proof.
  unfold after. cbn. destruct w as [|d w] using rev_ind; [rewrite app_nil_r; by destruct (last v)|].
  by rewrite app_assoc, !last_snoc.
Qed.

Lemma rmatch_lit {A} s st (k : rstate -> option A) :
  rmatch (rlit s) st k = match strip_prefix s (rest st) with Some t => k (after s t st) | None => None end.
Proof.
  revert st. induction s as [|c s IH]; intros st; cbn.
  - by rewrite after_nil.
  - destruct (rest st) as [|d t] eqn:E; [done|]. destruct (c =? d) eqn:Ec; [|done]. apply Z.eqb_eq in Ec as <-.
    rewrite IH. cbn [rest]. destruct (strip_prefix s t) as [u|] eqn:Es; [|done].
    apply strip_prefix_Some in Es as ->. by rewrite after_cons.
Qed.

(** The literal is there. *)
Lemma rmatch_lit_app {A} s t st (k : rstate -> option A) :
  rest st = s ++ t -> rmatch (rlit s) st k = k (after s t st).
Proof. intros E. by rewrite rmatch_lit, E, strip_prefix_app. Qed.

(** Greedy repetition of a class, when the continuation refuses to start at a
    character of the class: it takes the whole run. *)
Lemma rmatch_star_run {A} p w t st (k : rstate -> option A) :
  rest st = w ++ t -> forallb p w = true -> (match t with [] => true | c :: _ => negb (p c) end) = true ->
  (forall st', (match rest st' with [] => false | c :: _ => p c end) = true -> k st' = None) ->
  rmatch (RStar (RChar p)) st k = k (after w t st).
Proof.
  cbn [rmatch]. intros E Hw Ht Hk.
  set (loop := fix loop (n : nat) (st : rstate) : option A := match n with O => k st | S n => _ end).
  enough (G : forall n st, rest st = w ++ t -> (length (w ++ t) <= n)%nat -> loop n st = k (after w t st)).
  { apply G; [done|]. by rewrite E. }
  clear st E. revert Hw. induction w as [|c w IH]; intros Hw n st E Hn.
  - replace (after [] t st) with st by (rewrite <- (after_nil st) at 1; by rewrite E).
    destruct n as [|n]; [done|]. cbn. rewrite E. cbn. destruct t as [|d t]; [done|].
    apply negb_true_iff in Ht. by rewrite Ht.
  - cbn in Hw. apply andb_prop in Hw as [Hc Hw]. destruct n as [|n]; [cbn in Hn; lia|].
    cbn [loop]. cbn [rmatch]. rewrite E. cbn [app]. rewrite Hc. cbn [rest].
    rewrite (proj2 (Nat.ltb_lt _ _)) by (cbn; lia).
    rewrite (IH Hw n); [|done | cbn in Hn; lia]. rewrite after_cons.
    match goal with |- match ?x with _ => _ end = _ => destruct x end; [done|].
    apply Hk. by rewrite E.
Qed.

(** The same for [+]. *)
Lemma rmatch_plus_run {A} p w t st (k : rstate -> option A) :
  rest st = w ++ t -> w <> [] -> forallb p w = true -> (match t with [] => true | c :: _ => negb (p c) end) = true ->
  (forall st', (match rest st' with [] => false | c :: _ => p c end) = true -> k st' = None) ->
  rmatch (rplus (RChar p)) st k = k (after w t st).
Proof.
  intros E Hw0 Hw Ht Hk. destruct w as [|c w]; [done|]. cbn in Hw. apply andb_prop in Hw as [Hc Hw].
  unfold rplus. cbn [rmatch]. rewrite E. cbn [app]. rewrite Hc.
  pose proof (rmatch_star_run p w t (mkR (Some c) (w ++ t) (caps st)) k eq_refl Hw Ht Hk) as H.
  cbn [rmatch] in H. rewrite H. by rewrite after_cons.
Qed.

(** Greedy repetition of a class when the continuation succeeds after exactly
    one prefix of the text. *)
Lemma rmatch_star_unique {A} p w t st (k : rstate -> option A) x :
  rest st = w ++ t -> forallb p w = true -> k (after w t st) = Some x ->
  (forall v u, v ++ u = w ++ t -> v <> w -> k (after v u st) = None) ->
  rmatch (RStar (RChar p)) st k = Some x.
Proof.
  cbn [rmatch]. intros E Hw Hx Hk.
  set (loop := fix loop (n : nat) (st : rstate) : option A := match n with O => k st | S n => _ end).
  assert (N : forall n st, (forall v u, v ++ u = rest st -> k (after v u st) = None) -> loop n st = None).
  { induction n as [|n IH]; intros s Hs.
    - rewrite <- (after_nil s). by apply Hs.
    - cbn [loop]. assert (Hks : k s = None) by (rewrite <- (after_nil s); by apply Hs).
      cbn [rmatch]. destruct (rest s) as [|c u] eqn:Es; [done|]. destruct (p c); [|done]. cbn [rest].
      rewrite (proj2 (Nat.ltb_lt _ _)) by (cbn; lia). rewrite IH; [done|].
      cbn [rest]. intros v z Hv. specialize (Hs (c :: v) z). rewrite after_cons in Hs. rewrite Hv in Hs. apply Hs. by cbn; rewrite Hv. }
  enough (G : forall n w st, rest st = w ++ t -> forallb p w = true -> (length (w ++ t) <= n)%nat ->
    k (after w t st) = Some x -> (forall v u, v ++ u = w ++ t -> v <> w -> k (after v u st) = None) -> loop n st = Some x).
  { apply (G _ w); [done | done | by rewrite E | done | done]. }
  clear w st E Hw Hx Hk. induction n as [|n IH]; intros w st E Hw Hn Hx Hk.
  - destruct w as [|? ?], t as [|? ?]; cbn in Hn; try lia. cbn. rewrite <- Hx. f_equal.
    rewrite <- (after_nil st) at 1. by rewrite E.
  - destruct w as [|c w].
    + assert (Hks : k st = Some x) by (rewrite <- Hx; f_equal; rewrite <- (after_nil st) at 1; by rewrite E).
      cbn [loop]. cbn [rmatch]. rewrite E. cbn [app]. destruct t as [|d t]; [done|]. destruct (p d); [|done]. cbn [rest].
      rewrite (proj2 (Nat.ltb_lt _ _)) by (cbn; lia). rewrite N; [done|]. cbn [rest].
      intros v u Hv. specialize (Hk (d :: v) u). rewrite after_cons in Hk. rewrite Hv in Hk. apply Hk; [|done]. by cbn; rewrite Hv.
    + cbn in Hw. apply andb_prop in Hw as [Hc Hw]. cbn [loop]. cbn [rmatch]. rewrite E. cbn [app]. rewrite Hc. cbn [rest].
      rewrite (proj2 (Nat.ltb_lt _ _)) by (cbn; lia).
      rewrite (IH w); [done | done | done | cbn in Hn; lia | by rewrite <- after_cons |].
      intros v u Hv Hne. specialize (Hk (c :: v) u). rewrite after_cons, Hv in Hk. apply Hk; [by cbn; rewrite Hv | congruence].
Qed.

(** A repetition after which no continuation succeeds. *)
Lemma rmatch_star_none {A} p st (k : rstate -> option A) :
  (forall v u, v ++ u = rest st -> k (after v u st) = None) -> rmatch (RStar (RChar p)) st k = None.
Proof.
  cbn [rmatch]. generalize (length (rest st)). intros n.
  set (loop := fix loop (n : nat) (st : rstate) : option A := match n with O => k st | S n => _ end).
  revert st. induction n as [|n IH]; intros s Hs.
  - rewrite <- (after_nil s). by apply Hs.
  - cbn [loop]. assert (Hks : k s = None) by (rewrite <- (after_nil s); by apply Hs).
    cbn [rmatch]. destruct (rest s) as [|c u] eqn:Es; [done|]. destruct (p c); [|done]. cbn [rest].
    rewrite (proj2 (Nat.ltb_lt _ _)) by (cbn; lia). rewrite IH; [done|].
    cbn [rest]. intros v z Hv. specialize (Hs (c :: v) z). rewrite after_cons, Hv in Hs. apply Hs. by cbn; rewrite Hv.
Qed.

(** A group around a matcher that moves over [w]. *)
Lemma group_text (w t : jsstr) : take (length (w ++ t) - length t) (w ++ t) = w.
Proof. rewrite length_app. replace (length w + length t - length t)%nat with (length w) by lia. apply take_app_length. Qed.

(** The class of every character of the pattern is within [P]; the pattern has
    no back reference. *)
Fixpoint chars_within (P : Z -> Prop) (r : regex) : Prop :=
  match r with
  | RChar p => forall c, p c = true -> P c
  | RSeq a b | RAlt a b => chars_within P a /\ chars_within P b
  | RStar a | RGroup _ a => chars_within P a
  | RBackref _ => False
  | _ => True
  end.

(** What a match consumes. *)
Lemma rmatch_consumes {A} P r st (k : rstate -> option A) x :
  chars_within P r -> rmatch r st k = Some x ->
  exists w st', rest st = w ++ rest st' /\ Forall P w /\ k st' = Some x.
Proof.
  revert st k. induction r as [p| |a IHa b IHb|a IHa b IHb|a IHa|n a IHa|n|m|m|]; intros st k Hc H; cbn [rmatch chars_within] in *.
  - destruct (rest st) as [|c t] eqn:E; [done|]. destruct (p c) eqn:Ep; [|done].
    exists [c], (mkR (Some c) t (caps st)). split; [done|]. split; [|done]. constructor; [by apply Hc | constructor].
  - exists [], st. done.
  - destruct Hc as [Ha Hb]. apply IHa in H as (w & st1 & E1 & F1 & H1); [|done].
    apply IHb in H1 as (v & st2 & E2 & F2 & H2); [|done].
    exists (w ++ v), st2. split; [by rewrite E1, E2, app_assoc|]. split; [by apply Forall_app | done].
  - destruct Hc as [Ha Hb]. destruct (rmatch a st k) eqn:E; [by apply IHa; [|congruence] | by apply IHb].
  - revert H. generalize (length (rest st)). intros n.
    set (loop := fix loop (n : nat) (st : rstate) : option A := match n with O => k st | S n => _ end).
    revert st. induction n as [|n IHn]; intros st H; [by exists [], st|]. cbn [loop] in H.
    match type of H with match ?m with _ => _ end = _ => destruct m eqn:E end; [|by exists [], st].
    injection H as ->. apply IHa in E as (w & st1 & E1 & F1 & H1); [|done].
    destruct (_ <? _)%nat; [|done]. apply IHn in H1 as (v & st2 & E2 & F2 & H2).
    exists (w ++ v), st2. split; [by rewrite E1, E2, app_assoc|]. split; [by apply Forall_app | done].
  - apply IHa in H as (w & st1 & E1 & F1 & H1); [|done]. eexists w, (mkR _ _ _). cbn. split; [exact E1|]. done.
  - done.
  - destruct (match prev st with None => true | Some c => m && line_end c end); [by exists [], st | done].
  - destruct (match rest st with [] => true | c :: _ => m && line_end c end); [by exists [], st | done].
  - destruct (xorb _ _); [by exists [], st | done].
Qed.

(** Whether the pattern may match a text that begins with [pre], as far as the
    characters of [pre] tell. *)
Fixpoint may_match (r : regex) (pre : jsstr) (k : jsstr -> bool) : bool :=
  match r with
  | RChar p => match pre with [] => true | c :: t => p c && k t end
  | REps => k pre
  | RSeq a b => may_match a pre (fun pre' => may_match b pre' k)
  | RAlt a b => may_match a pre k || may_match b pre k
  | RGroup _ a => may_match a pre k
  | RStart _ => k pre
  | _ => true
  end.

Lemma may_match_sound {A} r pre t st (k : rstate -> option A) kb :
  rest st = pre ++ t ->
  (forall st' pre', rest st' = pre' ++ t -> kb pre' = false -> k st' = None) ->
  may_match r pre kb = false -> rmatch r st k = None.
Proof.
  revert pre st k kb. induction r as [p| |a IHa b IHb|a IHa b IHb|a IHa|n a IHa|n|m|m|]; intros pre st k kb E Hk H;
    cbn [rmatch may_match] in *; try done.
  - destruct pre as [|c pre]; [done|]. rewrite E. cbn [app]. destruct (p c); [|done]. cbn in H.
    by apply (Hk _ pre).
  - by apply (Hk _ pre).
  - eapply IHa; [exact E | | exact H]. intros st' pre' E' H'. eapply IHb; [exact E' | exact Hk | exact H'].
  - apply orb_false_iff in H as [H1 H2]. rewrite (IHa pre st k kb E Hk H1). by apply (IHb pre st k kb).
  - eapply IHa; [exact E | | exact H]. intros st' pre' E' H'. by apply (Hk _ pre').
  - destruct (match prev st with None => true | Some c => m && line_end c end); [by apply (Hk _ pre) | done].
Qed.

(** A text whose beginning the pattern does not accept. *)
Lemma match_at_start_none r pre t :
  may_match r pre (fun _ => true) = false -> match_at_start r (pre ++ t) = None.
Proof. intros H. eapply may_match_sound; [reflexivity | | exact H]. done. Qed.

(** A repeated alternative whose second branch cannot start in the text. *)
Lemma rmatch_star_alt_run {A} p b w t st (k : rstate -> option A) :
  rest st = w ++ t -> forallb p w = true -> (match t with [] => true | c :: _ => negb (p c) end) = true ->
  (forall st' (k' : rstate -> option A), (exists v, v ++ rest st' = w ++ t) -> rmatch b st' k' = None) ->
  (forall st', (match rest st' with [] => false | c :: _ => p c end) = true -> k st' = None) ->
  rmatch (RStar (RAlt (RChar p) b)) st k = k (after w t st).
Proof.
  cbn [rmatch]. intros E Hw Ht Hb Hk.
  set (loop := fix loop (n : nat) (st : rstate) : option A := match n with O => k st | S n => _ end).
  enough (G : forall n st, rest st = w ++ t -> (length (w ++ t) <= n)%nat -> loop n st = k (after w t st)).
  { apply G; [done|]. by rewrite E. }
  clear st E. revert Hw Hb. induction w as [|c w IH]; intros Hw Hb n st E Hn.
  - replace (after [] t st) with st by (rewrite <- (after_nil st) at 1; by rewrite E).
    destruct n as [|n]; [done|]. cbn [loop]. cbn [rmatch]. rewrite Hb by (exists []; by rewrite E). rewrite E. cbn [app].
    destruct t as [|d t]; [done|]. apply negb_true_iff in Ht. by rewrite Ht.
  - cbn in Hw. apply andb_prop in Hw as [Hc Hw]. destruct n as [|n]; [cbn in Hn; lia|].
    cbn [loop]. cbn [rmatch]. rewrite Hb by (exists []; by rewrite E). rewrite E. cbn [app]. rewrite Hc. cbn [rest].
    rewrite (proj2 (Nat.ltb_lt _ _)) by (cbn; lia).
    rewrite (IH Hw); [| |done | cbn in Hn; lia].
    + rewrite after_cons. destruct (k (after w t _)); [done|]. apply Hk. by rewrite E.
    + intros st' k' (v & Hv). apply Hb. exists (c :: v). cbn. by rewrite Hv.
Qed.

Example regex_word : match_at_start (rseq [RStart false; RGroup 1 (rplus (RChar is_digit)); rlit (js "-"); RBackref 1; REnd false])
  (js "12-12") = Some [(1%nat, js "12")].
Proof. reflexivity. Qed.

Example regex_all : map (fun x => cap 1 (caps x.2)) (matchAll (RSeq RWordBoundary (RGroup 1 (rplus (RChar is_digit)))) (js "a1 22 b,333"))
  = [js "22"; js "333"].
Proof. vm_compute. reflexivity. Qed.
