(* ===== verification/JsRegexMatch.v ===== *)
(** * Positive and negative judgements on patterns

    A pattern of [JsRegex] is a backtracking program with a continuation.  The
    two judgements of this file let a proof follow a match along the pattern:
    [eats r w t cs] when the first attempt of [r] at a text [w ++ t] moves over
    [w] and sets the captures [cs], provided that what follows succeeds after
    [w]; [refuses r u] when no attempt at the text [u] succeeds, whatever
    follows.  [refused_by] computes the second one from a known beginning of the
    text. *)
From S2P Require Import Prelude JsString JsRegex.
Local Open Scope Z_scope.

(** The captures a pattern sets, in the order it sets them. *)
Definition with_caps (cs : list (nat * jsstr)) (st : rstate) : rstate :=
  mkR (prev st) (rest st) (fold_left (fun m p => map_set p.1 p.2 m) cs (caps st)).

Definition eats (r : regex) (w t : jsstr) (cs : list (nat * jsstr)) : Prop :=
  forall A st (k : rstate -> option A) x,
    rest st = w ++ t -> k (with_caps cs (after w t st)) = Some x -> rmatch r st k = Some x.

Definition refuses (r : regex) (u : jsstr) : Prop :=
  forall A st (k : rstate -> option A), rest st = u -> rmatch r st k = None.

Lemma with_caps_nil st : with_caps [] st = st.
Proof. by destruct st. Qed.

Lemma with_caps_after w t cs st : after w t (with_caps cs st) = with_caps cs (after w t st).
Proof. done. Qed.

Lemma with_caps_app cs cs' st : with_caps cs' (with_caps cs st) = with_caps (cs ++ cs') st.
Proof. unfold with_caps. cbn. by rewrite fold_left_app. Qed.

(** ** Matching *)
Lemma eats_eps t : eats REps [] t [].
Proof. intros A st k x E H. cbn in *. rewrite with_caps_nil, <- E, after_nil in H. exact H. Qed.

Lemma eats_lit s t : eats (rlit s) s t [].
Proof. intros A st k x E H. rewrite (rmatch_lit_app s t) by done. by rewrite with_caps_nil in H. Qed.

Lemma eats_end : eats (REnd false) [] [] [].
Proof.
  intros A st k x E H. cbn. rewrite E. rewrite with_caps_nil in H.
  replace st with (after [] [] st); [done|]. rewrite <- (after_nil st) at 2. by rewrite E.
Qed.

Lemma eats_seq a b w v t cs cs' :
  eats a w (v ++ t) cs -> eats b v t cs' -> eats (RSeq a b) (w ++ v) t (cs ++ cs').
Proof.
  intros Ha Hb A st k x E H. cbn [rmatch]. eapply Ha; [by rewrite E, app_assoc|].
  eapply Hb; [done|]. by rewrite with_caps_after, with_caps_app, <- after_app.
Qed.

Lemma eats_alt_l a b w t cs : eats a w t cs -> eats (RAlt a b) w t cs.
Proof. intros Ha A st k x E H. cbn [rmatch]. by rewrite (Ha A st k x E H). Qed.

Lemma eats_alt_r a b w t cs : refuses a (w ++ t) -> eats b w t cs -> eats (RAlt a b) w t cs.
Proof. intros Ha Hb A st k x E H. cbn [rmatch]. by rewrite (Ha A st k E), (Hb A st k x E H). Qed.

Lemma eats_group n a w t cs : eats a w t cs -> eats (RGroup n a) w t (cs ++ [(n, w)]).
Proof.
  intros Ha A st k x E H. cbn [rmatch]. eapply Ha; [exact E|]. cbn. rewrite E, group_text.
  unfold with_caps in H. cbn in H. by rewrite fold_left_app in H.
Qed.

(** The loop of a repetition, on iterations that each consume something. *)
Lemma eats_star_iter a ws t :
  Forall (fun w => w <> []) ws ->
  (forall i w, ws !! i = Some w -> eats a w (concat (drop (S i) ws) ++ t) []) ->
  refuses a t -> eats (RStar a) (concat ws) t [].
Proof.
  intros Hne Hit Hr A st k x E. cbn [rmatch]. rewrite with_caps_nil.
  set (loop := fix loop (n : nat) (st : rstate) : option A := match n with O => k st | S n => _ end).
  enough (G : forall n st, rest st = concat ws ++ t -> (length (concat ws) <= n)%nat ->
    k (after (concat ws) t st) = Some x -> loop n st = Some x).
  { intros H. apply G; [done | rewrite E, length_app; lia | done]. }
  clear st E. induction ws as [|w ws IH]; intros n st E Hn H.
  - cbn in *. assert (Hs : after [] t st = st) by (rewrite <- (after_nil st) at 2; by rewrite E).
    rewrite Hs in H. destruct n as [|n]; [done|]. cbn [loop]. by rewrite (Hr _ st _ E).
  - inversion Hne as [|? ? Hw Hne']; subst. cbn [concat] in *. rewrite length_app in Hn.
    assert (0 < length w)%nat by (destruct w; [done | cbn; lia]).
    destruct n as [|n]; [lia|]. cbn [loop].
    erewrite (Hit 0%nat w eq_refl A st _ x); [done | by rewrite E, app_assoc |].
    rewrite with_caps_nil. cbn [rest after drop]. rewrite E, drop_0.
    rewrite (proj2 (Nat.ltb_lt _ _)) by (rewrite !length_app; lia).
    apply IH; [done | | done | lia | by rewrite <- after_app].
    intros i v Hi. by apply (Hit (S i)).
Qed.

Lemma eats_star p w t :
  forallb p w = true -> (match t with [] => true | c :: _ => negb (p c) end) = true -> eats (RStar (RChar p)) w t [].
Proof.
  intros Hw Ht. replace w with (concat (map (fun c => [c]) w)) by (induction w; cbn; [done | cbn in Hw; f_equal; apply IHw; by apply andb_prop in Hw as [_ ?]]).
  apply eats_star_iter.
  - apply Forall_forall. intros v Hv. by apply list_elem_of_fmap in Hv as (c & -> & _).
  - intros i v Hi. apply list_lookup_fmap_Some in Hi as (c & -> & Hc). intros A st k x E H. cbn [rmatch]. rewrite E. cbn [app].
    assert (Hp : p c = true). { rewrite forallb_forall in Hw. apply Hw. apply list_elem_of_In. by eapply list_elem_of_lookup_2. }
    rewrite Hp. by rewrite with_caps_nil in H.
  - intros A st k E. cbn. rewrite E. destruct t as [|d t]; [done|]. apply negb_true_iff in Ht. by rewrite Ht.
Qed.

Lemma eats_plus p w t :
  w <> [] -> forallb p w = true -> (match t with [] => true | c :: _ => negb (p c) end) = true -> eats (rplus (RChar p)) w t [].
Proof.
  intros Hne Hw Ht. destruct w as [|c w]; [done|]. cbn in Hw. apply andb_prop in Hw as [Hc Hw].
  change (c :: w) with ([c] ++ w). change (@nil (nat * jsstr)) with (@nil (nat * jsstr) ++ []).
  apply eats_seq; [|by apply eats_star].
  intros A st k x E H. cbn [rmatch]. rewrite E. cbn [app]. rewrite Hc. by rewrite with_caps_nil in H.
Qed.

(** An ordered alternative of literals: [s] is the one after which the
    continuation succeeds. *)
Lemma rmatch_alts_first {A} l s u st (k : rstate -> option A) x :
  s ∈ l -> rest st = s ++ u -> k (after s u st) = Some x ->
  Forall (fun s' => s' = s \/ forall u', strip_prefix s' (s ++ u) = Some u' -> k (after s' u' st) = None) l ->
  rmatch (ralts l) st k = Some x.
Proof.
  intros Hs E HG Hl. induction l as [|a l IH]; [set_solver|]. inversion Hl as [|? ? Ha Hl']; subst.
  assert (Hhead : rmatch (rlit a) st k = Some x \/ a <> s /\ rmatch (rlit a) st k = None).
  { destruct (decide (a = s)) as [->|Na].
    - left. by rewrite (rmatch_lit_app s u).
    - destruct Ha as [? | Ha]; [done|]. right. split; [done|]. rewrite rmatch_lit, E.
      destruct (strip_prefix a (s ++ u)) as [u'|]; [by apply Ha | done]. }
  destruct l as [|b l].
  - cbn [ralts]. destruct Hhead as [Hh|[Na _]]; [done|]. by apply list_elem_of_singleton in Hs.
  - change (ralts (a :: b :: l)) with (RAlt (rlit a) (ralts (b :: l))). cbn [rmatch].
    destruct Hhead as [-> | [Na ->]]; [done|]. apply IH; [|done]. by apply elem_of_cons in Hs as [?|?].
Qed.

(** Before [R], which refuses after every other literal that begins the text. *)
Definition only_alt (l : list jsstr) (s : jsstr) (R : regex) (u : jsstr) : Prop :=
  Forall (fun s' => s' = s \/ forall u', strip_prefix s' (s ++ u) = Some u' -> refuses R u') l.

Lemma eats_alts l s R w t cs :
  s ∈ l -> eats R w t cs -> only_alt l s R (w ++ t) -> eats (RSeq (ralts l) R) (s ++ w) t cs.
Proof.
  intros Hs HR Hl A st k x E H. cbn [rmatch]. rewrite <- app_assoc in E.
  apply (rmatch_alts_first l s (w ++ t)); [done | done | |].
  - eapply HR; [done|]. by rewrite <- after_app.
  - eapply Forall_impl; [exact Hl|]. intros s' [?|Ho]; [by left | right]. intros u' Hu. by apply (Ho u').
Qed.

Lemma eats_alts_group n l s R w t cs :
  s ∈ l -> eats R w t cs -> only_alt l s R (w ++ t) ->
  eats (RSeq (RGroup n (ralts l)) R) (s ++ w) t ((n, s) :: cs).
Proof.
  intros Hs HR Hl A st k x E H. cbn [rmatch]. rewrite <- app_assoc in E.
  apply (rmatch_alts_first l s (w ++ t)); [done | done | |].
  - eapply HR; [done|]. cbn. rewrite E, group_text. rewrite after_app in H. done.
  - eapply Forall_impl; [exact Hl|]. intros s' [?|Ho]; [by left | right]. intros u' Hu. by apply (Ho u').
Qed.

(** ** Refusing *)
(** Whether a match is possible as far as the beginning [pre] of the text
    tells; a repetition of a class is followed through [pre]. *)
Fixpoint may_start (r : regex) (pre : jsstr) (k : jsstr -> bool) : bool :=
  match r with
  | RChar p => match pre with [] => true | c :: t => p c && k t end
  | REps => k pre
  | RSeq a b => may_start a pre (fun pre' => may_start b pre' k)
  | RAlt a b => may_start a pre k || may_start b pre k
  | RStar (RChar p) =>
      (fix go (pre : jsstr) : bool := k pre || match pre with [] => true | c :: t => p c && go t end) pre
  | RGroup _ a => may_start a pre k
  | REnd false => match pre with [] => true | _ => false end
  | RStart _ => k pre
  | _ => true
  end.

Lemma may_start_star_sound {A} p pre t st (k : rstate -> option A) kb :
  rest st = pre ++ t ->
  (forall st' pre', rest st' = pre' ++ t -> kb pre' = false -> k st' = None) ->
  may_start (RStar (RChar p)) pre kb = false -> rmatch (RStar (RChar p)) st k = None.
Proof.
  intros E Hk H. cbn [rmatch]. generalize (length (rest st)). intros n.
  set (loop := fix loop (n : nat) (st : rstate) : option A := match n with O => k st | S n => _ end).
  revert st pre E H. induction n as [|n IH]; intros st pre E H.
  - cbn. apply (Hk _ pre E). destruct pre; cbn in H; apply orb_false_iff in H as [? _]; done.
  - assert (Hs : k st = None). { apply (Hk _ pre E). destruct pre; cbn in H; apply orb_false_iff in H as [? _]; done. }
    cbn [loop]. destruct pre as [|c pre]; [cbn in H; apply orb_false_iff in H as [_ ?]; done|].
    cbn in H. apply orb_false_iff in H as [_ H]. cbn [rmatch]. rewrite E. cbn [app].
    destruct (p c); [|done]. cbn [rest]. rewrite (proj2 (Nat.ltb_lt _ _)) by (cbn; lia).
    by rewrite (IH _ pre).
Qed.

Lemma may_start_sound {A} r pre t st (k : rstate -> option A) kb :
  rest st = pre ++ t ->
  (forall st' pre', rest st' = pre' ++ t -> kb pre' = false -> k st' = None) ->
  may_start r pre kb = false -> rmatch r st k = None.
Proof.
  revert pre st k kb. induction r as [p| |a IHa b IHb|a IHa b IHb|a IHa|n a IHa|n|m|m|]; intros pre st k kb E Hk H;
    try discriminate H.
  - cbn [rmatch may_start] in *. destruct pre as [|c pre]; [done|]. rewrite E. cbn [app]. destruct (p c); [|done]. cbn in H.
    by apply (Hk _ pre).
  - by apply (Hk _ pre).
  - cbn [rmatch may_start] in *. eapply IHa; [exact E | | exact H]. intros st' pre' E' H'. eapply IHb; [exact E' | exact Hk | exact H'].
  - cbn [rmatch may_start] in *. apply orb_false_iff in H as [H1 H2]. rewrite (IHa pre st k kb E Hk H1). by apply (IHb pre st k kb).
  - destruct a; try discriminate H. by eapply may_start_star_sound.
  - cbn [rmatch may_start] in *. eapply IHa; [exact E | | exact H]. intros st' pre' E' H'. by apply (Hk _ pre').
  - cbn [rmatch may_start] in *. destruct (match prev st with None => true | Some c => m && line_end c end); [by apply (Hk _ pre) | done].
  - cbn [rmatch may_start] in *. destruct m; [done|]. destruct pre as [|c pre]; [done|]. by rewrite E.
Qed.

Definition refused_by (r : regex) (pre : jsstr) : bool := negb (may_start r pre (fun _ => true)).

Lemma refused_by_sound r pre t : refused_by r pre = true -> refuses r (pre ++ t).
Proof.
  unfold refused_by. intros H%negb_true_iff A st k E. eapply may_start_sound; [exact E | | exact H]. done.
Qed.

Lemma refuses_seq_l a b u : refuses a u -> refuses (RSeq a b) u.
Proof. intros H A st k E. cbn. by apply H. Qed.

(** A repetition of a class, whatever it takes. *)
Lemma refuses_star p R u :
  (forall v u', u = v ++ u' -> forallb p v = true -> refuses R u') -> refuses (RSeq (RStar (RChar p)) R) u.
Proof.
  intros H A st k E. cbn [rmatch]. generalize (length (rest st)). intros n.
  set (loop := fix loop (n : nat) (st : rstate) : option A := match n with O => _ | S n => _ end).
  revert u st H E. induction n as [|n IH]; intros u st H E.
  - cbn. by apply (H [] u).
  - assert (Hs : rmatch R st k = None) by (by apply (H [] u)).
    cbn [loop]. destruct u as [|c u]; [cbn [rmatch]; by rewrite E|]. cbn [rmatch]. rewrite E.
    destruct (p c) eqn:Ep; [|done]. cbn [rest]. rewrite (proj2 (Nat.ltb_lt _ _)) by (cbn; lia).
    rewrite (IH u); [done | | done]. intros v u' -> Hv. apply (H (c :: v)); [done|]. cbn. by rewrite Ep.
Qed.

Lemma refuses_lit_head c s d u : c <> d -> refuses (rlit (c :: s)) (d :: u).
Proof. intros H A st k E. cbn. rewrite E. by rewrite (proj2 (Z.eqb_neq c d) H). Qed.

(** ** Searching *)
Lemma eats_match_here r w t cs st :
  eats r w t cs -> rest st = w ++ t ->
  match_here r st = Some (with_caps cs (mkR (prev (after w t st)) t [])).
Proof. intros H E. unfold match_here. by apply H. Qed.

Lemma eats_match_at_start r w cs :
  eats r w [] cs -> match_at_start (RSeq (RStart false) r) w = Some (caps (with_caps cs (mkR None [] []))).
Proof. intros H. unfold match_at_start. cbn [rmatch prev]. eapply H; [by rewrite app_nil_r | done]. Qed.

Lemma refuses_match_at_start r w : refuses r w -> match_at_start (RSeq (RStart false) r) w = None.
Proof. intros H. unfold match_at_start. cbn [rmatch prev]. by apply H. Qed.

(** The search passes over a text at none of whose positions the pattern starts. *)
Lemma exec_from_skip r g t p :
  (forall a b, g = a ++ b -> b <> [] -> refuses r (b ++ t)) ->
  exec_from r p (g ++ t) = exec_from r (match last g with Some c => Some c | None => p end) t.
Proof.
  revert p. induction g as [|c g IH]; intros p H; [done|]. rewrite <- app_comm_cons. cbn [exec_from].
  unfold match_here. cbn [prev rest]. rewrite (H [] (c :: g)) by done.
  rewrite IH; [|intros a b -> Hb; by apply (H (c :: a))]. rewrite last_cons. by destruct (last g).
Qed.

Lemma exec_from_eats r p w t cs :
  eats r w t cs ->
  exec_from r p (w ++ t) = Some (w ++ t, with_caps cs (mkR (prev (after w t (mkR p [] []))) t [])).
Proof.
  intros H. assert (Hm := eats_match_here r w t cs (mkR p (w ++ t) []) H eq_refl).
  destruct (w ++ t) as [|c u] eqn:E; cbn [exec_from]; rewrite Hm; done.
Qed.

Lemma exec_from_none r p u : (forall a b, u = a ++ b -> refuses r b) -> exec_from r p u = None.
Proof.
  revert p. induction u as [|c u IH]; intros p H; cbn [exec_from]; unfold match_here; rewrite (H [] _ eq_refl) by done; [done|].
  apply IH. intros a b ->. by apply (H (c :: a)).
Qed.

(** All the matches of a text made of pieces with a separator the pattern starts
    nowhere in, followed by a text it does not start in either. *)
Section Pieces.
Context (r : regex) (sep tail : jsstr).
Context (Hsep : forall a b t, sep = a ++ b -> b <> [] -> refuses r (b ++ t)).
Context (Htail : forall a b, tail = a ++ b -> refuses r b).

Definition pieces_text (ps : list (jsstr * list (nat * jsstr))) : jsstr := concat (map (fun p => sep ++ p.1) ps).

Lemma exec_all_pieces fuel p ps :
  Forall (fun q => q.1 <> []) ps -> (length ps <= fuel)%nat ->
  (forall i q, ps !! i = Some q -> eats r q.1 (pieces_text (drop (S i) ps) ++ tail) q.2) ->
  map (fun x : jsstr * rstate => caps x.2) (exec_all fuel r p (pieces_text ps ++ tail))
  = map (fun q : jsstr * list (nat * jsstr) => caps (with_caps q.2 (mkR None [] []))) ps.
Proof.
  revert fuel p. induction ps as [|[w cs] ps IH]; intros fuel p Hne Hf He.
  - destruct fuel; [done|]. cbn. by rewrite exec_from_none.
  - destruct fuel as [|fuel]; [cbn in Hf; lia|]. inversion Hne as [|? ? Hw Hne']; subst. cbn in Hw.
    unfold pieces_text. cbn [map concat]. fold (pieces_text ps). cbn [fst]. rewrite <- !app_assoc. cbn [exec_all].
    rewrite exec_from_skip by (intros a b E Hb; by apply (Hsep a)).
    assert (H0 := He 0%nat (w, cs) eq_refl). cbn [fst snd drop] in H0. rewrite drop_0 in H0.
    rewrite (exec_from_eats r _ w _ cs H0). cbn [rest with_caps prev].
    assert (0 < length w)%nat by (destruct w; [done | cbn; lia]).
    rewrite (proj2 (Nat.ltb_lt _ _)) by (rewrite !length_app; lia).
    cbn [map]. f_equal. apply IH; [done | cbn in Hf; lia|]. intros i q Hi. by apply (He (S i)).
Qed.

Lemma matchAll_pieces w cs ps :
  w <> [] -> Forall (fun q => q.1 <> []) ps ->
  (forall i q, ((w, cs) :: ps) !! i = Some q -> eats r q.1 (pieces_text (drop (S i) ((w, cs) :: ps)) ++ tail) q.2) ->
  map (fun x : jsstr * rstate => caps x.2) (matchAll r (w ++ pieces_text ps ++ tail))
  = map (fun q : jsstr * list (nat * jsstr) => caps (with_caps q.2 (mkR None [] []))) ((w, cs) :: ps).
Proof.
  intros Hw Hne He. unfold matchAll. cbn [exec_all].
  assert (H0 := He 0%nat (w, cs) eq_refl). cbn [fst snd drop] in H0. rewrite drop_0 in H0.
  rewrite (exec_from_eats r _ w _ cs H0). cbn [rest with_caps prev].
  assert (0 < length w)%nat by (destruct w; [done | cbn; lia]).
  rewrite (proj2 (Nat.ltb_lt _ _)) by (rewrite !length_app; lia).
  cbn [map]. f_equal. apply exec_all_pieces; [done | | intros i q Hi; by apply (He (S i))].
  enough (length ps <= length (pieces_text ps))%nat by (rewrite !length_app; lia).
  clear He H0. induction Hne as [|q ps Hq _ IH]; [done|]. unfold pieces_text in *. cbn [map concat length].
  rewrite !length_app. destruct q.1; [done | cbn; lia].
Qed.
End Pieces.
