(* ===== verification/StatusCodeRules.v ===== *)
(** * HTTP status code rules ([src/web/default/src/lib/http-status-code-rules.ts])

    The settings page lets an administrator type the status codes that disable
    a channel or trigger a retry, as comma separated codes and ranges.  The
    module models the parser of that text ([parseHttpStatusCodeRules]), the
    token parser and the merging of ranges, and shows that the result is a
    canonical form of the set of codes the text denotes. *)
From S2P Require Import Prelude JsString.
Local Open Scope Z_scope.

Module StatusCodeRules.

(** ** Data *)
Record StatusCodeRange := mkRange { start : Z; end_ : Z }.

Record ParsedHttpStatusCodeRules := mkParsed {
  ok : bool;
  ranges : list StatusCodeRange;
  tokens : list jsstr;
  normalized : jsstr;
  invalidTokens : list jsstr;
}.

#[export] Instance StatusCodeRange_eq_dec : EqDecision StatusCodeRange.
Proof. solve_decision. Defined.

(** ** Operations *)

(** [/^\d+$/.test(s)] *)
Definition isNumber (s : jsstr) : bool :=
  match s with [] => false | _ => forallb is_digit s end.

Definition isValidCode (code : Z) : bool := (100 <=? code) && (code <=? 599).

(** The first two parts of [cleaned.split('-')] are the bounds; a code is a
    range of one element.  [Number.parseInt] is exact on every code the test
    [isValidCode] accepts. *)
Definition parseToken (token : jsstr) : option StatusCodeRange :=
  let cleaned := remove_ws (trim token) in
  match cleaned with
  | [] => None
  | _ =>
    if includes [minus] cleaned then
      match split_on minus cleaned with
      | a :: b :: _ =>
        if negb (isNumber a) || negb (isNumber b) then None
        else
          let s := parse_digits a in
          let e := parse_digits b in
          if negb (isValidCode s) || negb (isValidCode e) || (e <? s) then None
          else Some (mkRange s e)
      | _ => None
      end
    else if negb (isNumber cleaned) then None
    else
      let code := parse_digits cleaned in
      if negb (isValidCode code) then None else Some (mkRange code code)
  end.

(** The comparator of the sort: by start, then by end. *)
Definition compareRanges (a b : StatusCodeRange) : Z :=
  if negb (start a =? start b) then start a - start b else end_ a - end_ b.

(** The reducer: [merged] is the array built so far, whose last element is
    extended in place when the next range touches it. *)
Definition mergeStep (merged : list StatusCodeRange) (current : StatusCodeRange) :=
  match last merged with
  | None => merged ++ [current]
  | Some l =>
      if end_ l + 1 <? start current then merged ++ [current]
      else removelast merged ++ [mkRange (start l) (Z.max (end_ l) (end_ current))]
  end.

Definition mergeRanges (rs : list StatusCodeRange) : list StatusCodeRange :=
  match rs with
  | [] => []
  | _ => fold_left mergeStep (js_sort compareRanges rs) []
  end.

Definition rangeToken (r : StatusCodeRange) : jsstr :=
  if start r =? end_ r then string_of_Z (start r)
  else string_of_Z (start r) ++ [minus] ++ string_of_Z (end_ r).

(** The segments of the text: full-width commas become commas, the parts are
    trimmed and the empty ones dropped. *)
Definition fullwidth_comma : Z := 65292.

Definition segmentsOf (raw : jsstr) : list jsstr :=
  let sanitized := map (fun c => if c =? fullwidth_comma then comma else c) raw in
  base.filter (fun s => s <> []) (map trim (split_on comma sanitized)).

(** The two arrays the loop over the segments fills. *)
Definition collectSegments (segments : list jsstr) : list StatusCodeRange * list jsstr :=
  fold_left
    (fun acc segment =>
       match parseToken segment with
       | None => (acc.1, acc.2 ++ [segment])
       | Some r => (acc.1 ++ [r], acc.2)
       end) segments ([], []).

(** [input] is [None] for [null] and [undefined]. *)
Definition parseHttpStatusCodeRules (input : option jsstr) : ParsedHttpStatusCodeRules :=
  let raw := trim (default [] input) in
  match raw with
  | [] => mkParsed true [] [] [] []
  | _ =>
    let '(rs, invalid) := collectSegments (segmentsOf raw) in
    match invalid with
    | _ :: _ => mkParsed false [] [] raw invalid
    | [] =>
        let merged := mergeRanges rs in
        let toks := map rangeToken merged in
        mkParsed true merged toks (join [comma] toks) []
    end
  end.

(** ** Meaning of ranges *)
Definition in_range (c : Z) (r : StatusCodeRange) : Prop := start r <= c <= end_ r.
Definition covers (rs : list StatusCodeRange) (c : Z) : Prop := exists r, r ∈ rs /\ in_range c r.

Definition valid_range (r : StatusCodeRange) : Prop := 100 <= start r /\ start r <= end_ r /\ end_ r <= 599.

(** Ordered ranges with at least one uncovered code between neighbours. *)
Definition separated (a b : StatusCodeRange) : Prop := end_ a + 1 < start b.
Definition canonical (rs : list StatusCodeRange) : Prop :=
  StronglySorted separated rs /\ Forall valid_range rs.

(** The set of codes a text denotes, and whether all of its segments parse. *)
Definition denotes (input : jsstr) (c : Z) : Prop :=
  exists seg r, seg ∈ segmentsOf (trim input) /\ parseToken seg = Some r /\ in_range c r.

(** ** Lemmas *)

#[export] Instance compareRanges_Comparator : Comparator compareRanges.
Proof.
  unfold compareRanges. split.
  - intros a b. rewrite (Z.eqb_sym (start b)). destruct (Z.eqb_spec (start a) (start b)); simpl; lia.
  - intros a b c. destruct (Z.eqb_spec (start a) (start b)), (Z.eqb_spec (start b) (start c)),
      (Z.eqb_spec (start a) (start c)); simpl; lia.
Qed.

Lemma isValidCode_spec c : isValidCode c = true <-> 100 <= c <= 599.
Proof. unfold isValidCode. rewrite andb_true_iff. lia. Qed.

Lemma parseToken_valid t r : parseToken t = Some r -> valid_range r.
Proof.
  unfold parseToken, valid_range. intros H. repeat case_test_in H; simpl;
  repeat match goal with
  | E : (_ || _)%bool = false |- _ => apply orb_false_iff in E as [? ?]
  | E : negb _ = false |- _ => apply negb_false_iff in E
  | E : isValidCode _ = true |- _ => apply isValidCode_spec in E
  end; bool_to_prop; lia.
Qed.

Lemma collectSegments_acc segs a b :
  fold_left
    (fun acc segment =>
       match parseToken segment with
       | None => (acc.1, acc.2 ++ [segment])
       | Some r => (acc.1 ++ [r], acc.2)
       end) segs (a, b) =
  (a ++ omap parseToken segs, b ++ base.filter (fun s => parseToken s = None) segs).
Proof.
  revert a b. induction segs as [|s segs IH]; intros a b; csimpl; [by rewrite !app_nil_r|].
  destruct (parseToken s) as [r|] eqn:E; rewrite IH; simpl.
  - rewrite filter_cons_False by congruence. by rewrite <-(assoc_L (++)).
  - rewrite filter_cons_True by done. by rewrite <-(assoc_L (++)).
Qed.

(** The loop keeps the ranges of the segments that parse and lists the others. *)
Lemma collectSegments_spec segs :
  collectSegments segs = (omap parseToken segs, base.filter (fun s => parseToken s = None) segs).
Proof. apply collectSegments_acc. Qed.

Lemma last_removelast {A} (l : list A) x : last l = Some x -> l = removelast l ++ [x].
Proof.
  destruct l as [|y l] using rev_ind; [done|]. rewrite last_snoc, removelast_last. congruence.
Qed.

Lemma canonical_snoc rs r :
  canonical (rs ++ [r]) <-> canonical rs /\ valid_range r /\ Forall (fun a => separated a r) rs.
Proof.
  unfold canonical. rewrite StronglySorted_app, Forall_app, Forall_singleton.
  rewrite (Forall_forall (fun a => separated a r)). split.
  - intros ((Hx & Hs & _) & Hv & Hr). split; [done|]. split; [done|]. intros x Hin. apply Hx; set_solver.
  - intros ((Hs & Hv) & Hr & Hf). split; [|done]. split; [|by repeat constructor].
    intros x1 x2 H1 ->%list_elem_of_singleton. auto.
Qed.

Lemma covers_app a b c : covers (a ++ b) c <-> covers a c \/ covers b c.
Proof. unfold covers. set_solver. Qed.

Lemma covers_one r c : covers [r] c <-> in_range c r.
Proof. unfold covers. set_solver. Qed.

(** One step of the reducer keeps the array canonical and adds the codes of
    the range, when the range starts at or after the last one. *)
Lemma mergeStep_correct merged cur :
  canonical merged -> valid_range cur -> Forall (fun a => start a <= start cur) merged ->
  canonical (mergeStep merged cur) /\
  (forall c, covers (mergeStep merged cur) c <-> covers merged c \/ in_range c cur) /\
  Forall (fun a => start a <= start cur) (mergeStep merged cur).
Proof.
  intros Hc Hv Hs. unfold mergeStep. destruct (last merged) as [l|] eqn:El.
  - apply last_removelast in El. remember (removelast merged) as init eqn:Hi. clear Hi. subst merged.
    apply canonical_snoc in Hc as (Hci & Hvl & Hsl). apply Forall_app in Hs as [Hsi Hl].
    rewrite Forall_singleton in Hl. destruct (Z.ltb_spec (end_ l + 1) (start cur)).
    + split_and!.
      * apply canonical_snoc. split_and!; [by apply canonical_snoc|done|].
        apply Forall_app; split; [|by constructor].
        eapply Forall_impl; [exact Hsl|]. unfold separated. unfold valid_range in *. lia.
      * intros c. by rewrite covers_app, covers_one.
      * rewrite !Forall_app, !Forall_singleton. simpl in *. split_and!; done || lia.
    + split_and!.
      * apply canonical_snoc. split_and!; [done| |].
        -- unfold valid_range in *. simpl. lia.
        -- eapply Forall_impl; [exact Hsl|]. unfold separated. simpl. lia.
      * intros c. rewrite !covers_app, !covers_one. unfold in_range. simpl.
        unfold valid_range in *. split; [|intros [[?|?]|?]]; try (right; lia); [|by left].
        intros [?|?]; [by left; left|]. destruct (decide (c <= end_ l)); [left; right|right]; lia.
      * apply Forall_app. rewrite Forall_singleton. simpl in *. split; [done|lia].
  - apply last_None in El as ->. simpl. split_and!.
    + apply (canonical_snoc []). split_and!; [done|done|constructor].
    + intros c. rewrite covers_one. unfold covers. set_solver.
    + repeat constructor; lia.
Qed.

Lemma mergeFold_correct rs merged :
  StronglySorted (fun a b => start a <= start b) rs -> Forall valid_range rs ->
  canonical merged -> Forall (fun a => Forall (fun b => start a <= start b) rs) merged ->
  canonical (fold_left mergeStep rs merged) /\
  (forall c, covers (fold_left mergeStep rs merged) c <-> covers merged c \/ covers rs c).
Proof.
  revert merged. induction rs as [|r rs IH]; intros merged Hs Hv Hc Hb; simpl.
  - split; [done|]. intros c. unfold covers at 3. set_solver.
  - apply StronglySorted_cons in Hs as [Hr Hs]. apply Forall_cons in Hv as [Hvr Hv].
    destruct (mergeStep_correct merged r) as (Hc' & Hcov & Hb'); [done|done| |].
    { eapply Forall_impl; [exact Hb|]. intros a Ha. by apply Forall_cons in Ha as [? _]. }
    destruct (IH (mergeStep merged r)) as [Hcan Hcc]; [done|done|done| |].
    { eapply Forall_impl; [exact Hb'|]. intros a Ha.
      eapply Forall_impl; [exact Hr|]. intros b Hb2; simpl in *; lia. }
    split; [done|]. intros c. rewrite Hcc, Hcov. unfold covers at 3 4. set_solver.
Qed.

Lemma sorted_by_start rs :
  StronglySorted (fun a b => start a <= start b) (js_sort compareRanges rs).
Proof.
  generalize (StronglySorted_js_sort compareRanges rs). generalize (js_sort compareRanges rs).
  induction 1 as [|r l Hs IH Hr]; constructor; [done|].
  eapply Forall_impl; [exact Hr|]. intros a. unfold compareRanges.
  destruct (Z.eqb_spec (start r) (start a)); simpl; lia.
Qed.

(** Merging gives a canonical array that covers the same codes. *)
Lemma mergeRanges_correct rs :
  Forall valid_range rs ->
  canonical (mergeRanges rs) /\ (forall c, covers (mergeRanges rs) c <-> covers rs c).
Proof.
  intros Hv. destruct rs as [|r rs]; [by repeat constructor|]. unfold mergeRanges.
  destruct (mergeFold_correct (js_sort compareRanges (r :: rs)) []) as [Hc Hcov].
  - apply sorted_by_start.
  - by rewrite js_sort_Permutation.
  - split; constructor.
  - constructor.
  - split; [exact Hc|]. intros c. rewrite Hcov. unfold covers. setoid_rewrite elem_of_js_sort.
    set_solver.
Qed.

Lemma canonical_sorted rs : canonical rs -> js_sort compareRanges rs = rs.
Proof.
  intros [Hs Hv]. apply js_sort_sorted. induction Hs as [|r rs Hs IH Hr]; constructor.
  - apply IH. by apply Forall_cons in Hv as [_ ?].
  - apply Forall_cons in Hv as [[? [? ?]] Hv]. apply Forall_forall. intros a Ha.
    rewrite Forall_forall in Hr, Hv. specialize (Hr a Ha). specialize (Hv a Ha).
    unfold separated, valid_range, compareRanges in *.
    destruct (Z.eqb_spec (start r) (start a)); simpl; lia.
Qed.

Lemma mergeFold_canonical rs merged :
  canonical (merged ++ rs) -> fold_left mergeStep rs merged = merged ++ rs.
Proof.
  revert merged. induction rs as [|r rs IH]; intros merged Hc; simpl; [by rewrite app_nil_r|].
  assert (mergeStep merged r = merged ++ [r]) as ->.
  { unfold mergeStep. destruct (last merged) as [l|] eqn:El; [|done].
    destruct (Z.ltb_spec (end_ l + 1) (start r)); [done|]. exfalso.
    destruct Hc as [Hs _]. apply StronglySorted_app in Hs as [Hs _].
    assert (separated l r) as Hsep; [|unfold separated in Hsep; lia].
    apply Hs; [|set_solver]. apply last_Some in El as [l' ->]. set_solver. }
  rewrite IH; [by rewrite <-(assoc_L (++))|]. by rewrite <-(assoc_L (++)).
Qed.

(** Merging a canonical array changes nothing. *)
Lemma mergeRanges_canonical rs : canonical rs -> mergeRanges rs = rs.
Proof.
  intros Hc. destruct rs as [|r rs]; [done|]. unfold mergeRanges.
  rewrite canonical_sorted by done. by apply (mergeFold_canonical _ []).
Qed.

Lemma canonical_cons r rs :
  canonical (r :: rs) -> canonical rs /\ valid_range r /\ Forall (separated r) rs.
Proof.
  intros [Hs Hv]. apply StronglySorted_cons in Hs as [Hr Hs]. apply Forall_cons in Hv as [Hvr Hv].
  done.
Qed.

Lemma canonical_low r rs c : canonical (r :: rs) -> covers (r :: rs) c -> start r <= c.
Proof.
  intros (_ & Hv & Hr)%canonical_cons (a & Ha & Hin). rewrite Forall_forall in Hr.
  apply elem_of_cons in Ha as [->|Ha]; [apply Hin|]. specialize (Hr a Ha).
  unfold separated, in_range, valid_range in *. lia.
Qed.

Lemma canonical_gap r rs : canonical (r :: rs) -> ~ covers (r :: rs) (end_ r + 1).
Proof.
  intros (_ & Hv & Hr)%canonical_cons (a & Ha & Hin). rewrite Forall_forall in Hr.
  apply elem_of_cons in Ha as [->|Ha]; [|specialize (Hr a Ha)];
  unfold separated, in_range, valid_range in *; lia.
Qed.

Lemma covers_head r rs c : in_range c r -> covers (r :: rs) c.
Proof. intros Hc. exists r. set_solver. Qed.

Lemma canonical_tail r rs c :
  canonical (r :: rs) -> covers rs c <-> covers (r :: rs) c /\ end_ r < c.
Proof.
  intros (_ & Hv & Hr)%canonical_cons. rewrite Forall_forall in Hr. split.
  - intros (a & Ha & Hi). split; [exists a; set_solver|].
    specialize (Hr a Ha). unfold separated, in_range in *. lia.
  - intros [(a & Ha & Hi) Hlt]. apply elem_of_cons in Ha as [->|Ha]; [unfold in_range in Hi; lia|].
    by exists a.
Qed.

(** The first ranges of two canonical arrays with the same codes agree. *)
Lemma canonical_head_eq r rs r' rs' :
  canonical (r :: rs) -> canonical (r' :: rs') ->
  (forall c, covers (r :: rs) c <-> covers (r' :: rs') c) -> r = r'.
Proof.
  intros Hc Hc' He.
  pose proof (canonical_cons _ _ Hc) as (_ & [? [? ?]] & _).
  pose proof (canonical_cons _ _ Hc') as (_ & [? [? ?]] & _).
  assert (start r = start r') as Es.
  { apply Z.le_antisymm.
    - eapply canonical_low; [exact Hc|]. apply He, covers_head. unfold in_range; lia.
    - eapply canonical_low; [exact Hc'|]. apply He, covers_head. unfold in_range; lia. }
  assert (end_ r = end_ r') as Ee.
  { destruct (Z.lt_trichotomy (end_ r) (end_ r')) as [Hlt|[?|Hlt]]; [|done|]; exfalso.
    - apply (canonical_gap _ _ Hc), He, covers_head. unfold in_range; lia.
    - apply (canonical_gap _ _ Hc'), He, covers_head. unfold in_range; lia. }
  destruct r, r'; simpl in *; congruence.
Qed.

Lemma not_covers_nil c : ~ covers [] c.
Proof. intros (a & Ha & _). set_solver. Qed.

(** A canonical array is determined by the codes it covers. *)
Lemma canonical_unique rs rs' :
  canonical rs -> canonical rs' -> (forall c, covers rs c <-> covers rs' c) -> rs = rs'.
Proof.
  revert rs'. induction rs as [|r rs IH]; intros [|r' rs'] Hc Hc' He; [done| | |].
  - exfalso. pose proof (canonical_cons _ _ Hc') as (_ & [? [? ?]] & _).
    apply (not_covers_nil (start r')), He, covers_head. unfold in_range; lia.
  - exfalso. pose proof (canonical_cons _ _ Hc) as (_ & [? [? ?]] & _).
    apply (not_covers_nil (start r)), He, covers_head. unfold in_range; lia.
  - assert (r = r') as -> by (by eapply canonical_head_eq). f_equal.
    apply IH; [by apply canonical_cons in Hc as [? _]|by apply canonical_cons in Hc' as [? _]|].
    intros c. by rewrite (canonical_tail r' rs), (canonical_tail r' rs'), He.
Qed.

(** *** Printing and reading back *)

(** The characters of a printed token. *)
Definition token_char (c : Z) : bool := is_digit c || (c =? minus).

Lemma token_char_clean c :
  token_char c = true -> is_ws c = false /\ (c =? comma) = false /\ (c =? fullwidth_comma) = false.
Proof.
  unfold token_char, is_digit, is_ws, comma, fullwidth_comma, minus. intros H.
  apply orb_true_iff in H as [H|H]; bool_to_prop; lia.
Qed.

Lemma token_chars_clean s :
  forallb token_char s = true ->
  forallb (fun c => negb (is_ws c)) s = true /\ no_char comma s = true /\
  map (fun c => if c =? fullwidth_comma then comma else c) s = s.
Proof.
  unfold no_char. induction s as [|c s IH]; simpl; [done|]. intros [Hc Hs]%andb_true_iff.
  apply token_char_clean in Hc as (-> & -> & ->). destruct (IH Hs) as (-> & -> & ->). done.
Qed.

Lemma token_char_digits s : forallb is_digit s = true -> forallb token_char s = true.
Proof.
  unfold token_char. induction s as [|c s IH]; simpl; [done|]. intros [-> Hs]%andb_true_iff. by rewrite IH.
Qed.

Lemma rangeToken_chars r :
  valid_range r -> forallb token_char (rangeToken r) = true /\ rangeToken r <> [].
Proof.
  intros (? & ? & ?). unfold rangeToken.
  destruct (string_of_Z_digits (start r)) as (Hd & _ & Hn); [lia|].
  destruct (string_of_Z_digits (end_ r)) as (Hd' & _ & _); [lia|].
  destruct (start r =? end_ r); [auto using token_char_digits|].
  rewrite !forallb_app, (token_char_digits _ Hd), (token_char_digits _ Hd'). split; [done|].
  by intros [? _]%app_eq_nil.
Qed.

Lemma isNumber_digits s : s <> [] -> forallb is_digit s = true -> isNumber s = true.
Proof. by destruct s. Qed.

Lemma digits_no_minus s : forallb is_digit s = true -> includes [minus] s = false.
Proof.
  intros Hd. apply not_true_iff_false. intros (t & u & ->)%includes_spec.
  rewrite !forallb_app in Hd. by destruct (forallb is_digit t).
Qed.

(** A printed range is read back as the same range. *)
Lemma parseToken_rangeToken r : valid_range r -> parseToken (rangeToken r) = Some r.
Proof.
  intros Hv. destruct (rangeToken_chars r Hv) as [Hc Hne]. destruct Hv as (H1 & H2 & H3).
  apply token_chars_clean in Hc as (Hw & _ & _).
  unfold parseToken. rewrite trim_no_ws, remove_ws_id by done.
  destruct (string_of_Z_digits (start r)) as (Hd & Hp & Hn); [lia|].
  destruct (string_of_Z_digits (end_ r)) as (Hd' & Hp' & Hn'); [lia|].
  unfold rangeToken in *. destruct (Z.eqb_spec (start r) (end_ r)) as [He|He].
  - rewrite digits_no_minus, isNumber_digits, Hp by done.
    rewrite (proj2 (isValidCode_spec (start r))) by lia.
    destruct (string_of_Z (start r)); [done|]. destruct r; simpl in *; congruence.
  - assert (includes [minus] (string_of_Z (start r) ++ [minus] ++ string_of_Z (end_ r)) = true) as ->
      by (apply includes_spec; eauto).
    simpl app. rewrite split_on_app, split_on_no_char by (by apply digits_no_char).
    rewrite !isNumber_digits, Hp, Hp' by done. simpl.
    rewrite (proj2 (isValidCode_spec (start r))), (proj2 (isValidCode_spec (end_ r))) by lia.
    destruct (Z.ltb_spec (end_ r) (start r)); [lia|]. simpl.
    destruct (string_of_Z (start r)); [done|]. by destruct r.
Qed.

Lemma join_token_chars rs :
  Forall valid_range rs ->
  forallb (fun c => token_char c || (c =? comma)) (join [comma] (map rangeToken rs)) = true.
Proof.
  assert (forall r, valid_range r ->
    forallb (fun c => token_char c || (c =? comma)) (rangeToken r) = true) as Hr.
  { intros r [Hc _]%rangeToken_chars. revert Hc. generalize (rangeToken r) as s.
    induction s as [|c s IH]; simpl; [done|]. intros [-> Hs]%andb_true_iff. by rewrite IH. }
  induction 1 as [|r rs Hv Hf IH]; [done|]. simpl. destruct (map rangeToken rs) eqn:E; [auto|].
  rewrite !forallb_app, Hr by done. exact IH.
Qed.

Lemma join_no_ws rs :
  Forall valid_range rs ->
  forallb (fun c => negb (is_ws c)) (join [comma] (map rangeToken rs)) = true /\
  map (fun c => if c =? fullwidth_comma then comma else c) (join [comma] (map rangeToken rs)) =
  join [comma] (map rangeToken rs).
Proof.
  intros Hv%join_token_chars. revert Hv. generalize (join [comma] (map rangeToken rs)).
  induction l as [|c s IH]; simpl; [done|]. intros [Hc Hs]%andb_true_iff. destruct (IH Hs) as [-> ->].
  apply orb_true_iff in Hc as [(-> & _ & ->)%token_char_clean| ->%Z.eqb_eq]; done.
Qed.

Lemma tokens_trim rs :
  Forall valid_range rs ->
  base.filter (fun s => s <> []) (map trim (map rangeToken rs)) = map rangeToken rs.
Proof.
  induction 1 as [|r rs Hr Hf IH]; [done|]. simpl.
  destruct (rangeToken_chars r Hr) as [(Hw & _ & _)%token_chars_clean Hn].
  rewrite trim_no_ws by done. rewrite filter_cons_True by done. by rewrite IH.
Qed.

(** The segments of the printed text are the printed tokens. *)
Lemma segmentsOf_join rs :
  Forall valid_range rs -> segmentsOf (join [comma] (map rangeToken rs)) = map rangeToken rs.
Proof.
  intros Hv. unfold segmentsOf. rewrite (proj2 (join_no_ws rs Hv)).
  destruct rs as [|r rs]; [done|]. rewrite split_join; [by apply tokens_trim|done|].
  clear -Hv. induction Hv as [|x l Hx Hf IH]; [done|]. simpl. rewrite IH, andb_true_r.
  by destruct (rangeToken_chars x Hx) as [(_ & ? & _)%token_chars_clean _].
Qed.

Lemma omap_rangeToken rs : Forall valid_range rs -> omap parseToken (map rangeToken rs) = rs.
Proof. induction 1 as [|r rs Hr Hf IH]; csimpl; [done|]. by rewrite parseToken_rangeToken, IH. Qed.

Lemma omap_valid segs : Forall valid_range (omap parseToken segs).
Proof.
  apply Forall_forall. intros r (seg & _ & Hp)%list_elem_of_omap. by eapply parseToken_valid.
Qed.

Lemma covers_omap segs c :
  covers (omap parseToken segs) c <-> exists seg r, seg ∈ segs /\ parseToken seg = Some r /\ in_range c r.
Proof. unfold covers. setoid_rewrite list_elem_of_omap. naive_solver. Qed.

(** The three ways the parser returns: every segment parses, or some do not. *)
Lemma parse_cases input :
  let segs := segmentsOf (trim input) in
  let bad := base.filter (fun s => parseToken s = None) segs in
  let merged := mergeRanges (omap parseToken segs) in
  parseHttpStatusCodeRules (Some input) =
    match bad with
    | [] => mkParsed true merged (map rangeToken merged) (join [comma] (map rangeToken merged)) []
    | _ => mkParsed false [] [] (trim input) bad
    end.
Proof.
  simpl. unfold parseHttpStatusCodeRules. rewrite collectSegments_spec. simpl.
  destruct (trim input) eqn:E; [done|]. by destruct (base.filter _ _).
Qed.

(** ** Properties *)

(** C11.  When the rules are accepted, the ranges are in canonical form (valid
    codes, ordered, with a gap between neighbours), they cover exactly the codes
    that the typed segments denote, and nothing is reported as invalid. *)
Theorem parse_rules_denotation (input : jsstr)
    (Hok : ok (parseHttpStatusCodeRules (Some input)) = true) :
  let p := parseHttpStatusCodeRules (Some input) in
  canonical (ranges p) /\ (forall c, covers (ranges p) c <-> denotes input c) /\ invalidTokens p = [].
Proof.
  revert Hok. rewrite parse_cases. cbv zeta. destruct (base.filter _ _); [|done]. intros _. cbn [ranges invalidTokens normalized].
  destruct (mergeRanges_correct _ (omap_valid (segmentsOf (trim input)))) as [Hc Hcov].
  split; [done|]. split; [|done]. intros c. rewrite Hcov, covers_omap. done.
Qed.

Lemma parse_rules_denotation_witness :
  let p := parseHttpStatusCodeRules (Some (js "500-502, 429,503,401 ,400 - 402")) in
  canonical (ranges p) /\ (forall c, covers (ranges p) c <-> denotes (js "500-502, 429,503,401 ,400 - 402") c)
  /\ invalidTokens p = [] /\ normalized p = js "400-402,429,500-503".
Proof.
  destruct (parse_rules_denotation (js "500-502, 429,503,401 ,400 - 402")) as (H1 & H2 & H3);
    [vm_compute; reflexivity|].
  split; [exact H1|]. split; [exact H2|]. split; [exact H3|]. vm_compute. reflexivity.
Defined.

(** Normalising is a projection: reading the normalised text back gives
    the same result (ranges, tokens and text), so saving and reopening the
    settings never changes the rules. *)
Theorem parse_rules_roundtrip (input : jsstr)
    (Hok : ok (parseHttpStatusCodeRules (Some input)) = true) :
  parseHttpStatusCodeRules (Some (normalized (parseHttpStatusCodeRules (Some input)))) =
  parseHttpStatusCodeRules (Some input).
Proof.
  revert Hok. rewrite (parse_cases input). cbv zeta. destruct (base.filter _ _); [|done]. intros _. cbn [ranges invalidTokens normalized].
  set (merged := mergeRanges _).
  destruct (mergeRanges_correct _ (omap_valid (segmentsOf (trim input)))) as [Hc _]. fold merged in Hc.
  destruct Hc as [Hs Hv]. rewrite parse_cases. cbv zeta.
  rewrite trim_no_ws, segmentsOf_join, omap_rangeToken by (done || by apply join_no_ws).
  rewrite mergeRanges_canonical by done.
  destruct (base.filter _ _) as [|bad l] eqn:E; [done|]. exfalso.
  assert (bad ∈ base.filter (fun s => parseToken s = None) (map rangeToken merged)) as Hb
    by (rewrite E; set_solver).
  apply list_elem_of_filter in Hb as [Hb (r & -> & Hr)%list_elem_of_fmap].
  rewrite Forall_forall in Hv. by rewrite (parseToken_rangeToken r (Hv r Hr)) in Hb.
Qed.

Lemma parse_rules_roundtrip_witness :
  parseHttpStatusCodeRules (Some (normalized (parseHttpStatusCodeRules (Some (js "503,429,500-502"))))) =
  parseHttpStatusCodeRules (Some (js "503,429,500-502")).
Proof. apply (parse_rules_roundtrip (js "503,429,500-502")). vm_compute. reflexivity. Defined.

(** The normalised text is determined by the set of codes: two accepted
    inputs that denote the same codes are normalised to the same text. *)
Theorem parse_rules_canonical_text (a b : jsstr)
    (Ha : ok (parseHttpStatusCodeRules (Some a)) = true)
    (Hb : ok (parseHttpStatusCodeRules (Some b)) = true)
    (Heq : forall c, denotes a c <-> denotes b c) :
  parseHttpStatusCodeRules (Some a) = parseHttpStatusCodeRules (Some b).
Proof.
  revert Ha Hb. rewrite !parse_cases. cbv zeta.
  destruct (base.filter _ (segmentsOf (trim a))); [|done].
  destruct (base.filter _ (segmentsOf (trim b))); [|done]. intros _ _.
  destruct (mergeRanges_correct _ (omap_valid (segmentsOf (trim a)))) as [Hca Hva].
  destruct (mergeRanges_correct _ (omap_valid (segmentsOf (trim b)))) as [Hcb Hvb].
  enough (mergeRanges (omap parseToken (segmentsOf (trim a))) =
          mergeRanges (omap parseToken (segmentsOf (trim b)))) as -> by done.
  apply canonical_unique; [done|done|]. intros c. rewrite Hva, Hvb, !covers_omap. apply Heq.
Qed.

Lemma parse_rules_canonical_text_witness :
  parseHttpStatusCodeRules (Some (js "500,501")) = parseHttpStatusCodeRules (Some (js "501 , 500,500-501")).
Proof.
  apply (parse_rules_canonical_text (js "500,501") (js "501 , 500,500-501"));
    [vm_compute; reflexivity..|].
  intros c. unfold denotes. rewrite <-!covers_omap.
  change (omap parseToken (segmentsOf (trim (js "500,501")))) with [mkRange 500 500; mkRange 501 501].
  change (omap parseToken (segmentsOf (trim (js "501 , 500,500-501"))))
    with [mkRange 501 501; mkRange 500 500; mkRange 500 501].
  unfold covers, in_range. split; intros (r & Hr & Hc); rewrite ?elem_of_cons, ?elem_of_nil in Hr.
  - exists (mkRange 500 501). simpl. split; [set_solver|].
    destruct Hr as [->|[->|[]]]; simpl in *; lia.
  - destruct (decide (c = 500)); [exists (mkRange 500 500)|exists (mkRange 501 501)]; simpl;
      (split; [set_solver|]); destruct Hr as [->|[->|[->|[]]]]; simpl in *; lia.
Defined.

(** The rules are rejected exactly when some segment does not parse; then
    no range is kept, the text is left as typed and the invalid segments are
    reported in their order. *)
Theorem parse_rules_rejects (input : jsstr) :
  let p := parseHttpStatusCodeRules (Some input) in
  (ok p = false <-> exists seg, seg ∈ segmentsOf (trim input) /\ parseToken seg = None) /\
  invalidTokens p = base.filter (fun s => parseToken s = None) (segmentsOf (trim input)) /\
  (ok p = false -> ranges p = [] /\ tokens p = [] /\ normalized p = trim input).
Proof.
  simpl. rewrite parse_cases. simpl. destruct (base.filter _ _) as [|bad l] eqn:E; simpl.
  - split; [|done]. split; [done|]. intros (seg & Hin & Hn).
    assert (seg ∈ base.filter (fun s => parseToken s = None) (segmentsOf (trim input))) as Hf
      by (apply list_elem_of_filter; done).
    rewrite E in Hf. set_solver.
  - split; [|done]. split; [intros _|done].
    assert (bad ∈ base.filter (fun s => parseToken s = None) (segmentsOf (trim input))) as Hf
      by (rewrite E; set_solver).
    apply list_elem_of_filter in Hf as [? ?]. eauto.
Qed.

(** Only the first two parts of a range token count: a token with a third
    part (which the server's parser rejects) is accepted as the range of its
    first two bounds. *)
Theorem parseToken_ignores_third_part (s e : Z) (rest : jsstr)
    (Hs : 100 <= s) (Hse : s <= e) (He : e <= 599)
    (Hrest : forallb (fun c => negb (is_ws c)) rest = true) :
  parseToken (string_of_Z s ++ [minus] ++ string_of_Z e ++ [minus] ++ rest) = Some (mkRange s e).
Proof.
  destruct (string_of_Z_digits s) as (Hd & Hp & Hn); [lia|].
  destruct (string_of_Z_digits e) as (Hd' & Hp' & Hn'); [lia|].
  unfold parseToken.
  assert (forallb (fun c => negb (is_ws c))
    (string_of_Z s ++ [minus] ++ string_of_Z e ++ [minus] ++ rest) = true) as Hw
    by (by rewrite !forallb_app, (digits_no_ws _ Hd), (digits_no_ws _ Hd'), Hrest).
  rewrite trim_no_ws, remove_ws_id by exact Hw. clear Hw.
  assert (includes [minus] (string_of_Z s ++ [minus] ++ string_of_Z e ++ [minus] ++ rest) = true) as ->
    by (apply includes_spec; eauto).
  simpl app. rewrite !split_on_app by (by apply digits_no_char).
  rewrite !isNumber_digits, Hp, Hp' by done. simpl.
  rewrite (proj2 (isValidCode_spec s)), (proj2 (isValidCode_spec e)) by lia.
  destruct (Z.ltb_spec e s); [lia|]. simpl. by destruct (string_of_Z s).
Qed.

Lemma parseToken_ignores_third_part_witness :
  parseToken (js "400-410-500") = Some (mkRange 400 410).
Proof.
  apply (parseToken_ignores_third_part 400 410 (js "500")); [lia|lia|lia|vm_compute; reflexivity].
Defined.
End StatusCodeRules.
