(* ===== verification/ChannelGuards.v ===== *)
(** * Guards on a channel's JSON mappings

    [StatusCodeRiskGuard] models
    [src/web/default/src/features/channels/lib/status-code-risk-guard.ts]: which
    entries of a status code mapping are malformed, and which redirect a code
    that must not be redirected.  [ModelMappingValidation] models
    [src/web/default/src/features/channels/lib/model-mapping-validation.ts]: the
    models list of a channel and its model mapping. *)
From S2P Require Import Prelude JsString JsNumber Json.
Local Open Scope Z_scope.

Module StatusCodeRiskGuard.

Definition NON_REDIRECTABLE_STATUS_CODES : list Z := [504; 524].

(** [/^[1-5]\d{2}$/.test(s)] *)
Definition isStatusCodeText (s : jsstr) : bool :=
  match s with
  | [a; b; c] => (49 <=? a) && (a <=? 53) && is_digit b && is_digit c
  | _ => false
  end.

Definition parseStatusCodeKey (rawKey : jsstr) : option Z :=
  let normalized := trim rawKey in
  if negb (isStatusCodeText normalized) then None else Some (parse_digits normalized).

Definition parseStatusCodeMappingTarget (rawValue : json) : option Z :=
  match rawValue with
  | JNum n =>
      if num_is_integer n then
        let v := num_trunc n in
        if (100 <=? v) && (v <=? 599) then Some v else None
      else None
  | JStr s =>
      let normalized := trim s in
      if negb (isStatusCodeText normalized) then None
      else
        let code := parse_digits normalized in
        if (100 <=? code) && (code <=? 599) then Some code else None
  | _ => None
  end.

(** The entries of the mapping; none for a blank text, a text that is not JSON
    and a JSON value that is not an object. *)
Definition mappingEntries (str : jsstr) : list (jsstr * json) :=
  match trim str with
  | [] => []
  | _ => match json_parse str with
         | None => []
         | Some v => default [] (json_object v)
         end
  end.

Definition right_arrow : Z := 8594.

Definition collectInvalidStatusCodeEntries (statusCodeMappingStr : jsstr) : list jsstr :=
  fold_left
    (fun invalid '(rawKey, rawValue) =>
       match parseStatusCodeKey rawKey, parseStatusCodeMappingTarget rawValue with
       | Some _, Some _ => invalid
       | _, _ => invalid ++ [rawKey ++ [32; right_arrow; 32] ++ json_to_string rawValue]
       end) (mappingEntries statusCodeMappingStr) [].

Definition redirectText (fromCode toCode : Z) : jsstr :=
  string_of_Z fromCode ++ js " -> " ++ string_of_Z toCode.

Definition collectDisallowedStatusCodeRedirects (statusCodeMappingStr : jsstr) : list jsstr :=
  let riskyMappings :=
    fold_left
      (fun risky '(rawFrom, rawTo) =>
         match parseStatusCodeKey rawFrom, parseStatusCodeMappingTarget rawTo with
         | Some fromCode, Some toCode =>
             if negb (set_has fromCode NON_REDIRECTABLE_STATUS_CODES) then risky
             else if fromCode =? toCode then risky
             else risky ++ [redirectText fromCode toCode]
         | _, _ => risky
         end) (mappingEntries statusCodeMappingStr) [] in
  js_sort str_cmp (set_of_list riskyMappings).

Definition collectNewDisallowedStatusCodeRedirects (originalStr currentStr : jsstr) : list jsstr :=
  let currentRisky := collectDisallowedStatusCodeRedirects currentStr in
  match currentRisky with
  | [] => []
  | _ =>
      let originalRiskySet := set_of_list (collectDisallowedStatusCodeRedirects originalStr) in
      base.filter (fun mapping => set_has mapping originalRiskySet = false) currentRisky
  end.

(** ** Lemmas *)

(** The redirect an entry makes when it is risky. *)
Definition entryRisk (e : jsstr * json) : option jsstr :=
  match parseStatusCodeKey e.1, parseStatusCodeMappingTarget e.2 with
  | Some f, Some t =>
      if negb (set_has f NON_REDIRECTABLE_STATUS_CODES) || (f =? t) then None else Some (redirectText f t)
  | _, _ => None
  end.

Lemma risky_fold es acc :
  fold_left
    (fun risky '(rawFrom, rawTo) =>
       match parseStatusCodeKey rawFrom, parseStatusCodeMappingTarget rawTo with
       | Some fromCode, Some toCode =>
           if negb (set_has fromCode NON_REDIRECTABLE_STATUS_CODES) then risky
           else if fromCode =? toCode then risky
           else risky ++ [redirectText fromCode toCode]
       | _, _ => risky
       end) es acc = acc ++ omap entryRisk es.
Proof.
  revert acc. induction es as [|[k v] es IH]; intros acc; csimpl; [by rewrite app_nil_r|].
  rewrite IH. unfold entryRisk; simpl.
  destruct (parseStatusCodeKey k) as [f|], (parseStatusCodeMappingTarget v) as [t|]; try done.
  destruct (negb _); [done|]. simpl. destruct (f =? t); [done|]. by rewrite <-(assoc_L (++)).
Qed.

Lemma disallowed_omap str :
  collectDisallowedStatusCodeRedirects str = js_sort str_cmp (set_of_list (omap entryRisk (mappingEntries str))).
Proof. unfold collectDisallowedStatusCodeRedirects. by rewrite risky_fold. Qed.

Lemma entryRisk_Some e x :
  entryRisk e = Some x <->
  exists f t, parseStatusCodeKey e.1 = Some f /\ parseStatusCodeMappingTarget e.2 = Some t /\
    f ∈ NON_REDIRECTABLE_STATUS_CODES /\ f <> t /\ x = redirectText f t.
Proof.
  unfold entryRisk, set_has. split.
  - destruct (parseStatusCodeKey e.1) as [f|], (parseStatusCodeMappingTarget e.2) as [t|]; try done.
    case_bool_decide; simpl; [|done]. destruct (Z.eqb_spec f t); [done|]. naive_solver.
  - intros (f & t & -> & -> & Hf & Hne & ->). rewrite bool_decide_eq_true_2 by done. simpl.
    by destruct (Z.eqb_spec f t).
Qed.

Lemma invalid_fold es acc :
  fold_left
    (fun invalid '(rawKey, rawValue) =>
       match parseStatusCodeKey rawKey, parseStatusCodeMappingTarget rawValue with
       | Some _, Some _ => invalid
       | _, _ => invalid ++ [rawKey ++ [32; right_arrow; 32] ++ json_to_string rawValue]
       end) es acc = [] <->
  acc = [] /\ forall e, e ∈ es -> is_Some (parseStatusCodeKey e.1) /\ is_Some (parseStatusCodeMappingTarget e.2).
Proof.
  revert acc. induction es as [|[k v] es IH]; intros acc; simpl; [set_solver|].
  rewrite IH. setoid_rewrite elem_of_cons. split.
  - intros [Ha Hes].
    destruct (parseStatusCodeKey k) eqn:E1, (parseStatusCodeMappingTarget v) eqn:E2;
      try (by apply app_eq_nil in Ha as [_ ?]).
    split; [done|]. intros e [->|He]; [simpl; rewrite E1, E2; eauto|auto].
  - intros [-> Hes]. destruct (Hes (k, v) (or_introl eq_refl)) as [[f Hf] [t Ht]].
    simpl in *. rewrite Hf, Ht. split; [done|]. auto.
Qed.

(** ** Properties *)

(** The disallowed redirects are reported exactly: a text is reported iff
    some entry of the mapping has a readable source code that must not be
    redirected and a readable, different target, and it is that redirect; the
    report is sorted and has no duplicates. *)
Theorem disallowed_redirects_exact (str : jsstr) :
  (forall x, x ∈ collectDisallowedStatusCodeRedirects str <->
     exists k v f t, (k, v) ∈ mappingEntries str /\
       parseStatusCodeKey k = Some f /\ parseStatusCodeMappingTarget v = Some t /\
       f ∈ NON_REDIRECTABLE_STATUS_CODES /\ f <> t /\ x = redirectText f t) /\
  NoDup (collectDisallowedStatusCodeRedirects str) /\
  StronglySorted (fun a b => str_cmp a b <= 0) (collectDisallowedStatusCodeRedirects str).
Proof.
  rewrite disallowed_omap. split; [|split].
  - intros x. rewrite elem_of_js_sort, elem_of_set_of_list, list_elem_of_omap.
    setoid_rewrite entryRisk_Some. split.
    + intros ([k v] & Hin & f & t & H). exists k, v, f, t. naive_solver.
    + intros (k & v & f & t & Hin & H). exists (k, v). naive_solver.
  - rewrite js_sort_Permutation. apply NoDup_set_of_list.
  - apply StronglySorted_js_sort, _.
Qed.

(** Saving asks about new risks only: the reported redirects are those of
    the current mapping that the original one did not have, so an unchanged
    mapping is never questioned. *)
Theorem new_disallowed_redirects (original current : jsstr) :
  (forall x, x ∈ collectNewDisallowedStatusCodeRedirects original current <->
     x ∈ collectDisallowedStatusCodeRedirects current /\
     x ∉ collectDisallowedStatusCodeRedirects original) /\
  collectNewDisallowedStatusCodeRedirects current current = [].
Proof.
  assert (forall o c x, x ∈ collectNewDisallowedStatusCodeRedirects o c <->
     x ∈ collectDisallowedStatusCodeRedirects c /\ x ∉ collectDisallowedStatusCodeRedirects o) as Hx.
  { intros o c x. unfold collectNewDisallowedStatusCodeRedirects.
    destruct (collectDisallowedStatusCodeRedirects c) as [|y l]; [set_solver|].
    rewrite list_elem_of_filter. unfold set_has. rewrite bool_decide_eq_false, elem_of_set_of_list. tauto. }
  split; [apply Hx|]. destruct (collectNewDisallowedStatusCodeRedirects current current) as [|x l] eqn:E; [done|].
  assert (x ∈ collectNewDisallowedStatusCodeRedirects current current) as [? ?]%Hx by (rewrite E; set_solver).
  done.
Qed.

(** The two checks are complementary: no entry is reported as invalid iff
    every entry has a readable source and target, and then every redirect of a
    protected code to another code is caught by the risk check. *)
Theorem invalid_entries_complete (str : jsstr) :
  (collectInvalidStatusCodeEntries str = [] <->
   forall e, e ∈ mappingEntries str ->
     is_Some (parseStatusCodeKey e.1) /\ is_Some (parseStatusCodeMappingTarget e.2)) /\
  (collectInvalidStatusCodeEntries str = [] -> collectDisallowedStatusCodeRedirects str = [] ->
   forall k v f, (k, v) ∈ mappingEntries str -> parseStatusCodeKey k = Some f ->
     f ∈ NON_REDIRECTABLE_STATUS_CODES -> parseStatusCodeMappingTarget v = Some f).
Proof.
  unfold collectInvalidStatusCodeEntries. rewrite invalid_fold. split; [naive_solver|].
  intros [_ Hall] Hd k v f Hin Hf Hp. destruct (Hall _ Hin) as [_ [t Ht]]. simpl in Ht.
  destruct (decide (f = t)) as [->|Hne]; [done|]. exfalso.
  assert (redirectText f t ∈ collectDisallowedStatusCodeRedirects str) as Hx; [|rewrite Hd in Hx; set_solver].
  rewrite disallowed_omap, elem_of_js_sort, elem_of_set_of_list, list_elem_of_omap.
  exists (k, v). split; [done|]. apply entryRisk_Some. simpl. eauto 10.
Qed.

Lemma invalid_entries_complete_witness :
  let str := [123] ++ json_quote (js "504") ++ js ":504," ++ json_quote (js "429") ++ js ":503}" in
  collectInvalidStatusCodeEntries str = [] /\ collectDisallowedStatusCodeRedirects str = [] /\
  parseStatusCodeMappingTarget (JNum (num_of_Z 504)) = Some 504.
Proof.
  split; [vm_compute; reflexivity|]. split; [vm_compute; reflexivity|].
  apply (proj2 (invalid_entries_complete
    ([123] ++ json_quote (js "504") ++ js ":504," ++ json_quote (js "429") ++ js ":503}")))
    with (k := js "504"); [vm_compute; reflexivity..| |vm_compute; reflexivity|set_solver].
  change (mappingEntries _) with [(js "429", JNum (num_of_Z 503)); (js "504", JNum (num_of_Z 504))].
  set_solver.
Defined.
End StatusCodeRiskGuard.

Module ModelMappingValidation.

Definition nonempty (s : jsstr) : bool := match s with [] => false | _ => true end.

(** [.map((m) => m.trim()).filter(Boolean)] *)
Definition trimAll (l : list jsstr) : list jsstr := base.filter (fun s => nonempty s = true) (map trim l).

Definition parseModelsString (modelsStr : jsstr) : list jsstr :=
  match modelsStr with
  | [] => []
  | _ => trimAll (split_on comma modelsStr)
  end.

Definition formatModelsArray (models : list jsstr) : jsstr := join [comma] (set_of_list models).

Definition normalizeModelName (model : jsstr) : jsstr := trim model.

(** The entries of [JSON.parse(text)] when it is a plain object. *)
Definition parsedObject (text : jsstr) : option (list (jsstr * json)) :=
  v ← json_parse text; json_object v.

Definition extractMappingSourceModels (modelMapping : jsstr) : list jsstr :=
  match trim modelMapping with
  | [] => []
  | trimmed =>
      match parsedObject trimmed with
      | None => []
      | Some parsed => set_of_list (trimAll (map_keys parsed))
      end
  end.

(** The trimmed text of a string value, [undefined] for any other value. *)
Definition redirectValue (v : json) : option jsstr :=
  match v with
  | JStr s => match trim s with [] => None | t => Some t end
  | _ => None
  end.

Definition extractRedirectModels (modelMapping : jsstr) : list jsstr :=
  match trim modelMapping with
  | [] => []
  | trimmed =>
      match parsedObject trimmed with
      | None => []
      | Some parsed => set_of_list (omap redirectValue (map_values parsed))
      end
  end.

(** The element-wise comparison of two arrays of the same length. *)
Fixpoint modelsDiffer (current initial : list jsstr) : bool :=
  match current, initial with
  | c :: cs, i :: rest => negb (bool_decide (c = i)) || modelsDiffer cs rest
  | _, _ => false
  end.

Definition hasModelConfigChanged (currentModels : list jsstr) (currentModelMapping : jsstr)
    (initialModels : list jsstr) (initialModelMapping : jsstr) : bool :=
  if (length initialModels =? 0)%nat && negb (nonempty initialModelMapping) then true
  else if negb (length currentModels =? length initialModels)%nat then true
  else if modelsDiffer currentModels initialModels then true
  else negb (bool_decide (trim currentModelMapping = trim initialModelMapping)).

Definition findMissingModelsInMapping (modelMapping : jsstr) (currentModels : list jsstr) : list jsstr :=
  match trim modelMapping with
  | [] => []
  | _ =>
      match parsedObject modelMapping with
      | None => []
      | Some parsedMapping =>
          let modelSet := set_of_list (map normalizeModelName currentModels) in
          set_of_list
            (base.filter (fun key => nonempty key && negb (set_has key modelSet) = true)
               (map normalizeModelName (map_keys parsedMapping)))
      end
  end.

Inductive MappingError := NotJson | NotObject | NotStrings.

(** [None] is [{ valid: true }]. *)
Definition validateModelMappingJson (modelMapping : jsstr) : option MappingError :=
  match trim modelMapping with
  | [] => None
  | _ =>
      match json_parse modelMapping with
      | None => Some NotJson
      | Some v =>
          match json_object v with
          | None => Some NotObject
          | Some parsed =>
              if existsb (fun v => match v with JStr _ => false | _ => true end) (map_values parsed)
              then Some NotStrings else None
          end
      end
  end.

Definition findExposedTargetModels (modelMapping : jsstr) (currentModels : list jsstr) : list jsstr :=
  match extractRedirectModels modelMapping with
  | [] => []
  | redirectModels =>
      let modelSet := set_of_list (map normalizeModelName currentModels) in
      base.filter (fun model => set_has (normalizeModelName model) modelSet = true) redirectModels
  end.

Record ModelCategories := mkCategories {
  normalizedCurrentModels : list jsstr;
  normalizedRedirectModels : list jsstr;
  classificationSet : list jsstr;
  redirectOnlySet : list jsstr;
}.

Definition categorizeModelsWithRedirect (currentModels redirectModels : list jsstr) : ModelCategories :=
  let cur := set_of_list (trimAll currentModels) in
  let red := set_of_list (trimAll redirectModels) in
  mkCategories cur red (set_of_list (cur ++ red))
    (set_of_list (base.filter (fun m => set_has m cur = false) red)).

(** ** Lemmas *)

Lemma nonempty_spec s : nonempty s = true <-> s <> [].
Proof. by destruct s. Qed.

Lemma elem_of_trimAll x l : x ∈ trimAll l <-> x <> [] /\ exists y, y ∈ l /\ x = trim y.
Proof.
  unfold trimAll. rewrite list_elem_of_filter, list_elem_of_fmap, nonempty_spec. naive_solver.
Qed.

Lemma trimAll_id l : Forall (fun s => s <> [] /\ trim s = s) l -> trimAll l = l.
Proof.
  unfold trimAll. induction 1 as [|s l [Hs Ht] Hf IH]; [done|]. simpl. rewrite Ht.
  rewrite filter_cons_True by (by apply nonempty_spec). by rewrite IH.
Qed.

Lemma trimAll_trimmed l : Forall (fun s => s <> [] /\ trim s = s) (trimAll l).
Proof.
  apply Forall_forall. intros s (Hs & y & _ & ->)%elem_of_trimAll. by rewrite trim_idemp.
Qed.

Lemma split_on_no_sep c s : Forall (fun w => no_char c w = true) (split_on c s).
Proof.
  induction s as [|x s IH]; simpl; [by repeat constructor|].
  destruct (Z.eqb_spec x c); [by constructor|].
  destruct (split_on c s) as [|w ws]; [by repeat constructor; simpl; destruct (Z.eqb_spec x c)|].
  apply Forall_cons in IH as [Hw Hws]. constructor; [|done].
  unfold no_char in *. simpl. destruct (Z.eqb_spec x c); done.
Qed.

Lemma parseModels_no_comma s : forallb (no_char comma) (parseModelsString s) = true.
Proof.
  apply forallb_forall. intros w Hw%list_elem_of_In.
  destruct s as [|c s]; [set_solver|]. apply elem_of_trimAll in Hw as (_ & y & Hy & ->).
  apply forallb_trim. pose proof (split_on_no_sep comma (c :: s)) as Hf. rewrite Forall_forall in Hf.
  by apply Hf.
Qed.

Lemma modelsDiffer_spec a b : length a = length b -> modelsDiffer a b = false <-> a = b.
Proof.
  revert b. induction a as [|x a IH]; intros [|y b]; simpl; try done. intros [= Hl].
  rewrite orb_false_iff, negb_false_iff, bool_decide_eq_true, IH by done. naive_solver.
Qed.

Lemma formatModels_parse l :
  NoDup l -> Forall (fun s => s <> [] /\ trim s = s) l -> forallb (no_char comma) l = true ->
  parseModelsString (formatModelsArray l) = l.
Proof.
  intros Hd Hf Hc. unfold formatModelsArray. rewrite set_of_list_NoDup by done.
  destruct l as [|w l]; [done|]. unfold parseModelsString.
  rewrite split_join by done. rewrite trimAll_id by done.
  destruct (join [comma] (w :: l)) as [|x s] eqn:E; [exfalso|done].
  apply Forall_cons in Hf as [[Hw _] _]. simpl in E. destruct l; [done|].
  by apply app_eq_nil in E as [? _].
Qed.

Lemma elem_of_findMissing m models x :
  x ∈ findMissingModelsInMapping m models <->
  trim m <> [] /\ x <> [] /\ (exists ps k, parsedObject m = Some ps /\ k ∈ map_keys ps /\ x = trim k) /\
  x ∉ map trim models.
Proof.
  unfold findMissingModelsInMapping. destruct (trim m); [set_solver|].
  destruct (parsedObject m) as [ps|]; [|set_solver].
  rewrite elem_of_set_of_list, list_elem_of_filter, andb_true_iff, negb_true_iff, nonempty_spec.
  unfold set_has. rewrite bool_decide_eq_false, elem_of_set_of_list.
  change (map normalizeModelName models) with (map trim models). split.
  - intros [[Hx Hn] (k & -> & Hk)%list_elem_of_fmap]. split; [done|]. split; [done|]. split; [|done].
    by exists ps, k.
  - intros (_ & Hx & (ps' & k & [= <-] & Hk & ->) & Hn). split; [done|].
    apply list_elem_of_fmap. by exists k.
Qed.

Lemma elem_of_redirects m x :
  x ∈ extractRedirectModels m -> x <> [] /\ trim x = x.
Proof.
  unfold extractRedirectModels. destruct (trim m); [set_solver|].
  destruct (parsedObject _) as [ps|]; [|set_solver].
  rewrite elem_of_set_of_list, list_elem_of_omap. intros (v & _ & Hv). unfold redirectValue in Hv.
  destruct v; try done. destruct (trim s) eqn:E; [done|]. simplify_eq. split; [done|].
  rewrite <-E. apply trim_idemp.
Qed.

Lemma elem_of_exposed m models x :
  x ∈ findExposedTargetModels m models <-> x ∈ extractRedirectModels m /\ x ∈ map trim models.
Proof.
  unfold findExposedTargetModels.
  assert (x ∈ base.filter (fun model => set_has (normalizeModelName model)
            (set_of_list (map normalizeModelName models)) = true) (extractRedirectModels m) <->
          x ∈ extractRedirectModels m /\ x ∈ map trim models) as Hf.
  { rewrite list_elem_of_filter. unfold set_has. rewrite bool_decide_eq_true, elem_of_set_of_list.
    change (map normalizeModelName models) with (map trim models). unfold normalizeModelName. split.
    - intros [Hx Hr]. destruct (elem_of_redirects m x Hr) as [_ He]. by rewrite He in Hx.
    - intros [Hr Hx]. destruct (elem_of_redirects m x Hr) as [_ He]. by rewrite He. }
  destruct (extractRedirectModels m); [set_solver|]. exact Hf.
Qed.

(** ** Properties *)

(** The models text and the models array are two views of one set: parsing
    the formatted array gives the parsed models without duplicates, and
    formatting is stable from then on. *)
Theorem models_text_roundtrip (s : jsstr) :
  parseModelsString (formatModelsArray (parseModelsString s)) = set_of_list (parseModelsString s) /\
  formatModelsArray (parseModelsString (formatModelsArray (parseModelsString s))) =
  formatModelsArray (parseModelsString s).
Proof.
  assert (parseModelsString (formatModelsArray (parseModelsString s)) = set_of_list (parseModelsString s)) as Hp.
  { pose proof (formatModels_parse (set_of_list (parseModelsString s))) as H.
    unfold formatModelsArray in *. rewrite (set_of_list_NoDup (set_of_list _)) in H by apply NoDup_set_of_list.
    apply H; [apply NoDup_set_of_list| |].
    - apply Forall_forall. intros x Hx. rewrite elem_of_set_of_list in Hx.
      destruct s as [|c s]; [set_solver|]. pose proof (trimAll_trimmed (split_on comma (c :: s))) as Ht.
      rewrite Forall_forall in Ht. exact (Ht x Hx).
    - pose proof (parseModels_no_comma s) as Hc. rewrite forallb_forall in *.
      intros x Hx%list_elem_of_In. rewrite elem_of_set_of_list in Hx. by apply Hc, list_elem_of_In. }
  split; [done|]. rewrite Hp. unfold formatModelsArray. by rewrite (set_of_list_NoDup (set_of_list _)) by apply NoDup_set_of_list.
Qed.

(** The missing models are exactly the trimmed source names of the
    mapping that the models list lacks, each once; adding them to the list
    leaves nothing missing. *)
Theorem missing_models_closed (m : jsstr) (models : list jsstr) :
  NoDup (findMissingModelsInMapping m models) /\
  (forall x, x ∈ findMissingModelsInMapping m models <->
     trim m <> [] /\ x <> [] /\
     (exists ps k, parsedObject m = Some ps /\ k ∈ map_keys ps /\ x = trim k) /\ x ∉ map trim models) /\
  findMissingModelsInMapping m (models ++ findMissingModelsInMapping m models) = [].
Proof.
  split; [|split; [intros; apply elem_of_findMissing|]].
  - unfold findMissingModelsInMapping. destruct (trim m); [by constructor|].
    destruct (parsedObject m); [auto with js|by constructor].
  - destruct (findMissingModelsInMapping m (models ++ _)) as [|x l] eqn:E; [done|].
    assert (x ∈ findMissingModelsInMapping m (models ++ findMissingModelsInMapping m models)) as Hx
      by (rewrite E; set_solver).
    apply elem_of_findMissing in Hx as (H1 & H2 & (ps & k & Hp & Hk & ->) & H4).
    rewrite map_app, elem_of_app in H4. exfalso. apply H4. right.
    apply list_elem_of_fmap. exists (trim k). split; [by rewrite trim_idemp|].
    apply elem_of_findMissing. split_and!; eauto.
Qed.

(** The exposed targets are exactly the redirect targets that the models
    list offers; removing them from the list leaves none exposed. *)
Theorem exposed_targets_closed (m : jsstr) (models : list jsstr) :
  (forall x, x ∈ findExposedTargetModels m models <->
     x ∈ extractRedirectModels m /\ x ∈ map trim models) /\
  findExposedTargetModels m
    (base.filter (fun model => trim model ∉ findExposedTargetModels m models) models) = [].
Proof.
  split; [intros; apply elem_of_exposed|].
  destruct (findExposedTargetModels m (base.filter _ models)) as [|x l] eqn:E; [done|].
  assert (x ∈ findExposedTargetModels m
    (base.filter (fun model => trim model ∉ findExposedTargetModels m models) models)) as Hx
    by (rewrite E; set_solver).
  apply elem_of_exposed in Hx as [Hr (y & -> & [Hn Hy]%list_elem_of_filter)%list_elem_of_fmap].
  exfalso. apply Hn, elem_of_exposed. split; [done|]. apply list_elem_of_fmap; eauto.
Qed.

(** A change is reported exactly when it matters: the configuration is
    unchanged iff the channel is not new, the models are the same list and the
    mappings are the same text up to surrounding whitespace. *)
Theorem config_changed_iff (cur : list jsstr) (curMap : jsstr) (ini : list jsstr) (iniMap : jsstr) :
  hasModelConfigChanged cur curMap ini iniMap = false <->
  ~ (ini = [] /\ iniMap = []) /\ cur = ini /\ trim curMap = trim iniMap.
Proof.
  unfold hasModelConfigChanged.
  destruct ((length ini =? 0)%nat && negb (nonempty iniMap)) eqn:E.
  - apply andb_true_iff in E as [El En]. apply Nat.eqb_eq, length_zero_iff_nil in El.
    apply negb_true_iff in En. destruct iniMap; [naive_solver|done].
  - assert (~ (ini = [] /\ iniMap = [])) as Hn by (by intros [-> ->]).
    destruct (Nat.eqb_spec (length cur) (length ini)) as [Hl|Hl]; simpl.
    + pose proof (modelsDiffer_spec cur ini Hl) as Hd. destruct (modelsDiffer cur ini).
      * split; [done|]. intros (_ & Hc & _). by apply Hd in Hc.
      * rewrite negb_false_iff, bool_decide_eq_true. split; [|naive_solver].
        intros Ht. split; [done|]. split; [|done]. by apply Hd.
    + split; [done|]. naive_solver.
Qed.

(** A mapping that passes validation and is not blank is a JSON object all
    of whose values are strings; each failure names its cause. *)
Theorem validate_mapping_spec (m : jsstr) :
  match validateModelMappingJson m with
  | None => trim m = [] \/
      exists ps, parsedObject m = Some ps /\ forall k v, (k, v) ∈ ps -> exists s, v = JStr s
  | Some NotJson => trim m <> [] /\ json_parse m = None
  | Some NotObject => exists v, json_parse m = Some v /\ json_object v = None
  | Some NotStrings =>
      exists ps k v, parsedObject m = Some ps /\ (k, v) ∈ ps /\ forall s, v <> JStr s
  end.
Proof.
  unfold validateModelMappingJson, parsedObject. destruct (trim m) eqn:Et; [by left|].
  destruct (json_parse m) as [v|]; [|done]. simpl.
  destruct (json_object v) as [ps|] eqn:Eo; [|eauto].
  destruct (existsb _ _) eqn:Ex.
  - apply existsb_exists in Ex as (x & Hx%list_elem_of_In & Hs).
    apply list_elem_of_fmap in Hx as ([k w] & -> & Hin). exists ps, k, w. split_and!; [done|done|].
    intros s ->. done.
  - right. exists ps. split; [done|]. intros k w Hin.
    destruct (match w with JStr _ => false | _ => true end) eqn:Ew.
    + exfalso. apply not_true_iff_false in Ex. apply Ex, existsb_exists. exists w. split; [|exact Ew].
      apply list_elem_of_In, list_elem_of_fmap. by exists (k, w).
    + destruct w; try done. eauto.
Qed.

(** The categories shown in the editor partition the names: the
    classification is the union of current and redirect names, and the
    redirect-only names are the redirect names that are not current. *)
Theorem categorize_spec (cur red : list jsstr) :
  let c := categorizeModelsWithRedirect cur red in
  (forall x, x ∈ classificationSet c <-> x ∈ normalizedCurrentModels c \/ x ∈ redirectOnlySet c) /\
  (forall x, x ∈ redirectOnlySet c <-> x ∈ normalizedRedirectModels c /\ x ∉ normalizedCurrentModels c) /\
  (forall x, x ∈ normalizedCurrentModels c <-> x <> [] /\ exists y, y ∈ cur /\ x = trim y) /\
  NoDup (classificationSet c).
Proof.
  simpl. split_and!; [| | |auto with js]; intros x; rewrite ?elem_of_set_of_list, ?elem_of_app,
    ?elem_of_set_of_list, ?elem_of_trimAll, ?list_elem_of_filter; unfold set_has;
    rewrite ?bool_decide_eq_false, ?elem_of_set_of_list, ?elem_of_trimAll; try tauto.
  destruct (decide (x ∈ trimAll cur)) as [Hx|Hx]; rewrite elem_of_trimAll in Hx; tauto.
Qed.
End ModelMappingValidation.
