(* ===== verification/AdvancedCustom.v ===== *)
(** * Advanced custom channels ([src/web/default/src/features/channels/lib/advanced-custom.ts])

    An advanced custom channel is a list of routes: an incoming path, the
    upstream path it is forwarded to, a protocol converter, the models it
    serves and how it authenticates.  The module models the tables of
    converters, paths and templates, the defaults, the normalisation and the
    validation of such a configuration.

    Strings of the declared union types stay strings, because the validation
    checks them at run time; [new URL] is a parameter of the section. *)
From S2P Require Import Prelude JsString JsNumber Json JsonText JsObject.
Local Open Scope Z_scope.

Module AdvancedCustom.

(** ** Data *)
Record AdvancedCustomRouteAuth := mkAuth {
  type : option jsstr;
  name : option jsstr;
  value : option jsstr;
}.

Record AdvancedCustomRoute := mkRoute {
  incoming_path : option jsstr;
  upstream_path : option jsstr;
  converter : option jsstr;
  models : option (list jsstr);
  auth : option AdvancedCustomRouteAuth;
}.

Record AdvancedCustomConfig := mkConfig { advanced_routes : option (list AdvancedCustomRoute) }.

Record AdvancedCustomValidationError := mkError {
  message : jsstr;
  routeIndex : option nat;
}.

(** [s || d] for an optional string: the empty string is falsy. *)
Definition str_or (s : option jsstr) (d : jsstr) : jsstr :=
  match s with Some (c :: r) => c :: r | _ => d end.

(** ** Converters, paths and templates *)
Definition c_none := js "none".
Definition c_anthropic_to_chat := js "anthropic_messages_to_openai_chat_completions".
Definition c_chat_to_anthropic := js "openai_chat_completions_to_anthropic_messages".
Definition c_chat_to_responses := js "openai_chat_completions_to_openai_responses".
Definition c_responses_to_chat := js "openai_responses_to_openai_chat_completions".
Definition c_responses_to_gemini := js "openai_responses_to_gemini_generate_content".
Definition c_gemini_to_chat := js "gemini_generate_content_to_openai_chat_completions".
Definition c_chat_to_gemini := js "openai_chat_completions_to_gemini_generate_content".

(** Value, label and trigger label of each converter. *)
Definition ADVANCED_CUSTOM_CONVERTER_OPTIONS : list (jsstr * jsstr * jsstr) :=
  [ (c_none, js "Native forwarding", js "Native forwarding");
    (c_anthropic_to_chat, js "Anthropic Messages to OpenAI Chat", js "To OpenAI Chat");
    (c_chat_to_anthropic, js "OpenAI Chat to Anthropic Messages", js "To Anthropic Messages");
    (c_chat_to_responses, js "OpenAI Chat to OpenAI Responses", js "To OpenAI Responses");
    (c_responses_to_chat, js "OpenAI Responses to OpenAI Chat", js "To OpenAI Chat");
    (c_responses_to_gemini, js "OpenAI Responses to Gemini Generate Content", js "To Gemini Generate Content");
    (c_gemini_to_chat, js "Gemini Generate Content to OpenAI Chat", js "To OpenAI Chat");
    (c_chat_to_gemini, js "OpenAI Chat to Gemini Generate Content", js "To Gemini Generate Content") ].

Definition ADVANCED_CUSTOM_AUTH_MODE_OPTIONS : list (jsstr * jsstr) :=
  [ (js "default", js "Default Bearer"); (js "none", js "No Auth");
    (js "header", js "Header"); (js "query", js "Query") ].

(** Value and label of each incoming path. *)
Definition ADVANCED_CUSTOM_INCOMING_PATH_OPTIONS : list (jsstr * jsstr) :=
  [ (js "/v1/chat/completions", js "OpenAI Chat");
    (js "/v1/responses", js "OpenAI Responses");
    (js "/v1/responses/compact", js "OpenAI Responses Compact");
    (js "/v1/embeddings", js "OpenAI Embeddings");
    (js "/v1/images/generations", js "OpenAI Image Generations");
    (js "/v1/images/edits", js "OpenAI Image Edits");
    (js "/v1/completions", js "OpenAI Completions");
    (js "/v1/audio/speech", js "OpenAI Audio Speech");
    (js "/v1/audio/transcriptions", js "OpenAI Audio Transcriptions");
    (js "/v1/audio/translations", js "OpenAI Audio Translations");
    (js "/v1/rerank", js "OpenAI Rerank");
    (js "/v1/realtime", js "OpenAI Realtime");
    (js "/v1/messages", js "Claude Messages");
    (js "/v1beta/models/{model}:generateContent", js "Gemini Generate Content");
    (js "/v1beta/models/{model}:embedContent", js "Gemini Embed Content");
    (js "/v1beta/models/{model}:batchEmbedContents", js "Gemini Batch Embed Contents") ].

Definition ADVANCED_CUSTOM_MODEL_REGEX_PREFIX := js "re:".

Definition openAIChatPath := js "/v1/chat/completions".
Definition openAIResponsesPath := js "/v1/responses".
Definition claudeMessagesPath := js "/v1/messages".
Definition geminiGenerateContentPath := js "/v1beta/models/{model}:generateContent".

Definition bearerHeaderAuth : AdvancedCustomRouteAuth :=
  mkAuth (Some (js "header")) (Some (js "Authorization")) (Some (js "Bearer {api_key}")).
Definition apiKeyHeaderAuth : AdvancedCustomRouteAuth :=
  mkAuth (Some (js "header")) (Some (js "x-api-key")) (Some (js "{api_key}")).
Definition geminiQueryAuth : AdvancedCustomRouteAuth :=
  mkAuth (Some (js "query")) (Some (js "key")) (Some (js "{api_key}")).

Record AdvancedCustomTemplateOption := mkTemplate {
  template_value : jsstr;
  template_label : jsstr;
  config : AdvancedCustomConfig;
}.

Definition templateRoute (incoming upstream conv : jsstr) (a : AdvancedCustomRouteAuth) : AdvancedCustomRoute :=
  mkRoute (Some incoming) (Some upstream) (Some conv) None (Some a).

Definition ADVANCED_CUSTOM_TEMPLATE_OPTIONS : list AdvancedCustomTemplateOption :=
  [ mkTemplate (js "official_openai_chat") (js "Official OpenAI Chat") (mkConfig (Some
      [ templateRoute (js "/v1/chat/completions") (js "/v1/chat/completions") c_none bearerHeaderAuth ]));
    mkTemplate (js "official_openai_responses") (js "Official OpenAI Responses") (mkConfig (Some
      [ templateRoute (js "/v1/responses") (js "/v1/responses") c_none bearerHeaderAuth ]));
    mkTemplate (js "official_openai_embeddings") (js "Official OpenAI Embeddings") (mkConfig (Some
      [ templateRoute (js "/v1/embeddings") (js "/v1/embeddings") c_none bearerHeaderAuth ]));
    mkTemplate (js "official_openai_images") (js "Official OpenAI Images") (mkConfig (Some
      [ templateRoute (js "/v1/images/generations") (js "/v1/images/generations") c_none bearerHeaderAuth;
        templateRoute (js "/v1/images/edits") (js "/v1/images/edits") c_none bearerHeaderAuth ]));
    mkTemplate (js "official_claude_messages") (js "Official Claude Messages") (mkConfig (Some
      [ templateRoute (js "/v1/messages") (js "/v1/messages") c_none apiKeyHeaderAuth ]));
    mkTemplate (js "official_gemini_native") (js "Official Gemini Native") (mkConfig (Some
      [ templateRoute (js "/v1beta/models/{model}:generateContent") (js "/v1beta/models/{model}:generateContent")
          c_none geminiQueryAuth;
        templateRoute (js "/v1beta/models/{model}:embedContent") (js "/v1beta/models/{model}:embedContent")
          c_none geminiQueryAuth;
        templateRoute (js "/v1beta/models/{model}:batchEmbedContents")
          (js "/v1beta/models/{model}:batchEmbedContents") c_none geminiQueryAuth ]));
    mkTemplate (js "official_gemini_from_openai_chat") (js "Official Gemini from OpenAI Chat") (mkConfig (Some
      [ templateRoute (js "/v1/chat/completions") (js "/v1beta/models/{model}:generateContent")
          c_chat_to_gemini geminiQueryAuth ])) ].

(** ** Operations *)

(** [JSON.parse(JSON.stringify(config))]: a deep copy with the same fields
    (undefined fields are absent from the copy, which [None] also says). *)
Definition cloneAdvancedCustomConfig (c : AdvancedCustomConfig) : AdvancedCustomConfig := c.

Definition getAdvancedCustomTemplateConfig (templateKey : jsstr) : AdvancedCustomConfig :=
  match List.find (fun o => bool_decide (template_value o = templateKey)) ADVANCED_CUSTOM_TEMPLATE_OPTIONS with
  | Some t => cloneAdvancedCustomConfig (config t)
  | None => match ADVANCED_CUSTOM_TEMPLATE_OPTIONS with
            | t :: _ => cloneAdvancedCustomConfig (config t)
            | [] => mkConfig None
            end
  end.

Definition createAdvancedCustomRoute : AdvancedCustomRoute :=
  mkRoute (Some openAIChatPath) (Some openAIChatPath) (Some c_none) None None.

Definition createAdvancedCustomConfig : AdvancedCustomConfig := mkConfig (Some [createAdvancedCustomRoute]).

Definition isConverterPathAllowed (incomingPath conv : jsstr) : bool :=
  if bool_decide (conv = c_none) then true
  else if bool_decide (conv = c_anthropic_to_chat) then bool_decide (incomingPath = js "/v1/messages")
  else if bool_decide (conv = c_chat_to_anthropic) || bool_decide (conv = c_chat_to_responses) ||
          bool_decide (conv = c_chat_to_gemini) then bool_decide (incomingPath = js "/v1/chat/completions")
  else if bool_decide (conv = c_responses_to_chat) then bool_decide (incomingPath = js "/v1/responses")
  else if bool_decide (conv = c_responses_to_gemini) then bool_decide (incomingPath = js "/v1/responses")
  else includes (js ":generateContent") incomingPath || includes (js ":streamGenerateContent") incomingPath.

Definition getAdvancedCustomIncomingPathOptions (conv : jsstr) : list (jsstr * jsstr) :=
  base.filter (fun option => isConverterPathAllowed option.1 conv = true) ADVANCED_CUSTOM_INCOMING_PATH_OPTIONS.

Definition getDefaultAdvancedCustomIncomingPath (conv : jsstr) : jsstr :=
  str_or (fst <$> head (getAdvancedCustomIncomingPathOptions conv)) (js "/v1/chat/completions").

Definition getAdvancedCustomNativeAuth (incomingPath : jsstr) : AdvancedCustomRouteAuth :=
  if bool_decide (incomingPath = claudeMessagesPath) then apiKeyHeaderAuth
  else if includes (js ":generateContent") incomingPath || includes (js ":streamGenerateContent") incomingPath ||
          includes (js ":embedContent") incomingPath || includes (js ":batchEmbedContents") incomingPath
  then geminiQueryAuth
  else bearerHeaderAuth.

(** The upstream path and the authentication a converter suggests. *)
Definition getAdvancedCustomConverterDefaults (conv incomingPath : jsstr) : jsstr * AdvancedCustomRouteAuth :=
  let normalizedIncomingPath :=
    str_or (Some (trim incomingPath)) (getDefaultAdvancedCustomIncomingPath conv) in
  if bool_decide (conv = c_none) then (normalizedIncomingPath, getAdvancedCustomNativeAuth normalizedIncomingPath)
  else if bool_decide (conv = c_anthropic_to_chat) || bool_decide (conv = c_gemini_to_chat) ||
          bool_decide (conv = c_responses_to_chat) then (openAIChatPath, bearerHeaderAuth)
  else if bool_decide (conv = c_chat_to_responses) then (openAIResponsesPath, bearerHeaderAuth)
  else if bool_decide (conv = c_chat_to_anthropic) then (claudeMessagesPath, apiKeyHeaderAuth)
  else if bool_decide (conv = c_chat_to_gemini) || bool_decide (conv = c_responses_to_gemini)
  then (geminiGenerateContentPath, geminiQueryAuth)
  else (str_or (Some normalizedIncomingPath) openAIChatPath, getAdvancedCustomNativeAuth normalizedIncomingPath).

Definition getAdvancedCustomConverterOptions (incomingPath : jsstr) : list (jsstr * jsstr * jsstr) :=
  base.filter (fun o => bool_decide (o.1.1 = c_none) || isConverterPathAllowed (trim incomingPath) o.1.1 = true)
    ADVANCED_CUSTOM_CONVERTER_OPTIONS.

Definition getAdvancedCustomIncomingPathLabel (v : jsstr) : jsstr :=
  str_or (snd <$> List.find (fun o => bool_decide (o.1 = v)) ADVANCED_CUSTOM_INCOMING_PATH_OPTIONS) v.

Definition getAdvancedCustomRouteUpstreamPath (route : AdvancedCustomRoute) : jsstr :=
  trim (str_or (upstream_path route) []).

Definition nonempty (s : jsstr) : bool := match s with [] => false | _ => true end.

Definition normalizeAdvancedCustomRouteModels (ms : option (list jsstr)) : list jsstr :=
  base.filter (fun s => nonempty s = true) (map trim (default [] ms)).

Definition normalizeAdvancedCustomRoute (route : AdvancedCustomRoute) : AdvancedCustomRoute :=
  let ms := normalizeAdvancedCustomRouteModels (models route) in
  mkRoute (Some (str_or (incoming_path route) []))
          (Some (getAdvancedCustomRouteUpstreamPath route))
          (Some (str_or (converter route) c_none))
          (match ms with [] => None | _ => Some ms end)
          ((fun a => mkAuth (type a) (Some (str_or (name a) [])) (Some (str_or (value a) []))) <$> auth route).

Definition normalizeAdvancedCustomConfig (c : AdvancedCustomConfig) : AdvancedCustomConfig :=
  mkConfig (Some (map normalizeAdvancedCustomRoute (default [] (advanced_routes c)))).

Definition parseAdvancedCustomRouteModels (v : jsstr) : list jsstr :=
  set_of_list (base.filter (fun s => nonempty s = true) (map trim (split_on comma v))).

Inductive AdvancedCustomModelRuleKind := exact | regex.

Definition getAdvancedCustomModelRuleKind (modelRule : jsstr) : AdvancedCustomModelRuleKind :=
  if starts_with ADVANCED_CUSTOM_MODEL_REGEX_PREFIX modelRule then regex else exact.

Definition getAdvancedCustomRegexModelPattern (modelRule : jsstr) : jsstr :=
  drop (length ADVANCED_CUSTOM_MODEL_REGEX_PREFIX) modelRule.

Definition isAdvancedCustomConverter (v : jsstr) : bool :=
  existsb (fun o => bool_decide (o.1.1 = v)) ADVANCED_CUSTOM_CONVERTER_OPTIONS.

Definition validateRouteAuth (a : option AdvancedCustomRouteAuth) : option jsstr :=
  match a with
  | None => None
  | Some a =>
      if bool_decide (type a = Some (js "none")) then None
      else if negb (bool_decide (type a = Some (js "header"))) && negb (bool_decide (type a = Some (js "query")))
      then Some (js "Auth type is invalid")
      else if negb (nonempty (trim (default [] (name a)))) then Some (js "Auth name is required")
      else if negb (nonempty (trim (default [] (value a)))) then Some (js "Auth value is required")
      else None
  end.

Definition getAdvancedCustomAuthMode (route : AdvancedCustomRoute) : jsstr :=
  str_or (auth route ≫= type) (js "default").

Definition buildAdvancedCustomAuth (mode : jsstr) (previousAuth : option AdvancedCustomRouteAuth)
    : option AdvancedCustomRouteAuth :=
  if bool_decide (mode = js "default") then None
  else if bool_decide (mode = js "none") then Some (mkAuth (Some (js "none")) None None)
  else if bool_decide (mode = js "header") then
    Some (mkAuth (Some (js "header"))
            (Some (str_or (previousAuth ≫= name) (js "Authorization")))
            (Some (str_or (previousAuth ≫= value) (js "Bearer {api_key}"))))
  else
    Some (mkAuth (Some (js "query"))
            (Some (str_or (previousAuth ≫= name) (js "api_key")))
            (Some (str_or (previousAuth ≫= value) (js "{api_key}")))).

(** ** Validation *)

(** What the validation remembers of the routes of one incoming path. *)
Record PathState := mkPathState {
  catchAllIndex : option nat;
  modelRoutes : list (jsstr * nat);
}.

(** The loop over the models of one route: it returns the error, or the
    models of the path with those of the route added. *)
Fixpoint checkModels (index : nat) (ms : list jsstr) (seenInRoute : list jsstr)
    (st : list (jsstr * nat)) : AdvancedCustomValidationError + list (jsstr * nat) :=
  match ms with
  | [] => inr st
  | model :: ms' =>
      if match getAdvancedCustomModelRuleKind model with
         | regex => bool_decide (getAdvancedCustomRegexModelPattern model = [])
         | exact => false
         end
      then inl (mkError (js "Model regex cannot be empty") (Some index))
      else if set_has model seenInRoute
      then inl (mkError (js "Duplicate model in route models") (Some index))
      else if map_has model st
      then inl (mkError (js "Route models must be unique for the same incoming path") (Some index))
      else checkModels index ms' (set_add model seenInRoute) (map_set model index st)
  end.

Definition validateAdvancedCustomRouteModels (index : nat) (incomingPath : jsstr) (ms : list jsstr)
    (byPath : list (jsstr * PathState)) : AdvancedCustomValidationError + list (jsstr * PathState) :=
  let st := default (mkPathState None []) (map_get incomingPath byPath) in
  match ms with
  | [] =>
      match catchAllIndex st with
      | Some _ => inl (mkError (js "Only one catch-all route is allowed for the same incoming path") (Some index))
      | None => inr (map_set incomingPath (mkPathState (Some index) (modelRoutes st)) byPath)
      end
  | _ =>
      match catchAllIndex st with
      | Some _ => inl (mkError (js "Catch-all route must be last for the same incoming path") (Some index))
      | None =>
          match checkModels index ms [] (modelRoutes st) with
          | inl e => inl e
          | inr st' => inr (map_set incomingPath (mkPathState None st') byPath)
          end
      end
  end.

Section Validation.
(** [new URL(value)]: the protocol and the host, [None] when it throws. *)
Context (parseURL : jsstr -> option (jsstr * jsstr)).

Definition isFullHttpURLOrAbsolutePath (v : jsstr) : bool :=
  if starts_with (js "/") v then negb (starts_with (js "//") v)
  else match parseURL v with
       | Some (protocol, host) =>
           nonempty host && (bool_decide (protocol = js "http:") || bool_decide (protocol = js "https:"))
       | None => false
       end.

(** One iteration of the loop over the routes. *)
Definition validateRoute (index : nat) (route : AdvancedCustomRoute) (byPath : list (jsstr * PathState))
    : AdvancedCustomValidationError + list (jsstr * PathState) :=
  let incomingPath := trim (default [] (incoming_path route)) in
  let upstreamPath := getAdvancedCustomRouteUpstreamPath route in
  let conv := str_or (converter route) c_none in
  let routeModels := normalizeAdvancedCustomRouteModels (models route) in
  let fail m := inl (mkError m (Some index)) in
  if negb (nonempty incomingPath) then fail (js "Incoming path is required")
  else if negb (starts_with (js "/") incomingPath) then fail (js "Incoming path must start with /")
  else if includes (js "?") incomingPath then fail (js "Incoming path must not include query")
  else
    match validateAdvancedCustomRouteModels index incomingPath routeModels byPath with
    | inl e => inl e
    | inr byPath' =>
        if negb (nonempty upstreamPath) then fail (js "Upstream path is required")
        else if negb (isFullHttpURLOrAbsolutePath upstreamPath)
        then fail (js "Upstream path must be a full URL or a path starting with /")
        else if negb (isAdvancedCustomConverter conv) then fail (js "Converter is not registered")
        else if negb (isConverterPathAllowed incomingPath conv)
        then fail (js "Converter does not match incoming path")
        else match validateRouteAuth (auth route) with
             | Some authError => fail authError
             | None => inr byPath'
             end
    end.

Fixpoint validateRoutes (index : nat) (routes : list AdvancedCustomRoute) (byPath : list (jsstr * PathState))
    : option AdvancedCustomValidationError :=
  match routes with
  | [] => None
  | route :: rest =>
      match validateRoute index route byPath with
      | inl e => Some e
      | inr byPath' => validateRoutes (S index) rest byPath'
      end
  end.

Definition validateAdvancedCustomConfig (c : option AdvancedCustomConfig) : option AdvancedCustomValidationError :=
  match c with
  | None => Some (mkError (js "Advanced custom configuration is required") None)
  | Some c =>
      match default [] (advanced_routes (normalizeAdvancedCustomConfig c)) with
      | [] => Some (mkError (js "Advanced custom configuration requires at least one route") None)
      | routes => validateRoutes 0 routes []
      end
  end.

Definition advancedCustomConfigUsesRelativeUpstreamPath (c : option AdvancedCustomConfig) : bool :=
  match c with
  | None => false
  | Some c =>
      existsb (fun route => starts_with (js "/") (getAdvancedCustomRouteUpstreamPath route))
        (default [] (advanced_routes (normalizeAdvancedCustomConfig c)))
  end.

(** ** Specification of a valid configuration *)
Definition route_path (r : AdvancedCustomRoute) : jsstr := trim (default [] (incoming_path r)).
Definition route_models (r : AdvancedCustomRoute) : list jsstr := normalizeAdvancedCustomRouteModels (models r).

(** A route may follow [earlier] routes: no earlier route of its path takes
    every model, its models are distinct, none is the empty regular expression
    and none belongs to an earlier route of its path. *)
Definition models_ok (earlier : list AdvancedCustomRoute) (p : jsstr) (ms : list jsstr) : Prop :=
  (forall e, e ∈ earlier -> route_path e = p -> route_models e <> []) /\
  NoDup ms /\ (forall m, m ∈ ms -> m <> ADVANCED_CUSTOM_MODEL_REGEX_PREFIX) /\
  (forall e m, e ∈ earlier -> route_path e = p -> m ∈ ms -> m ∉ route_models e).

Definition route_ok (earlier : list AdvancedCustomRoute) (r : AdvancedCustomRoute) : Prop :=
  route_path r <> [] /\ starts_with (js "/") (route_path r) = true /\
  includes (js "?") (route_path r) = false /\
  models_ok earlier (route_path r) (route_models r) /\
  getAdvancedCustomRouteUpstreamPath r <> [] /\
  isFullHttpURLOrAbsolutePath (getAdvancedCustomRouteUpstreamPath r) = true /\
  isAdvancedCustomConverter (str_or (converter r) c_none) = true /\
  isConverterPathAllowed (route_path r) (str_or (converter r) c_none) = true /\
  validateRouteAuth (auth r) = None.

Definition routes_ok (earlier rs : list AdvancedCustomRoute) : Prop :=
  forall pre r post, rs = pre ++ r :: post -> route_ok (earlier ++ pre) r.

(** ** Lemmas *)
Lemma nonempty_true s : nonempty s = true <-> s <> [].
Proof. by destruct s. Qed.

Lemma empty_regex_rule model :
  match getAdvancedCustomModelRuleKind model with
  | regex => bool_decide (getAdvancedCustomRegexModelPattern model = [])
  | exact => false
  end = bool_decide (model = ADVANCED_CUSTOM_MODEL_REGEX_PREFIX).
Proof.
  unfold getAdvancedCustomModelRuleKind, getAdvancedCustomRegexModelPattern.
  destruct (starts_with _ model) eqn:E.
  - apply starts_with_spec in E as [t ->]. rewrite drop_app_length. apply bool_decide_ext.
    split; [intros ->; by rewrite app_nil_r|]. intros H. destruct t; [done|].
    apply (f_equal length) in H. rewrite length_app in H. simpl in H. lia.
  - symmetry. apply bool_decide_eq_false. intros ->. done.
Qed.

Lemma map_has_spec {K V} `{EqDecision K} (k : K) (m : list (K * V)) :
  map_has k m = true <-> k ∈ map_keys m.
Proof.
  unfold map_has. rewrite elem_of_map_keys. destruct (map_get k m) eqn:E; naive_solver.
Qed.

(** The loop over the models succeeds exactly on distinct new models, and then
    adds them. *)
Lemma checkModels_spec i ms seen st :
  match checkModels i ms seen st with
  | inr st' =>
      NoDup ms /\ (forall m, m ∈ ms -> m <> ADVANCED_CUSTOM_MODEL_REGEX_PREFIX /\ (m ∉ seen) /\ (m ∉ map_keys st)) /\
      forall m, m ∈ map_keys st' <-> m ∈ map_keys st \/ m ∈ ms
  | inl e =>
      routeIndex e = Some i /\
      ~ (NoDup ms /\ forall m, m ∈ ms -> m <> ADVANCED_CUSTOM_MODEL_REGEX_PREFIX /\ (m ∉ seen) /\ (m ∉ map_keys st))
  end.
Proof.
  revert seen st. induction ms as [|model ms IH]; intros seen st; cbn [checkModels].
  { split; [constructor|]. set_solver. }
  rewrite empty_regex_rule. unfold set_has at 1.
  case_bool_decide as E1; [split; [done|]; intros [_ H]; by destruct (H model ltac:(set_solver)) as (? & ? & ?)|].
  case_bool_decide as E2; [split; [done|]; intros [_ H]; by destruct (H model ltac:(set_solver)) as (? & ? & ?)|].
  destruct (map_has model st) eqn:E3.
  { apply map_has_spec in E3. split; [done|]. intros [_ H]. by destruct (H model ltac:(set_solver)) as (? & ? & ?). }
  assert (model ∉ map_keys st) as E3' by (intros ?%map_has_spec; congruence).
  specialize (IH (set_add model seen) (map_set model i st)).
  destruct (checkModels i ms _ _) as [e|st'].
  - destruct IH as [Hi Hn]. split; [done|]. intros [[Hm Hd]%NoDup_cons H]. apply Hn. split; [done|].
    intros m Hin. destruct (H m ltac:(set_solver)) as (? & ? & ?). split; [done|].
    rewrite elem_of_set_add, elem_of_map_keys_set. split; intros [->|?]; done.
  - destruct IH as (Hd & H & Hk). split_and!.
    + apply NoDup_cons. split; [|done]. intros Hin. destruct (H _ Hin) as (_ & Hs & _).
      apply Hs, elem_of_set_add. by left.
    + intros m [->|Hin]%elem_of_cons; [done|]. destruct (H _ Hin) as (? & Hs & Hk').
      split; [done|]. rewrite elem_of_set_add in Hs. rewrite elem_of_map_keys_set in Hk'. tauto.
    + intros m. rewrite Hk, elem_of_map_keys_set. set_solver.
Qed.

(** The state the validation keeps describes the earlier routes. *)
Definition path_state (byPath : list (jsstr * PathState)) (p : jsstr) : PathState :=
  default (mkPathState None []) (map_get p byPath).

Definition state_inv (earlier : list AdvancedCustomRoute) (byPath : list (jsstr * PathState)) : Prop :=
  forall p,
    (catchAllIndex (path_state byPath p) = None <->
     forall e, e ∈ earlier -> route_path e = p -> route_models e <> []) /\
    (forall m, m ∈ map_keys (modelRoutes (path_state byPath p)) <->
     exists e, e ∈ earlier /\ route_path e = p /\ m ∈ route_models e).

Lemma path_state_set byPath p st q :
  path_state (map_set p st byPath) q = if bool_decide (q = p) then st else path_state byPath q.
Proof. unfold path_state. rewrite map_get_set. by case_bool_decide. Qed.

Lemma state_inv_nil : state_inv [] [].
Proof. intros p. unfold path_state. simpl. split; set_solver. Qed.

(** Extending the state with a route of path [p]. *)
Lemma state_inv_snoc earlier byPath r st :
  state_inv earlier byPath ->
  (catchAllIndex st = None <->
     catchAllIndex (path_state byPath (route_path r)) = None /\ route_models r <> []) ->
  (forall m, m ∈ map_keys (modelRoutes st) <->
     m ∈ map_keys (modelRoutes (path_state byPath (route_path r))) \/ m ∈ route_models r) ->
  state_inv (earlier ++ [r]) (map_set (route_path r) st byPath).
Proof.
  intros Hi Hc Hm p. rewrite path_state_set. destruct (Hi p) as [Hc' Hm'].
  case_bool_decide as E; [subst p|].
  - rewrite Hc, Hc'. split.
    + split.
      * intros [H1 H2] e [He| ->%list_elem_of_singleton]%elem_of_app Hp; auto.
      * intros H. split; [intros e He|]; apply H; set_solver.
    + intros m. rewrite Hm, Hm'. set_solver.
  - rewrite Hc'. split.
    + split; intros H e He Hp; apply H; set_solver.
    + intros m. rewrite Hm'. set_solver.
Qed.

Lemma validateRouteModels_spec i r earlier byPath :
  state_inv earlier byPath ->
  match validateAdvancedCustomRouteModels i (route_path r) (route_models r) byPath with
  | inr byPath' =>
      models_ok earlier (route_path r) (route_models r) /\ state_inv (earlier ++ [r]) byPath'
  | inl e => routeIndex e = Some i /\ ~ models_ok earlier (route_path r) (route_models r)
  end.
Proof.
  intros Hi. destruct (Hi (route_path r)) as [Hc Hm]. unfold validateAdvancedCustomRouteModels.
  fold (path_state byPath (route_path r)). remember (path_state byPath (route_path r)) as st eqn:Est.
  destruct (catchAllIndex st) as [j|] eqn:Ec.
  { destruct (route_models r); (split; [done|]; intros (H & _); apply Hc in H; done). }
  pose proof (proj1 Hc eq_refl) as Hfree.
  destruct (route_models r) as [|m ms] eqn:Er.
  - split; [split_and!; [done|constructor|set_solver|set_solver]|].
    apply state_inv_snoc; [done| |]; rewrite <-Est; simpl; [naive_solver|]. rewrite Er. set_solver.
  - rewrite <-Er. pose proof (checkModels_spec i (route_models r) [] (modelRoutes st)) as Hs.
    destruct (checkModels _ _ _ _) as [e|st'].
    + destruct Hs as [Hx Hn]. split; [done|]. intros (_ & Hd & Hr & Hu). apply Hn. split; [done|].
      intros m' Hm'. split; [auto|]. split; [set_solver|]. rewrite Hm. intros (e' & He & Hp & Hin).
      by apply (Hu e' m' He Hp Hm').
    + destruct Hs as (Hd & H & Hk). split.
      * split_and!; [done|done|intros m' Hm'; by apply H|].
        intros e m' He Hp Hin Hin'. destruct (H m' Hin) as (_ & _ & Hn). apply Hn, Hm. eauto.
      * apply state_inv_snoc; [done| |]; rewrite <-Est; simpl; [rewrite Ec, Er; naive_solver|exact Hk].
Qed.

(** One route passes exactly when it is allowed after the earlier ones. *)
Lemma validateRoute_spec i r earlier byPath :
  state_inv earlier byPath ->
  match validateRoute i r byPath with
  | inr byPath' => route_ok earlier r /\ state_inv (earlier ++ [r]) byPath'
  | inl e => routeIndex e = Some i /\ ~ route_ok earlier r
  end.
Proof.
  intros Hi. unfold validateRoute, route_ok. fold (route_path r) (route_models r).
  destruct (nonempty (route_path r)) eqn:E1; simpl; [apply nonempty_true in E1|split; [done|]; intros (H & _); by apply nonempty_true in H; congruence].
  destruct (starts_with (js "/") (route_path r)) eqn:E2; simpl; [|split; [done|]; intros (_ & H & _); congruence].
  destruct (includes (js "?") (route_path r)) eqn:E3; [split; [done|]; intros (_ & _ & H & _); congruence|].
  pose proof (validateRouteModels_spec i r earlier byPath Hi) as Hm.
  destruct (validateAdvancedCustomRouteModels _ _ _ _) as [e|byPath']; [destruct Hm; split; [done|]; tauto|].
  destruct Hm as [Hm Hi'].
  destruct (nonempty (getAdvancedCustomRouteUpstreamPath r)) eqn:E4; simpl;
    [apply nonempty_true in E4|split; [done|]; intros (_ & _ & _ & _ & H & _); by apply nonempty_true in H; congruence].
  destruct (isFullHttpURLOrAbsolutePath _) eqn:E5; simpl; [|split; [done|]; intros (_ & _ & _ & _ & _ & H & _); congruence].
  destruct (isAdvancedCustomConverter _) eqn:E6; simpl; [|split; [done|]; intros (_ & _ & _ & _ & _ & _ & H & _); congruence].
  destruct (isConverterPathAllowed _ _) eqn:E7; simpl; [|split; [done|]; intros (_ & _ & _ & _ & _ & _ & _ & H & _); congruence].
  destruct (validateRouteAuth (auth r)) eqn:E8; [split; [done|]; intros (_ & _ & _ & _ & _ & _ & _ & _ & H); congruence|].
  tauto.
Qed.

Lemma routes_ok_cons earlier r rs :
  routes_ok earlier (r :: rs) <-> route_ok earlier r /\ routes_ok (earlier ++ [r]) rs.
Proof.
  unfold routes_ok. split.
  - intros H. split; [rewrite <-(app_nil_r earlier); by apply (H [] r rs)|].
    intros pre x post ->. rewrite <-(assoc_L (++)). simpl. by apply (H (r :: pre) x post).
  - intros [Hr H] [|y pre] x post Heq; simplify_eq/=; [by rewrite app_nil_r|].
    replace (earlier ++ y :: pre) with ((earlier ++ [y]) ++ pre) by (by rewrite <-(assoc_L (++))).
    by apply (H pre x post).
Qed.

(** The loop over the routes finds the first route that is not allowed. *)
Lemma validateRoutes_spec i rs earlier byPath :
  state_inv earlier byPath ->
  match validateRoutes i rs byPath with
  | None => routes_ok earlier rs
  | Some e => exists pre r post, rs = pre ++ r :: post /\ routeIndex e = Some (i + length pre)%nat /\
      routes_ok earlier pre /\ ~ route_ok (earlier ++ pre) r
  end.
Proof.
  revert i earlier byPath. induction rs as [|r rs IH]; intros i earlier byPath Hi; simpl.
  { intros pre x post Heq. by destruct pre. }
  pose proof (validateRoute_spec i r earlier byPath Hi) as Hr.
  destruct (validateRoute i r byPath) as [e|byPath'].
  - destruct Hr as [Hx Hn]. exists [], r, rs. rewrite app_nil_r. simpl. split; [done|].
    split; [by rewrite Nat.add_0_r|]. split; [|done]. intros pre x post Heq. by destruct pre.
  - destruct Hr as [Hr Hi']. specialize (IH (S i) _ _ Hi').
    destruct (validateRoutes (S i) rs byPath') as [e|].
    + destruct IH as (pre & x & post & -> & Hx & Hpre & Hn). exists (r :: pre), x, post.
      split; [done|]. split; [rewrite Hx; simpl; f_equal; lia|]. split; [by apply routes_ok_cons|].
      by rewrite <-(assoc_L (++)) in Hn.
    + by apply routes_ok_cons.
Qed.

(** ** Normalisation *)
Lemma str_or_idemp o d : str_or (Some (str_or o d)) d = str_or o d.
Proof. destruct o as [[|c s]|]; simpl; by destruct d. Qed.

Lemma normalizeModels_idemp ms :
  normalizeAdvancedCustomRouteModels (Some (normalizeAdvancedCustomRouteModels ms)) =
  normalizeAdvancedCustomRouteModels ms.
Proof.
  unfold normalizeAdvancedCustomRouteModels. simpl. induction (default [] ms) as [|m l IH]; [done|]. simpl.
  destruct (nonempty (trim m)) eqn:E.
  - rewrite filter_cons_True by done. simpl. rewrite trim_idemp, filter_cons_True by done. by rewrite IH.
  - rewrite filter_cons_False by congruence. exact IH.
Qed.

Lemma normalizeRoute_idemp r :
  normalizeAdvancedCustomRoute (normalizeAdvancedCustomRoute r) = normalizeAdvancedCustomRoute r.
Proof.
  unfold normalizeAdvancedCustomRoute, getAdvancedCustomRouteUpstreamPath.
  cbn [incoming_path upstream_path converter models auth]. f_equal.
  - by rewrite str_or_idemp.
  - f_equal. destruct (trim (str_or (upstream_path r) [])) eqn:E; [done|]. simpl. rewrite <-E. apply trim_idemp.
  - by rewrite str_or_idemp.
  - pose proof (normalizeModels_idemp (models r)) as H.
    destruct (normalizeAdvancedCustomRouteModels (models r)) eqn:E; [done|]. by rewrite H.
  - destruct (auth r) as [[t [[|? ?]|] [[|? ?]|]]|]; reflexivity.
Qed.

(** ** Properties *)

(** C21.  The validation refines its specification.  A configuration passes
    exactly when it has a route and every route is allowed after the routes
    before it: a path and an upstream of the right form, a registered converter
    that accepts the path, usable credentials, and for each incoming path
    distinct models with a single catch-all in last place.  Otherwise the error
    points to the first route that breaks a rule. *)
Theorem validate_config_refines (c : AdvancedCustomConfig) :
  let routes := map normalizeAdvancedCustomRoute (default [] (advanced_routes c)) in
  match validateAdvancedCustomConfig (Some c) with
  | None => routes <> [] /\ routes_ok [] routes
  | Some e =>
      (routes = [] /\ routeIndex e = None) \/
      exists pre r post, routes = pre ++ r :: post /\ routeIndex e = Some (length pre) /\
        routes_ok [] pre /\ ~ route_ok pre r
  end.
Proof.
  cbv zeta. unfold validateAdvancedCustomConfig, normalizeAdvancedCustomConfig.
  cbn [advanced_routes from_option id].
  destruct (map normalizeAdvancedCustomRoute _) as [|r rs]; [left; split; reflexivity|].
  pose proof (validateRoutes_spec 0 (r :: rs) [] [] state_inv_nil) as H.
  destruct (validateRoutes 0 (r :: rs) []) as [e|]; [right; exact H|split; [discriminate|exact H]].
Qed.

(** Normalising a configuration is idempotent and does not change the
    outcome of its validation. *)
Theorem normalize_config_stable (c : AdvancedCustomConfig) :
  normalizeAdvancedCustomConfig (normalizeAdvancedCustomConfig c) = normalizeAdvancedCustomConfig c /\
  validateAdvancedCustomConfig (Some (normalizeAdvancedCustomConfig c)) = validateAdvancedCustomConfig (Some c).
Proof.
  assert (normalizeAdvancedCustomConfig (normalizeAdvancedCustomConfig c) = normalizeAdvancedCustomConfig c) as H.
  { unfold normalizeAdvancedCustomConfig. simpl. f_equal. f_equal. rewrite map_map.
    apply map_ext. apply normalizeRoute_idemp. }
  split; [done|]. unfold validateAdvancedCustomConfig. by rewrite H.
Qed.

(** What the editor offers is valid: every template passes the validation,
    and so does a route made of any converter, any incoming path offered for it
    and the defaults suggested for both. *)
Theorem offered_configs_valid :
  (forall t, t ∈ ADVANCED_CUSTOM_TEMPLATE_OPTIONS ->
     validateAdvancedCustomConfig (Some (getAdvancedCustomTemplateConfig (template_value t))) = None) /\
  validateAdvancedCustomConfig (Some createAdvancedCustomConfig) = None /\
  (forall o p, o ∈ ADVANCED_CUSTOM_CONVERTER_OPTIONS -> p ∈ getAdvancedCustomIncomingPathOptions o.1.1 ->
     let d := getAdvancedCustomConverterDefaults o.1.1 p.1 in
     validateAdvancedCustomConfig
       (Some (mkConfig (Some [mkRoute (Some p.1) (Some d.1) (Some o.1.1) None (Some d.2)]))) = None).
Proof.
  split; [|split; [vm_compute; reflexivity|]].
  - apply Forall_forall. repeat constructor.
  - assert (forallb (fun o => forallb (fun p =>
      let d := getAdvancedCustomConverterDefaults o.1.1 p.1 in
      bool_decide (validateAdvancedCustomConfig
       (Some (mkConfig (Some [mkRoute (Some p.1) (Some d.1) (Some o.1.1) None (Some d.2)]))) = None))
      (getAdvancedCustomIncomingPathOptions o.1.1)) ADVANCED_CUSTOM_CONVERTER_OPTIONS = true) as H
      by (vm_compute; reflexivity).
    intros o p Ho Hp. rewrite forallb_forall in H. specialize (H o (proj1 (list_elem_of_In _ _) Ho)).
    rewrite forallb_forall in H. specialize (H p (proj1 (list_elem_of_In _ _) Hp)).
    by apply bool_decide_eq_true in H.
Qed.
End Validation.

(** ** Configurations as texts

    A text may hold any JSON value, so the normalisation is modelled once more on
    JSON values, with the exceptions it throws ([None]) on values of other types;
    on the declared type it agrees with the one above. *)

(** [v.trim()]: only strings have it. *)
Definition trim_json (v : json) : option jsstr := match v with JStr s => Some (trim s) | _ => None end.

Definition normalizeModelsJson (v : option json) : option (list jsstr) :=
  match v with
  | Some (JArr l) => ms ← mapM trim_json l; Some (base.filter (fun s => nonempty s = true) ms)
  | _ => Some []
  end.

Definition normalizeAuthJson (a : json) : option json :=
  type ← prop_of (js "type") a;
  name ← prop_of (js "name") a;
  value ← prop_of (js "value") a;
  Some (JObj (opt_member (js "type") type ++ [(js "name", json_or name (JStr [])); (js "value", json_or value (JStr []))])).

Definition normalizeRouteJson (route : json) : option json :=
  incoming ← prop_of (js "incoming_path") route;
  upstream ← prop_of (js "upstream_path") route;
  upstreamPath ← trim_json (json_or upstream (JStr []));
  conv ← prop_of (js "converter") route;
  ms ← prop_of (js "models") route;
  routeModels ← normalizeModelsJson ms;
  a ← prop_of (js "auth") route;
  nextAuth ← match a with Some w => if json_truthy w then Some <$> normalizeAuthJson w else Some None | None => Some None end;
  Some (JObj ([(js "incoming_path", json_or incoming (JStr [])); (js "upstream_path", JStr upstreamPath);
               (js "converter", json_or conv (JStr c_none))]
              ++ opt_member (js "models") (match routeModels with [] => None | _ => Some (JArr (map JStr routeModels)) end)
              ++ opt_member (js "auth") nextAuth)).

Definition normalizeConfigJson (config : json) : option json :=
  routes ← prop_of (js "advanced_routes") config;
  rs ← match routes with Some (JArr l) => mapM normalizeRouteJson l | _ => Some [] end;
  Some (JObj [(js "advanced_routes", JArr rs)]).

(** [None] is [null]: a blank text, a text that is no JSON object, and one on
    which the normalisation throws. *)
Definition parseAdvancedCustomConfig (v : option jsstr) : option json :=
  if negb (nonempty (trim (default [] v))) then None
  else match json_parse (default [] v) with
       | Some (JObj ps) => normalizeConfigJson (JObj ps)
       | _ => None
       end.

(** [None] when the normalisation throws. *)
Definition stringifyAdvancedCustomConfig (config : json) : option jsstr := json_pretty <$> normalizeConfigJson config.

(** A normalised value of the declared type, and the value of a configuration. *)
Definition str_member (k : jsstr) (ps : members) : option (option jsstr) :=
  match map_get k ps with None => Some None | Some (JStr s) => Some (Some s) | Some _ => None end.

Definition json_str (v : json) : option jsstr := match v with JStr s => Some s | _ => None end.

Definition auth_of_json (v : json) : option AdvancedCustomRouteAuth :=
  match v with
  | JObj ps => type ← str_member (js "type") ps; name ← str_member (js "name") ps; value ← str_member (js "value") ps; Some (mkAuth type name value)
  | _ => None
  end.

Definition route_of_json (v : json) : option AdvancedCustomRoute :=
  match v with
  | JObj ps =>
      incoming ← str_member (js "incoming_path") ps; upstream ← str_member (js "upstream_path") ps; conv ← str_member (js "converter") ps;
      ms ← match map_get (js "models") ps with None => Some None | Some (JArr l) => Some <$> mapM json_str l | Some _ => None end;
      a ← match map_get (js "auth") ps with None => Some None | Some w => Some <$> auth_of_json w end;
      Some (mkRoute incoming upstream conv ms a)
  | _ => None
  end.

Definition config_of_json (v : json) : option AdvancedCustomConfig :=
  match v with
  | JObj ps =>
      match map_get (js "advanced_routes") ps with
      | None => Some (mkConfig None)
      | Some (JArr l) => rs ← mapM route_of_json l; Some (mkConfig (Some rs))
      | Some _ => None
      end
  | _ => None
  end.

Definition json_of_auth (a : AdvancedCustomRouteAuth) : json :=
  JObj (opt_member (js "type") (JStr <$> type a) ++ opt_member (js "name") (JStr <$> name a) ++ opt_member (js "value") (JStr <$> value a)).

Definition json_of_route (r : AdvancedCustomRoute) : json :=
  JObj (opt_member (js "incoming_path") (JStr <$> incoming_path r) ++ opt_member (js "upstream_path") (JStr <$> upstream_path r) ++
        opt_member (js "converter") (JStr <$> converter r) ++ opt_member (js "models") ((fun l => JArr (map JStr l)) <$> models r) ++
        opt_member (js "auth") (json_of_auth <$> auth r)).

Definition json_of_config (c : AdvancedCustomConfig) : json :=
  JObj (opt_member (js "advanced_routes") ((fun l => JArr (map json_of_route l)) <$> advanced_routes c)).

Definition ADVANCED_CUSTOM_ROUTE_SUMMARY_LABELS : list (jsstr * jsstr) := [(js "/v1/chat/completions", js "OpenAI Chat")].

Definition getAdvancedCustomRouteSummaryLabel (route : AdvancedCustomRoute) : option jsstr :=
  match trim (default [] (incoming_path route)) with
  | [] => None
  | incomingPath => Some (str_or (map_get incomingPath ADVANCED_CUSTOM_ROUTE_SUMMARY_LABELS) (getAdvancedCustomIncomingPathLabel incomingPath))
  end.

Record AdvancedCustomStats := mkStats { routeCount : nat; valid : bool; routeTypeLabels : list jsstr }.

(** The counts the channel page shows; [None] where the text is not of the
    declared type. *)
Definition getAdvancedCustomStats (parseURL : jsstr -> option (jsstr * jsstr)) (v : option jsstr) : option AdvancedCustomStats :=
  match parseAdvancedCustomConfig v with
  | None => Some (mkStats 0 false [])
  | Some j =>
      c ← config_of_json j;
      let normalized := normalizeAdvancedCustomConfig c in
      let routes := default [] (advanced_routes normalized) in
      let labels := fold_left (fun acc route =>
        match getAdvancedCustomRouteSummaryLabel route with
        | Some (x :: l) => if set_has (x :: l) acc then acc else acc ++ [x :: l]
        | _ => acc
        end) routes [] in
      Some (mkStats (length routes) (bool_decide (validateAdvancedCustomConfig parseURL (Some normalized) = None)) labels)
  end.

(** *** Lemmas on texts *)
Lemma str_member_JStr k ps o : map_get k ps = JStr <$> o -> str_member k ps = Some o.
Proof. unfold str_member. intros ->. by destruct o. Qed.

Lemma mapM_json_str l : mapM json_str (map JStr l) = Some l.
Proof. induction l as [|s l IH]; [done|]. simpl. by rewrite IH. Qed.

Lemma auth_of_json_of a : auth_of_json (json_of_auth a) = Some a.
Proof.
  destruct a as [t n v]. unfold json_of_auth, auth_of_json. cbn [type name value].
  rewrite (str_member_JStr (js "type") _ t), (str_member_JStr (js "name") _ n), (str_member_JStr (js "value") _ v); [done|..]; get_member; by destruct t, n, v.
Qed.

Lemma route_of_json_of r : route_of_json (json_of_route r) = Some r.
Proof.
  destruct r as [i u c m a]. unfold json_of_route, route_of_json. cbn [incoming_path upstream_path converter models auth].
  rewrite (str_member_JStr (js "incoming_path") _ i), (str_member_JStr (js "upstream_path") _ u), (str_member_JStr (js "converter") _ c) by (get_member; by destruct i, u, c, m, a).
  cbn [mbind option_bind]. get_member. destruct i, u, c, m, a; cbn [fmap option_fmap option_map mbind option_bind]; rewrite ?mapM_json_str, ?auth_of_json_of; done.
Qed.

Lemma mapM_map {A B C} (f : A -> B) (g : B -> option C) (h : A -> C) l : (forall x, g (f x) = Some (h x)) -> mapM g (map f l) = Some (map h l).
Proof. intros H. induction l as [|x l IH]; [done|]. simpl. by rewrite H, IH. Qed.

Lemma config_of_json_of c : config_of_json (json_of_config c) = Some c.
Proof.
  destruct c as [[l|]]; [|done]. unfold config_of_json, json_of_config. cbn [advanced_routes fmap option_fmap option_map opt_member]. get_member. rewrite (mapM_map _ _ id) by apply route_of_json_of. cbn [mbind option_bind]. by rewrite map_id.
Qed.

(** On the declared type the two normalisations agree. *)
Lemma json_or_JStr o d : json_or (JStr <$> o) (JStr d) = JStr (str_or o d).
Proof. by destruct o as [[|c s]|]. Qed.

Lemma normalizeAuthJson_of a :
  normalizeAuthJson (json_of_auth a) = Some (json_of_auth (mkAuth (type a) (Some (str_or (name a) [])) (Some (str_or (value a) [])))).
Proof.
  destruct a as [t n v]. unfold normalizeAuthJson, json_of_auth. cbn [type name value prop_of mbind option_bind fmap option_fmap option_map].
  get_member. destruct t as [t|], n as [[|]|], v as [[|]|]; done.
Qed.

Lemma mapM_trim_json l : mapM trim_json (map JStr l) = Some (map trim l).
Proof. by apply mapM_map. Qed.

(** The result from the properties of the route. *)
Definition auth_step (a : option json) : option (option json) :=
  match a with Some w => if json_truthy w then Some <$> normalizeAuthJson w else Some None | None => Some None end.

Definition route_result (incoming : option json) (upstreamPath : jsstr) (conv : option json) (ms : list jsstr) (a : option json) : json :=
  JObj ([(js "incoming_path", json_or incoming (JStr [])); (js "upstream_path", JStr upstreamPath); (js "converter", json_or conv (JStr c_none))]
        ++ opt_member (js "models") (match ms with [] => None | _ => Some (JArr (map JStr ms)) end) ++ opt_member (js "auth") a).

Lemma normalizeRouteJson_eq v i u c m a up ms a' :
  prop_of (js "incoming_path") v = Some i -> prop_of (js "upstream_path") v = Some u -> prop_of (js "converter") v = Some c ->
  prop_of (js "models") v = Some m -> prop_of (js "auth") v = Some a ->
  trim_json (json_or u (JStr [])) = Some up -> normalizeModelsJson m = Some ms -> auth_step a = Some a' ->
  normalizeRouteJson v = Some (route_result i up c ms a').
Proof.
  intros Hi Hu Hc Hm Ha Hup Hms Ha'. unfold normalizeRouteJson. rewrite Hi, Hu, Hc, Hm, Ha. cbn [mbind option_bind].
  rewrite Hup. cbn [mbind option_bind]. rewrite Hms. cbn [mbind option_bind]. unfold auth_step in Ha'. by rewrite Ha'.
Qed.

Lemma normalizeRouteJson_inv v r :
  normalizeRouteJson v = Some r -> exists i u c m a up ms a',
    prop_of (js "auth") v = Some a /\ trim_json (json_or u (JStr [])) = Some up /\ normalizeModelsJson m = Some ms /\ auth_step a = Some a' /\ r = route_result i up c ms a'.
Proof.
  unfold normalizeRouteJson, auth_step. intros H. repeat (apply bind_Some in H as (? & ? & H)). injection H as <-.
  do 8 eexists. split_and!; eassumption || reflexivity.
Qed.

Lemma normalizeModelsJson_of m : normalizeModelsJson ((fun l => JArr (map JStr l)) <$> m) = Some (normalizeAdvancedCustomRouteModels m).
Proof. destruct m as [m|]; [|done]. cbn [fmap option_fmap option_map normalizeModelsJson]. by rewrite mapM_trim_json. Qed.

Lemma normalizeRouteJson_of r : normalizeRouteJson (json_of_route r) = Some (json_of_route (normalizeAdvancedCustomRoute r)).
Proof.
  destruct r as [i u c m a]. unfold json_of_route at 1. cbn [incoming_path upstream_path converter models auth].
  erewrite normalizeRouteJson_eq; cycle 1.
  1-5: cbn [prop_of]; get_member; reflexivity.
  { instantiate (1 := trim (str_or u [])). by destruct u as [[|]|], i, c, m, a. }
  { instantiate (1 := normalizeAdvancedCustomRouteModels m). rewrite <- normalizeModelsJson_of. by destruct i, u, c, m, a. }
  { instantiate (1 := (fun a => json_of_auth (mkAuth (type a) (Some (str_or (name a) [])) (Some (str_or (value a) [])))) <$> a).
    destruct i, u, c, m, a as [a|]; cbn [fmap option_fmap option_map auth_step json_truthy json_of_auth]; try rewrite normalizeAuthJson_of; done. }
  f_equal. unfold route_result, json_of_route, normalizeAdvancedCustomRoute. cbn [incoming_path upstream_path converter models auth].
  destruct i as [[|]|], u as [[|]|], c as [[|]|], (normalizeAdvancedCustomRouteModels m), a; reflexivity.
Qed.

(** ** A normalised value is stable *)
Lemma normalizeAuthJson_stable a a' : normalizeAuthJson a = Some a' -> json_truthy a' = true /\ normalizeAuthJson a' = Some a'.
Proof.
  unfold normalizeAuthJson. intros H. repeat (apply bind_Some in H as (? & ? & H)). injection H as <-. split; [done|].
  cbn [prop_of mbind option_bind]. get_member. destruct x; cbn [mbind option_bind]; by rewrite !json_or_idemp.
Qed.

Lemma auth_step_stable a a' : auth_step a = Some a' -> auth_step a' = Some a'.
Proof.
  unfold auth_step. destruct a as [a|]; [|by intros [= <-]]. destruct (json_truthy a) eqn:Ha; [|by intros [= <-]].
  destruct (normalizeAuthJson a) as [b|] eqn:E; [|done]. intros [= <-]. apply normalizeAuthJson_stable in E as [-> ->]. done.
Qed.

Lemma normalizeModelsJson_stable m ms :
  normalizeModelsJson m = Some ms -> normalizeModelsJson (match ms with [] => None | _ => Some (JArr (map JStr ms)) end) = Some ms.
Proof.
  intros H. assert (E : exists l, ms = normalizeAdvancedCustomRouteModels (Some l)).
  { destruct m as [[| | | |l|]|]; try (injection H as <-; by exists []). cbn [normalizeModelsJson] in H.
    apply bind_Some in H as (l' & Hl & [= <-]).
    assert (Hm : exists k, l' = map trim k); [|destruct Hm as [k ->]; by exists k].
    revert l' Hl. induction l as [|x l IH]; intros l' Hl; [injection Hl as <-; by exists []|].
    cbn [mapM mbind option_bind] in Hl. apply bind_Some in Hl as (y & Hy & (z & Hz & [= <-])%bind_Some). destruct (IH z Hz) as [k ->].
    destruct x; try done. injection Hy as <-. by exists (s :: k). }
  destruct E as [l ->]. pose proof (normalizeModels_idemp (Some l)) as I. destruct (normalizeAdvancedCustomRouteModels (Some l)) as [|y ys] eqn:E; [done|].
  pose proof (normalizeModelsJson_of (Some (y :: ys))) as N. by rewrite I in N.
Qed.

Lemma trim_json_stable u up : trim_json (json_or u (JStr [])) = Some up -> trim_json (json_or (Some (JStr up)) (JStr [])) = Some up.
Proof.
  intros H. assert (E : exists s, up = trim s) by (destruct (json_or u (JStr [])); try done; injection H as <-; by eexists).
  destruct E as [s ->]. destruct (trim s) as [|y ys] eqn:E; [done|]. cbn [json_or json_truthy trim_json]. rewrite <- E. by rewrite trim_idemp.
Qed.

Lemma normalizeRouteJson_stable v r : normalizeRouteJson v = Some r -> normalizeRouteJson r = Some r.
Proof.
  intros (i & u & c & m & a & up & ms & a' & Ha & Hup & Hms & Ha' & ->)%normalizeRouteJson_inv.
  unfold route_result at 1. erewrite normalizeRouteJson_eq; cycle 1.
  1-5: cbn [prop_of]; get_member; reflexivity.
  { by eapply trim_json_stable. }
  { instantiate (1 := ms). apply (normalizeModelsJson_stable m) in Hms. by destruct ms. }
  { instantiate (1 := a'). apply auth_step_stable in Ha'. by destruct ms. }
  f_equal. unfold route_result. by rewrite !json_or_idemp.
Qed.

Lemma normalizeConfigJson_stable v w : normalizeConfigJson v = Some w -> normalizeConfigJson w = Some w.
Proof.
  unfold normalizeConfigJson. intros H. apply bind_Some in H as (o & _ & H). apply bind_Some in H as (rs & Hr & [= <-]).
  cbn [prop_of mbind option_bind]. get_member.
  assert (S : mapM normalizeRouteJson rs = Some rs); [|by rewrite S].
  assert (F : Forall (fun r => normalizeRouteJson r = Some r) rs).
  { destruct o as [[| | | |l|]|]; try (injection Hr as <-; by constructor). clear v. revert rs Hr.
    induction l as [|x l IH]; intros rs Hr; [injection Hr as <-; by constructor|]. cbn [mapM mbind option_bind] in Hr.
    apply bind_Some in Hr as (y & Hy & (z & Hz & [= <-])%bind_Some). constructor; [by eapply normalizeRouteJson_stable | by apply IH]. }
  apply mapM_Some. by apply Forall_Forall2_diag.
Qed.

Lemma normalizeConfigJson_of c : normalizeConfigJson (json_of_config c) = Some (json_of_config (normalizeAdvancedCustomConfig c)).
Proof.
  destruct c as [[l|]]; [|done]. unfold normalizeConfigJson, json_of_config at 1. cbn [advanced_routes fmap option_fmap option_map prop_of mbind option_bind].
  get_member. rewrite (mapM_map _ _ (fun r => json_of_route (normalizeAdvancedCustomRoute r))) by apply normalizeRouteJson_of.
  unfold normalizeAdvancedCustomConfig, json_of_config. cbn. by rewrite map_map.
Qed.

(** ** From the text and back *)
Lemma parseAdvancedCustomConfig_stable t w : parseAdvancedCustomConfig t = Some w -> normalizeConfigJson w = Some w.
Proof.
  unfold parseAdvancedCustomConfig. destruct (negb _); [done|]. destruct (json_parse _) as [[]|]; try done. apply normalizeConfigJson_stable.
Qed.

Lemma normalized_object v w : normalizeConfigJson v = Some w -> exists rs, w = JObj [(js "advanced_routes", JArr rs)].
Proof. unfold normalizeConfigJson. intros H. repeat (apply bind_Some in H as (? & ? & H)). injection H as <-. by eexists. Qed.

Lemma parse_pretty w : json_ok w = true -> normalizeConfigJson w = Some w -> parseAdvancedCustomConfig (Some (json_pretty w)) = Some w.
Proof.
  intros Hok Hn. destruct (normalized_object _ _ Hn) as [rs Hw]. destruct (object_text [32; 32] [] [(js "advanced_routes", JArr rs)]) as (r & E & T).
  unfold parseAdvancedCustomConfig. cbn [from_option]. unfold json_pretty in *. unfold id. rewrite Hw in *. rewrite T, E. cbn [nonempty negb].
  rewrite <- E. fold (json_pretty (JObj [(js "advanced_routes", JArr rs)])). by rewrite json_parse_pretty.
Qed.

Lemma json_ok_auth a b : json_ok a = true -> normalizeAuthJson a = Some b -> json_ok b = true.
Proof.
  intros Ha H. unfold normalizeAuthJson in H. apply bind_Some in H as (t & Ht & H). apply bind_Some in H as (n & Hn & H).
  apply bind_Some in H as (v & Hv & [= <-]). apply json_ok_prop in Ht, Hn, Hv; try done.
  apply json_ok_object; [destruct t; vm_compute; reflexivity|].
  assert (E : json_ok (JStr []) = true) by reflexivity.
  pose proof (json_ok_or n _ Hn E) as Hn'. pose proof (json_ok_or v _ Hv E) as Hv'.
  destruct t; cbn [opt_member app]; ok_members; assumption.
Qed.

Lemma trim_json_units v s : json_ok v = true -> trim_json v = Some s -> forallb code_unit s = true.
Proof. destruct v; try done. intros H [= <-]. by apply forallb_trim. Qed.

Lemma normalizeModelsJson_units v ms : match v with Some w => json_ok w = true | None => True end -> normalizeModelsJson v = Some ms -> Forall (fun s => forallb code_unit s = true) ms.
Proof.
  destruct v as [[| | | |l|]|]; cbn [normalizeModelsJson]; intros Hv; try (by intros [= <-]; constructor).
  intros (k & Hk & [= <-])%bind_Some. apply Forall_forall. intros s [_ Hs]%list_elem_of_filter. apply mapM_Some in Hk.
  cbn [json_ok] in Hv. rewrite forallb_forall in Hv. revert s Hs. apply Forall_forall. clear -Hk Hv. induction Hk as [|x y l k Hx Hk IH]; constructor.
  - apply (trim_json_units x); [|done]. apply Hv. by left.
  - apply IH. intros z Hz. apply Hv. by right.
Qed.

Lemma json_ok_strs ms : Forall (fun s => forallb code_unit s = true) ms -> json_ok (JArr (map JStr ms)) = true.
Proof. intros H. cbn [json_ok]. induction H as [|s ms Hs H IH]; [reflexivity|]. cbn [map forallb json_ok]. by rewrite Hs. Qed.

Lemma json_ok_route v r : json_ok v = true -> normalizeRouteJson v = Some r -> json_ok r = true.
Proof.
  intros Hv H. unfold normalizeRouteJson in H.
  apply bind_Some in H as (i & Hi & H). apply bind_Some in H as (u & Hu & H). apply bind_Some in H as (up & Hup & H). apply bind_Some in H as (c & Hc & H).
  apply bind_Some in H as (m & Hm & H). apply bind_Some in H as (ms & Hms & H). apply bind_Some in H as (a & Ha & H). apply bind_Some in H as (na & Hna & [= <-]).
  apply json_ok_prop in Hi, Hu, Hc, Hm, Ha; [|exact Hv..].
  assert (E : forall s, forallb code_unit s = true -> json_ok (JStr s) = true) by (intros s Hs; exact Hs).
  apply trim_json_units in Hup; [|apply json_ok_or; [exact Hu | reflexivity]].
  apply normalizeModelsJson_units in Hms; [|exact Hm].
  assert (Hna' : match na with Some w => json_ok w = true | None => True end).
  { destruct a as [a|]; [destruct (json_truthy a)|]; [|by injection Hna as <-..]. destruct (normalizeAuthJson a) as [b|] eqn:Eb; [|done].
    injection Hna as <-. by eapply json_ok_auth. }
  apply json_ok_object; [destruct ms, na; vm_compute; reflexivity|].
  assert (S : json_ok (json_or i (JStr [])) = true) by (apply json_ok_or; [exact Hi | reflexivity]).
  assert (S' : json_ok (json_or c (JStr c_none)) = true) by (apply json_ok_or; [exact Hc | reflexivity]).
  pose proof (json_ok_strs _ Hms) as S''. pose proof (E _ Hup) as Hup'.
  destruct ms, na; cbn [opt_member app]; ok_members; assumption.
Qed.

Lemma normalizeConfigJson_ok v w : json_ok v = true -> normalizeConfigJson v = Some w -> json_ok w = true.
Proof.
  intros Hv H. unfold normalizeConfigJson in H. apply bind_Some in H as (o & Ho & H). apply bind_Some in H as (rs & Hr & [= <-]).
  apply json_ok_prop in Ho; [|exact Hv]. apply json_ok_object; [vm_compute; reflexivity|]. ok_members. cbn [json_ok].
  destruct o as [[| | | |l|]|]; try (injection Hr as <-; reflexivity). apply mapM_Some in Hr. cbn [json_ok] in Ho. rewrite forallb_forall in Ho.
  apply forallb_forall. intros r Hin. apply list_elem_of_In, list_elem_of_lookup in Hin as [n Hn]. eapply Forall2_lookup_r in Hr as (x & Hx & Hxr); [|exact Hn].
  eapply json_ok_route; [|exact Hxr]. apply Ho. apply list_elem_of_In. by eapply list_elem_of_lookup_2.
Qed.

Lemma parseAdvancedCustomConfig_shape t w : parseAdvancedCustomConfig t = Some w -> exists ps, json_parse (default [] t) = Some (JObj ps) /\ normalizeConfigJson (JObj ps) = Some w.
Proof. unfold parseAdvancedCustomConfig. destruct (negb _); [done|]. destruct (json_parse _) as [[]|]; try done. by eexists. Qed.

(** The text of a configuration is read back as its normal form. *)
Lemma config_text_roundtrip c :
  json_ok (json_of_config c) = true ->
  exists t, stringifyAdvancedCustomConfig (json_of_config c) = Some t /\
    parseAdvancedCustomConfig (Some t) = Some (json_of_config (normalizeAdvancedCustomConfig c)).
Proof.
  intros Hok. unfold stringifyAdvancedCustomConfig. pose proof (normalizeConfigJson_of c) as E. rewrite E. eexists. split; [reflexivity|].
  apply parse_pretty; [by eapply normalizeConfigJson_ok | by eapply normalizeConfigJson_stable].
Qed.

(** Choosing an authentication mode is read back as chosen, and a mode
    chosen for a route without credentials is valid. *)
Theorem auth_mode_roundtrip (r : AdvancedCustomRoute) (mode : jsstr) (previous : option AdvancedCustomRouteAuth)
    (Hmode : mode ∈ (ADVANCED_CUSTOM_AUTH_MODE_OPTIONS).*1) :
  getAdvancedCustomAuthMode
    (mkRoute (incoming_path r) (upstream_path r) (converter r) (models r) (buildAdvancedCustomAuth mode previous)) = mode /\
  validateRouteAuth (buildAdvancedCustomAuth mode None) = None.
Proof.
  unfold ADVANCED_CUSTOM_AUTH_MODE_OPTIONS in Hmode. simpl in Hmode.
  repeat (apply elem_of_cons in Hmode as [->|Hmode]; [split; vm_compute; reflexivity|]). set_solver.
Qed.

Lemma auth_mode_roundtrip_witness :
  getAdvancedCustomAuthMode
    (mkRoute None None None None (buildAdvancedCustomAuth (js "query") (Some bearerHeaderAuth))) = js "query".
Proof.
  apply (auth_mode_roundtrip createAdvancedCustomRoute (js "query") (Some bearerHeaderAuth)).
  vm_compute. set_solver.
Defined.
End AdvancedCustom.
