(* ===== verification/ChannelForm.v ===== *)
(** * The channel form ([src/web/default/src/features/channels/lib/channel-form.ts])

    The form edits one channel of the gateway.  Opening a channel spreads the two
    JSON texts it carries ([setting] and [settings]) over the fields of the form;
    saving checks the fields, writes both texts again and sends a payload.  Keys
    of [settings] that belong to other channel types are removed, keys the form
    does not know are kept.

    Fields that are read from JSON without a check ([parsed.proxy || '']) hold
    JSON values; fields that are compared with [true] hold booleans.  [undefined]
    is [None], and so is an exception, as the comments say.  Numbers are doubles. *)
From Stdlib Require Import SpecFloat.
From S2P Require Import Prelude JsString JsNumber Json JsonText JsObject ChannelGuards AdvancedCustom.
Local Open Scope Z_scope.

Module ChannelForm.

(** ** Data *)
Record ChannelInfo := mkInfo {
  is_multi_key : bool; multi_key_size : Z; multi_key_status_list : option (list (jsstr * Z)); multi_key_mode : jsstr }.

Record Channel := mkChannel {
  ch_id : num; ch_type : num; ch_key : jsstr; ch_openai_organization : option jsstr; ch_test_model : option jsstr; ch_status : num;
  ch_name : jsstr; ch_weight : option num; ch_response_time : num; ch_base_url : option jsstr; ch_other : jsstr; ch_balance : num;
  ch_models : jsstr; ch_group : jsstr; ch_used_quota : num; ch_model_mapping : option jsstr; ch_status_code_mapping : option jsstr;
  ch_priority : option num; ch_auto_ban : option num; ch_tag : option jsstr; ch_setting : option jsstr; ch_param_override : option jsstr;
  ch_header_override : option jsstr; ch_remark : jsstr; ch_channel_info : ChannelInfo; ch_settings : jsstr }.

(** The six extra settings, read from [setting]. *)
Record ExtraSettings := mkExtra {
  force_format : option json; thinking_to_content : option json; proxy : option json;
  pass_through_body_enabled : option json; system_prompt : option json; system_prompt_override : option json }.

(** The settings of channel types, read from [settings]. *)
Record TypeSettings := mkTypeSettings {
  is_enterprise_account : option bool; vertex_key_type : option json; aws_key_type : option json; azure_responses_version : option json;
  allow_service_tier : option bool; disable_store : option bool; allow_safety_identifier : option bool; allow_include_obfuscation : option bool;
  allow_inference_geo : option bool; allow_speed : option bool; claude_beta_query : option bool; disable_task_polling_sleep : option bool;
  upstream_model_update_check_enabled : option bool; upstream_model_update_auto_sync_enabled : option bool;
  upstream_model_update_ignored_models : option jsstr; advanced_custom : option jsstr }.

Record ChannelFormValues := mkForm {
  f_name : jsstr; f_type : num; f_base_url : option jsstr; f_key : jsstr; f_openai_organization : option jsstr; f_models : jsstr;
  f_group : list jsstr; f_model_mapping : option jsstr; f_priority : option num; f_weight : option num; f_test_model : option jsstr;
  f_auto_ban : option num; f_status : num; f_status_code_mapping : option jsstr; f_tag : option jsstr; f_remark : option jsstr;
  f_setting : option jsstr; f_param_override : option jsstr; f_header_override : option jsstr; f_settings : option jsstr; f_other : option jsstr;
  f_multi_key_mode : option jsstr; f_multi_key_type : option jsstr; f_batch_add_set_key_prefix_2_name : option bool; f_key_mode : option jsstr;
  f_extra : ExtraSettings; f_typed : TypeSettings }.

(** ** Reading optional values *)

(** [s || d] of an optional string, [n || d] of an optional number. *)
Definition str_or (s : option jsstr) (d : jsstr) : jsstr := match s with Some (c :: r) => c :: r | _ => d end.
Definition num_or (n : option num) (d : num) : num := match n with Some x => if num_truthy x then x else d | None => d end.

(** [s?.trim()] is not empty. *)
Definition nonblank (s : option jsstr) : bool := match trim (default [] s) with [] => false | _ => true end.

(** [type === k] *)
Definition is_type (t : num) (k : Z) : bool := num_eqb t (num_of_Z k).
Definition type_in (t : num) (ks : list Z) : bool := existsb (is_type t) ks.

Definition MODEL_FETCHABLE_TYPES : list Z := [1; 4; 14; 17; 20; 23; 24; 25; 26; 27; 31; 34; 35; 40; 42; 43; 47; 48].
Definition CHANNEL_TYPE_ADVANCED_CUSTOM : Z := 58.

(** ** Checks of texts *)

(** [None] when [JSON.parse] throws, [Some None] for [undefined]. *)
Definition parseOptionalJson (value : option jsstr) : option (option json) :=
  if nonblank value then Some <$> json_parse (default [] value) else Some None.

Definition isJsonObjectValue (v : json) : bool := match v with JObj _ => true | _ => false end.

Definition isOptionalJsonObject (value : option jsstr) : bool :=
  match parseOptionalJson value with
  | None => false
  | Some None => true
  | Some (Some parsed) => isJsonObjectValue parsed
  end.

Definition isOptionalModelMapping (value : option jsstr) : bool :=
  match parseOptionalJson value with
  | None => false
  | Some None => true
  | Some (Some (JObj ps)) => forallb (fun p => match p.2 with JStr _ => true | _ => false end) ps
  | Some (Some _) => false
  end.

(** [Number.isInteger(n) && n >= 100 && n <= 599] *)
Definition isStatusCode (n : num) : bool := num_is_integer n && num_leb (num_of_Z 100) n && num_leb n (num_of_Z 599).

Definition isOptionalStatusCodeMapping (value : option jsstr) : bool :=
  match parseOptionalJson value with
  | None => false
  | Some None => true
  | Some (Some (JObj ps)) => forallb (fun p => isStatusCode (num_of_string p.1) && isStatusCode (json_to_number (Some p.2))) ps
  | Some (Some _) => false
  end.

(** [typeof v === 'string' && v.trim().length > 0] *)
Definition nonblankString (v : option json) : bool := match v with Some (JStr s) => nonblank (Some s) | _ => false end.

Definition isCodexCredential (value : option jsstr) : bool :=
  match parseOptionalJson value with
  | None => false
  | Some None => true
  | Some (Some (JObj ps)) => nonblankString (map_get (js "access_token") ps) && nonblankString (map_get (js "account_id") ps)
  | Some (Some _) => false
  end.

Definition isVertexJsonKey (value : option jsstr) : bool :=
  match parseOptionalJson value with
  | None => false
  | Some None => true
  | Some (Some (JArr l)) => forallb isJsonObjectValue l
  | Some (Some parsed) => isJsonObjectValue parsed
  end.

Definition validateJSON (value : jsstr) : bool :=
  match trim value with [] => true | _ => match json_parse value with Some _ => true | None => false end end.

Definition validateModelMapping (value : jsstr) : bool :=
  match trim value with [] => true | _ => validateJSON value end.

(** [text.split(',')], trimmed, without empty parts. *)
Definition splitList (text : jsstr) : list jsstr := ModelMappingValidation.trimAll (split_on comma text).
Definition parseModels (models : jsstr) : list jsstr := match models with [] => [] | _ => splitList models end.
Definition parseGroups (groups : jsstr) : list jsstr := match groups with [] => [] | _ => splitList groups end.
Definition formatModels (models : list jsstr) : jsstr := join [comma] models.
Definition formatGroups (groups : list jsstr) : jsstr := join [comma] groups.

(** ** The schema *)
Record Issue := mkIssue { path : jsstr; issue_message : jsstr }.

Definition issue_if (b : bool) (p m : jsstr) : list Issue := if b then [mkIssue p m] else [].

Definition INVALID_JSON : jsstr := js "Invalid JSON format".

(** The declared types of the fields that hold JSON values. *)
Definition is_bool (v : option json) : bool := match v with None | Some (JBool _) => true | _ => false end.
Definition is_str (v : option json) : bool := match v with None | Some (JStr _) => true | _ => false end.
Definition is_enum (ks : list jsstr) (v : option json) : bool := match v with None => true | Some (JStr s) => bool_decide (s ∈ ks) | _ => false end.

Section Schema.
(** [new URL], and the schema library's message for a value of another type. *)
Context (parseURL : jsstr -> option (jsstr * jsstr)) (typeMessage : jsstr -> jsstr).

Definition typeIssues (d : ChannelFormValues) : list Issue :=
  let e := f_extra d in
  let s := f_typed d in
  let check b p := issue_if (negb b) p (typeMessage p) in
  let texts v := JStr <$> v in
  check (is_enum [js "single"; js "batch"; js "multi_to_single"] (texts (f_multi_key_mode d))) (js "multi_key_mode") ++
  check (is_enum [js "random"; js "polling"] (texts (f_multi_key_type d))) (js "multi_key_type") ++
  check (is_enum [js "append"; js "replace"] (texts (f_key_mode d))) (js "key_mode") ++
  check (is_bool (force_format e)) (js "force_format") ++
  check (is_bool (thinking_to_content e)) (js "thinking_to_content") ++
  check (is_str (proxy e)) (js "proxy") ++
  check (is_bool (pass_through_body_enabled e)) (js "pass_through_body_enabled") ++
  check (is_str (system_prompt e)) (js "system_prompt") ++
  check (is_bool (system_prompt_override e)) (js "system_prompt_override") ++
  check (is_enum [js "json"; js "api_key"] (vertex_key_type s)) (js "vertex_key_type") ++
  check (is_enum [js "ak_sk"; js "api_key"] (aws_key_type s)) (js "aws_key_type") ++
  check (is_str (azure_responses_version s)) (js "azure_responses_version").

Definition fieldIssues (d : ChannelFormValues) : list Issue :=
  issue_if (bool_decide (f_name d = [])) (js "name") (js "Channel name is required") ++
  issue_if (negb (num_leb num_zero (f_type d))) (js "type") (js "Channel type is required") ++
  issue_if (bool_decide (f_models d = [])) (js "models") (js "Models are required") ++
  issue_if (bool_decide (f_group d = [])) (js "group") (js "Group is required") ++
  issue_if (negb (isOptionalModelMapping (f_model_mapping d))) (js "model_mapping") (js "Model mapping must be a JSON object with string values") ++
  issue_if (negb (isOptionalStatusCodeMapping (f_status_code_mapping d))) (js "status_code_mapping") (js "Status code mapping must use valid HTTP status codes") ++
  issue_if (255 <? length (default [] (f_remark d)))%nat (js "remark") (js "Remark must be less than 255 characters") ++
  issue_if (negb (isOptionalJsonObject (f_setting d))) (js "setting") INVALID_JSON ++
  issue_if (negb (isOptionalJsonObject (f_param_override d))) (js "param_override") INVALID_JSON ++
  issue_if (negb (isOptionalJsonObject (f_header_override d))) (js "header_override") INVALID_JSON ++
  issue_if (negb (isOptionalJsonObject (f_settings d))) (js "settings") INVALID_JSON.

(** [data.multi_key_mode && data.multi_key_mode !== 'single'] *)
Definition batchMode (d : ChannelFormValues) : bool :=
  match f_multi_key_mode d with Some (c :: r) => negb (bool_decide (c :: r = js "single")) | _ => false end.

(** [data.vertex_key_type === k] *)
Definition is_key_type (k : jsstr) (d : ChannelFormValues) : bool :=
  match vertex_key_type (f_typed d) with Some (JStr s) => bool_decide (s = k) | _ => false end.

(** The issues of an advanced custom channel; [None] when the text holds a
    configuration that is not of the declared type. *)
Definition advancedIssues (d : ChannelFormValues) : option (list Issue) :=
  config ← match AdvancedCustom.parseAdvancedCustomConfig (advanced_custom (f_typed d)) with
           | None => Some None
           | Some j => Some <$> AdvancedCustom.config_of_json j
           end;
  Some (match AdvancedCustom.validateAdvancedCustomConfig parseURL config with
        | Some e => [mkIssue (js "advanced_custom") (AdvancedCustom.message e)]
        | None => []
        end ++
        issue_if (AdvancedCustom.advancedCustomConfigUsesRelativeUpstreamPath config && negb (nonblank (f_base_url d))) (js "base_url")
          (js "Base URL is required when an advanced route uses an upstream path")).

Definition superRefine (d : ChannelFormValues) : option (list Issue) :=
  let t := f_type d in
  advanced ← (if is_type t CHANNEL_TYPE_ADVANCED_CUSTOM then advancedIssues d else Some []);
  Some (issue_if (type_in t [3; 8; 36; 45] && negb (nonblank (f_base_url d))) (js "base_url") (js "Base URL is required for this channel type") ++
        advanced ++
        issue_if (type_in t [3; 18; 21; 39; 41; 49] && negb (nonblank (f_other d))) (js "other") (js "This channel type requires additional configuration") ++
        issue_if (is_type t 57 && batchMode d) (js "multi_key_mode") (js "Codex channels do not support batch creation") ++
        issue_if (is_type t 57 && nonblank (Some (f_key d)) && negb (isCodexCredential (Some (f_key d)))) (js "key")
          (js "Codex credential must be a JSON object with access_token and account_id") ++
        issue_if (is_type t 41 && is_key_type (js "json") d && nonblank (Some (f_key d)) && negb (isVertexJsonKey (Some (f_key d)))) (js "key")
          (js "Vertex AI service account key must be valid JSON") ++
        issue_if (is_type t 41 && is_key_type (js "api_key") d && batchMode d) (js "multi_key_mode") (js "Vertex AI API Key mode does not support batch creation")).

(** The refinement of the whole form runs once every field has its type. *)
Definition channelFormSchema (d : ChannelFormValues) : option (list Issue) :=
  match typeIssues d with
  | [] => more ← superRefine d; Some (fieldIssues d ++ more)
  | issues => Some (fieldIssues d ++ issues)
  end.
End Schema.

(** ** Default values *)
Definition DEFAULT_EXTRA : ExtraSettings :=
  mkExtra (Some (JBool false)) (Some (JBool false)) (Some (JStr [])) (Some (JBool false)) (Some (JStr [])) (Some (JBool false)).

Definition DEFAULT_TYPED : TypeSettings :=
  mkTypeSettings (Some false) (Some (JStr (js "json"))) (Some (JStr (js "ak_sk"))) (Some (JStr [])) (Some false) (Some false) (Some false) (Some false)
    (Some false) (Some false) (Some false) (Some false) (Some false) (Some false) (Some []) (Some []).

Definition CHANNEL_FORM_DEFAULT_VALUES : ChannelFormValues :=
  mkForm [] (num_of_Z 1) (Some []) [] (Some []) [] [js "default"] (Some []) (Some num_zero) (Some num_zero) (Some []) (Some (num_of_Z 1))
    (num_of_Z 1) (Some []) (Some []) (Some []) (Some []) (Some []) (Some []) (Some (js "{}")) (Some []) (Some (js "single")) (Some (js "random"))
    (Some false) (Some (js "append")) DEFAULT_EXTRA DEFAULT_TYPED.

(** ** Opening a channel *)

(** [v.k] of a value that is not [null], and [v.k === true]. *)
Definition get (v : json) (k : jsstr) : option json := match v with JObj ps => map_get k ps | _ => None end.
Definition is_true (v : option json) : bool := match v with Some (JBool b) => b | _ => false end.

Definition extra_of (v : json) : ExtraSettings :=
  let or k d := Some (json_or (get v k) d) in
  mkExtra (or (js "force_format") (JBool false)) (or (js "thinking_to_content") (JBool false)) (or (js "proxy") (JStr []))
    (or (js "pass_through_body_enabled") (JBool false)) (or (js "system_prompt") (JStr [])) (or (js "system_prompt_override") (JBool false)).

(** A blank text, a text that is no JSON and [null] leave the defaults. *)
Definition readSetting (setting : option jsstr) : ExtraSettings :=
  match setting with
  | Some (c :: r) => match json_parse (c :: r) with Some JNull | None => DEFAULT_EXTRA | Some parsed => extra_of parsed end
  | _ => DEFAULT_EXTRA
  end.

(** [Array.isArray(v) ? v.join(',') : ''] *)
Definition joinModels (v : option json) : jsstr := match v with Some (JArr l) => json_to_string (JArr l) | _ => [] end.

(** The text of the configuration; it stays empty when its normalisation throws. *)
Definition advancedText (v : option json) : jsstr :=
  match v with
  | Some w => if json_truthy w then default [] (AdvancedCustom.stringifyAdvancedCustomConfig w) else []
  | None => []
  end.

Definition typed_of (v : json) : TypeSettings :=
  let flag k := Some (is_true (get v k)) in
  mkTypeSettings (flag (js "openrouter_enterprise")) (Some (json_or (get v (js "vertex_key_type")) (JStr (js "json"))))
    (Some (json_or (get v (js "aws_key_type")) (JStr (js "ak_sk")))) (Some (json_or (get v (js "azure_responses_version")) (JStr [])))
    (flag (js "allow_service_tier")) (flag (js "disable_store")) (flag (js "allow_safety_identifier")) (flag (js "allow_include_obfuscation"))
    (flag (js "allow_inference_geo")) (flag (js "allow_speed")) (flag (js "claude_beta_query")) (flag (js "disable_task_polling_sleep"))
    (flag (js "upstream_model_update_check_enabled")) (flag (js "upstream_model_update_auto_sync_enabled"))
    (Some (joinModels (get v (js "upstream_model_update_ignored_models")))) (Some (advancedText (get v (js "advanced_custom")))).

Definition readSettings (settings : jsstr) : TypeSettings :=
  match settings with
  | [] => DEFAULT_TYPED
  | _ => match json_parse settings with Some JNull | None => DEFAULT_TYPED | Some parsed => typed_of parsed end
  end.

Definition transformChannelToFormDefaults (channel : Channel) : ChannelFormValues :=
  let or s := Some (str_or s []) in
  mkForm (ch_name channel) (ch_type channel) (or (ch_base_url channel)) [] (or (ch_openai_organization channel)) (ch_models channel)
    (parseGroups (str_or (Some (ch_group channel)) (js "default"))) (or (ch_model_mapping channel))
    (Some (num_or (ch_priority channel) num_zero)) (Some (num_or (ch_weight channel) num_zero)) (or (ch_test_model channel))
    (Some (default (num_of_Z 1) (ch_auto_ban channel))) (ch_status channel) (or (ch_status_code_mapping channel)) (or (ch_tag channel))
    (Some (ch_remark channel)) (or (ch_setting channel)) (or (ch_param_override channel)) (or (ch_header_override channel))
    (Some (str_or (Some (ch_settings channel)) (js "{}"))) (Some (ch_other channel)) (Some (js "single"))
    (Some (str_or (Some (multi_key_mode (ch_channel_info channel))) (js "random"))) (Some false) (Some (js "append"))
    (readSetting (ch_setting channel)) (readSettings (ch_settings channel)).

(** ** The texts of a form *)
Definition buildSettingJSON (d : ChannelFormValues) : jsstr :=
  let e := f_extra d in
  json_stringify (JObj
    [(js "force_format", json_or (force_format e) (JBool false)); (js "thinking_to_content", json_or (thinking_to_content e) (JBool false));
     (js "proxy", json_or (proxy e) (JStr [])); (js "pass_through_body_enabled", json_or (pass_through_body_enabled e) (JBool false));
     (js "system_prompt", json_or (system_prompt e) (JStr [])); (js "system_prompt_override", json_or (system_prompt_override e) (JBool false))]).

(** [v === true] of a form field. *)
Definition is_on (b : option bool) : bool := match b with Some true => true | _ => false end.

Section Settings.
Context (d : ChannelFormValues).
Let t := f_type d.
Let s := f_typed d.

(** [target.k = v], and [if ('k' in target) delete target.k]. *)
Definition put (k : jsstr) (v : json) (m : members) : members := obj_put k v m.
Definition del (k : jsstr) (m : members) : members := map_del k m.
Definition put_flag (k : jsstr) (b : option bool) (m : members) : members := put k (JBool (is_on b)) m.

Definition settings_vertex (m : members) : members :=
  if is_type t 41 then put (js "vertex_key_type") (json_or (vertex_key_type s) (JStr (js "json"))) m else del (js "vertex_key_type") m.

Definition settings_azure (m : members) : members :=
  match azure_responses_version s with
  | Some v => if is_type t 3 && json_truthy v then put (js "azure_responses_version") v m else del (js "azure_responses_version") m
  | None => del (js "azure_responses_version") m
  end.

Definition settings_openrouter (m : members) : members :=
  if is_type t 20 then put_flag (js "openrouter_enterprise") (is_enterprise_account s) m else del (js "openrouter_enterprise") m.

Definition settings_aws (m : members) : members :=
  if is_type t 33 then put (js "aws_key_type") (json_or (aws_key_type s) (JStr (js "ak_sk"))) m else del (js "aws_key_type") m.

Definition settings_tier (m : members) : members :=
  if is_type t 1 || is_type t 14 || is_type t 57 then put_flag (js "allow_service_tier") (allow_service_tier s) m else del (js "allow_service_tier") m.

Definition settings_openai (m : members) : members :=
  if is_type t 1 || is_type t 57 then
    let m := put_flag (js "disable_store") (disable_store s) m in
    let m := put_flag (js "allow_safety_identifier") (allow_safety_identifier s) m in
    let m := put_flag (js "allow_include_obfuscation") (allow_include_obfuscation s) m in
    put_flag (js "allow_inference_geo") (allow_inference_geo s) m
  else
    let m := del (js "disable_store") m in
    let m := del (js "allow_safety_identifier") m in
    let m := del (js "allow_include_obfuscation") m in
    if negb (is_type t 14) then del (js "allow_inference_geo") m else m.

Definition settings_anthropic (m : members) : members :=
  if is_type t 14 then
    let m := put_flag (js "allow_inference_geo") (allow_inference_geo s) m in
    let m := put_flag (js "allow_speed") (allow_speed s) m in
    put_flag (js "claude_beta_query") (claude_beta_query s) m
  else
    let m := del (js "allow_speed") m in
    del (js "claude_beta_query") m.

Definition settings_polling (m : members) : members := put_flag (js "disable_task_polling_sleep") (disable_task_polling_sleep s) m.

(** [Array.from(new Set(text.split(',').map(trim).filter(Boolean)))] *)
Definition ignoredModels : list jsstr := set_of_list (splitList (str_or (upstream_model_update_ignored_models s) [])).

Definition settings_upstream (m : members) : members :=
  if type_in t MODEL_FETCHABLE_TYPES then
    let check := is_on (upstream_model_update_check_enabled s) in
    let m := put (js "upstream_model_update_check_enabled") (JBool check) m in
    let m := put (js "upstream_model_update_auto_sync_enabled") (JBool (check && is_on (upstream_model_update_auto_sync_enabled s))) m in
    let m := put (js "upstream_model_update_ignored_models") (JArr (map JStr ignoredModels)) m in
    let m := match map_get (js "upstream_model_update_last_detected_models") m with
             | Some (JArr _) => if check then m else put (js "upstream_model_update_last_detected_models") (JArr []) m
             | _ => put (js "upstream_model_update_last_detected_models") (JArr []) m
             end in
    match map_get (js "upstream_model_update_last_check_time") m with
    | Some (JNum _) => m
    | _ => put (js "upstream_model_update_last_check_time") (JNum num_zero) m
    end
  else m.

Definition settings_advanced (m : members) : members :=
  if is_type t CHANNEL_TYPE_ADVANCED_CUSTOM then
    match AdvancedCustom.parseAdvancedCustomConfig (advanced_custom s) with
    | Some config => put (js "advanced_custom") config m
    | None => m
    end
  else del (js "advanced_custom") m.

Definition settingsObj (m : members) : members :=
  settings_advanced (settings_upstream (settings_polling (settings_anthropic (settings_openai (settings_tier
    (settings_aws (settings_openrouter (settings_azure (settings_vertex m))))))))).
End Settings.

(** The value the settings start from. *)
Definition parsedSettings (settings : option jsstr) : json :=
  match settings with
  | Some (c :: r) => if bool_decide (c :: r = js "{}") then JObj [] else default (JObj []) (json_parse (c :: r))
  | _ => JObj []
  end.

(** [None] when it throws: properties of [null] and of other primitives cannot be
    set.  The properties set on an array are not part of its text. *)
Definition buildSettingsJSON (d : ChannelFormValues) : option jsstr :=
  match parsedSettings (f_settings d) with
  | JObj m => Some (json_stringify (JObj (settingsObj d m)))
  | JArr l => Some (json_stringify (JArr l))
  | _ => None
  end.

(** [text.replace(/\/+$/, '')] *)
Definition slash : Z := 47.
Definition stripSlashes (text : jsstr) : jsstr := rev (drop_while (fun c => c =? slash) (rev text)).
Definition normalizeBaseUrl (value : option jsstr) : jsstr := stripSlashes (trim (str_or value [])).

(** ** Payloads *)
(** [s || null] and [n || null]. *)
Definition str_or_null (s : option jsstr) : json := match s with Some (c :: r) => JStr (c :: r) | _ => JNull end.
Definition num_or_null (n : option num) : json := match n with Some x => if num_truthy x then JNum x else JNull | None => JNull end.

(** Empty strings become [null]. *)
Definition clean_value (v : json) : json := match v with JStr [] => JNull | _ => v end.
Definition clean_payload (payload : members) : members := map (fun p => (p.1, clean_value p.2)) payload.

Record CreatePayload := mkCreate { mode : jsstr; cp_multi_key_mode : option jsstr; cp_batch_prefix : option bool; cp_channel : members }.

Definition transformFormDataToCreatePayload (d : ChannelFormValues) : option CreatePayload :=
  let mode := str_or (f_multi_key_mode d) (js "single") in
  settings ← buildSettingsJSON d;
  let channel :=
    [(js "name", JStr (f_name d)); (js "type", JNum (f_type d)); (js "base_url", str_or_null (Some (normalizeBaseUrl (f_base_url d))));
     (js "key", JStr (f_key d)); (js "openai_organization", str_or_null (f_openai_organization d)); (js "models", JStr (f_models d));
     (js "group", JStr (formatGroups (f_group d))); (js "model_mapping", str_or_null (f_model_mapping d)); (js "priority", num_or_null (f_priority d));
     (js "weight", num_or_null (f_weight d)); (js "test_model", str_or_null (f_test_model d)); (js "auto_ban", JNum (default (num_of_Z 1) (f_auto_ban d)));
     (js "status", JNum (f_status d)); (js "status_code_mapping", str_or_null (f_status_code_mapping d)); (js "tag", str_or_null (f_tag d));
     (js "remark", JStr (str_or (f_remark d) [])); (js "setting", JStr (buildSettingJSON d)); (js "param_override", str_or_null (f_param_override d));
     (js "header_override", str_or_null (f_header_override d)); (js "settings", JStr settings); (js "other", JStr (str_or (f_other d) []))] in
  Some (mkCreate mode (if bool_decide (mode = js "multi_to_single") then f_multi_key_type d else None)
          (if bool_decide (mode = js "batch") then f_batch_add_set_key_prefix_2_name d else None) (clean_payload channel)).

Definition update_fields (d : ChannelFormValues) (channelId : num) (settings : jsstr) : members :=
  [(js "id", JNum channelId); (js "name", JStr (f_name d)); (js "type", JNum (f_type d)); (js "base_url", str_or_null (Some (normalizeBaseUrl (f_base_url d))));
   (js "openai_organization", str_or_null (f_openai_organization d)); (js "models", JStr (f_models d)); (js "group", JStr (formatGroups (f_group d)));
   (js "model_mapping", str_or_null (f_model_mapping d)); (js "priority", JNum (default num_zero (f_priority d))); (js "weight", JNum (default num_zero (f_weight d)));
   (js "test_model", str_or_null (f_test_model d)); (js "auto_ban", JNum (default (num_of_Z 1) (f_auto_ban d)));
   (js "status_code_mapping", str_or_null (f_status_code_mapping d)); (js "tag", str_or_null (f_tag d)); (js "remark", JStr (str_or (f_remark d) []));
   (js "setting", JStr (buildSettingJSON d)); (js "param_override", str_or_null (f_param_override d)); (js "header_override", str_or_null (f_header_override d));
   (js "settings", JStr settings); (js "other", JStr (str_or (f_other d) []))].

(** The fields that are sent as empty strings again. *)
Definition explicit_fields (d : ChannelFormValues) : members :=
  let or s := JStr (str_or s []) in
  [(js "base_url", JStr (normalizeBaseUrl (f_base_url d))); (js "openai_organization", or (f_openai_organization d)); (js "test_model", or (f_test_model d));
   (js "tag", or (f_tag d)); (js "remark", or (f_remark d)); (js "model_mapping", or (f_model_mapping d));
   (js "status_code_mapping", or (f_status_code_mapping d)); (js "param_override", or (f_param_override d)); (js "header_override", or (f_header_override d))].

Definition update_payload (d : ChannelFormValues) (channelId : num) (settings : jsstr) : members :=
  let payload := update_fields d channelId settings in
  let payload := if nonblank (Some (f_key d)) then map_set (js "key") (JStr (f_key d)) payload else payload in
  let payload := clean_payload payload in
  fold_left (fun m p => map_set p.1 p.2 m) (explicit_fields d) payload.

Definition transformFormDataToUpdatePayload (d : ChannelFormValues) (channelId : num) : option members :=
  settings ← buildSettingsJSON d;
  Some (update_payload d channelId settings).

(** ** The settings as a table of keys *)
Section Table.
Context (d : ChannelFormValues) (m : members).
Let t := f_type d.
Let s := f_typed d.

(** [Some] of a flag where the channel type has it. *)
Definition flag_if (b : bool) (f : option bool) : option json := if b then Some (JBool (is_on f)) else None.

Definition fetchable : bool := type_in t MODEL_FETCHABLE_TYPES.
Definition openai_like : bool := is_type t 1 || is_type t 57.

(** The keys every channel type decides on: a value, or none. *)
Definition typed_table : list (jsstr * option json) :=
  [(js "vertex_key_type", if is_type t 41 then Some (json_or (vertex_key_type s) (JStr (js "json"))) else None);
   (js "azure_responses_version", match azure_responses_version s with Some v => if is_type t 3 && json_truthy v then Some v else None | None => None end);
   (js "openrouter_enterprise", flag_if (is_type t 20) (is_enterprise_account s));
   (js "aws_key_type", if is_type t 33 then Some (json_or (aws_key_type s) (JStr (js "ak_sk"))) else None);
   (js "allow_service_tier", flag_if (is_type t 1 || is_type t 14 || is_type t 57) (allow_service_tier s));
   (js "disable_store", flag_if openai_like (disable_store s));
   (js "allow_safety_identifier", flag_if openai_like (allow_safety_identifier s));
   (js "allow_include_obfuscation", flag_if openai_like (allow_include_obfuscation s));
   (js "allow_inference_geo", flag_if (openai_like || is_type t 14) (allow_inference_geo s));
   (js "allow_speed", flag_if (is_type t 14) (allow_speed s));
   (js "claude_beta_query", flag_if (is_type t 14) (claude_beta_query s));
   (js "disable_task_polling_sleep", Some (JBool (is_on (disable_task_polling_sleep s))))].

(** [Array.isArray(v)] and [typeof v === 'number']. *)
Definition is_array (v : option json) : bool := match v with Some (JArr _) => true | _ => false end.
Definition is_number (v : option json) : bool := match v with Some (JNum _) => true | _ => false end.

Definition check_on : bool := is_on (upstream_model_update_check_enabled s).

(** The keys of the model update, where models can be fetched. *)
Definition upstream_table : list (jsstr * option json) :=
  [(js "upstream_model_update_check_enabled", Some (JBool check_on));
   (js "upstream_model_update_auto_sync_enabled", Some (JBool (check_on && is_on (upstream_model_update_auto_sync_enabled s))));
   (js "upstream_model_update_ignored_models", Some (JArr (map JStr (ignoredModels d))))] ++
  (if is_array (map_get (js "upstream_model_update_last_detected_models") m) && check_on then []
   else [(js "upstream_model_update_last_detected_models", Some (JArr []))]) ++
  (if is_number (map_get (js "upstream_model_update_last_check_time") m) then [] else [(js "upstream_model_update_last_check_time", Some (JNum num_zero))]).

Definition advanced_table : list (jsstr * option json) :=
  if is_type t CHANNEL_TYPE_ADVANCED_CUSTOM then
    match AdvancedCustom.parseAdvancedCustomConfig (advanced_custom s) with Some config => [(js "advanced_custom", Some config)] | None => [] end
  else [(js "advanced_custom", None)].

Definition settings_table : list (jsstr * option json) := typed_table ++ (if fetchable then upstream_table else []) ++ advanced_table.
End Table.

Lemma num_eqb_finite x s p e : num_eqb x (S754_finite s p e) = true -> x = S754_finite s p e.
Proof.
  unfold num_eqb, SFeqb, SFcompare. destruct x as [[]|[]| |[] p' e']; destruct s; try done.
  - destruct (Z.compare_spec e' e) as [->|?|?]; try done. destruct (Pos.compare_cont Eq p' p) eqn:E; try done. intros _.
    by apply Pos.compare_eq in E as ->.
  - destruct (Z.compare_spec e' e) as [->|?|?]; try done. destruct (Pos.compare_cont Eq p' p) eqn:E; try done. intros _.
    by apply Pos.compare_eq in E as ->.
Qed.

Lemma type_14_not_openai t : is_type t 14 = true -> (is_type t 1 || is_type t 57) = false.
Proof. unfold is_type. intros H. apply (num_eqb_finite t) in H. rewrite H. vm_compute. reflexivity. Qed.

Lemma upd_cons u us m : apply_updates (u :: us) m = apply_updates us (apply_update m u).
Proof. reflexivity. Qed.

Lemma typed_table_steps d m :
  settings_polling d (settings_anthropic d (settings_openai d (settings_tier d (settings_aws d (settings_openrouter d (settings_azure d (settings_vertex d m))))))) =
  apply_updates (typed_table d) m.
Proof.
  unfold typed_table. rewrite upd_cons. replace (apply_update m _) with (settings_vertex d m) by (unfold settings_vertex; by destruct (is_type _ 41)).
  generalize (settings_vertex d m). clear m. intros m.
  rewrite upd_cons. replace (apply_update m _) with (settings_azure d m)
    by (unfold settings_azure; destruct (azure_responses_version (f_typed d)) as [v|]; [|done]; by destruct (is_type _ 3 && json_truthy v)).
  generalize (settings_azure d m). clear m. intros m.
  rewrite upd_cons. replace (apply_update m _) with (settings_openrouter d m) by (unfold settings_openrouter, flag_if; by destruct (is_type _ 20)).
  generalize (settings_openrouter d m). clear m. intros m.
  rewrite upd_cons. replace (apply_update m _) with (settings_aws d m) by (unfold settings_aws; by destruct (is_type _ 33)).
  generalize (settings_aws d m). clear m. intros m.
  rewrite upd_cons. replace (apply_update m _) with (settings_tier d m) by (unfold settings_tier, flag_if; by destruct (is_type _ 1 || _ || _)).
  generalize (settings_tier d m). clear m. intros m.
  unfold settings_polling, settings_anthropic, settings_openai, flag_if, openai_like. rewrite !upd_cons.
  destruct (is_type (f_type d) 14) eqn:E.
  - rewrite (type_14_not_openai _ E). reflexivity.
  - by destruct (is_type (f_type d) 1 || is_type (f_type d) 57).
Qed.

Lemma typed_table_keys d : NoDup (map_keys (typed_table d)).
Proof. apply (bool_decide_unpack _). vm_compute. reflexivity. Qed.

Lemma get_typed_table k d m :
  NoDup (map_keys m) -> map_get k (typed_table d) = None -> map_get k (apply_updates (typed_table d) m) = map_get k m.
Proof. intros Hm Hk. rewrite get_apply_updates by (done || apply typed_table_keys). by rewrite Hk. Qed.

(** The code's steps are the table's. *)
Lemma settingsObj_table d m : NoDup (map_keys m) -> settingsObj d m = apply_updates (settings_table d m) m.
Proof.
  intros Hm. unfold settingsObj. rewrite typed_table_steps. unfold settings_table. rewrite !apply_updates_app.
  set (m1 := apply_updates (typed_table d) m). assert (Hm1 : NoDup (map_keys m1)) by by apply keys_apply_updates.
  assert (Gm : forall k, map_get k (typed_table d) = None -> map_get k m1 = map_get k m) by (intros k; by apply get_typed_table).
  clearbody m1. assert (U : settings_upstream d m1 = apply_updates (if fetchable d then upstream_table d m else []) m1).
  { unfold settings_upstream. fold (fetchable d). destruct (fetchable d); [|done]. unfold upstream_table. fold (check_on d). unfold put.
    set (m2 := obj_put (js "upstream_model_update_ignored_models") _ _).
    assert (Hm2 : NoDup (map_keys m2)) by (do 3 apply keys_obj_put; exact Hm1).
    assert (G : forall k, map_get k (typed_table d) = None -> bool_decide (k = js "upstream_model_update_ignored_models") = false ->
      bool_decide (k = js "upstream_model_update_auto_sync_enabled") = false -> bool_decide (k = js "upstream_model_update_check_enabled") = false ->
      map_get k m2 = map_get k m).
    { intros k Hk H1 H2 H3. apply bool_decide_eq_false in H1, H2, H3. unfold m2. rewrite !get_obj_put by (repeat apply keys_obj_put; exact Hm1).
      rewrite !decide_False by done. by apply Gm. }
    rewrite G by (vm_compute; reflexivity).
    assert (L : map_get (js "upstream_model_update_last_check_time") m2 = map_get (js "upstream_model_update_last_check_time") m) by (apply G; vm_compute; reflexivity).
    assert (L' : map_get (js "upstream_model_update_last_check_time") (obj_put (js "upstream_model_update_last_detected_models") (JArr []) m2) = map_get (js "upstream_model_update_last_check_time") m).
    { rewrite get_obj_put by done. rewrite decide_False; [exact L | vm_compute; discriminate]. }
    rewrite !apply_updates_app. change (apply_updates [_; _; _] m1) with m2.
    assert (D : forall v (x y : members), match v with Some (JArr _) => if check_on d then x else y | _ => y end = if is_array v && check_on d then x else y)
      by (intros [[]|] x y; try reflexivity; by destruct (check_on d)).
    assert (N : forall v (x y : members), match v with Some (JNum _) => x | _ => y end = if is_number v then x else y) by by intros [[]|].
    rewrite D, N. destruct (is_array _ && _); rewrite ?L, ?L'; destruct (is_number _); reflexivity. }
  rewrite U. set (m2 := apply_updates _ m1). unfold settings_advanced, advanced_table.
  destruct (is_type _ CHANNEL_TYPE_ADVANCED_CUSTOM); [|done]. by destruct (AdvancedCustom.parseAdvancedCustomConfig _).
Qed.

Lemma settings_table_keys d m : NoDup (map_keys (settings_table d m)).
Proof.
  unfold settings_table, upstream_table, advanced_table.
  destruct (is_array _ && _); destruct (is_number _); destruct (fetchable d), (is_type (f_type d) CHANNEL_TYPE_ADVANCED_CUSTOM),
    (AdvancedCustom.parseAdvancedCustomConfig (advanced_custom (f_typed d))).
  all: apply (bool_decide_unpack _); vm_compute; reflexivity.
Qed.

(** ** What the texts ask of a form *)
Definition value_ok (v : option json) : bool := match v with Some w => json_ok w | None => true end.

(** Every text of the form is made of code units, and the numbers in the
    advanced configuration read back. *)
Definition form_ok (d : ChannelFormValues) : bool :=
  let e := f_extra d in
  let s := f_typed d in
  forallb value_ok [force_format e; thinking_to_content e; proxy e; pass_through_body_enabled e; system_prompt e; system_prompt_override e;
                    vertex_key_type s; aws_key_type s; azure_responses_version s; AdvancedCustom.parseAdvancedCustomConfig (advanced_custom s)] &&
  forallb code_unit (str_or (upstream_model_update_ignored_models s) []).

Lemma split_on_units c s : forallb code_unit s = true -> Forall (fun x => forallb code_unit x = true) (split_on c s).
Proof.
  induction s as [|a s IH]; simpl; [by repeat constructor|]. intros [Ha Hs]%andb_true_iff. specialize (IH Hs).
  destruct (a =? c); [by constructor|]. destruct (split_on c s) as [|x l]; [by repeat constructor; simpl; rewrite Ha|].
  apply Forall_cons in IH as [Hx Hl]. constructor; [|done]. simpl. by rewrite Ha.
Qed.

(** The parts of a list text, and the texts they come from. *)
Definition part_ok (x : jsstr) : Prop := x <> [] /\ trim x = x /\ no_char comma x = true.

Lemma splitList_parts text : Forall part_ok (splitList text).
Proof.
  apply Forall_forall. intros x Hx. pose proof (ModelMappingValidation.trimAll_trimmed (split_on comma text)) as T.
  rewrite Forall_forall in T. destruct (T x Hx) as [H1 H2]. split_and!; [done..|].
  apply ModelMappingValidation.elem_of_trimAll in Hx as (_ & y & Hy & ->). apply forallb_trim.
  pose proof (ModelMappingValidation.split_on_no_sep comma text) as Hf. rewrite Forall_forall in Hf. by apply Hf.
Qed.

Lemma splitList_join l : Forall part_ok l -> splitList (join [comma] l) = l.
Proof.
  intros Hl. destruct l as [|x l]; [reflexivity|]. unfold splitList. rewrite split_join; [|done|].
  - apply ModelMappingValidation.trimAll_id. eapply Forall_impl; [exact Hl|]. by intros y (? & ? & ?).
  - apply forallb_forall. intros y Hy%list_elem_of_In. rewrite Forall_forall in Hl. by apply Hl.
Qed.

Lemma splitList_units text : forallb code_unit text = true -> Forall (fun x => forallb code_unit x = true) (splitList text).
Proof.
  intros H. apply Forall_forall. intros x (_ & y & Hy & ->)%ModelMappingValidation.elem_of_trimAll. apply forallb_trim.
  pose proof (split_on_units comma text H) as Hf. rewrite Forall_forall in Hf. by apply Hf.
Qed.

Lemma Forall_set_of_list {A} `{EqDecision A} (P : A -> Prop) (l : list A) : Forall P l -> Forall P (set_of_list l).
Proof. rewrite !Forall_forall. intros H x. rewrite elem_of_set_of_list. apply H. Qed.

(** ** The settings text *)
Lemma flag_ok b f : match flag_if b f with Some v => json_ok v | None => true end = true.
Proof. by destruct b. Qed.

Lemma value_or_ok v dflt : value_ok v = true -> json_ok dflt = true -> json_ok (json_or v dflt) = true.
Proof. intros Hv Hd. apply json_ok_or; [by destruct v | done]. Qed.

Lemma bool_update_ok k b : forallb code_unit k = true -> update_ok (k, Some (JBool b)) = true.
Proof. intros Hk. unfold update_ok. cbn [fst snd json_ok]. by rewrite Hk. Qed.

Lemma settings_table_ok d m : form_ok d = true -> forallb update_ok (settings_table d m) = true.
Proof.
  unfold form_ok. intros [Hv Hi]%andb_true_iff. cbn [forallb] in Hv. rewrite !andb_true_iff in Hv.
  destruct Hv as (_ & _ & _ & _ & _ & _ & Hx & Ha & Hz & Hc & _).
  unfold settings_table. rewrite !forallb_app, !andb_true_iff. split_and!.
  - unfold typed_table. cbn [forallb]. rewrite !andb_true_iff. split_and!; try reflexivity; unfold update_ok; cbn [fst snd]; apply andb_true_iff;
      (split; [vm_compute; reflexivity|]); try apply flag_ok.
    + destruct (is_type _ 41); [|reflexivity]. by apply value_or_ok.
    + destruct (azure_responses_version _) as [v|]; [|reflexivity]. by destruct (is_type _ 3 && json_truthy v).
    + destruct (is_type _ 33); [|reflexivity]. by apply value_or_ok.
  - destruct (fetchable d); [|reflexivity]. unfold upstream_table. rewrite !forallb_app, !andb_true_iff. split_and!.
    + cbn [forallb]. rewrite !andb_true_iff. split_and!; [by apply bool_update_ok | by apply bool_update_ok | | reflexivity].
      unfold update_ok. cbn [fst snd]. apply andb_true_iff. split; [vm_compute; reflexivity|].
      apply AdvancedCustom.json_ok_strs. apply Forall_set_of_list. by apply splitList_units.
    + destruct (is_array _ && _); vm_compute; reflexivity.
    + destruct (is_number _); vm_compute; reflexivity.
  - unfold advanced_table. destruct (is_type _ CHANNEL_TYPE_ADVANCED_CUSTOM); [|vm_compute; reflexivity].
    destruct (AdvancedCustom.parseAdvancedCustomConfig _) as [c|]; [|reflexivity]. cbn [forallb]. apply andb_true_iff. split; [|reflexivity].
    unfold update_ok. cbn [fst snd]. apply andb_true_iff. split; [vm_compute; reflexivity|exact Hc].
Qed.

Lemma settingsObj_ok d m : form_ok d = true -> map_ok m = true -> map_ok (settingsObj d m) = true.
Proof. intros Hd Hm. rewrite settingsObj_table by by apply map_ok_keys. apply map_ok_updates; [done | by apply settings_table_ok]. Qed.

Lemma get_settings k d m : map_ok m = true ->
  map_get k (settingsObj d m) = match map_get k (settings_table d m) with Some o => o | None => map_get k m end.
Proof. intros Hm. apply map_ok_keys in Hm. rewrite settingsObj_table by done. apply get_apply_updates; [done | apply settings_table_keys]. Qed.

Lemma settings_text_read d m :
  form_ok d = true -> map_ok m = true -> json_parse (json_stringify (JObj (settingsObj d m))) = Some (JObj (settingsObj d m)).
Proof. intros Hd Hm. apply json_parse_stringify. by apply (settingsObj_ok d m). Qed.

(** ** Reading a payload *)
Lemma get_assign_all {V} k (us m : list (jsstr * V)) :
  NoDup (map_keys us) ->
  map_get k (fold_left (fun m p => map_set p.1 p.2 m) us m) = match map_get k us with Some v => Some v | None => map_get k m end.
Proof.
  revert m. induction us as [|[k1 v] us IH]; intros m Hu; [done|]. apply NoDup_cons in Hu as [Hk Hu]. cbn [fold_left map_get].
  rewrite IH by done. cbn [fst snd]. destruct (decide (k = k1)) as [->|Hne].
  - rewrite bool_decide_eq_true_2, map_get_set_eq by done. by rewrite (proj2 (map_get_None k1 us) Hk).
  - rewrite bool_decide_eq_false_2 by done. by rewrite map_get_set_ne.
Qed.

Lemma get_clean k m : map_get k (clean_payload m) = clean_value <$> map_get k m.
Proof. induction m as [|[k1 v] m IH]; simpl; [done|]. by case_bool_decide. Qed.

Lemma clean_value_str a b : clean_value (JStr a) = clean_value (JStr b) -> a = b.
Proof. destruct a, b; simpl; congruence. Qed.

(** The payload of an update, key by key. *)
Lemma get_update k d id settings :
  map_get k (update_payload d id settings) =
  match map_get k (explicit_fields d) with
  | Some v => Some v
  | None => if nonblank (Some (f_key d)) && bool_decide (k = js "key") then Some (clean_value (JStr (f_key d)))
            else clean_value <$> map_get k (update_fields d id settings)
  end.
Proof.
  unfold update_payload. rewrite get_assign_all by (apply (bool_decide_unpack _); vm_compute; reflexivity). destruct (map_get k (explicit_fields d)); [done|].
  rewrite get_clean. destruct (nonblank _); [|done]. rewrite map_get_set_bool. cbn [andb]. by case_bool_decide.
Qed.

(** The server keeps what it is sent: the fields of the channel it returns are
    those of the payload, an absent text and an empty one counting alike.  Of a
    [null] it takes no notice, so an [other] that was cleared stays as it was. *)
Definition stores (p : members) (c : Channel) : Prop :=
  let text k o := map_get k p = Some (JStr (str_or o [])) in
  map_get (js "name") p = Some (clean_value (JStr (ch_name c))) /\ map_get (js "type") p = Some (JNum (ch_type c)) /\
  text (js "base_url") (ch_base_url c) /\ text (js "openai_organization") (ch_openai_organization c) /\
  map_get (js "models") p = Some (clean_value (JStr (ch_models c))) /\ map_get (js "group") p = Some (clean_value (JStr (ch_group c))) /\
  text (js "model_mapping") (ch_model_mapping c) /\
  (exists n, ch_priority c = Some n /\ map_get (js "priority") p = Some (JNum n)) /\
  (exists n, ch_weight c = Some n /\ map_get (js "weight") p = Some (JNum n)) /\
  text (js "test_model") (ch_test_model c) /\ (exists n, ch_auto_ban c = Some n /\ map_get (js "auto_ban") p = Some (JNum n)) /\
  text (js "status_code_mapping") (ch_status_code_mapping c) /\ text (js "tag") (ch_tag c) /\ text (js "remark") (Some (ch_remark c)) /\
  text (js "setting") (ch_setting c) /\ text (js "param_override") (ch_param_override c) /\ text (js "header_override") (ch_header_override c) /\
  text (js "settings") (Some (ch_settings c)) /\ 
  (map_get (js "other") p = Some JNull \/ map_get (js "other") p = Some (JStr (ch_other c))).

(** ** Opening what was saved *)
Definition reopened_extra (e : ExtraSettings) : ExtraSettings :=
  let or v dflt := Some (json_or v dflt) in
  mkExtra (or (force_format e) (JBool false)) (or (thinking_to_content e) (JBool false)) (or (proxy e) (JStr []))
    (or (pass_through_body_enabled e) (JBool false)) (or (system_prompt e) (JStr [])) (or (system_prompt_override e) (JBool false)).

(** The settings of the form's channel type, the defaults for all others; where
    models cannot be fetched the update settings are those of the old text. *)
Definition reopened_typed (d : ChannelFormValues) (m : members) : TypeSettings :=
  let t := f_type d in
  let s := f_typed d in
  let flag b f := Some (b && is_on f) in
  let kept k f := Some (if fetchable d then f else is_true (map_get k m)) in
  mkTypeSettings (flag (is_type t 20) (is_enterprise_account s))
    (Some (if is_type t 41 then json_or (vertex_key_type s) (JStr (js "json")) else JStr (js "json")))
    (Some (if is_type t 33 then json_or (aws_key_type s) (JStr (js "ak_sk")) else JStr (js "ak_sk")))
    (Some (if is_type t 3 then json_or (azure_responses_version s) (JStr []) else JStr []))
    (flag (is_type t 1 || is_type t 14 || is_type t 57) (allow_service_tier s)) (flag (openai_like d) (disable_store s))
    (flag (openai_like d) (allow_safety_identifier s)) (flag (openai_like d) (allow_include_obfuscation s))
    (flag (openai_like d || is_type t 14) (allow_inference_geo s)) (flag (is_type t 14) (allow_speed s)) (flag (is_type t 14) (claude_beta_query s))
    (flag true (disable_task_polling_sleep s))
    (kept (js "upstream_model_update_check_enabled") (check_on d))
    (kept (js "upstream_model_update_auto_sync_enabled") (check_on d && is_on (upstream_model_update_auto_sync_enabled s)))
    (Some (if fetchable d then join [comma] (ignoredModels d) else joinModels (map_get (js "upstream_model_update_ignored_models") m)))
    (Some (if is_type t CHANNEL_TYPE_ADVANCED_CUSTOM then
             match AdvancedCustom.parseAdvancedCustomConfig (advanced_custom s) with
             | Some config => json_pretty config
             | None => advancedText (map_get (js "advanced_custom") m)
             end
           else [])).

Definition reopened (d : ChannelFormValues) (m : members) (c : Channel) : ChannelFormValues :=
  let or s := Some (str_or s []) in
  mkForm (f_name d) (f_type d) (Some (normalizeBaseUrl (f_base_url d))) [] (or (f_openai_organization d)) (f_models d)
    (parseGroups (str_or (Some (formatGroups (f_group d))) (js "default"))) (or (f_model_mapping d))
    (Some (num_or (f_priority d) num_zero)) (Some (num_or (f_weight d) num_zero)) (or (f_test_model d))
    (Some (default (num_of_Z 1) (f_auto_ban d))) (ch_status c) (or (f_status_code_mapping d)) (or (f_tag d)) (or (f_remark d))
    (Some (buildSettingJSON d)) (or (f_param_override d)) (or (f_header_override d)) (Some (json_stringify (JObj (settingsObj d m)))) (Some (str_or (f_other d) (ch_other c)))
    (Some (js "single")) (Some (str_or (Some (multi_key_mode (ch_channel_info c))) (js "random"))) (Some false) (Some (js "append"))
    (reopened_extra (f_extra d)) (reopened_typed d m).

Lemma form_ok_config d cfg : form_ok d = true -> AdvancedCustom.parseAdvancedCustomConfig (advanced_custom (f_typed d)) = Some cfg -> json_ok cfg = true.
Proof.
  unfold form_ok. intros [Hv _]%andb_true_iff Hc. cbn [forallb] in Hv. rewrite !andb_true_iff in Hv.
  destruct Hv as (_ & _ & _ & _ & _ & _ & _ & _ & _ & Hx & _). by rewrite Hc in Hx.
Qed.

Lemma setting_read d : form_ok d = true -> readSetting (Some (buildSettingJSON d)) = reopened_extra (f_extra d).
Proof.
  unfold form_ok. intros [Hv _]%andb_true_iff. cbn [forallb] in Hv. rewrite !andb_true_iff in Hv.
  destruct Hv as (H1 & H2 & H3 & H4 & H5 & H6 & _).
  unfold buildSettingJSON. set (ps := [_; _; _; _; _; _]).
  destruct (object_text [] [] ps) as (r & E & _). unfold readSetting, json_stringify. rewrite E, <- E. fold (json_stringify (JObj ps)).
  rewrite json_parse_stringify.
  - unfold extra_of, reopened_extra, get, ps. get_member. by rewrite !json_or_idemp.
  - apply json_ok_object; [vm_compute; reflexivity|]. unfold ps. ok_members; by apply value_or_ok.
Qed.

Lemma get_typed_settings k d m :
  map_ok m = true -> forall o, map_get k (typed_table d) = Some o -> map_get k (settingsObj d m) = o.
Proof. intros Hm o Hk. rewrite get_settings by done. unfold settings_table. by rewrite map_get_app, Hk. Qed.

Lemma is_true_flag b f : is_true (flag_if b f) = b && is_on f.
Proof. by destruct b. Qed.

(** The keys the type table leaves alone. *)
Lemma get_other_settings k d m :
  map_ok m = true -> map_get k (typed_table d) = None ->
  map_get k (settingsObj d m) = match map_get k ((if fetchable d then upstream_table d m else []) ++ advanced_table d) with Some o => o | None => map_get k m end.
Proof. intros Hm Hk. rewrite get_settings by done. unfold settings_table. by rewrite map_get_app, Hk. Qed.

Lemma get_upstream_settings k d m o :
  map_ok m = true -> map_get k (typed_table d) = None -> bool_decide (k = js "advanced_custom") = false -> map_get k (upstream_table d m) = Some o ->
  map_get k (settingsObj d m) = if fetchable d then o else map_get k m.
Proof.
  intros Hm Hk Ha Ho. rewrite get_other_settings by done. rewrite map_get_app. destruct (fetchable d); [by rewrite Ho|].
  rewrite map_get_nil. unfold advanced_table. destruct (is_type _ CHANNEL_TYPE_ADVANCED_CUSTOM); [destruct (AdvancedCustom.parseAdvancedCustomConfig _)|].
  all: by rewrite ?map_get_cons, ?map_get_nil, ?Ha.
Qed.

Lemma get_kept_settings k d m :
  map_ok m = true -> map_get k (typed_table d) = None -> bool_decide (k = js "advanced_custom") = false -> map_get k (upstream_table d m) = None ->
  map_get k (settingsObj d m) = map_get k m.
Proof.
  intros Hm Hk Ha Ho. rewrite get_other_settings by done. rewrite map_get_app.
  assert (E : map_get k (if fetchable d then upstream_table d m else []) = None) by by destruct (fetchable d). rewrite E.
  unfold advanced_table. destruct (is_type _ CHANNEL_TYPE_ADVANCED_CUSTOM); [destruct (AdvancedCustom.parseAdvancedCustomConfig _)|].
  all: by rewrite ?map_get_cons, ?map_get_nil, ?Ha.
Qed.

Lemma get_advanced_settings d m :
  map_ok m = true ->
  map_get (js "advanced_custom") (settingsObj d m) =
  if is_type (f_type d) CHANNEL_TYPE_ADVANCED_CUSTOM then
    match AdvancedCustom.parseAdvancedCustomConfig (advanced_custom (f_typed d)) with Some c => Some c | None => map_get (js "advanced_custom") m end
  else None.
Proof.
  intros Hm. rewrite get_other_settings by (done || (vm_compute; reflexivity)). rewrite map_get_app.
  assert (U : map_get (js "advanced_custom") (if fetchable d then upstream_table d m else []) = None).
  { destruct (fetchable d); [|done]. unfold upstream_table. destruct (is_array _ && _), (is_number _); get_member; reflexivity. }
  rewrite U. unfold advanced_table. destruct (is_type _ CHANNEL_TYPE_ADVANCED_CUSTOM); [destruct (AdvancedCustom.parseAdvancedCustomConfig _)|].
  all: get_member; reflexivity.
Qed.

Lemma joinModels_strs l : joinModels (Some (JArr (map JStr l))) = join [comma] l.
Proof. unfold joinModels. cbn [json_to_string]. rewrite map_map. f_equal. apply map_id. Qed.

Lemma settings_read d m :
  form_ok d = true -> map_ok m = true -> readSettings (json_stringify (JObj (settingsObj d m))) = reopened_typed d m.
Proof.
  intros Hd Hm. destruct (object_text [] [] (settingsObj d m)) as (r & E & _). unfold readSettings.
  assert (N : match json_stringify (JObj (settingsObj d m)) with [] => False | _ => True end) by (unfold json_stringify; by rewrite E).
  destruct (json_stringify _) as [|x t] eqn:Et; [done|]. rewrite <- Et, settings_text_read by done. clear r E N x t Et.
  unfold typed_of, reopened_typed, get.
  assert (T : forall k o, map_get k (typed_table d) = Some o -> map_get k (settingsObj d m) = o) by (intros k; by apply get_typed_settings).
  assert (U : forall k o, map_get k (typed_table d) = None -> bool_decide (k = js "advanced_custom") = false -> map_get k (upstream_table d m) = Some o ->
    map_get k (settingsObj d m) = if fetchable d then o else map_get k m) by (intros k o; by apply get_upstream_settings).
  f_equal; try (erewrite T by (unfold typed_table; get_member; reflexivity)); rewrite ?is_true_flag; try reflexivity.
  - destruct (is_type _ 41); [by rewrite json_or_idemp | done].
  - destruct (is_type _ 33); [by rewrite json_or_idemp | done].
  - destruct (azure_responses_version _) as [v|]; [|by destruct (is_type _ 3)]. cbn [json_or]. by destruct (is_type _ 3), (json_truthy v) eqn:Ev; cbn [andb json_or]; rewrite ?Ev.
  - erewrite U; [ | vm_compute; reflexivity | vm_compute; reflexivity | unfold upstream_table; get_member; reflexivity]. by destruct (fetchable d).
  - erewrite U; [ | vm_compute; reflexivity | vm_compute; reflexivity | unfold upstream_table; get_member; reflexivity]. by destruct (fetchable d).
  - erewrite U; [ | vm_compute; reflexivity | vm_compute; reflexivity | unfold upstream_table; get_member; reflexivity].
    destruct (fetchable d); [|done]. f_equal. apply joinModels_strs.
  - rewrite get_advanced_settings by done. destruct (is_type _ CHANNEL_TYPE_ADVANCED_CUSTOM); [|done].
    destruct (AdvancedCustom.parseAdvancedCustomConfig _) as [c|] eqn:Ec; [|done]. apply AdvancedCustom.parseAdvancedCustomConfig_stable in Ec.
    destruct (AdvancedCustom.normalized_object _ _ Ec) as [rs ->]. cbn [advancedText json_truthy]. unfold AdvancedCustom.stringifyAdvancedCustomConfig. by rewrite Ec.
Qed.

Lemma buildSettings_object d m : parsedSettings (f_settings d) = JObj m -> buildSettingsJSON d = Some (json_stringify (JObj (settingsObj d m))).
Proof. intros H. unfold buildSettingsJSON. by rewrite H. Qed.

Lemma update_payload_inv d id p : transformFormDataToUpdatePayload d id = Some p -> exists t, buildSettingsJSON d = Some t /\ p = update_payload d id t.
Proof. unfold transformFormDataToUpdatePayload. intros (t & Ht & E)%bind_Some. apply (inj Some) in E. by exists t. Qed.

Lemma str_or_Some_idemp s : str_or (Some (str_or s [])) [] = str_or s [].
Proof. by destruct s as [[|]|]. Qed.

Lemma str_or_self s : str_or (Some s) [] = s.
Proof. by destruct s. Qed.

Lemma num_or_default n : num_or (Some (default num_zero n)) num_zero = num_or n num_zero.
Proof. by destruct n. Qed.

Lemma get_explicit k d id settings v : map_get k (explicit_fields d) = Some v -> map_get k (update_payload d id settings) = Some v.
Proof. intros H. by rewrite get_update, H. Qed.

Lemma get_plain k d id settings v :
  map_get k (explicit_fields d) = None -> bool_decide (k = js "key") = false -> map_get k (update_fields d id settings) = Some v ->
  map_get k (update_payload d id settings) = Some (clean_value v).
Proof. intros H1 H2 H3. by rewrite get_update, H1, H2, H3, andb_false_r. Qed.

Lemma text_is_clean v gap cur : clean_value (JStr (stringify gap cur (JObj v))) = JStr (stringify gap cur (JObj v)).
Proof. destruct (object_text gap cur v) as (r & E & _). by rewrite E. Qed.

Lemma readSetting_text s : readSetting s = readSetting (Some (str_or s [])).
Proof. by destruct s as [[|]|]. Qed.

Lemma object_text_or gap cur m x : str_or (Some (stringify gap cur (JObj m))) x = stringify gap cur (JObj m).
Proof. destruct (object_text gap cur m) as (r & E & _). by rewrite E. Qed.

Ltac read_payload H :=
  first [erewrite get_explicit in H; [|reflexivity] | erewrite get_plain in H; [|reflexivity|reflexivity|reflexivity]].

Lemma other_kept o c : Some (clean_value (JStr (str_or o []))) = Some JNull \/ Some (clean_value (JStr (str_or o []))) = Some (JStr c) -> str_or o c = c.
Proof. intros [H|H]; destruct o as [[|x r]|]; try done; cbn in H; by simplify_eq. Qed.

Lemma channel_reopen_saved d m id c :
  map_ok m = true -> form_ok d = true ->
  stores (update_payload d id (json_stringify (JObj (settingsObj d m)))) c ->
  transformChannelToFormDefaults c = reopened d m c.
Proof.
  intros Hm Hd (S1 & S2 & S3 & S4 & S5 & S6 & S7 & (n1 & N1 & S8) & (n2 & N2 & S9) & S10 & (n3 & N3 & S11) & S12 & S13 & S14 & S15 & S16 & S17 & S18 & S19).
  read_payload S1. read_payload S2. read_payload S3. read_payload S4. read_payload S5. read_payload S6. read_payload S7. read_payload S8. read_payload S9.
  read_payload S10. read_payload S11. read_payload S12. read_payload S13. read_payload S14. read_payload S15. read_payload S16. read_payload S17. read_payload S18. read_payload S19.
  assert (I : forall a b, Some (JStr a) = Some (JStr b) -> a = b) by (by intros a b [= ->]).
  assert (J : forall a b, Some (JNum a) = Some (JNum b) -> a = b) by (by intros a b [= ->]).
  apply other_kept in S19. apply (inj Some) in S1, S5, S6. apply clean_value_str in S1, S5, S6.
  unfold buildSettingJSON at 1 in S15. unfold json_stringify at 1 in S15. unfold json_stringify at 1 in S18. rewrite text_is_clean in S15, S18.
  apply I in S3, S4, S7, S10, S12, S13, S14, S15, S16, S17, S18. apply J in S2, S8, S9, S11. rewrite str_or_self in S14, S18.
  change (buildSettingJSON d = str_or (ch_setting c) []) in S15. change (json_stringify (JObj (settingsObj d m)) = ch_settings c) in S18.
  unfold transformChannelToFormDefaults, reopened. rewrite N1, N2, N3.
  rewrite <- S1, <- S2, <- S3, <- S4, <- S5, <- S6, <- S7, <- S8, <- S9, <- S10, <- S11, <- S12, <- S13, <- S14, <- S15, <- S16, <- S17, <- S18, S19.
  rewrite !num_or_default, readSetting_text, <- S15, setting_read, settings_read by done.
  unfold json_stringify at 1. rewrite object_text_or. reflexivity.
Qed.

(** ** Saving again *)
Lemma map_del_set_ne {V} k k' (v : V) (m : list (jsstr * V)) : k <> k' -> map_del k (map_set k' v m) = map_set k' v (map_del k m).
Proof.
  intros Hne. induction m as [|[k1 v1] m IH]; simpl; [by rewrite bool_decide_eq_false_2|].
  repeat case_bool_decide; simplify_eq/=; repeat case_bool_decide; simplify_eq/=; try done. by rewrite IH.
Qed.

Lemma map_del_set_fresh {V} k (v : V) (m : list (jsstr * V)) : map_get k m = None -> map_del k (map_set k v m) = m.
Proof. induction m as [|[k1 v1] m IH]; simpl; [by rewrite bool_decide_eq_true_2|]. case_bool_decide; [done|]. simpl. rewrite bool_decide_eq_false_2 by done. intros H'. by rewrite IH. Qed.

Lemma map_del_assign_all {V} k (us m : list (jsstr * V)) :
  map_get k us = None -> map_del k (fold_left (fun m p => map_set p.1 p.2 m) us m) = fold_left (fun m p => map_set p.1 p.2 m) us (map_del k m).
Proof.
  revert m. induction us as [|[k1 v] us IH]; intros m; [done|]. cbn [map_get fold_left]. case_bool_decide as E; [done|]. intros Hu.
  rewrite IH by done. by rewrite map_del_set_ne.
Qed.

Lemma map_del_clean k m : map_del k (clean_payload m) = clean_payload (map_del k m).
Proof. induction m as [|[k1 v] m IH]; simpl; [done|]. case_bool_decide; [done|]. simpl. by rewrite IH. Qed.

(** Without its key, a payload does not depend on the key of the form. *)
Lemma payload_without_key d id settings :
  map_del (js "key") (update_payload d id settings) =
  fold_left (fun m p => map_set p.1 p.2 m) (explicit_fields d) (clean_payload (update_fields d id settings)).
Proof.
  unfold update_payload. rewrite map_del_assign_all by reflexivity. rewrite map_del_clean.
  destruct (nonblank _); [rewrite map_del_set_fresh by reflexivity | rewrite map_del_noop by reflexivity]; reflexivity.
Qed.

Lemma flag_if_again b f : flag_if b (Some (b && is_on f)) = flag_if b f.
Proof. destruct b; [|done]. by destruct f as [[]|]. Qed.

Lemma typed_table_reopened d m c : typed_table (reopened d m c) = typed_table d.
Proof.
  unfold typed_table, openai_like. cbn [reopened f_type f_typed reopened_typed vertex_key_type azure_responses_version is_enterprise_account aws_key_type allow_service_tier
    disable_store allow_safety_identifier allow_include_obfuscation allow_inference_geo allow_speed claude_beta_query disable_task_polling_sleep].
  fold (openai_like d). rewrite !flag_if_again. cbn [andb].
  assert (A : (match Some (if is_type (f_type d) 3 then json_or (azure_responses_version (f_typed d)) (JStr []) else JStr []) with
               | Some v => if is_type (f_type d) 3 && json_truthy v then Some v else None | None => None end) =
              match azure_responses_version (f_typed d) with Some v => if is_type (f_type d) 3 && json_truthy v then Some v else None | None => None end).
  { destruct (is_type (f_type d) 3), (azure_responses_version (f_typed d)) as [v|]; try done. cbn. by destruct (json_truthy v) eqn:E; cbn; rewrite ?E. }
  cbv iota in A. rewrite A. destruct (is_type (f_type d) 41), (is_type (f_type d) 33); rewrite ?json_or_idemp; destruct (disable_task_polling_sleep (f_typed d)) as [[]|]; reflexivity.
Qed.

Lemma ignored_again l : Forall part_ok l -> NoDup l -> set_of_list (splitList (str_or (Some (join [comma] l)) [])) = l.
Proof. intros Hl Hn. rewrite str_or_self, splitList_join by done. by apply set_of_list_NoDup. Qed.

Lemma parsed_again m : map_ok m = true -> parsedSettings (Some (json_stringify (JObj m))) = JObj m.
Proof.
  intros Hm. pose proof (json_parse_stringify (JObj m) Hm) as P. destruct (object_text [] [] m) as (r & E & _). unfold json_stringify in *. rewrite E in *.
  unfold parsedSettings. case_bool_decide as Eb; [|by rewrite P]. rewrite Eb in P. vm_compute in P. by injection P as <-.
Qed.

Lemma ignoredModels_parts d : Forall part_ok (ignoredModels d) /\ NoDup (ignoredModels d).
Proof. unfold ignoredModels. split; [|apply NoDup_set_of_list]. apply Forall_set_of_list, splitList_parts. Qed.

Lemma reopened_upstream d m c :
  fetchable d = true ->
  check_on (reopened d m c) = check_on d /\
  is_on (upstream_model_update_auto_sync_enabled (f_typed (reopened d m c))) = check_on d && is_on (upstream_model_update_auto_sync_enabled (f_typed d)) /\
  ignoredModels (reopened d m c) = ignoredModels d.
Proof.
  intros Hf.
  assert (B : forall b, is_on (Some b) = b) by by intros [].
  assert (C : upstream_model_update_check_enabled (f_typed (reopened d m c)) = Some (if fetchable d then check_on d else is_true (map_get (js "upstream_model_update_check_enabled") m)))
    by reflexivity.
  assert (A : upstream_model_update_auto_sync_enabled (f_typed (reopened d m c)) =
    Some (if fetchable d then check_on d && is_on (upstream_model_update_auto_sync_enabled (f_typed d)) else is_true (map_get (js "upstream_model_update_auto_sync_enabled") m))) by reflexivity.
  assert (L : upstream_model_update_ignored_models (f_typed (reopened d m c)) =
    Some (if fetchable d then join [comma] (ignoredModels d) else joinModels (map_get (js "upstream_model_update_ignored_models") m))) by reflexivity.
  rewrite Hf in *. split_and!.
  - unfold check_on at 1. by rewrite C, B.
  - by rewrite A, B.
  - unfold ignoredModels at 1. rewrite L. destruct (ignoredModels_parts d). by apply ignored_again.
Qed.

Lemma upstream_again d m c :
  map_ok m = true -> fetchable d = true ->
  Forall (fun u => map_get u.1 (settingsObj d m) = u.2) (upstream_table (reopened d m c) (settingsObj d m)).
Proof.
  intros Hm Hf. destruct (reopened_upstream d m c Hf) as (C & A & L).
  assert (U : forall k o, map_get k (typed_table d) = None -> bool_decide (k = js "advanced_custom") = false -> map_get k (upstream_table d m) = Some o -> map_get k (settingsObj d m) = o).
  { intros k o H1 H2 H3. erewrite get_upstream_settings by done. by rewrite Hf. }
  unfold upstream_table. rewrite C, A, L. rewrite !Forall_app. split_and!.
  - repeat (apply List.Forall_cons; [|]); [..|apply List.Forall_nil]; cbn [fst snd].
    all: erewrite U; [|vm_compute; reflexivity|vm_compute; reflexivity|unfold upstream_table; get_member; reflexivity].
    + done.
    + by destruct (check_on d).
    + done.
  - destruct (is_array _ && check_on d) eqn:E; [constructor|]. constructor; [|constructor]. cbn [fst snd].
    destruct (is_array (map_get (js "upstream_model_update_last_detected_models") m) && check_on d) eqn:Em.
    + exfalso. rewrite (get_kept_settings _ d m) in E; [congruence | done | vm_compute; reflexivity | vm_compute; reflexivity |].
      unfold upstream_table. rewrite Em. destruct (is_number _); get_member; reflexivity.
    + apply U; [vm_compute; reflexivity..|]. unfold upstream_table. rewrite Em. destruct (is_number _); get_member; reflexivity.
  - destruct (is_number (map_get _ (settingsObj d m))) eqn:E; [constructor|]. exfalso.
    destruct (is_number (map_get (js "upstream_model_update_last_check_time") m)) eqn:Em.
    + rewrite (get_kept_settings _ d m) in E; [congruence | done | vm_compute; reflexivity | vm_compute; reflexivity |].
      unfold upstream_table. rewrite Em. destruct (is_array _ && _); get_member; reflexivity.
    + rewrite (U _ (Some (JNum num_zero))) in E; [done | vm_compute; reflexivity | vm_compute; reflexivity |].
      unfold upstream_table. rewrite Em. destruct (is_array _ && _); get_member; reflexivity.
Qed.

(** The settings of a reopened form are already in force. *)
Lemma settings_again d m c :
  map_ok m = true -> form_ok d = true -> (is_type (f_type d) CHANNEL_TYPE_ADVANCED_CUSTOM = true -> AdvancedCustom.parseAdvancedCustomConfig (advanced_custom (f_typed d)) <> None) ->
  settingsObj (reopened d m c) (settingsObj d m) = settingsObj d m.
Proof.
  intros Hm Hd Ha. pose proof (settingsObj_ok d m Hd Hm) as Hms. rewrite settingsObj_table by by apply map_ok_keys.
  apply apply_updates_noop; [done|]. unfold settings_table. rewrite !Forall_app. split_and!.
  - rewrite typed_table_reopened. apply Forall_forall. intros [k o] Hin. cbn [fst snd]. apply get_typed_settings; [done|].
    apply elem_map_get; [apply typed_table_keys | done].
  - change (fetchable (reopened d m c)) with (fetchable d). destruct (fetchable d) eqn:Hf; [by apply upstream_again | constructor].
  - unfold advanced_table. change (f_type (reopened d m c)) with (f_type d).
    destruct (is_type (f_type d) CHANNEL_TYPE_ADVANCED_CUSTOM) eqn:Et.
    + destruct (AdvancedCustom.parseAdvancedCustomConfig (advanced_custom (f_typed d))) as [cfg|] eqn:Ec; [|by destruct (Ha eq_refl)].
      assert (R : advanced_custom (f_typed (reopened d m c)) = Some (json_pretty cfg)).
      { change (advanced_custom (f_typed (reopened d m c))) with (Some (if is_type (f_type d) CHANNEL_TYPE_ADVANCED_CUSTOM then
          match AdvancedCustom.parseAdvancedCustomConfig (advanced_custom (f_typed d)) with Some config => json_pretty config | None => advancedText (map_get (js "advanced_custom") m) end else [])).
        by rewrite Et, Ec. }
      rewrite R, AdvancedCustom.parse_pretty; [|by apply (form_ok_config d)|by eapply AdvancedCustom.parseAdvancedCustomConfig_stable].
      constructor; [|constructor]. cbn [fst snd]. by rewrite get_advanced_settings, Et, Ec.
    + constructor; [|constructor]. cbn [fst snd]. by rewrite get_advanced_settings, Et.
Qed.

(** The group list survives its text, numbers their default. *)
Definition resavable (d : ChannelFormValues) : Prop :=
  normalizeBaseUrl (Some (normalizeBaseUrl (f_base_url d))) = normalizeBaseUrl (f_base_url d) /\
  f_group d <> [] /\ Forall part_ok (f_group d) /\
  num_or (f_priority d) num_zero = default num_zero (f_priority d) /\ num_or (f_weight d) num_zero = default num_zero (f_weight d) /\
  (is_type (f_type d) CHANNEL_TYPE_ADVANCED_CUSTOM = true -> AdvancedCustom.parseAdvancedCustomConfig (advanced_custom (f_typed d)) <> None).

Lemma extra_again e : forall d, f_extra d = reopened_extra e -> forall d', f_extra d' = e -> buildSettingJSON d = buildSettingJSON d'.
Proof.
  intros d Hd d' Hd'. unfold buildSettingJSON. rewrite Hd, Hd'. unfold reopened_extra.
  cbn [force_format thinking_to_content proxy pass_through_body_enabled system_prompt system_prompt_override]. by rewrite !json_or_idemp.
Qed.

Lemma str_or_null_again s : str_or_null (Some (str_or s [])) = str_or_null s.
Proof. by destruct s as [[|]|]. Qed.

Lemma resave d m c id text :
  resavable d -> str_or (f_other d) (ch_other c) = str_or (f_other d) [] -> update_fields (reopened d m c) id text = update_fields d id text /\ explicit_fields (reopened d m c) = explicit_fields d.
Proof.
  intros (Hb & Hg & Hp & Hn1 & Hn2 & _) Ho.
  assert (G : formatGroups (f_group (reopened d m c)) = formatGroups (f_group d)).
  { change (f_group (reopened d m c)) with (parseGroups (str_or (Some (formatGroups (f_group d))) (js "default"))). 
    assert (E : exists x r, formatGroups (f_group d) = x :: r).
    { unfold formatGroups. destruct (f_group d) as [|g gs]; [done|]. apply Forall_cons in Hp as [(Hne & _) _]. destruct g as [|x g]; [done|]. by destruct gs; eexists _, _. }
    destruct E as (x & r & E). rewrite E. cbn [str_or parseGroups]. rewrite <- E. f_equal. by apply splitList_join. }
  unfold update_fields, explicit_fields. rewrite G, (extra_again (f_extra d) (reopened d m c) eq_refl d eq_refl).
  cbn [reopened f_name f_type f_base_url f_openai_organization f_models f_model_mapping f_priority f_weight f_test_model f_auto_ban f_status_code_mapping f_tag f_remark
    f_param_override f_header_override f_other default from_option].
  rewrite Ho, Hb, Hn1, Hn2, !str_or_null_again, !str_or_Some_idemp. done.
Qed.

(** ** Properties *)

(** C14.  The settings text refines the table of keys per channel type: it is a
    JSON object in which every key of the table has the value the channel type
    gives it, or is absent, and every key the form does not know is as it was. *)
Theorem settings_refine (d : ChannelFormValues) (m : members) (Hs : parsedSettings (f_settings d) = JObj m) (Hm : map_ok m = true) (Hd : form_ok d = true) :
  exists text m', buildSettingsJSON d = Some text /\ json_parse text = Some (JObj m') /\
    forall k, map_get k m' = match map_get k (settings_table d m) with Some o => o | None => map_get k m end.
Proof.
  exists (json_stringify (JObj (settingsObj d m))), (settingsObj d m). split; [by apply buildSettings_object|].
  split; [by apply settings_text_read | intros k; by apply get_settings].
Qed.

(** C4.  Opening a channel that was saved from a form shows that form again,
    with the key left empty, the base URL and the lists in normal form, and the
    settings of other channel types at their defaults; an [other] that was
    cleared shows what the server kept. *)
Theorem save_reopen_form (d : ChannelFormValues) (m p : members) (id : num) (c : Channel)
    (Hs : parsedSettings (f_settings d) = JObj m) (Hm : map_ok m = true) (Hd : form_ok d = true)
    (Hp : transformFormDataToUpdatePayload d id = Some p) (Hc : stores p c) :
  transformChannelToFormDefaults c = reopened d m c.
Proof.
  apply update_payload_inv in Hp as (t & Ht & ->). rewrite (buildSettings_object _ _ Hs) in Ht. apply (inj Some) in Ht as <-. by eapply channel_reopen_saved.
Qed.

(** Saving a channel that was opened and not edited sends what was sent
    before, without the key, unless the server kept a cleared [other]. *)
Theorem save_again (d : ChannelFormValues) (m p : members) (id : num) (c : Channel)
    (Hs : parsedSettings (f_settings d) = JObj m) (Hm : map_ok m = true) (Hd : form_ok d = true) (Hr : resavable d)
    (Ho : str_or (f_other d) (ch_other c) = str_or (f_other d) []) (Hp : transformFormDataToUpdatePayload d id = Some p) (Hc : stores p c) :
  transformFormDataToUpdatePayload (transformChannelToFormDefaults c) id = Some (map_del (js "key") p).
Proof.
  apply update_payload_inv in Hp as (t & Ht & ->). rewrite (buildSettings_object _ _ Hs) in Ht. apply (inj Some) in Ht as <-.
  rewrite (channel_reopen_saved d m id c) by done. pose proof (settingsObj_ok d m Hd Hm) as Hms.
  unfold transformFormDataToUpdatePayload.
  rewrite (buildSettings_object (reopened d m c) (settingsObj d m)) by (by apply parsed_again). rewrite settings_again by (try done; apply Hr).
  cbn [mbind option_bind]. f_equal. rewrite payload_without_key. destruct (resave d m c id (json_stringify (JObj (settingsObj d m))) Hr Ho) as [E1 E2].
  rewrite <- E1, <- E2. reflexivity.
Qed.

(** The base URL of a form is not always in normal form after one save. *)
Theorem base_url_changes_again : exists url,
  normalizeBaseUrl (Some (normalizeBaseUrl (Some url))) <> normalizeBaseUrl (Some url).
Proof. exists (js "https://a /"). vm_compute. discriminate. Qed.

(** ** Accepted forms *)
Lemma issue_if_nil b p m : issue_if b p m = [] <-> b = false.
Proof. by destruct b. Qed.

Lemma app_nil_iff {A} (l1 l2 : list A) : l1 ++ l2 = [] <-> l1 = [] /\ l2 = [].
Proof. split; [apply app_eq_nil | by intros [-> ->]]. Qed.

(** A text that is empty or holds a JSON object. *)
Definition object_text_or_blank (s : jsstr) : Prop := nonblank (Some s) = false \/ exists ps, json_parse s = Some (JObj ps).

Lemma optional_object value : isOptionalJsonObject value = true -> object_text_or_blank (str_or value []).
Proof.
  unfold isOptionalJsonObject, parseOptionalJson, object_text_or_blank. destruct value as [[|x r]|]; [by left | | by left]. cbn [str_or default from_option].
  unfold default, from_option, id. destruct (nonblank (Some (x :: r))); [|by left]. destruct (json_parse (x :: r)) as [[]|]; cbn; try done. right. by eexists.
Qed.

Lemma optional_mapping value : isOptionalModelMapping value = true -> isOptionalJsonObject value = true.
Proof. unfold isOptionalModelMapping, isOptionalJsonObject. by destruct (parseOptionalJson value) as [[[]|]|]. Qed.

Lemma optional_status value : isOptionalStatusCodeMapping value = true -> isOptionalJsonObject value = true.
Proof. unfold isOptionalStatusCodeMapping, isOptionalJsonObject. by destruct (parseOptionalJson value) as [[[]|]|]. Qed.

Lemma blank_not_json s : nonblank (Some s) = false -> json_parse s = None.
Proof.
  unfold nonblank. cbn [default from_option]. unfold default, from_option, id. intros H.
  assert (W : forallb is_ws s = true) by (apply trim_nil_all_ws; by destruct (trim s)).
  unfold json_parse. replace (2 * length s + 2)%nat with (S (2 * length s + 1)) by lia. cbn [parse_value]. pose proof (forallb_skip_ws is_ws s W) as Hs.
  destruct (skip_ws s) as [|c r]; [done|]. cbn [forallb] in Hs. apply andb_true_iff in Hs as [Hc _].
  assert (R : c = 32 \/ 9 <= c <= 13 \/ 160 <= c) by (unfold is_ws in Hc; lia).
  assert (F : forall k, 33 <= k <= 126 -> (c =? k) = false) by (intros k Hk; apply Z.eqb_neq; lia).
  assert (D : is_digit c = false) by (unfold is_digit; lia).
  assert (P : forall k rest, 33 <= k <= 126 -> strip_prefix (k :: rest) (c :: r) = None) by (intros k rest Hk; cbn [strip_prefix]; by rewrite Z.eqb_sym, F).
  rewrite (F dquote), (F 91), (F 123) by (unfold dquote; lia).
  change (js "null") with (110 :: [117; 108; 108]). change (js "true") with (116 :: [114; 117; 101]). change (js "false") with (102 :: [97; 108; 115; 101]).
  rewrite !P by lia. unfold parse_json_number. rewrite (F minus) by (unfold minus; lia). unfold json_unsigned. cbn [take_while]. by rewrite D.
Qed.

Lemma accepted_settings value : isOptionalJsonObject value = true -> exists m, parsedSettings value = JObj m.
Proof.
  unfold isOptionalJsonObject, parseOptionalJson, parsedSettings. destruct value as [[|x r]|]; [by eexists | | by eexists].
  unfold default, from_option, id. destruct (nonblank (Some (x :: r))) eqn:E.
  - destruct (json_parse (x :: r)) as [[]|]; cbn; try done. intros _. case_bool_decide; by eexists.
  - intros _. case_bool_decide; [by eexists|]. rewrite blank_not_json by done. by eexists.
Qed.

Section Accepted.
Context (parseURL : jsstr -> option (jsstr * jsstr)) (typeMessage : jsstr -> jsstr).

Lemma schema_accepts d :
  channelFormSchema parseURL typeMessage d = Some [] -> typeIssues typeMessage d = [] /\ fieldIssues d = [] /\ superRefine parseURL d = Some [].
Proof.
  unfold channelFormSchema. destruct (typeIssues typeMessage d) as [|e es].
  - intros (more & Hm & [= E])%bind_Some. apply app_eq_nil in E as [-> ->]. done.
  - intros [= E]. by apply app_eq_nil in E as [_ E].
Qed.

Lemma fields_accept d : fieldIssues d = [] -> isOptionalJsonObject (f_settings d) = true /\ f_models d <> [].
Proof.
  unfold fieldIssues. intros Hf. repeat (apply app_eq_nil in Hf as [? Hf]). repeat match goal with H : issue_if _ _ _ = [] |- _ => apply issue_if_nil in H end.
  split; [by apply negb_false_iff|]. by eapply bool_decide_eq_false.
Qed.

Lemma accepted_object d : channelFormSchema parseURL typeMessage d = Some [] -> exists m, parsedSettings (f_settings d) = JObj m.
Proof. intros (_ & Hf & _)%schema_accepts. apply accepted_settings. by apply fields_accept. Qed.

Lemma advanced_accepts d :
  advancedIssues parseURL d = Some [] -> exists cfg config,
    AdvancedCustom.parseAdvancedCustomConfig (advanced_custom (f_typed d)) = Some cfg /\ AdvancedCustom.config_of_json cfg = Some config /\
    AdvancedCustom.validateAdvancedCustomConfig parseURL (Some config) = None /\
    (AdvancedCustom.advancedCustomConfigUsesRelativeUpstreamPath (Some config) = true -> nonblank (f_base_url d) = true).
Proof.
  unfold advancedIssues. intros (config & Hc & [= E])%bind_Some. apply app_eq_nil in E as [E1 E2]. apply issue_if_nil in E2.
  destruct (AdvancedCustom.parseAdvancedCustomConfig _) as [cfg|]; [|injection Hc as <-; done].
  destruct (AdvancedCustom.config_of_json cfg) as [config'|] eqn:Ec; [|done]. injection Hc as <-. exists cfg, config'.
  split_and!; [done..| |].
  - by destruct (AdvancedCustom.validateAdvancedCustomConfig parseURL (Some config')).
  - intros Hr. rewrite Hr in E2. by destruct (nonblank (f_base_url d)).
Qed.

(** C24.  A form that the schema accepts can be saved: the payload is built without
    an exception, its mappings and overrides are blank or JSON objects, the key is
    sent exactly when it is not blank, and an advanced custom channel carries a
    configuration that passes its validation. *)
Theorem accepted_form_saves (d : ChannelFormValues) (id : num) (Hok : channelFormSchema parseURL typeMessage d = Some []) :
  exists m p, parsedSettings (f_settings d) = JObj m /\ transformFormDataToUpdatePayload d id = Some p /\
    (forall k, k ∈ [js "model_mapping"; js "status_code_mapping"; js "param_override"; js "header_override"] ->
       exists s, map_get k p = Some (JStr s) /\ object_text_or_blank s) /\
    map_get (js "key") p = (if nonblank (Some (f_key d)) then Some (JStr (f_key d)) else None) /\
    (is_type (f_type d) CHANNEL_TYPE_ADVANCED_CUSTOM = true -> map_ok m = true ->
       exists cfg config, map_get (js "advanced_custom") (settingsObj d m) = Some cfg /\ AdvancedCustom.config_of_json cfg = Some config /\
         AdvancedCustom.validateAdvancedCustomConfig parseURL (Some config) = None /\
         (AdvancedCustom.advancedCustomConfigUsesRelativeUpstreamPath (Some config) = true -> nonblank (f_base_url d) = true)).
Proof.
  apply schema_accepts in Hok as (_ & Hf & Hr). unfold fieldIssues in Hf.
  repeat (apply app_eq_nil in Hf as [? Hf]). repeat match goal with H : issue_if _ _ _ = [] |- _ => apply issue_if_nil in H end.
  repeat match goal with H : negb _ = false |- _ => apply negb_false_iff in H end.
  destruct (accepted_settings (f_settings d)) as [m Hm]; [done|]. exists m, (update_payload d id (json_stringify (JObj (settingsObj d m)))).
  split; [done|]. split; [|split; [|split]].
  - unfold transformFormDataToUpdatePayload. by rewrite (buildSettings_object _ _ Hm).
  - intros k Hk. repeat (apply elem_of_cons in Hk as [->|Hk]; [erewrite get_explicit by reflexivity; eexists; split; [reflexivity|]; apply optional_object;
      first [assumption | by apply optional_mapping | by apply optional_status]|]). by apply elem_of_nil in Hk.
  - rewrite get_update. change (map_get (js "key") (explicit_fields d)) with (@None json). cbv iota.
    change (bool_decide (js "key" = js "key")) with true. rewrite andb_true_r. destruct (nonblank (Some (f_key d))) eqn:E; [|reflexivity].
    unfold nonblank in E. destruct (f_key d); [done | reflexivity].
  - intros Ht Hmo. unfold superRefine in Hr. rewrite Ht in Hr. apply bind_Some in Hr as (adv & Ha & [= E]).
    apply app_eq_nil in E as [_ E]. apply app_eq_nil in E as [-> _]. apply advanced_accepts in Ha as (cfg & config & Hc1 & Hc2 & Hc3 & Hc4).
    exists cfg, config. by rewrite get_advanced_settings, Ht, Hc1.
Qed.
End Accepted.

(** ** Witnesses *)
Definition q (s : jsstr) : jsstr := json_quote s.

(** A Vertex AI channel whose settings text has a key of another type and one
    that the form does not know. *)
Definition example_settings : jsstr :=
  js "{" ++ q (js "custom") ++ js ":[true]," ++ q (js "aws_key_type") ++ js ":" ++ q (js "api_key") ++ js "}".

Definition example_members : members := [(js "custom", JArr [JBool true]); (js "aws_key_type", JStr (js "api_key"))].

Definition example_form : ChannelFormValues :=
  mkForm (js "vertex") (num_of_Z 41) (Some (js "https://a.b/")) (js "secret") None (js "gemini") [js "default"; js "vip"] None (Some (num_of_Z 5)) None None None
    (num_of_Z 1) None (Some (js "t")) None None None None (Some example_settings) (Some (js "us")) (Some (js "single")) None None None
    (mkExtra None None (Some (JStr (js "http://p"))) None None (Some (JBool true)))
    (mkTypeSettings None (Some (JStr (js "api_key"))) None None None None None None None None None (Some true) None None None None).

Definition example_channel : Channel :=
  mkChannel (num_of_Z 7) (num_of_Z 41) (js "***") None None (num_of_Z 2) (js "vertex") (Some num_zero) num_zero (Some (js "https://a.b")) (js "us") num_zero
    (js "gemini") (js "default,vip") num_zero None None (Some (num_of_Z 5)) (Some (num_of_Z 1)) (Some (js "t")) (Some (buildSettingJSON example_form)) None None []
    (mkInfo false 0 None (js "random")) (json_stringify (JObj (settingsObj example_form example_members))).

Lemma settings_refine_witness :
  exists text m', buildSettingsJSON example_form = Some text /\ json_parse text = Some (JObj m') /\
    forall k, map_get k m' = match map_get k (settings_table example_form example_members) with Some o => o | None => map_get k example_members end.
Proof. apply (settings_refine example_form example_members); vm_compute; reflexivity. Defined.

Definition example_payload : members := update_payload example_form (num_of_Z 7) (json_stringify (JObj (settingsObj example_form example_members))).

Lemma example_stored : stores example_payload example_channel.
Proof. unfold stores. cbv zeta. split_and!; try (vm_compute; reflexivity);
  first [eexists; split; vm_compute; reflexivity | left; vm_compute; reflexivity | right; vm_compute; reflexivity]. Qed.

Lemma save_reopen_form_witness :
  transformChannelToFormDefaults example_channel = reopened example_form example_members example_channel.
Proof.
  apply (save_reopen_form example_form example_members example_payload (num_of_Z 7) example_channel); [vm_compute; reflexivity..|].
  exact example_stored.
Defined.

Lemma example_resavable : resavable example_form.
Proof.
  unfold resavable. split_and!; try (vm_compute; reflexivity).
  - discriminate.
  - repeat constructor; vm_compute; discriminate || reflexivity.
  - intros H. vm_compute in H. discriminate H.
Qed.

Lemma save_again_witness :
  transformFormDataToUpdatePayload (transformChannelToFormDefaults example_channel) (num_of_Z 7) = Some (map_del (js "key") example_payload).
Proof.
  apply (save_again example_form example_members example_payload (num_of_Z 7) example_channel); [vm_compute; reflexivity..| | | |].
  - exact example_resavable.
  - vm_compute; reflexivity.
  - vm_compute; reflexivity.
  - exact example_stored.
Defined.

(** An advanced custom channel with one route. *)
Definition advanced_example : ChannelFormValues :=
  mkForm (js "custom") (num_of_Z 58) (Some (js "https://a.b")) [] None (js "m") [js "default"] None None None None None (num_of_Z 1)
    None None None None None None None None None None None None (mkExtra None None None None None None)
    (mkTypeSettings None None None None None None None None None None None None None None None
       (AdvancedCustom.stringifyAdvancedCustomConfig (AdvancedCustom.json_of_config AdvancedCustom.createAdvancedCustomConfig))).

Lemma accepted_form_saves_witness :
  channelFormSchema (fun _ => None) id advanced_example = Some [] /\
  exists m p, parsedSettings (f_settings advanced_example) = JObj m /\ transformFormDataToUpdatePayload advanced_example (num_of_Z 3) = Some p.
Proof.
  assert (H : channelFormSchema (fun _ => None) id advanced_example = Some []) by (vm_compute; reflexivity). split; [exact H|].
  destruct (accepted_form_saves (fun _ => None) id advanced_example (num_of_Z 3) H) as (m & p & H1 & H2 & _). exists m, p. split; assumption.
Defined.
End ChannelForm.
