(* ===== verification/ChannelDrawer.v ===== *)
(** * The channel drawer
    ([src/web/default/src/features/channels]: [components/drawers/channel-mutate-drawer.tsx],
    [hooks/use-channel-mutate-form.ts]; [src/web/default/src/lib/channel-connection-info.ts])

    The drawer edits a new or an existing channel.  Submitting runs the checks of
    the mappings, asks the user about risky redirects and about mapped models that
    the channel does not offer, and sends a request.  Both questions are promises:
    the submission waits for an answer while the page goes on, so the drawer is a
    step relation whose state holds the waiting submissions. *)
From stdpp Require Import relations.
From Stdlib Require Import SpecFloat.
From S2P Require Import Prelude JsString JsNumber Json JsonText JsObject ChannelGuards AdvancedCustom ChannelForm.
Import ChannelForm StatusCodeRiskGuard ModelMappingValidation.
Local Open Scope Z_scope.

Module ChannelDrawer.

(** ** Connection info *)
Record ChannelConnectionInfo := mkConnection { info_key : jsstr; info_url : jsstr }.

Definition CHANNEL_CONNECTION_INFO_TYPE : jsstr := js "newapi_channel_conn".

Definition parseChannelConnectionInfo (text : jsstr) : option ChannelConnectionInfo :=
  match text with
  | [] => None
  | _ =>
      match json_parse (trim text) with
      | Some (JObj ps) =>
          match map_get (js "_type") ps, map_get (js "key") ps, map_get (js "url") ps with
          | Some (JStr t), Some (JStr key), Some (JStr url) =>
              if bool_decide (t = CHANNEL_CONNECTION_INFO_TYPE) then Some (mkConnection key url) else None
          | _, _, _ => None
          end
      | _ => None
      end
  end.

Definition encodeChannelConnectionInfo (key url : jsstr) : jsstr :=
  json_stringify (JObj [(js "_type", JStr CHANNEL_CONNECTION_INFO_TYPE); (js "key", JStr key); (js "url", JStr url)]).

(** ** Changing one field of the form *)
Section Setters.
Context (d : ChannelFormValues).

Definition set_base_url (v : jsstr) : ChannelFormValues :=
  mkForm (f_name d) (f_type d) (Some v) (f_key d) (f_openai_organization d) (f_models d) (f_group d) (f_model_mapping d) (f_priority d) (f_weight d)
    (f_test_model d) (f_auto_ban d) (f_status d) (f_status_code_mapping d) (f_tag d) (f_remark d) (f_setting d) (f_param_override d) (f_header_override d)
    (f_settings d) (f_other d) (f_multi_key_mode d) (f_multi_key_type d) (f_batch_add_set_key_prefix_2_name d) (f_key_mode d) (f_extra d) (f_typed d).

Definition set_key (v : jsstr) : ChannelFormValues :=
  mkForm (f_name d) (f_type d) (f_base_url d) v (f_openai_organization d) (f_models d) (f_group d) (f_model_mapping d) (f_priority d) (f_weight d)
    (f_test_model d) (f_auto_ban d) (f_status d) (f_status_code_mapping d) (f_tag d) (f_remark d) (f_setting d) (f_param_override d) (f_header_override d)
    (f_settings d) (f_other d) (f_multi_key_mode d) (f_multi_key_type d) (f_batch_add_set_key_prefix_2_name d) (f_key_mode d) (f_extra d) (f_typed d).

Definition set_models (v : jsstr) : ChannelFormValues :=
  mkForm (f_name d) (f_type d) (f_base_url d) (f_key d) (f_openai_organization d) v (f_group d) (f_model_mapping d) (f_priority d) (f_weight d)
    (f_test_model d) (f_auto_ban d) (f_status d) (f_status_code_mapping d) (f_tag d) (f_remark d) (f_setting d) (f_param_override d) (f_header_override d)
    (f_settings d) (f_other d) (f_multi_key_mode d) (f_multi_key_type d) (f_batch_add_set_key_prefix_2_name d) (f_key_mode d) (f_extra d) (f_typed d).

Definition set_other (v : jsstr) : ChannelFormValues :=
  mkForm (f_name d) (f_type d) (f_base_url d) (f_key d) (f_openai_organization d) (f_models d) (f_group d) (f_model_mapping d) (f_priority d) (f_weight d)
    (f_test_model d) (f_auto_ban d) (f_status d) (f_status_code_mapping d) (f_tag d) (f_remark d) (f_setting d) (f_param_override d) (f_header_override d)
    (f_settings d) (Some v) (f_multi_key_mode d) (f_multi_key_type d) (f_batch_add_set_key_prefix_2_name d) (f_key_mode d) (f_extra d) (f_typed d).

Definition set_multi_key_mode (v : jsstr) : ChannelFormValues :=
  mkForm (f_name d) (f_type d) (f_base_url d) (f_key d) (f_openai_organization d) (f_models d) (f_group d) (f_model_mapping d) (f_priority d) (f_weight d)
    (f_test_model d) (f_auto_ban d) (f_status d) (f_status_code_mapping d) (f_tag d) (f_remark d) (f_setting d) (f_param_override d) (f_header_override d)
    (f_settings d) (f_other d) (Some v) (f_multi_key_type d) (f_batch_add_set_key_prefix_2_name d) (f_key_mode d) (f_extra d) (f_typed d).
End Setters.

Definition applyConnectionInfo (d : ChannelFormValues) (info : ChannelConnectionInfo) : ChannelFormValues :=
  set_base_url (set_key d (info_key info)) (info_url info).

(** ** The drawer's environment *)
(** Who edits which channel: [channelId] is the row's, when one is edited. *)
Record Env := mkEnv { isEditing : bool; canEditSensitive : bool; isMultiKeyChannel : bool; channelId : num }.

Definition sensitiveLocked (e : Env) : bool := isEditing e && negb (canEditSensitive e).

Definition SENSITIVE_FORM_FIELDS : list jsstr :=
  [js "type"; js "base_url"; js "key"; js "openai_organization"; js "other"; js "key_mode"; js "param_override"; js "header_override"; js "settings";
   js "setting"; js "advanced_custom"; js "is_enterprise_account"; js "vertex_key_type"; js "aws_key_type"; js "azure_responses_version"; js "force_format";
   js "thinking_to_content"; js "proxy"; js "pass_through_body_enabled"; js "system_prompt"; js "system_prompt_override"; js "allow_service_tier";
   js "disable_store"; js "allow_safety_identifier"; js "allow_include_obfuscation"; js "allow_inference_geo"; js "allow_speed"; js "claude_beta_query";
   js "disable_task_polling_sleep"; js "upstream_model_update_check_enabled"; js "upstream_model_update_auto_sync_enabled";
   js "upstream_model_update_ignored_models"].

Definition SENSITIVE_UPDATE_FIELDS : list jsstr :=
  [js "type"; js "key"; js "base_url"; js "openai_organization"; js "param_override"; js "header_override"; js "setting"; js "settings"; js "other"].

(** ** Effects on the form of a new channel *)
Definition ARK_URL : jsstr := js "https://ark.cn-beijing.volces.com".

(** Runs when the type has changed. *)
Definition effect_type_defaults (e : Env) (d : ChannelFormValues) : ChannelFormValues :=
  if isEditing e then d
  else
    let d := if is_type (f_type d) 45 && bool_decide (default [] (f_base_url d) = []) then set_base_url d ARK_URL else d in
    if is_type (f_type d) 18 && bool_decide (default [] (f_other d) = []) then set_other d (js "v2.1") else d.

Definition effect_doubao (d : ChannelFormValues) : ChannelFormValues :=
  if negb (is_type (f_type d) 45) || negb (bool_decide (f_base_url d = Some (js "doubao-coding-plan"))) then d else set_base_url d ARK_URL.

Definition supportsMultiKeyAddMode (d : ChannelFormValues) : bool :=
  negb (is_type (f_type d) 57) && negb (is_type (f_type d) 41 && is_key_type (js "api_key") d).

Definition effect_add_mode (e : Env) (d : ChannelFormValues) : ChannelFormValues :=
  if isEditing e || supportsMultiKeyAddMode d then d else if batchMode d then set_multi_key_mode d (js "single") else d.

(** The effects of one commit, in order; the first one's dependencies are the
    type and the mode. *)
Definition commit (e : Env) (typeChanged : bool) (d : ChannelFormValues) : ChannelFormValues :=
  effect_add_mode e (effect_doubao (if typeChanged then effect_type_defaults e d else d)).

(** ** What the page shows *)
Definition ADD_MODE_OPTIONS : list jsstr := [js "single"; js "batch"; js "multi_to_single"].
Definition addModeOptions (d : ChannelFormValues) : list jsstr :=
  if supportsMultiKeyAddMode d then ADD_MODE_OPTIONS else List.filter (fun o => bool_decide (o = js "single")) ADD_MODE_OPTIONS.

Definition hasConfiguredOverrideValue (value : option jsstr) : bool :=
  match value with
  | None => false
  | Some v =>
      match trim v with
      | [] => false
      | trimmed =>
          if bool_decide (trimmed = js "null") then false
          else match json_parse trimmed with
               | None => true
               | Some JNull => false
               | Some (JArr l) => match l with [] => false | _ => true end
               | Some (JObj ps) => match ps with [] => false | _ => true end
               | Some _ => true
               end
      end
  end.

Definition truthy_opt (v : option json) : bool := match v with Some w => json_truthy w | None => false end.

(** [v?.trim()] of a field that holds a string. *)
Definition nonblank_json (v : option json) : bool := match v with Some (JStr s) => nonblank (Some s) | _ => false end.
Definition num_on (n : option num) : bool := match n with Some x => num_truthy x | None => false end.

Definition hasAdvancedSettingsValues (d : ChannelFormValues) : bool :=
  let e := f_extra d in
  let s := f_typed d in
  hasConfiguredOverrideValue (f_param_override d) || hasConfiguredOverrideValue (f_header_override d) || nonblank (advanced_custom s) ||
  hasConfiguredOverrideValue (f_status_code_mapping d) || nonblank (f_tag d) || nonblank (f_remark d) || num_on (f_priority d) || num_on (f_weight d) ||
  nonblank_json (proxy e) || nonblank_json (system_prompt e) || truthy_opt (force_format e) || truthy_opt (thinking_to_content e) ||
  truthy_opt (pass_through_body_enabled e) || truthy_opt (system_prompt_override e) || is_on (claude_beta_query s) ||
  is_on (upstream_model_update_check_enabled s) || is_on (upstream_model_update_auto_sync_enabled s) || nonblank (upstream_model_update_ignored_models s).

Definition parseSettingsRecord (settings : option jsstr) : members :=
  if nonblank settings then match json_parse (default [] settings) with Some (JObj ps) => ps | _ => [] end else [].

(** [String(model || '').trim()], without empty texts and duplicates. *)
Definition modelTexts (l : list json) : list jsstr :=
  set_of_list (List.filter nonempty (map (fun v => trim (if json_truthy v then json_to_string v else [])) l)).

Definition upstreamUpdateMeta (settings : option jsstr) : option json * list jsstr :=
  let ps := parseSettingsRecord settings in
  (map_get (js "upstream_model_update_last_check_time") ps,
   match map_get (js "upstream_model_update_last_detected_models") ps with Some (JArr l) => modelTexts l | _ => [] end).

Record ModelMappingGuardrail := mkGuardrail {
  invalidJson : bool; entries : list (jsstr * jsstr); missingSourceModels : list jsstr; exposedTargetModels : list jsstr }.

Definition createEmptyModelMappingGuardrail : ModelMappingGuardrail := mkGuardrail false [] [] [].

(** [String(rawTarget ?? '')] *)
Definition targetText (v : json) : jsstr := match v with JNull => [] | _ => json_to_string v end.

Definition mappingEntry (p : jsstr * json) : option (jsstr * jsstr) :=
  match trim p.1, trim (targetText p.2) with [], _ | _, [] => None | source, target => Some (source, target) end.

Definition modelMappingGuardrail (mapping : option jsstr) (currentModelsArray : list jsstr) : ModelMappingGuardrail :=
  if negb (nonblank mapping) then createEmptyModelMappingGuardrail
  else match json_parse (default [] mapping) with
       | Some (JObj ps) =>
           let entries := omap mappingEntry ps in
           mkGuardrail false entries
             (set_of_list (map fst (List.filter (fun e => negb (bool_decide (e.1 ∈ currentModelsArray))) entries)))
             (set_of_list (map snd (List.filter (fun e => bool_decide (e.2 ∈ currentModelsArray)) entries)))
       | _ => mkGuardrail true [] [] []
       end.

(** ** Model lists *)
Definition basicModels (allModelsList : list jsstr) (t : num) : list jsstr :=
  if is_type t 1 then List.filter (fun m => starts_with (js "gpt-") m || starts_with (js "text-") m) allModelsList else allModelsList.

Definition updateModels (newModels : list jsstr) (merge : bool) (d : ChannelFormValues) : ChannelFormValues :=
  set_models d (if merge then formatModelsArray (parseModelsString (f_models d) ++ newModels) else formatModelsArray newModels).

Definition handleFillRelatedModels (allModels : list jsstr) (d : ChannelFormValues) : ChannelFormValues :=
  match basicModels allModels (f_type d) with [] => d | models => updateModels models false d end.

Definition handleFillAllModels (allModels : list jsstr) (d : ChannelFormValues) : ChannelFormValues :=
  match allModels with [] => d | _ => updateModels allModels false d end.

Definition handleModelsChange (selected : list jsstr) (d : ChannelFormValues) : ChannelFormValues := set_models d (join [comma] selected).

(** ** Requests *)
Inductive Request :=
| UpdateChannel (id : num) (payload : members)
| CreateChannel (payload : CreatePayload).

Definition update_request (e : Env) (d : ChannelFormValues) (payload : members) : members :=
  let payload := if nonblank (Some (f_key d)) then payload else map_del (js "key") payload in
  let payload := if canEditSensitive e then payload else fold_left (fun m k => map_del k m) SENSITIVE_UPDATE_FIELDS payload in
  match f_key_mode d with
  | Some (c :: r) =>
      if canEditSensitive e && isMultiKeyChannel e && nonblank (Some (f_key d)) then map_set (js "key_mode") (JStr (c :: r)) payload else payload
  | _ => payload
  end.

(** [mutationFn] up to the request it sends; [None] when building it throws. *)
Definition mutationFn (e : Env) (d : ChannelFormValues) : option Request :=
  if isEditing e then
    payload ← transformFormDataToUpdatePayload d (channelId e);
    Some (UpdateChannel (channelId e) (update_request e d payload))
  else CreateChannel <$> transformFormDataToCreatePayload d.

(** ** Submitting *)
Inductive MissingModelsAction := Cancel | Add | SubmitAnyway.

(** The values the form had when it was loaded. *)
Record Initial := mkInitial { initialModels : list jsstr; initialModelMapping : jsstr; initialStatusCodeMapping : jsstr }.

Inductive Outcome :=
| Refused (message : jsstr)
| AskRisk (redirects : list jsstr)
| AskMissing (normalizedModels missing : list jsstr)
| Ready.

Definition hasModelMapping (d : ChannelFormValues) : bool := nonblank (f_model_mapping d).
Definition modelMappingValue (d : ChannelFormValues) : jsstr := str_or (f_model_mapping d) [].

Definition mappingMessage (err : MappingError) : jsstr :=
  match err with
  | NotJson => js "Model mapping must be valid JSON format"
  | NotObject => js "Model mapping must be a valid JSON object"
  | NotStrings => js "Model mapping values must be strings"
  end.

(** From the check of the model mapping on. *)
Definition check_models (i : Initial) (d : ChannelFormValues) : Outcome :=
  let normalizedModels := parseModelsString (f_models d) in
  if hasModelMapping d then
    match validateModelMappingJson (modelMappingValue d) with
    | Some err => Refused (mappingMessage err)
    | None =>
        let missing := findMissingModelsInMapping (modelMappingValue d) normalizedModels in
        match missing with
        | [] => Ready
        | _ => if hasModelConfigChanged normalizedModels (modelMappingValue d) (initialModels i) (initialModelMapping i)
               then AskMissing normalizedModels missing else Ready
        end
    end
  else Ready.

Definition check_status (i : Initial) (d : ChannelFormValues) : Outcome :=
  if nonblank (f_status_code_mapping d) then
    let mapping := default [] (f_status_code_mapping d) in
    match collectInvalidStatusCodeEntries mapping with
    | _ :: _ => Refused (js "Invalid status code mapping entries")
    | [] => match collectNewDisallowedStatusCodeRedirects (initialStatusCodeMapping i) mapping with
            | [] => check_models i d
            | risky => AskRisk risky
            end
    end
  else check_models i d.

(** [onSubmit] up to its first question; [dirtyFields] is the form library's. *)
Definition onSubmit (e : Env) (i : Initial) (dirtyFields : list jsstr) (d : ChannelFormValues) : Outcome :=
  if negb (isEditing e) && negb (nonblank (Some (f_key d))) then Refused (js "API key is required")
  else if sensitiveLocked e && existsb (fun f => bool_decide (f ∈ dirtyFields)) SENSITIVE_FORM_FIELDS
  then Refused (js "You do not have permission to edit sensitive channel settings.")
  else check_status i d.

(** The models after [add]. *)
Definition addMissing (normalizedModels missing : list jsstr) (d : ChannelFormValues) : ChannelFormValues :=
  set_models d (formatModelsArray (set_of_list (normalizedModels ++ missing))).

(** ** The drawer as a state machine *)

(** A submission: its data, the initial values it was checked against, the
    redirects the user is asked to confirm and what the user answered. *)
Record Submission := mkSubmission {
  sub_data : ChannelFormValues; sub_initial : Initial; sub_redirects : list jsstr; sub_answer : option bool }.

(** A request, with what led to it. *)
Record Sent := mkSent { sent_sub : Submission; sent_models_initial : Initial; sent_action : option MissingModelsAction; sent_request : option Request }.

Record Drawer := mkDrawer {
  values : ChannelFormValues; initial : Initial;
  riskPending : option Submission; missingPending : option (Submission * list jsstr * list jsstr); sent : list Sent }.

Definition with_values (s : Drawer) (d : ChannelFormValues) (i : Initial) : Drawer := mkDrawer d i (riskPending s) (missingPending s) (sent s).

Section Machine.
Context (parseURL : jsstr -> option (jsstr * jsstr)) (typeMessage : jsstr -> jsstr) (e : Env).

Definition send (s : Drawer) (sub : Submission) (a : option MissingModelsAction) : Drawer :=
  mkDrawer (values s) (initial s) (riskPending s) (missingPending s) (sent s ++ [mkSent sub (initial s) a (mutationFn e (sub_data sub))]).

(** A new question replaces the resolver of an open one. *)
Definition proceed (s : Drawer) (sub : Submission) (o : Outcome) : Drawer :=
  match o with
  | Refused _ => s
  | AskRisk redirects => mkDrawer (values s) (initial s) (Some (mkSubmission (sub_data sub) (sub_initial sub) redirects None)) (missingPending s) (sent s)
  | AskMissing models missing => mkDrawer (values s) (initial s) (riskPending s) (Some (sub, models, missing)) (sent s)
  | Ready => send s sub None
  end.

Definition submit (s : Drawer) (dirtyFields : list jsstr) : Drawer :=
  proceed s (mkSubmission (values s) (initial s) [] None) (onSubmit e (initial s) dirtyFields (values s)).

(** The answer resolves the promise [onSubmit] waits for, which goes on with it. *)
Definition handleStatusCodeRiskAction (s : Drawer) (confirmed : bool) : Drawer :=
  match riskPending s with
  | None => s
  | Some sub =>
      let s := mkDrawer (values s) (initial s) None (missingPending s) (sent s) in
      let sub := mkSubmission (sub_data sub) (sub_initial sub) (sub_redirects sub) (Some confirmed) in
      if confirmed then proceed s sub (check_models (initial s) (sub_data sub)) else s
  end.

Definition handleMissingModelsAction (s : Drawer) (action : MissingModelsAction) : Drawer :=
  match missingPending s with
  | None => s
  | Some (sub, models, missing) =>
      let s := mkDrawer (values s) (initial s) (riskPending s) None (sent s) in
      match action with
      | Cancel => s
      | Add =>
          let data := addMissing models missing (sub_data sub) in
          send (with_values s (set_models (values s) (f_models data)) (initial s)) (mkSubmission data (sub_initial sub) (sub_redirects sub) (sub_answer sub)) (Some action)
      | SubmitAnyway => send s sub (Some action)
      end
  end.

Definition loaded (c : Channel) : Initial :=
  mkInitial (parseModelsString (ch_models c)) (str_or (ch_model_mapping c) []) (str_or (ch_status_code_mapping c) []).

Definition opened : Drawer := mkDrawer CHANNEL_FORM_DEFAULT_VALUES (mkInitial [] [] []) None None [].

(** The form library runs the submit handler only on values the schema accepts. *)
Inductive step : Drawer -> Drawer -> Prop :=
| step_load s c : isEditing e = true -> step s (with_values s (transformChannelToFormDefaults c) (loaded c))
| step_reset s : isEditing e = false -> step s (with_values s CHANNEL_FORM_DEFAULT_VALUES (mkInitial [] [] []))
| step_edit s d : step s (with_values s d (initial s))
| step_commit s typeChanged : step s (with_values s (commit e typeChanged (values s)) (initial s))
| step_submit s dirtyFields : channelFormSchema parseURL typeMessage (values s) = Some [] -> step s (submit s dirtyFields)
| step_risk s confirmed : step s (handleStatusCodeRiskAction s confirmed)
| step_missing s action : step s (handleMissingModelsAction s action).
End Machine.

(** ** What the checks establish *)
Definition key_ok (e : Env) (d : ChannelFormValues) : Prop := isEditing e = false -> nonblank (Some (f_key d)) = true.

(** The mapping has no malformed entry, and [redirects] are the risky redirects
    that the initial mapping does not have. *)
Definition status_ok (i : Initial) (d : ChannelFormValues) (redirects : list jsstr) : Prop :=
  if nonblank (f_status_code_mapping d) then
    collectInvalidStatusCodeEntries (default [] (f_status_code_mapping d)) = [] /\
    collectNewDisallowedStatusCodeRedirects (initialStatusCodeMapping i) (default [] (f_status_code_mapping d)) = redirects
  else redirects = [].

Definition missingModels (d : ChannelFormValues) : list jsstr := findMissingModelsInMapping (modelMappingValue d) (parseModelsString (f_models d)).

Definition mapping_valid (d : ChannelFormValues) : Prop := hasModelMapping d = true -> validateModelMappingJson (modelMappingValue d) = None.

(** The question about missing models need not be asked. *)
Definition nothing_to_ask (i : Initial) (d : ChannelFormValues) : Prop :=
  hasModelMapping d = true -> missingModels d = [] \/
    hasModelConfigChanged (parseModelsString (f_models d)) (modelMappingValue d) (initialModels i) (initialModelMapping i) = false.

Definition asked (d : ChannelFormValues) (models missing : list jsstr) : Prop :=
  hasModelMapping d = true /\ models = parseModelsString (f_models d) /\ missing = missingModels d /\ missing <> [].

Lemma check_models_spec i d :
  match check_models i d with
  | Refused _ => True
  | AskRisk _ => False
  | AskMissing models missing => mapping_valid d /\ asked d models missing
  | Ready => mapping_valid d /\ nothing_to_ask i d
  end.
Proof.
  unfold check_models, mapping_valid, nothing_to_ask, asked. destruct (hasModelMapping d); [|by split].
  destruct (validateModelMappingJson (modelMappingValue d)); [done|]. cbv zeta. fold (missingModels d).
  destruct (missingModels d) as [|x l] eqn:E; [by split; [|left]|].
  destruct (hasModelConfigChanged _ _ _ _); [by split|]. split; [done|]. by right.
Qed.

Lemma onSubmit_spec e i dirty d :
  match onSubmit e i dirty d with
  | Refused _ => True
  | AskRisk redirects => key_ok e d /\ status_ok i d redirects
  | AskMissing models missing => key_ok e d /\ status_ok i d [] /\ mapping_valid d /\ asked d models missing
  | Ready => key_ok e d /\ status_ok i d [] /\ mapping_valid d /\ nothing_to_ask i d
  end.
Proof.
  unfold onSubmit. destruct (negb (isEditing e) && negb (nonblank (Some (f_key d)))) eqn:Ek; [done|].
  assert (K : key_ok e d). { intros Hn. rewrite Hn in Ek. by destruct (nonblank (Some (f_key d))). }
  destruct (sensitiveLocked e && _); [done|]. unfold check_status. pose proof (check_models_spec i d) as M. unfold status_ok.
  destruct (nonblank (f_status_code_mapping d)).
  - destruct (collectInvalidStatusCodeEntries _); [|done].
    destruct (collectNewDisallowedStatusCodeRedirects _ _) as [|x l] eqn:Ex; [|done]. by destruct (check_models i d).
  - by destruct (check_models i d).
Qed.

(** ** Adding the missing models *)
Lemma split_on_sep c x t : split_on c (x ++ c :: t) = split_on c x ++ split_on c t.
Proof.
  induction x as [|a x IH]; cbn [split_on app]; [rewrite Z.eqb_refl; reflexivity|].
  destruct (a =? c); [by rewrite IH|]. rewrite IH. destruct (split_on c x) eqn:E; [|done].
  exfalso. clear -E. destruct x as [|b x]; [done|]. cbn in E. destruct (b =? c); [done|]. by destruct (split_on c x).
Qed.

Lemma split_on_join c l : l <> [] -> split_on c (join [c] l) = concat (map (split_on c) l).
Proof.
  induction l as [|x [|y l] IH]; [done| |]; intros _; [by cbn [join map concat]; rewrite app_nil_r|].
  rewrite join_cons. change (concat (map (split_on c) (x :: y :: l))) with (split_on c x ++ concat (map (split_on c) (y :: l))). rewrite <- IH by done.
  change ([c] ++ join [c] (y :: l)) with (c :: join [c] (y :: l)). apply split_on_sep.
Qed.

Lemma elem_of_split_join x l : x ∈ l -> no_char comma x = true -> x ∈ split_on comma (join [comma] l).
Proof.
  intros Hx Hc. rewrite split_on_join by (by intros ->; apply elem_of_nil in Hx). apply list_elem_of_In, in_concat. exists (split_on comma x). split.
  - apply in_map. by apply list_elem_of_In.
  - rewrite split_on_no_char by done. by left.
Qed.

Lemma join_nonempty x l : x ∈ l -> x <> [] -> join [comma] l <> [].
Proof.
  intros Hx Hn Hj. destruct l as [|y [|z l]]; [by apply elem_of_nil in Hx | |].
  - apply list_elem_of_singleton in Hx as ->. done.
  - cbn in Hj. apply app_eq_nil in Hj as [_ Hj]. done.
Qed.

(** What is still missing after [add] has a comma in its name. *)
Lemma missing_after_add d x :
  x ∈ missingModels (addMissing (parseModelsString (f_models d)) (missingModels d) d) -> no_char comma x = false.
Proof.
  set (l := set_of_list (parseModelsString (f_models d) ++ missingModels d)). unfold missingModels at 1. cbn [addMissing set_models f_models].
  change (modelMappingValue (addMissing _ _ d)) with (modelMappingValue d). fold l. intros Hx. apply not_true_iff_false. intros Hc.
  apply elem_of_findMissing in Hx as (Hm & Hne & (ps & k & Hp & Hk & ->) & Hnot).
  assert (In : trim k ∈ l).
  { apply elem_of_set_of_list, elem_of_app. destruct (decide (trim k ∈ map trim (parseModelsString (f_models d)))) as [H|H].
    - left. apply list_elem_of_fmap in H as (y & E & Hy). rewrite E. unfold parseModelsString in *. destruct (f_models d) as [|c r]; [by apply elem_of_nil in Hy|].
      apply elem_of_trimAll in Hy as Hy'. destruct Hy' as (_ & z & _ & ->). by rewrite trim_idemp.
    - right. apply elem_of_findMissing. split_and!; [done..| |done]. by exists ps, k. }
  apply Hnot. apply list_elem_of_fmap. exists (trim k). split; [by rewrite trim_idemp|].
  unfold formatModelsArray. rewrite (set_of_list_NoDup l) by apply NoDup_set_of_list. unfold parseModelsString.
  destruct (join [comma] l) as [|c r] eqn:Ej; [by destruct (join_nonempty _ _ In Hne)|]. rewrite <- Ej.
  apply elem_of_trimAll. split; [done|]. exists (trim k). split; [|by rewrite trim_idemp]. by apply elem_of_split_join.
Qed.

(** ** Requests *)
Lemma mutation_builds parseURL typeMessage e d : channelFormSchema parseURL typeMessage d = Some [] -> exists r, mutationFn e d = Some r.
Proof.
  intros [m Hm]%accepted_object. apply buildSettings_object in Hm. unfold mutationFn, transformFormDataToUpdatePayload, transformFormDataToCreatePayload.
  rewrite Hm. destruct (isEditing e); by eexists.
Qed.

Lemma keys_update_payload d id settings : NoDup (map_keys (update_payload d id settings)).
Proof.
  unfold update_payload.
  assert (A : forall (us m : members), NoDup (map_keys m) -> NoDup (map_keys (fold_left (fun m p => map_set p.1 p.2 m) us m))).
  { induction us as [|u us IH]; intros m Hm; [done|]. apply IH. by apply NoDup_map_set. }
  assert (C : forall m : members, map_keys (clean_payload m) = map_keys m) by (intros m; unfold map_keys, clean_payload; rewrite <- list_fmap_compose; done).
  apply A. rewrite C. assert (F : NoDup (map_keys (update_fields d id settings))) by (apply (bool_decide_unpack _); vm_compute; reflexivity).
  destruct (nonblank _); [by apply NoDup_map_set | done].
Qed.

Lemma get_del_all k ks (m : members) : NoDup (map_keys m) -> map_get k (fold_left (fun m k => map_del k m) ks m) = if bool_decide (k ∈ ks) then None else map_get k m.
Proof.
  revert m. induction ks as [|k1 ks IH]; intros m Hm; [done|]. cbn [fold_left]. rewrite IH by by apply NoDup_map_del.
  rewrite get_map_del by done. repeat case_decide; repeat case_bool_decide; subst; try done; set_solver.
Qed.

(** The fields of an update request. *)
Lemma get_update_request k e d settings :
  map_get k (update_request e d (update_payload d (channelId e) settings)) =
  if canEditSensitive e then
    if isMultiKeyChannel e && nonblank (Some (f_key d)) && bool_decide (k = js "key_mode") && bool_decide (str_or (f_key_mode d) [] <> [])
    then Some (JStr (str_or (f_key_mode d) [])) else map_get k (update_payload d (channelId e) settings)
  else if bool_decide (k ∈ SENSITIVE_UPDATE_FIELDS) then None else map_get k (update_payload d (channelId e) settings).
Proof.
  unfold update_request. set (p := update_payload d (channelId e) settings).
  assert (P : (if nonblank (Some (f_key d)) then p else map_del (js "key") p) = p).
  { destruct (nonblank (Some (f_key d))) eqn:E; [done|]. apply map_del_noop. unfold p. rewrite get_update, E. reflexivity. }
  rewrite P. assert (Hp : NoDup (map_keys p)) by apply keys_update_payload. destruct (canEditSensitive e).
  - destruct (f_key_mode d) as [[|c r]|]; cbn [str_or]; try (rewrite (bool_decide_eq_false_2 ([] <> [])) by (by intros []); by rewrite andb_false_r).
    rewrite (bool_decide_eq_true_2 (c :: r <> [])), andb_true_r by done. cbn [andb].
    destruct (isMultiKeyChannel e && nonblank (Some (f_key d))); [|done]. rewrite map_get_set_bool. cbn [andb]. by case_bool_decide.
  - cbn [andb]. transitivity (map_get k (fold_left (fun m k => map_del k m) SENSITIVE_UPDATE_FIELDS p)); [by destruct (f_key_mode d) as [[|]|]|].
    by apply get_del_all.
Qed.

(** ** The invariant *)
Section Invariant.
Context (parseURL : jsstr -> option (jsstr * jsstr)) (typeMessage : jsstr -> jsstr) (e : Env).

Definition submission_ok (sub : Submission) : Prop :=
  channelFormSchema parseURL typeMessage (sub_data sub) = Some [] /\ key_ok e (sub_data sub) /\
  status_ok (sub_initial sub) (sub_data sub) (sub_redirects sub).

(** Risky redirects were confirmed. *)
Definition confirmed_ok (sub : Submission) : Prop := sub_redirects sub <> [] -> sub_answer sub = Some true.

Definition action_ok (i : Initial) (d : ChannelFormValues) (a : option MissingModelsAction) : Prop :=
  match a with
  | None => nothing_to_ask i d
  | Some Add => forall x, x ∈ missingModels d -> no_char comma x = false
  | Some SubmitAnyway => hasModelMapping d = true
  | Some Cancel => False
  end.

(** What holds of a request that was sent. *)
Definition sent_ok (x : Sent) : Prop :=
  submission_ok (sent_sub x) /\ confirmed_ok (sent_sub x) /\ mapping_valid (sub_data (sent_sub x)) /\
  action_ok (sent_models_initial x) (sub_data (sent_sub x)) (sent_action x) /\ sent_request x = mutationFn e (sub_data (sent_sub x)).

Definition inv (s : Drawer) : Prop :=
  (forall sub, riskPending s = Some sub -> submission_ok sub) /\
  (forall sub models missing, missingPending s = Some (sub, models, missing) ->
     submission_ok sub /\ confirmed_ok sub /\ mapping_valid (sub_data sub) /\ asked (sub_data sub) models missing) /\
  Forall sent_ok (sent s).

Lemma inv_send s sub a :
  inv s -> submission_ok sub -> confirmed_ok sub -> mapping_valid (sub_data sub) -> action_ok (initial s) (sub_data sub) a ->
  inv (send e s sub a).
Proof. intros (H1 & H2 & H3) Hs Hc Hm Ha. split_and!; [done..|]. cbn [sent send]. apply Forall_app. split; [done|]. constructor; [by split_and!|constructor]. Qed.

Lemma inv_models s sub :
  inv s -> submission_ok sub -> confirmed_ok sub -> inv (proceed e s sub (check_models (initial s) (sub_data sub))).
Proof.
  intros Hi Hs Hc. pose proof (check_models_spec (initial s) (sub_data sub)) as M. destruct (check_models _ _) as [| |models missing|]; cbn [proceed]; [done|done| |].
  - destruct Hi as (H1 & H2 & H3), M as [M1 M2]. split_and!; [done| |done]. cbn. by intros sub' n' m' [= <- <- <-].
  - destruct M as [M1 M2]. by apply inv_send.
Qed.

Lemma schema_set_models d v : channelFormSchema parseURL typeMessage d = Some [] -> v <> [] -> channelFormSchema parseURL typeMessage (set_models d v) = Some [].
Proof.
  intros (Ht & Hf & Hr)%schema_accepts Hv. unfold channelFormSchema.
  change (typeIssues typeMessage (set_models d v)) with (typeIssues typeMessage d). change (superRefine parseURL (set_models d v)) with (superRefine parseURL d).
  rewrite Ht, Hr. cbn [mbind option_bind]. f_equal. rewrite app_nil_r. unfold fieldIssues in *.
  repeat (apply app_eq_nil in Hf as [? Hf]). cbn [set_models f_name f_type f_models f_group f_model_mapping f_status_code_mapping f_remark f_setting f_param_override f_header_override f_settings].
  repeat match goal with H : issue_if _ _ _ = [] |- _ => rewrite H end. by rewrite bool_decide_eq_false_2.
Qed.

Lemma submission_add sub models missing :
  submission_ok sub -> asked (sub_data sub) models missing ->
  submission_ok (mkSubmission (addMissing models missing (sub_data sub)) (sub_initial sub) (sub_redirects sub) (sub_answer sub)).
Proof.
  intros (H1 & H2 & H3) (_ & -> & -> & Hne). split_and!; [|exact H2|exact H3]. cbn [sub_data]. apply schema_set_models; [done|].
  destruct (missingModels (sub_data sub)) as [|x l] eqn:E; [done|]. unfold formatModelsArray.
  apply (join_nonempty x); [rewrite !elem_of_set_of_list; set_solver|]. assert (Hx : x ∈ missingModels (sub_data sub)) by (rewrite E; set_solver).
  by apply elem_of_findMissing in Hx as (_ & ? & _).
Qed.

Lemma inv_step s s' : inv s -> step parseURL typeMessage e s s' -> inv s'.
Proof.
  intros Hi Hstep. destruct Hstep as [s c _|s _|s d|s b|s dirty Hok|s b|s a]; try (by destruct Hi).
  - unfold submit. set (sub := mkSubmission (values s) (initial s) [] None). pose proof (onSubmit_spec e (initial s) dirty (values s)) as O.
    assert (Hc : confirmed_ok sub) by (by intros []).
    destruct (onSubmit e (initial s) dirty (values s)) as [|redirects|models missing|]; cbn [proceed]; [done| | |].
    + destruct Hi as (H1 & H2 & H3), O as [O1 O2]. split_and!; [|done|done]. cbn. by intros sub' [= <-].
    + destruct Hi as (H1 & H2 & H3), O as (O1 & O2 & O3 & O4). split_and!; [done| |done]. cbn. intros sub' n m [= <- <- <-]. done.
    + destruct O as (O1 & O2 & O3 & O4). by apply inv_send.
  - unfold handleStatusCodeRiskAction. destruct (riskPending s) as [sub|] eqn:E; [|done]. pose proof (proj1 Hi _ E) as Hs.
    assert (Hi' : inv (mkDrawer (values s) (initial s) None (missingPending s) (sent s))) by (by destruct Hi as (? & ? & ?)).
    destruct b; [|done].
    by apply (inv_models _ (mkSubmission (sub_data sub) (sub_initial sub) (sub_redirects sub) (Some true))).
  - unfold handleMissingModelsAction. destruct (missingPending s) as [[[sub models] missing]|] eqn:E; [|done].
    destruct (proj1 (proj2 Hi) _ _ _ E) as (Hs & Hc & Hv & Ha).
    assert (Hi' : inv (mkDrawer (values s) (initial s) (riskPending s) None (sent s))) by (by destruct Hi as (? & ? & ?)).
    destruct a; [done| |].
    + apply inv_send; [by destruct Hi' as (? & ? & ?)|by apply submission_add|exact Hc|exact Hv|]. destruct Ha as (_ & -> & -> & _). cbn. apply missing_after_add.
    + apply inv_send; [done..|]. by destruct Ha.
Qed.

Lemma drawer_reachable_inv s : rtc (step parseURL typeMessage e) opened s -> inv s.
Proof.
  intros H. assert (I : inv opened) by (split_and!; [done|done|constructor]). revert I. induction H as [|s1 s2 s3 H12 _ IH]; [done|].
  intros I. apply IH. by eapply inv_step.
Qed.
End Invariant.

(** ** Properties *)

(** C2.  Whatever the interleaving of loads, edits, submissions and answers, a
    request is sent only for values that the schema accepts, with a key when a
    channel is created, with no malformed status code entry, with no new risky
    redirect unless the user was asked about them and confirmed, and with a valid model mapping;
    models missing from the channel were added, accepted by the user or there
    before.  A user without the permission sends no sensitive field. *)
Theorem drawer_sends_checked (parseURL : jsstr -> option (jsstr * jsstr)) (typeMessage : jsstr -> jsstr) (e : Env) (s : Drawer) (x : Sent)
    (Hs : rtc (step parseURL typeMessage e) opened s) (Hx : x ∈ sent s) :
  let d := sub_data (sent_sub x) in
  channelFormSchema parseURL typeMessage d = Some [] /\ key_ok e d /\ status_ok (sub_initial (sent_sub x)) d (sub_redirects (sent_sub x)) /\
  (sub_redirects (sent_sub x) <> [] -> sub_answer (sent_sub x) = Some true) /\
  mapping_valid d /\ action_ok (sent_models_initial x) d (sent_action x) /\
  exists r, sent_request x = Some r /\
    match r with
    | UpdateChannel id p => isEditing e = true /\ id = channelId e /\
        (canEditSensitive e = false -> forall k, k ∈ SENSITIVE_UPDATE_FIELDS -> map_get k p = None)
    | CreateChannel _ => isEditing e = false
    end.
Proof.
  apply drawer_reachable_inv in Hs as (_ & _ & F). rewrite Forall_forall in F. destruct (F x Hx) as ((H1 & H2 & H3) & H0 & H4 & H5 & H6). cbv zeta.
  split_and!; [done..|]. destruct (mutation_builds parseURL typeMessage e _ H1) as [r Hr]. exists r. split; [by rewrite H6|].
  unfold mutationFn in Hr. destruct (isEditing e) eqn:Ee.
  - apply bind_Some in Hr as (p & Hp & E). apply (inj Some) in E as <-. split_and!; [done..|]. intros Hc k Hk.
    apply update_payload_inv in Hp as (t & _ & ->).
    by rewrite get_update_request, Hc, bool_decide_eq_true_2.
  - destruct (transformFormDataToCreatePayload _); [|done]. by injection Hr as <-.
Qed.

(** What the fields of [SENSITIVE_FORM_FIELDS] hold. *)
Definition sensitive_view (d : ChannelFormValues) :=
  (f_type d, f_base_url d, f_key d, f_openai_organization d, f_other d, f_param_override d, f_header_override d, f_settings d, f_extra d, f_typed d).

Lemma sensitive_view_eq d d0 : sensitive_view d = sensitive_view d0 ->
  f_type d = f_type d0 /\ f_base_url d = f_base_url d0 /\ f_key d = f_key d0 /\ f_openai_organization d = f_openai_organization d0 /\ f_other d = f_other d0 /\
  f_param_override d = f_param_override d0 /\ f_header_override d = f_header_override d0 /\ f_settings d = f_settings d0 /\ f_extra d = f_extra d0 /\ f_typed d = f_typed d0.
Proof. unfold sensitive_view. intros H. repeat (apply pair_equal_spec in H as [H ?]). split_and!; assumption. Qed.

Lemma sensitive_texts d d0 : sensitive_view d = sensitive_view d0 -> buildSettingJSON d = buildSettingJSON d0 /\ buildSettingsJSON d = buildSettingsJSON d0.
Proof.
  intros (H1 & H2 & H3 & H4 & H5 & H6 & H7 & H8 & H9 & H10)%sensitive_view_eq. split; [unfold buildSettingJSON; by rewrite H9|]. unfold buildSettingsJSON. rewrite H8.
  assert (E : forall m, settingsObj d m = settingsObj d0 m).
  { intros m. unfold settingsObj.
    assert (S_vertex : forall m, settings_vertex d m = settings_vertex d0 m) by (intros ?; unfold settings_vertex; rewrite H1, H10; reflexivity).
    assert (S_azure : forall m, settings_azure d m = settings_azure d0 m) by (intros ?; unfold settings_azure; rewrite H1, H10; reflexivity).
    assert (S_openrouter : forall m, settings_openrouter d m = settings_openrouter d0 m) by (intros ?; unfold settings_openrouter; rewrite H1, H10; reflexivity).
    assert (S_aws : forall m, settings_aws d m = settings_aws d0 m) by (intros ?; unfold settings_aws; rewrite H1, H10; reflexivity).
    assert (S_tier : forall m, settings_tier d m = settings_tier d0 m) by (intros ?; unfold settings_tier; rewrite H1, H10; reflexivity).
    assert (S_openai : forall m, settings_openai d m = settings_openai d0 m) by (intros ?; unfold settings_openai; rewrite H1, H10; reflexivity).
    assert (S_anthropic : forall m, settings_anthropic d m = settings_anthropic d0 m) by (intros ?; unfold settings_anthropic; rewrite H1, H10; reflexivity).
    assert (S_polling : forall m, settings_polling d m = settings_polling d0 m) by (intros ?; unfold settings_polling; rewrite H10; reflexivity).
    assert (S_upstream : forall m, settings_upstream d m = settings_upstream d0 m) by (intros ?; unfold settings_upstream, ignoredModels; rewrite H1, H10; reflexivity).
    assert (S_advanced : forall m, settings_advanced d m = settings_advanced d0 m) by (intros ?; unfold settings_advanced; rewrite H1, H10; reflexivity).
    rewrite S_vertex, S_azure, S_openrouter, S_aws, S_tier, S_openai, S_anthropic, S_polling, S_upstream, S_advanced. reflexivity. }
  destruct (parsedSettings (f_settings d0)) as [| | | | |m]; [reflexivity..|]. rewrite E. reflexivity.
Qed.

(** The fields that are dropped from the request of a user without the
    permission carry no edit: when the sensitive fields of the form are as they
    were opened, so are the dropped fields of the payload. *)
Theorem locked_drops_no_edit (d d0 : ChannelFormValues) (id : num) (p p0 : members) (k : jsstr)
    (Hd : sensitive_view d = sensitive_view d0) (Hk : k ∈ SENSITIVE_UPDATE_FIELDS)
    (Hp : transformFormDataToUpdatePayload d id = Some p) (Hp0 : transformFormDataToUpdatePayload d0 id = Some p0) :
  map_get k p = map_get k p0.
Proof.
  apply update_payload_inv in Hp as (t & Ht & ->). apply update_payload_inv in Hp0 as (t0 & Ht0 & ->).
  destruct (sensitive_texts d d0 Hd) as [E1 E2]. rewrite E2, Ht0 in Ht. apply (inj Some) in Ht as <-.
  apply sensitive_view_eq in Hd as (H1 & H2 & H3 & H4 & H5 & H6 & H7 & H8 & H9 & H10). rewrite !get_update. rewrite H3. unfold explicit_fields, update_fields. rewrite E1, H1, H2, H4, H5, H6, H7.
  unfold SENSITIVE_UPDATE_FIELDS in Hk. repeat (apply elem_of_cons in Hk as [->|Hk]; [reflexivity|]).
  apply elem_of_nil in Hk as [].
Qed.

(** ** Effects *)
Lemma effect_doubao_idemp d : effect_doubao (effect_doubao d) = effect_doubao d.
Proof.
  unfold effect_doubao at 2 3. destruct (negb (is_type (f_type d) 45) || _) eqn:E; [unfold effect_doubao; by rewrite E|].
  unfold effect_doubao. change (f_base_url (set_base_url d ARK_URL)) with (Some ARK_URL).
  rewrite (bool_decide_eq_false_2 (Some ARK_URL = _)) by (vm_compute; discriminate). by rewrite orb_true_r.
Qed.

Lemma batchMode_single d : batchMode (set_multi_key_mode d (js "single")) = false.
Proof. reflexivity. Qed.

(** The effects of a commit come to rest at once: committing again, with the
    type unchanged, changes nothing, and the mode of a new channel whose type takes
    one key only is single. *)
Theorem commit_settles (e : Env) (typeChanged : bool) (d : ChannelFormValues) :
  commit e false (commit e typeChanged d) = commit e typeChanged d /\
  (isEditing e = false -> supportsMultiKeyAddMode (commit e typeChanged d) = false -> batchMode (commit e typeChanged d) = false).
Proof.
  unfold commit. set (d1 := if typeChanged then effect_type_defaults e d else d). clearbody d1. clear d typeChanged.
  set (d2 := effect_doubao d1). assert (I : effect_doubao d2 = d2) by apply effect_doubao_idemp. clearbody d2. clear d1.
  assert (C : effect_add_mode e d2 = d2 \/ effect_add_mode e d2 = set_multi_key_mode d2 (js "single")).
  { unfold effect_add_mode. destruct (isEditing e || supportsMultiKeyAddMode d2); [by left|]. destruct (batchMode d2); [by right|by left]. }
  assert (D : effect_doubao (effect_add_mode e d2) = effect_add_mode e d2).
  { destruct C as [->| ->]; [done|]. revert I. unfold effect_doubao. change (f_type (set_multi_key_mode d2 (js "single"))) with (f_type d2).
    change (f_base_url (set_multi_key_mode d2 (js "single"))) with (f_base_url d2). destruct (_ || _) eqn:E; [done|]. intros I.
    apply orb_false_iff in E as [_ E]. apply negb_false_iff, bool_decide_eq_true in E. rewrite <- I in E. done. }
  rewrite D. unfold effect_add_mode. destruct (isEditing e) eqn:Ee; [by split|]. cbn [orb]. destruct (supportsMultiKeyAddMode d2) eqn:Es; [by rewrite Es; split; [|congruence]|].
  destruct (batchMode d2) eqn:Eb.
  - change (supportsMultiKeyAddMode (set_multi_key_mode d2 (js "single"))) with (supportsMultiKeyAddMode d2). rewrite Es, batchMode_single. done.
  - rewrite Es, Eb. done.
Qed.

(** ** The connection text *)
(** A copied connection is read back from its text. *)
Theorem connection_roundtrip (key url : jsstr) (Hk : forallb code_unit key = true) (Hu : forallb code_unit url = true) :
  parseChannelConnectionInfo (encodeChannelConnectionInfo key url) = Some (mkConnection key url).
Proof.
  unfold encodeChannelConnectionInfo. set (ps := [_; _; _]). destruct (object_text [] [] ps) as (r & E & T). unfold json_stringify, parseChannelConnectionInfo.
  rewrite T, E, <- E. fold (json_stringify (JObj ps)). rewrite json_parse_stringify.
  - unfold ps. get_member. done.
  - apply json_ok_object; [vm_compute; reflexivity|]. unfold ps. ok_members; [vm_compute; reflexivity|exact Hk|exact Hu].
Qed.

Lemma connection_roundtrip_witness :
  parseChannelConnectionInfo (encodeChannelConnectionInfo (js "sk-1") (js "https://a.b")) = Some (mkConnection (js "sk-1") (js "https://a.b")).
Proof. apply connection_roundtrip; vm_compute; reflexivity. Defined.

(** ** The guardrail and the checks of a submission *)
Lemma elem_of_list_filter {A} (f : A -> bool) (l : list A) x : x ∈ List.filter f l <-> x ∈ l /\ f x = true.
Proof. rewrite !list_elem_of_In. apply filter_In. Qed.

Lemma parsedModels_trimmed text : map trim (parseModelsString text) = parseModelsString text.
Proof.
  unfold parseModelsString. destruct text as [|c r]; [done|]. pose proof (trimAll_trimmed (split_on comma (c :: r))) as F.
  induction F as [|x l [_ Hx] F IH]; [done|]. cbn [map]. by rewrite Hx, IH.
Qed.

Lemma elem_of_entries (ps : members) s t :
  (s, t) ∈ omap mappingEntry ps <-> s <> [] /\ t <> [] /\ exists k v, (k, v) ∈ ps /\ s = trim k /\ t = trim (targetText v).
Proof.
  rewrite list_elem_of_omap. split.
  - intros ([k v] & Hin & H). unfold mappingEntry in H. cbn [fst snd] in H.
    destruct (trim k) as [|a s'] eqn:Ek; [done|]. destruct (trim (targetText v)) as [|b t'] eqn:Et; [done|]. injection H as <- <-.
    split_and!; [done..|]. exists k, v. by rewrite Ek, Et.
  - intros (Hs & Ht & k & v & Hin & -> & ->). exists (k, v). split; [done|]. unfold mappingEntry. cbn [fst snd].
    destruct (trim k); [done|]. by destruct (trim (targetText v)).
Qed.

(** The guardrail under the mapping field and the check of a submission
    agree: for a valid mapping with no blank target, the sources shown as missing
    are those the submission asks about. *)
Theorem guardrail_agrees (mapping models : jsstr) (ps : members) (x : jsstr)
    (Hm : parsedObject mapping = Some ps) (Hb : nonblank (Some mapping) = true)
    (Ht : forall k v, (k, v) ∈ ps -> exists s, v = JStr s /\ trim s <> []) :
  let g := modelMappingGuardrail (Some mapping) (parseModelsString models) in
  invalidJson g = false /\ (x ∈ missingSourceModels g <-> x ∈ findMissingModelsInMapping mapping (parseModelsString models)) /\
  (x ∈ exposedTargetModels g <-> exists k s, (k, JStr s) ∈ ps /\ trim k <> [] /\ x = trim s /\ x ∈ parseModelsString models).
Proof.
  unfold parsedObject in Hm. apply bind_Some in Hm as (v & Hv & Ho). destruct v; try done. injection Ho as ->.
  unfold modelMappingGuardrail. rewrite Hb. cbn [negb default from_option]. unfold id, default, from_option. rewrite Hv. cbv zeta. cbn [invalidJson missingSourceModels exposedTargetModels].
  split; [done|]. rewrite !elem_of_set_of_list. split.
  - rewrite elem_of_findMissing, parsedModels_trimmed, list_elem_of_fmap. unfold parsedObject. rewrite Hv. cbn [mbind option_bind json_object]. split.
    + intros ([s t] & -> & (Hin & Hn)%elem_of_list_filter). cbn [fst] in *. apply negb_true_iff, bool_decide_eq_false in Hn.
      apply elem_of_entries in Hin as (Hs & _ & k & w & Hin & -> & _). split_and!; [|done| |done].
      * intros E. unfold nonblank, default, from_option, id in Hb. by rewrite E in Hb.
      * exists ps, k. split_and!; [done| |done]. apply list_elem_of_fmap. by exists (k, w).
    + intros (_ & Hne & (ps' & k & E & Hk & ->) & Hn). injection E as <-. apply list_elem_of_fmap in Hk as ([k' w] & -> & Hin). cbn [fst] in *.
      destruct (Ht _ _ Hin) as (t & -> & Hs). exists (trim k', trim t). split; [done|]. apply elem_of_list_filter. split; [|by apply negb_true_iff, bool_decide_eq_false].
      apply elem_of_entries. split_and!; [done..|]. by exists k', (JStr t).
  - rewrite list_elem_of_fmap. split.
    + intros ([s t] & -> & (Hin & Hn)%elem_of_list_filter). cbn [snd] in *. apply bool_decide_eq_true in Hn.
      apply elem_of_entries in Hin as (Hs & _ & k & w & Hin & -> & ->). destruct (Ht _ _ Hin) as (t & -> & _). by exists k, t.
    + intros (k & t & Hin & Hk & -> & Hx). destruct (Ht _ _ Hin) as (t' & [= <-] & Hs). exists (trim k, trim t). split; [done|].
      apply elem_of_list_filter. split; [|by apply bool_decide_eq_true]. apply elem_of_entries. split_and!; [done..|]. by exists k, (JStr t).
Qed.

Definition example_mapping : jsstr := js "{" ++ json_quote (js "gpt") ++ js ":" ++ json_quote (js "llama") ++ js "}".

Lemma guardrail_agrees_witness :
  js "gpt" ∈ missingSourceModels (modelMappingGuardrail (Some example_mapping) (parseModelsString (js "llama"))) <->
  js "gpt" ∈ findMissingModelsInMapping example_mapping (parseModelsString (js "llama")).
Proof.
  apply (guardrail_agrees example_mapping (js "llama") [(js "gpt", JStr (js "llama"))] (js "gpt")); [vm_compute; reflexivity | vm_compute; reflexivity |].
  intros k v Hin. apply list_elem_of_singleton in Hin. injection Hin as -> ->. exists (js "llama"). split; [reflexivity | vm_compute; discriminate].
Defined.

(** ** Witnesses *)
Definition new_channel : Env := mkEnv false true false num_zero.
Definition no_url : jsstr -> option (jsstr * jsstr) := fun _ => None.

(** A new channel that redirects status 504, which the user has to confirm. *)
Definition risky_form : ChannelFormValues :=
  mkForm (js "n") (num_of_Z 1) None (js "sk") None (js "gpt") [js "default"] None None None None None (num_of_Z 1)
    (Some (js "{" ++ json_quote (js "504") ++ js ":200}")) None None None None None None None None None None None
    (mkExtra None None None None None None) (mkTypeSettings None None None None None None None None None None None None None None None None).

Definition risky_run : Drawer :=
  handleStatusCodeRiskAction new_channel (submit new_channel (with_values opened risky_form (initial opened)) []) true.

Lemma risky_reachable : rtc (step no_url id new_channel) opened risky_run.
Proof.
  eapply rtc_l; [apply (step_edit no_url id new_channel opened risky_form)|].
  eapply rtc_l; [apply (step_submit no_url id new_channel _ []); vm_compute; reflexivity|].
  eapply rtc_l; [apply (step_risk no_url id new_channel _ true)|]. apply rtc_refl.
Qed.

Lemma drawer_sends_checked_witness :
  exists x, x ∈ sent risky_run /\ sub_redirects (sent_sub x) = [js "504 -> 200"] /\ sub_answer (sent_sub x) = Some true /\
    status_ok (sub_initial (sent_sub x)) (sub_data (sent_sub x)) (sub_redirects (sent_sub x)).
Proof.
  set (x := mkSent (mkSubmission risky_form (mkInitial [] [] []) [js "504 -> 200"] (Some true)) (mkInitial [] [] []) None (mutationFn new_channel risky_form)).
  assert (Hx : x ∈ sent risky_run).
  { assert (E : sent risky_run = [x]) by (vm_compute; reflexivity). rewrite E. constructor. }
  exists x. split; [exact Hx|]. split; [reflexivity|].
  destruct (drawer_sends_checked no_url id new_channel risky_run x risky_reachable Hx) as (_ & _ & H & Hc & _).
  split; [apply Hc; discriminate | exact H].
Defined.

Lemma locked_drops_no_edit_witness :
  map_get (js "settings") (update_payload example_form (num_of_Z 7) (json_stringify (JObj (settingsObj example_form example_members)))) =
  map_get (js "settings") (update_payload (set_models example_form (js "other")) (num_of_Z 7) (json_stringify (JObj (settingsObj example_form example_members)))).
Proof.
  apply (locked_drops_no_edit example_form (set_models example_form (js "other")) (num_of_Z 7)); [reflexivity | | vm_compute; reflexivity | vm_compute; reflexivity].
  unfold SENSITIVE_UPDATE_FIELDS. set_solver.
Defined.
End ChannelDrawer.
