(* ===== verification/ChannelList.v ===== *)
(** * The channel list
    ([src/web/default/src/features/channels]: [lib/channel-utils.ts],
    [lib/upstream-update-utils.ts], [lib/channel-form-errors.ts],
    [lib/multi-key-utils.ts] and [hooks/use-channel-upstream-updates.ts])

    The rows of the table, grouped by tag on request; the texts and checks of a
    row; the clean-up of a list of keys; and the dialog that applies the model
    updates found upstream.  A tag row is an object that the loop keeps changing
    while it is already in the result, so the rows are one insertion-ordered map
    from tags, whose values are the result.  [localeCompare] and the labels'
    formatting are parameters. *)
From Stdlib Require Import SpecFloat.
From S2P Require Import Prelude JsString JsNumber Json JsonText JsObject ChannelGuards AdvancedCustom ChannelForm ChannelDrawer.
Import ChannelForm.
Local Open Scope Z_scope.

Module ChannelList.

Definition nonempty : jsstr -> bool := ModelMappingValidation.nonempty.
Definition trimAll : list jsstr -> list jsstr := ModelMappingValidation.trimAll.

Definition newline : Z := 10.

(** ** Texts and checks of a row *)
Definition isChannelEnabled (channel : Channel) : bool := is_type (ch_status channel) 1.
Definition isMultiKey (channel : Channel) : bool := is_multi_key (ch_channel_info channel).

(** [s.slice(-n)] *)
Definition slice_end (n : nat) (s : jsstr) : jsstr := drop (length s - n) s.

Definition countKeys (key : jsstr) : nat :=
  match key with [] => 0%nat | _ => length (List.filter (fun k => nonempty (trim k)) (split_on newline key)) end.

Definition formatChannelKey (key : jsstr) (isMultiKey : bool) : jsstr :=
  match key with
  | [] => []
  | _ =>
      if isMultiKey then string_of_Z (Z.of_nat (length (List.filter (fun k => nonempty (trim k)) (split_on newline key)))) ++ js " keys"
      else if (length key <=? 16)%nat then take 4 key ++ js "..." ++ slice_end 4 key
      else take 8 key ++ js "..." ++ slice_end 8 key
  end.

Definition formatKeyPreview (key : jsstr) (maxLength : nat) : jsstr :=
  match key with [] => [] | _ => if (length key <=? maxLength)%nat then key else take maxLength key ++ js "..." end.

Definition parseModelsList (models : jsstr) : list jsstr := match models with [] => [] | _ => splitList models end.

Section Groups.
Context (localeCompare : jsstr -> jsstr -> Z).

Definition groupOrder (a b : jsstr) : Z :=
  if bool_decide (a = js "default") then -1 else if bool_decide (b = js "default") then 1 else localeCompare a b.

Definition parseGroupsList (groups : jsstr) : list jsstr := match groups with [] => [] | _ => js_sort groupOrder (splitList groups) end.
End Groups.

Definition parseChannelSettings (settingStr : option jsstr) : json :=
  match settingStr with Some (c :: r) => default (JObj []) (json_parse (c :: r)) | _ => JObj [] end.

Definition parseChannelOtherSettings (settingsStr : option jsstr) : json :=
  match settingsStr with Some (c :: r) => if bool_decide (c :: r = js "{}") then JObj [] else default (JObj []) (json_parse (c :: r)) | _ => JObj [] end.

Definition getBalanceVariant (balance : num) : jsstr :=
  if num_eqb balance num_zero then js "neutral"
  else if num_ltb balance (num_of_Z 1) then js "danger"
  else if num_ltb balance (num_of_Z 10) then js "warning" else js "success".

Definition getResponseTimeConfig (timeMs : num) : jsstr :=
  if num_eqb timeMs num_zero then js "UNKNOWN"
  else if num_leb timeMs (num_of_Z 500) then js "EXCELLENT"
  else if num_leb timeMs (num_of_Z 1000) then js "GOOD"
  else if num_leb timeMs (num_of_Z 2000) then js "FAIR" else js "POOR".

Definition getPriorityDisplay (priority : option num) : jsstr := match priority with None => js "0" | Some n => num_to_string n end.
Definition getWeightDisplay (weight : option num) : jsstr := match weight with None => js "0" | Some n => num_to_string n end.

Definition lowBalance (channel : Channel) : bool := num_ltb num_zero (ch_balance channel) && num_ltb (ch_balance channel) (num_of_Z 1).

Definition allKeysDisabled (channel : Channel) : bool :=
  let info := ch_channel_info channel in
  is_multi_key info && match multi_key_status_list info with Some l => multi_key_size info <=? Z.of_nat (length l) | None => false end.

Definition channelNeedsAttention (channel : Channel) : bool :=
  if is_type (ch_status channel) 3 then true else if lowBalance channel then true else allKeysDisabled channel.

Definition getAttentionReason (channel : Channel) : option jsstr :=
  if is_type (ch_status channel) 3 then Some (js "Auto-disabled")
  else if lowBalance channel then Some (js "Low balance")
  else if allKeysDisabled channel then Some (js "All keys disabled") else None.

(** ** Rows by tag *)
(** The fields of a tag row; those left out are copied from its first channel or
    constant. *)
Record TagRow := mkTagRow {
  tr_tag : jsstr; children : list Channel; used_quota : num; response_time : num;
  priority : option num; weight : option num; group : jsstr; status : option num }.

Definition minus_one : num := num_of_Z (-1).

Definition newTagRow (tag : jsstr) : TagRow := mkTagRow tag [] num_zero num_zero (Some minus_one) (Some minus_one) [] None.

(** [a !== b] of a number or [null]. *)
Definition differs (a b : option num) : bool :=
  match a, b with Some x, Some y => negb (num_eqb x y) | None, None => false | _, _ => true end.

(** [-1] stands for a value that is not set yet. *)
Definition aggregateValue (current value : option num) : option num :=
  if negb (differs current (Some minus_one)) then value else if differs current value then None else current.

(** [text.split(',').filter(Boolean)] *)
Definition groupNames (text : jsstr) : list jsstr := List.filter nonempty (split_on comma text).

Definition aggregateGroup (current channelGroup : jsstr) : jsstr :=
  match current with
  | [] => channelGroup
  | _ =>
      let existingGroups := groupNames current in
      fold_left (fun text g => if bool_decide (g ∈ existingGroups) then text else text ++ [comma] ++ g) (groupNames channelGroup) current
  end.

Definition aggregateStatus (current : option num) (s : num) : option num :=
  if is_type s 1 then Some (num_of_Z 1) else match current with None => Some s | _ => current end.

Definition addChild (row : TagRow) (channel : Channel) : TagRow :=
  let childCount := num_of_Z (Z.of_nat (length (children row ++ [channel]))) in
  mkTagRow (tr_tag row) (children row ++ [channel]) (num_add (used_quota row) (ch_used_quota channel))
    (num_div (num_add (num_mul (response_time row) (num_sub childCount (num_of_Z 1))) (ch_response_time channel)) childCount)
    (aggregateValue (priority row) (ch_priority channel)) (aggregateValue (weight row) (ch_weight channel))
    (aggregateGroup (group row) (ch_group channel)) (aggregateStatus (status row) (ch_status channel)).

Definition tagOf (channel : Channel) : jsstr := str_or (ch_tag channel) [].

Definition addToTags (rows : list (jsstr * TagRow)) (channel : Channel) : list (jsstr * TagRow) :=
  let tag := tagOf channel in
  map_set tag (addChild (default (newTagRow tag) (map_get tag rows)) channel) rows.

Definition aggregateChannelsByTag (channels : list Channel) : list TagRow := map_values (fold_left addToTags channels []).

(** ** Lists of keys *)
Record Deduplicated := mkDeduplicated { deduplicatedText : jsstr; beforeCount : nat; afterCount : nat; removedCount : nat }.

Definition deduplicateKeys (keysText : jsstr) : Deduplicated :=
  match trim keysText with
  | [] => mkDeduplicated [] 0 0 0
  | _ =>
      let keyLines := split_on newline keysText in
      let keys := fold_left (fun keys line =>
        match trim line with [] => keys | trimmedLine => if set_has trimmedLine keys then keys else keys ++ [trimmedLine] end) keyLines [] in
      mkDeduplicated (join [newline] keys) (length keyLines) (length keys) (length keyLines - length keys)
  end.

(** ** Upstream model updates *)
(** [Array.from(new Set(models.map((model) => String(model || '').trim()).filter(Boolean)))] *)
Definition normalizeModelList (models : list json) : list jsstr := ChannelDrawer.modelTexts models.

Record UpdateMeta := mkMeta { enabled : bool; pendingAddModels : list jsstr; pendingRemoveModels : list jsstr }.

(** The value is a list where the server writes one; [None] for a value on which
    [map] throws. *)
Definition modelList (v : option json) : option (list jsstr) :=
  match v with Some (JArr l) => Some (normalizeModelList l) | Some w => if json_truthy w then None else Some [] | None => Some [] end.

Definition parseUpstreamUpdateMeta (settings : jsstr) : option UpdateMeta :=
  match json_parse settings with
  | Some (JObj ps) =>
      add ← modelList (map_get (js "upstream_model_update_last_detected_models") ps);
      remove ← modelList (map_get (js "upstream_model_update_last_removed_models") ps);
      Some (mkMeta (is_true (map_get (js "upstream_model_update_check_enabled") ps)) add remove)
  | _ => Some (mkMeta false [] [])
  end.

(** The dialog: the channel it is open for and the models it offers. *)
Record UpdatesModal := mkModal { modalChannel : option num; addModels : list jsstr; removeModels : list jsstr; showModal : bool; applying : bool }.

Definition closedModal (applying : bool) : UpdatesModal := mkModal None [] [] false applying.

Definition openModal (record : num) (pendingAdd pendingRemove : list jsstr) (s : UpdatesModal) : UpdatesModal :=
  let normAdd := normalizeModelList (map JStr pendingAdd) in
  let normRemove := normalizeModelList (map JStr pendingRemove) in
  if negb (num_truthy record) || bool_decide (normAdd = [] /\ normRemove = []) then s else mkModal (Some record) normAdd normRemove true (applying s).

Record ApplyRequest := mkApply { apply_id : num; add_models : list jsstr; ignore_models : list jsstr; remove_models : list jsstr }.

(** [applyUpdates] up to its request: nothing while another one is under way. *)
Definition applyUpdates (selectedAdd selectedRemove : list jsstr) (s : UpdatesModal) : option ApplyRequest * UpdatesModal :=
  if applying s then (None, s)
  else match modalChannel s with
       | None => (None, closedModal false)
       | Some channel =>
           let normSelectedAdd := normalizeModelList (map JStr selectedAdd) in
           let ignoreModels := List.filter (fun m => negb (set_has m normSelectedAdd)) (addModels s) in
           (Some (mkApply channel normSelectedAdd ignoreModels (normalizeModelList (map JStr selectedRemove))),
            mkModal (modalChannel s) (addModels s) (removeModels s) (showModal s) true)
       end.

(** The response: the dialog closes when it reports success. *)
Definition applied (success : bool) (s : UpdatesModal) : UpdatesModal :=
  if success then closedModal false else mkModal (modalChannel s) (addModels s) (removeModels s) (showModal s) false.

(** ** Rows as folds over their channels *)
Definition rowsOf (channels : list Channel) : list (jsstr * TagRow) := fold_left addToTags channels [].
Definition rowOf (tag : jsstr) (channels : list Channel) : TagRow := fold_left addChild channels (newTagRow tag).
Definition taggedBy (tag : jsstr) (channels : list Channel) : list Channel := List.filter (fun c => bool_decide (tagOf c = tag)) channels.

Lemma set_of_list_snoc {A} `{EqDecision A} (l : list A) x : set_of_list (l ++ [x]) = set_add x (set_of_list l).
Proof. unfold set_of_list. by rewrite fold_left_app. Qed.

Lemma keys_rowsOf l : map_keys (rowsOf l) = set_of_list (map tagOf l).
Proof.
  induction l as [|c l IH] using rev_ind; [done|]. unfold rowsOf in *. rewrite fold_left_app, map_app. cbn [fold_left map]. rewrite set_of_list_snoc, <- IH.
  unfold addToTags. rewrite map_keys_set. unfold set_add, set_has. by case_bool_decide.
Qed.

Lemma get_rowsOf l tag :
  map_get tag (rowsOf l) = match taggedBy tag l with [] => None | cs => Some (rowOf tag cs) end.
Proof.
  induction l as [|c l IH] using rev_ind; [done|]. unfold rowsOf, taggedBy in *. rewrite fold_left_app, List.filter_app. cbn [fold_left List.filter].
  unfold addToTags at 1. rewrite map_get_set_bool. destruct (decide (tagOf c = tag)) as [->|Hne].
  - rewrite !bool_decide_eq_true_2 by done. rewrite IH. f_equal. unfold rowOf.
    destruct (List.filter _ l) as [|c1 cs]; [done|]. cbn [default from_option id app]. rewrite app_comm_cons, fold_left_app. done.
  - rewrite !bool_decide_eq_false_2 by congruence. by rewrite app_nil_r.
Qed.

Lemma rowOf_snoc tag cs c : rowOf tag (cs ++ [c]) = addChild (rowOf tag cs) c.
Proof. unfold rowOf. by rewrite fold_left_app. Qed.

Lemma rowOf_children tag cs : children (rowOf tag cs) = cs /\ tr_tag (rowOf tag cs) = tag.
Proof. induction cs as [|c cs [IH1 IH2]] using rev_ind; [done|]. rewrite rowOf_snoc. cbn [addChild children tr_tag]. by rewrite IH1, IH2. Qed.

Lemma rowOf_quota tag cs : used_quota (rowOf tag cs) = fold_left num_add (map ch_used_quota cs) num_zero.
Proof. induction cs as [|c cs IH] using rev_ind; [done|]. rewrite rowOf_snoc, map_app, fold_left_app. cbn [addChild used_quota map fold_left]. by rewrite IH. Qed.

Lemma rowOf_status tag cs :
  status (rowOf tag cs) = if existsb isChannelEnabled cs then Some (num_of_Z 1) else ch_status <$> head cs.
Proof.
  induction cs as [|c cs IH] using rev_ind; [done|]. rewrite rowOf_snoc, existsb_app. cbn [addChild status existsb]. rewrite IH. unfold aggregateStatus, isChannelEnabled.
  rewrite orb_false_r. destruct (is_type (ch_status c) 1); [by rewrite orb_true_r|]. rewrite orb_false_r.
  destruct (existsb _ cs); [done|]. by destruct cs.
Qed.

(** The common value of a column, if there is one. *)
Definition common (vs : list (option num)) : option num :=
  match vs with v :: rest => if forallb (fun w => negb (differs v w)) rest then v else None | [] => Some minus_one end.

Lemma aggregateValue_None w : aggregateValue None w = None.
Proof. unfold aggregateValue. cbn. by destruct w. Qed.

Lemma aggregate_common vs :
  forallb (fun v => differs v (Some minus_one)) vs = true -> fold_left aggregateValue vs (Some minus_one) = common vs.
Proof.
  destruct vs as [|v vs]; [done|]. cbn [forallb fold_left]. intros [Hv _]%andb_true_iff.
  assert (E : aggregateValue (Some minus_one) v = v) by reflexivity. rewrite E. clear E. cbn [common].
  assert (N : forall l, fold_left aggregateValue l None = None) by (induction l as [|w l IH]; [done|]; cbn [fold_left]; by rewrite aggregateValue_None).
  induction vs as [|w vs IH]; [done|]. cbn [fold_left forallb]. unfold aggregateValue at 2. rewrite Hv. cbn [negb].
  destruct (differs v w); [apply N|exact IH].
Qed.

Lemma rowOf_priority tag cs : priority (rowOf tag cs) = fold_left aggregateValue (map ch_priority cs) (Some minus_one).
Proof. induction cs as [|c cs IH] using rev_ind; [done|]. rewrite rowOf_snoc, map_app, fold_left_app. cbn [addChild priority map fold_left]. by rewrite IH. Qed.

Lemma rowOf_weight tag cs : weight (rowOf tag cs) = fold_left aggregateValue (map ch_weight cs) (Some minus_one).
Proof. induction cs as [|c cs IH] using rev_ind; [done|]. rewrite rowOf_snoc, map_app, fold_left_app. cbn [addChild weight map fold_left]. by rewrite IH. Qed.

Lemma elem_of_groupNames g text : g ∈ groupNames text <-> g <> [] /\ g ∈ split_on comma text.
Proof.
  unfold groupNames. rewrite ChannelDrawer.elem_of_list_filter. unfold nonempty. rewrite ModelMappingValidation.nonempty_spec. tauto.
Qed.

Lemma groupNames_no_comma g text : g ∈ groupNames text -> no_char comma g = true.
Proof.
  intros [_ Hg]%elem_of_groupNames. pose proof (ModelMappingValidation.split_on_no_sep comma text) as F. rewrite Forall_forall in F. by apply F.
Qed.

(** Joining a group text with another adds its names and loses none. *)
Lemma aggregateGroup_names cur text g : g ∈ groupNames (aggregateGroup cur text) <-> g ∈ groupNames cur \/ g ∈ groupNames text.
Proof.
  unfold aggregateGroup. destruct cur as [|x r]; [cbn; set_solver|]. set (cur := x :: r). set (ex := groupNames cur). cbv zeta.
  assert (G : forall l t, Forall (fun g => no_char comma g = true /\ g <> []) l ->
    g ∈ groupNames (fold_left (fun text g => if bool_decide (g ∈ ex) then text else text ++ [comma] ++ g) l t) <-> g ∈ groupNames t \/ (g ∈ l /\ g ∉ ex)).
  { induction l as [|h l IH]; intros t F; [cbn [fold_left]; set_solver|]. apply Forall_cons in F as [[Hh Hne] F]. cbn [fold_left]. rewrite IH by done.
    case_bool_decide as E; [set_solver|]. rewrite !elem_of_groupNames. change (t ++ [comma] ++ h) with (t ++ comma :: h).
    rewrite ChannelDrawer.split_on_sep, (split_on_no_char comma h), elem_of_app, list_elem_of_singleton by done. set_solver. }
  rewrite G; [|apply Forall_forall; intros h Hh; split; [by eapply groupNames_no_comma | by apply elem_of_groupNames in Hh as [? _]]].
  fold ex. destruct (decide (g ∈ ex)); tauto.
Qed.

Lemma rowOf_groups tag cs g : g ∈ groupNames (group (rowOf tag cs)) <-> exists c, c ∈ cs /\ g ∈ groupNames (ch_group c).
Proof.
  induction cs as [|c cs IH] using rev_ind; [cbn; set_solver|]. rewrite rowOf_snoc. cbn [addChild group]. rewrite aggregateGroup_names, IH. set_solver.
Qed.

(** ** Properties *)

(** The channels' priorities, or their weights, are all set. *)
Definition all_set (vs : list (option num)) : bool := forallb (fun v => differs v (Some minus_one)) vs.

(** Grouping by tag loses no channel: the rows are the tags in order of
    first appearance, each row holds the channels of its tag in their order, its
    quota is their sum, it is enabled when one of them is, it names exactly their
    groups, and shows the priority and the weight that all of them share, if no
    channel has the value -1. *)
Theorem tag_rows (channels : list Channel) :
  map tr_tag (aggregateChannelsByTag channels) = set_of_list (map tagOf channels) /\
  forall row, row ∈ aggregateChannelsByTag channels ->
    children row = taggedBy (tr_tag row) channels /\ children row <> [] /\
    used_quota row = fold_left num_add (map ch_used_quota (children row)) num_zero /\
    status row = (if existsb isChannelEnabled (children row) then Some (num_of_Z 1) else ch_status <$> head (children row)) /\
    (forall g, g ∈ groupNames (group row) <-> exists c, c ∈ children row /\ g ∈ groupNames (ch_group c)) /\
    (all_set (map ch_priority (children row)) = true -> priority row = common (map ch_priority (children row))) /\
    (all_set (map ch_weight (children row)) = true -> weight row = common (map ch_weight (children row))).
Proof.
  assert (R : forall tag row, map_get tag (rowsOf channels) = Some row -> row = rowOf tag (taggedBy tag channels) /\ taggedBy tag channels <> []).
  { intros tag row. rewrite get_rowsOf. destruct (taggedBy tag channels); [done|]. by intros [= <-]. }
  assert (N : NoDup (map_keys (rowsOf channels))) by (rewrite keys_rowsOf; apply NoDup_set_of_list).
  unfold aggregateChannelsByTag. fold (rowsOf channels). split.
  - rewrite <- keys_rowsOf. unfold map_values, map_keys. rewrite <- list_fmap_compose. apply list_fmap_ext. intros i [tag row] Hi. cbn.
    apply list_elem_of_lookup_2, (elem_map_get _ _ _ N) in Hi. apply R in Hi as [-> _]. apply rowOf_children.
  - intros row Hrow. apply list_elem_of_fmap in Hrow as ([tag row'] & -> & Hin). cbn [snd]. apply (elem_map_get _ _ _ N) in Hin. apply R in Hin as [-> Hne].
    destruct (rowOf_children tag (taggedBy tag channels)) as [Hc Ht]. rewrite Hc, Ht. split_and!; [done|done| | | | |].
    + apply rowOf_quota.
    + apply rowOf_status.
    + intros g. apply rowOf_groups.
    + intros Ha. rewrite rowOf_priority. by apply aggregate_common.
    + intros Ha. rewrite rowOf_weight. by apply aggregate_common.
Qed.

(** A channel of priority -1 is taken for a row without a priority, and the
    priority of the next channel is shown for both. *)
Theorem minus_one_priority_hidden (tag : jsstr) (a b : Channel) (n : num) (Ha : ch_priority a = Some minus_one) (Hb : ch_priority b = Some n) :
  priority (rowOf tag [a; b]) = Some n.
Proof. rewrite rowOf_priority. cbn [map fold_left]. rewrite Ha, Hb. reflexivity. Qed.

(** ** Keys *)
Definition dedup_step (keys : list jsstr) (line : jsstr) : list jsstr :=
  match trim line with [] => keys | trimmedLine => if set_has trimmedLine keys then keys else keys ++ [trimmedLine] end.

Lemma dedup_fold lines acc :
  fold_left dedup_step lines acc = fold_left (fun s x => set_add x s) (trimAll lines) acc.
Proof.
  revert acc. induction lines as [|line lines IH]; intros acc; [done|]. cbn [fold_left]. rewrite IH. unfold trimAll, ModelMappingValidation.trimAll. cbn [map].
  unfold dedup_step. destruct (trim line) as [|x r] eqn:E.
  - by rewrite filter_cons_False.
  - rewrite filter_cons_True by done. reflexivity.
Qed.

Lemma trimAll_set l : Forall (fun s => s <> [] /\ trim s = s) (set_of_list (trimAll l)).
Proof. apply Forall_set_of_list, ModelMappingValidation.trimAll_trimmed. Qed.

Lemma length_set_of_list {A} `{EqDecision A} (l : list A) : (length (set_of_list l) <= length l)%nat.
Proof.
  induction l as [|x l IH] using rev_ind; [done|]. rewrite set_of_list_snoc, length_app. unfold set_add. destruct (set_has x _); rewrite ?length_app; cbn; lia.
Qed.

Lemma length_trimAll l : (length (trimAll l) <= length l)%nat.
Proof. unfold trimAll, ModelMappingValidation.trimAll. etrans; [apply length_filter|]. by rewrite length_map. Qed.

Lemma head_trim x s : is_ws x = false -> trim (x :: s) <> [].
Proof. intros Hx H. apply trim_nil_all_ws in H. cbn in H. by rewrite Hx in H. Qed.

Lemma trimmed_head s : s <> [] -> trim s = s -> exists x r, s = x :: r /\ is_ws x = false.
Proof.
  intros Hs Ht. destruct s as [|x r]; [done|]. exists x, r. split; [done|]. pose proof (trimmed_trim (x :: r)) as T. rewrite Ht in T. unfold trimmed in T.
  apply andb_true_iff in T as [T _]. by apply negb_true_iff in T.
Qed.

Lemma dedup_text text : deduplicatedText (deduplicateKeys text) = match trim text with [] => [] | _ => join [newline] (set_of_list (trimAll (split_on newline text))) end.
Proof.
  unfold deduplicateKeys. destruct (trim text); [done|]. cbn [deduplicatedText]. change (fold_left _ (split_on newline text) []) with (fold_left dedup_step (split_on newline text) []).
  by rewrite dedup_fold.
Qed.

(** A list of distinct keys is its own clean-up. *)
Lemma dedup_again keys :
  NoDup keys -> Forall (fun s => s <> [] /\ trim s = s) keys -> Forall (fun s => no_char newline s = true) keys ->
  deduplicatedText (deduplicateKeys (join [newline] keys)) = join [newline] keys.
Proof.
  intros Hn Hf Hc. rewrite dedup_text. destruct keys as [|k keys]; [done|].
  assert (T : trim (join [newline] (k :: keys)) <> []).
  { apply Forall_cons in Hf as [[H1 H2] _]. destruct (trimmed_head k H1 H2) as (x & r & -> & Hx). destruct keys; cbn [join app]; by apply head_trim. }
  destruct (trim (join [newline] (k :: keys))); [done|]. rewrite split_join; [|done|].
  - unfold trimAll. rewrite ModelMappingValidation.trimAll_id by done. by rewrite set_of_list_NoDup.
  - apply forallb_forall. intros s Hs%list_elem_of_In. rewrite Forall_forall in Hc. by apply Hc.
Qed.

(** The keys that remain are the distinct keys of the text, trimmed, in
    order of first appearance; the counts add up; and cleaning up again changes
    nothing. *)
Theorem deduplicate_keys_spec (text : jsstr) (Ht : trim text <> []) :
  let r := deduplicateKeys text in
  let keys := set_of_list (trimAll (split_on newline text)) in
  deduplicatedText r = join [newline] keys /\ beforeCount r = length (split_on newline text) /\ afterCount r = length keys /\
  (beforeCount r = afterCount r + removedCount r)%nat /\ deduplicatedText (deduplicateKeys (deduplicatedText r)) = deduplicatedText r.
Proof.
  cbv zeta. assert (E : deduplicatedText (deduplicateKeys text) = join [newline] (set_of_list (trimAll (split_on newline text)))) by (rewrite dedup_text; by destruct (trim text)).
  assert (A : afterCount (deduplicateKeys text) = length (set_of_list (trimAll (split_on newline text)))).
  { unfold deduplicateKeys. destruct (trim text); [done|]. cbn [afterCount].
    change (fold_left _ (split_on newline text) []) with (fold_left dedup_step (split_on newline text) []). by rewrite dedup_fold. }
  assert (B : beforeCount (deduplicateKeys text) = length (split_on newline text)) by (unfold deduplicateKeys; by destruct (trim text)).
  assert (C : removedCount (deduplicateKeys text) = (beforeCount (deduplicateKeys text) - afterCount (deduplicateKeys text))%nat) by (unfold deduplicateKeys; by destruct (trim text)).
  split_and!; [done..| |].
  - rewrite C, A, B. pose proof (length_set_of_list (trimAll (split_on newline text))). pose proof (length_trimAll (split_on newline text)). lia.
  - rewrite E. apply dedup_again; [apply NoDup_set_of_list | apply trimAll_set|]. apply Forall_set_of_list, Forall_forall.
    intros s (_ & y & Hy & ->)%ModelMappingValidation.elem_of_trimAll. apply forallb_trim.
    pose proof (ModelMappingValidation.split_on_no_sep newline text) as F. rewrite Forall_forall in F. by apply F.
Qed.

Lemma deduplicate_keys_spec_witness :
  deduplicatedText (deduplicateKeys (js "a" ++ [10; 32] ++ js "b" ++ [10] ++ js "a")) = js "a" ++ [10] ++ js "b".
Proof.
  destruct (deduplicate_keys_spec (js "a" ++ [10; 32] ++ js "b" ++ [10] ++ js "a")) as [H _]; [vm_compute; discriminate|].
  rewrite H. vm_compute. reflexivity.
Defined.

(** ** Upstream updates *)
(** Applying the updates of a channel decides on every model that the dialog
    offers, once: what is not selected is ignored; and while a request is under
    way, no second one is sent. *)
Theorem apply_decides_all (selectedAdd selectedRemove : list jsstr) (s : UpdatesModal) (r : ApplyRequest) (s' : UpdatesModal)
    (Hr : applyUpdates selectedAdd selectedRemove s = (Some r, s')) :
  modalChannel s = Some (apply_id r) /\ applying s = false /\ (forall m, m ∈ addModels s -> m ∈ add_models r \/ m ∈ ignore_models r) /\
  (forall m, m ∈ ignore_models r -> m ∈ addModels s /\ m ∉ add_models r) /\ NoDup (add_models r) /\
  fst (applyUpdates selectedAdd selectedRemove s') = None.
Proof.
  unfold applyUpdates in Hr. destruct (applying s) eqn:Ea; [done|]. destruct (modalChannel s) as [c|] eqn:Ec; [|done]. cbv zeta in Hr.
  apply pair_equal_spec in Hr as [Hr <-]. apply (inj Some) in Hr as <-. cbn [apply_id add_models ignore_models]. split_and!; [done..| | | |done].
  - intros m Hm. destruct (decide (m ∈ normalizeModelList (map JStr selectedAdd))); [by left|]. right. apply ChannelDrawer.elem_of_list_filter.
    split; [done|]. unfold set_has. by rewrite bool_decide_eq_false_2.
  - intros m [Hm Hn]%ChannelDrawer.elem_of_list_filter. split; [done|]. unfold set_has in Hn. by apply negb_true_iff, bool_decide_eq_false in Hn.
  - unfold normalizeModelList, ChannelDrawer.modelTexts. apply NoDup_set_of_list.
Qed.

Lemma apply_decides_all_witness :
  let s := mkModal (Some (num_of_Z 3)) [js "a"; js "b"] [] true false in
  js "b" ∈ addModels s /\ fst (applyUpdates [js "a"] [] (snd (applyUpdates [js "a"] [] s))) = None.
Proof.
  cbv zeta. split; [set_solver|].
  destruct (applyUpdates [js "a"] [] (mkModal (Some (num_of_Z 3)) [js "a"; js "b"] [] true false)) as [o s'] eqn:E.
  destruct o as [r|]; [|discriminate E]. apply (apply_decides_all [js "a"] [] _ r s' E).
Defined.
End ChannelList.
