(* ===== verification/SettingsForm.v ===== *)
(** * The forms of the system settings

    [features/system-settings/hooks/use-settings-form.ts]: the options of the
    server have dotted names; the hook expands them into the nested values of a
    form, flattens them back, and saves the fields that were changed and differ
    from the baseline.  The form library is an input: the fields it reports as
    dirty and the values it submits. *)
From S2P Require Import Prelude JsString JsNumber Json JsonText JsObject.
Local Open Scope Z_scope.

Module SettingsForm.

Definition isPlainObject (v : json) : bool := match v with JObj _ => true | _ => false end.

(** [parentKey ? `${parentKey}.${key}` : key] *)
Definition nextKey (parentKey : option jsstr) (key : jsstr) : jsstr :=
  match parentKey with Some (c :: r) => (c :: r) ++ dot :: key | _ => key end.

(** [result[key] = value] for a value that may be [undefined]. *)
Abbreviation dirty_values := (list (jsstr * option json)).

Fixpoint flattenValues (values : json) (parentKey : option jsstr) (result : members) {struct values} : members :=
  match values with
  | JObj ps =>
      (fix entries (ps : list (jsstr * json)) (result : members) : members :=
         match ps with
         | [] => result
         | (key, value) :: rest =>
             entries rest (if isPlainObject value then flattenValues value (Some (nextKey parentKey key)) result
                           else obj_put (nextKey parentKey key) value result)
         end) ps result
  | _ => match parentKey with Some k => obj_put k values result | None => result end
  end.

(** [values[key]] of an object or an array, and [undefined] of anything else. *)
Definition source_of (values : option json) (key : jsstr) : option json :=
  match values with
  | Some (JObj ps) => map_get key ps
  | Some (JArr l) => map_get key (indexed id l)
  | _ => None
  end.

(** [dirtyFields] is [true], an object or an array of such values, or anything
    else for fields that are not dirty. *)
Fixpoint collectDirtyValues (dirtyFields : json) (values : option json) (parentKey : option jsstr) (result : dirty_values) {struct dirtyFields} : dirty_values :=
  match dirtyFields with
  | JBool true => match parentKey with Some k => map_set k values result | None => result end
  | JObj ps =>
      (fix entries (ps : list (jsstr * json)) (result : dirty_values) : dirty_values :=
         match ps with
         | [] => result
         | (key, value) :: rest => entries rest (collectDirtyValues value (source_of values key) (Some (nextKey parentKey key)) result)
         end) ps result
  | JArr l =>
      (fix elements (i : nat) (l : list json) (result : dirty_values) : dirty_values :=
         match l with
         | [] => result
         | value :: rest =>
             let key := string_of_Z (Z.of_nat i) in
             elements (S i) rest (collectDirtyValues value (source_of values key) (Some (nextKey parentKey key)) result)
         end) 0%nat l result
  | _ => result
  end.

Fixpoint set_segments (segments : list jsstr) (value : json) (target : members) : members :=
  match segments with
  | [] => target
  | [segment] => obj_put segment value target
  | segment :: rest => obj_put segment (JObj (set_segments rest value (match map_get segment target with Some (JObj next) => next | _ => [] end))) target
  end.

Definition setDeepValue (target : members) (path : jsstr) (value : json) : members := set_segments (split_on dot path) value target.

Fixpoint expandDotPaths (values : json) : json :=
  match values with
  | JObj ps =>
      JObj ((fix entries (ps : list (jsstr * json)) (result : members) : members :=
               match ps with
               | [] => result
               | (key, value) :: rest =>
                   entries rest (if includes [dot] key then setDeepValue result key value
                                 else if isPlainObject value then obj_put key (expandDotPaths value) result
                                 else obj_put key value result)
               end) ps [])
  | _ => values
  end.

(** [a === b]; objects and arrays are never the same object here. *)
Definition strict_equal (a b : option json) : bool :=
  match a, b with
  | None, None | Some JNull, Some JNull => true
  | Some (JBool x), Some (JBool y) => Bool.eqb x y
  | Some (JNum x), Some (JNum y) => num_eqb x y
  | Some (JStr x), Some (JStr y) => bool_decide (x = y)
  | _, _ => false
  end.

Definition is_object (v : json) : bool := match v with JObj _ | JArr _ => true | _ => false end.

(** The comparison of a form that gives none of its own. *)
Definition defaultCompare (a b : option json) : bool :=
  strict_equal a b ||
  match a, b with
  | Some x, Some y => is_object x && is_object y && bool_decide (json_stringify x = json_stringify y)
  | _, _ => false
  end.

(** The refs of the hook and the values of the form after its last reset. *)
Record Settings := mkSettings { baseline : members; defaultValues : json; serializedDefaults : jsstr; form : json }.

Definition flat (v : json) : members := flattenValues v None [].

(** The first rendering. *)
Definition openSettings (defaults : json) : Settings :=
  let expanded := expandDotPaths defaults in
  mkSettings (flat expanded) expanded (json_stringify (JObj (flat expanded))) expanded.

(** The effect that runs when the defaults have changed. *)
Definition syncDefaults (defaults : json) (s : Settings) : Settings :=
  let expanded := expandDotPaths defaults in
  let serialized := json_stringify (JObj (flat expanded)) in
  if bool_decide (serialized = serializedDefaults s) then s else mkSettings (flat expanded) expanded serialized expanded.

Definition changedEntries (dirtyFields data : json) (s : Settings) : dirty_values :=
  List.filter (fun e => negb (defaultCompare e.2 (map_get e.1 (baseline s)))) (collectDirtyValues dirtyFields (Some data) None []).

(** [handleSubmit]: the fields that are passed on, and the hook after [onSubmit]
    has succeeded; when it throws, nothing changes.  The comparison is the default
    one, as no caller of the hook passes [compareValues]. *)
Definition handleSubmit (dirtyFields data : json) (succeeds : bool) (s : Settings) : option dirty_values * Settings :=
  match changedEntries dirtyFields data s with
  | [] => (None, s)
  | changed => (Some changed, if succeeds then mkSettings (flat data) data (json_stringify (JObj (flat data))) data else s)
  end.

Definition handleReset (s : Settings) : Settings := mkSettings (baseline s) (defaultValues s) (serializedDefaults s) (defaultValues s).

(** ** Paths through nested values *)
Fixpoint leaf_at (p : list jsstr) (v : json) : option json :=
  match p with
  | [] => if isPlainObject v then None else Some v
  | k :: p' => match v with JObj ps => match map_get k ps with Some w => leaf_at p' w | None => None end | _ => None end
  end.

Fixpoint leaves (v : json) : list (list jsstr * json) :=
  match v with
  | JObj ps =>
      (fix entries (ps : list (jsstr * json)) : list (list jsstr * json) :=
         match ps with [] => [] | (k, w) :: rest => map (fun l => (k :: l.1, l.2)) (leaves w) ++ entries rest end) ps
  | _ => [([], v)]
  end.

(** Names of fields: not empty and without a dot; distinct in every object. *)
Definition is_name (k : jsstr) : bool := no_char dot k && negb (bool_decide (k = [])).

Fixpoint tidy (v : json) : bool :=
  match v with
  | JObj ps => bool_decide (NoDup (map_keys ps)) && (fix entries (ps : list (jsstr * json)) : bool :=
                 match ps with [] => true | (k, w) :: rest => is_name k && tidy w && entries rest end) ps
  | _ => true
  end.

Definition path_key (p : list jsstr) : jsstr := join [dot] p.

Lemma path_key_app p k : p <> [] -> path_key (p ++ [k]) = path_key p ++ dot :: k.
Proof.
  unfold path_key. induction p as [|a p IH]; intros Hp; [done|]. destruct p as [|b p]; [done|].
  change (a ++ [dot] ++ join [dot] ((b :: p) ++ [k]) = (a ++ [dot] ++ join [dot] (b :: p)) ++ dot :: k). rewrite IH by done. by rewrite <- !app_assoc.
Qed.

Definition parent_of (p : list jsstr) : option jsstr := match p with [] => None | _ => Some (path_key p) end.

Lemma path_key_nonempty p : p <> [] -> forallb is_name p = true -> path_key p <> [].
Proof.
  destruct p as [|a p]; [done|]. cbn. intros _ [Ha _]%andb_true_iff. apply andb_true_iff in Ha as [_ Ha%negb_true_iff%bool_decide_eq_false].
  unfold path_key. destruct p; cbn; [done|]. by destruct a.
Qed.

Lemma nextKey_parent p k : forallb is_name p = true -> nextKey (parent_of p) k = path_key (p ++ [k]).
Proof.
  intros Hp. destruct p as [|a p]; [done|]. cbn [parent_of]. pose proof (path_key_nonempty (a :: p) ltac:(done) Hp) as Hne.
  rewrite path_key_app by done. unfold nextKey. by destruct (path_key (a :: p)).
Qed.

(** The entries of an object, as a list. *)
Lemma tidy_obj ps : tidy (JObj ps) = true <-> NoDup (map_keys ps) /\ Forall (fun e => is_name e.1 = true /\ tidy e.2 = true) ps.
Proof.
  cbn [tidy]. rewrite andb_true_iff, bool_decide_eq_true. apply and_iff_compat_l.
  induction ps as [|[k w] ps IH]; [by split|]. rewrite !andb_true_iff, IH, Forall_cons. cbn. tauto.
Qed.

Lemma leaves_obj ps : leaves (JObj ps) = flat_map (fun e => map (fun l => (e.1 :: l.1, l.2)) (leaves e.2)) ps.
Proof. cbn [leaves]. induction ps as [|[k w] ps IH]; [done|]. cbn [flat_map fst snd]. by rewrite IH. Qed.

Definition put_leaf (pre : list jsstr) (r : members) (l : list jsstr * json) : members := obj_put (path_key (pre ++ l.1)) l.2 r.

(** Flattening writes the leaves in order. *)
Lemma flatten_leaves v pre r : tidy v = true -> forallb is_name pre = true -> isPlainObject v = true ->
  flattenValues v (parent_of pre) r = fold_left (put_leaf pre) (leaves v) r.
Proof.
  revert pre r. induction v as [| | | | |ps IH] using json_nested_ind; intros pre r Ht Hp Hv; try done.
  apply tidy_obj in Ht as [_ Ht]. rewrite leaves_obj. cbn [flattenValues]. clear Hv. revert r.
  induction ps as [|[k w] ps IHps]; intros r; [done|]. apply Forall_cons in IH as [IHw IH]. apply Forall_cons in Ht as [[Hk Hw] Ht]. cbn [fst snd] in *.
  cbn [flat_map fst snd]. rewrite fold_left_app, <- (IHps IH Ht). f_equal. rewrite nextKey_parent by done.
  assert (Hpk : forallb is_name (pre ++ [k]) = true) by (rewrite forallb_app, Hp; cbn; by rewrite Hk).
  destruct (isPlainObject w) eqn:Ew.
  - replace (Some (path_key (pre ++ [k]))) with (parent_of (pre ++ [k])) by (by destruct pre). rewrite IHw by done.
    rewrite fold_left_map. cbn [fst snd]. clear. revert r. induction (leaves w) as [|l ls IHl]; intros r; [done|]. cbn [fold_left]. rewrite IHl.
    f_equal. unfold put_leaf. cbn [fst snd]. by rewrite <- app_assoc.
  - destruct w; try done; cbn; unfold put_leaf; cbn; done.
Qed.

Lemma elem_leaves v p w : tidy v = true -> (p, w) ∈ leaves v <-> leaf_at p v = Some w.
Proof.
  revert p. induction v as [| | | | |ps IH] using json_nested_ind; intros p Ht;
    try (cbn [leaves]; rewrite list_elem_of_singleton; destruct p; cbn; split; naive_solver).
  apply tidy_obj in Ht as [Hn Ht]. rewrite leaves_obj, list_elem_of_In, List.in_flat_map. destruct p as [|k p].
  - cbn. split; [|done]. intros (e & _ & Hin). apply in_map_iff in Hin as (l & [= ] & _).
  - cbn [leaf_at]. rewrite Forall_forall in IH, Ht. split.
    + intros ([k' w'] & He & Hin). apply in_map_iff in Hin as ([p' x] & [= -> -> ->] & Hin). apply list_elem_of_In in He, Hin. cbn [fst snd] in *.
      rewrite (elem_map_get k w' ps) by done. apply (IH _ He); [by apply (Ht _ He) | done].
    + destruct (map_get k ps) as [w'|] eqn:E; [|done]. apply map_get_Some_elem in E. intros Hl. exists (k, w'). split; [by apply list_elem_of_In|].
      apply in_map_iff. exists (p, w). split; [done|]. apply list_elem_of_In, (IH _ E); [by apply (Ht _ E) | done].
Qed.

Lemma leaf_names v p w : tidy v = true -> leaf_at p v = Some w -> forallb is_name p = true.
Proof.
  revert v. induction p as [|k p IH]; intros v Ht H; [done|]. cbn [leaf_at] in H. destruct v as [| | | | |ps]; try done. apply tidy_obj in Ht as [_ Ht].
  destruct (map_get k ps) as [x|] eqn:E; [|done]. apply map_get_Some_elem in E. rewrite Forall_forall in Ht. destruct (Ht _ E) as [Hk Hx]. cbn in *.
  by rewrite Hk, (IH x).
Qed.

Lemma split_path p : p <> [] -> forallb is_name p = true -> split_on dot (path_key p) = p.
Proof.
  intros Hp Hn. apply split_join; [done|]. rewrite List.forallb_forall in Hn |- *. intros k Hk. by apply Hn, andb_true_iff in Hk as [? _].
Qed.

Lemma path_split k : path_key (split_on dot k) = k.
Proof.
  unfold path_key. induction k as [|c k IH]; [done|]. cbn [split_on]. assert (Hne : split_on dot k <> []) by (destruct k; cbn; repeat case_match; done).
  destruct (Z.eqb_spec c dot) as [->|Hc]; destruct (split_on dot k) as [|w [|w' ws]]; try done; cbn in *; by rewrite IH.
Qed.

Lemma keys_put_leaves ls r : NoDup (map_keys r) -> NoDup (map_keys (fold_left (put_leaf []) ls r)).
Proof. revert r. induction ls as [|l ls IH]; intros r Hr; [done|]. apply IH. by apply keys_obj_put. Qed.

Lemma get_put_leaves ls r k : NoDup (map_keys r) -> (forall l1 l2, l1 ∈ ls -> l2 ∈ ls -> path_key l1.1 = path_key l2.1 -> l1.2 = l2.2) ->
  map_get k (fold_left (put_leaf []) ls r) = match List.find (fun l => bool_decide (path_key l.1 = k)) ls with Some l => Some l.2 | None => map_get k r end.
Proof.
  revert r. induction ls as [|l ls IH]; intros r Hr Hf; [done|]. cbn [fold_left List.find]. rewrite IH; cycle 1.
  { by apply keys_obj_put. } { intros l1 l2 H1 H2. by apply Hf; right. }
  unfold put_leaf at 1. rewrite get_obj_put by done. rewrite app_nil_l. case_bool_decide as E.
  - destruct (List.find _ ls) as [l2|] eqn:F; [|by rewrite decide_True by done]. apply List.find_some in F as [Hin E2%bool_decide_eq_true]. f_equal.
    apply Hf; [right; by apply list_elem_of_In | by left | congruence].
  - destruct (List.find _ ls); [done|]. by rewrite decide_False by done.
Qed.

(** A flattened field is the leaf at the path its name spells. *)
Lemma get_flat ps k : tidy (JObj ps) = true -> map_get k (flat (JObj ps)) = leaf_at (split_on dot k) (JObj ps).
Proof.
  intros Ht. unfold flat. change None with (parent_of []). rewrite flatten_leaves by done.
  assert (Hp : forall p w, (p, w) ∈ leaves (JObj ps) -> p <> [] /\ leaf_at p (JObj ps) = Some w /\ split_on dot (path_key p) = p).
  { intros p w H%elem_leaves; [|done]. assert (p <> []) by (intros ->; done). split_and!; [done..|]. apply split_path; [done|]. by eapply leaf_names. }
  rewrite get_put_leaves; [|constructor|]; cycle 1.
  { intros [p1 w1] [p2 w2] H1%Hp H2%Hp. cbn [fst snd]. intros E. destruct H1 as (_ & L1 & S1), H2 as (_ & L2 & S2). rewrite E in S1. rewrite S1 in S2. congruence. }
  destruct (List.find _ _) as [[p w]|] eqn:F.
  - apply List.find_some in F as [Hin E%bool_decide_eq_true]. apply list_elem_of_In, Hp in Hin as (_ & L & S). cbn [fst snd] in *. by rewrite <- E, S, L.
  - destruct (leaf_at (split_on dot k) (JObj ps)) as [w|] eqn:L; [|done]. apply elem_leaves in L; [|done]. apply list_elem_of_In in L.
    pose proof (List.find_none _ _ F _ L) as H. apply bool_decide_eq_false in H. contradict H. cbn. apply path_split.
Qed.

(** ** Setting a value deep in an object *)
Lemma keys_set_segments q v t : NoDup (map_keys t) -> NoDup (map_keys (set_segments q v t)).
Proof. destruct q as [|a [|b q]]; cbn [set_segments]; [done | apply keys_obj_put | apply keys_obj_put]. Qed.

Lemma tidy_put k v t : is_name k = true -> tidy v = true -> tidy (JObj t) = true -> tidy (JObj (obj_put k v t)) = true.
Proof.
  intros Hk Hv [Hn Ht]%tidy_obj. apply tidy_obj. split; [by apply keys_obj_put|]. unfold obj_put. rewrite obj_order_Permutation. by apply Forall_map_set.
Qed.

Lemma tidy_set q v t : forallb is_name q = true -> tidy v = true -> tidy (JObj t) = true -> tidy (JObj (set_segments q v t)) = true.
Proof.
  revert t. induction q as [|a [|b q] IH]; intros t Hq Hv Ht; [done| |].
  - cbn in Hq. apply tidy_put; [by apply andb_true_iff in Hq as [? _] | done | done].
  - cbn [forallb] in Hq. apply andb_true_iff in Hq as [Ha Hq]. cbn [set_segments]. apply tidy_put; [done | | done]. apply IH; [done | done|].
    destruct (map_get a t) as [[]|] eqn:E; try done. apply map_get_Some_elem in E. apply tidy_obj in Ht as [_ Ht]. rewrite Forall_forall in Ht. by apply (Ht _ E).
Qed.

Lemma leaf_empty p : leaf_at p (JObj []) = None.
Proof. by destruct p. Qed.

Lemma leaf_put k p a v t : NoDup (map_keys t) -> leaf_at (k :: p) (JObj (obj_put a v t)) = if decide (k = a) then leaf_at p v else leaf_at (k :: p) (JObj t).
Proof. intros Hn. cbn [leaf_at]. rewrite get_obj_put by done. by case_decide. Qed.

Lemma tidy_next a t : tidy (JObj t) = true -> tidy (JObj (match map_get a t with Some (JObj next) => next | _ => [] end)) = true.
Proof.
  intros [_ Ht]%tidy_obj. destruct (map_get a t) as [[]|] eqn:E; try done. apply map_get_Some_elem in E. rewrite Forall_forall in Ht. by apply (Ht _ E).
Qed.

(** Leaves on the way to the new one and below it disappear, others stay. *)
Lemma leaf_set q v t p : q <> [] -> isPlainObject v = false -> tidy (JObj t) = true ->
  leaf_at p (JObj (set_segments q v t)) =
    if decide (p = q) then Some v else if decide (p `prefix_of` q \/ q `prefix_of` p) then None else leaf_at p (JObj t).
Proof.
  intros Hq Hv. revert t p. induction q as [|a q IH]; intros t p Ht; [done|]. pose proof Ht as [Hn _]%tidy_obj.
  destruct p as [|k p]. { rewrite decide_False by done. rewrite decide_True; [by destruct q | left; apply prefix_nil]. }
  destruct q as [|b q].
  - cbn [set_segments]. rewrite leaf_put by done. destruct (decide (k = a)) as [->|Hne].
    + destruct p as [|k' p]; [rewrite decide_True by done; cbn [leaf_at]; by rewrite Hv|]. rewrite decide_False by done.
      rewrite decide_True by (right; apply prefix_cons, prefix_nil). by destruct v.
    + rewrite decide_False by (by intros [= ->]). rewrite decide_False; [done|]. intros [H|H]; by apply prefix_cons_inv_1 in H.
  - change (set_segments (a :: b :: q) v t) with (obj_put a (JObj (set_segments (b :: q) v (match map_get a t with Some (JObj next) => next | _ => [] end))) t).
    rewrite leaf_put by done. destruct (decide (k = a)) as [->|Hne].
    + rewrite IH by (done || by apply tidy_next). destruct (decide (p = b :: q)) as [->|Hp]; [by rewrite decide_True by done|]. rewrite (decide_False (P := a :: p = _)) by (by intros [= ->]).
      destruct (decide (p `prefix_of` b :: q \/ b :: q `prefix_of` p)) as [Hpre|Hpre].
      * rewrite decide_True; [done|]. destruct Hpre; [left | right]; by apply prefix_cons.
      * rewrite decide_False by (intros [H|H]; apply prefix_cons_inv_2 in H; tauto). cbn [leaf_at].
        assert (p <> []) by (intros ->; apply Hpre; left; apply prefix_nil). destruct p as [|k' p]; [done|]. by destruct (map_get a t) as [[]|].
    + rewrite decide_False by (by intros [= ->]). rewrite decide_False; [done|]. intros [H|H]; by apply prefix_cons_inv_1 in H.
Qed.

(** ** Options with dotted names *)
Definition path_of (k : jsstr) : list jsstr := split_on dot k.

(** No option is a section of another one, and no option is an object. *)
Definition flat_options (d : members) : Prop :=
  NoDup (map_keys d) /\ Forall (fun e => forallb is_name (path_of e.1) = true /\ isPlainObject e.2 = false /\ tidy e.2 = true) d /\
  forall k1 k2, k1 ∈ map_keys d -> k2 ∈ map_keys d -> path_of k1 `prefix_of` path_of k2 -> k1 = k2.

Definition expand_step (result : members) (e : jsstr * json) : members := set_segments (path_of e.1) e.2 result.

Lemma includes_dot key : includes [dot] key = false -> no_char dot key = true.
Proof.
  induction key as [|c key IH]; [done|]. cbn [includes]. intros [Hs Hk]%orb_false_iff. unfold no_char in *. cbn [forallb]. rewrite IH, andb_true_r by done.
  apply negb_true_iff, Z.eqb_neq. intros ->. done.
Qed.

Lemma expand_entry key value result : isPlainObject value = false ->
  (if includes [dot] key then setDeepValue result key value else if isPlainObject value then obj_put key (expandDotPaths value) result else obj_put key value result) =
  expand_step result (key, value).
Proof.
  intros Hv. rewrite Hv. unfold expand_step, setDeepValue, path_of. cbn [fst snd]. destruct (includes [dot] key) eqn:E; [done|].
  by rewrite split_on_no_char by (by apply includes_dot).
Qed.

Lemma expand_flat d : Forall (fun e => isPlainObject e.2 = false) d -> expandDotPaths (JObj d) = JObj (fold_left expand_step d []).
Proof.
  intros Hd. cbn [expandDotPaths]. f_equal. generalize (@nil (jsstr * json)) as r. induction d as [|[k v] d IH]; intros r; [done|].
  apply Forall_cons in Hd as [Hv Hd]. rewrite expand_entry by done. cbn [fold_left]. by apply IH.
Qed.

Lemma path_of_inj k1 k2 : path_of k1 = path_of k2 -> k1 = k2.
Proof. intros E. rewrite <- (path_split k1), <- (path_split k2). unfold path_of in E. by rewrite E. Qed.

Lemma path_of_nonempty k : path_of k <> [].
Proof. unfold path_of. destruct k; cbn; repeat case_match; done. Qed.

(** After some options have been expanded, their values are the leaves. *)
Lemma expanded_options d done t : flat_options (done ++ d) -> tidy (JObj t) = true -> (forall k, leaf_at (path_of k) (JObj t) = map_get k done) ->
  tidy (JObj (fold_left expand_step d t)) = true /\ forall k, leaf_at (path_of k) (JObj (fold_left expand_step d t)) = map_get k (done ++ d).
Proof.
  revert done t. induction d as [|[key v] d IH]; intros done t Hf Ht Hl; [by rewrite app_nil_r|]. cbn [fold_left].
  assert (Hassoc : done ++ (key, v) :: d = (done ++ [(key, v)]) ++ d) by (by rewrite <- app_assoc). rewrite Hassoc in Hf |- *.
  destruct Hf as (Hn & Hv & Hp). pose proof Hv as Hv'. rewrite !Forall_app, Forall_singleton in Hv'. destruct Hv' as [[_ (Hk & Hleaf & Htv)] _]. cbn [fst snd] in *.
  apply IH; [done | by apply tidy_set |]. intros k. unfold expand_step. cbn [fst snd]. rewrite leaf_set by (done || apply path_of_nonempty).
  assert (Hfree : forall k', k' ∈ map_keys done -> path_of k' `prefix_of` path_of key \/ path_of key `prefix_of` path_of k' -> False).
  { intros k' Hin Hpre. assert (k' = key) as ->.
    { destruct Hpre as [H|H]; [|symmetry]; (apply Hp; [| |done]); unfold map_keys in *; rewrite !map_app; set_solver. }
    unfold map_keys in Hn, Hin. rewrite !map_app in Hn. apply NoDup_app in Hn as (Hn & _ & _). apply NoDup_app in Hn as (_ & Hd & _). apply (Hd key Hin). by left. }
  rewrite map_get_app. cbn [map_get]. destruct (decide (path_of k = path_of key)) as [E|E].
  - apply path_of_inj in E as ->. rewrite bool_decide_eq_true_2 by done. destruct (map_get key done) eqn:G; [|done].
    exfalso. apply (Hfree key); [apply elem_of_map_keys; eauto | by left].
  - rewrite bool_decide_eq_false_2 by (intros ->; done). case_decide as Hpre; [|rewrite Hl; by destruct (map_get k done)].
    destruct (map_get k done) eqn:G; [|done]. exfalso. apply (Hfree k); [apply elem_of_map_keys; eauto | done].
Qed.

Lemma flat_expanded d : flat_options d -> exists ps, expandDotPaths (JObj d) = JObj ps /\ tidy (JObj ps) = true /\ forall k, map_get k (flat (JObj ps)) = map_get k d.
Proof.
  intros Hf. pose proof Hf as (_ & Hv & _). exists (fold_left expand_step d []). rewrite expand_flat by (eapply Forall_impl; [exact Hv|]; by intros e (_ & ? & _)).
  destruct (expanded_options d [] [] Hf) as [Ht Hl]; [done | intros k; apply leaf_empty |]. split_and!; [done..|]. intros k. rewrite get_flat by done. apply Hl.
Qed.

(** ** The dirty fields *)
Fixpoint marks (d : json) : list (list jsstr) :=
  match d with
  | JBool true => [[]]
  | JObj ps => (fix entries (ps : list (jsstr * json)) := match ps with [] => [] | (k, w) :: rest => map (cons k) (marks w) ++ entries rest end) ps
  | JArr l => (fix elements (i : nat) (l : list json) := match l with [] => [] | w :: rest => map (cons (string_of_Z (Z.of_nat i))) (marks w) ++ elements (S i) rest end) 0%nat l
  | _ => []
  end.

Definition under (parent : option jsstr) (p : list jsstr) : option jsstr := fold_left (fun q k => Some (nextKey q k)) p parent.
Definition value_at (p : list jsstr) (v : option json) : option json := fold_left source_of p v.

Definition put_mark (parent : option jsstr) (values : option json) (r : dirty_values) (p : list jsstr) : dirty_values :=
  match under parent p with Some k => map_set k (value_at p values) r | None => r end.

Lemma put_marks_cons parent values r k ps :
  fold_left (put_mark parent values) (map (cons k) ps) r = fold_left (put_mark (Some (nextKey parent k)) (source_of values k)) ps r.
Proof. revert r. induction ps as [|p ps IH]; intros r; [done|]. cbn [map fold_left]. by rewrite IH. Qed.

(** Collecting writes the values of the marked fields in order. *)
Lemma collect_marks d values parent r : collectDirtyValues d values parent r = fold_left (put_mark parent values) (marks d) r.
Proof.
  revert values parent r. induction d as [|[]| | |l IH|ps IH] using json_nested_ind; intros values parent r; try done.
  - cbn [collectDirtyValues marks]. revert r. generalize 0%nat as i. induction l as [|w l IHl]; intros i r; [done|]. apply Forall_cons in IH as [IHw IH].
    rewrite fold_left_app, put_marks_cons, <- IHw. by apply IHl.
  - cbn [collectDirtyValues marks]. revert r. induction ps as [|[k w] ps IHps]; intros r; [done|]. apply Forall_cons in IH as [IHw IH]. cbn [fst snd] in *.
    rewrite fold_left_app, put_marks_cons, <- IHw. by apply IHps.
Qed.

Lemma under_names pre p : forallb is_name (pre ++ p) = true -> under (parent_of pre) p = parent_of (pre ++ p).
Proof.
  revert pre. induction p as [|k p IH]; intros pre Hn; [by rewrite app_nil_r|]. unfold under. cbn [fold_left]. fold (under (Some (nextKey (parent_of pre) k)) p).
  assert (Hpre : forallb is_name pre = true) by (rewrite forallb_app in Hn; by apply andb_true_iff in Hn as [? _]).
  rewrite nextKey_parent by done. replace (Some (path_key (pre ++ [k]))) with (parent_of (pre ++ [k])) by (by destruct pre).
  rewrite IH; by rewrite <- app_assoc.
Qed.

Lemma value_leaf p v w : leaf_at p v = Some w -> value_at p (Some v) = Some w.
Proof.
  unfold value_at. revert v. induction p as [|k p IH]; intros v H; cbn in *; [destruct (isPlainObject v); [done | by injection H as ->]|].
  destruct v as [| | | | |ps]; try done. cbn. destruct (map_get k ps) as [x|]; [|done]. by apply IH.
Qed.

(** The form library marks fields of the form, whole arrays included. *)
Definition fits (dirty data : json) : Prop := Forall (fun p => is_Some (leaf_at p data)) (marks dirty).

Section Submitted.
Context (ps : members) (Htidy : tidy (JObj ps) = true) (dirty : json) (Hfits : fits dirty (JObj ps)).

Lemma mark_entry p r : p ∈ marks dirty -> exists w, map_get (path_key p) (flat (JObj ps)) = Some w /\ put_mark None (Some (JObj ps)) r p = map_set (path_key p) (Some w) r.
Proof.
  intros Hin. unfold fits in Hfits. rewrite Forall_forall in Hfits. destruct (Hfits p Hin) as [w Hw]. exists w. pose proof (leaf_names _ _ _ Htidy Hw) as Hn.
  assert (Hne : p <> []) by (by intros ->). split.
  - rewrite get_flat by done. by rewrite split_path.
  - unfold put_mark. change None with (parent_of []). rewrite under_names by done. cbn [app]. rewrite (value_leaf p _ w) by done. by destruct p.
Qed.

Lemma collected_entries qs r : (forall p, p ∈ qs -> p ∈ marks dirty) -> NoDup (map_keys r) -> (forall k o, (k, o) ∈ r -> map_get k (flat (JObj ps)) = o /\ is_Some o) ->
  let c := fold_left (put_mark None (Some (JObj ps))) qs r in
  NoDup (map_keys c) /\ (forall k o, (k, o) ∈ c -> map_get k (flat (JObj ps)) = o /\ is_Some o) /\
  (forall k, k ∈ map_keys r \/ (exists p, p ∈ qs /\ k = path_key p) -> k ∈ map_keys c).
Proof.
  revert r. induction qs as [|p qs IH]; intros r Hq Hn Hr; cbn zeta; cbn [fold_left].
  { split_and!; [done..|]. intros k [?|(p & ?%not_elem_of_nil & _)]; done. }
  destruct (mark_entry p r) as (w & Hw & ->); [apply Hq; by left|].
  destruct (IH (map_set (path_key p) (Some w) r)) as (H1 & H2 & H3).
  - intros p' Hp'. apply Hq. by right.
  - by apply NoDup_map_set.
  - intros k o Hko. apply elem_map_get in Hko; [|by apply NoDup_map_set]. rewrite map_get_set in Hko. case_decide; [subst; injection Hko as <-; by eauto|].
    apply map_get_Some_elem in Hko. by apply Hr.
  - split_and!; [done..|]. intros k Hk. apply H3. destruct Hk as [Hk|(p' & [->|Hp']%elem_of_cons & ->)].
    + left. apply elem_of_map_keys in Hk as [o Ho]. apply elem_of_map_keys. rewrite map_get_set. case_decide; eauto.
    + left. apply elem_of_map_keys. rewrite map_get_set_eq. eauto.
    + right. by exists p'.
Qed.

Lemma changed_entries s : let c := changedEntries dirty (JObj ps) s in
  NoDup (map_keys c) /\
  (forall k o, (k, o) ∈ c -> map_get k (flat (JObj ps)) = o /\ is_Some o /\ defaultCompare o (map_get k (baseline s)) = false) /\
  (forall p w, p ∈ marks dirty -> map_get (path_key p) (flat (JObj ps)) = Some w -> defaultCompare (Some w) (map_get (path_key p) (baseline s)) = false -> (path_key p, Some w) ∈ c).
Proof.
  cbn zeta. unfold changedEntries. rewrite collect_marks. destruct (collected_entries (marks dirty) []) as (H1 & H2 & H3).
  { done. } { constructor. } { by intros k o ?%not_elem_of_nil. }
  split_and!.
  - by apply keys_filter.
  - intros k o [Hin Hc%negb_true_iff]%list_elem_of_In%List.filter_In. apply list_elem_of_In in Hin. by destruct (H2 k o Hin).
  - intros p w Hp Hw Hc. apply list_elem_of_In, List.filter_In. cbn [fst snd]. split; [|by rewrite Hc]. apply list_elem_of_In.
    assert (Hk : path_key p ∈ map_keys (fold_left (put_mark None (Some (JObj ps))) (marks dirty) [])) by (apply H3; right; by exists p).
    apply elem_of_map_keys in Hk as [o Ho]. apply map_get_Some_elem in Ho. destruct (H2 _ _ Ho) as [E _]. rewrite Hw in E. by subst o.
Qed.
End Submitted.

(** The server has the value, or one that the form takes for it. *)
Definition stores (v : json) (o : option json) : Prop := o = Some v \/ defaultCompare (Some v) o = true.

(** Fields compare equal to themselves. *)
Definition comparable (data : json) : Prop := forall k w, map_get k (flat data) = Some w -> defaultCompare (Some w) (Some w) = true.

Lemma submit_nothing dirty ps s b : tidy (JObj ps) = true -> fits dirty (JObj ps) -> (forall k w, map_get k (flat (JObj ps)) = Some w -> defaultCompare (Some w) (map_get k (baseline s)) = true) ->
  handleSubmit dirty (JObj ps) b s = (None, s).
Proof.
  intros Ht Hf Hc. unfold handleSubmit. destruct (changed_entries ps Ht dirty Hf s) as (_ & H & _). destruct (changedEntries dirty (JObj ps) s) as [|[k o] c]; [done|].
  destruct (H k o) as (E & [w ->] & F); [by left|]. by rewrite (Hc k w E) in F.
Qed.

Lemma submit_changed dirty data s : let c := changedEntries dirty data s in
  handleSubmit dirty data true s =
    (match c with [] => None | _ => Some c end, match c with [] => s | _ => mkSettings (flat data) data (json_stringify (JObj (flat data))) data end).
Proof. cbn zeta. unfold handleSubmit. by destruct (changedEntries dirty data s). Qed.

(** C8.  Saving only the changed fields leaves the server with every field of the form:
    a form opened on the server's options, with its changed fields marked, sends
    only fields that differ from the baseline, the server then has all the values
    of the form, and submitting the same values again sends nothing. *)
Theorem settings_saved d ps dirty dirty' b : flat_options d -> tidy (JObj ps) = true -> comparable (JObj ps) -> fits dirty (JObj ps) -> fits dirty' (JObj ps) ->
  let s := openSettings (JObj d) in
  (forall k w, map_get k (flat (JObj ps)) = Some w -> defaultCompare (Some w) (map_get k d) = false -> path_of k ∈ marks dirty) ->
  let (changed, s') := handleSubmit dirty (JObj ps) true s in
  (forall k o, (k, o) ∈ default [] changed -> map_get k (flat (JObj ps)) = o /\ defaultCompare o (map_get k d) = false) /\
  (forall k w, map_get k (flat (JObj ps)) = Some w -> stores w (map_get k (apply_updates (default [] changed) d))) /\
  handleSubmit dirty' (JObj ps) b s' = (None, s').
Proof.
  intros Hd Ht Hc Hf Hf' s Hm. assert (Hb : forall k, map_get k (baseline s) = map_get k d).
  { destruct (flat_expanded d Hd) as (qs & E & _ & H). intros k. subst s. unfold openSettings. rewrite E. apply H. }
  destruct (changed_entries ps Ht dirty Hf s) as (Hn & H1 & H2). assert (H1' : forall k o, (k, o) ∈ changedEntries dirty (JObj ps) s -> map_get k (flat (JObj ps)) = o /\ defaultCompare o (map_get k d) = false).
  { intros k o (E & _ & F)%H1. by rewrite Hb in F. }
  assert (Hst : forall k w, map_get k (flat (JObj ps)) = Some w -> stores w (map_get k (apply_updates (changedEntries dirty (JObj ps) s) d))).
  { intros k w Hw. rewrite get_apply_updates by (done || apply Hd). destruct (map_get k (changedEntries dirty (JObj ps) s)) as [o|] eqn:E.
    - apply map_get_Some_elem, H1' in E as [E _]. left. congruence.
    - right. destruct (defaultCompare (Some w) (map_get k d)) eqn:F; [done|]. specialize (Hm k w Hw F). apply map_get_None in E. contradict E.
      apply elem_of_map_keys. exists (Some w). apply elem_map_get; [done|]. rewrite <- (path_split k) at 1. apply H2; [done | by rewrite path_split | by rewrite path_split, Hb]. }
  rewrite submit_changed. destruct (changedEntries dirty (JObj ps) s) as [|e c]; (split_and!; [done..|]).
  - apply submit_nothing; [done..|]. intros k w Hw. rewrite Hb. destruct (Hst k w Hw) as [E|E]; cbn in E; [|done]. rewrite E. by apply (Hc k).
  - apply submit_nothing; [done..|]. intros k w Hw. cbn [baseline]. rewrite Hw. by apply (Hc k).
Qed.

(** ** An example *)
Definition example_options : members := [(js "a.x", JNum (num_of_Z 1)); (js "a.y", JStr (js "t")); (js "b", JArr [JBool true])].
Definition example_values (x : Z) : members :=
  [(js "a", JObj [(js "x", JNum (num_of_Z x)); (js "y", JStr (js "t"))]); (js "b", JArr [JBool true])].
Definition example_dirty : json := JObj [(js "a", JObj [(js "x", JBool true); (js "y", JBool true)])].

Lemma example_flat : flat_options example_options.
Proof.
  split_and!.
  - apply (bool_decide_unpack _). vm_compute. exact I.
  - repeat constructor.
  - assert (H : forall k, k ∈ map_keys example_options -> k = js "a.x" \/ k = js "a.y" \/ k = js "b") by (intros k Hk; cbn in Hk; set_solver).
    intros k1 k2 [-> |[-> | ->]]%H [-> |[-> | ->]]%H Hp; try done; exfalso; revert Hp; apply (bool_decide_unpack _); vm_compute; exact I.
Qed.

Lemma settings_saved_witness :
  fst (handleSubmit example_dirty (JObj (example_values 2)) true (openSettings (JObj example_options))) = Some [(js "a.x", Some (JNum (num_of_Z 2)))] /\
  handleSubmit example_dirty (JObj (example_values 2)) true (snd (handleSubmit example_dirty (JObj (example_values 2)) true (openSettings (JObj example_options)))) =
    (None, snd (handleSubmit example_dirty (JObj (example_values 2)) true (openSettings (JObj example_options)))).
Proof.
  split; [vm_compute; reflexivity|].
  pose proof (settings_saved example_options (example_values 2) example_dirty example_dirty true example_flat) as H. cbn zeta in H.
  destruct (handleSubmit example_dirty (JObj (example_values 2)) true (openSettings (JObj example_options))) as [changed s']. cbn [snd].
  apply H.
  - vm_compute. reflexivity.
  - intros k w Hw. apply map_get_Some_elem in Hw. set (l := flat (JObj (example_values 2))) in Hw. vm_compute in l. subst l.
    repeat (apply elem_of_cons in Hw as [[= -> ->]|Hw]; [vm_compute; reflexivity|]). by apply not_elem_of_nil in Hw.
  - repeat constructor; eexists; vm_compute; reflexivity.
  - repeat constructor; eexists; vm_compute; reflexivity.
  - intros k w Hw. apply map_get_Some_elem in Hw. set (l := flat (JObj (example_values 2))) in Hw. vm_compute in l. subst l.
    repeat (apply elem_of_cons in Hw as [[= -> ->]|Hw]; [intros Hc; vm_compute in Hc |- *; try done; set_solver|]). by apply not_elem_of_nil in Hw.
Defined.
End SettingsForm.
