(* ===== verification/NavSettings.v ===== *)
(** * The navigation settings

    The administrator's settings page keeps two texts: which modules the header
    offers, with the access to two public pages, and which sections and modules
    the sidebar shows.  This file models their reading and writing
    ([features/system-settings/maintenance/config.ts]) and the two sections of
    the page ([header-navigation-section.tsx], [sidebar-modules-section.tsx]),
    and the card on the profile page with which a user hides entries of the
    sidebar ([features/profile/components/sidebar-modules-card.tsx]).  A
    configuration is the object the code builds; keys that every object inherits
    are left out of account. *)
From S2P Require Import Prelude JsString JsNumber Json JsonText JsObject.
Local Open Scope Z_scope.

Module NavSettings.

(** ** Values *)
Definition toBoolean (value : option json) (fallback : bool) : bool :=
  match value with
  | Some (JBool b) => b
  | Some (JNum n) => num_eqb n (num_of_Z 1)
  | Some (JStr s) =>
      let normalized := ascii_lower (trim s) in
      if bool_decide (normalized = js "true") || bool_decide (normalized = js "1") then true
      else if bool_decide (normalized = js "false") || bool_decide (normalized = js "0") then false
      else fallback
  | _ => fallback
  end.

(** ** The header *)
Record HeaderNavAccessConfig := mkAccess { enabled : bool; requireAuth : bool }.

Definition access_json (a : HeaderNavAccessConfig) : json :=
  JObj [(js "enabled", JBool (enabled a)); (js "requireAuth", JBool (requireAuth a))].

Definition ACCESS_DEFAULT : HeaderNavAccessConfig := mkAccess true false.

Definition HEADER_NAV_DEFAULT : members :=
  [(js "home", JBool true); (js "console", JBool true); (js "pricing", access_json ACCESS_DEFAULT);
   (js "rankings", access_json ACCESS_DEFAULT); (js "docs", JBool true); (js "about", JBool true)].

Definition parseAccessModule (raw : json) (fallback : HeaderNavAccessConfig) : HeaderNavAccessConfig :=
  match raw with
  | JBool _ | JStr _ | JNum _ => mkAccess (toBoolean (Some raw) (enabled fallback)) (requireAuth fallback)
  | JObj _ | JArr _ =>
      mkAccess (toBoolean (member (js "enabled") raw) (enabled fallback)) (toBoolean (member (js "requireAuth") raw) (requireAuth fallback))
  | JNull => fallback
  end.

Definition truthy_member (k : jsstr) (m : members) : bool := match map_get k m with Some v => json_truthy v | None => false end.

Definition header_entry (result : members) (entry : jsstr * json) : members :=
  let '(key, raw) := entry in
  if bool_decide (key = js "pricing") then obj_put key (access_json (parseAccessModule raw ACCESS_DEFAULT)) result
  else if bool_decide (key = js "rankings") then obj_put key (access_json (parseAccessModule raw ACCESS_DEFAULT)) result
  else match raw with
       | JBool _ => obj_put key raw result
       | JStr _ | JNum _ => obj_put key (JBool (toBoolean (Some raw) (truthy_member key HEADER_NAV_DEFAULT))) result
       | _ => result
       end.

(** [Object.entries(null)] throws, and the defaults are returned. *)
Definition parseHeaderNavModules (value : option jsstr) : members :=
  match value with
  | None | Some [] => HEADER_NAV_DEFAULT
  | Some text =>
      match json_parse text with
      | None | Some JNull => HEADER_NAV_DEFAULT
      | Some parsed => fold_left header_entry (spread parsed) HEADER_NAV_DEFAULT
      end
  end.

Definition serializeHeaderNavModules (config : members) : jsstr := json_stringify (JObj config).

(** The form of the section. *)
Record HeaderNavFormValues := mkHeaderForm {
  home : bool; console : bool; pricingEnabled : bool; pricingRequireAuth : bool;
  rankingsEnabled : bool; rankingsRequireAuth : bool; docs : bool; about : bool }.

Definition bool_or (v : option json) (d : bool) : bool := match v with Some v => json_truthy v | None => d end.

Definition nested (k f : jsstr) (config : members) : option json := v ← map_get k config; member f v.

Definition toFormValues (config : members) : HeaderNavFormValues :=
  mkHeaderForm (bool_or (map_get (js "home") config) true) (bool_or (map_get (js "console") config) true)
    (bool_or (nested (js "pricing") (js "enabled") config) true) (bool_or (nested (js "pricing") (js "requireAuth") config) false)
    (bool_or (nested (js "rankings") (js "enabled") config) true) (bool_or (nested (js "rankings") (js "requireAuth") config) false)
    (bool_or (map_get (js "docs") config) true) (bool_or (map_get (js "about") config) true).

(** [{...(config[key] ?? default), enabled, requireAuth}] *)
Definition access_of (key : jsstr) (e r : bool) (config : members) : json :=
  let base := match map_get key config with None | Some JNull => access_json ACCESS_DEFAULT | Some v => v end in
  JObj (apply_updates [(js "enabled", Some (JBool e)); (js "requireAuth", Some (JBool r))] (obj_of_members (spread base))).

Definition header_payload (config : members) (values : HeaderNavFormValues) : members :=
  apply_updates [(js "home", Some (JBool (home values))); (js "console", Some (JBool (console values)));
                 (js "docs", Some (JBool (docs values))); (js "about", Some (JBool (about values)));
                 (js "pricing", Some (access_of (js "pricing") (pricingEnabled values) (pricingRequireAuth values) config));
                 (js "rankings", Some (access_of (js "rankings") (rankingsEnabled values) (rankingsRequireAuth values) config))] config.

(** The text to store, when it differs from the one shown. *)
Definition header_onSubmit (config : members) (initialSerialized : jsstr) (values : HeaderNavFormValues) : option jsstr :=
  let serialized := serializeHeaderNavModules (header_payload config values) in
  if bool_decide (serialized = initialSerialized) then None else Some serialized.

(** The section as the page builds it from the stored text. *)
Definition header_section (stored : option jsstr) (values : HeaderNavFormValues) : option jsstr :=
  let config := parseHeaderNavModules stored in
  header_onSubmit config (serializeHeaderNavModules config) values.

(** ** The sidebar *)
Definition section_of (modules : list jsstr) : json := JObj ((js "enabled", JBool true) :: map (fun m => (m, JBool true)) modules).

Definition SIDEBAR_MODULES_DEFAULT : members :=
  [(js "chat", section_of [js "playground"; js "chat"]);
   (js "console", section_of [js "detail"; js "token"; js "log"; js "midjourney"; js "task"]);
   (js "personal", section_of [js "topup"; js "personal"]);
   (js "admin", section_of [js "channel"; js "models"; js "redemption"; js "user"; js "setting"; js "subscription"])].

Definition bool_default (v : option json) : bool := match v with Some (JBool b) => b | _ => true end.

Definition module_entry (defaultSection : json) (sectionConfig : members) (entry : jsstr * json) : members :=
  let '(moduleKey, moduleValue) := entry in
  if bool_decide (moduleKey = js "enabled") then sectionConfig
  else obj_put moduleKey (JBool (toBoolean (Some moduleValue) (bool_default (member moduleKey defaultSection)))) sectionConfig.

Definition section_entry (result : members) (entry : jsstr * json) : members :=
  let '(sectionKey, raw) := entry in
  match raw with
  | JObj _ | JArr _ =>
      let defaultSection := default (JObj [(js "enabled", JBool true)]) (map_get sectionKey SIDEBAR_MODULES_DEFAULT) in
      let start := [(js "enabled", JBool (toBoolean (member (js "enabled") raw) (bool_default (member (js "enabled") defaultSection))))] in
      obj_put sectionKey (JObj (fold_left (module_entry defaultSection) (spread raw) start)) result
  | _ => result
  end.

Definition add_missing (section : members) (entry : jsstr * json) : members :=
  if map_has entry.1 section then section else obj_put entry.1 entry.2 section.

Definition add_section (result : members) (entry : jsstr * json) : members :=
  let '(sectionKey, config) := entry in
  match map_get sectionKey result with
  | Some (JObj section) => obj_put sectionKey (JObj (fold_left add_missing (spread config) section)) result
  | _ => obj_put sectionKey config result
  end.

Definition parseSidebarModulesAdmin (value : option jsstr) : members :=
  match value with
  | None => SIDEBAR_MODULES_DEFAULT
  | Some text =>
      if bool_decide (trim text = []) then SIDEBAR_MODULES_DEFAULT
      else match json_parse text with
           | None | Some JNull => SIDEBAR_MODULES_DEFAULT
           | Some parsed => fold_left add_section SIDEBAR_MODULES_DEFAULT (fold_left section_entry (spread parsed) [])
           end
  end.

Definition serializeSidebarModulesAdmin (config : members) : jsstr := json_stringify (JObj config).

Definition sidebar_onSubmit (initialSerialized : jsstr) (values : members) : option jsstr :=
  let serialized := serializeSidebarModulesAdmin values in
  if bool_decide (serialized = initialSerialized) then None else Some serialized.

(** ** The user's card *)
Definition sectionDefs : list (jsstr * list jsstr) :=
  [(js "chat", [js "playground"; js "chat"]);
   (js "console", [js "detail"; js "token"; js "log"; js "midjourney"; js "task"]);
   (js "personal", [js "topup"; js "personal"])].

Definition card_defaults : members := map (fun d => (d.1, section_of d.2)) sectionDefs.

(** The card after [Reset to default]. *)
Definition handleReset : json := JObj card_defaults.

(** [loadConfig] on the [sidebar_modules] of the response; the state is kept when
    reading it throws. *)
Definition loadConfig (success : bool) (sidebar_modules : option json) (config : json) : json :=
  match sidebar_modules with
  | Some raw =>
      if success && json_truthy raw then
        match raw with
        | JStr text => default config (json_parse text)
        | _ => raw
        end
      else JObj card_defaults
  | None => JObj card_defaults
  end.

Definition toggleModule (sectionKey moduleKey : jsstr) (val : bool) (prev : json) : json :=
  let section := default JNull (member sectionKey prev) in
  JObj (obj_put sectionKey (JObj (obj_put moduleKey (JBool val) (obj_of_members (spread section)))) (obj_of_members (spread prev))).

Definition toggleSection (sectionKey : jsstr) (val : bool) (prev : json) : json := toggleModule sectionKey (js "enabled") val prev.

Definition card_serialized (config : json) : jsstr := json_stringify config.

(** What the switches show: [config[section]?.[key] !== false]; [None] when the
    configuration is [null], on which the card throws. *)
Definition card_switch (sectionKey key : jsstr) (config : json) : option bool :=
  match config with
  | JNull => None
  | _ => match member sectionKey config with
         | None | Some JNull => Some true
         | Some v => Some (negb (bool_decide (member key v = Some (JBool false))))
         end
  end.

(** ** The header's configurations *)
Lemma spread_units v : json_shape v = true -> Forall (fun e => forallb code_unit e.1 = true) (spread v).
Proof.
  assert (I : forall A (f : A -> json) l, Forall (fun e => forallb code_unit e.1 = true) (indexed f l)).
  { intros A f l. unfold indexed. apply Forall_forall. intros e He. apply elem_of_lookup_imap in He as (i & x & -> & _). cbn [fst].
    pose proof (string_of_Z_digits (Z.of_nat i) ltac:(lia)) as [Hd _]. apply forallb_forall. intros c Hc. rewrite forallb_forall in Hd. specialize (Hd c Hc).
    unfold is_digit in Hd. unfold code_unit. lia. }
  destruct v; cbn [spread]; try done; intros Hv; try apply I.
  cbn [json_shape] in Hv. apply andb_true_iff in Hv as [_ Hv]. apply Forall_forall. intros e He.
  rewrite forallb_forall in Hv. apply list_elem_of_In in He. specialize (Hv e He). by apply andb_true_iff in Hv as [? _].
Qed.

Definition is_access (key : jsstr) : bool := bool_decide (key = js "pricing") || bool_decide (key = js "rankings").

Definition header_value (key : jsstr) (raw : json) (_ : option json) : option json :=
  if is_access key then Some (access_json (parseAccessModule raw ACCESS_DEFAULT))
  else match raw with
       | JBool _ => Some raw
       | JStr _ | JNum _ => Some (JBool (toBoolean (Some raw) (truthy_member key HEADER_NAV_DEFAULT)))
       | _ => None
       end.

Lemma header_entry_put m e : header_entry m e = put_entry header_value m e.
Proof.
  destruct e as [k raw]. unfold header_entry, put_entry, header_value, is_access. cbn [fst snd].
  case_bool_decide; [done|]. case_bool_decide; [done|]. by destruct raw.
Qed.

(** Two accesses, all else switches. *)
Definition header_typed (p : jsstr * json) : Prop :=
  if is_access p.1 then exists a, p.2 = access_json a else exists b, p.2 = JBool b.

Lemma header_value_typed k raw old w : header_value k raw old = Some w -> header_typed (k, w).
Proof. unfold header_value, header_typed. cbn [fst snd]. destruct (is_access k); [intros [= <-]; eauto|]. destruct raw; intros; simplify_eq; eauto. Qed.

Lemma header_typed_ok k w : header_typed (k, w) -> json_ok w = true.
Proof.
  unfold header_typed. cbn [fst snd]. destruct (is_access k); intros [a ->]; [|done].
  apply json_ok_object; [vm_compute; reflexivity|]. ok_members; reflexivity.
Qed.

Lemma header_default_typed : Forall header_typed HEADER_NAV_DEFAULT.
Proof. repeat constructor; unfold header_typed; vm_compute; eexists; try reflexivity; instantiate (1 := ACCESS_DEFAULT); reflexivity. Qed.

Lemma header_default_ok : map_ok HEADER_NAV_DEFAULT = true.
Proof. vm_compute. reflexivity. Qed.

(** The shapes a stored text is read in. *)
Lemma header_config stored : forallb code_unit (default [] stored) = true ->
  map_ok (parseHeaderNavModules stored) = true /\ Forall header_typed (parseHeaderNavModules stored).
Proof.
  intros Hu. assert (D := conj header_default_ok header_default_typed). unfold parseHeaderNavModules.
  destruct stored as [[|c text]|]; [done | | done]. destruct (json_parse (c :: text)) as [v|] eqn:E; [|done].
  apply json_parse_shape in E; [|done]. apply spread_units in E.
  assert (K : map_ok (fold_left header_entry (spread v) HEADER_NAV_DEFAULT) = true /\ Forall header_typed (fold_left header_entry (spread v) HEADER_NAV_DEFAULT)).
  { rewrite (fold_put_entries header_value) by apply header_entry_put. split.
    - apply map_ok_put_entries; [apply D|]. eapply Forall_impl; [exact E|]. intros e He. split; [done|]. intros old w Hw. by eapply header_typed_ok, header_value_typed.
    - apply Forall_put_entries; [apply D|]. apply Forall_forall. intros e _ old w Hw. by eapply header_value_typed. }
  by destruct v.
Qed.

Lemma get_typed config k v : Forall header_typed config -> map_get k config = Some v -> header_typed (k, v).
Proof. intros F E. apply map_get_Some_elem in E. rewrite Forall_forall in F. by apply F. Qed.

Lemma access_of_typed config k e r :
  Forall header_typed config -> is_access k = true -> access_of k e r config = access_json (mkAccess e r).
Proof.
  intros F Hk. assert (B : exists a, match map_get k config with None | Some JNull => access_json ACCESS_DEFAULT | Some v => v end = access_json a).
  { destruct (map_get k config) as [v|] eqn:E; [|eauto]. apply get_typed in E; [|done]. unfold header_typed in E. cbn [fst snd] in E.
    rewrite Hk in E. destruct E as [a ->]. by exists a. }
  unfold access_of. destruct B as [[[|] [|]] ->]; destruct e, r; vm_compute; reflexivity.
Qed.

(** The properties a saved form sets. *)
Definition header_updates (values : HeaderNavFormValues) : list (jsstr * option json) :=
  [(js "home", Some (JBool (home values))); (js "console", Some (JBool (console values)));
   (js "docs", Some (JBool (docs values))); (js "about", Some (JBool (about values)));
   (js "pricing", Some (access_json (mkAccess (pricingEnabled values) (pricingRequireAuth values))));
   (js "rankings", Some (access_json (mkAccess (rankingsEnabled values) (rankingsRequireAuth values))))].

Lemma header_payload_eq config values : Forall header_typed config -> header_payload config values = apply_updates (header_updates values) config.
Proof. intros F. unfold header_payload. by rewrite !access_of_typed. Qed.

Lemma header_updates_typed values : Forall (fun u => exists w, u.2 = Some w /\ header_typed (u.1, w)) (header_updates values).
Proof. repeat constructor; eexists; (split; [reflexivity|]); eexists; reflexivity. Qed.

Lemma Forall_updates (P : jsstr * json -> Prop) us m :
  Forall P m -> Forall (fun u => exists w, u.2 = Some w /\ P (u.1, w)) us -> Forall P (apply_updates us m).
Proof.
  intros Hm Hu. revert m Hm. induction Hu as [|[k o] us (w & E & Hw) Hus IH]; intros m Hm; [done|]. cbn in E, Hw. subst o.
  apply (IH (apply_update m (k, Some w))). unfold apply_update, obj_put. cbn. rewrite obj_order_Permutation. by apply Forall_map_set.
Qed.

Lemma header_updates_ok values : forallb update_ok (header_updates values) = true.
Proof. destruct values as [[] [] [] [] [] [] [] []]; vm_compute; reflexivity. Qed.

Lemma header_payload_config config values :
  map_ok config = true -> Forall header_typed config -> map_ok (header_payload config values) = true /\ Forall header_typed (header_payload config values).
Proof.
  intros Hm F. rewrite header_payload_eq by done. split.
  - apply map_ok_updates; [done | apply header_updates_ok].
  - apply Forall_updates; [done | apply header_updates_typed].
Qed.

Lemma header_updates_keys values : NoDup (map_keys (header_updates values)).
Proof. change (map_keys (header_updates values)) with [js "home"; js "console"; js "docs"; js "about"; js "pricing"; js "rankings"]. by apply (bool_decide_unpack _). Qed.

Lemma get_header_payload config values k : map_ok config = true -> Forall header_typed config ->
  map_get k (header_payload config values) = match map_get k (header_updates values) with Some o => o | None => map_get k config end.
Proof. intros Hm F. rewrite header_payload_eq by done. apply get_apply_updates; [by apply map_ok_keys | apply header_updates_keys]. Qed.

(** A configuration is read back from its text. *)
Lemma header_value_id k v old : header_typed (k, v) -> header_value k v old = Some v.
Proof.
  unfold header_typed, header_value. cbn [fst snd]. destruct (is_access k); [|by intros [b ->]]. intros [[[|] [|]] ->]; vm_compute; reflexivity.
Qed.

Lemma get_header_parsed config k : map_ok config = true -> Forall header_typed config ->
  map_get k (fold_left header_entry config HEADER_NAV_DEFAULT) = match map_get k config with Some v => Some v | None => map_get k HEADER_NAV_DEFAULT end.
Proof.
  intros Hm F. rewrite (fold_put_entries header_value) by apply header_entry_put.
  rewrite get_put_entries; [|by apply map_ok_keys | apply map_ok_keys, header_default_ok]. destruct (map_get k config) as [v|] eqn:E; [|done].
  rewrite header_value_id; [done | by eapply get_typed].
Qed.

Lemma header_text_read config : map_ok config = true ->
  parseHeaderNavModules (Some (serializeHeaderNavModules config)) = fold_left header_entry config HEADER_NAV_DEFAULT.
Proof.
  intros Hm. unfold parseHeaderNavModules, serializeHeaderNavModules. destruct (object_text [] [] config) as (r & E & _).
  unfold json_stringify. rewrite E, <- E. fold (json_stringify (JObj config)). by rewrite json_parse_stringify.
Qed.

(** ** The sidebar's switches *)

(** A switch that is not there is on. *)
Definition switch (section key : jsstr) (c : members) : bool :=
  match map_get section c with Some s => bool_default (member key s) | None => true end.

Definition switches (m : members) : Prop := Forall (fun q => exists b, q.2 = JBool b) m.

(** Sections of switches. *)
Definition typed_sidebar (c : members) : Prop := Forall (fun p => exists m, p.2 = JObj m /\ switches m) c.

Lemma get_switches m k v : switches m -> map_get k m = Some v -> exists b, v = JBool b.
Proof. intros F E. apply map_get_Some_elem in E. unfold switches in F. rewrite Forall_forall in F. by apply (F _ E). Qed.

Lemma get_section c section v : typed_sidebar c -> map_ok c = true -> map_get section c = Some v ->
  exists m, v = JObj m /\ switches m /\ map_ok m = true.
Proof.
  intros F Hc E. pose proof (map_ok_get _ _ _ Hc E) as Hv. apply map_get_Some_elem in E. unfold typed_sidebar in F. rewrite Forall_forall in F.
  destruct (F _ E) as (m & Em & Hm). cbn [snd] in Em. subst v. eauto.
Qed.

Definition module_value (defaultSection : json) (k : jsstr) (v : json) (_ : option json) : option json :=
  if bool_decide (k = js "enabled") then None else Some (JBool (toBoolean (Some v) (bool_default (member k defaultSection)))).

Lemma module_entry_put d m e : module_entry d m e = put_entry (module_value d) m e.
Proof. destruct e. unfold module_entry, put_entry, module_value. cbn [fst snd]. by case_bool_decide. Qed.

Lemma toBoolean_switch v : (forall w, v = Some w -> exists b, w = JBool b) -> toBoolean v true = bool_default v.
Proof. destruct v as [w|]; [|done]. intros H. by destruct (H w eq_refl) as [b ->]. Qed.

Lemma read_section d m k : bool_default (member (js "enabled") d) = true -> switches m -> map_ok m = true ->
  let start := [(js "enabled", JBool (toBoolean (map_get (js "enabled") m) (bool_default (member (js "enabled") d))))] in
  bool_default (map_get k (fold_left (module_entry d) m start)) = bool_default (map_get k m) /\ NoDup (map_keys (fold_left (module_entry d) m start)).
Proof.
  intros Hd Hm Hok start. rewrite (fold_put_entries (module_value d)) by apply module_entry_put.
  assert (Hs : NoDup (map_keys start)) by apply NoDup_singleton. split; [|by apply keys_put_entries].
  rewrite get_put_entries by (done || by apply map_ok_keys). unfold module_value, start. rewrite Hd. cbn [map_get].
  rewrite toBoolean_switch by (intros w; by apply get_switches). case_bool_decide as E.
  - subst k. by destruct (map_get (js "enabled") m) as [w|].
  - destruct (map_get k m) as [w|] eqn:Ek; [|done]. destruct (get_switches _ _ _ Hm Ek) as [b ->]. done.
Qed.

Lemma add_missing_put m e : add_missing m e = put_entry (fun _ v old => match old with Some _ => None | None => Some v end) m e.
Proof. unfold add_missing, put_entry, map_has. by destruct (map_get e.1 m). Qed.

Lemma default_section section d : map_get section SIDEBAR_MODULES_DEFAULT = Some d ->
  exists m, d = JObj m /\ NoDup (map_keys m) /\ forall k, bool_default (map_get k m) = true.
Proof.
  intros E. apply map_get_Some_elem in E. unfold SIDEBAR_MODULES_DEFAULT, section_of in E.
  assert (K : forall ms, NoDup (js "enabled" :: ms) -> exists m, JObj ((js "enabled", JBool true) :: map (fun m => (m, JBool true)) ms) = JObj m /\ NoDup (map_keys m) /\ forall k, bool_default (map_get k m) = true).
  { intros ms Hn. eexists. split; [reflexivity|]. split.
    - unfold map_keys. cbn. by rewrite <- list_fmap_compose, list_fmap_id.
    - intros k. destruct (map_get k _) as [w|] eqn:Ek; [|done]. apply map_get_Some_elem in Ek.
      apply elem_of_cons in Ek as [[= -> ->]|Ek]; [done|]. by apply list_elem_of_fmap in Ek as (y & [= -> ->] & _). }
  repeat (apply elem_of_cons in E as [Eq|E]; [apply (f_equal snd) in Eq; cbn [snd] in Eq; subst d; apply K; by apply (bool_decide_unpack _)|]). by apply elem_of_nil in E as [].
Qed.

Definition section_value (sectionKey : jsstr) (raw : json) (_ : option json) : option json :=
  match raw with
  | JObj _ | JArr _ =>
      let defaultSection := default (JObj [(js "enabled", JBool true)]) (map_get sectionKey SIDEBAR_MODULES_DEFAULT) in
      let start := [(js "enabled", JBool (toBoolean (member (js "enabled") raw) (bool_default (member (js "enabled") defaultSection))))] in
      Some (JObj (fold_left (module_entry defaultSection) (spread raw) start))
  | _ => None
  end.

Lemma section_entry_put m e : section_entry m e = put_entry section_value m e.
Proof. destruct e as [k []]; done. Qed.

Definition missing_value (_ : jsstr) (config : json) (old : option json) : option json :=
  match old with Some (JObj section) => Some (JObj (fold_left add_missing (spread config) section)) | _ => Some config end.

Lemma add_section_put m e : add_section m e = put_entry missing_value m e.
Proof. destruct e as [k v]. unfold add_section, put_entry, missing_value. cbn [fst snd]. by destruct (map_get k m) as [[]|]. Qed.

Lemma default_enabled section : bool_default (member (js "enabled") (default (JObj [(js "enabled", JBool true)]) (map_get section SIDEBAR_MODULES_DEFAULT))) = true.
Proof. destruct (map_get section SIDEBAR_MODULES_DEFAULT) as [d|] eqn:E; [|done]. apply default_section in E as (m & -> & _ & H). apply H. Qed.

(** Adding the modules that are missing changes no switch. *)
Lemma add_missing_switch d m k : NoDup (map_keys m) -> NoDup (map_keys d) -> (forall k, bool_default (map_get k d) = true) ->
  bool_default (map_get k (fold_left add_missing d m)) = bool_default (map_get k m).
Proof.
  intros Hm Hd Ht. rewrite (fold_put_entries _ _ _ _ add_missing_put), get_put_entries by done.
  destruct (map_get k d) as [v|] eqn:Ed; [|done]. destruct (map_get k m); [done|]. cbn. specialize (Ht k). by rewrite Ed in Ht.
Qed.

(** The page reads the switches that were written. *)
Lemma sidebar_text_read c section key : typed_sidebar c -> map_ok c = true ->
  switch section key (parseSidebarModulesAdmin (Some (serializeSidebarModulesAdmin c))) = switch section key c.
Proof.
  intros F Hc. unfold parseSidebarModulesAdmin, serializeSidebarModulesAdmin. destruct (object_text [] [] c) as (r & E & Et).
  unfold json_stringify. rewrite Et, E. rewrite bool_decide_eq_false_2 by done. rewrite <- E. fold (json_stringify (JObj c)).
  rewrite json_parse_stringify by done. cbn [spread]. rewrite (fold_put_entries _ _ _ _ add_section_put), (fold_put_entries _ _ _ _ section_entry_put).
  assert (H0 : NoDup (map_keys (@nil (jsstr * json)))) by constructor. unfold switch.
  rewrite get_put_entries; [|by apply (bool_decide_unpack _) | by apply keys_put_entries].
  rewrite get_put_entries by (done || by apply map_ok_keys). cbn [map_get].
  destruct (map_get section c) as [v|] eqn:Ec.
  - destruct (get_section _ _ _ F Hc Ec) as (m & -> & Hm & Hok).
    destruct (read_section _ m key (default_enabled section) Hm Hok) as [R1 R2]. cbn [section_value spread member from_option].
    destruct (map_get section SIDEBAR_MODULES_DEFAULT) as [d|] eqn:Ed; cbn [missing_value from_option member]; [|exact R1].
    destruct (default_section _ _ Ed) as (dm & -> & Hn & Ht). cbn [spread]. rewrite add_missing_switch by done. exact R1.
  - cbn [from_option]. destruct (map_get section SIDEBAR_MODULES_DEFAULT) as [d|] eqn:Ed; [|done].
    destruct (default_section _ _ Ed) as (dm & -> & Hn & Ht). cbn [missing_value from_option member]. apply Ht.
Qed.

(** What the two switches of a module say on the card. *)
Definition card_allows (u : json) (section key : jsstr) : bool :=
  default true (card_switch section (js "enabled") u) && default true (card_switch section key u).

End NavSettings.
