(* ===== verification/Navigation.v ===== *)
(** * Navigation, route guards and permissions

    What a user is offered and may open: the modules of the header and the access
    to the public pages ([lib/nav-modules.ts], [hooks/use-top-nav-links.ts], the
    guards of [routes/pricing] and [routes/_authenticated/playground]), the
    entries of the sidebar under the administrator's and the user's settings
    ([hooks/use-sidebar-config.ts], [hooks/use-sidebar-view.ts]) and the
    permissions of administrators ([lib/admin-permissions.ts], [lib/roles.ts],
    [features/users/lib/user-form.ts]).  The server's status is a JSON value. *)
From S2P Require Import Prelude JsString JsNumber Json JsonText JsObject NavSettings.
Local Open Scope Z_scope.

Module Navigation.

(** ** Modules of the header *)
Record ModuleAccess := mkModuleAccess { enabled : bool; requireAuth : bool }.

Inductive HeaderNavModule := rankings | pricing.

Definition access_json (a : ModuleAccess) : json :=
  JObj [(js "enabled", JBool (enabled a)); (js "requireAuth", JBool (requireAuth a))].

Definition DEFAULT_ACCESS : ModuleAccess := mkModuleAccess true false.

Definition DEFAULT_HEADER_NAV_MODULES : members :=
  [(js "home", JBool true); (js "console", JBool true); (js "pricing", access_json DEFAULT_ACCESS);
   (js "rankings", access_json DEFAULT_ACCESS); (js "docs", JBool true); (js "about", JBool true)].

Definition parseHeaderNavBoolean (raw : option json) (fallback : bool) : bool :=
  match raw with
  | Some (JBool b) => b
  | Some (JNum n) => if num_eqb n (num_of_Z 1) then true else if num_eqb n num_zero then false else fallback
  | Some (JStr s) =>
      let normalized := ascii_lower (trim s) in
      if bool_decide (normalized = js "true") || bool_decide (normalized = js "1") then true
      else if bool_decide (normalized = js "false") || bool_decide (normalized = js "0") then false
      else fallback
  | _ => fallback
  end.

Definition parseAccess (raw : json) (fallback : ModuleAccess) : ModuleAccess :=
  match raw with
  | JBool _ | JNum _ | JStr _ => mkModuleAccess (parseHeaderNavBoolean (Some raw) (enabled fallback)) (requireAuth fallback)
  | JObj _ | JArr _ =>
      mkModuleAccess (parseHeaderNavBoolean (member (js "enabled") raw) (enabled fallback))
        (parseHeaderNavBoolean (member (js "requireAuth") raw) (requireAuth fallback))
  | JNull => fallback
  end.

Definition parseHeaderNavRecord (raw : option json) : option json :=
  match raw with
  | None => None
  | Some v =>
      if negb (json_truthy v) || bool_decide (trim (json_to_string v) = []) then None
      else match v with
           | JObj _ | JArr _ => Some v
           | _ => json_parse (json_to_string v)
           end
  end.

(** A result that is built holds the two accesses as the objects written there. *)
Definition access_at (key : jsstr) (result : members) : ModuleAccess :=
  match map_get key result with
  | Some v => mkModuleAccess (bool_decide (member (js "enabled") v = Some (JBool true))) (bool_decide (member (js "requireAuth") v = Some (JBool true)))
  | None => DEFAULT_ACCESS
  end.

Definition header_module (result : members) (entry : jsstr * json) : members :=
  let '(key, value) := entry in
  if bool_decide (key = js "pricing") then obj_put key (access_json (parseAccess value (access_at key result))) result
  else if bool_decide (key = js "rankings") then obj_put key (access_json (parseAccess value (access_at key result))) result
  else match map_get key result, value with
       | Some (JBool fallback), _ => obj_put key (JBool (parseHeaderNavBoolean (Some value) fallback)) result
       | _, JBool _ | _, JNum _ | _, JStr _ => obj_put key (JBool (parseHeaderNavBoolean (Some value) true)) result
       | _, _ => result
       end.

Definition parseHeaderNavModules (raw : option json) : members :=
  match parseHeaderNavRecord raw with
  | Some parsed => if json_truthy parsed then fold_left header_module (spread parsed) DEFAULT_HEADER_NAV_MODULES else DEFAULT_HEADER_NAV_MODULES
  | None => DEFAULT_HEADER_NAV_MODULES
  end.

(** The status is an object, or [null] when there is none. *)
Definition parseHeaderNavModulesFromStatus (status : json) : members := parseHeaderNavModules (member (js "HeaderNavModules") status).

Definition module_key (module : HeaderNavModule) : jsstr := match module with rankings => js "rankings" | pricing => js "pricing" end.

Definition getModuleAccessFromStatus (status : json) (module : HeaderNavModule) : ModuleAccess :=
  access_at (module_key module) (parseHeaderNavModulesFromStatus status).

(** [window.localStorage.getItem('status')], parsed. *)
Definition getCachedStatus (stored : option jsstr) : json :=
  match stored with
  | None | Some [] => JNull
  | Some raw => default JNull (json_parse raw)
  end.

(** The entry after [cacheStatus]. *)
Definition cacheStatus (status : json) (stored : option jsstr) : option jsstr :=
  if json_truthy status then Some (json_stringify status) else stored.

Definition getModuleAccess (stored : option jsstr) (module : HeaderNavModule) : ModuleAccess :=
  getModuleAccessFromStatus (getCachedStatus stored) module.

(** [response] is [None] when the request fails; the access, and the cache. *)
Definition getFreshModuleAccess (response : option json) (stored : option jsstr) (module : HeaderNavModule) : ModuleAccess * option jsstr :=
  match response with
  | Some status => (getModuleAccessFromStatus status module, cacheStatus status stored)
  | None => (mkModuleAccess false true, stored)
  end.

(** [beforeLoad] of a page with an access. *)
Inductive Guard := Enter | RedirectTo (to : jsstr).

Definition public_beforeLoad (module : HeaderNavModule) (response : option json) (stored : option jsstr) (signedIn : bool) : Guard :=
  let access := (getFreshModuleAccess response stored module).1 in
  if negb (enabled access) then RedirectTo (js "/")
  else if requireAuth access && negb signedIn then RedirectTo (js "/sign-in")
  else Enter.

(** ** The links of the header *)
Record TopNavLink := mkLink { title : jsstr; href : jsstr; requiresAuth : option bool; external : bool }.

Section TopNav.
Context (t : jsstr -> jsstr).

Definition not_false (v : option json) : bool := negb (bool_decide (v = Some (JBool false))).

Definition access_link (name : jsstr) (url : jsstr) (a : ModuleAccess) (isAuthed : bool) : list TopNavLink :=
  if enabled a then [mkLink (t name) url (Some (requireAuth a && negb isAuthed)) false] else [].

Definition useTopNavLinks (status : json) (isAuthed : bool) : list TopNavLink :=
  let modules := parseHeaderNavModulesFromStatus status in
  let plain key name url := if not_false (map_get key modules) then [mkLink (t name) url None false] else [] in
  plain (js "home") (js "Home") (js "/") ++
  plain (js "console") (js "Console") (js "/dashboard") ++
  access_link (js "Model Square") (js "/pricing") (access_at (js "pricing") modules) isAuthed ++
  access_link (js "Rankings") (js "/rankings") (access_at (js "rankings") modules) isAuthed ++
  (if not_false (map_get (js "docs") modules) then
     match member (js "docs_link") status with
     | Some (JStr (c :: r)) => [mkLink (t (js "Docs")) (c :: r) None true]
     | _ => [mkLink (t (js "Docs")) (js "/docs") None false]
     end
   else []) ++
  plain (js "about") (js "About") (js "/about").
End TopNav.

(** ** The playground's guard *)
Definition isSidebarModuleEnabled (stored : option jsstr) (section module : jsstr) : bool :=
  let status := getCachedStatus stored in
  if negb (json_truthy status) then true
  else match member (js "SidebarModulesAdmin") status with
       | None => true
       | Some raw =>
           if negb (json_truthy raw) || bool_decide (trim (json_to_string raw) = []) then true
           else match json_parse (json_to_string raw) with
                | None | Some JNull => true
                | Some parsed =>
                    match member section parsed with
                    | None => true
                    | Some sectionConfig =>
                        if negb (json_truthy sectionConfig) then true
                        else if bool_decide (member (js "enabled") sectionConfig = Some (JBool false)) then false
                        else if bool_decide (member module sectionConfig = Some (JBool false)) then false
                        else true
                    end
                end
       end.

Definition playground_beforeLoad (stored : option jsstr) : Guard :=
  if negb (isSidebarModuleEnabled stored (js "chat") (js "playground")) then RedirectTo (js "/dashboard") else Enter.

(** ** The sidebar *)
Definition DEFAULT_SIDEBAR_MODULES : members :=
  [(js "chat", NavSettings.section_of [js "playground"; js "chat"]);
   (js "console", NavSettings.section_of [js "detail"; js "token"; js "log"; js "midjourney"; js "task"]);
   (js "personal", NavSettings.section_of [js "topup"; js "personal"]);
   (js "admin", NavSettings.section_of [js "channel"; js "models"; js "redemption"; js "user"; js "setting"; js "subscription"])].

Definition fill_section (defaultSection merged : members) : members :=
  fold_left (fun m entry => match map_get entry.1 m with None => obj_put entry.1 entry.2 m | Some _ => m end) defaultSection merged.

Definition merge_section (merged : members) (entry : jsstr * json) : members :=
  let '(sectionKey, defaultSection) := entry in
  match map_get sectionKey merged with
  | Some existing =>
      if json_truthy existing then
        obj_put sectionKey (JObj (fill_section (spread defaultSection) (obj_of_members (spread defaultSection ++ spread existing)))) merged
      else obj_put sectionKey defaultSection merged
  | None => obj_put sectionKey defaultSection merged
  end.

Definition mergeWithDefaultSidebarModules (config : json) : members :=
  fold_left merge_section DEFAULT_SIDEBAR_MODULES (obj_of_members (spread config)).

Definition URL_TO_CONFIG_MAP : list (jsstr * (jsstr * jsstr)) :=
  [(js "/playground", (js "chat", js "playground")); (js "/dashboard", (js "console", js "detail"));
   (js "/dashboard/overview", (js "console", js "detail")); (js "/dashboard/models", (js "console", js "detail"));
   (js "/dashboard/users", (js "console", js "detail")); (js "/keys", (js "console", js "token"));
   (js "/usage-logs", (js "console", js "log")); (js "/usage-logs/common", (js "console", js "log"));
   (js "/usage-logs/drawing", (js "console", js "midjourney")); (js "/usage-logs/task", (js "console", js "task"));
   (js "/wallet", (js "personal", js "topup")); (js "/profile", (js "personal", js "personal"));
   (js "/channels", (js "admin", js "channel")); (js "/models", (js "admin", js "models"));
   (js "/models/metadata", (js "admin", js "models")); (js "/models/deployments", (js "admin", js "models"));
   (js "/users", (js "admin", js "user")); (js "/redemption-codes", (js "admin", js "redemption"));
   (js "/subscriptions", (js "admin", js "subscription")); (js "/system-settings", (js "admin", js "setting"));
   (js "/system-settings/site", (js "admin", js "setting"))].

Definition parseSidebarConfig (value : option jsstr) : members :=
  match value with
  | None => DEFAULT_SIDEBAR_MODULES
  | Some text =>
      if bool_decide (trim text = []) then DEFAULT_SIDEBAR_MODULES
      else match json_parse text with
           | Some parsed => mergeWithDefaultSidebarModules parsed
           | None => DEFAULT_SIDEBAR_MODULES
           end
  end.

(** [None] stands for [null], which does not narrow. *)
Definition parseUserSidebarConfig (value : option jsstr) : option json :=
  match value with
  | None => None
  | Some text =>
      if bool_decide (trim text = []) then None
      else match json_parse text with
           | Some (JObj _ as parsed) | Some (JArr _ as parsed) => Some parsed
           | _ => None
           end
  end.

(** The administrator's layer: [Boolean(s && s.enabled && s[module] === true)]. *)
Definition adminAllowed (adminConfig : members) (section module : jsstr) : bool :=
  match map_get section adminConfig with
  | Some s => json_truthy s && match member (js "enabled") s with Some v => json_truthy v | None => false end &&
              bool_decide (member module s = Some (JBool true))
  | None => false
  end.

(** The user's layer, after the administrator's. *)
Definition userAllowed (userConfig : option json) (section module : jsstr) : bool :=
  match userConfig with
  | None => true
  | Some c =>
      match member section c with
      | None => true
      | Some s => if negb (json_truthy s) then true
                  else if bool_decide (member (js "enabled") s = Some (JBool false)) then false
                  else negb (bool_decide (member module s = Some (JBool false)))
      end
  end.

Definition isModuleEnabled (url : jsstr) (adminConfig : members) (userConfig : option json) : bool :=
  match map_get url URL_TO_CONFIG_MAP with
  | None => true
  | Some (section, module) => if negb (adminAllowed adminConfig section module) then false else userAllowed userConfig section module
  end.

Record SubItem := mkSubItem { sub_title : jsstr; sub_url : jsstr; sub_requiredRole : option num }.

Inductive ItemKind :=
| Link (url : jsstr) (configUrls : option (list jsstr))
| Collapsible (items : list SubItem)
| ChatPresets.

Record NavItem := mkNavItem { item_title : jsstr; requiredRole : option num; kind : ItemKind }.

Record NavGroup := mkNavGroup { group_id : option jsstr; group_title : jsstr; items : list NavItem }.

Definition isNavItemVisible (adminConfig : members) (userConfig : option json) (item : NavItem) : bool :=
  match kind item with
  | ChatPresets => if negb (adminAllowed adminConfig (js "chat") (js "chat")) then false else userAllowed userConfig (js "chat") (js "chat")
  | Link [] _ => true
  | Link url configUrls => existsb (fun url => isModuleEnabled url adminConfig userConfig) (default [url] configUrls)
  | Collapsible subs => existsb (fun s => isModuleEnabled (sub_url s) adminConfig userConfig) subs
  end.

Definition filterSubItems (adminConfig : members) (userConfig : option json) (item : NavItem) : NavItem :=
  match kind item with
  | Collapsible subs =>
      mkNavItem (item_title item) (requiredRole item) (Collapsible (List.filter (fun s => isModuleEnabled (sub_url s) adminConfig userConfig) subs))
  | _ => item
  end.

Definition filterNavItems (l : list NavItem) (adminConfig : members) (userConfig : option json) : list NavItem :=
  List.filter (isNavItemVisible adminConfig userConfig) (map (filterSubItems adminConfig userConfig) l).

Definition with_items (g : NavGroup) (l : list NavItem) : NavGroup := mkNavGroup (group_id g) (group_title g) l.

Definition nonempty_group (g : NavGroup) : bool := match items g with [] => false | _ => true end.

Definition filterNavGroups (navGroups : list NavGroup) (adminConfig : members) (userConfig : option json) : list NavGroup :=
  List.filter nonempty_group (map (fun g => with_items g (filterNavItems (items g) adminConfig userConfig)) navGroups).

(** What the hook reads of the signed-in user; [None] is [undefined]. *)
Record AuthUser := mkAuthUser { role : option num; sidebar_settings : option bool; sidebar_modules : option jsstr; admin_permissions : option (list (jsstr * list (jsstr * bool))) }.

(** Saving the card: the signed-in user gets the text once the server accepted it. *)
Definition handleSave (success : bool) (config : json) (currentUser : option AuthUser) : option AuthUser :=
  match currentUser with
  | Some u => Some (if success then mkAuthUser (role u) (sidebar_settings u) (Some (NavSettings.card_serialized config)) (admin_permissions u) else u)
  | None => None
  end.

Definition overlay (user : option AuthUser) : option json :=
  match user with
  | Some u => if bool_decide (sidebar_settings u = Some false) then None else parseUserSidebarConfig (sidebar_modules u)
  | None => None
  end.

(** [SidebarModulesAdmin] is a text, or missing. *)
Definition adminText (status : json) : option jsstr := match member (js "SidebarModulesAdmin") status with Some (JStr s) => Some s | _ => None end.

Definition useSidebarConfig (status : json) (user : option AuthUser) (navGroups : list NavGroup) : list NavGroup :=
  filterNavGroups navGroups (parseSidebarConfig (adminText status)) (overlay user).

Definition useIsSidebarModuleVisible (status : json) (user : option AuthUser) (url : jsstr) : bool :=
  isModuleEnabled url (parseSidebarConfig (adminText status)) (overlay user).

(** ** Roles and permissions *)
Definition GUEST : num := num_zero.
Definition ADMIN : num := num_of_Z 10.
Definition SUPER_ADMIN : num := num_of_Z 100.

(** The groups of the root view. *)
Definition rootNavGroups (userRole : option num) (configFilteredRoot : list NavGroup) : list NavGroup :=
  let role := default GUEST userRole in
  let isAdmin := num_leb ADMIN role in
  map (fun g => with_items g (List.filter (fun i => match requiredRole i with None => true | Some r => num_leb r role end) (items g)))
    (List.filter (fun g => if bool_decide (group_id g = Some (js "admin")) then isAdmin else true) configFilteredRoot).

Definition sidebar (status : json) (user : option AuthUser) (navGroups : list NavGroup) : list NavGroup :=
  rootNavGroups (u ← user; role u) (useSidebarConfig status user navGroups).

(** The groups of the application ([hooks/use-sidebar-data.ts]). *)
Definition page_link (title url : jsstr) : NavItem := mkNavItem title None (Link url None).

Definition useSidebarData (t : jsstr -> jsstr) : list NavGroup :=
  [mkNavGroup (Some (js "chat")) (t (js "Chat"))
     [page_link (t (js "Playground")) (js "/playground"); mkNavItem (t (js "Chat")) None ChatPresets];
   mkNavGroup (Some (js "general")) (t (js "General"))
     [page_link (t (js "Overview")) (js "/dashboard/overview"); page_link (t (js "Dashboard")) (js "/dashboard/models");
      page_link (t (js "API Keys")) (js "/keys"); page_link (t (js "Usage Logs")) (js "/usage-logs/common");
      mkNavItem (t (js "Task Logs")) None (Link (js "/usage-logs/task") (Some [js "/usage-logs/drawing"; js "/usage-logs/task"]))];
   mkNavGroup (Some (js "personal")) (t (js "Personal"))
     [page_link (t (js "Wallet")) (js "/wallet"); page_link (t (js "Profile")) (js "/profile")];
   mkNavGroup (Some (js "admin")) (t (js "Admin"))
     [page_link (t (js "Channels")) (js "/channels"); page_link (t (js "Models")) (js "/models/metadata");
      page_link (t (js "Users")) (js "/users"); page_link (t (js "Redemption Codes")) (js "/redemption-codes");
      page_link (t (js "Subscriptions")) (js "/subscriptions");
      mkNavItem (t (js "System Info")) (Some SUPER_ADMIN) (Link (js "/system-info") None);
      page_link (t (js "System Settings")) (js "/system-settings/site")]].

(** The entries of the root view, each with the name of its group. *)
Definition entries (gs : list NavGroup) : list (option jsstr * jsstr) :=
  concat (map (fun g => map (fun i => (group_id g, item_title i)) (items g)) gs).

(** ** Reading the header's text *)
Definition header_module_value (key : jsstr) (value : json) (old : option json) : option json :=
  if NavSettings.is_access key then
    Some (access_json (parseAccess value (match old with
      | Some v => mkModuleAccess (bool_decide (member (js "enabled") v = Some (JBool true))) (bool_decide (member (js "requireAuth") v = Some (JBool true)))
      | None => DEFAULT_ACCESS end)))
  else match old, value with
       | Some (JBool fallback), _ => Some (JBool (parseHeaderNavBoolean (Some value) fallback))
       | _, JBool _ | _, JNum _ | _, JStr _ => Some (JBool (parseHeaderNavBoolean (Some value) true))
       | _, _ => None
       end.

Lemma header_module_put m e : header_module m e = put_entry header_module_value m e.
Proof.
  destruct e as [k v]. unfold header_module, put_entry, header_module_value, NavSettings.is_access, access_at. cbn [fst snd].
  case_bool_decide; [done|]. case_bool_decide; [done|]. cbn [orb]. by destruct (map_get k m) as [[]|], v.
Qed.

Lemma header_module_id k v old : NavSettings.header_typed (k, v) -> header_module_value k v old = Some v.
Proof.
  unfold NavSettings.header_typed, header_module_value. cbn [fst snd]. destruct (NavSettings.is_access k).
  - by intros [a ->].
  - intros [b ->]. by destruct old as [[]|].
Qed.

Lemma get_header_modules config k : map_ok config = true -> Forall NavSettings.header_typed config ->
  map_get k (fold_left header_module config DEFAULT_HEADER_NAV_MODULES) =
    match map_get k config with Some v => Some v | None => map_get k DEFAULT_HEADER_NAV_MODULES end.
Proof.
  intros Hm F. rewrite (fold_put_entries header_module_value) by apply header_module_put.
  rewrite get_put_entries; [|by apply map_ok_keys | apply (map_ok_keys _ NavSettings.header_default_ok)].
  destruct (map_get k config) as [v|] eqn:E; [|done]. rewrite header_module_id; [done | by eapply NavSettings.get_typed].
Qed.

Lemma header_modules_read config status : map_ok config = true ->
  member (js "HeaderNavModules") status = Some (JStr (NavSettings.serializeHeaderNavModules config)) ->
  parseHeaderNavModulesFromStatus status = fold_left header_module config DEFAULT_HEADER_NAV_MODULES.
Proof.
  intros Hm Hs. unfold parseHeaderNavModulesFromStatus, parseHeaderNavModules, parseHeaderNavRecord. rewrite Hs.
  destruct (object_text [] [] config) as (r & E & Et). unfold NavSettings.serializeHeaderNavModules, json_stringify. cbn [json_to_string].
  rewrite Et, E. cbn [json_truthy negb orb]. rewrite bool_decide_eq_false_2 by done. rewrite <- E. fold (json_stringify (JObj config)).
  by rewrite json_parse_stringify.
Qed.

(** The links of a header with these settings. *)
Definition header_links (t : jsstr -> jsstr) (v : NavSettings.HeaderNavFormValues) (docs_link : option json) (isAuthed : bool) : list TopNavLink :=
  (if NavSettings.home v then [mkLink (t (js "Home")) (js "/") None false] else []) ++
  (if NavSettings.console v then [mkLink (t (js "Console")) (js "/dashboard") None false] else []) ++
  (if NavSettings.pricingEnabled v then [mkLink (t (js "Model Square")) (js "/pricing") (Some (NavSettings.pricingRequireAuth v && negb isAuthed)) false] else []) ++
  (if NavSettings.rankingsEnabled v then [mkLink (t (js "Rankings")) (js "/rankings") (Some (NavSettings.rankingsRequireAuth v && negb isAuthed)) false] else []) ++
  (if NavSettings.docs v then
     match docs_link with Some (JStr (c :: r)) => [mkLink (t (js "Docs")) (c :: r) None true] | _ => [mkLink (t (js "Docs")) (js "/docs") None false] end
   else []) ++
  (if NavSettings.about v then [mkLink (t (js "About")) (js "/about") None false] else []).

Definition header_guard (on auth signedIn : bool) : Guard :=
  if on then if auth && negb signedIn then RedirectTo (js "/sign-in") else Enter else RedirectTo (js "/").

(** What a stored header holds under the names of the form. *)
Lemma get_saved_header stored values text status k : forallb code_unit (default [] stored) = true ->
  NavSettings.header_section stored values = Some text ->
  let saved := match map_get k (NavSettings.header_updates values) with Some o => o | None => None end in
  saved <> None ->
  map_get k (NavSettings.parseHeaderNavModules (Some text)) = saved /\
  (member (js "HeaderNavModules") status = Some (JStr text) -> map_get k (parseHeaderNavModulesFromStatus status) = saved).
Proof.
  intros Hu Hs saved Hk. unfold NavSettings.header_section, NavSettings.header_onSubmit in Hs. destruct (NavSettings.header_config stored Hu) as [Hm F].
  destruct (NavSettings.header_payload_config _ values Hm F) as [Hp Fp]. pose proof (NavSettings.get_header_payload _ values k Hm F) as G.
  case_bool_decide; [done|]. apply (inj Some) in Hs as <-. rewrite NavSettings.header_text_read, NavSettings.get_header_parsed by done. subst saved.
  split; [|intros E; rewrite (header_modules_read _ _ Hp E), get_header_modules by done]; rewrite G;
    (destruct (map_get k (NavSettings.header_updates values)) as [[w|]|]; [reflexivity | done..]).
Qed.

Lemma not_false_bool b : not_false (Some (JBool b)) = b.
Proof. by destruct b. Qed.

Lemma access_at_saved k m e r :
  map_get k m = Some (NavSettings.access_json (NavSettings.mkAccess e r)) -> access_at k m = mkModuleAccess e r.
Proof. intros E. unfold access_at. rewrite E. by destruct e, r. Qed.

(** ** Reading the sidebar's texts *)
Lemma default_sections : DEFAULT_SIDEBAR_MODULES = NavSettings.SIDEBAR_MODULES_DEFAULT.
Proof. reflexivity. Qed.

(** Every route of the table names a switch of the defaults. *)
Lemma url_module url section module : map_get url URL_TO_CONFIG_MAP = Some (section, module) ->
  exists d, map_get section DEFAULT_SIDEBAR_MODULES = Some (JObj d) /\ map_get (js "enabled") d = Some (JBool true) /\ map_get module d = Some (JBool true).
Proof.
  intros E. apply map_get_Some_elem in E. unfold URL_TO_CONFIG_MAP in E.
  repeat (apply elem_of_cons in E as [Eq|E];
    [apply (f_equal snd) in Eq; cbn [snd] in Eq; apply pair_equal_spec in Eq as [-> ->]; eexists; split_and!; vm_compute; reflexivity|]).
  by apply elem_of_nil in E as [].
Qed.

Definition merge_value (_ : jsstr) (defaultSection : json) (old : option json) : option json :=
  match old with
  | Some existing =>
      if json_truthy existing then
        Some (JObj (fill_section (spread defaultSection) (obj_of_members (spread defaultSection ++ spread existing))))
      else Some defaultSection
  | None => Some defaultSection
  end.

Lemma merge_section_put m e : merge_section m e = put_entry merge_value m e.
Proof. destruct e as [k d]. unfold merge_section, put_entry, merge_value. cbn [fst snd]. destruct (map_get k m) as [v|]; [by destruct (json_truthy v) | done]. Qed.

Lemma get_merged c section : map_ok c = true ->
  map_get section (mergeWithDefaultSidebarModules (JObj c)) =
    match map_get section DEFAULT_SIDEBAR_MODULES with Some d => merge_value section d (map_get section c) | None => map_get section c end.
Proof.
  intros Hc. assert (Ho : obj_of_members c = c) by (apply obj_of_members_fixed; by apply map_ok_iff in Hc as (? & ? & _)).
  unfold mergeWithDefaultSidebarModules. cbn [spread]. rewrite Ho, (fold_put_entries _ _ _ _ merge_section_put).
  rewrite get_put_entries; [|by apply (bool_decide_unpack _) | by apply map_ok_keys].
  destruct (map_get section DEFAULT_SIDEBAR_MODULES) as [d|]; [|done]. unfold merge_value.
  destruct (map_get section c) as [v|]; [by destruct (json_truthy v) | done].
Qed.

Lemma get_filled d m k : NoDup (map_keys d) -> NoDup (map_keys m) ->
  map_get k (fill_section d (obj_of_members (d ++ m))) = match map_get k m with Some v => Some v | None => map_get k d end.
Proof.
  intros Hd Hm. unfold fill_section. rewrite (fold_put_entries (fun _ v old => match old with Some _ => None | None => Some v end)).
  - rewrite get_put_entries by (done || apply obj_of_members_NoDup). rewrite get_spread by done.
    destruct (map_get k d) as [v|]; [|done]. by destruct (map_get k m).
  - intros m' e. unfold put_entry. by destruct (map_get e.1 m').
Qed.

(** A switch of the defaults. *)
Definition default_switch (section module : jsstr) : Prop :=
  exists d, map_get section DEFAULT_SIDEBAR_MODULES = Some (JObj d) /\ map_get (js "enabled") d = Some (JBool true) /\ map_get module d = Some (JBool true).

(** The administrator's layer of a saved configuration. *)
Lemma admin_switches c section module : NavSettings.typed_sidebar c -> map_ok c = true -> default_switch section module ->
  adminAllowed (parseSidebarConfig (Some (NavSettings.serializeSidebarModulesAdmin c))) section module =
    NavSettings.switch section (js "enabled") c && NavSettings.switch section module c.
Proof.
  intros F Hc (d & Ed & Hen & Hmod).
  unfold parseSidebarConfig, NavSettings.serializeSidebarModulesAdmin. destruct (object_text [] [] c) as (r & E & Et).
  unfold json_stringify. rewrite Et, E. rewrite bool_decide_eq_false_2 by done. rewrite <- E. fold (json_stringify (JObj c)).
  rewrite json_parse_stringify by done. unfold adminAllowed. rewrite get_merged, Ed by done. unfold NavSettings.switch.
  destruct (map_get section c) as [v|] eqn:Ec; cbn [merge_value].
  - destruct (NavSettings.get_section _ _ _ F Hc Ec) as (m & -> & Hm & Hok).
    destruct (NavSettings.default_section _ _ Ed) as (dm & [= <-] & Hn & _).
    cbn [json_truthy spread member]. rewrite !get_filled, Hen, Hmod by (done || by apply map_ok_keys).
    destruct (map_get (js "enabled") m) as [e|] eqn:Ee; [destruct (NavSettings.get_switches _ _ _ Hm Ee) as [be ->]|];
      (destruct (map_get module m) as [w|] eqn:Ew; [destruct (NavSettings.get_switches _ _ _ Hm Ew) as [bw ->]|]); cbn;
      try destruct be; try destruct bw; reflexivity.
  - cbn [member json_truthy]. rewrite Hen, Hmod. reflexivity.
Qed.

(** The user's layer is what the switches of the card show. *)
Lemma user_switches ps section module : map_ok ps = true ->
  userAllowed (parseUserSidebarConfig (Some (NavSettings.card_serialized (JObj ps)))) section module = NavSettings.card_allows (JObj ps) section module.
Proof.
  intros Hp. unfold parseUserSidebarConfig, NavSettings.card_serialized. destruct (object_text [] [] ps) as (r & E & Et).
  unfold json_stringify. rewrite Et, E. rewrite bool_decide_eq_false_2 by done. rewrite <- E. fold (json_stringify (JObj ps)).
  rewrite json_parse_stringify by done. unfold userAllowed, NavSettings.card_allows, NavSettings.card_switch. cbn [member].
  destruct (map_get section ps) as [v|]; [|done].
  destruct v as [|b|n|s|l|m]; cbn [member json_truthy]; try (by destruct b); try (by destruct (num_truthy n)); try (by destruct s); try done.
  by destruct (bool_decide (map_get (js "enabled") m = Some (JBool false))).
Qed.

(** C26.  The header the administrator saves is the header that is shown: reopening the
    form shows the saved values, the links are those of the enabled modules, and
    the two public pages open exactly to those the settings admit. *)
Theorem header_saved (t : jsstr -> jsstr) (stored : option jsstr) (values : NavSettings.HeaderNavFormValues) (text : jsstr) (status : json)
    (Hu : forallb code_unit (default [] stored) = true)
    (Hs : NavSettings.header_section stored values = Some text) (Hst : member (js "HeaderNavModules") status = Some (JStr text)) :
  NavSettings.toFormValues (NavSettings.parseHeaderNavModules (Some text)) = values /\
  forall signedIn stored_status,
    useTopNavLinks t status signedIn = header_links t values (member (js "docs_link") status) signedIn /\
    public_beforeLoad pricing (Some status) stored_status signedIn = header_guard (NavSettings.pricingEnabled values) (NavSettings.pricingRequireAuth values) signedIn /\
    public_beforeLoad rankings (Some status) stored_status signedIn = header_guard (NavSettings.rankingsEnabled values) (NavSettings.rankingsRequireAuth values) signedIn.
Proof.
  assert (G : forall k w, map_get k (NavSettings.header_updates values) = Some (Some w) ->
    map_get k (NavSettings.parseHeaderNavModules (Some text)) = Some w /\ map_get k (parseHeaderNavModulesFromStatus status) = Some w).
  { intros k w E. pose proof (get_saved_header stored values text status k Hu Hs) as H. cbv zeta in H. rewrite E in H. destruct (H ltac:(done)) as [H1 H2]. auto. }
  destruct (G (js "home") _ eq_refl) as [h1 h2], (G (js "console") _ eq_refl) as [c1 c2], (G (js "docs") _ eq_refl) as [d1 d2],
    (G (js "about") _ eq_refl) as [a1 a2], (G (js "pricing") _ eq_refl) as [p1 p2], (G (js "rankings") _ eq_refl) as [r1 r2].
  split.
  - unfold NavSettings.toFormValues, NavSettings.nested. rewrite h1, c1, d1, a1, p1, r1. by destruct values.
  - intros signedIn cache. unfold useTopNavLinks, header_links, public_beforeLoad, getFreshModuleAccess, getModuleAccessFromStatus, module_key, access_link.
    rewrite h2, c2, d2, a2, (access_at_saved _ _ _ _ p2), (access_at_saved _ _ _ _ r2), !not_false_bool. cbn [enabled requireAuth fst].
    split; [reflexivity|]. unfold header_guard. by destruct (NavSettings.pricingEnabled values), (NavSettings.rankingsEnabled values).
Qed.

(** The playground's guard on a saved configuration. *)
Lemma guard_switches c stored section module : NavSettings.typed_sidebar c -> map_ok c = true ->
  member (js "SidebarModulesAdmin") (getCachedStatus stored) = Some (JStr (NavSettings.serializeSidebarModulesAdmin c)) ->
  isSidebarModuleEnabled stored section module = NavSettings.switch section (js "enabled") c && NavSettings.switch section module c.
Proof.
  intros F Hc Hs. unfold isSidebarModuleEnabled, NavSettings.serializeSidebarModulesAdmin in *. rewrite Hs.
  destruct (getCachedStatus stored) as [| | | | |st]; try done. cbn [json_truthy negb].
  destruct (object_text [] [] c) as (r & E & Et). unfold json_stringify. cbn [json_to_string]. rewrite Et, E. cbn [json_truthy negb orb].
  rewrite bool_decide_eq_false_2 by done. rewrite <- E. fold (json_stringify (JObj c)). rewrite json_parse_stringify by done.
  cbn [member]. unfold NavSettings.switch. destruct (map_get section c) as [v|] eqn:Ec; [|done].
  destruct (NavSettings.get_section _ _ _ F Hc Ec) as (m & -> & Hm & _). cbn [json_truthy negb member].
  destruct (map_get (js "enabled") m) as [e|] eqn:Ee; [destruct (NavSettings.get_switches _ _ _ Hm Ee) as [be ->]|];
    (destruct (map_get module m) as [w|] eqn:Ew; [destruct (NavSettings.get_switches _ _ _ Hm Ew) as [bw ->]|]);
    try destruct be; try destruct bw; reflexivity.
Qed.

(** A module is on in the settings of the administrator and on the card. *)
Definition module_on (c u : members) (section module : jsstr) : bool :=
  NavSettings.switch section (js "enabled") c && NavSettings.switch section module c && NavSettings.card_allows (JObj u) section module.

(** The layers the sidebar reads once both were saved. *)
Definition saved_layers (c u : members) (a : members) (o : option json) : Prop :=
  forall section module, default_switch section module -> adminAllowed a section module && userAllowed o section module = module_on c u section module.

Lemma layers_saved c u status user :
  map_ok c = true -> NavSettings.typed_sidebar c -> map_ok u = true ->
  adminText status = Some (NavSettings.serializeSidebarModulesAdmin c) -> sidebar_settings user <> Some false ->
  saved_layers c u (parseSidebarConfig (adminText status)) (overlay (handleSave true (JObj u) (Some user))).
Proof.
  intros Hc Ht Hu Ea Es section module Hd. unfold handleSave, overlay. cbn [sidebar_settings sidebar_modules].
  rewrite Ea, bool_decide_eq_false_2, admin_switches, user_switches by done. done.
Qed.

Lemma enabled_saved c u a o url section module :
  saved_layers c u a o -> map_get url URL_TO_CONFIG_MAP = Some (section, module) -> isModuleEnabled url a o = module_on c u section module.
Proof.
  intros H E. unfold isModuleEnabled. rewrite E. rewrite <- H by (by eapply url_module). by destruct (adminAllowed a section module).
Qed.

Lemma chats_saved c u a o : saved_layers c u a o ->
  (if negb (adminAllowed a (js "chat") (js "chat")) then false else userAllowed o (js "chat") (js "chat")) = module_on c u (js "chat") (js "chat").
Proof.
  intros H. rewrite <- H; [by destruct (adminAllowed a (js "chat") (js "chat"))|]. eexists. split_and!; vm_compute; reflexivity.
Qed.

(** The entries of the sidebar, group by group. *)
Definition group_entries (a : members) (o : option json) (role : num) (g : NavGroup) : list (option jsstr * jsstr) :=
  if bool_decide (group_id g = Some (js "admin")) && negb (num_leb ADMIN role) then []
  else map (fun i => (group_id g, item_title i))
         (List.filter (fun i => match requiredRole i with None => true | Some r => num_leb r role end) (filterNavItems (items g) a o)).

Lemma sidebar_entries status user gs :
  entries (sidebar status user gs) =
  concat (map (group_entries (parseSidebarConfig (adminText status)) (overlay user) (default GUEST (u ← user; role u))) gs).
Proof.
  unfold sidebar, rootNavGroups, useSidebarConfig, filterNavGroups, entries. set (r := default GUEST _). set (a := parseSidebarConfig _). set (o := overlay user).
  induction gs as [|g gs IH]; [done|]. cbn [map concat List.filter]. unfold nonempty_group at 1. cbn [items with_items].
  unfold group_entries at 1. destruct (filterNavItems (items g) a o) as [|i l].
  - rewrite IH. by destruct (_ && _).
  - cbn [List.filter group_id with_items]. case_bool_decide; cbn [andb].
    + destruct (num_leb ADMIN r); cbn [negb map concat group_id with_items items]; [|exact IH]. f_equal. exact IH.
    + cbn [map concat group_id with_items items]. f_equal. exact IH.
Qed.

(** An entry, when it is there. *)
Definition row (b : bool) (group title : jsstr) : list (option jsstr * jsstr) := if b then [(Some group, title)] else [].

Lemma filterSubItems_role a u item : requiredRole (filterSubItems a u item) = requiredRole item.
Proof. unfold filterSubItems. by destruct (kind item). Qed.

(** Whether an entry of a group is there. *)
Definition item_shown (a : members) (o : option json) (role : num) (i : NavItem) : bool :=
  isNavItemVisible a o (filterSubItems a o i) && match requiredRole i with None => true | Some r => num_leb r role end.

Lemma group_rows a o r id title its :
  group_entries a o r (mkNavGroup (Some id) title its) =
  if bool_decide (id = js "admin") && negb (num_leb ADMIN r) then []
  else concat (map (fun i => row (item_shown a o r i) id (item_title i)) its).
Proof.
  unfold group_entries. cbn [group_id items].
  assert (E : bool_decide (Some id = Some (js "admin")) = bool_decide (id = js "admin")) by (apply bool_decide_ext; naive_solver).
  rewrite E. destruct (_ && _); [done|]. unfold filterNavItems. induction its as [|i its IH]; [done|]. cbn [map concat List.filter].
  rewrite <- IH. unfold item_shown, row. destruct (isNavItemVisible a o (filterSubItems a o i)); cbn [List.filter andb]; [|done].
  rewrite filterSubItems_role. destruct (match requiredRole i with None => true | Some q => num_leb q r end); cbn [map app]; [|done].
  f_equal. f_equal. unfold filterSubItems. by destruct (kind i).
Qed.

Lemma link_shown c u a o r title url section module :
  saved_layers c u a o -> map_get url URL_TO_CONFIG_MAP = Some (section, module) ->
  item_shown a o r (page_link title url) = module_on c u section module.
Proof.
  intros L E. unfold item_shown, filterSubItems, isNavItemVisible. cbn [kind page_link requiredRole]. destruct url as [|x url]; [done|].
  cbn [default from_option existsb]. by rewrite (enabled_saved c u a o _ _ _ L E), orb_false_r, andb_true_r.
Qed.

(** The entries of the application for a role, with the modules that are on. *)
Definition application_entries (t : jsstr -> jsstr) (on : jsstr -> jsstr -> bool) (r : num) : list (option jsstr * jsstr) :=
   row (on (js "chat") (js "playground")) (js "chat") (t (js "Playground")) ++
   row (on (js "chat") (js "chat")) (js "chat") (t (js "Chat")) ++
   row (on (js "console") (js "detail")) (js "general") (t (js "Overview")) ++
   row (on (js "console") (js "detail")) (js "general") (t (js "Dashboard")) ++
   row (on (js "console") (js "token")) (js "general") (t (js "API Keys")) ++
   row (on (js "console") (js "log")) (js "general") (t (js "Usage Logs")) ++
   row (on (js "console") (js "midjourney") || on (js "console") (js "task")) (js "general") (t (js "Task Logs")) ++
   row (on (js "personal") (js "topup")) (js "personal") (t (js "Wallet")) ++
   row (on (js "personal") (js "personal")) (js "personal") (t (js "Profile")) ++
   (if num_leb ADMIN r then
      row (on (js "admin") (js "channel")) (js "admin") (t (js "Channels")) ++
      row (on (js "admin") (js "models")) (js "admin") (t (js "Models")) ++
      row (on (js "admin") (js "user")) (js "admin") (t (js "Users")) ++
      row (on (js "admin") (js "redemption")) (js "admin") (t (js "Redemption Codes")) ++
      row (on (js "admin") (js "subscription")) (js "admin") (t (js "Subscriptions")) ++
      row (num_leb SUPER_ADMIN r) (js "admin") (t (js "System Info")) ++
      row (on (js "admin") (js "setting")) (js "admin") (t (js "System Settings"))
    else []).

Lemma application_rows c u a o r t : saved_layers c u a o ->
  concat (map (group_entries a o r) (useSidebarData t)) = application_entries t (module_on c u) r.
Proof.
  intros L.
  assert (Hl : forall title url section module, map_get url URL_TO_CONFIG_MAP = Some (section, module) ->
    item_shown a o r (page_link title url) = module_on c u section module) by (intros; by apply link_shown).
  assert (Hchat : item_shown a o r (mkNavItem (t (js "Chat")) None ChatPresets) = module_on c u (js "chat") (js "chat")).
  { unfold item_shown. rewrite andb_true_r. by apply chats_saved. }
  assert (Htask : item_shown a o r (mkNavItem (t (js "Task Logs")) None (Link (js "/usage-logs/task") (Some [js "/usage-logs/drawing"; js "/usage-logs/task"])))
    = module_on c u (js "console") (js "midjourney") || module_on c u (js "console") (js "task")).
  { rewrite <- (enabled_saved c u a o (js "/usage-logs/drawing") _ _ L eq_refl), <- (enabled_saved c u a o (js "/usage-logs/task") _ _ L eq_refl).
    unfold item_shown. rewrite andb_true_r. cbn. by rewrite orb_false_r. }
  assert (Hinfo : item_shown a o r (mkNavItem (t (js "System Info")) (Some SUPER_ADMIN) (Link (js "/system-info") None)) = num_leb SUPER_ADMIN r) by reflexivity.
  unfold useSidebarData. cbn [map concat]. rewrite !group_rows. cbn [map concat item_title page_link].
  set (shown := item_shown a o r) in *. clearbody shown. rewrite Hchat, Htask.
  rewrite (Hl _ (js "/playground") (js "chat") (js "playground")), (Hl _ (js "/dashboard/overview") (js "console") (js "detail")),
    (Hl _ (js "/dashboard/models") (js "console") (js "detail")), (Hl _ (js "/keys") (js "console") (js "token")),
    (Hl _ (js "/usage-logs/common") (js "console") (js "log")), (Hl _ (js "/wallet") (js "personal") (js "topup")),
    (Hl _ (js "/profile") (js "personal") (js "personal")), (Hl _ (js "/channels") (js "admin") (js "channel")),
    (Hl _ (js "/models/metadata") (js "admin") (js "models")), (Hl _ (js "/users") (js "admin") (js "user")),
    (Hl _ (js "/redemption-codes") (js "admin") (js "redemption")), (Hl _ (js "/subscriptions") (js "admin") (js "subscription")),
    (Hl _ (js "/system-settings/site") (js "admin") (js "setting")) by (vm_compute; reflexivity).
  rewrite Hinfo. rewrite !(bool_decide_eq_false_2 (_ = js "admin")) by (vm_compute; discriminate). rewrite bool_decide_eq_true_2 by done.
  cbn [andb]. unfold application_entries. rewrite !app_nil_r. repeat rewrite <- app_assoc. by destruct (num_leb ADMIN r).
Qed.

(** C6.  The sidebar applies the switches of both pages: with the administrator's
    settings and the user's card saved, its entries are, in order, those whose
    section and module are on in both; the task logs are there if the drawing
    logs or the task logs are on, the administrators' group only for their role,
    and the system information, which has no switch, for the root role only.  The
    link to the wallet in the profile menu, the guard of the playground's route
    and the settings page read the same switches. *)
Theorem sidebar_applies_switches (c u : members) (Hc : map_ok c = true) (Ht : NavSettings.typed_sidebar c) (Hu : map_ok u = true) :
  let text := NavSettings.serializeSidebarModulesAdmin c in
  (forall t status user, adminText status = Some text -> sidebar_settings user <> Some false ->
     let on := module_on c u in
     let r := default GUEST (role user) in
     let saved := handleSave true (JObj u) (Some user) in
     entries (sidebar status saved (useSidebarData t)) =
       application_entries t on r /\
     useIsSidebarModuleVisible status saved (js "/wallet") = on (js "personal") (js "topup")) /\
  (forall stored, member (js "SidebarModulesAdmin") (getCachedStatus stored) = Some (JStr text) ->
     playground_beforeLoad stored = if NavSettings.switch (js "chat") (js "enabled") c && NavSettings.switch (js "chat") (js "playground") c
                                    then Enter else RedirectTo (js "/dashboard")) /\
  (forall section key, NavSettings.switch section key (NavSettings.parseSidebarModulesAdmin (Some text)) = NavSettings.switch section key c).
Proof.
  split_and!.
  - intros t status user Ea Es. cbv zeta. pose proof (layers_saved c u status user Hc Ht Hu Ea Es) as L.
    split; [|unfold useIsSidebarModuleVisible; by apply enabled_saved].
    rewrite sidebar_entries. set (a := parseSidebarConfig _) in *. set (o := overlay _) in *.
    change (default GUEST _) with (default GUEST (role user)). set (r := default GUEST (role user)).
    exact (application_rows c u a o r t L).
  - intros stored Hs. unfold playground_beforeLoad. rewrite (guard_switches c) by done. by destruct (_ && _).
  - intros section key. by apply NavSettings.sidebar_text_read.
Qed.

(** ** What the sidebar offers *)

(** What an entry leads to. *)
Inductive Target := PageAt (url : jsstr) | Chats.

(** The entry leads to the target, and the two layers of settings show it: a link
    by the pages it names for that, or its own; a page below an entry by itself. *)
Definition leads_to (a : members) (o : option json) (item : NavItem) (target : Target) : Prop :=
  match kind item, target with
  | Link url configUrls, PageAt page => url = page /\ exists x, x ∈ default [url] configUrls /\ isModuleEnabled x a o = true
  | Collapsible subs, PageAt page => (exists s, s ∈ subs /\ sub_url s = page) /\ isModuleEnabled page a o = true
  | ChatPresets, Chats => adminAllowed a (js "chat") (js "chat") = true /\ userAllowed o (js "chat") (js "chat") = true
  | _, _ => False
  end.

(** What the entry leads to, whatever the settings. *)
Definition target_of (item : NavItem) (target : Target) : Prop :=
  match kind item, target with
  | Link url _, PageAt page => url = page
  | Collapsible subs, PageAt page => exists s, s ∈ subs /\ sub_url s = page
  | ChatPresets, Chats => True
  | _, _ => False
  end.

Definition shows_target (gs : list NavGroup) (target : Target) : Prop := exists g item, g ∈ gs /\ item ∈ items g /\ target_of item target.

Definition role_allows (user : option AuthUser) (g : NavGroup) (item : NavItem) : Prop :=
  let r := default GUEST (u ← user; role u) in
  (group_id g = Some (js "admin") -> num_leb ADMIN r = true) /\ (forall q, requiredRole item = Some q -> num_leb q r = true).

Lemma elem_of_List_filter {A} (f : A -> bool) x l : x ∈ List.filter f l <-> x ∈ l /\ f x = true.
Proof. rewrite !list_elem_of_In. apply filter_In. Qed.

Lemma elem_of_List_map {A B} (f : A -> B) y l : y ∈ map f l <-> exists x, x ∈ l /\ y = f x.
Proof. rewrite list_elem_of_fmap. naive_solver. Qed.

Lemma existsb_elem {A} (f : A -> bool) l : existsb f l = true <-> exists x, x ∈ l /\ f x = true.
Proof. rewrite existsb_exists. split; intros (x & Hx & H); exists x; by rewrite list_elem_of_In in *. Qed.

(** Filtering keeps an entry for a target exactly when the layers show it. *)
Lemma filtered_target a u item target : target <> PageAt [] ->
  target_of (filterSubItems a u item) target /\ isNavItemVisible a u (filterSubItems a u item) = true <-> leads_to a u item target.
Proof.
  intros Hu. unfold target_of, leads_to, isNavItemVisible, filterSubItems. destruct (kind item) as [l cs|subs|] eqn:Ek.
  - rewrite Ek. destruct target as [page|]; [|naive_solver]. destruct l as [|x l].
    + split; [by intros [<- _] | by intros [<- _]].
    + rewrite existsb_elem. naive_solver.
  - cbn [kind]. destruct target as [page|]; [|naive_solver]. rewrite existsb_elem. split.
    + intros [(s & Hs & <-) _]. apply elem_of_List_filter in Hs as [Hs He]. split; [by exists s | done].
    + intros [(s & Hs & <-) He]. assert (Hin : s ∈ List.filter (fun s => isModuleEnabled (sub_url s) a u) subs) by (by apply elem_of_List_filter).
      split; by exists s.
  - rewrite Ek. destruct target; [naive_solver|]. destruct (adminAllowed a _ _), (userAllowed u _ _); naive_solver.
Qed.

Lemma offers_iff status user gs target : target <> PageAt [] ->
  shows_target (sidebar status user gs) target <->
  exists g item, g ∈ gs /\ item ∈ items g /\ role_allows user g item /\ leads_to (parseSidebarConfig (adminText status)) (overlay user) item target.
Proof.
  intros Hu. unfold shows_target, sidebar, rootNavGroups, useSidebarConfig, filterNavGroups, role_allows. set (a := parseSidebarConfig _). set (o := overlay user). split.
  - intros (g1 & i1 & Hg & Hi & Hp). apply elem_of_List_map in Hg as (g2 & Hg & ->). apply elem_of_List_filter in Hg as [Hg Hid].
    apply elem_of_List_filter in Hg as [Hg _]. apply elem_of_List_map in Hg as (g & Hg & ->). cbn [items with_items group_id] in *.
    apply elem_of_List_filter in Hi as [Hi Hr]. apply elem_of_List_filter in Hi as [Hi Hv]. apply elem_of_List_map in Hi as (item & Hi & ->).
    exists g, item. split; [done|]. split; [done|]. split; [|by apply (filtered_target a o item target Hu)]. split.
    + intros E. by rewrite bool_decide_eq_true_2 in Hid.
    + intros q Eq. by rewrite filterSubItems_role, Eq in Hr.
  - intros (g & item & Hg & Hi & (Hid & Hr) & Hl). destruct (proj2 (filtered_target a o item target Hu) Hl) as [Hp' Hv].
    assert (Hin : filterSubItems a o item ∈ filterNavItems (items g) a o)
      by (apply elem_of_List_filter; split; [apply elem_of_List_map; eauto | done]).
    eexists _, (filterSubItems a o item). split; [apply elem_of_List_map; eexists; split; [|reflexivity]|].
    + apply elem_of_List_filter. split; [apply elem_of_List_filter; split; [apply elem_of_List_map; eexists; split; [exact Hg | reflexivity]|]|].
      * unfold nonempty_group. cbn [items with_items]. by destruct (filterNavItems (items g) a o); [apply elem_of_nil in Hin|].
      * cbn [group_id with_items]. case_bool_decide; auto.
    + cbn [items with_items]. split; [|done]. apply elem_of_List_filter. split; [done|]. rewrite filterSubItems_role.
      destruct (requiredRole item); auto.
Qed.

(** The user's layer only narrows. *)
Lemma enabled_narrows url a o : isModuleEnabled url a o = true -> isModuleEnabled url a None = true.
Proof. unfold isModuleEnabled. destruct (map_get url URL_TO_CONFIG_MAP) as [[section module]|]; [|done]. by destruct (adminAllowed a section module). Qed.

Lemma leads_narrows a o item target : leads_to a o item target -> leads_to a None item target.
Proof.
  unfold leads_to. destruct (kind item), target; try done.
  - intros (-> & x & Hx & He). split; [done|]. exists x. split; [done|]. by eapply enabled_narrows.
  - intros (Hs & He). split; [done|]. by eapply enabled_narrows.
  - by intros [-> _].
Qed.

(** The user before anything was saved on the card. *)
Definition without_card (user : option AuthUser) : option AuthUser :=
  u ← user; Some (mkAuthUser (role u) (sidebar_settings u) None (admin_permissions u)).

(** C36.  The sidebar offers a page, or the chats, exactly when an entry of its
    groups leads there, the role admits the group and the entry, and the two
    layers of settings show it: a link is shown if any of the pages it names is
    on (the page itself if it names none), a page below an entry if it is on
    itself, the chats if their module is.  What a user saves on the card can only
    take away. *)
Theorem sidebar_offers (status : json) (user : option AuthUser) (gs : list NavGroup) (target : Target) (Hu : target <> PageAt []) :
  (shows_target (sidebar status user gs) target <->
     exists g item, g ∈ gs /\ item ∈ items g /\ role_allows user g item /\
       leads_to (parseSidebarConfig (adminText status)) (overlay user) item target) /\
  (shows_target (sidebar status user gs) target -> shows_target (sidebar status (without_card user) gs) target).
Proof.
  split; [by apply offers_iff|]. rewrite !offers_iff by done. intros (g & item & Hg & Hi & Hr & Hl). exists g, item. split_and!; try done.
  - revert Hr. unfold role_allows. by destruct user.
  - assert (Eo : overlay (without_card user) = None) by (destruct user as [v|]; [|done]; unfold overlay; cbn; by case_bool_decide).
    rewrite Eo. by eapply leads_narrows.
Qed.

(** ** Where the readers differ *)

(** A switch stored as a text: the settings page shows it off and the sidebar
    hides the entry, but the guard of the route lets the page open. *)
Definition false_text : jsstr := json_stringify (JObj [(js "chat", JObj [(js "playground", JStr (js "false"))])]).
Definition false_status : option jsstr := Some (json_stringify (JObj [(js "SidebarModulesAdmin", JStr false_text)])).

Theorem guard_ignores_false_text :
  NavSettings.switch (js "chat") (js "playground") (NavSettings.parseSidebarModulesAdmin (Some false_text)) = false /\
  isModuleEnabled (js "/playground") (parseSidebarConfig (Some false_text)) None = false /\
  playground_beforeLoad false_status = Enter.
Proof. split_and!; vm_compute; reflexivity. Qed.

(** A number that is neither 0 nor 1: the settings page shows the module off, the
    header shows its link, and saving the page as it is writes nothing. *)
Definition two_text : jsstr := json_stringify (JObj [(js "home", JNum (num_of_Z 2))]).

Theorem header_number_differs :
  let values := NavSettings.toFormValues (NavSettings.parseHeaderNavModules (Some two_text)) in
  NavSettings.home values = false /\ NavSettings.header_section (Some two_text) values = None /\
  map_get (js "home") (parseHeaderNavModules (Some (JStr two_text))) = Some (JBool true).
Proof. cbv zeta. split_and!; vm_compute; reflexivity. Qed.

(** ** Examples *)
Definition example_header : NavSettings.HeaderNavFormValues := NavSettings.mkHeaderForm true false true true false false true true.
Definition example_header_text : jsstr := NavSettings.serializeHeaderNavModules (NavSettings.header_payload NavSettings.HEADER_NAV_DEFAULT example_header).

Lemma header_saved_witness :
  useTopNavLinks id (JObj [(js "HeaderNavModules", JStr example_header_text)]) false = header_links id example_header None false.
Proof.
  destruct (header_saved id None example_header example_header_text (JObj [(js "HeaderNavModules", JStr example_header_text)])) as [_ H];
    [vm_compute; reflexivity..|]. apply (H false None).
Defined.

Definition example_sidebar : members :=
  [(js "chat", JObj [(js "enabled", JBool true); (js "playground", JBool false)]); (js "console", JObj [(js "enabled", JBool true)])].
Definition example_card : members := [(js "console", JObj [(js "token", JBool false)])].

Definition example_user : AuthUser := mkAuthUser (Some (num_of_Z 1)) None None None.
Definition example_status : json := JObj [(js "SidebarModulesAdmin", JStr (NavSettings.serializeSidebarModulesAdmin example_sidebar))].

Lemma sidebar_applies_switches_witness :
  entries (sidebar example_status (handleSave true (JObj example_card) (Some example_user)) (useSidebarData id)) =
  [(Some (js "chat"), js "Chat"); (Some (js "general"), js "Overview"); (Some (js "general"), js "Dashboard");
   (Some (js "general"), js "Usage Logs"); (Some (js "general"), js "Task Logs"); (Some (js "personal"), js "Wallet"); (Some (js "personal"), js "Profile")].
Proof.
  destruct (sidebar_applies_switches example_sidebar example_card) as [H _].
  - vm_compute. reflexivity.
  - repeat constructor; (eexists; split; [reflexivity|]; repeat constructor; eexists; reflexivity).
  - vm_compute. reflexivity.
  - destruct (H id example_status example_user) as [E _]; [vm_compute; reflexivity | discriminate |].
    rewrite E. vm_compute. reflexivity.
Defined.

(** The administrator switched the task logs off and left the drawing logs on: the
    sidebar still leads to the task logs. *)
Definition no_tasks : json :=
  JObj [(js "SidebarModulesAdmin", JStr (NavSettings.serializeSidebarModulesAdmin [(js "console", JObj [(js "enabled", JBool true); (js "task", JBool false)])]))].

Lemma sidebar_offers_witness :
  shows_target (sidebar no_tasks (Some (mkAuthUser (Some ADMIN) None None None)) (useSidebarData id)) (PageAt (js "/usage-logs/task")).
Proof.
  refine (proj2 (proj1 (sidebar_offers no_tasks (Some (mkAuthUser (Some ADMIN) None None None)) (useSidebarData id) (PageAt (js "/usage-logs/task")) _)) _);
    [discriminate|].
  exists (nth 1 (useSidebarData id) (mkNavGroup None [] [])), (nth 4 (items (nth 1 (useSidebarData id) (mkNavGroup None [] []))) (page_link [] [])).
  split_and!; [right; left | do 4 right; left | split; [intros E; vm_compute in E; discriminate E | intros q E; discriminate E] |].
  split; [reflexivity|]. exists (js "/usage-logs/drawing"). split; [left | vm_compute; reflexivity].
Defined.

End Navigation.
