(* ===== verification/Permissions.v ===== *)
(** * Permissions of administrators

    The matrix of permissions an administrator has ([lib/admin-permissions.ts])
    and the form that edits it for another user ([features/users/lib/user-form.ts]).
    The catalogue of resources and actions comes from the server. *)
From S2P Require Import Prelude JsString JsNumber Json JsObject Navigation.
Local Open Scope Z_scope.

Module Permissions.

(** [Record<string, Record<string, boolean>>] *)
Abbreviation AdminPermissionMatrix := (list (jsstr * list (jsstr * bool))).

Record PermissionActionDef := mkAction { action : jsstr; label_key : jsstr; description_key : jsstr }.
Record PermissionResourceDef := mkResource { resource : jsstr; res_label_key : jsstr; actions : list PermissionActionDef }.
Record PermissionRoleDef := mkRole { key : jsstr; name : jsstr; built_in : bool; superuser : bool; grants : AdminPermissionMatrix }.
Record PermissionCatalog := mkCatalog { resources : list PermissionResourceDef; roles : list PermissionRoleDef }.

Definition ADMIN_ROLE_KEY : jsstr := js "admin".
Definition EMPTY_PERMISSION_CATALOG : PermissionCatalog := mkCatalog [] [].

(** [m?.[resource]?.[action]] *)
Definition cell (m : AdminPermissionMatrix) (r a : jsstr) : option bool := row ← map_get r m; map_get a row.

Definition hasPermission (user : option Navigation.AuthUser) (r a : jsstr) : bool :=
  match user with
  | None => false
  | Some u =>
      if match Navigation.role u with Some q => num_eqb q Navigation.SUPER_ADMIN | None => false end then true
      else bool_decide ((m ← Navigation.admin_permissions u; cell m r a) = Some true)
  end.

Definition roleGrants (catalog : PermissionCatalog) (roleKey : jsstr) : AdminPermissionMatrix :=
  match List.find (fun role => bool_decide (key role = roleKey)) (roles catalog) with Some role => grants role | None => [] end.

(** [value?.[r]?.[a] ?? baseline[r]?.[a] ?? false] *)
Definition granted (value : option AdminPermissionMatrix) (baseline : AdminPermissionMatrix) (r a : jsstr) : bool :=
  match m ← value; cell m r a with Some b => b | None => default false (cell baseline r a) end.

Definition resource_actions (value : option AdminPermissionMatrix) (baseline : AdminPermissionMatrix) (r : PermissionResourceDef) : list (jsstr * bool) :=
  fold_left (fun row a => map_set (action a) (granted value baseline (resource r) (action a)) row) (actions r) [].

Definition normalizeAdminPermissions (value : option AdminPermissionMatrix) (catalog : PermissionCatalog) : AdminPermissionMatrix :=
  let baseline := roleGrants catalog ADMIN_ROLE_KEY in
  fold_left (fun normalized r => map_set (resource r) (resource_actions value baseline r) normalized) (resources catalog) [].

(** ** The user form *)
Record UserFormValues := mkUserForm {
  username : jsstr; display_name : option jsstr; password : option jsstr; role : option num; quota_dollars : option num;
  group : option jsstr; remark : option jsstr; admin_permissions : option AdminPermissionMatrix }.

Record UserFormData := mkUserData {
  d_username : jsstr; d_display_name : jsstr; d_password : option jsstr; d_permissions : option AdminPermissionMatrix;
  d_role : option num; d_group : option jsstr; d_remark : option jsstr; d_id : option num }.

Definition DEFAULT_GROUP : jsstr := js "default".

Definition USER_FORM_DEFAULT_VALUES : UserFormValues :=
  mkUserForm [] (Some []) (Some []) (Some (num_of_Z 1)) (Some num_zero) (Some DEFAULT_GROUP) (Some []) (Some []).

(** [s || undefined] *)
Definition text_opt (s : option jsstr) : option jsstr := match s with Some (_ :: _) => s | _ => None end.
Definition text_or (s : option jsstr) (d : jsstr) : jsstr := default d (text_opt s).

(** [a || b] and [a ?? b] on numbers *)
Definition num_or (n : option num) (d : num) : num := match n with Some x => if num_truthy x then x else d | None => d end.

Definition form_role (data : UserFormValues) (userId : option num) : num :=
  match userId with None => num_or (role data) (num_of_Z 1) | Some _ => default num_zero (role data) end.

Definition transformFormDataToPayload (data : UserFormValues) (userId : option num) (catalog : option PermissionCatalog) : UserFormData :=
  let r := form_role data userId in
  let permissions := match catalog with
                     | Some c => if num_leb Navigation.ADMIN r then Some (normalizeAdminPermissions (admin_permissions data) c) else None
                     | None => None
                     end in
  match userId with
  | None => mkUserData (username data) (text_or (display_name data) (username data)) (text_opt (password data)) permissions (Some r) None None None
  | Some id => mkUserData (username data) (text_or (display_name data) (username data)) (text_opt (password data)) permissions None
                 (group data) (text_opt (remark data)) (Some id)
  end.

Record User := mkUser {
  u_username : jsstr; u_display_name : jsstr; u_role : num; u_quota : num; u_group : option jsstr; u_remark : option jsstr;
  u_permissions : option AdminPermissionMatrix }.

Section Users.
(** [quotaUnitsToDollars] of the quota, which the form only shows. *)
Context (quotaUnitsToDollars : num -> num).

Definition transformUserToFormDefaults (user : User) : UserFormValues :=
  mkUserForm (u_username user) (Some (u_display_name user)) (Some []) (Some (u_role user)) (Some (quotaUnitsToDollars (u_quota user)))
    (Some (text_or (u_group user) DEFAULT_GROUP)) (Some (text_or (u_remark user) [])) (Some (default [] (u_permissions user))).
End Users.

(** ** The normalised matrix *)
Section Folds.
Context {A V : Type} (k : A -> jsstr) (f : A -> V).

Lemma get_fold_set x l m : (forall a b, a ∈ l -> b ∈ l -> k a = k b -> f a = f b) ->
  (forall a, a ∈ l -> k a = x -> map_get x (fold_left (fun m a => map_set (k a) (f a) m) l m) = Some (f a)) /\
  ((forall a, a ∈ l -> k a <> x) -> map_get x (fold_left (fun m a => map_set (k a) (f a) m) l m) = map_get x m).
Proof.
  revert m. induction l as [|b l IH]; intros m Hf; [by split; [intros a ?%elem_of_nil|]|]. cbn [fold_left].
  destruct (IH (map_set (k b) (f b) m)) as [I1 I2]; [intros; apply Hf; set_solver|]. split.
  - intros a Ha Ea. destruct (decide (x ∈ map k l)) as [Hin|Hout].
    + apply list_elem_of_fmap in Hin as (c & Ec & Hc). rewrite (I1 c Hc (eq_sym Ec)). f_equal. apply Hf; [set_solver.. | congruence].
    + apply elem_of_cons in Ha as [->|Ha]; [|destruct Hout; apply list_elem_of_fmap; eauto].
      rewrite I2; [subst x; apply map_get_set_eq|]. intros c Hc Ec. apply Hout. apply list_elem_of_fmap. eauto.
  - intros Hn. rewrite I2 by (intros; apply Hn; set_solver). apply map_get_set_ne. intros ->. apply (Hn b); set_solver.
Qed.
End Folds.

Lemma get_resource_actions value baseline r a :
  map_get a (resource_actions value baseline r) =
    if bool_decide (a ∈ map action (actions r)) then Some (granted value baseline (resource r) a) else None.
Proof.
  unfold resource_actions. destruct (get_fold_set action (fun a => granted value baseline (resource r) (action a)) a (actions r) []) as [H1 H2];
    [by intros ? ? _ _ ->|]. case_bool_decide as E.
  - apply list_elem_of_fmap in E as (d & -> & Hd). by rewrite (H1 d).
  - apply H2. intros d Hd <-. apply E. by apply list_elem_of_fmap_2.
Qed.

(** The catalogue lists a resource once. *)
Definition catalog_ok (catalog : PermissionCatalog) : Prop := NoDup (map resource (resources catalog)).

Definition listed (catalog : PermissionCatalog) (r a : jsstr) : Prop :=
  exists d, d ∈ resources catalog /\ resource d = r /\ a ∈ map action (actions d).

Lemma resource_unique catalog d d' : catalog_ok catalog -> d ∈ resources catalog -> d' ∈ resources catalog -> resource d = resource d' -> d = d'.
Proof.
  unfold catalog_ok. generalize (resources catalog) as l. induction l as [|x l IH]; intros Hn Hd Hd' E; [by apply elem_of_nil in Hd|].
  cbn in Hn. apply NoDup_cons in Hn as [Hx Hn]. apply elem_of_cons in Hd as [->|Hd], Hd' as [->|Hd']; try done.
  - destruct Hx. rewrite E. by apply list_elem_of_fmap_2.
  - destruct Hx. rewrite <- E. by apply list_elem_of_fmap_2.
  - by apply IH.
Qed.

(** Each cell of the catalogue has the chosen value, or the baseline's; there is
    no other cell. *)
Lemma cell_normalized value catalog r a : catalog_ok catalog ->
  (listed catalog r a -> cell (normalizeAdminPermissions value catalog) r a = Some (granted value (roleGrants catalog ADMIN_ROLE_KEY) r a)) /\
  (~ listed catalog r a -> cell (normalizeAdminPermissions value catalog) r a = None).
Proof.
  intros Hc. unfold cell, normalizeAdminPermissions. set (b := roleGrants _ _).
  destruct (get_fold_set resource (resource_actions value b) r (resources catalog) []) as [H1 H2];
    [intros d d' Hd Hd' E; by rewrite (resource_unique catalog d d')|]. split.
  - intros (d & Hd & <- & Ha). rewrite (H1 d) by done. cbn. rewrite get_resource_actions. by rewrite bool_decide_eq_true_2.
  - intros Hn. destruct (decide (r ∈ map resource (resources catalog))) as [Hin|Hout].
    + apply list_elem_of_fmap in Hin as (d & -> & Hd). rewrite (H1 d) by done. cbn. rewrite get_resource_actions.
      rewrite bool_decide_eq_false_2; [done|]. intros Ha. apply Hn. by exists d.
    + rewrite H2; [done|]. intros d Hd <-. apply Hout. by apply list_elem_of_fmap_2.
Qed.

(** An action is allowed when it was chosen, or when nothing was chosen for it and
    the role of administrators grants it. *)
Definition allows (chosen : option AdminPermissionMatrix) (baseline : AdminPermissionMatrix) (r a : jsstr) : Prop :=
  let choice := m ← chosen; cell m r a in choice = Some true \/ choice = None /\ cell baseline r a = Some true.

Lemma granted_allows chosen baseline r a : granted chosen baseline r a = true <-> allows chosen baseline r a.
Proof.
  unfold granted, allows. destruct (m ← chosen; cell m r a) as [[]|]; [naive_solver.. |]. destruct (cell baseline r a) as [[]|]; naive_solver.
Qed.

(** C17.  A saved administrator has exactly the permissions the form showed: the matrix
    that is sent has a value for every action of the catalogue and no other, and a
    user with that matrix may do an action exactly when it was chosen, or nothing
    was chosen for it and the role of administrators grants it.  A user below the administrators is sent none, and
    normalising again changes nothing. *)
Theorem permissions_saved (data : UserFormValues) (userId : option num) (catalog : PermissionCatalog) (Hc : catalog_ok catalog) :
  let shown := normalizeAdminPermissions (admin_permissions data) catalog in
  (num_leb Navigation.ADMIN (form_role data userId) = true ->
     d_permissions (transformFormDataToPayload data userId (Some catalog)) = Some shown) /\
  (num_leb Navigation.ADMIN (form_role data userId) = false -> d_permissions (transformFormDataToPayload data userId (Some catalog)) = None) /\
  (forall r a, listed catalog r a <-> exists b, cell shown r a = Some b) /\
  (forall u r a, Navigation.admin_permissions u = Some shown -> (forall q, Navigation.role u = Some q -> num_eqb q Navigation.SUPER_ADMIN = false) ->
     (hasPermission (Some u) r a = true <-> listed catalog r a /\ allows (admin_permissions data) (roleGrants catalog ADMIN_ROLE_KEY) r a)) /\
  (forall r a, cell (normalizeAdminPermissions (Some shown) catalog) r a = cell shown r a).
Proof.
  intros shown. pose proof (fun r a => cell_normalized (admin_permissions data) catalog r a Hc) as C. fold shown in C.
  assert (L : forall r a, listed catalog r a \/ ~ listed catalog r a).
  { intros r a. destruct (decide (Exists (fun d => resource d = r /\ a ∈ map action (actions d)) (resources catalog))) as [H|H]; rewrite Exists_exists in H; [left|right];
      unfold listed; naive_solver. }
  split_and!.
  - intros H. unfold transformFormDataToPayload. rewrite H. by destruct userId.
  - intros H. unfold transformFormDataToPayload. rewrite H. by destruct userId.
  - intros r a. destruct (C r a) as [C1 C2]. split; [eauto|]. intros [b Hb]. destruct (L r a) as [?|Hn]; [done|]. by rewrite C2 in Hb.
  - intros u r a Hp Hr. unfold hasPermission. rewrite Hp. destruct (C r a) as [C1 C2].
    replace (match Navigation.role u with Some q => num_eqb q Navigation.SUPER_ADMIN | None => false end) with false
      by (destruct (Navigation.role u); [by rewrite Hr | done]).
    rewrite <- granted_allows. cbn [mbind option_bind]. rewrite bool_decide_eq_true. destruct (L r a) as [Hl|Hn]; [rewrite C1 by done | rewrite C2 by done].
    + split; [intros E; apply (inj Some) in E; done | by intros [_ ->]].
    + split; [done | by intros [? _]].
  - intros r a. destruct (C r a) as [C1 C2], (cell_normalized (Some shown) catalog r a Hc) as [D1 D2], (L r a) as [Hl|Hn].
    + rewrite D1, C1 by done. unfold granted at 1. cbn [mbind option_bind]. by rewrite C1.
    + by rewrite D2, C2.
Qed.

Definition example_catalog : PermissionCatalog :=
  mkCatalog [mkResource (js "channel") [] [mkAction (js "edit") [] []; mkAction (js "delete") [] []]]
    [mkRole (js "admin") [] true false [(js "channel", [(js "edit", true)])]].

Lemma permissions_saved_witness :
  d_permissions (transformFormDataToPayload
    (mkUserForm (js "ann") None None (Some Navigation.ADMIN) None None None (Some [(js "channel", [(js "delete", false)])])) (Some (num_of_Z 7)) (Some example_catalog)) =
  Some [(js "channel", [(js "edit", true); (js "delete", false)])].
Proof.
  destruct (permissions_saved (mkUserForm (js "ann") None None (Some Navigation.ADMIN) None None None (Some [(js "channel", [(js "delete", false)])]))
    (Some (num_of_Z 7)) example_catalog) as [H _]; [by apply (bool_decide_unpack _)|].
  rewrite H by (vm_compute; reflexivity). vm_compute. reflexivity.
Defined.
End Permissions.
