(* ===== verification/TableUrl.v ===== *)
(** * The state of a table and its address

    [hooks/use-table-url-state.ts]: every table of the client keeps its page, its
    filters and its search text in the address, and its page size in the browser
    storage too.  The router is modelled by what a navigation asks of it: the
    search parameters become the ones the function returns, without the
    [undefined] ones, and the effect of the hook runs when they are another
    object.  Tables give the hook a list of columns; [TableConfig] states what the
    hook needs of it, and the channel table ([channels-table.tsx]), which also
    remembers its status filter, provides it. *)
From stdpp Require Import relations.
From S2P Require Import Prelude JsString JsNumber JsNumberOrder Json JsObject.
Local Open Scope Z_scope.

Module TableUrl.

Abbreviation SearchRecord := members.
Abbreviation ColumnFiltersState := (list (jsstr * json)).

(** ** The stored page size *)
Definition PAGE_SIZE_STORAGE_KEY : jsstr := js "page-size".

(** [parseInt(s, 10)]; [None] is [NaN]. *)
Definition parseInt10 (s : jsstr) : option Z :=
  let s := trim_start s in
  let '(neg, r) := match s with 45 :: r => (true, r) | 43 :: r => (false, r) | _ => (false, s) end in
  match take_while is_digit r with [] => None | ds => Some (if neg then - parse_digits ds else parse_digits ds) end.

Definition getStoredPageSize (stored : option jsstr) : option num :=
  match parseInt10 (default [] stored) with Some n => if 0 <? n then Some (num_of_Z n) else None | None => None end.

Definition setStoredPageSize (size : num) : option jsstr := Some (num_to_string size).

(** ** The parameters of the hook *)
Record FilterConfig (Memory : Type) := mkConfig {
  columnId : jsstr; searchKey : jsstr;
  is_string : bool;  (** [type === 'string'] *)
  serialize : option (json -> option json);
  deserialize : option (Memory -> option json -> option json) }.
Arguments mkConfig {Memory}. Arguments columnId {Memory}. Arguments searchKey {Memory}. Arguments is_string {Memory}.
Arguments serialize {Memory}. Arguments deserialize {Memory}.

Record Params (Memory : Type) := mkParams {
  pageKey : jsstr; pageSizeKey : jsstr; defaultPage : num; defaultPageSize : num;
  globalFilterEnabled : bool; globalFilterKey : jsstr; trimGlobal : bool;
  columnFiltersCfg : list (FilterConfig Memory) }.
Arguments mkParams {Memory}. Arguments pageKey {Memory}. Arguments pageSizeKey {Memory}. Arguments defaultPage {Memory}. Arguments defaultPageSize {Memory}.
Arguments globalFilterEnabled {Memory}. Arguments globalFilterKey {Memory}. Arguments trimGlobal {Memory}. Arguments columnFiltersCfg {Memory}.

(** The state: the address, the filters and the text the hook keeps, the stored
    page size, and what a table remembers for its [deserialize] functions. *)
Record Table (Memory : Type) := mkTable {
  search : SearchRecord; columnFilters : ColumnFiltersState; globalFilter : option jsstr; storedSize : option jsstr; memory : Memory }.
Arguments mkTable {Memory}. Arguments search {Memory}. Arguments columnFilters {Memory}. Arguments globalFilter {Memory}. Arguments storedSize {Memory}. Arguments memory {Memory}.

(** [v ?? d] *)
Definition nullish (v : option json) (d : json) : json := match v with None | Some JNull => d | Some w => w end.

Section Hook.
Context {Memory : Type} (P : Params Memory).

(** The value of a column that filters: a text that is not blank, or an array
    that is not empty. *)
Definition filter_of (cfg : FilterConfig Memory) (v : json) : option json :=
  if is_string cfg then match v with JStr s => if bool_decide (trim s = []) then None else Some v | _ => None end
  else match v with JArr (_ :: _) => Some v | _ => None end.

Definition empty_of (cfg : FilterConfig Memory) : json := if is_string cfg then JStr [] else JArr [].

Definition read_value (cfg : FilterConfig Memory) (mem : Memory) (raw : option json) : option json :=
  filter_of cfg (nullish (match deserialize cfg with Some d => d mem raw | None => raw end) (empty_of cfg)).

Definition initialColumnFilters (mem : Memory) (s : SearchRecord) : ColumnFiltersState :=
  flat_map (fun cfg => match read_value cfg mem (map_get (searchKey cfg) s) with Some v => [(columnId cfg, v)] | None => [] end) (columnFiltersCfg P).

Definition initialGlobalFilter (s : SearchRecord) : option jsstr :=
  if globalFilterEnabled P then Some (match map_get (globalFilterKey P) s with Some (JStr t) => t | _ => [] end) else None.

(** The first render. *)
Definition open_table (mem : Memory) (stored : option jsstr) (s : SearchRecord) : Table Memory :=
  mkTable s (initialColumnFilters mem s) (initialGlobalFilter s) stored mem.

(** The effect that runs when the address has become another object. *)
Definition resync (t : Table Memory) : Table Memory := mkTable (search t) (initialColumnFilters (memory t) (search t)) (globalFilter t) (storedSize t) (memory t).

(** [navigate({ search: (prev) => ({ ...prev, ...updates }) })], on a route whose
    [validateSearch] passes on the parameters as they are. *)
Definition navigate (updates : list (jsstr * option json)) (t : Table Memory) : Table Memory :=
  mkTable (apply_updates updates (search t)) (columnFilters t) (globalFilter t) (storedSize t) (memory t).

Definition number_at (k : jsstr) (s : SearchRecord) : option num := match map_get k s with Some (JNum n) => Some n | _ => None end.

Definition pageNum (t : Table Memory) : num := default (defaultPage P) (number_at (pageKey P) (search t)).

(** [{ pageIndex, pageSize }] *)
Record PaginationState := mkPagination { pageIndex : num; pageSize : num }.

Definition pagination (t : Table Memory) : PaginationState :=
  mkPagination (num_max num_zero (num_sub (pageNum t) (num_of_Z 1)))
    (match number_at (pageSizeKey P) (search t) with Some n => n | None => default (defaultPageSize P) (getStoredPageSize (storedSize t)) end).

Definition onPaginationChange (next : PaginationState) (t : Table Memory) : Table Memory :=
  let nextPage := num_add (pageIndex next) (num_of_Z 1) in
  let stored := if num_eqb (pageSize next) (pageSize (pagination t)) then storedSize t else setStoredPageSize (pageSize next) in
  navigate [(pageKey P, if num_leb nextPage (defaultPage P) then None else Some (JNum nextPage)); (pageSizeKey P, Some (JNum (pageSize next)))]
    (mkTable (search t) (columnFilters t) (globalFilter t) stored (memory t)).

Definition onGlobalFilterChange (next : jsstr) (t : Table Memory) : Table Memory :=
  if globalFilterEnabled P then
    let value := if trimGlobal P then trim next else next in
    navigate [(pageKey P, None); (globalFilterKey P, match value with [] => None | _ => Some (JStr value) end)]
      (mkTable (search t) (columnFilters t) (Some value) (storedSize t) (memory t))
  else t.

(** The value of a column among the filters of the table. *)
Definition found (cfg : FilterConfig Memory) (next : ColumnFiltersState) : option json := snd <$> List.find (fun f => bool_decide (f.1 = columnId cfg)) next.
Definition chosen (cfg : FilterConfig Memory) (next : ColumnFiltersState) : option json := v ← found cfg next; filter_of cfg v.

Definition encode (cfg : FilterConfig Memory) (v : option json) : option json :=
  match v with Some v => match serialize cfg with Some f => f v | None => Some v end | None => None end.

Definition patch (next : ColumnFiltersState) : list (jsstr * option json) :=
  map (fun cfg => (searchKey cfg, encode cfg (chosen cfg next))) (columnFiltersCfg P).

Definition onColumnFiltersChange (next : ColumnFiltersState) (t : Table Memory) : Table Memory :=
  navigate ((pageKey P, None) :: patch next) (mkTable (search t) next (globalFilter t) (storedSize t) (memory t)).

Definition ensurePageInRange (pageCount : num) (resetToLast : bool) (t : Table Memory) : Table Memory :=
  if num_ltb num_zero pageCount && num_ltb pageCount (pageNum t)
  then navigate [(pageKey P, if resetToLast then Some (JNum pageCount) else None)] t
  else t.

(** What the hook returns. *)
Definition shownGlobalFilter (t : Table Memory) : option jsstr := if globalFilterEnabled P then Some (default [] (globalFilter t)) else None.

(** A table may note the filters before it passes them on. *)
Context (remember : ColumnFiltersState -> Memory -> Memory).

Definition changeFilters (next : ColumnFiltersState) (t : Table Memory) : Table Memory :=
  onColumnFiltersChange next (mkTable (search t) (columnFilters t) (globalFilter t) (storedSize t) (remember next (memory t))).

(** After a handler has run, the effect runs when the address is another object;
    an unchanged address may be the same object or a new one. *)
Inductive settled (before after : Table Memory) : Table Memory -> Prop :=
  | settled_synced : settled before after (resync after)
  | settled_same : search after = search before -> settled before after after.

Inductive step (t : Table Memory) : Table Memory -> Prop :=
  | step_page next t' : settled t (onPaginationChange next t) t' -> step t t'
  | step_text next t' : settled t (onGlobalFilterChange next t) t' -> step t t'
  | step_columns next t' : settled t (changeFilters next t) t' -> step t t'
  | step_range count last t' : settled t (ensurePageInRange count last t) t' -> step t t'
  | step_address s : NoDup (map_keys s) -> step t (resync (mkTable s (columnFilters t) (globalFilter t) (storedSize t) (memory t))).

(** What the hook needs of a table. *)
Class TableConfig : Prop := {
  ids_distinct : NoDup (map columnId (columnFiltersCfg P));
  keys_distinct : NoDup (map searchKey (columnFiltersCfg P));
  keys_apart : forall cfg, cfg ∈ columnFiltersCfg P -> searchKey cfg ∉ [pageKey P; pageSizeKey P; globalFilterKey P];
  page_apart : pageKey P <> pageSizeKey P /\ pageKey P <> globalFilterKey P;
  reads_back : forall cfg next mem, cfg ∈ columnFiltersCfg P ->
    read_value cfg (remember next mem) (encode cfg (chosen cfg next)) = chosen cfg next }.

(** ** The filters and the address *)
Lemma filter_of_same cfg v w : filter_of cfg v = Some w -> w = v.
Proof. unfold filter_of. destruct (is_string cfg), v as [| | | |[|]|]; try done; repeat case_bool_decide; by intros [= <-]. Qed.

Lemma filter_of_twice cfg v w : filter_of cfg v = Some w -> filter_of cfg w = Some w.
Proof. intros H. by rewrite (filter_of_same _ _ _ H) in H |- *. Qed.

Lemma found_none cfg (l : ColumnFiltersState) : columnId cfg ∉ map fst l -> found cfg l = None.
Proof.
  unfold found. induction l as [|[k v] l IH]; [done|]. cbn. intros [Hk Hl]%not_elem_of_cons. rewrite bool_decide_eq_false_2 by done. by apply IH.
Qed.

Lemma chosen_flat (rd : FilterConfig Memory -> option json) cfgs cfg :
  (forall c v, rd c = Some v -> filter_of c v = Some v) -> NoDup (map columnId cfgs) -> cfg ∈ cfgs ->
  chosen cfg (flat_map (fun c => match rd c with Some v => [(columnId c, v)] | None => [] end) cfgs) = rd cfg.
Proof.
  intros Hr. set (l := flat_map _). assert (Hids : forall k cs, k ∈ map fst (l cs) -> k ∈ map columnId cs).
  { intros k cs. induction cs as [|c cs IH]; [done|]. subst l. cbn. destruct (rd c); cbn; set_solver. }
  induction cfgs as [|c cfgs IH]; intros Hn Hc; [by apply not_elem_of_nil in Hc|]. cbn in Hn. apply NoDup_cons in Hn as [Hc1 Hn].
  apply elem_of_cons in Hc as [->|Hc].
  - subst l. cbn. destruct (rd c) as [v|] eqn:E; unfold chosen, found; cbn.
    + rewrite bool_decide_eq_true_2 by done. cbn. by apply Hr.
    + fold (found c (flat_map (fun c => match rd c with Some v => [(columnId c, v)] | None => [] end) cfgs)). rewrite found_none; [done|]. contradict Hc1. by apply Hids.
  - rewrite <- (IH Hn Hc). subst l. cbn. destruct (rd c) as [v|]; [|done]. unfold chosen, found. cbn. rewrite bool_decide_eq_false_2; [done|].
    intros E. apply Hc1. rewrite E. apply list_elem_of_In, in_map, list_elem_of_In, Hc.
Qed.

Definition follows (t : Table Memory) : Prop :=
  NoDup (map_keys (search t)) /\
  forall cfg, cfg ∈ columnFiltersCfg P -> chosen cfg (columnFilters t) = read_value cfg (memory t) (map_get (searchKey cfg) (search t)).

Context `{!TableConfig}.

Lemma follows_initial mem s cfg : cfg ∈ columnFiltersCfg P -> chosen cfg (initialColumnFilters mem s) = read_value cfg mem (map_get (searchKey cfg) s).
Proof.
  intros Hc. apply (chosen_flat (fun c => read_value c mem (map_get (searchKey c) s))); [|apply ids_distinct|done].
  intros c v Hv. by eapply filter_of_twice.
Qed.

Lemma follows_resync t : NoDup (map_keys (search t)) -> follows (resync t).
Proof. intros Hn. split; [done|]. intros cfg Hc. by apply follows_initial. Qed.

Lemma keys_navigate us t : NoDup (map_keys (search t)) -> NoDup (map_keys (search (navigate us t))).
Proof. apply keys_apply_updates. Qed.

(** A handler that leaves the filters alone. *)
Lemma follows_settled t t1 t2 : follows t -> NoDup (map_keys (search t1)) -> columnFilters t1 = columnFilters t -> memory t1 = memory t ->
  settled t t1 t2 -> follows t2.
Proof.
  intros [_ Hf] Hn Ec Em [|Es]; [by apply follows_resync|]. split; [done|]. intros cfg Hc. by rewrite Ec, Em, Es, Hf.
Qed.

Lemma keys_of_patch next : map_keys (patch next) = map searchKey (columnFiltersCfg P).
Proof. unfold map_keys, patch. rewrite map_map. done. Qed.

(** What a change of the filters leaves in the address. *)
Lemma get_changed next t cfg : NoDup (map_keys (search t)) -> cfg ∈ columnFiltersCfg P ->
  map_get (searchKey cfg) (search (changeFilters next t)) = encode cfg (chosen cfg next).
Proof.
  intros Hn Hc. unfold changeFilters, onColumnFiltersChange, navigate. cbn [search].
  assert (Hp : pageKey P ∉ map searchKey (columnFiltersCfg P)).
  { intros (c & E & Hin)%list_elem_of_In%in_map_iff. apply list_elem_of_In in Hin. pose proof (keys_apart c Hin) as Ha. rewrite E in Ha. set_solver. }
  rewrite get_apply_updates; [|done|]; cycle 1.
  { change (NoDup (pageKey P :: map_keys (patch next))). apply NoDup_cons. rewrite keys_of_patch. split; [done | apply keys_distinct]. }
  cbn [map_get]. rewrite bool_decide_eq_false_2; [|intros E; apply Hp; rewrite <- E; by apply list_elem_of_In, in_map, list_elem_of_In].
  assert (Hg : forall cfgs, NoDup (map searchKey cfgs) -> cfg ∈ cfgs -> map_get (searchKey cfg) (map (fun c => (searchKey c, encode c (chosen c next))) cfgs) = Some (encode cfg (chosen cfg next))).
  { intros cfgs. induction cfgs as [|c cfgs IH]; intros Hd Hin; [by apply not_elem_of_nil in Hin|]. cbn in Hd. apply NoDup_cons in Hd as [Hd1 Hd]. cbn [map map_get].
    apply elem_of_cons in Hin as [->|Hin]; [by rewrite bool_decide_eq_true_2 by done|]. rewrite bool_decide_eq_false_2; [by apply IH|].
    intros E. apply Hd1. rewrite <- E. by apply list_elem_of_In, in_map, list_elem_of_In. }
  unfold patch. by rewrite (Hg _ keys_distinct Hc).
Qed.

Lemma changed_reads next t cfg : NoDup (map_keys (search t)) -> cfg ∈ columnFiltersCfg P ->
  read_value cfg (memory (changeFilters next t)) (map_get (searchKey cfg) (search (changeFilters next t))) = chosen cfg next.
Proof. intros Hn Hc. rewrite get_changed by done. by apply reads_back. Qed.

Lemma follows_changed next t t2 : NoDup (map_keys (search t)) -> settled t (changeFilters next t) t2 ->
  follows t2 /\ forall cfg, cfg ∈ columnFiltersCfg P -> chosen cfg (columnFilters t2) = chosen cfg next.
Proof.
  intros Hn Hs. assert (Hk : NoDup (map_keys (search (changeFilters next t)))) by (by apply keys_navigate).
  destruct Hs as [|Es].
  - split; [by apply follows_resync|]. intros cfg Hc. change (columnFilters (resync (changeFilters next t))) with (initialColumnFilters (memory (changeFilters next t)) (search (changeFilters next t))). rewrite follows_initial by done. by apply changed_reads.
  - split; [|done]. split; [done|]. intros cfg Hc. rewrite changed_reads by done. done.
Qed.

Lemma follows_step t t' : step t t' -> follows t -> follows t'.
Proof.
  intros Hs [Hn Hf]. destruct Hs as [next t' Hs|next t' Hs|next t' Hs|count last t' Hs|s Hs].
  - eapply follows_settled; [by split | | | | exact Hs]; [by apply keys_navigate | done..].
  - unfold onGlobalFilterChange in Hs. destruct (globalFilterEnabled P); (eapply follows_settled; [by split | | | | exact Hs]); try done. by apply keys_navigate.
  - by eapply follows_changed.
  - unfold ensurePageInRange in Hs. destruct (_ && _); (eapply follows_settled; [by split | | | | exact Hs]); try done. by apply keys_navigate.
  - by apply follows_resync.
Qed.

Lemma follows_reachable mem stored s t : NoDup (map_keys s) -> rtc step (open_table mem stored s) t -> follows t.
Proof.
  intros Hs Hr. assert (H0 : follows (open_table mem stored s)) by (split; [done|]; intros; by apply follows_initial).
  induction Hr as [|t t1 t2 H1 _ IH]; [done|]. apply IH. by eapply follows_step.
Qed.

(** C7.  In every state that the handlers, the address bar and the effect can lead to,
    the active filters of the configured columns are the ones of the address; a
    change of the filters is what the table shows once the effect has run. *)
Theorem filters_follow_url mem stored s t next t' :
  NoDup (map_keys s) -> rtc step (open_table mem stored s) t -> settled t (changeFilters next t) t' ->
  (forall cfg, cfg ∈ columnFiltersCfg P -> chosen cfg (columnFilters t) = read_value cfg (memory t) (map_get (searchKey cfg) (search t))) /\
  (forall cfg, cfg ∈ columnFiltersCfg P -> chosen cfg (columnFilters t') = chosen cfg next).
Proof.
  intros Hs Hr Hset. pose proof (follows_reachable _ _ _ _ Hs Hr) as [Hn Hf]. split; [done|]. by apply (follows_changed next t t').
Qed.
End Hook.

(** ** Pages *)
Section Pages.
Context {Memory : Type} (P : Params Memory).

Lemma pageNum_navigate us t : NoDup (map_keys (search t)) -> NoDup (map_keys us) ->
  pageNum P (navigate us t) = match map_get (pageKey P) us with Some (Some (JNum n)) => n | Some _ => defaultPage P | None => pageNum P t end.
Proof.
  intros Ht Hu. unfold pageNum, number_at, navigate. cbn [search]. rewrite get_apply_updates by done. destruct (map_get (pageKey P) us) as [[[]|]|]; done.
Qed.

Lemma ltb_irrefl x : is_double x = true -> num_is_finite x = true -> num_ltb x x = false.
Proof. intros. rewrite num_ltb_units by done. apply Z.ltb_irrefl. Qed.

(** An index whose page number is exact. *)
Definition exact_index (i : num) : Prop :=
  num_ltb num_zero i = true /\ num_leb (num_add i (num_of_Z 1)) (defaultPage P) = false /\ num_sub (num_add i (num_of_Z 1)) (num_of_Z 1) = i.

Lemma page_shown t i n : NoDup (map_keys (search t)) -> pageKey P <> pageSizeKey P -> exact_index i ->
  pagination P (onPaginationChange P (mkPagination i n) t) = mkPagination i n.
Proof.
  intros Ht Hk (Hi & Hl & He). unfold pagination at 1. unfold onPaginationChange. cbn [pageIndex pageSize].
  assert (Hd : forall a b : option json, NoDup (map_keys [(pageKey P, a); (pageSizeKey P, b)])).
  { intros a b. change (NoDup [pageKey P; pageSizeKey P]). apply NoDup_cons. split; [set_solver | apply NoDup_singleton]. }
  rewrite pageNum_navigate by done. unfold number_at, navigate. cbn [search map_get]. rewrite get_apply_updates by done. cbn [map_get].
  rewrite (bool_decide_eq_true_2 (pageKey P = pageKey P)), (bool_decide_eq_false_2 (pageSizeKey P = pageKey P)), (bool_decide_eq_true_2 (pageSizeKey P = pageSizeKey P)) by done.
  rewrite Hl, He. unfold num_max. by rewrite Hi.
Qed.

(** After the rows are known, the page is brought into the range of the pages in
    one step, and asking again changes nothing. *)
Theorem range_settles count last t : NoDup (map_keys (search t)) -> is_double count = true -> num_is_finite count = true -> num_ltb count (defaultPage P) = false ->
  let t' := ensurePageInRange P count last t in
  (num_ltb num_zero count = true -> num_ltb count (pageNum P t') = false) /\ forall last', ensurePageInRange P count last' t' = t'.
Proof.
  intros Ht Dc Fc Hd. cbn zeta. assert (H : num_ltb num_zero count = true -> num_ltb count (pageNum P (ensurePageInRange P count last t)) = false).
  { intros Hc. unfold ensurePageInRange. rewrite Hc. cbn [andb]. destruct (num_ltb count (pageNum P t)) eqn:E; [|done].
    rewrite pageNum_navigate by (done || apply NoDup_singleton). cbn [map_get]. rewrite bool_decide_eq_true_2 by done. destruct last; [by apply ltb_irrefl | done]. }
  split; [done|]. intros last'. unfold ensurePageInRange at 1. destruct (num_ltb num_zero count) eqn:Hc; [|done]. by rewrite H.
Qed.

(** The page sizes a menu can offer. *)
Lemma sizes_read_back : forallb (fun k => match parseInt10 (num_to_string (num_of_Z k)) with Some n => n =? k | None => false end) (seqZ 1 500) = true.
Proof. vm_compute. reflexivity. Qed.

Lemma stored_size k : 1 <= k <= 500 -> getStoredPageSize (setStoredPageSize (num_of_Z k)) = Some (num_of_Z k).
Proof.
  intros Hk. unfold getStoredPageSize, setStoredPageSize. cbn [default]. pose proof sizes_read_back as H. rewrite List.forallb_forall in H.
  specialize (H k). destruct (parseInt10 _) as [n|] eqn:E.
  - assert (n = k) as -> by (apply Z.eqb_eq, H, list_elem_of_In, elem_of_seqZ; lia). destruct (Z.ltb_spec 0 k); [done|lia].
  - assert (false = true); [apply H, list_elem_of_In, elem_of_seqZ; lia | done].
Qed.

(** The page and the size that are chosen are shown, and a table opened later
    without a size in its address shows the size that was chosen. *)
Theorem pages_kept t i k : NoDup (map_keys (search t)) -> pageKey P <> pageSizeKey P -> exact_index i -> 1 <= k <= 500 ->
  let t' := onPaginationChange P (mkPagination i (num_of_Z k)) t in
  pagination P t' = mkPagination i (num_of_Z k) /\
  (num_eqb (num_of_Z k) (pageSize (pagination P t)) = false ->
   forall mem s, map_get (pageSizeKey P) s = None -> pageSize (pagination P (open_table P mem (storedSize t') s)) = num_of_Z k).
Proof.
  intros Ht Hk Hi Hs. cbn zeta. split; [by apply page_shown|]. intros Hne mem s Hn. unfold onPaginationChange. cbn [pageSize]. rewrite Hne.
  unfold pagination, number_at, open_table, navigate. cbn [storedSize search pageSize]. by rewrite Hn, stored_size.
Qed.

End Pages.

(** ** The tables *)
Section Plain.
Context {Memory : Type}.

(** A column without functions of its own reads back what it wrote. *)
Lemma plain_reads cfg (mem : Memory) next : serialize cfg = None -> deserialize cfg = None -> read_value cfg mem (encode cfg (chosen cfg next)) = chosen cfg next.
Proof.
  intros Es Ed. unfold read_value, encode. rewrite Es, Ed. unfold chosen. destruct (found cfg next) as [v|]; cbn; [|by destruct (is_string cfg) eqn:E; unfold filter_of, empty_of; rewrite E].
  destruct (filter_of cfg v) as [w|] eqn:E; cbn; [|by destruct (is_string cfg) eqn:E'; unfold filter_of, empty_of; rewrite E'].
  pose proof (filter_of_twice _ _ _ E). destruct w; try done. by unfold filter_of in E; destruct (is_string cfg), v as [| | | |[|]|]; repeat case_bool_decide.
Qed.
End Plain.

(** *** The channel table *)
Definition CHANNELS_STATUS_FILTER_STORAGE_KEY : jsstr := js "channel-status-filter".

Definition status_deserialize (stored : option jsstr) (value : option json) : option json :=
  match value with
  | Some v => Some v
  | None => Some (JArr (if bool_decide (stored = Some (js "enabled")) || bool_decide (stored = Some (js "disabled")) then [JStr (default [] stored)] else []))
  end.

Definition channel_columns : list (FilterConfig (option jsstr)) :=
  [mkConfig (js "status") (js "status") false None (Some status_deserialize); mkConfig (js "type") (js "type") false None None;
   mkConfig (js "group") (js "group") false None None; mkConfig (js "model") (js "model") true None None].

Definition channels_table (isMobile : bool) : Params (option jsstr) :=
  mkParams (js "page") (js "pageSize") (num_of_Z 1) (num_of_Z (if isMobile then 10 else 20)) true (js "filter") true channel_columns.

(** [status?.[0] ?? 'all'] of an array of texts. *)
Definition remember_status (next : ColumnFiltersState) (stored : option jsstr) : option jsstr :=
  Some (match snd <$> List.find (fun f => bool_decide (f.1 = js "status")) next with Some (JArr (JStr s :: _)) => s | _ => js "all" end).

Definition handleColumnFiltersChange : bool -> ColumnFiltersState -> Table (option jsstr) -> Table (option jsstr) :=
  fun isMobile => changeFilters (channels_table isMobile) remember_status.

#[export] Instance channels_config isMobile : TableConfig (channels_table isMobile) remember_status.
Proof.
  split.
  - apply (bool_decide_unpack _). vm_compute. exact I.
  - apply (bool_decide_unpack _). vm_compute. exact I.
  - intros cfg Hc. cbn in Hc. repeat (apply elem_of_cons in Hc as [->|Hc]; [apply (bool_decide_unpack _); vm_compute; exact I|]). by apply not_elem_of_nil in Hc.
  - by split.
  - intros cfg next mem Hc. cbn in Hc. apply elem_of_cons in Hc as [->|Hc].
    + unfold chosen, found. cbn [columnId]. unfold remember_status.
      destruct (snd <$> _) as [v|]; [|done]. cbn. destruct v as [| | | |[|x l]|]; done.
    + repeat (apply elem_of_cons in Hc as [->|Hc]; [by apply plain_reads|]). by apply not_elem_of_nil in Hc.
Qed.

Definition sample_table : Table (option jsstr) := open_table (channels_table false) (Some (js "enabled")) None [].

(** The remembered status is applied at once; clearing it clears it for good. *)
Lemma filters_follow_url_witness :
  columnFilters sample_table = [(js "status", JArr [JStr (js "enabled")])] /\
  chosen (mkConfig (js "status") (js "status") false None (Some status_deserialize))
    (columnFilters (resync (channels_table false) (handleColumnFiltersChange false [(js "model", JStr (js "gpt"))] sample_table))) = None.
Proof.
  split; [vm_compute; reflexivity|].
  rewrite (proj2 (filters_follow_url (channels_table false) remember_status (Some (js "enabled")) None [] sample_table [(js "model", JStr (js "gpt"))] _
    NoDup_nil_2 (rtc_refl _ _) (settled_synced _ _ _))); [reflexivity | by left].
Defined.

Lemma pages_kept_witness :
  pagination (channels_table false) (onPaginationChange (channels_table false) (mkPagination (num_of_Z 4) (num_of_Z 50)) sample_table) = mkPagination (num_of_Z 4) (num_of_Z 50).
Proof.
  refine (proj1 (pages_kept (channels_table false) sample_table (num_of_Z 4) 50 _ _ _ _)); [apply NoDup_nil_2 | done | by split_and!; vm_compute | lia].
Defined.

Lemma range_settles_witness :
  num_ltb (num_of_Z 3) (pageNum (channels_table false) (ensurePageInRange (channels_table false) (num_of_Z 3) true
    (onPaginationChange (channels_table false) (mkPagination (num_of_Z 4) (num_of_Z 50)) sample_table))) = false.
Proof.
  refine (proj1 (range_settles (channels_table false) (num_of_Z 3) true _ _ _ _ _) _); try (vm_compute; reflexivity).
  apply keys_apply_updates. apply NoDup_nil_2.
Defined.

(** The text of the search box is read from the address once: after the address
    has changed, by the back button say, the table filters by the old text. *)
Theorem global_filter_stale : exists t, rtc (step (channels_table false) remember_status) (open_table (channels_table false) None None []) t /\
  shownGlobalFilter (channels_table false) t = Some (js "gpt") /\ initialGlobalFilter (channels_table false) (search t) = Some [].
Proof.
  eexists. split; [|split].
  - eapply rtc_l; [apply (step_text _ _ _ (js "gpt")), settled_synced|]. eapply rtc_once, (step_address _ _ _ []), NoDup_nil_2.
  - vm_compute. reflexivity.
  - reflexivity.
Qed.
End TableUrl.
