(* ===== verification/Currency.v ===== *)
(** * Currencies, quotas and colours

    Amounts are kept as quota units and shown in the currency the administrator
    chose ([lib/currency.ts], the quota functions and colours of [lib/format.ts],
    the configuration of [stores/system-config-store.ts] as
    [hooks/use-system-config.ts] reads it from the server's status).  The
    formatter of the browser, [Intl.NumberFormat], is a parameter. *)
From Stdlib Require Import Reals Lra.
From S2P Require Import Prelude JsString JsNumber JsNumberOrder JsNumberRound Json JsObject.
Local Open Scope Z_scope.

Module Currency.

(** ** Configuration *)
Record CurrencyConfig := mkCurrency {
  displayInCurrency : bool; quotaDisplayType : jsstr; quotaPerUnit : num; usdExchangeRate : num;
  customCurrencySymbol : jsstr; customCurrencyExchangeRate : num }.

Definition DEFAULT_CURRENCY_CONFIG : CurrencyConfig :=
  mkCurrency true (js "USD") (num_of_Z 500000) (num_of_Z 1) [164] (num_of_Z 1).

Definition toNumber (value : option json) (fallback : num) : num :=
  match value with
  | Some (JNum n) => if num_is_nan n then fallback else n
  | Some (JStr s) => let parsed := num_of_string s in if num_is_nan parsed then fallback else parsed
  | _ => fallback
  end.

(** [v ?? d]; the status is typed as the interface says. *)
Definition text_member (k : jsstr) (data : json) : option jsstr := match member k data with Some (JStr s) => Some s | _ => None end.

(** [s?.trim() || d] *)
Definition trim_or (s : option jsstr) (d : jsstr) : jsstr := match trim <$> s with Some (c :: r) => c :: r | _ => d end.

(** The currency part of [mapStatusDataToConfig]. *)
Definition mapStatusDataToConfig (data : json) : CurrencyConfig :=
  mkCurrency (match member (js "display_in_currency") data with Some (JBool b) => b | _ => displayInCurrency DEFAULT_CURRENCY_CONFIG end)
    (default (quotaDisplayType DEFAULT_CURRENCY_CONFIG) (text_member (js "quota_display_type") data))
    (toNumber (member (js "quota_per_unit") data) (quotaPerUnit DEFAULT_CURRENCY_CONFIG))
    (toNumber (member (js "usd_exchange_rate") data) (usdExchangeRate DEFAULT_CURRENCY_CONFIG))
    (trim_or (text_member (js "custom_currency_symbol") data) (customCurrencySymbol DEFAULT_CURRENCY_CONFIG))
    (toNumber (member (js "custom_currency_exchange_rate") data) (customCurrencyExchangeRate DEFAULT_CURRENCY_CONFIG)).

(** [x && x > 0 ? x : d] *)
Definition positive_or (x d : num) : num := if num_truthy x && num_ltb num_zero x then x else d.

Definition getConfig (store : option CurrencyConfig) : CurrencyConfig :=
  let currency := default DEFAULT_CURRENCY_CONFIG store in
  mkCurrency (displayInCurrency currency) (quotaDisplayType currency)
    (positive_or (quotaPerUnit currency) (quotaPerUnit DEFAULT_CURRENCY_CONFIG))
    (positive_or (usdExchangeRate currency) (usdExchangeRate DEFAULT_CURRENCY_CONFIG))
    (trim_or (Some (customCurrencySymbol currency)) (customCurrencySymbol DEFAULT_CURRENCY_CONFIG))
    (positive_or (customCurrencyExchangeRate currency) (customCurrencyExchangeRate DEFAULT_CURRENCY_CONFIG)).

Inductive DisplayMeta :=
| MetaCurrency (symbol currencyCode : jsstr) (exchangeRate : num)
| MetaCustom (symbol : jsstr) (exchangeRate : num)
| MetaTokens (perUnit : num).

Definition getDisplayMeta (config : CurrencyConfig) : DisplayMeta :=
  if bool_decide (quotaDisplayType config = js "CNY") then MetaCurrency [165] (js "CNY") (usdExchangeRate config)
  else if bool_decide (quotaDisplayType config = js "CUSTOM") then MetaCustom (customCurrencySymbol config) (customCurrencyExchangeRate config)
  else if bool_decide (quotaDisplayType config = js "TOKENS") then MetaTokens (quotaPerUnit config)
  else MetaCurrency (js "$") (js "USD") (num_of_Z 1).

Definition getBillingDisplayMeta (config : CurrencyConfig) : DisplayMeta :=
  match getDisplayMeta config with
  | MetaTokens _ => MetaCurrency (js "$") (js "USD") (num_of_Z 1)
  | meta => meta
  end.

Definition isCurrencyDisplayType (value : json) : bool :=
  match value with JStr s => bool_decide (s ∈ [js "USD"; js "CNY"; js "TOKENS"; js "CUSTOM"]) | _ => false end.

Definition getCurrencyLabel (store : option CurrencyConfig) : jsstr :=
  let config := getConfig store in
  match getDisplayMeta config with
  | MetaTokens _ => js "Tokens"
  | meta =>
      if bool_decide (quotaDisplayType config = js "CNY") then js "CNY"
      else if bool_decide (quotaDisplayType config = js "CUSTOM") then match meta with MetaCustom symbol _ => symbol | _ => js "Custom" end
      else js "USD"
  end.

Definition isCurrencyDisplayEnabled (store : option CurrencyConfig) : bool :=
  match getDisplayMeta (getConfig store) with MetaTokens _ => false | _ => true end.

(** ** Quota units *)
Definition metaRate (meta : DisplayMeta) : num :=
  match meta with MetaCurrency _ _ r | MetaCustom _ r => r | MetaTokens _ => num_of_Z 1 end.

Definition parseQuotaFromDollars (store : option CurrencyConfig) (amount : num) : num :=
  if negb (num_is_finite amount) then num_zero
  else let config := getConfig store in
       match getDisplayMeta config with
       | MetaTokens _ => num_round amount
       | meta =>
           let exchangeRate := metaRate meta in
           let usdAmount := if num_ltb num_zero exchangeRate then num_div amount exchangeRate else amount in
           num_round (num_mul usdAmount (quotaPerUnit config))
       end.

Definition quotaUnitsToDollars (store : option CurrencyConfig) (units : num) : num :=
  let config := getConfig store in
  match getDisplayMeta config with
  | MetaTokens _ => units
  | meta => num_mul (num_div units (quotaPerUnit config)) (metaRate meta)
  end.

(** ** Formatting *)
Record FormatOptions := mkFormat {
  digitsLarge : Z; digitsSmall : Z; abbreviate : bool; minimumNonZero : num; compact : bool; showSymbol : bool }.

Definition DEFAULT_FORMAT_OPTIONS : FormatOptions := mkFormat 2 4 true num_zero false true.

(** The text up to the last dot, and the text after it. *)
Definition split_last_dot (s : jsstr) : option (jsstr * jsstr) :=
  let r := rev s in
  let tail := take_while (fun c => negb (c =? dot)) r in
  match drop (length tail) r with
  | _ :: front => Some (rev front, rev tail)
  | [] => None
  end.

(** The first pattern matches at the last dot, when digits that end with a zero
    follow it, and takes all the zeros at the end. *)
Definition removeTrailingZeros (str : jsstr) : jsstr :=
  match split_last_dot str with
  | None => str
  | Some (a, b) =>
      if forallb is_digit b then
        match rev (drop_while (fun c => c =? 48) (rev b)) with
        | [] => a
        | digits => a ++ [dot] ++ digits
        end
      else str
  end.

Definition formatNumberWithSuffix (value : num) (large small : Z) (abbr : bool) : jsstr :=
  let abs := num_abs value in
  if abbr && num_leb (num_of_Z 1000) abs then removeTrailingZeros (num_to_fixed 1 (num_div value (num_of_Z 1000))) ++ js "k"
  else removeTrailingZeros (num_to_fixed (if num_leb (num_of_Z 1) abs then large else small) value).

(** [Math.pow(10, -digits)] *)
Definition tenth_power (digits : Z) : num := num_of_dec 1 (- digits).

Definition minimum_threshold (digits : Z) (minimum : num) : num := if num_ltb num_zero minimum then minimum else tenth_power digits.

Definition adjustForMinimum (value : num) (digits : Z) (minimum : num) : num :=
  if num_eqb value num_zero then value
  else let threshold := minimum_threshold digits minimum in
       let abs := num_abs value in
       if num_ltb num_zero abs && num_ltb abs threshold then (if num_ltb num_zero value then threshold else num_opp threshold) else value.

Section Formatting.
(** The formatter for a currency code, the compact notation and a limit on the
    fraction digits. *)
Context (format : option jsstr -> bool -> Z -> num -> jsstr).

Definition valueDigits (value : num) (options : FormatOptions) : Z :=
  if num_leb (num_of_Z 1) (num_abs value) then digitsLarge options else digitsSmall options.

Definition formatCurrencyValue (value : num) (options : FormatOptions) (meta : DisplayMeta) : jsstr :=
  let digits := valueDigits value options in
  let adjustedValue := adjustForMinimum value digits (minimumNonZero options) in
  let maximum := if compact options then 1 else digits in
  match meta with
  | MetaTokens _ =>
      if compact options then format None true 1 value
      else formatNumberWithSuffix value (digitsLarge options) (digitsSmall options) (abbreviate options)
  | MetaCurrency _ code _ =>
      if showSymbol options then format (Some code) (compact options) maximum adjustedValue else format None (compact options) maximum adjustedValue
  | MetaCustom symbol _ =>
      let decimal := format None (compact options) maximum adjustedValue in
      if showSymbol options then symbol ++ js " " ++ decimal else decimal
  end.

Definition formatCurrencyFromUSD (store : option CurrencyConfig) (amountUSD : option num) (options : FormatOptions) : jsstr :=
  match amountUSD with
  | None => js "-"
  | Some amount =>
      if num_is_nan amount then js "-"
      else let config := getConfig store in
           match getDisplayMeta config with
           | MetaTokens _ =>
               let tokens := num_mul amount (quotaPerUnit config) in
               if compact options then format None true 1 tokens else formatNumberWithSuffix tokens 0 (digitsSmall options) (abbreviate options)
           | meta => formatCurrencyValue (num_mul amount (metaRate meta)) options meta
           end
  end.

Definition formatBillingCurrencyFromUSD (store : option CurrencyConfig) (amountUSD : option num) (options : FormatOptions) : jsstr :=
  match amountUSD with
  | None => js "-"
  | Some amount =>
      if num_is_nan amount then js "-"
      else let meta := getBillingDisplayMeta (getConfig store) in
           formatCurrencyValue (match meta with MetaTokens _ => amount | _ => num_mul amount (metaRate meta) end) options meta
  end.

Definition formatQuotaWithCurrency (store : option CurrencyConfig) (quota : option num) (options : FormatOptions) : jsstr :=
  match quota with
  | None => js "-"
  | Some q => if num_is_nan q then js "-" else formatCurrencyFromUSD store (Some (num_div q (quotaPerUnit (getConfig store)))) options
  end.

Definition formatLocalCurrencyAmount (store : option CurrencyConfig) (amount : option num) (options : FormatOptions) : jsstr :=
  match amount with
  | None => js "-"
  | Some a => if num_is_nan a then js "-" else formatCurrencyValue a options (getBillingDisplayMeta (getConfig store))
  end.

Definition formatQuota (store : option CurrencyConfig) (quota : num) : jsstr :=
  formatQuotaWithCurrency store (Some quota) (mkFormat 2 4 true num_zero false true).

Definition formatLogQuota (store : option CurrencyConfig) (quota : num) : jsstr :=
  formatQuotaWithCurrency store (Some quota) (mkFormat 4 6 false num_zero false true).
End Formatting.

Definition formatTokens (tokens : num) : jsstr :=
  if num_eqb tokens num_zero then js "-"
  else if num_ltb tokens (num_of_Z 1000) then num_to_string tokens
  else if num_ltb tokens (num_of_Z 1000000) then num_to_fixed 1 (num_div tokens (num_of_Z 1000)) ++ js "K"
  else num_to_fixed 2 (num_div tokens (num_of_Z 1000000)) ++ js "M".

(** ** Colours *)

(** [ToInt32] *)
Definition to_int32 (z : Z) : Z := let w := z mod 2 ^ 32 in if w <? 2 ^ 31 then w else w - 2 ^ 32.

Definition hash_step (hash c : Z) : Z := to_int32 (c + (to_int32 (Z.shiftl hash 5) - hash)).

Definition string_hash (str : jsstr) : Z := fold_left hash_step str 0.

Definition color_parts (hash : Z) : Z * Z * Z :=
  (Z.abs (Z.rem hash 360), 65 + Z.rem (Z.abs hash) 10, 55 + Z.rem (Z.abs (Z.shiftr hash 8)) 10).

Definition stringToColor (str : jsstr) : jsstr :=
  match str with
  | [] => js "gray"
  | _ => let '(hue, saturation, lightness) := color_parts (string_hash str) in
         js "hsl(" ++ string_of_Z hue ++ js ", " ++ string_of_Z saturation ++ js "%, " ++ string_of_Z lightness ++ js "%)"
  end.

(** ** The configuration in force *)
Lemma positive_or_pos x d : num_ltb num_zero d = true -> num_ltb num_zero (positive_or x d) = true.
Proof. intros Hd. unfold positive_or. destruct (num_truthy x); [|done]. by destruct (num_ltb num_zero x) eqn:E. Qed.

Lemma config_positive store :
  num_ltb num_zero (quotaPerUnit (getConfig store)) = true /\ num_ltb num_zero (usdExchangeRate (getConfig store)) = true /\
  num_ltb num_zero (customCurrencyExchangeRate (getConfig store)) = true /\ num_ltb num_zero (metaRate (getDisplayMeta (getConfig store))) = true.
Proof.
  assert (P : forall x, num_ltb num_zero (positive_or x (num_of_Z 1)) = true) by (intros x; apply positive_or_pos; reflexivity).
  split; [apply positive_or_pos; reflexivity|]. split; [apply P|]. split; [apply P|].
  unfold getDisplayMeta. repeat case_bool_decide; cbn [metaRate]; try reflexivity; apply P.
Qed.

(** The amount shown for a whole number of units is read back as that number. *)
Lemma quota_units_back store units : 0 <= units <= 2 ^ 49 -> moderate (quotaPerUnit (getConfig store)) = true ->
  moderate (metaRate (getDisplayMeta (getConfig store))) = true ->
  parseQuotaFromDollars store (quotaUnitsToDollars store (num_of_Z units)) = num_of_Z units.
Proof.
  intros Hu Hq Hr. destruct (moderate_normal _ Hq) as (a & Ha & A), (moderate_normal _ Hr) as (b & Hb & B).
  pose proof (normal_positive _ _ Hb) as Pb. unfold parseQuotaFromDollars, quotaUnitsToDollars.
  destruct (decide (units = 0)) as [->|Hne].
  - destruct Ha as (ma & ea & Ea & _), Hb as (mb & eb & Eb & _). destruct (getDisplayMeta (getConfig store)); cbn [metaRate] in *; rewrite ?Ea, ?Eb; reflexivity.
  - destruct (getDisplayMeta (getConfig store)) eqn:Em; cbn [metaRate] in *;
      try (destruct (convert_out units _ _ a b ltac:(lia) Ha Hb A B) as (r & Nr & _); rewrite (normal_finite _ _ Nr); cbn [negb]; rewrite Pb; by apply convert_back; [lia|..]).
    pose proof (num_of_Z_normal units ltac:(lia)) as Nu. rewrite (normal_finite _ _ Nu). cbn [negb].
    apply (num_round_near _ _ units Nu); [lia|]. rewrite Rminus_diag, Rabs_R0. lra.
Qed.

(** C5.  Quota units survive the form: the amount shown for a whole number of units up
    to [2^49] is read back as that number, in tokens, dollars, yuan or a custom
    currency, with every rounding of the four operations on doubles. *)
Theorem quota_roundtrip (store : option CurrencyConfig) (units : Z) (Hu : 0 <= units <= 2 ^ 49)
    (Hq : moderate (quotaPerUnit (getConfig store)) = true) (Hr : moderate (metaRate (getDisplayMeta (getConfig store))) = true) :
  parseQuotaFromDollars store (quotaUnitsToDollars store (num_of_Z units)) = num_of_Z units.
Proof. by apply quota_units_back. Qed.

(** What is shown is zero only for no units. *)
Lemma quota_shown store units : 0 <= units <= 2 ^ 49 -> moderate (quotaPerUnit (getConfig store)) = true ->
  moderate (metaRate (getDisplayMeta (getConfig store))) = true ->
  let shown := quotaUnitsToDollars store (num_of_Z units) in shown = num_zero \/ num_truthy shown = true.
Proof.
  intros Hu Hq Hr. destruct (moderate_normal _ Hq) as (a & Ha & A), (moderate_normal _ Hr) as (b & Hb & B).
  unfold quotaUnitsToDollars. destruct (decide (units = 0)) as [->|Hne].
  - left. destruct Ha as (ma & ea & Ea & _), Hb as (mb & eb & Eb & _). destruct (getDisplayMeta (getConfig store)); cbn [metaRate] in *; rewrite ?Ea, ?Eb; reflexivity.
  - right. destruct (getDisplayMeta (getConfig store)); cbn [metaRate] in *;
      try (destruct (convert_out units _ _ a b ltac:(lia) Ha Hb A B) as (r & (m & e & E & _) & _); by rewrite E).
    destruct (num_of_Z_normal units ltac:(lia)) as (m & e & E & _). by rewrite E.
Qed.

Definition yuan : option CurrencyConfig := Some (mkCurrency true (js "CNY") (num_of_Z 500000) (num_of_string (js "7.3")) [] (num_of_Z 1)).

Lemma quota_roundtrip_witness : parseQuotaFromDollars yuan (quotaUnitsToDollars yuan (num_of_Z 1234567)) = num_of_Z 1234567.
Proof. apply quota_roundtrip; [lia | vm_compute; reflexivity..]. Defined.

(** ** Colours *)
Lemma to_int32_range z : - 2 ^ 31 <= to_int32 z < 2 ^ 31.
Proof. unfold to_int32. pose proof (Z.mod_pos_bound z (2 ^ 32) ltac:(lia)). destruct (Z.ltb_spec (z mod 2 ^ 32) (2 ^ 31)); lia. Qed.

(** C37.  Every string has a colour in range: the hash stays a 32-bit integer through
    every overflow, and hue, saturation and lightness stay within their bounds. *)
Theorem color_in_range (str : jsstr) :
  - 2 ^ 31 <= string_hash str < 2 ^ 31 /\
  let '(hue, saturation, lightness) := color_parts (string_hash str) in
  0 <= hue < 360 /\ 65 <= saturation < 75 /\ 55 <= lightness < 65.
Proof.
  assert (H : forall l h, - 2 ^ 31 <= h < 2 ^ 31 -> - 2 ^ 31 <= fold_left hash_step l h < 2 ^ 31).
  { induction l as [|c l IH]; intros h Hh; [done|]. apply IH, to_int32_range. }
  split; [apply H; lia|]. unfold color_parts. set (h := string_hash str).
  assert (A : forall z m, 0 < m -> 0 <= Z.rem (Z.abs z) m < m) by (intros z m Hm; apply Z.rem_bound_pos; lia).
  pose proof (A h 10 ltac:(lia)). pose proof (A (Z.shiftr h 8) 10 ltac:(lia)). pose proof (Z.rem_bound_abs h 360 ltac:(lia)). lia.
Qed.
End Currency.
