(* ===== verification/EntityForms.v ===== *)
(** * The forms of keys, redemption codes, plans and models

    Each form is filled from what the server stores and writes it back:
    [features/keys/lib/api-key-form.ts], [features/redemption-codes/lib/redemption-form.ts],
    [features/subscriptions/lib/plan-form.ts], [features/models/lib/model-form.ts] with the tags
    of [model-utils.ts].  Quotas pass through the currency that is shown
    ([Currency]).  Times are the server's whole seconds and the milliseconds of a
    [Date], as integers. *)
From Stdlib Require Import Reals Lra.
From S2P Require Import Prelude JsString JsNumber JsNumberOrder JsNumberRound Json JsonText JsObject ChannelGuards Permissions Currency.
Local Open Scope Z_scope.

Module EntityForms.
Import Currency.

(** [s || d] and [n || d], from the user form. *)
Abbreviation text_or := Permissions.text_or.
Abbreviation num_or := Permissions.num_or.

Section Forms.
Context (store : option CurrencyConfig).

(** A [Date] as its time value, [new Date(seconds * 1000)] and
    [Math.floor(date.getTime() / 1000)]. *)
Definition date_of_seconds (s : Z) : Z := s * 1000.
Definition seconds_of_date (d : Z) : Z := d / 1000.

(** ** Keys *)
Record ApiKeyFormValues := mkKeyForm {
  k_name : jsstr; remain_quota_dollars : option num; expired_date : option Z; unlimited_quota : bool; model_limits : list jsstr;
  allow_ips : option jsstr; k_group : option jsstr; cross_group_retry : option bool; tokenCount : option num }.

Record ApiKeyFormData := mkKeyData {
  kd_name : jsstr; kd_remain_quota : num; kd_expired_time : Z; kd_unlimited : bool; kd_limits_enabled : bool; kd_limits : jsstr;
  kd_allow_ips : jsstr; kd_group : jsstr; kd_retry : bool }.

(** What the form reads of a stored key. *)
Record ApiKey := mkKey {
  ak_name : jsstr; ak_remain_quota : num; ak_unlimited : bool; ak_expired_time : Z; ak_group : option jsstr; ak_retry : bool;
  ak_limits_enabled : bool; ak_limits : option jsstr; ak_allow_ips : option jsstr }.

Definition DEFAULT_GROUP : jsstr := [].

(** The issues [getApiKeyFormSchema] reports on typed values: their messages, or
    the field where the schema gives no message of its own. *)
Definition getApiKeyFormSchema (data : ApiKeyFormValues) : list jsstr :=
  (match k_name data with [] => [js "Please enter a name"] | _ => [] end) ++
  (match tokenCount data with Some n => if num_leb (num_of_Z 1) n then [] else [js "tokenCount"] | None => [] end) ++
  (if unlimited_quota data then []
   else match remain_quota_dollars data with
        | None => [js "Quota must be zero or greater"]
        | Some q => if num_ltb q num_zero then [js "Quota must be zero or greater"] else []
        end).

Definition API_KEY_FORM_DEFAULT_VALUES : ApiKeyFormValues :=
  mkKeyForm [] (Some (num_of_Z 10)) None true [] (Some []) (Some DEFAULT_GROUP) (Some true) (Some (num_of_Z 1)).

Definition getApiKeyFormDefaultValues (defaultUseAutoGroup : bool) : ApiKeyFormValues :=
  let d := API_KEY_FORM_DEFAULT_VALUES in
  mkKeyForm (k_name d) (remain_quota_dollars d) (expired_date d) (unlimited_quota d) (model_limits d) (allow_ips d)
    (Some (if defaultUseAutoGroup then js "auto" else DEFAULT_GROUP)) (Some defaultUseAutoGroup) (tokenCount d).

Definition key_payload (data : ApiKeyFormValues) : ApiKeyFormData :=
  mkKeyData (k_name data)
    (if unlimited_quota data then num_zero else parseQuotaFromDollars store (num_or (remain_quota_dollars data) num_zero))
    (match expired_date data with Some d => seconds_of_date d | None => -1 end)
    (unlimited_quota data) (match model_limits data with [] => false | _ => true end) (join [comma] (model_limits data))
    (text_or (allow_ips data) []) (text_or (k_group data) [])
    (if bool_decide (k_group data = Some (js "auto")) then default false (cross_group_retry data) else false).

Definition split_nonempty (s : jsstr) : list jsstr := base.filter (fun x => x <> []) (split_on comma s).

Definition transformApiKeyToFormDefaults (apiKey : ApiKey) : ApiKeyFormValues :=
  mkKeyForm (ak_name apiKey) (Some (if ak_unlimited apiKey then num_zero else quotaUnitsToDollars store (ak_remain_quota apiKey)))
    (if 0 <? ak_expired_time apiKey then Some (date_of_seconds (ak_expired_time apiKey)) else None)
    (ak_unlimited apiKey) (match ak_limits apiKey with Some (c :: r) => split_nonempty (c :: r) | _ => [] end)
    (Some (text_or (ak_allow_ips apiKey) [])) (Some (text_or (ak_group apiKey) DEFAULT_GROUP)) (Some (ak_retry apiKey)) (Some (num_of_Z 1)).

(** ** Redemption codes *)
Record RedemptionFormValues := mkRedForm { r_name : jsstr; quota_dollars : num; r_expired : option Z; count : option num }.
Record RedemptionFormData := mkRedData { rd_name : jsstr; rd_quota : num; rd_expired_time : Z; rd_count : num }.
Record Redemption := mkRedemption { red_name : jsstr; red_quota : num; red_expired_time : Z }.

Definition NAME_MAX_LENGTH : Z := 20.
Definition COUNT_MAX : num := num_of_Z 100.

(** The fields of [getRedemptionFormSchema] that fail. *)
Definition getRedemptionFormSchema (d : RedemptionFormValues) : list jsstr :=
  (if (1 <=? Z.of_nat (length (r_name d))) && (Z.of_nat (length (r_name d)) <=? NAME_MAX_LENGTH) then [] else [js "name"]) ++
  (if num_leb num_zero (quota_dollars d) then [] else [js "quota_dollars"]) ++
  (match count d with Some n => if num_leb (num_of_Z 1) n && num_leb n COUNT_MAX then [] else [js "count"] | None => [] end).

Definition redemption_payload (d : RedemptionFormValues) : RedemptionFormData :=
  mkRedData (r_name d) (parseQuotaFromDollars store (quota_dollars d)) (match r_expired d with Some t => seconds_of_date t | None => 0 end)
    (num_or (count d) (num_of_Z 1)).

Definition transformRedemptionToFormDefaults (r : Redemption) : RedemptionFormValues :=
  mkRedForm (red_name r) (quotaUnitsToDollars store (red_quota r))
    (if 0 <? red_expired_time r then Some (date_of_seconds (red_expired_time r)) else None) (Some (num_of_Z 1)).

(** ** Subscription plans *)
Record PlanFormValues := mkPlanForm {
  title : jsstr; subtitle : option jsstr; price_amount : num; duration_unit : jsstr; duration_value : num; custom_seconds : option num;
  quota_reset_period : jsstr; quota_reset_custom_seconds : option num; enabled : bool; sort_order : num; allow_balance_pay : bool;
  allow_wallet_overflow : bool; max_purchase_per_user : num; total_amount : num; upgrade_group : option jsstr; downgrade_group : option jsstr;
  stripe_price_id : option jsstr; creem_product_id : option jsstr; waffo_pancake_product_id : option jsstr }.

(** A plan of the server; the payload is one too, with the currency. *)
Record SubscriptionPlan := mkPlan {
  sp_title : jsstr; sp_subtitle : option jsstr; sp_price_amount : num; currency : jsstr; sp_duration_unit : jsstr; sp_duration_value : num;
  sp_custom_seconds : option num; sp_quota_reset_period : jsstr; sp_quota_reset_custom_seconds : option num; sp_enabled : option bool;
  sp_sort_order : num; sp_allow_balance_pay : option bool; sp_allow_wallet_overflow : option bool; sp_max_purchase_per_user : num;
  sp_total_amount : num; sp_upgrade_group : option jsstr; sp_downgrade_group : option jsstr; sp_stripe_price_id : option jsstr;
  sp_creem_product_id : option jsstr; sp_waffo_pancake_product_id : option jsstr }.

Definition PLAN_FORM_DEFAULTS : PlanFormValues :=
  mkPlanForm [] (Some []) num_zero (js "month") (num_of_Z 1) (Some num_zero) (js "never") (Some num_zero) true num_zero true true num_zero num_zero
    (Some []) (Some []) (Some []) (Some []) (Some []).

Definition not_false (b : option bool) : bool := negb (bool_decide (b = Some false)).

Definition planToFormValues (plan : SubscriptionPlan) : PlanFormValues :=
  let or0 n := num_or (Some n) num_zero in
  let text s := Some (text_or s []) in
  mkPlanForm (sp_title plan) (text (sp_subtitle plan)) (or0 (sp_price_amount plan)) (text_or (Some (sp_duration_unit plan)) (js "month"))
    (num_or (Some (sp_duration_value plan)) (num_of_Z 1)) (Some (num_or (sp_custom_seconds plan) num_zero))
    (text_or (Some (sp_quota_reset_period plan)) (js "never")) (Some (num_or (sp_quota_reset_custom_seconds plan) num_zero))
    (not_false (sp_enabled plan)) (or0 (sp_sort_order plan)) (not_false (sp_allow_balance_pay plan)) (not_false (sp_allow_wallet_overflow plan))
    (or0 (sp_max_purchase_per_user plan)) (quotaUnitsToDollars store (or0 (sp_total_amount plan)))
    (text (sp_upgrade_group plan)) (text (sp_downgrade_group plan)) (text (sp_stripe_price_id plan)) (text (sp_creem_product_id plan))
    (text (sp_waffo_pancake_product_id plan)).

Definition formValuesToPlanPayload (values : PlanFormValues) : SubscriptionPlan :=
  let or0 n := num_or (Some n) num_zero in
  mkPlan (title values) (subtitle values) (or0 (price_amount values)) (js "USD") (duration_unit values) (or0 (duration_value values))
    (Some (num_or (custom_seconds values) num_zero)) (text_or (Some (quota_reset_period values)) (js "never"))
    (Some (if bool_decide (quota_reset_period values = js "custom") then num_or (quota_reset_custom_seconds values) num_zero else num_zero))
    (Some (enabled values)) (or0 (sort_order values)) (Some (allow_balance_pay values)) (Some (allow_wallet_overflow values))
    (or0 (max_purchase_per_user values)) (parseQuotaFromDollars store (or0 (total_amount values)))
    (Some (text_or (upgrade_group values) [])) (Some (text_or (downgrade_group values) [])) (stripe_price_id values) (creem_product_id values)
    (waffo_pancake_product_id values).
End Forms.

(** ** Models *)
Record ModelFormValues := mkModelForm {
  m_id : option num; m_model_name : jsstr; m_description : jsstr; m_icon : jsstr; m_tags : list jsstr; m_vendor_id : option num; m_endpoints : jsstr;
  m_name_rule : num; m_status : bool; m_sync_official : bool; m_enable_groups : list jsstr; m_quota_types : list num }.

Record Model := mkModel {
  mo_id : option num; mo_model_name : jsstr; mo_description : option jsstr; mo_icon : option jsstr; mo_tags : option jsstr; mo_vendor_id : option num;
  mo_endpoints : option jsstr; mo_status : num; mo_sync_official : num; mo_name_rule : num; mo_enable_groups : option (list jsstr);
  mo_quota_types : option (list num) }.

Definition parseModelTags (tags : option jsstr) : list jsstr :=
  match tags with Some (c :: r) => ModelMappingValidation.trimAll (split_on comma (c :: r)) | _ => [] end.

Definition formatTagsArray (tags : list jsstr) : jsstr := join [comma] (base.filter (fun x => x <> []) tags).

Definition transformModelToFormDefaults (model : Model) : ModelFormValues :=
  mkModelForm (mo_id model) (mo_model_name model) (text_or (mo_description model) []) (text_or (mo_icon model) []) (parseModelTags (mo_tags model))
    (mo_vendor_id model) (text_or (mo_endpoints model) []) (num_or (Some (mo_name_rule model)) num_zero)
    (num_eqb (mo_status model) (num_of_Z 1)) (num_eqb (mo_sync_official model) (num_of_Z 1))
    (default [] (mo_enable_groups model)) (default [] (mo_quota_types model)).

Definition flag_num (b : bool) : num := num_of_Z (if b then 1 else 0).

Definition transformFormDataToModelPayload (d : ModelFormValues) : Model :=
  mkModel (m_id d) (m_model_name d) (Some (text_or (Some (m_description d)) [])) (Some (text_or (Some (m_icon d)) [])) (Some (formatTagsArray (m_tags d)))
    (m_vendor_id d) (Some (text_or (Some (m_endpoints d)) [])) (flag_num (m_status d)) (flag_num (m_sync_official d)) (m_name_rule d)
    (Some (m_enable_groups d)) (Some (m_quota_types d)).

(** Both validators of endpoint texts. *)
Definition validateEndpoints (endpoints : jsstr) : bool :=
  if bool_decide (trim endpoints = []) then true else match json_parse endpoints with Some _ => true | None => false end.

Definition formatEndpointsDisplay (endpoints : option jsstr) : list jsstr :=
  match endpoints with
  | Some s => if bool_decide (trim s = []) then []
              else match json_parse s with
                   | Some (JObj ps) => map_keys ps
                   | Some (JArr l) => map json_to_string l
                   | _ => []
                   end
  | None => []
  end.

(** ** Opening and saving *)

(** A whole number of units in range. *)
Definition quota_ok (q : num) : Prop := exists u, q = num_of_Z u /\ 0 <= u <= 2 ^ 49.

(** A currency of moderate rates. *)
Definition rates_ok (store : option CurrencyConfig) : bool :=
  moderate (quotaPerUnit (getConfig store)) && moderate (metaRate (getDisplayMeta (getConfig store))).

Lemma num_or_idemp n d : num_truthy d = true \/ d = num_zero -> num_or (Some (num_or n d)) d = num_or n d.
Proof.
  intros Hd. unfold Permissions.num_or. destruct n as [x|].
  - destruct (num_truthy x) eqn:E; [by rewrite E|]. by destruct (num_truthy d).
  - by destruct (num_truthy d).
Qed.

Lemma text_or_idemp s d : text_or (Some (text_or s d)) d = text_or s d.
Proof. destruct s as [[|]|]; try reflexivity; by destruct d. Qed.

Section Quotas.
Context (store : option CurrencyConfig) (Hrates : rates_ok store = true).

Lemma quota_back q : quota_ok q -> parseQuotaFromDollars store (quotaUnitsToDollars store q) = q.
Proof. apply andb_true_iff in Hrates as [H1 H2]. intros (u & -> & Hu). by apply quota_units_back. Qed.

Lemma quota_or q : quota_ok q -> num_or (Some (quotaUnitsToDollars store q)) num_zero = quotaUnitsToDollars store q.
Proof.
  apply andb_true_iff in Hrates as [H1 H2]. intros (u & -> & Hu). unfold Permissions.num_or.
  destruct (quota_shown store u Hu H1 H2) as [E|E]; [by rewrite E | by rewrite E].
Qed.
End Quotas.

Lemma seconds_back s : seconds_of_date (date_of_seconds s) = s.
Proof. unfold seconds_of_date, date_of_seconds. by rewrite Z.div_mul. Qed.

(** A list of names as the forms keep it in a text. *)
Definition names_ok (l : list jsstr) : bool := forallb (fun n => bool_decide (n <> []) && no_char comma n) l.

Lemma names_back l : names_ok l = true -> split_nonempty (join [comma] l) = l.
Proof.
  intros Hl. unfold split_nonempty. destruct l as [|x l]; [done|]. rewrite split_join; [|done|].
  - apply filter_all. apply Forall_forall. intros y Hy. unfold names_ok in Hl. rewrite forallb_forall in Hl. apply list_elem_of_In, Hl in Hy. by bool_to_prop.
  - apply forallb_forall. intros y Hy. unfold names_ok in Hl. rewrite forallb_forall in Hl. apply Hl in Hy. by bool_to_prop.
Qed.

Lemma names_text l : names_ok l = true -> (match join [comma] l with [] => [] | t => split_nonempty t end) = l.
Proof.
  intros Hl. pose proof (names_back l Hl) as E. destruct (join [comma] l) as [|c r] eqn:Ej; [|done].
  destruct l as [|x [|y l]]; [done | |]; unfold names_ok in Hl; cbn in Hl, Ej; bool_to_prop; [done|]. by destruct x.
Qed.

(** The key a payload is for. *)
Definition stored_key (p : ApiKeyFormData) : ApiKey :=
  mkKey (kd_name p) (kd_remain_quota p) (kd_unlimited p) (kd_expired_time p) (Some (kd_group p)) (kd_retry p) (kd_limits_enabled p) (Some (kd_limits p))
    (Some (kd_allow_ips p)).

(** What the form makes of any stored key: an unlimited key has no quota, the
    limits are on exactly when a name is listed, names that are empty are dropped,
    a key without an expiry has -1, missing texts are empty, and the retry across
    groups is kept for automatic groups only. *)
Definition key_limits (k : ApiKey) : list jsstr := split_nonempty (text_or (ak_limits k) []).

Definition normal_key (k : ApiKey) : ApiKey :=
  let group := text_or (ak_group k) [] in
  mkKey (ak_name k) (if ak_unlimited k then num_zero else ak_remain_quota k) (ak_unlimited k)
    (if 0 <? ak_expired_time k then ak_expired_time k else -1) (Some group) (bool_decide (group = js "auto") && ak_retry k)
    (bool_decide (key_limits k <> [])) (Some (join [comma] (key_limits k))) (Some (text_or (ak_allow_ips k) [])).

(** The keys that are in that form: the quota of an unlimited key is zero, an
    expiry or -1, limits that are on exactly when there are any, a retry across
    groups only with automatic groups. *)
Definition key_ok (k : ApiKey) (limits : list jsstr) : Prop :=
  (ak_unlimited k = true -> ak_remain_quota k = num_zero) /\ (0 < ak_expired_time k \/ ak_expired_time k = -1) /\
  names_ok limits = true /\ ak_limits k = Some (join [comma] limits) /\ ak_limits_enabled k = bool_decide (limits <> []) /\
  (exists g, ak_group k = Some g /\ (g <> js "auto" -> ak_retry k = false)) /\ (exists i, ak_allow_ips k = Some i).

(** A plan with the numbers and texts that are missing filled in, and without the
    seconds of a reset period that is not custom. *)
Definition normal_plan (plan : SubscriptionPlan) : SubscriptionPlan :=
  let or0 n := num_or (Some n) num_zero in
  let text s := Some (text_or s []) in
  let period := text_or (Some (sp_quota_reset_period plan)) (js "never") in
  mkPlan (sp_title plan) (text (sp_subtitle plan)) (or0 (sp_price_amount plan)) (js "USD") (text_or (Some (sp_duration_unit plan)) (js "month"))
    (num_or (Some (sp_duration_value plan)) (num_of_Z 1)) (Some (num_or (sp_custom_seconds plan) num_zero)) period
    (Some (if bool_decide (period = js "custom") then num_or (sp_quota_reset_custom_seconds plan) num_zero else num_zero))
    (Some (not_false (sp_enabled plan))) (or0 (sp_sort_order plan)) (Some (not_false (sp_allow_balance_pay plan))) (Some (not_false (sp_allow_wallet_overflow plan)))
    (or0 (sp_max_purchase_per_user plan)) (sp_total_amount plan) (text (sp_upgrade_group plan)) (text (sp_downgrade_group plan))
    (text (sp_stripe_price_id plan)) (text (sp_creem_product_id plan)) (text (sp_waffo_pancake_product_id plan)).

Lemma text_or_some s : text_or (Some s) [] = s.
Proof. by destruct s. Qed.

Lemma key_resaved store k : rates_ok store = true -> (ak_unlimited k = false -> quota_ok (ak_remain_quota k)) ->
  stored_key (key_payload store (transformApiKeyToFormDefaults store k)) = normal_key k.
Proof.
  intros Hr Hq. destruct k as [name q un ex gr rt en li ips]. unfold stored_key, key_payload, transformApiKeyToFormDefaults, normal_key, key_limits, DEFAULT_GROUP.
  cbn [ak_name ak_remain_quota ak_unlimited ak_expired_time ak_group ak_retry ak_limits_enabled ak_limits ak_allow_ips k_name remain_quota_dollars
    expired_date unlimited_quota model_limits allow_ips k_group cross_group_retry kd_name kd_remain_quota kd_expired_time kd_unlimited kd_limits_enabled
    kd_limits kd_allow_ips kd_group kd_retry default] in *. rewrite !text_or_some.
  assert (L : (match li with Some (c :: r) => split_nonempty (c :: r) | _ => [] end) = split_nonempty (text_or li [])) by (by destruct li as [[|]|]).
  rewrite L. set (l := split_nonempty (text_or li [])). clearbody l. f_equal.
  - destruct un; [done|]. rewrite quota_or by auto. by apply quota_back; auto.
  - destruct (Z.ltb_spec 0 ex); [apply seconds_back | done].
  - case_bool_decide as E1; case_bool_decide as E2; [done | by injection E1 | by rewrite E2 in E1 | done].
  - by destruct l.
Qed.

Lemma names_of_split s : names_ok (split_nonempty s) = true.
Proof.
  unfold names_ok, split_nonempty. apply forallb_forall. intros x Hx%list_elem_of_In. apply list_elem_of_filter in Hx as [Hn Hx].
  rewrite bool_decide_eq_true_2 by done. pose proof (ModelMappingValidation.split_on_no_sep comma s) as F. rewrite Forall_forall in F. by apply F.
Qed.

Lemma key_limits_joined k l : names_ok l = true -> ak_limits k = Some (join [comma] l) -> key_limits k = l.
Proof. intros Hl E. unfold key_limits. rewrite E, text_or_some. pose proof (names_text l Hl) as H. by destruct (join [comma] l). Qed.

(** Keys in the normal form stay as they are, and saving twice is saving once. *)
Lemma normal_key_fixed k limits : key_ok k limits -> normal_key k = k.
Proof.
  intros (Hq & He & Hl & El & Een & (g & Eg & Hg) & (i & Ei)). unfold normal_key. rewrite (key_limits_joined k limits Hl El).
  destruct k as [name q un ex gr rt en li ips]. cbn in *. subst. rewrite !text_or_some. f_equal.
  - destruct un; [by rewrite Hq | done].
  - destruct (Z.ltb_spec 0 ex); [done | lia].
  - case_bool_decide; [done|]. by rewrite Hg.
Qed.

Lemma normal_key_idemp k : normal_key (normal_key k) = normal_key k.
Proof.
  apply (normal_key_fixed _ (key_limits k)). pose proof (names_of_split (text_or (ak_limits k) [])) as Hl. split_and!; try done; cbn.
  - by intros ->.
  - destruct (Z.ltb_spec 0 (ak_expired_time k)); [by left | by right].
  - eexists. split; [done|]. intros H. by rewrite bool_decide_eq_false_2.
  - by eexists.
Qed.

(** The plans that are in the normal form. *)
Definition plain_num (n : num) : Prop := num_truthy n = true \/ n = num_zero.
Definition plan_ok (p : SubscriptionPlan) : Prop :=
  currency p = js "USD" /\ sp_duration_unit p <> [] /\ num_truthy (sp_duration_value p) = true /\ sp_quota_reset_period p <> [] /\
  (exists n, sp_custom_seconds p = Some n /\ plain_num n) /\
  (exists n, sp_quota_reset_custom_seconds p = Some n /\ plain_num n /\ (sp_quota_reset_period p <> js "custom" -> n = num_zero)) /\
  plain_num (sp_price_amount p) /\ plain_num (sp_sort_order p) /\ plain_num (sp_max_purchase_per_user p) /\
  is_Some (sp_enabled p) /\ is_Some (sp_allow_balance_pay p) /\ is_Some (sp_allow_wallet_overflow p) /\
  is_Some (sp_subtitle p) /\ is_Some (sp_upgrade_group p) /\ is_Some (sp_downgrade_group p) /\ is_Some (sp_stripe_price_id p) /\
  is_Some (sp_creem_product_id p) /\ is_Some (sp_waffo_pancake_product_id p).

Lemma num_or_plain n : plain_num n -> num_or (Some n) num_zero = n.
Proof. unfold Permissions.num_or. intros [-> | ->]; reflexivity. Qed.

Lemma plain_num_or n : plain_num (num_or n num_zero).
Proof. unfold plain_num, Permissions.num_or. destruct n as [n|]; [|by right]. destruct (num_truthy n) eqn:E; [by left | by right]. Qed.

Lemma normal_plan_fixed p : plan_ok p -> normal_plan p = p.
Proof.
  intros (E1 & E2 & E3 & E4 & (n & E5 & P5) & (m & E6 & P6 & Z6) & P7 & P8 & P9 & [b1 B1] & [b2 B2] & [b3 B3] & [t1 T1] & [t2 T2] & [t3 T3] & [t4 T4] & [t5 T5] & [t6 T6]).
  destruct p as [ti su pr cu du dv cs qp qs en so bp wo mp ta ug dg sid cid wid]. cbn in *. subst. unfold normal_plan. cbn -[js num_of_Z Permissions.num_or Permissions.text_or].
  rewrite !text_or_some, !num_or_plain by done.
  assert (D : text_or (Some du) (js "month") = du) by (by destruct du). assert (Q : text_or (Some qp) (js "never") = qp) by (by destruct qp).
  assert (V : num_or (Some dv) (num_of_Z 1) = dv) by (unfold Permissions.num_or; by rewrite E3).
  assert (F : forall b, not_false (Some b) = b) by (by intros []).
  rewrite D, Q, V, !F. f_equal. f_equal. case_bool_decide; [done|]. symmetry. by apply Z6.
Qed.

Lemma normal_plan_idemp p : normal_plan (normal_plan p) = normal_plan p.
Proof.
  apply normal_plan_fixed. unfold normal_plan, plan_ok. cbn -[js num_of_Z Permissions.num_or Permissions.text_or].
  split_and!; try done; try apply plain_num_or; try (by eexists).
  - destruct (sp_duration_unit p); [vm_compute; discriminate | discriminate].
  - unfold Permissions.num_or. destruct (num_truthy (sp_duration_value p)) eqn:E; [done | reflexivity].
  - destruct (sp_quota_reset_period p); [vm_compute; discriminate | discriminate].
  - eexists. split; [done|]. apply plain_num_or.
  - eexists. split; [done|]. split; [case_bool_decide; [apply plain_num_or | by right]|]. intros H. by rewrite bool_decide_eq_false_2.
Qed.

Lemma plan_resaved store plan : rates_ok store = true -> quota_ok (sp_total_amount plan) ->
  formValuesToPlanPayload store (planToFormValues store plan) = normal_plan plan.
Proof.
  intros Hr Hq. unfold formValuesToPlanPayload, planToFormValues, normal_plan. cbn -[Permissions.num_or Permissions.text_or parseQuotaFromDollars quotaUnitsToDollars js num_of_Z].
  assert (E : num_or (Some (sp_total_amount plan)) num_zero = sp_total_amount plan).
  { destruct Hq as (u & Eu & Hu). rewrite Eu. unfold Permissions.num_or. destruct (decide (u = 0)) as [->|]; [reflexivity|].
    destruct (num_of_Z_normal u ltac:(lia)) as (m & e & Em & _). by rewrite Em. }
  rewrite E, quota_or, quota_back by done.
  f_equal; try (apply num_or_idemp; by right); try (by rewrite ?num_or_idemp by (by right)); try (f_equal; apply num_or_idemp; by right).
  - unfold Permissions.num_or. destruct (num_truthy (sp_duration_value plan)) eqn:Ed; [by rewrite Ed | reflexivity].
  - by destruct (sp_quota_reset_period plan).
  - f_equal. apply text_or_idemp.
  - f_equal. apply text_or_idemp.
Qed.

(** C25.  Opening a key, a code or a plan and saving it unchanged, for quotas of
    whole units from 0 to 2^49 and moderate rates of the currency that is shown.  A
    key is sent in its normal form: the name, the quota (none of an unlimited
    key), the expiry, the names of the limits, which are on exactly when there
    are any, the addresses, the group, and the retry of automatic groups.  A code is sent
    with its name, quota and expiry.  A plan is sent in its normal form: in US
    dollars, with missing values filled in, and with the seconds of a custom reset
    period only.  Keys and plans in normal form are sent as they were, and saving
    again changes nothing more. *)
Theorem entities_resaved (store : option CurrencyConfig) (k : ApiKey) (r : Redemption) (plan : SubscriptionPlan)
    (Hr : rates_ok store = true) (Hk : ak_unlimited k = false -> quota_ok (ak_remain_quota k)) (Hc : quota_ok (red_quota r))
    (Hp : quota_ok (sp_total_amount plan)) :
  stored_key (key_payload store (transformApiKeyToFormDefaults store k)) = normal_key k /\
  (forall limits, key_ok k limits -> normal_key k = k) /\ normal_key (normal_key k) = normal_key k /\
  redemption_payload store (transformRedemptionToFormDefaults store r) =
    mkRedData (red_name r) (red_quota r) (if 0 <? red_expired_time r then red_expired_time r else 0) (num_of_Z 1) /\
  formValuesToPlanPayload store (planToFormValues store plan) = normal_plan plan /\
  (plan_ok plan -> normal_plan plan = plan) /\ normal_plan (normal_plan plan) = normal_plan plan.
Proof.
  split_and!.
  - by apply key_resaved.
  - apply normal_key_fixed.
  - apply normal_key_idemp.
  - destruct r as [name q ex]. unfold redemption_payload, transformRedemptionToFormDefaults.
    cbn -[parseQuotaFromDollars quotaUnitsToDollars num_of_Z] in *. f_equal; [by apply quota_back|]. destruct (Z.ltb_spec 0 ex); [apply seconds_back | done].
  - by apply plan_resaved.
  - apply normal_plan_fixed.
  - apply normal_plan_idemp.
Qed.

(** A key whose limits are off but still listed has them on after it is opened
    and saved unchanged. *)
Theorem limits_reenabled (store : option CurrencyConfig) (k : ApiKey) (limits : list jsstr)
    (Hl : names_ok limits = true) (Hn : limits <> []) (El : ak_limits k = Some (join [comma] limits)) (Ho : ak_limits_enabled k = false) :
  kd_limits_enabled (key_payload store (transformApiKeyToFormDefaults store k)) = true.
Proof.
  unfold key_payload, transformApiKeyToFormDefaults. cbn [kd_limits_enabled model_limits]. rewrite El.
  pose proof (names_text limits Hl) as E. destruct (join [comma] limits) as [|c r]; [by subst limits | rewrite E; by destruct limits].
Qed.

Lemma limits_reenabled_witness :
  kd_limits_enabled (key_payload None (transformApiKeyToFormDefaults None
    (mkKey (js "k") num_zero true (-1) None false false (Some (js "gpt-4")) None))) = true.
Proof. apply (limits_reenabled None _ [js "gpt-4"]); [reflexivity | done | reflexivity | reflexivity]. Defined.

Definition example_key : ApiKey := mkKey (js "k") (num_of_Z 1234567) false 1893456000 (Some (js "vip")) false true (Some (js "gpt-4,o1")) (Some []).
Definition example_plan : SubscriptionPlan :=
  mkPlan (js "Pro") None (num_of_Z 20) (js "USD") (js "month") (num_of_Z 1) None (js "never") (Some (num_of_Z 60)) None num_zero None None num_zero (num_of_Z 777)
    None None None None None.

Lemma entities_resaved_witness :
  rates_ok yuan = true /\ stored_key (key_payload yuan (transformApiKeyToFormDefaults yuan example_key)) = example_key.
Proof.
  split; [vm_compute; reflexivity|].
  destruct (entities_resaved yuan example_key (mkRedemption (js "r") (num_of_Z 5) 0) example_plan) as (H & H' & _).
  - vm_compute. reflexivity.
  - intros _. exists 1234567. split; [reflexivity | lia].
  - exists 5. split; [reflexivity | lia].
  - exists 777. split; [reflexivity | lia].
  - rewrite H. apply (H' [js "gpt-4"; js "o1"]). split; [intros E; discriminate E|]. split; [left; reflexivity|]. split; [reflexivity|].
    split; [reflexivity|]. split; [reflexivity|]. split; [exists (js "vip"); split; reflexivity | exists []; reflexivity].
Defined.

(** ** The model form *)
Lemma tags_back tags : Forall (fun t => trimmed t = true /\ t <> [] /\ no_char comma t = true) tags -> parseModelTags (Some (formatTagsArray tags)) = tags.
Proof.
  intros Ht. unfold formatTagsArray. rewrite filter_all by (eapply Forall_impl; [exact Ht|]; by intros t (_ & ? & _)).
  destruct tags as [|t l]; [done|]. unfold parseModelTags. destruct (join [comma] (t :: l)) as [|c r] eqn:E.
  - destruct (Forall_cons_1 _ _ _ Ht) as [(_ & Hn & _) _]. destruct t; [done|]. by destruct l.
  - rewrite <- E, split_join; [|done|].
    + apply ModelMappingValidation.trimAll_id. eapply Forall_impl; [exact Ht|]. intros x (? & ? & _). split; [done | by apply trim_trimmed].
    + apply forallb_forall. intros x Hx%list_elem_of_In. rewrite Forall_forall in Ht. by apply Ht.
Qed.

(** A model form is shown again as it was saved. *)
Theorem model_form_roundtrip (d : ModelFormValues)
    (Ht : Forall (fun t => trimmed t = true /\ t <> [] /\ no_char comma t = true) (m_tags d))
    (Hn : num_truthy (m_name_rule d) = true \/ m_name_rule d = num_zero) :
  transformModelToFormDefaults (transformFormDataToModelPayload d) = d.
Proof.
  unfold transformModelToFormDefaults, transformFormDataToModelPayload.
  cbn [mo_id mo_model_name mo_description mo_icon mo_tags mo_vendor_id mo_endpoints mo_status mo_sync_official mo_name_rule mo_enable_groups mo_quota_types].
  rewrite tags_back by done. destruct d as [id name desc icon tags vendor ends rule st sync groups types].
  cbn [m_id m_model_name m_description m_icon m_tags m_vendor_id m_endpoints m_name_rule m_status m_sync_official m_enable_groups m_quota_types] in *.
  assert (T : forall s, text_or (Some (text_or (Some s) [])) [] = s) by (by intros []).
  assert (F : forall b, num_eqb (flag_num b) (num_of_Z 1) = b) by (intros []; reflexivity).
  assert (N : num_or (Some rule) num_zero = rule) by (unfold Permissions.num_or; destruct Hn as [Hn| ->]; [by rewrite Hn | reflexivity]).
  cbn [default]. by rewrite !T, !F, N.
Qed.

Definition example_model : ModelFormValues :=
  mkModelForm None (js "m") [] [] [js "fast"; js "cheap"] None [] num_zero true false [js "default"] [].

Lemma model_form_roundtrip_witness : transformModelToFormDefaults (transformFormDataToModelPayload example_model) = example_model.
Proof. apply model_form_roundtrip; [repeat constructor; try reflexivity; discriminate | by right]. Defined.
End EntityForms.
