(* ===== verification/RatioSync.v ===== *)
(** * Upstream price synchronisation
      ([src/web/default/src/features/system-settings/models/upstream-ratio-sync-helpers.ts])

    The price synchronisation page compares the local prices of the models with
    those of upstream sources and lets the administrator pick, per model and
    per field, the upstream value to adopt.  The state is the map of
    resolutions (model -> field -> chosen value); the module models the whole
    helper file: the ordering and visibility of fields, the redirection of a
    choice to [billing_expr], the selection and removal of choices (one by one
    and in bulk) and the computation of the effective bulk selections.

    Objects whose property order the code never observes ([ResolutionsMap], a
    model's resolution, [upstreams], [confidence], the table of differences)
    are finite maps; the object of a row's fields keeps its property order, and
    a JavaScript [Map] is the ordered association list of the prelude.  [null]
    and [undefined] upstream values are treated alike by every test of the
    file, so both are the absence of a value. *)
From Stdlib Require Import SpecFloat.
From stdpp Require Import gmap.
From S2P Require Import Prelude JsString JsNumber.

Module RatioSync.

(** ** Data *)
Inductive SyncValue := VNum (n : num) | VStr (s : jsstr).

#[global] Instance SyncValue_eq_dec : EqDecision SyncValue.
Proof. intros [m|s] [n|t]; try (right; congruence).
  - assert (D : {m = n} + {m <> n}) by (repeat decide equality).
    destruct D; [left|right]; congruence.
  - destruct (decide (s = t)); [left|right]; congruence.
Defined.

Abbreviation RatioType := jsstr (only parsing).

Record RatioDifferenceEntry := mkEntry {
  current : option SyncValue;
  upstreams : gmap jsstr SyncValue;
  confidence : gmap jsstr bool;
}.

(** The fields of a row, in property order. *)
Abbreviation RatioTypes := (list (RatioType * RatioDifferenceEntry)).

Record ModelRow := mkRow { key : jsstr; row_model : jsstr; ratioTypes : RatioTypes; billingConflict : bool }.

Abbreviation ModelResolution := (gmap jsstr SyncValue).
Abbreviation ResolutionsMap := (gmap jsstr ModelResolution).
Abbreviation Differences := (gmap jsstr RatioTypes).

Record ResolutionSelection := mkSel {
  model : jsstr;
  ratioType : RatioType;
  value : SyncValue;
  sourceName : jsstr;
}.

Record ResolutionRemoval := mkRemoval { rmodel : jsstr; rratioType : RatioType }.

Abbreviation ResolutionRemovalPlan := (list (jsstr * list RatioType)).

Inductive BillingCategory := Cprice | Cratio | Ctiered.
#[global] Instance BillingCategory_eq_dec : EqDecision BillingCategory.
Proof. solve_decision. Defined.

Definition f_model_price : RatioType := js "model_price".
Definition f_billing_mode : RatioType := js "billing_mode".
Definition f_billing_expr : RatioType := js "billing_expr".
Definition v_same : SyncValue := VStr (js "same").

Definition RATIO_SYNC_FIELDS : list RatioType :=
  [js "model_ratio"; js "completion_ratio"; js "cache_ratio"; js "create_cache_ratio";
   js "image_ratio"; js "audio_ratio"; js "audio_completion_ratio"].

Definition SYNC_FIELD_ORDER : list RatioType :=
  RATIO_SYNC_FIELDS ++ [f_model_price; f_billing_mode; f_billing_expr].

Definition NUMERIC_SYNC_FIELDS : list jsstr := set_of_list (RATIO_SYNC_FIELDS ++ [f_model_price]).

(** Label and value of [RATIO_TYPE_OPTIONS]. *)
Definition RATIO_TYPE_OPTIONS : list (jsstr * jsstr) :=
  [(js "Model ratio", js "model_ratio"); (js "Completion ratio", js "completion_ratio");
   (js "Cache ratio", js "cache_ratio"); (js "Create cache ratio", js "create_cache_ratio");
   (js "Image ratio", js "image_ratio"); (js "Audio ratio", js "audio_ratio");
   (js "Audio completion ratio", js "audio_completion_ratio"); (js "Fixed price", js "model_price");
   (js "Expression billing", js "billing_expr")].

Definition OFFICIAL_CHANNEL_ID : Z := -100.
Definition OFFICIAL_CHANNEL_NAME : jsstr := [23448; 26041; 20493; 29575; 39044; 35774]%Z.
Definition MODELS_DEV_PRESET_ID : Z := -101.
Definition MODELS_DEV_PRESET_NAME : jsstr := js "models.dev " ++ [20215; 26684; 39044; 35774]%Z.

(** ** Fields of a row *)
(** [t] is the translation function the page passes in. *)
Definition getSyncFieldLabel (ratioType : jsstr) (t : jsstr -> jsstr) : jsstr :=
  match List.find (fun o => bool_decide (o.2 = ratioType)) RATIO_TYPE_OPTIONS with
  | Some opt => t opt.1
  | None => ratioType
  end.

Definition getOrderedRatioTypes (ratioTypes : RatioTypes) (flt : option jsstr) : list RatioType :=
  let keys := map_keys ratioTypes in
  let ordered :=
    filter (fun f => f ∈ keys) SYNC_FIELD_ORDER ++ filter (fun f => f ∉ SYNC_FIELD_ORDER) keys in
  match flt with
  | None => ordered
  | Some f =>
      if bool_decide (f = []) || bool_decide (f = js "__all__") then ordered
      else filter (fun g => g = f) ordered
  end.

(** [ratioTypes[field]?.upstreams?.[sourceName]] *)
Definition upstreamValue (ratioTypes : RatioTypes) (field : RatioType) (sourceName : jsstr) : option SyncValue :=
  entry ← map_get field ratioTypes; upstreams entry !! sourceName.

Definition isSelectableUpstreamValue (v : option SyncValue) : bool :=
  match v with None => false | Some x => bool_decide (x <> v_same) end.

Definition getPreferredSyncField (ratioTypes : RatioTypes) (ratioType : RatioType) (sourceName : jsstr) : RatioType :=
  let exprValue := upstreamValue ratioTypes f_billing_expr sourceName in
  if bool_decide (ratioType <> f_billing_expr)
     && match exprValue with None => false | Some x => bool_decide (x <> v_same) end
  then f_billing_expr
  else ratioType.

Definition getVisibleRatioTypesForSource (ratioTypes : RatioTypes) (sourceName : jsstr) (flt : option jsstr) : list RatioType :=
  filter (fun rt => getPreferredSyncField ratioTypes rt sourceName = rt) (getOrderedRatioTypes ratioTypes flt).

Definition getAlignedRatioTypes (ratioTypes : RatioTypes) (sourceNames : list jsstr) (flt : option jsstr) : list RatioType :=
  let ordered := getOrderedRatioTypes ratioTypes flt in
  if bool_decide (length sourceNames = 0) then ordered
  else
    let visible :=
      fold_left (fun visible sourceName =>
        fold_left (fun visible rt => set_add rt visible)
                  (getVisibleRatioTypesForSource ratioTypes sourceName flt) visible)
        sourceNames [] in
    filter (fun rt => set_has rt visible = true) ordered.

Definition getBillingCategory (ratioType : jsstr) : BillingCategory :=
  if bool_decide (ratioType = f_model_price) then Cprice
  else if bool_decide (ratioType = f_billing_mode) || bool_decide (ratioType = f_billing_expr) then Ctiered
  else Cratio.

Definition getUpstreamDisplayName (sourceName : jsstr) : jsstr :=
  let synthesizedPresets :=
    [(OFFICIAL_CHANNEL_NAME, OFFICIAL_CHANNEL_ID); (MODELS_DEV_PRESET_NAME, MODELS_DEV_PRESET_ID)] in
  match List.find (fun preset => bool_decide (sourceName = preset.1 ++ js "(" ++ js "-" ++ string_of_Z (- preset.2) ++ js ")"))
                  synthesizedPresets with
  | Some preset => preset.1
  | None => sourceName
  end.

(** [Number(v)] of a number or a string. *)
Definition Number (v : SyncValue) : num := match v with VNum n => n | VStr s => num_of_string s end.

(** [===] on numbers and strings. *)
Definition strict_eq (a b : SyncValue) : bool :=
  match a, b with
  | VNum m, VNum n => num_eqb m n
  | VStr s, VStr t => bool_decide (s = t)
  | _, _ => false
  end.

Definition isSelectedResolutionValue (resolutions : ResolutionsMap) (model : jsstr) (ratioType : RatioType)
    (upstreamValue : option SyncValue) : bool :=
  match upstreamValue with
  | Some u =>
      if negb (isSelectableUpstreamValue (Some u)) then false
      else match resolutions !! model ≫= (fun r => r !! ratioType) with
           | None => false
           | Some selectedValue =>
               if set_has ratioType NUMERIC_SYNC_FIELDS then
                 let selectedNumber := Number selectedValue in
                 let upstreamNumber := Number u in
                 num_is_finite selectedNumber && num_is_finite upstreamNumber && num_eqb selectedNumber upstreamNumber
               else strict_eq selectedValue u
           end
  | None => false
  end.

(** ** Selections *)
Definition Drafts : Type := list (jsstr * ModelResolution).

(** Returns the draft and the drafts that hold it. *)
Definition getDraftModelResolution (drafts : Drafts) (resolutions : ResolutionsMap) (model : jsstr) : ModelResolution * Drafts :=
  match map_get model drafts with
  | Some existingDraft => (existingDraft, drafts)
  | None =>
      let draft := default ∅ (resolutions !! model) in
      (draft, map_set model draft drafts)
  end.

(** The type and the value a selection stands for ([modelDiffs || {}]). *)
Definition preferredOf (differences : Differences) (selection : ResolutionSelection) : RatioType * SyncValue :=
  let modelDiffs := differences !! model selection in
  let preferredType := getPreferredSyncField (default [] modelDiffs) (ratioType selection) (sourceName selection) in
  let preferredValue :=
    if bool_decide (preferredType = ratioType selection) then value selection
    else default (value selection)
           (d ← modelDiffs; upstreamValue d preferredType (sourceName selection)) in
  (preferredType, preferredValue).

(** The in-place update of a model's draft by the selection. *)
Definition updateDraft (differences : Differences) (selection : ResolutionSelection) (newModelRes : ModelResolution) : ModelResolution :=
  let modelDiffs := differences !! model selection in
  let '(finalType, finalValue) := preferredOf differences selection in
  let category := getBillingCategory finalType in
  let r1 := filter (fun kv => ~ (category <> Ctiered /\ getBillingCategory kv.1 <> Ctiered
                                 /\ getBillingCategory kv.1 <> category)) newModelRes in
  let r2 := <[finalType := finalValue]> r1 in
  match modelDiffs with
  | Some d =>
      if bool_decide (category = Ctiered) then
        let modeVal := upstreamValue d f_billing_mode (sourceName selection) in
        let exprVal := upstreamValue d f_billing_expr (sourceName selection) in
        let r3 :=
          match modeVal with
          | Some v => if bool_decide (v <> v_same) then <[f_billing_mode := v]> r2
                      else if bool_decide (finalType = f_billing_expr)
                           then <[f_billing_mode := VStr (js "tiered_expr")]> r2 else r2
          | None => if bool_decide (finalType = f_billing_expr)
                    then <[f_billing_mode := VStr (js "tiered_expr")]> r2 else r2
          end in
        match exprVal with
        | Some v => if bool_decide (v <> v_same) then <[f_billing_expr := v]> r3 else r3
        | None => r3
        end
      else r2
  | None => r2
  end.

Definition applyResolutionSelectionToDraft (drafts : Drafts) (resolutions : ResolutionsMap) (differences : Differences)
    (selection : ResolutionSelection) : Drafts :=
  let '(draft, drafts') := getDraftModelResolution drafts resolutions (model selection) in
  map_set (model selection) (updateDraft differences selection draft) drafts'.

Definition resolveResolutionSelection (differences : Differences) (selection : ResolutionSelection) : ResolutionSelection :=
  let '(preferredType, preferredValue) := preferredOf differences selection in
  mkSel (model selection) preferredType preferredValue (sourceName selection).

(** The key under which a resolved selection is recorded. *)
Definition selectionKey (s : ResolutionSelection) : jsstr := model s ++ [0%Z] ++ ratioType s.

Definition effectiveStep (differences : Differences) (effectiveByKey : list (jsstr * ResolutionSelection))
    (selection : ResolutionSelection) : list (jsstr * ResolutionSelection) :=
  let resolved := resolveResolutionSelection differences selection in
  let category := getBillingCategory (ratioType resolved) in
  let kept :=
    if bool_decide (category <> Ctiered) then
      filter (fun ke => ~ (model ke.2 = model resolved /\ getBillingCategory (ratioType ke.2) <> Ctiered
                           /\ getBillingCategory (ratioType ke.2) <> category)) effectiveByKey
    else effectiveByKey in
  map_set (selectionKey resolved) resolved kept.

Definition getEffectiveResolutionSelections (differences : Differences) (selections : list ResolutionSelection) : list ResolutionSelection :=
  map_values (fold_left (effectiveStep differences) selections []).

(** Writes the drafts into the copied state: an empty draft deletes the model. *)
Definition writeDraft (next : ResolutionsMap) (md : jsstr * ModelResolution) : ResolutionsMap :=
  if bool_decide (md.2 = ∅) then delete md.1 next else <[md.1 := md.2]> next.

Definition applyResolutionSelections (resolutions : ResolutionsMap) (differences : Differences)
    (selections : list ResolutionSelection) : ResolutionsMap :=
  if bool_decide (length selections = 0) then resolutions
  else
    let drafts := fold_left (fun drafts s => applyResolutionSelectionToDraft drafts resolutions differences s) selections [] in
    fold_left writeDraft drafts resolutions.

Definition applyResolutionSelection (resolutions : ResolutionsMap) (differences : Differences)
    (selection : ResolutionSelection) : ResolutionsMap :=
  applyResolutionSelections resolutions differences [selection].

(** ** Removals *)
Definition planStep (plan : ResolutionRemovalPlan) (removal : ResolutionRemoval) : ResolutionRemovalPlan :=
  match map_get (rmodel removal) plan with
  | Some types => map_set (rmodel removal) (set_add (rratioType removal) types) plan
  | None => map_set (rmodel removal) [rratioType removal] plan
  end.

Definition removeField (draft : ModelResolution) (rt : RatioType) : ModelResolution :=
  let d1 := delete rt draft in
  let d2 := if bool_decide (rt = f_billing_expr) then delete f_billing_mode d1 else d1 in
  if bool_decide (rt = f_billing_mode) then delete f_billing_expr d2 else d2.

(** The callback of [plan.forEach]. *)
Definition removalStep (resolutions next : ResolutionsMap) (mt : jsstr * list RatioType) : ResolutionsMap :=
  match resolutions !! mt.1 with
  | None => next
  | Some cur => writeDraft next (mt.1, fold_left removeField mt.2 cur)
  end.

Definition applyResolutionRemovalPlan (resolutions : ResolutionsMap) (plan : ResolutionRemovalPlan) : ResolutionsMap :=
  if bool_decide (length plan = 0) then resolutions
  else fold_left (removalStep resolutions) plan resolutions.

Definition applyResolutionRemovals (resolutions : ResolutionsMap) (removals : list ResolutionRemoval) : ResolutionsMap :=
  if bool_decide (length removals = 0) then resolutions
  else applyResolutionRemovalPlan resolutions (fold_left planStep removals []).

Definition deleteResolutionField (resolutions : ResolutionsMap) (model : jsstr) (ratioType : RatioType) : ResolutionsMap :=
  applyResolutionRemovals resolutions [mkRemoval model ratioType].

(** ** Bulk selection of an upstream source ([upstream-ratio-sync-table.tsx]) *)
Record UpstreamBulkSelectState := mkBulk {
  displayName : jsstr;
  selections : list ResolutionSelection;
  removalPlan : ResolutionRemovalPlan;
  selectableCount : nat;
  selectedCount : nat;
}.

(** The selections the loop over the filtered rows pushes for a source. *)
Definition rowSelections (flt : option jsstr) (upstreamName : jsstr) (row : ModelRow) : list ResolutionSelection :=
  flat_map (fun rt =>
    match upstreamValue (ratioTypes row) rt upstreamName with
    | Some v => if isSelectableUpstreamValue (Some v) then [mkSel (row_model row) rt v upstreamName] else []
    | None => []
    end) (getAlignedRatioTypes (ratioTypes row) [upstreamName] flt).

Definition bulkSelectState (differences : Differences) (filteredData : list ModelRow) (flt : option jsstr)
    (resolutions : ResolutionsMap) (upstreamName : jsstr) : UpstreamBulkSelectState :=
  let sels := flat_map (rowSelections flt upstreamName) filteredData in
  let plan := fold_left (fun p s => planStep p (mkRemoval (model s) (ratioType s))) sels [] in
  let effectiveSelections := getEffectiveResolutionSelections differences sels in
  let selected := List.filter (fun s => isSelectedResolutionValue resolutions (model s) (ratioType s) (Some (value s)))
                              effectiveSelections in
  mkBulk (getUpstreamDisplayName upstreamName) effectiveSelections plan (length effectiveSelections) (length selected).

(** [handleBulkSelect] and [handleBulkUnselect] with the page's setters. *)
Definition handleBulkSelect (differences : Differences) (state : UpstreamBulkSelectState) (prev : ResolutionsMap) : ResolutionsMap :=
  applyResolutionSelections prev differences (selections state).
Definition handleBulkUnselect (state : UpstreamBulkSelectState) (prev : ResolutionsMap) : ResolutionsMap :=
  applyResolutionRemovalPlan prev (removalPlan state).

(** ** The page's state *)
(** What the administrator can do to the resolutions, with the differences the
    page holds at that moment.  A choice is offered in the row of its model, so
    the model has an entry in the differences. *)
Inductive SyncAction :=
  | Select (differences : Differences) (selection : ResolutionSelection)
  | SelectMany (differences : Differences) (sels : list ResolutionSelection)
  | Unselect (model : jsstr) (ratioType : RatioType)
  | UnselectMany (plan : ResolutionRemovalPlan)
  | ResetAll.

Definition runAction (res : ResolutionsMap) (a : SyncAction) : ResolutionsMap :=
  match a with
  | Select d s => applyResolutionSelection res d s
  | SelectMany d ss => if bool_decide (length ss = 0) then res else applyResolutionSelections res d ss
  | Unselect m t => deleteResolutionField res m t
  | UnselectMany plan => if bool_decide (length plan = 0) then res else applyResolutionRemovalPlan res plan
  | ResetAll => ∅
  end.

Definition offered (a : SyncAction) : Prop :=
  match a with
  | Select d s => is_Some (d !! model s)
  | SelectMany d ss => Forall (fun s => is_Some (d !! model s)) ss
  | UnselectMany plan => NoDup (map_keys plan)
  | _ => True
  end.

Inductive reachable : ResolutionsMap -> Prop :=
  | reach_init : reachable ∅
  | reach_step res a : reachable res -> offered a -> reachable (runAction res a).

(** A model's resolution never mixes a fixed price with ratios, holds a billing
    mode whenever it holds a billing expression, and is not empty. *)
Definition coherent (r : ModelResolution) : Prop :=
  r <> ∅ /\
  (forall a b, is_Some (r !! a) -> is_Some (r !! b) -> getBillingCategory a = Cprice -> getBillingCategory b = Cratio -> False) /\
  (is_Some (r !! f_billing_expr) -> is_Some (r !! f_billing_mode)).

(** ** Lemmas *)
(** The selections of a model, and their effect on its resolution. *)
Definition selectionsOf (m : jsstr) (sels : list ResolutionSelection) : list ResolutionSelection :=
  filter (fun s => model s = m) sels.
Definition updateDrafts (differences : Differences) (sels : list ResolutionSelection) (r : ModelResolution) : ModelResolution :=
  fold_left (fun r s => updateDraft differences s r) sels r.

Lemma draft_step res diffs ds s m :
  map_get m (applyResolutionSelectionToDraft ds res diffs s)
  = if bool_decide (model s = m)
    then Some (updateDraft diffs s (default (default ∅ (res !! m)) (map_get m ds)))
    else map_get m ds.
Proof.
  unfold applyResolutionSelectionToDraft, getDraftModelResolution.
  destruct (map_get (model s) ds) eqn:E; cbv beta iota zeta;
    (case_bool_decide as H; [subst m; rewrite map_get_set_eq, E; done |]).
  - by rewrite map_get_set_ne by congruence.
  - by rewrite !(map_get_set_ne m (model s)) by congruence.
Qed.

Lemma draft_fold res diffs sels ds m :
  map_get m (fold_left (fun ds s => applyResolutionSelectionToDraft ds res diffs s) sels ds)
  = match selectionsOf m sels with
    | [] => map_get m ds
    | sm => Some (updateDrafts diffs sm (default (default ∅ (res !! m)) (map_get m ds)))
    end.
Proof.
  revert ds. induction sels as [|s sels IH]; intros ds; [done|]. cbn [fold_left].
  rewrite IH, draft_step. unfold selectionsOf. rewrite filter_cons.
  destruct (decide (model s = m)) as [E|E].
  - rewrite bool_decide_true by done. by destruct (filter _ sels).
  - by rewrite bool_decide_false by done.
Qed.

Lemma draft_keys res diffs sels ds :
  NoDup (map_keys ds) ->
  NoDup (map_keys (fold_left (fun ds s => applyResolutionSelectionToDraft ds res diffs s) sels ds)).
Proof.
  revert ds. induction sels as [|s sels IH]; intros ds H; [done|]. cbn [fold_left]. apply IH.
  unfold applyResolutionSelectionToDraft, getDraftModelResolution.
  destruct (map_get (model s) ds); auto with js.
Qed.

Lemma write_drafts_lookup ds next m :
  NoDup (map_keys ds) ->
  fold_left writeDraft ds next !! m
  = match map_get m ds with
    | None => next !! m
    | Some d => if bool_decide (d = ∅) then None else Some d
    end.
Proof.
  revert next. induction ds as [|[k d] ds IH]; intros next H; [done|].
  change (NoDup (k :: map_keys ds)) in H. apply NoDup_cons in H as [Hk H]. cbn [fold_left map_get].
  rewrite IH by done. unfold writeDraft at 1. cbn [fst snd].
  destruct (decide (m = k)) as [->|E].
  - apply map_get_None in Hk. rewrite Hk, (bool_decide_true (k = k)) by done.
    case_bool_decide; [by rewrite lookup_delete_eq | by rewrite lookup_insert_eq].
  - rewrite (bool_decide_false (m = k)) by done. destruct (map_get m ds); [done|].
    case_bool_decide; [by rewrite lookup_delete_ne | by rewrite lookup_insert_ne].
Qed.

Lemma category_tiered k : getBillingCategory k = Ctiered <-> k = f_billing_mode \/ k = f_billing_expr.
Proof.
  unfold getBillingCategory. case_bool_decide as H1.
  - subst. split; [done | intros [H|H]; vm_compute in H; done].
  - destruct (decide (k = f_billing_mode)), (decide (k = f_billing_expr));
      rewrite ?bool_decide_true, ?bool_decide_false by done; cbn; naive_solver.
Qed.

(** What a selection writes, outside and inside the tiered fields. *)
Lemma updateDraft_lookup_plain diffs s r k :
  getBillingCategory k <> Ctiered ->
  updateDraft diffs s r !! k
  = let '(ft, fv) := preferredOf diffs s in
    if bool_decide (k = ft) then Some fv
    else if bool_decide (getBillingCategory ft <> Ctiered /\ getBillingCategory k <> getBillingCategory ft)
         then None else r !! k.
Proof.
  intros Hk. unfold updateDraft. destruct (preferredOf diffs s) as [ft fv].
  assert (Hm : k <> f_billing_mode /\ k <> f_billing_expr).
  { rewrite category_tiered in Hk. naive_solver. }
  destruct Hm as [Hm He].
  match goal with |- context [filter ?P r] => set (r1 := filter P r) end.
  assert (H2 : <[ft:=fv]> r1 !! k = if bool_decide (k = ft) then Some fv
    else if bool_decide (getBillingCategory ft <> Ctiered /\ getBillingCategory k <> getBillingCategory ft)
         then None else r !! k).
  { destruct (decide (k = ft)) as [->|E].
    - by rewrite lookup_insert_eq, bool_decide_true by done.
    - rewrite lookup_insert_ne, (bool_decide_false (k = ft)) by done. unfold r1.
      case_bool_decide as Hc.
      + apply map_lookup_filter_None. right. intros x _ Hn. apply Hn. cbn. naive_solver.
      + destruct (r !! k) eqn:Er.
        * apply map_lookup_filter_Some. split; [done|]. cbn. intros [? [? ?]]. naive_solver.
        * apply map_lookup_filter_None. by left. }
  destruct (diffs !! model s) as [d|]; [|exact H2].
  destruct (decide (getBillingCategory ft = Ctiered)) as [Ht|Ht];
    [rewrite (bool_decide_true (_ = Ctiered)) by done | by rewrite (bool_decide_false (_ = Ctiered)) by done].
  rewrite <- H2.
  destruct (upstreamValue d f_billing_mode _), (upstreamValue d f_billing_expr _);
    repeat case_bool_decide; by rewrite ?lookup_insert_ne by congruence.
Qed.

Lemma updateDraft_lookup_tiered diffs s r k :
  getBillingCategory k = Ctiered ->
  getBillingCategory (preferredOf diffs s).1 <> Ctiered ->
  updateDraft diffs s r !! k = r !! k.
Proof.
  intros Hk. unfold updateDraft. destruct (preferredOf diffs s) as [ft fv]. cbn [fst]. intros Hf.
  rewrite (bool_decide_false (_ = Ctiered)) by done.
  match goal with |- context [filter ?P r] => set (r1 := filter P r) end.
  assert (H : <[ft:=fv]> r1 !! k = r !! k).
  { rewrite lookup_insert_ne by congruence. unfold r1. destruct (r !! k) eqn:Er.
    - apply map_lookup_filter_Some. split; [done|]. cbn. naive_solver.
    - apply map_lookup_filter_None. by left. }
  by destruct (diffs !! model s).
Qed.

Lemma updateDraft_nonempty diffs s r : updateDraft diffs s r <> ∅.
Proof.
  unfold updateDraft. destruct (preferredOf diffs s) as [ft fv].
  match goal with |- context [<[ft:=fv]> ?r] => set (r1 := r) end.
  destruct (diffs !! model s) as [d|]; [|apply insert_non_empty].
  case_bool_decide; [|apply insert_non_empty].
  destruct (upstreamValue d f_billing_mode _), (upstreamValue d f_billing_expr _);
    repeat case_bool_decide; apply insert_non_empty.
Qed.

Lemma updateDrafts_nonempty diffs s sels r : updateDrafts diffs (s :: sels) r <> ∅.
Proof.
  unfold updateDrafts. cbn [fold_left]. generalize (updateDraft_nonempty diffs s r).
  generalize (updateDraft diffs s r). induction sels as [|s' sels IH]; intros r' H; [done|].
  cbn [fold_left]. apply IH, updateDraft_nonempty.
Qed.

(** The state after a batch, model by model. *)
Lemma apply_selections_lookup res diffs sels m :
  applyResolutionSelections res diffs sels !! m
  = match selectionsOf m sels with
    | [] => res !! m
    | sm => Some (updateDrafts diffs sm (default ∅ (res !! m)))
    end.
Proof.
  unfold applyResolutionSelections. case_bool_decide as H.
  { destruct sels; [done | discriminate]. }
  rewrite write_drafts_lookup by (apply draft_keys; constructor). rewrite draft_fold.
  destruct (selectionsOf m sels) as [|s sm]; [done|].
  rewrite bool_decide_false; [done | apply updateDrafts_nonempty].
Qed.

(** Removing [types] from a resolution also takes the other billing field. *)
Definition removed (types : list RatioType) (k : jsstr) : Prop :=
  k ∈ types \/ (k = f_billing_mode /\ f_billing_expr ∈ types) \/ (k = f_billing_expr /\ f_billing_mode ∈ types).
#[global] Instance removed_dec types k : Decision (removed types k).
Proof. unfold removed. solve_decision. Defined.

Definition withoutRemoved (types : list RatioType) (r : ModelResolution) : ModelResolution :=
  filter (fun kv => ~ removed types kv.1) r.

Lemma withoutRemoved_lookup types r k :
  withoutRemoved types r !! k = if bool_decide (removed types k) then None else r !! k.
Proof.
  unfold withoutRemoved. case_bool_decide as H.
  - apply map_lookup_filter_None. right. naive_solver.
  - destruct (r !! k) eqn:E.
    + by apply map_lookup_filter_Some.
    + apply map_lookup_filter_None. by left.
Qed.

Lemma removeField_filter rt r : removeField r rt = withoutRemoved [rt] r.
Proof.
  apply map_eq. intros k. rewrite withoutRemoved_lookup. unfold removeField.
  case_bool_decide as H1; case_bool_decide as H2; case_bool_decide as H3;
    unfold removed in H1, H2, H3; rewrite ?list_elem_of_singleton in *;
    rewrite ?lookup_delete_None, ?lookup_delete_ne; naive_solver.
Qed.

Lemma withoutRemoved_app a b r : withoutRemoved b (withoutRemoved a r) = withoutRemoved (a ++ b) r.
Proof.
  apply map_eq. intros k. rewrite !withoutRemoved_lookup.
  repeat case_bool_decide; unfold removed in *; rewrite ?elem_of_app in *; naive_solver.
Qed.

Lemma withoutRemoved_perm a b r : (forall t, t ∈ a <-> t ∈ b) -> withoutRemoved a r = withoutRemoved b r.
Proof.
  intros H. apply map_eq. intros k. rewrite !withoutRemoved_lookup.
  repeat case_bool_decide; unfold removed in *; rewrite ?H in *; naive_solver.
Qed.

Lemma withoutRemoved_nil r : withoutRemoved [] r = r.
Proof.
  apply map_eq. intros k. rewrite withoutRemoved_lookup, bool_decide_false; [done|].
  unfold removed. set_solver.
Qed.

Lemma removeFields_filter types r : fold_left removeField types r = withoutRemoved types r.
Proof.
  revert r. induction types as [|t types IH]; intros r; cbn [fold_left].
  - by rewrite withoutRemoved_nil.
  - by rewrite IH, removeField_filter, withoutRemoved_app.
Qed.

(** The types the removals name for a model. *)
Definition typesOf (m : jsstr) (rs : list ResolutionRemoval) : list RatioType :=
  map rratioType (filter (fun r => rmodel r = m) rs).

Lemma plan_fold rs plan m :
  NoDup (map_keys plan) ->
  let plan' := fold_left planStep rs plan in
  NoDup (map_keys plan') /\
  (map_get m plan' = None <-> map_get m plan = None /\ typesOf m rs = []) /\
  (forall t, t ∈ default [] (map_get m plan') <-> t ∈ default [] (map_get m plan) \/ t ∈ typesOf m rs).
Proof.
  revert plan. induction rs as [|r rs IH]; intros plan H; cbn [fold_left].
  { cbn. split; [done|]. split; [naive_solver|]. set_solver. }
  assert (H' : NoDup (map_keys (planStep plan r))).
  { unfold planStep. destruct (map_get (rmodel r) plan); auto with js. }
  destruct (IH _ H') as (HN & HE & HT). split; [done|]. rewrite HE. setoid_rewrite HT. clear IH HE HT HN H H'.
  unfold typesOf, planStep. rewrite filter_cons. destruct (decide (rmodel r = m)) as [<-|E].
  - destruct (map_get (rmodel r) plan) eqn:Eg; rewrite map_get_set_eq; cbn; split;
      try (split; [intros [? ?]; done | intros [? ?]; done]).
    + intros t. rewrite elem_of_set_add, elem_of_cons. naive_solver.
    + intros t. rewrite list_elem_of_singleton, elem_of_cons. set_solver.
  - destruct (map_get (rmodel r) plan) eqn:Eg; rewrite map_get_set_ne by congruence; naive_solver.
Qed.

Lemma removal_plan_lookup res plan m :
  NoDup (map_keys plan) ->
  applyResolutionRemovalPlan res plan !! m
  = match res !! m, map_get m plan with
    | Some r, Some types => let d := withoutRemoved types r in if bool_decide (d = ∅) then None else Some d
    | o, _ => o
    end.
Proof.
  unfold applyResolutionRemovalPlan. intros H. case_bool_decide as Hl.
  { destruct plan; [by destruct (res !! m) | discriminate]. }
  clear Hl. assert (G : forall next, fold_left (removalStep res) plan next !! m
    = match res !! m, map_get m plan with
      | Some r, Some types => let d := withoutRemoved types r in if bool_decide (d = ∅) then None else Some d
      | _, _ => next !! m end); [|rewrite G; by destruct (res !! m), (map_get m plan)].
  induction plan as [|[k types] plan IH]; intros next; [by destruct (res !! m)|].
  change (NoDup (k :: map_keys plan)) in H. apply NoDup_cons in H as [Hk H].
  cbn [fold_left map_get fst snd]. rewrite (IH H). clear IH. apply map_get_None in Hk.
  destruct (decide (m = k)) as [->|E].
  - rewrite Hk, (bool_decide_true (k = k)) by done. unfold removalStep. cbn [fst snd].
    destruct (res !! k) as [r|]; [|done].
    rewrite removeFields_filter. unfold writeDraft. cbn [fst snd]. cbv zeta.
    case_bool_decide; [by rewrite lookup_delete_eq | by rewrite lookup_insert_eq].
  - rewrite (bool_decide_false (m = k)) by done.
    assert (Hn : removalStep res next (k, types) !! m = next !! m).
    { unfold removalStep, writeDraft. cbn [fst snd]. destruct (res !! k); [|done].
      case_bool_decide; [by rewrite lookup_delete_ne | by rewrite lookup_insert_ne]. }
    by destruct (res !! m), (map_get m plan).
Qed.

Lemma removals_lookup res rs m :
  applyResolutionRemovals res rs !! m
  = match res !! m with
    | None => None
    | Some r =>
        if bool_decide (typesOf m rs = []) then Some r
        else let d := withoutRemoved (typesOf m rs) r in if bool_decide (d = ∅) then None else Some d
    end.
Proof.
  unfold applyResolutionRemovals. case_bool_decide as H.
  { destruct rs; [|discriminate]. by destruct (res !! m). }
  destruct (plan_fold rs [] m) as (HN & HE & HT); [constructor|]. cbn in HE, HT.
  rewrite removal_plan_lookup by done. destruct (res !! m) as [r|]; [|done].
  destruct (map_get m (fold_left planStep rs [])) as [ts|] eqn:E.
  - rewrite (bool_decide_false (typesOf m rs = [])) by (intros ?; naive_solver). cbv zeta.
    rewrite (withoutRemoved_perm ts (typesOf m rs)); [done|]. intros t. rewrite <- (right_id False or (t ∈ ts)).
    cbn in HT. rewrite HT. set_solver.
  - rewrite bool_decide_true; [done|]. by apply HE.
Qed.

Lemma typesOf_app m a b : typesOf m (a ++ b) = typesOf m a ++ typesOf m b.
Proof. unfold typesOf. by rewrite filter_app, map_app. Qed.

Lemma withoutRemoved_empty types : withoutRemoved types ∅ = ∅.
Proof. apply map_filter_empty. Qed.

(** ** Properties *)

(** Applying a batch of selections is applying its parts one after the
    other: the drafts shared by the selections of a batch never lose or reorder
    an update, so a bulk choice and a sequence of single choices end in the
    same state. *)
Theorem selections_batch res diffs a b :
  applyResolutionSelections res diffs (a ++ b)
  = applyResolutionSelections (applyResolutionSelections res diffs a) diffs b.
Proof.
  apply map_eq. intros m. rewrite !apply_selections_lookup. unfold selectionsOf. rewrite filter_app.
  destruct (filter _ a) as [|s sa]; [by destruct (filter _ b)|].
  destruct (filter _ b) as [|t sb]; [by rewrite app_nil_r|].
  f_equal. apply (fold_left_app _ (s :: sa) (t :: sb)).
Qed.

(** A batch of removals takes away exactly the named fields of the named
    models, with the other billing field whenever one of [billing_mode] and
    [billing_expr] is named; a model with no field left disappears, every other
    model and field is untouched, and the batch is the same as removing its
    parts one after the other. *)
Theorem removals_exact res a b m k :
  let hit := exists r, r ∈ a /\ rmodel r = m /\ removed [rratioType r] k in
  (applyResolutionRemovals res a !! m ≫= (fun r => r !! k))
    = (if decide (removed (typesOf m a) k) then None else res !! m ≫= (fun r => r !! k)) /\
  (removed (typesOf m a) k <-> hit) /\
  (typesOf m a <> [] -> applyResolutionRemovals res a !! m <> Some ∅) /\
  (typesOf m a = [] -> applyResolutionRemovals res a !! m = res !! m) /\
  applyResolutionRemovals res (a ++ b) = applyResolutionRemovals (applyResolutionRemovals res a) b.
Proof.
  cbv zeta. split_and!.
  - rewrite removals_lookup. destruct (res !! m) as [r|]; [|by case_decide]. cbv zeta.
    destruct (decide (typesOf m a = [])) as [E|E].
    + rewrite (bool_decide_true (typesOf m a = [])) by done. rewrite E. cbn.
      rewrite decide_False; [done|]. unfold removed. set_solver.
    + rewrite (bool_decide_false (typesOf m a = [])) by done.
      assert (H := withoutRemoved_lookup (typesOf m a) r k).
      destruct (decide (removed (typesOf m a) k)); rewrite ?bool_decide_true, ?bool_decide_false in H by done;
        case_bool_decide as H2; cbn; try done; rewrite H2, lookup_empty in H; done.
  - unfold removed, typesOf. repeat setoid_rewrite list_elem_of_fmap. setoid_rewrite list_elem_of_filter.
    setoid_rewrite list_elem_of_singleton. naive_solver.
  - intros E. rewrite removals_lookup. destruct (res !! m); [|done]. cbv zeta.
    rewrite (bool_decide_false (typesOf m a = [])) by done. case_bool_decide; congruence.
  - intros E. rewrite removals_lookup. destruct (res !! m); [|done]. by rewrite bool_decide_true.
  - apply map_eq. intros n. rewrite !removals_lookup, typesOf_app. cbv zeta.
    destruct (res !! n) as [r|]; [|done].
    destruct (typesOf n a) as [|ta la]; [done|].
    rewrite (bool_decide_false (ta :: la = [])), (bool_decide_false ((ta :: la) ++ _ = [])) by done.
    rewrite <- withoutRemoved_app. destruct (decide (withoutRemoved (ta :: la) r = ∅)) as [H1|H1].
    + by rewrite H1, withoutRemoved_empty, (bool_decide_true (∅ = ∅)).
    + rewrite (bool_decide_false _ H1). destruct (typesOf n b); [|done].
      rewrite withoutRemoved_nil, (bool_decide_true ([] = [])) by done. by rewrite bool_decide_false.
Qed.

(** *** Coherence of the reachable states *)
Lemma coherent_updateDraft diffs s r :
  is_Some (diffs !! model s) -> r = ∅ \/ coherent r -> coherent (updateDraft diffs s r).
Proof.
  intros Hd Hr. split; [apply updateDraft_nonempty|]. split.
  - intros a b Ha Hb Ca Cb.
    rewrite updateDraft_lookup_plain in Ha by (rewrite Ca; done).
    rewrite updateDraft_lookup_plain in Hb by (rewrite Cb; done).
    destruct (preferredOf diffs s) as [ft fv]. rewrite Ca in Ha. rewrite Cb in Hb.
    destruct (getBillingCategory ft) eqn:F; repeat case_bool_decide; subst;
      try (by destruct Ha); try (by destruct Hb); try congruence; try naive_solver.
    destruct Hr as [->|(_ & Hr & _)]; [rewrite lookup_empty in Ha; by destruct Ha | exact (Hr a b Ha Hb Ca Cb)].
  - destruct (decide (getBillingCategory (preferredOf diffs s).1 = Ctiered)) as [T|T].
    + intros _. unfold updateDraft. destruct (preferredOf diffs s) as [ft fv]. cbn [fst] in T.
      destruct Hd as [d ->]. rewrite (bool_decide_true (_ = Ctiered)) by done. cbv zeta.
      match goal with |- context [<[ft:=fv]> ?r] => set (r2 := <[ft:=fv]> r) end.
      assert (H3 : is_Some ((match upstreamValue d f_billing_mode (sourceName s) with
          | Some v => if bool_decide (v <> v_same) then <[f_billing_mode:=v]> r2
              else if bool_decide (ft = f_billing_expr) then <[f_billing_mode:=VStr (js "tiered_expr")]> r2 else r2
          | None => if bool_decide (ft = f_billing_expr) then <[f_billing_mode:=VStr (js "tiered_expr")]> r2 else r2
          end) !! f_billing_mode)).
      { apply category_tiered in T as [-> | ->]; unfold r2.
        - rewrite (bool_decide_false (f_billing_mode = f_billing_expr)) by done.
          destruct (upstreamValue d f_billing_mode _); [case_bool_decide|]; rewrite lookup_insert_eq; done.
        - rewrite (bool_decide_true (f_billing_expr = f_billing_expr)) by done.
          destruct (upstreamValue d f_billing_mode _); [case_bool_decide|]; rewrite lookup_insert_eq; done. }
      destruct (upstreamValue d f_billing_expr _) as [v|]; [|exact H3].
      destruct (bool_decide (v <> v_same)); [rewrite lookup_insert_ne by done|]; exact H3.
    + rewrite !updateDraft_lookup_tiered by done.
      destruct Hr as [->|(_ & _ & Hr)]; [|done]. rewrite lookup_empty. by intros [? ?].
Qed.

Lemma coherent_updateDrafts diffs sels r :
  Forall (fun s => is_Some (diffs !! model s)) sels -> r = ∅ \/ coherent r ->
  updateDrafts diffs sels r = ∅ \/ coherent (updateDrafts diffs sels r).
Proof.
  intros H. revert r. unfold updateDrafts.
  induction H as [|s sels Hs _ IH]; intros r Hr; [done|]. cbn [fold_left].
  apply IH. right. by apply coherent_updateDraft.
Qed.

Lemma coherent_withoutRemoved types r :
  coherent r -> withoutRemoved types r <> ∅ -> coherent (withoutRemoved types r).
Proof.
  intros (_ & H1 & H2) HN. split; [done|]. split.
  - intros a b. rewrite !withoutRemoved_lookup. repeat case_bool_decide; try (by intros [? ?]); try (by intros ? [? ?]).
    apply H1.
  - rewrite !withoutRemoved_lookup. case_bool_decide as E; [by intros [? ?]|]. intros Hs.
    rewrite bool_decide_false; [by apply H2|]. unfold removed in *. naive_solver.
Qed.

Lemma coherent_plan res plan :
  NoDup (map_keys plan) -> map_Forall (fun _ r => coherent r) res ->
  map_Forall (fun _ r => coherent r) (applyResolutionRemovalPlan res plan).
Proof.
  intros HN H m r Hm. rewrite removal_plan_lookup in Hm by done.
  destruct (res !! m) as [r0|] eqn:E; [|done]. specialize (H m r0 E). cbn in H.
  destruct (map_get m plan); cbv zeta in Hm; [case_bool_decide|]; simplify_eq; [|done].
  by apply coherent_withoutRemoved.
Qed.

Lemma coherent_selections res diffs sels :
  Forall (fun s => is_Some (diffs !! model s)) sels -> map_Forall (fun _ r => coherent r) res ->
  map_Forall (fun _ r => coherent r) (applyResolutionSelections res diffs sels).
Proof.
  intros HS H m r Hm. rewrite apply_selections_lookup in Hm.
  destruct (selectionsOf m sels) as [|s sm] eqn:E; [by apply (H m)|]. simplify_eq.
  destruct (coherent_updateDrafts diffs (s :: sm) (default ∅ (res !! m))) as [H0|H0]; [| | |done].
  - rewrite <- E. rewrite Forall_forall in *. intros x [_ Hx]%list_elem_of_filter. by apply HS.
  - destruct (res !! m) as [r|] eqn:Em; [right; by apply (H m) | by left].
  - by apply updateDrafts_nonempty in H0.
Qed.

(** C20.  In every state the page can reach, each model's resolution is not
    empty, never mixes a fixed price with ratio fields, and never holds a
    billing expression without a billing mode. *)
Theorem reachable_coherent res m r : reachable res -> res !! m = Some r -> coherent r.
Proof.
  intros H. revert m r. change (map_Forall (fun _ r => coherent r) res).
  induction H as [|res a _ IH Ha]; [apply map_Forall_empty|].
  destruct a as [d s|d ss|m t|plan|]; cbn [runAction offered] in *.
  - apply coherent_selections; [by constructor | done].
  - case_bool_decide; [done|]. by apply coherent_selections.
  - unfold deleteResolutionField, applyResolutionRemovals. cbn. apply coherent_plan; [|done]. apply NoDup_singleton.
  - case_bool_decide; [done|]. by apply coherent_plan.
  - apply map_Forall_empty.
Qed.

Lemma reachable_coherent_witness :
  let d := {[ js "gpt" := [(f_model_price, mkEntry None {[ js "up" := VNum (num_of_Z 2) ]} ∅)] ]} : Differences in
  let res := runAction ∅ (Select d (mkSel (js "gpt") f_model_price (VNum (num_of_Z 2)) (js "up"))) in
  let r := {[ f_model_price := VNum (num_of_Z 2) ]} : ModelResolution in
  res !! js "gpt" = Some r /\ coherent r.
Proof.
  cbv zeta.
  assert (E : runAction ∅ (Select {[ js "gpt" := [(f_model_price, mkEntry None {[ js "up" := VNum (num_of_Z 2) ]} ∅)] ]}
      (mkSel (js "gpt") f_model_price (VNum (num_of_Z 2)) (js "up"))) !! js "gpt"
    = Some {[ f_model_price := VNum (num_of_Z 2) ]}) by (vm_compute; reflexivity).
  split; [exact E|]. refine (reachable_coherent _ (js "gpt") _ _ E).
  apply reach_step; [apply reach_init|]. exists [(f_model_price, mkEntry None {[ js "up" := VNum (num_of_Z 2) ]} ∅)].
  vm_compute. reflexivity.
Defined.

(** *** Bulk selection *)
(** A selection offered for the source [u]: the model's row has that value at
    that field, it is selectable and the field is the preferred one. *)
Definition sound (diffs : Differences) (u : jsstr) (s : ResolutionSelection) : Prop :=
  exists d, diffs !! model s = Some d /\ sourceName s = u /\
    upstreamValue d (ratioType s) u = Some (value s) /\ value s <> v_same /\
    getPreferredSyncField d (ratioType s) u = ratioType s.

Lemma sound_preferred diffs u s : sound diffs u s -> preferredOf diffs s = (ratioType s, value s).
Proof.
  intros (d & Hd & <- & _ & _ & Hp). unfold preferredOf. rewrite Hd. cbn [from_option id].
  cbv zeta. rewrite Hp. by rewrite bool_decide_true.
Qed.

Lemma sound_resolve diffs u s : sound diffs u s -> resolveResolutionSelection diffs s = s.
Proof. intros H. unfold resolveResolutionSelection. rewrite (sound_preferred _ _ _ H). by destruct s. Qed.

(** A row that offers a plain or mode choice has no selectable expression. *)
Lemma sound_no_expr diffs u s d v :
  sound diffs u s -> ratioType s <> f_billing_expr -> diffs !! model s = Some d ->
  upstreamValue d f_billing_expr u = Some v -> v = v_same.
Proof.
  intros (d' & Hd & _ & _ & _ & Hp) Hn Hd' Hv. rewrite Hd in Hd'. injection Hd' as ->.
  unfold getPreferredSyncField in Hp. rewrite Hv in Hp. rewrite (bool_decide_true (_ <> _)) in Hp by done.
  cbn [andb] in Hp. destruct (decide (v = v_same)) as [E|E]; [done|].
  rewrite bool_decide_true in Hp by done. congruence.
Qed.

Lemma updateDraft_writes diffs u s r : sound diffs u s -> updateDraft diffs s r !! ratioType s = Some (value s).
Proof.
  intros H. pose proof (sound_preferred _ _ _ H) as Hp.
  destruct (decide (getBillingCategory (ratioType s) = Ctiered)) as [T|T].
  2: { rewrite updateDraft_lookup_plain, Hp by done. by rewrite bool_decide_true. }
  pose proof (sound_no_expr diffs u s) as Hno. pose proof H as (d & Hd & Hu & Hv & Hs & _).
  unfold updateDraft. rewrite Hp, Hd, Hu. cbv zeta. rewrite (bool_decide_true (_ = Ctiered)) by done.
  apply category_tiered in T as [T|T].
  - rewrite T in *. rewrite Hv. rewrite (bool_decide_true (value s <> v_same)) by done.
    destruct (upstreamValue d f_billing_expr u) as [v|] eqn:Ev; [|apply lookup_insert_eq].
    rewrite bool_decide_false; [apply lookup_insert_eq|]. intros Hn. apply Hn.
    by apply (Hno d).
  - rewrite T in *. rewrite Hv. rewrite (bool_decide_true (value s <> v_same)) by done. apply lookup_insert_eq.
Qed.

Lemma updateDraft_keeps diffs u s s' r :
  sound diffs u s -> sound diffs u s' -> model s = model s' -> ratioType s <> ratioType s' ->
  (getBillingCategory (ratioType s) <> Ctiered -> getBillingCategory (ratioType s') <> Ctiered ->
   getBillingCategory (ratioType s) = getBillingCategory (ratioType s')) ->
  updateDraft diffs s' r !! ratioType s = r !! ratioType s.
Proof.
  intros H H' Em En Hc. pose proof (sound_preferred _ _ _ H') as Hp.
  destruct (decide (getBillingCategory (ratioType s) = Ctiered)) as [T|T].
  - destruct (decide (getBillingCategory (ratioType s') = Ctiered)) as [T'|T'].
    2: { apply updateDraft_lookup_tiered; [done | by rewrite Hp]. }
    exfalso. apply category_tiered in T, T'.
    pose proof (sound_no_expr diffs u s) as N. pose proof (sound_no_expr diffs u s') as N'.
    pose proof H as (d & Hd & _ & Hv & Hs & _). pose proof H' as (d' & Hd' & _ & Hv' & Hs' & _).
    assert (d' = d) as -> by congruence.
    destruct T as [T|T], T' as [T'|T']; try congruence.
    + rewrite T' in Hv'. apply Hs', (N d); [done | by rewrite T | done | done].
    + rewrite T in Hv. apply Hs, (N' d); [done | by rewrite T' | done | done].
  - rewrite updateDraft_lookup_plain, Hp by done. rewrite (bool_decide_false (_ = _)) by done.
    rewrite bool_decide_false; [done|]. intros [T' N]. by apply N, Hc.
Qed.

(** Selections that name each field once and never mix price and ratio. *)
Definition compatible (l : list ResolutionSelection) : Prop :=
  NoDup (map (fun s => (model s, ratioType s)) l) /\
  forall s s', s ∈ l -> s' ∈ l -> model s = model s' ->
    getBillingCategory (ratioType s) <> Ctiered -> getBillingCategory (ratioType s') <> Ctiered ->
    getBillingCategory (ratioType s) = getBillingCategory (ratioType s').

Lemma compatible_cons s l : compatible (s :: l) -> compatible l.
Proof. intros [H1 H2]. cbn in H1. apply NoDup_cons in H1 as [_ H1]. split; [done|]. set_solver. Qed.

Lemma updateDrafts_writes diffs u l s r :
  Forall (sound diffs u) l -> compatible l -> s ∈ l ->
  updateDrafts diffs (selectionsOf (model s) l) r !! ratioType s = Some (value s).
Proof.
  assert (K : forall l r, sound diffs u s -> Forall (sound diffs u) l ->
    (forall s', s' ∈ l -> model s = model s' -> ratioType s <> ratioType s' /\
      (getBillingCategory (ratioType s) <> Ctiered -> getBillingCategory (ratioType s') <> Ctiered ->
       getBillingCategory (ratioType s) = getBillingCategory (ratioType s'))) ->
    updateDrafts diffs (selectionsOf (model s) l) r !! ratioType s = r !! ratioType s).
  { clear l r. intros l r Hs H. revert r. induction H as [|x l Hx H IH]; intros r HK; [done|].
    unfold selectionsOf in *. rewrite filter_cons. destruct (decide (model x = model s)) as [E|E].
    - unfold updateDrafts in *. cbn [fold_left]. rewrite IH by set_solver.
      destruct (HK x) as [? ?]; [set_solver | done |]. by eapply updateDraft_keeps.
    - apply IH. set_solver. }
  intros HF HC Hs. revert r. induction HF as [|x l Hx HF IH]; intros r; [set_solver|].
  unfold selectionsOf in *. rewrite filter_cons.
  apply elem_of_cons in Hs as [->|Hs].
  - rewrite decide_True by done. unfold updateDrafts in *. cbn [fold_left].
    rewrite K; [by eapply updateDraft_writes | done | done |].
    intros s' Hs' Em. split; [|apply HC; [set_solver | set_solver | done]].
    intros Er. destruct HC as [HN _]. cbn in HN. apply NoDup_cons in HN as [HN _].
    apply HN. rewrite Em, Er. apply (list_elem_of_fmap_2 (fun s => (model s, ratioType s))). done.
  - apply compatible_cons in HC.
    destruct (decide (model x = model s)); [unfold updateDrafts in *; cbn [fold_left]|]; by apply IH.
Qed.

(** The entries of the map of effective selections. *)
Definition effective_inv (diffs : Differences) (u : jsstr) (sels : list ResolutionSelection)
    (M : list (jsstr * ResolutionSelection)) : Prop :=
  (forall k e, (k, e) ∈ M -> k = selectionKey e /\ sound diffs u e /\ e ∈ sels) /\
  NoDup (map_keys M) /\
  (forall k e k' e', (k, e) ∈ M -> (k', e') ∈ M -> model e = model e' ->
    getBillingCategory (ratioType e) <> Ctiered -> getBillingCategory (ratioType e') <> Ctiered ->
    getBillingCategory (ratioType e) = getBillingCategory (ratioType e')).

Lemma NoDup_keys_filter {A} (P : jsstr * A -> Prop) `{forall x, Decision (P x)} (M : list (jsstr * A)) :
  NoDup (map_keys M) -> NoDup (map_keys (filter P M)).
Proof. intros HN. eapply sublist_NoDup; [exact HN | apply fmap_sublist, sublist_filter]. Qed.

Lemma elem_of_map_set {K V} `{EqDecision K} (k k' : K) (v v' : V) M :
  NoDup (map_keys M) -> (k', v') ∈ map_set k v M -> (k' = k /\ v' = v) \/ (k' <> k /\ (k', v') ∈ M).
Proof.
  intros HN H. apply elem_map_get in H; [|auto with js].
  destruct (decide (k' = k)) as [->|E]; [rewrite map_get_set_eq in H; naive_solver|].
  rewrite map_get_set_ne in H by done. right. split; [done|]. by apply map_get_Some_elem.
Qed.

Lemma effective_step_inv diffs u sels M s :
  effective_inv diffs u sels M -> sound diffs u s -> s ∈ sels -> effective_inv diffs u sels (effectiveStep diffs M s).
Proof.
  intros (H1 & H2 & H3) Hs Hin. unfold effectiveStep. rewrite (sound_resolve _ _ _ Hs). cbv zeta.
  match goal with |- context [map_set _ _ ?K] => set (kept := K) end.
  assert (Hsub : forall x, x ∈ kept -> x ∈ M).
  { unfold kept. case_bool_decide; [|done]. intros x [_ Hx]%list_elem_of_filter. done. }
  assert (HN : NoDup (map_keys kept)) by (unfold kept; case_bool_decide; [by apply NoDup_keys_filter | done]).
  assert (Hk : forall k e, (k, e) ∈ kept -> model e = model s ->
    getBillingCategory (ratioType e) <> Ctiered -> getBillingCategory (ratioType s) <> Ctiered ->
    getBillingCategory (ratioType e) = getBillingCategory (ratioType s)).
  { intros k e He Em Te Ts. unfold kept in He. rewrite bool_decide_true in He by done.
    apply list_elem_of_filter in He as [He _]. cbn in He.
    destruct (decide (getBillingCategory (ratioType e) = getBillingCategory (ratioType s))); [done|].
    exfalso. by apply He. }
  split_and!.
  - intros k e [[-> ->]|[_ He]]%elem_of_map_set; [done | by apply H1, Hsub | done].
  - auto with js.
  - intros k e k' e' He He' Em Te Te'.
    apply elem_of_map_set in He as [[-> ->]|[_ He]]; [| |done];
    apply elem_of_map_set in He' as [[-> ->]|[_ He']]; try done.
    + symmetry. by eapply Hk.
    + by eapply Hk.
    + by eapply (H3 k e k' e'); [apply Hsub | apply Hsub | ..].
Qed.

Lemma effective_compatible diffs u sels :
  Forall (sound diffs u) sels ->
  let E := getEffectiveResolutionSelections diffs sels in
  Forall (sound diffs u) E /\ compatible E /\ (forall e, e ∈ E -> e ∈ sels).
Proof.
  intros HF. cbv zeta. unfold getEffectiveResolutionSelections, map_values.
  assert (G : forall l M, Forall (sound diffs u) l -> (forall s, s ∈ l -> s ∈ sels) -> effective_inv diffs u sels M ->
    effective_inv diffs u sels (fold_left (effectiveStep diffs) l M)).
  { induction l as [|s l IH]; intros M Hl Hi HM; [done|]. inversion Hl; subst. cbn [fold_left].
    apply IH; [done | set_solver |]. apply effective_step_inv; [done | done | set_solver]. }
  destruct (G sels [] HF) as (H1 & H2 & H3); [done | |].
  { split_and!; [set_solver | constructor | set_solver]. }
  set (M := fold_left _ _ _) in *. clearbody M. clear G.
  assert (Hv : forall e, e ∈ M.*2 -> exists k, (k, e) ∈ M).
  { intros e ([k e'] & -> & He)%list_elem_of_fmap. by exists k. }
  split_and!.
  - apply Forall_forall. intros e [k He]%Hv. by apply (H1 k).
  - split.
    + clear H3 Hv HF. induction M as [|[k e] M IH]; [constructor|]. cbn.
      change (NoDup (k :: map_keys M)) in H2. apply NoDup_cons in H2 as [Hk H2].
      apply NoDup_cons. split; [|apply IH; [set_solver | done]].
      rewrite list_elem_of_fmap. intros (e' & Ee & He'). rewrite list_elem_of_fmap in He'.
      destruct He' as ([k' e''] & -> & He'). cbn in Ee. injection Ee as Em Et.
      destruct (H1 k e) as [-> _]; [set_solver|]. destruct (H1 k' e'') as [-> _]; [set_solver|].
      apply Hk. unfold selectionKey. rewrite Em, Et. apply list_elem_of_fmap. by exists (selectionKey e'', e'').
    + intros e e' [k He]%Hv [k' He']%Hv. by apply (H3 k e k' e').
  - intros e [k He]%Hv. by apply (H1 k).
Qed.

Lemma num_eqb_refl x : num_is_finite x = true -> num_eqb x x = true.
Proof.
  destruct x as [s| | |s m e]; try done. intros _. unfold num_eqb, SpecFloat.SFeqb, SpecFloat.SFcompare.
  rewrite Z.compare_refl, Pcompare_refl. by destruct s.
Qed.

(** The values the comparison of [isSelectedResolutionValue] recognises. *)
Definition comparable (rt : RatioType) (v : SyncValue) : bool :=
  if set_has rt NUMERIC_SYNC_FIELDS then num_is_finite (Number v) else strict_eq v v.

Lemma selected_same res m rt v r :
  res !! m = Some r -> r !! rt = Some v -> v <> v_same -> comparable rt v = true ->
  isSelectedResolutionValue res m rt (Some v) = true.
Proof.
  intros Hm Hr Hs Hc. unfold isSelectedResolutionValue, isSelectableUpstreamValue.
  rewrite bool_decide_true, Hm by done. cbn [negb mbind option_bind]. rewrite Hr. unfold comparable in Hc.
  destruct (set_has rt NUMERIC_SYNC_FIELDS); [|done]. rewrite Hc. cbn. by apply num_eqb_refl.
Qed.

Lemma aligned_preferred d u flt rt :
  rt ∈ getAlignedRatioTypes d [u] flt -> getPreferredSyncField d rt u = rt.
Proof.
  unfold getAlignedRatioTypes. rewrite bool_decide_false by done. cbn [fold_left].
  intros [H _]%list_elem_of_filter. unfold set_has in H. apply bool_decide_eq_true in H.
  rewrite elem_of_set_fold in H. destruct H as [H|H]; [set_solver|].
  unfold getVisibleRatioTypesForSource in H. by apply list_elem_of_filter in H as [H _].
Qed.

Lemma rowSelections_sound diffs flt u row s :
  diffs !! row_model row = Some (ratioTypes row) -> s ∈ rowSelections flt u row -> sound diffs u s.
Proof.
  intros Hd. unfold rowSelections. rewrite list_elem_of_In, in_flat_map. intros (rt & Hrt & Hs).
  apply list_elem_of_In, aligned_preferred in Hrt.
  destruct (upstreamValue (ratioTypes row) rt u) as [v|] eqn:Ev; [|done].
  unfold isSelectableUpstreamValue in Hs. case_bool_decide; [|done].
  destruct Hs as [<-|[]]. exists (ratioTypes row). cbn. done.
Qed.

Lemma fold_plan sels plan :
  fold_left (fun p s => planStep p (mkRemoval (model s) (ratioType s))) sels plan
  = fold_left planStep (map (fun s => mkRemoval (model s) (ratioType s)) sels) plan.
Proof. revert plan. induction sels as [|s sels IH]; intros plan; [done|]. apply IH. Qed.

Lemma length_filter_all {A} (f : A -> bool) l : (forall x, x ∈ l -> f x = true) -> length (List.filter f l) = length l.
Proof.
  induction l as [|x l IH]; intros H; [done|]. cbn. rewrite H by set_solver. cbn. rewrite IH; set_solver.
Qed.

Lemma length_filter_none {A} (f : A -> bool) l : (forall x, x ∈ l -> f x = false) -> length (List.filter f l) = 0.
Proof.
  induction l as [|x l IH]; intros H; [done|]. cbn. rewrite H by set_solver. apply IH. set_solver.
Qed.

Lemma plan_removes sels res s :
  s ∈ sels ->
  applyResolutionRemovalPlan res (fold_left (fun p s => planStep p (mkRemoval (model s) (ratioType s))) sels [])
    !! model s ≫= (fun r => r !! ratioType s) = None.
Proof.
  intros Hs. rewrite fold_plan. destruct (plan_fold (map (fun s => mkRemoval (model s) (ratioType s)) sels) [] (model s))
    as (HN & _ & HT); [constructor|].
  rewrite removal_plan_lookup by done. set (plan := fold_left _ _ _) in *.
  assert (Ht : ratioType s ∈ default [] (map_get (model s) plan)).
  { apply HT. right. unfold typesOf. apply list_elem_of_fmap. exists (mkRemoval (model s) (ratioType s)).
    split; [done|]. apply list_elem_of_filter. split; [done|]. apply list_elem_of_fmap. by exists s. }
  destruct (res !! model s) as [r|]; [|done]. destruct (map_get (model s) plan) as [ts|]; [|set_solver].
  cbv zeta. case_bool_decide; [done|]. cbn. rewrite withoutRemoved_lookup, bool_decide_true; [done|]. by left.
Qed.

(** The bulk buttons of an upstream source do what they show: after "select
    all" every effective selection of the source counts as selected, and after
    "unselect all" none does, whatever had been chosen before.  The rows are
    those of the table of differences and the upstream values are finite
    numbers in the numeric fields. *)
Theorem bulk_select_complete diffs rows flt u res :
  (forall row, row ∈ rows -> diffs !! row_model row = Some (ratioTypes row)) ->
  (forall row rt v, row ∈ rows -> upstreamValue (ratioTypes row) rt u = Some v -> comparable rt v = true) ->
  let st := bulkSelectState diffs rows flt res u in
  selectedCount (bulkSelectState diffs rows flt (handleBulkSelect diffs st res) u) = selectableCount st /\
  selectedCount (bulkSelectState diffs rows flt (handleBulkUnselect st res) u) = 0.
Proof.
  intros Hrows Hval. cbv zeta. set (sels := flat_map (rowSelections flt u) rows).
  assert (HS : forall s, s ∈ sels -> sound diffs u s /\ comparable (ratioType s) (value s) = true).
  { intros s Hs. unfold sels in Hs. rewrite list_elem_of_In, in_flat_map in Hs. destruct Hs as (row & Hr & Hs).
    apply list_elem_of_In in Hr, Hs. pose proof (rowSelections_sound _ _ _ _ _ (Hrows row Hr) Hs) as H. split; [done|].
    destruct H as (d & Hd & _ & Hv & _). apply (Hval row); [done|].
    assert (Em : model s = row_model row).
    { unfold rowSelections in Hs. rewrite list_elem_of_In, in_flat_map in Hs. destruct Hs as (rt & _ & Hs).
      destruct (upstreamValue _ rt u); [|done]. destruct (isSelectableUpstreamValue _); [|done].
      by destruct Hs as [<-|[]]. }
    rewrite Em, (Hrows row Hr) in Hd. by injection Hd as <-. }
  destruct (effective_compatible diffs u sels) as (HE & HC & HI).
  { apply Forall_forall. intros s Hs. by apply HS. }
  unfold bulkSelectState, handleBulkSelect, handleBulkUnselect.
  cbn [selectedCount selectableCount RatioSync.selections removalPlan]. fold sels.
  set (E := getEffectiveResolutionSelections diffs sels) in *. split.
  - apply length_filter_all. intros e He. pose proof (HS e (HI e He)) as [Hs Hc].
    pose proof (updateDrafts_writes diffs u E e (default ∅ (res !! model e)) HE HC He) as Hw.
    destruct Hs as (_ & _ & _ & _ & Hs & _).
    pose proof (apply_selections_lookup res diffs E (model e)) as Hl.
    destruct (selectionsOf (model e) E) as [|x l] eqn:Ex.
    { assert (Hx : e ∈ selectionsOf (model e) E) by (apply list_elem_of_filter; done).
      rewrite Ex in Hx. set_solver. }
    by eapply selected_same.
  - apply length_filter_none. intros e He. pose proof (plan_removes sels res e (HI e He)) as Hn.
    unfold isSelectedResolutionValue. destruct (negb _); [done|]. by rewrite Hn.
Qed.

Lemma bulk_select_complete_witness :
  let d := [(f_billing_expr, mkEntry None {[ js "up" := VStr (js "p*2") ]} ∅);
            (f_model_price, mkEntry None {[ js "up" := VNum (num_of_Z 2) ]} ∅)] in
  let diffs := {[ js "gpt" := d ]} : Differences in
  let rows := [mkRow (js "gpt") (js "gpt") d false] in
  let st := bulkSelectState diffs rows None ∅ (js "up") in
  selectedCount (bulkSelectState diffs rows None (handleBulkSelect diffs st ∅) (js "up")) = selectableCount st /\
  selectedCount (bulkSelectState diffs rows None (handleBulkUnselect st ∅) (js "up")) = 0.
Proof.
  cbv zeta. apply bulk_select_complete.
  - intros row ->%list_elem_of_singleton. vm_compute. reflexivity.
  - intros row rt v ->%list_elem_of_singleton. unfold upstreamValue. cbn [ratioTypes map_get].
    destruct (decide (rt = f_billing_expr)) as [->|N1];
      [|rewrite (bool_decide_false (rt = f_billing_expr)) by done;
        destruct (decide (rt = f_model_price)) as [->|N2];
        [|rewrite (bool_decide_false (rt = f_model_price)) by done; done]];
      vm_compute; intros [= <-]; reflexivity.
Defined.

End RatioSync.
