(* ===== verification/BillingExpr.v ===== *)
(** * Billing expressions ([src/web/default/src/features/pricing/lib/billing-expr.ts])

    The pricing editor stores the price of a model as a text: tiers of unit
    prices, multiplied by request rules of the form
    [(condition && ... ? multiplier : 1)].  The module models the parser of the
    tiers, the parser of the request rules with its regular expressions, the
    separation of a stored expression into price and rules, and the editor's
    builder of rules.  A condition whose string literal is not valid JSON makes
    the parser throw, which the exception type [exc] keeps. *)
From S2P Require Import Prelude JsString JsNumber Json JsRegex.
Local Open Scope Z_scope.

Module BillingExpr.
#[local] Arguments js : simpl never.

(** ** Exceptions *)
Inductive exc (A : Type) := Ret (a : A) | Throw.
Arguments Ret {A} a. Arguments Throw {A}.
Definition exc_bind {A B} (x : exc A) (f : A -> exc B) : exc B := match x with Ret a => f a | Throw => Throw end.

(** A string in a condition, and [a || b] on strings. *)
Definition truthy (s : jsstr) : bool := match s with [] => false | _ => true end.
Definition str_or (a b : jsstr) : jsstr := if truthy a then a else b.

(** ** Variables *)
Inductive Side := input | output | condition.
Record BillingVar := mkVar {
  key : jsstr; field : option jsstr; tierField : option jsstr; label : jsstr; shortLabel : jsstr;
  side : Side; isBase : bool; isConditionOnly : bool; group : option jsstr }.

Definition BILLING_VARS : list BillingVar :=
  [mkVar (js "p") (Some (js "inputPrice")) (Some (js "input_unit_cost")) (js "Input price") (js "Input") input true false None;
   mkVar (js "c") (Some (js "outputPrice")) (Some (js "output_unit_cost")) (js "Completion price") (js "Output") output true false None;
   mkVar (js "len") None None (js "Input length") (js "Length") condition false true None;
   mkVar (js "cr") (Some (js "cacheReadPrice")) (Some (js "cache_read_unit_cost")) (js "Cache read price") (js "Cache Read")
     input false false (Some (js "cache"));
   mkVar (js "cc") (Some (js "cacheCreatePrice")) (Some (js "cache_create_unit_cost")) (js "Cache create price") (js "Cache Write")
     input false false (Some (js "cache"));
   mkVar (js "cc1h") (Some (js "cacheCreate1hPrice")) (Some (js "cache_create_1h_unit_cost")) (js "Cache create (1h) price")
     (js "Cache Write (1h)") input false false (Some (js "cache"));
   mkVar (js "img") (Some (js "imagePrice")) (Some (js "image_unit_cost")) (js "Image input price") (js "Image In")
     input false false (Some (js "media"));
   mkVar (js "img_o") (Some (js "imageOutputPrice")) (Some (js "image_output_unit_cost")) (js "Image output price") (js "Image Out")
     output false false (Some (js "media"));
   mkVar (js "ai") (Some (js "audioInputPrice")) (Some (js "audio_input_unit_cost")) (js "Audio input price") (js "Audio In")
     input false false (Some (js "media"));
   mkVar (js "ao") (Some (js "audioOutputPrice")) (Some (js "audio_output_unit_cost")) (js "Audio output price") (js "Audio Out")
     output false false (Some (js "media"))].

Definition BILLING_PRICING_VARS : list BillingVar := List.filter (fun v => negb (isConditionOnly v)) BILLING_VARS.
Definition BILLING_CONDITION_VARS : list jsstr := map key (List.filter (fun v => isBase v || isConditionOnly v) BILLING_VARS).
Definition BILLING_VAR_KEY_TO_FIELD : list (jsstr * jsstr) := map (fun v => (key v, default [] (field v))) BILLING_PRICING_VARS.
Definition BILLING_EXTRA_VARS : list BillingVar := List.filter (fun v => negb (isBase v) && negb (isConditionOnly v)) BILLING_VARS.
Definition BILLING_CACHE_VAR_MAP : list (jsstr * jsstr) := map (fun v => (default [] (tierField v), key v)) BILLING_EXTRA_VARS.

(** ** Character classes and patterns *)
Definition quote_c : jsstr := [dquote].
(** [[\d.eE+-]] and [[\d.eE+]] *)
Definition num_char (c : Z) : bool := is_digit c || (c =? 46) || (c =? 101) || (c =? 69) || (c =? 43) || (c =? 45).
Definition tier_num_char (c : Z) : bool := is_digit c || (c =? 46) || (c =? 101) || (c =? 69) || (c =? 43).
Definition not_quote (c : Z) : bool := negb (c =? dquote).

Definition rws : regex := RStar (RChar is_ws).
Definition rnum : regex := rplus (RChar num_char).
Definition rname : regex := rplus (RChar not_quote).

(** [\b(p|c|...)\s*\*\s*([\d.eE+-]+)] *)
Definition BILLING_VAR_REGEX : regex :=
  rseq [RWordBoundary; RGroup 1 (ralts (map key BILLING_PRICING_VARS)); rws; rlit (js "*"); rws; RGroup 2 rnum].

(** [/^-?(?:\d+\.?\d*|\.\d+)(?:[eE][+-]?\d+)?$/] *)
Definition NUMERIC_LITERAL_REGEX : regex :=
  rseq [RStart false; ropt (rlit (js "-"));
        RAlt (rseq [rplus (RChar is_digit); ropt (rlit (js ".")); RStar (RChar is_digit)])
             (rseq [rlit (js "."); rplus (RChar is_digit)]);
        ropt (rseq [RChar (fun c => (c =? 101) || (c =? 69)); ropt (RChar (fun c => (c =? 43) || (c =? 45)));
                    rplus (RChar is_digit)]);
        REnd false].
Definition is_numeric_literal (s : jsstr) : bool := match match_at_start NUMERIC_LITERAL_REGEX s with Some _ => true | None => false end.

(** ** Tier parser *)
Record TierCondition := mkTierCond { tvar : jsstr; op : jsstr; tvalue : num }.
Record ParsedTier := mkTier { tlabel : jsstr; conditions : list TierCondition; prices : list (jsstr * num) }.

Definition stripExprVersion (exprStr : jsstr) : num * jsstr :=
  if negb (truthy exprStr) then (num_of_Z 1, [])
  else
    match match_at_start (rseq [RStart false; rlit (js "v"); RGroup 1 (rplus (RChar is_digit)); rlit (js ":");
                                RGroup 2 (RStar rany); REnd false]) exprStr with
    | Some m => (num_of_string (cap 1 m), cap 2 m)
    | None => (num_of_Z 1, exprStr)
    end.

Definition parseTierBody (bodyStr : jsstr) : list (jsstr * num) :=
  let coeffs :=
    fold_left (fun coeffs x =>
      let m := caps (snd x) in
      if map_has (cap 1 m) coeffs then coeffs else map_set (cap 1 m) (num_of_string (cap 2 m)) coeffs)
      (matchAll BILLING_VAR_REGEX bodyStr) [] in
  map (fun vf : jsstr * jsstr =>
         (vf.2, match map_get vf.1 coeffs with Some n => if num_truthy n then n else num_zero | None => num_zero end))
    BILLING_VAR_KEY_TO_FIELD.

Definition rcond_op : regex := ralts [js "<"; js "<="; js ">"; js ">="].
Definition rcond_var : regex := ralts [js "p"; js "c"; js "len"].
Definition rtier_num : regex := rplus (RChar tier_num_char).
Definition rone_cond : regex := rseq [rcond_var; rws; rcond_op; rws; rtier_num].

Definition tierRe : regex :=
  rseq [ropt (rseq [RGroup 1 (RSeq rone_cond (RStar (rseq [rws; rlit (js "&&"); rws; rone_cond]))); rws; rlit (js "?"); rws]);
        rlit (js "tier(" ++ quote_c); RGroup 2 (RStar (RChar not_quote)); rlit (quote_c ++ js ","); rws;
        RGroup 3 (rplus (RChar (fun c => negb (c =? 41)))); rlit (js ")")].

(** [s.split(re)] for a pattern that matches no empty text. *)
Definition regex_split (r : regex) (s : jsstr) : list jsstr :=
  let '(cur, parts) :=
    fold_left (fun '(cur, parts) (x : jsstr * rstate) =>
      (rest x.2, parts ++ [take (length cur - length x.1) cur])) (matchAll r s) (s, []) in
  parts ++ [cur].

Definition parseTierCondition (cp : jsstr) : option TierCondition :=
  match match_at_start (rseq [RStart false; RGroup 1 rcond_var; rws; RGroup 2 rcond_op; rws; RGroup 3 rtier_num; REnd false]) (trim cp) with
  | Some cm => Some (mkTierCond (cap 1 cm) (cap 2 cm) (num_of_string (cap 3 cm)))
  | None => None
  end.

Definition parseTiersFromExpr (exprStr : jsstr) : list ParsedTier :=
  if negb (truthy exprStr) then []
  else
    let body := (stripExprVersion exprStr).2 in
    map (fun x : jsstr * rstate =>
      let m := caps x.2 in
      let condStr := cap 1 m in
      let conds := if truthy condStr then omap parseTierCondition (regex_split (rseq [rws; rlit (js "&&"); rws]) condStr) else [] in
      mkTier (cap 2 m) conds (parseTierBody (cap 3 m)))
      (matchAll tierRe body).

(** ** Request rules *)
Inductive CondSource := param | header.
#[global] Instance CondSource_eq_dec : EqDecision CondSource.
Proof. solve_decision. Defined.

Record ParamHeaderCondition := mkPH { source : CondSource; path : jsstr; mode : jsstr; value : jsstr }.
Record TimeCondition := mkTime {
  timeFunc : jsstr; timezone : jsstr; tmode : jsstr; tvalue_ : jsstr; rangeStart : jsstr; rangeEnd : jsstr }.
Inductive RequestCondition := CTime (c : TimeCondition) | CPH (c : ParamHeaderCondition).
Record RequestRuleGroup := mkGroup { gconditions : list RequestCondition; multiplier : jsstr }.

Definition MATCH_EQ := js "eq".
Definition MATCH_CONTAINS := js "contains".
Definition MATCH_GT := js "gt".
Definition MATCH_GTE := js "gte".
Definition MATCH_LT := js "lt".
Definition MATCH_LTE := js "lte".
Definition MATCH_EXISTS := js "exists".
Definition MATCH_RANGE := js "range".
Definition TIME_FUNCS : list jsstr := [js "hour"; js "minute"; js "weekday"; js "month"; js "day"].

(** The loop of [splitTopLevelMultiply] and [splitTopLevelAnd]: [acc] is the
    reversed part read since [start] and [skip] the characters of a separator
    that the index jumps over. *)
Fixpoint splitTop (sep : jsstr) (rest acc : jsstr) (depth : Z) (skip : nat) : list jsstr :=
  match rest with
  | [] => [trim (rev acc)]
  | c :: t =>
      match skip with
      | S skip => splitTop sep t acc depth skip
      | O =>
          let depth := if c =? 40 then depth + 1 else depth in
          let depth := if c =? 41 then depth - 1 else depth in
          if (depth =? 0) && starts_with sep rest
          then trim (rev acc) :: splitTop sep t [] depth (length sep - 1)
          else splitTop sep t (c :: acc) depth O
      end
  end.

Definition splitTopLevelMultiply (expr : jsstr) : list jsstr := List.filter truthy (splitTop (js " * ") expr [] 0 0).
Definition splitTopLevelAnd (expr : jsstr) : list jsstr := List.filter truthy (splitTop (js " && ") expr [] 0 0).

(** [JSON.parse] of any literal; the caller turns it into a string. *)
Definition parseExprLiteral (raw : jsstr) : option jsstr :=
  let text := trim raw in
  if bool_decide (text = js "true") || bool_decide (text = js "false") then Some text
  else if is_numeric_literal text then Some text
  else match json_parse text with
       | Some JNull => None
       | Some v => Some (json_to_string v)
       | None => None
       end.

Definition rfunc : regex := RGroup 1 (ralts TIME_FUNCS).
(** [fn("tz") >= n || \1("\2") < m] *)
Definition rrange : list regex :=
  [rfunc; rlit (js "(" ++ quote_c); RGroup 2 rname; rlit (quote_c ++ js ") >= "); RGroup 3 rnum; rlit (js " || ");
   RBackref 1; rlit (js "(" ++ quote_c); RBackref 2; rlit (quote_c ++ js ") < "); RGroup 4 rnum].
Definition time_range_re : regex := rseq ([RStart false] ++ rrange ++ [REnd false]).
Definition time_paren_range_re : regex := rseq ([RStart false; rlit (js "(")] ++ rrange ++ [rlit (js ")"); REnd false]).
Definition time_cmp_re : regex :=
  rseq [RStart false; rfunc; rlit (js "(" ++ quote_c); RGroup 2 rname; rlit (quote_c ++ js ") ");
        RGroup 3 (ralts [js "=="; js ">="; js "<"]); rlit (js " "); RGroup 4 rnum; REnd false].

Definition rangeCondition (m : list (nat * jsstr)) : RequestCondition :=
  CTime (mkTime (cap 1 m) (cap 2 m) MATCH_RANGE [] (cap 3 m) (cap 4 m)).

Definition timeOp (o : jsstr) : jsstr :=
  if bool_decide (o = js "==") then MATCH_EQ else if bool_decide (o = js ">=") then MATCH_GTE
  else if bool_decide (o = js "<") then MATCH_LT else MATCH_EQ.

Definition tryParseTimeCondition (expr : jsstr) : option RequestCondition :=
  match match_at_start time_range_re expr with
  | Some m => Some (rangeCondition m)
  | None =>
  match match_at_start time_paren_range_re expr with
  | Some m => Some (rangeCondition m)
  | None =>
  match match_at_start time_cmp_re expr with
  | Some m => Some (CTime (mkTime (cap 1 m) (cap 2 m) (timeOp (cap 3 m)) (cap 4 m) [] []))
  | None => None
  end end end.

(** A JSON string literal: a quote, plain or escaped characters, a quote. *)
Definition rjson_string : regex :=
  rseq [rlit quote_c; RStar (RAlt (RChar (fun c => negb (c =? dquote) && negb (c =? 92))) (RSeq (rlit [92]) rdot)); rlit quote_c].

Definition header_exists_re : regex :=
  rseq [RStart false; rlit (js "header(" ++ quote_c); RGroup 1 rname; rlit (quote_c ++ js ") != " ++ quote_c ++ quote_c); REnd false].
Definition param_exists_re : regex :=
  rseq [RStart false; rlit (js "param(" ++ quote_c); RGroup 1 rname; rlit (quote_c ++ js ") != nil"); REnd false].
Definition header_contains_re : regex :=
  rseq [RStart false; rlit (js "has(header(" ++ quote_c); RGroup 1 rname; rlit (quote_c ++ js "), "); RGroup 2 rjson_string;
        rlit (js ")"); REnd false].
Definition param_contains_re : regex :=
  rseq [RStart false; rlit (js "param(" ++ quote_c); RGroup 1 rname; rlit (quote_c ++ js ") != nil && has(param(" ++ quote_c);
        RGroup 2 rname; rlit (quote_c ++ js "), "); RGroup 3 rjson_string; rlit (js ")"); REnd false].
Definition param_compare_re : regex :=
  rseq [RStart false; rlit (js "param(" ++ quote_c); RGroup 1 rname; rlit (quote_c ++ js ") != nil && param(" ++ quote_c);
        RGroup 2 rname; rlit (quote_c ++ js ") "); RGroup 3 (ralts [js ">"; js ">="; js "<"; js "<="]); rlit (js " ");
        RGroup 4 rnum; REnd false].
Definition eq_re : regex :=
  rseq [RStart false; RGroup 1 (ralts [js "param"; js "header"]); rlit (js "(" ++ quote_c); RGroup 2 rname;
        rlit (quote_c ++ js ") == "); RGroup 3 (rplus rdot); REnd false].

Definition compareOp (o : jsstr) : jsstr :=
  if bool_decide (o = js ">") then MATCH_GT else if bool_decide (o = js ">=") then MATCH_GTE
  else if bool_decide (o = js "<") then MATCH_LT else MATCH_LTE.

(** [JSON.parse(text) as string] *)
Definition json_parse_string (text : jsstr) : exc jsstr :=
  match json_parse text with Some v => Ret (json_to_string v) | None => Throw end.

Definition tryParseRequestCondition (expr : jsstr) : exc (option RequestCondition) :=
  match tryParseTimeCondition expr with
  | Some tc => Ret (Some tc)
  | None =>
  match match_at_start header_exists_re expr with
  | Some m => Ret (Some (CPH (mkPH header (cap 1 m) MATCH_EXISTS [])))
  | None =>
  match match_at_start param_exists_re expr with
  | Some m => Ret (Some (CPH (mkPH param (cap 1 m) MATCH_EXISTS [])))
  | None =>
  match match_at_start header_contains_re expr with
  | Some m => exc_bind (json_parse_string (cap 2 m)) (fun v => Ret (Some (CPH (mkPH header (cap 1 m) MATCH_CONTAINS v))))
  | None =>
  match (m ← match_at_start param_contains_re expr; if bool_decide (cap 1 m = cap 2 m) then Some m else None) with
  | Some m => exc_bind (json_parse_string (cap 3 m)) (fun v => Ret (Some (CPH (mkPH param (cap 1 m) MATCH_CONTAINS v))))
  | None =>
  match (m ← match_at_start param_compare_re expr; if bool_decide (cap 1 m = cap 2 m) then Some m else None) with
  | Some m => Ret (Some (CPH (mkPH param (cap 1 m) (compareOp (cap 3 m)) (cap 4 m))))
  | None =>
  match match_at_start eq_re expr with
  | Some m =>
      match parseExprLiteral (cap 3 m) with
      | None => Ret None
      | Some parsedValue =>
          Ret (Some (CPH (mkPH (if bool_decide (cap 1 m = js "header") then header else param) (cap 2 m) MATCH_EQ parsedValue)))
      end
  | None => Ret None
  end end end end end end end.

Definition factor_re : regex :=
  rseq [RStart false; rlit (js "("); RGroup 1 (rplus rany); rlit (js " ? "); RGroup 2 rnum; rlit (js " : 1)"); REnd false].

(** The loop over the parts of a condition, and over the factors. *)
Fixpoint parseAll {A} (f : jsstr -> exc (option A)) (parts : list jsstr) : exc (option (list A)) :=
  match parts with
  | [] => Ret (Some [])
  | p :: ps =>
      exc_bind (f p) (fun o =>
        match o with
        | None => Ret None
        | Some a => exc_bind (parseAll f ps) (fun r => Ret (cons a <$> r))
        end)
  end.

Definition tryParseRuleGroupFactor (part : jsstr) : exc (option RequestRuleGroup) :=
  match match_at_start factor_re part with
  | None => Ret None
  | Some m =>
      let andParts := splitTopLevelAnd (cap 1 m) in
      exc_bind (parseAll (fun ap => tryParseRequestCondition (trim ap)) andParts) (fun conds =>
        match conds with
        | Some (c :: cs) => Ret (Some (mkGroup (c :: cs) (cap 2 m)))
        | _ => Ret None
        end)
  end.

Definition tryParseRequestRuleExpr (expr : jsstr) : exc (option (list RequestRuleGroup)) :=
  let trimmed := trim expr in
  if negb (truthy trimmed) then Ret (Some [])
  else parseAll tryParseRuleGroupFactor (splitTopLevelMultiply trimmed).

(** ** Price and rules *)
(** The scan of [hasFullOuterParens]: whether the depth first returns to zero
    at the last character. *)
Fixpoint outerScan (s : jsstr) (depth : Z) : bool :=
  match s with
  | [] => depth =? 0
  | c :: t =>
      let depth := if c =? 40 then depth + 1 else depth in
      let depth := if c =? 41 then depth - 1 else depth in
      if (depth =? 0) && truthy t then false else outerScan t depth
  end.

Definition hasFullOuterParens (expr : jsstr) : bool :=
  if negb (starts_with (js "(") expr) || negb (ends_with (js ")") expr) then false else outerScan expr 0.

(** [expr.slice(1, -1)] *)
Definition slice_1_m1 (s : jsstr) : jsstr := drop 1 (take (length s - 1) s).

Fixpoint unwrapLoop (fuel : nat) (current : jsstr) : jsstr :=
  match fuel with
  | O => current
  | S fuel => if hasFullOuterParens current then unwrapLoop fuel (trim (slice_1_m1 current)) else current
  end.

(** Every iteration removes two characters, so the length is enough fuel. *)
Definition unwrapOuterParens (expr : jsstr) : jsstr := unwrapLoop (length expr) (trim expr).

(** The partition of the parts into rules and base. *)
Fixpoint partitionParts (parts : list jsstr) : exc (list jsstr * list jsstr) :=
  match parts with
  | [] => Ret ([], [])
  | part :: ps =>
      exc_bind (tryParseRequestRuleExpr part) (fun parsed =>
        exc_bind (partitionParts ps) (fun '(rules, base) =>
          match parsed with
          | Some (_ :: _) => Ret (part :: rules, base)
          | _ => Ret (rules, part :: base)
          end))
  end.

(** The billing expression and the request rule expression. *)
Definition splitBillingExprAndRequestRules (expr : jsstr) : exc (jsstr * jsstr) :=
  let trimmed := trim expr in
  if negb (truthy trimmed) then Ret ([], [])
  else
    let parts := splitTopLevelMultiply trimmed in
    if (length parts <=? 1)%nat then Ret (trimmed, [])
    else exc_bind (partitionParts parts) (fun '(ruleParts, baseParts) =>
      match ruleParts, baseParts with
      | _ :: _, [base] => Ret (unwrapOuterParens base, join (js " * ") ruleParts)
      | _, _ => Ret (trimmed, [])
      end).

Definition combineBillingExpr (baseExpr requestRuleExpr : jsstr) : jsstr :=
  let base := trim baseExpr in
  let rules := trim requestRuleExpr in
  if negb (truthy base) then []
  else if negb (truthy rules) then base
  else js "(" ++ base ++ js ") * " ++ rules.

(** ** Editor *)
Definition createEmptyCondition : ParamHeaderCondition := mkPH param [] MATCH_EQ [].
Definition createEmptyTimeCondition : TimeCondition := mkTime (js "hour") (js "Asia/Shanghai") MATCH_GTE [] [] [].
Definition createEmptyRuleGroup : RequestRuleGroup := mkGroup [CPH createEmptyCondition] [].
Definition createEmptyTimeRuleGroup : RequestRuleGroup := mkGroup [CTime createEmptyTimeCondition] [].

(** The values of the match options offered for a source ([None] for time). *)
Definition getRequestRuleMatchOptions (source : option CondSource) : list (jsstr * jsstr) :=
  match source with
  | None => [(MATCH_EQ, js "Equals"); (MATCH_GTE, js "Greater than or equal"); (MATCH_LT, js "Less than"); (MATCH_RANGE, js "Overnight range")]
  | Some s =>
      let base := [(MATCH_EQ, js "Equals"); (MATCH_CONTAINS, js "Contains"); (MATCH_EXISTS, js "Exists")] in
      match s with
      | header => base
      | param => base ++ [(MATCH_GT, js "Greater than"); (MATCH_GTE, js "Greater than or equal"); (MATCH_LT, js "Less than");
                          (MATCH_LTE, js "Less than or equal")]
      end
  end.

Definition isTimeFunc (v : jsstr) : bool := bool_decide (v ∈ TIME_FUNCS).

Definition offeredMode (source : option CondSource) (m d : jsstr) : jsstr :=
  if existsb (fun o => bool_decide (o.1 = m)) (getRequestRuleMatchOptions source) then m else d.

(** [normalizeCondition] on a condition of the declared types. *)
Definition normalizeTimeCondition (c : TimeCondition) : TimeCondition :=
  mkTime (if isTimeFunc (timeFunc c) then timeFunc c else js "hour") (str_or (timezone c) (js "Asia/Shanghai"))
    (offeredMode None (tmode c) MATCH_GTE) (tvalue_ c) (rangeStart c) (rangeEnd c).
Definition normalizePHCondition (c : ParamHeaderCondition) : ParamHeaderCondition :=
  mkPH (source c) (path c) (offeredMode (Some (source c)) (mode c) MATCH_EQ) (value c).
Definition normalizeCondition (c : RequestCondition) : RequestCondition :=
  match c with CTime c => CTime (normalizeTimeCondition c) | CPH c => CPH (normalizePHCondition c) end.

Definition buildExprLiteral (mode value : jsstr) : jsstr :=
  let text := trim value in
  if bool_decide (mode = MATCH_CONTAINS) then json_quote text
  else if bool_decide (text = js "true") || bool_decide (text = js "false") then text
  else if is_numeric_literal text then text
  else json_quote text.

Definition buildTimeConditionExpr (cond : TimeCondition) : jsstr :=
  let normalized := normalizeTimeCondition cond in
  let fn := timeFunc normalized ++ js "(" ++ json_quote (timezone normalized) ++ js ")" in
  if bool_decide (tmode normalized = MATCH_RANGE) then
    let s := trim (rangeStart normalized) in
    let e := trim (rangeEnd normalized) in
    if negb (is_numeric_literal s) || negb (is_numeric_literal e) then []
    else fn ++ js " >= " ++ s ++ js " || " ++ fn ++ js " < " ++ e
  else
    let v := trim (tvalue_ normalized) in
    if negb (is_numeric_literal v) then []
    else
      let o := if bool_decide (tmode normalized = MATCH_EQ) then js "==" else if bool_decide (tmode normalized = MATCH_GTE) then js ">="
               else if bool_decide (tmode normalized = MATCH_LT) then js "<" else js "==" in
      fn ++ js " " ++ o ++ js " " ++ v.

Definition buildRequestConditionExpr (cond : RequestCondition) : jsstr :=
  match cond with
  | CTime c => buildTimeConditionExpr c
  | CPH c =>
      let normalized := normalizePHCondition c in
      let path := trim (path normalized) in
      if negb (truthy path) then []
      else
        let sourceExpr :=
          match source normalized with
          | header => js "header(" ++ json_quote path ++ js ")"
          | param => js "param(" ++ json_quote path ++ js ")"
          end in
        let mode := mode normalized in
        if bool_decide (mode = MATCH_EXISTS) then
          match source normalized with
          | header => sourceExpr ++ js " != " ++ quote_c ++ quote_c
          | param => sourceExpr ++ js " != nil"
          end
        else if bool_decide (mode = MATCH_CONTAINS) then
          match source normalized with
          | header => js "has(" ++ sourceExpr ++ js ", " ++ buildExprLiteral mode (value normalized) ++ js ")"
          | param => sourceExpr ++ js " != nil && has(" ++ sourceExpr ++ js ", " ++ buildExprLiteral mode (value normalized) ++ js ")"
          end
        else if bool_decide (mode ∈ [MATCH_GT; MATCH_GTE; MATCH_LT; MATCH_LTE]) then
          let o := if bool_decide (mode = MATCH_GT) then js ">" else if bool_decide (mode = MATCH_GTE) then js ">="
                   else if bool_decide (mode = MATCH_LT) then js "<" else js "<=" in
          let numText := trim (value normalized) in
          if negb (is_numeric_literal numText) then []
          else sourceExpr ++ js " != nil && " ++ sourceExpr ++ js " " ++ o ++ js " " ++ numText
        else sourceExpr ++ js " == " ++ buildExprLiteral mode (value normalized)
  end.

Definition buildRuleGroupFactor (group : RequestRuleGroup) : jsstr :=
  let m := trim (multiplier group) in
  if negb (is_numeric_literal m) then []
  else
    let condExprs := List.filter truthy (map buildRequestConditionExpr (gconditions group)) in
    match condExprs with
    | [] => []
    | _ =>
        let combined :=
          match condExprs with
          | [e] => e
          | _ => join (js " && ") (map (fun e => if includes (js " || ") e then js "(" ++ e ++ js ")" else e) condExprs)
          end in
        js "(" ++ combined ++ js " ? " ++ m ++ js " : 1)"
    end.

Definition buildRequestRuleExpr (groups : list RequestRuleGroup) : jsstr :=
  join (js " * ") (List.filter truthy (map buildRuleGroupFactor groups)).

(** ** Lemmas: patterns *)
Lemma rmatch_seq {A} a b st (k : rstate -> option A) : rmatch (RSeq a b) st k = rmatch a st (fun st' => rmatch b st' k).
Proof. reflexivity. Qed.

Lemma rmatch_group {A} n a st (k : rstate -> option A) :
  rmatch (RGroup n a) st k = rmatch a st (fun st' =>
    k (mkR (prev st') (rest st') (map_set n (take (length (rest st) - length (rest st')) (rest st)) (caps st')))).
Proof. reflexivity. Qed.

Lemma rmatch_start {A} text (k : rstate -> option A) : rmatch (RStart false) (mkR None text []) k = k (mkR None text []).
Proof. reflexivity. Qed.

Lemma rmatch_end {A} st (k : rstate -> option A) : rest st = [] -> rmatch (REnd false) st k = k st.
Proof. intros E. cbn. by rewrite E. Qed.

Lemma rmatch_end_none {A} st (k : rstate -> option A) : rest st <> [] -> rmatch (REnd false) st k = None.
Proof. intros E. cbn. by destruct (rest st). Qed.

Lemma rmatch_char {A} p c t st (k : rstate -> option A) :
  rest st = c :: t -> p c = true -> rmatch (RChar p) st k = k (mkR (Some c) t (caps st)).
Proof. intros E H. cbn. by rewrite E, H. Qed.

(** The literal after the position, or another text. *)
Lemma step_lit {A} s t R st (k : rstate -> option A) :
  rest st = s ++ t -> rmatch (RSeq (rlit s) R) st k = rmatch R (after s t st) k.
Proof. intros E. by rewrite rmatch_seq, (rmatch_lit_app s t). Qed.

Lemma step_lit_none {A} s R st (k : rstate -> option A) :
  strip_prefix s (rest st) = None -> rmatch (RSeq (rlit s) R) st k = None.
Proof. intros E. by rewrite rmatch_seq, rmatch_lit, E. Qed.

(** A literal does not start inside a class that lacks its first character. *)
Lemma lit_refuses {A} (p : Z -> bool) c l R st (k : rstate -> option A) :
  p c = false -> (match rest st with [] => false | d :: _ => p d end) = true -> rmatch (RSeq (rlit (c :: l)) R) st k = None.
Proof.
  intros Hc H. apply step_lit_none. destruct (rest st) as [|d t]; [done|]. cbn.
  destruct (c =? d) eqn:E; [|done]. apply Z.eqb_eq in E. congruence.
Qed.

(** A captured run of a class followed by something that refuses the class. *)
Lemma step_run {A} n (p : Z -> bool) w t R st (k : rstate -> option A) :
  rest st = w ++ t -> w <> [] -> forallb p w = true -> (match t with [] => true | c :: _ => negb (p c) end) = true ->
  (forall st', (match rest st' with [] => false | c :: _ => p c end) = true -> rmatch R st' k = None) ->
  rmatch (RSeq (RGroup n (rplus (RChar p))) R) st k
  = rmatch R (mkR (prev (after w t st)) t (map_set n w (caps st))) k.
Proof.
  intros E Hw Hp Ht Hk. rewrite rmatch_seq, rmatch_group.
  rewrite (rmatch_plus_run p w t st); [|done..|].
  - cbn [rest prev caps after]. by rewrite E, group_text.
  - intros st' H. by apply Hk.
Qed.

Definition first_some {A B} (f : A -> option B) (l : list A) : option B :=
  fold_right (fun a r => match f a with Some x => Some x | None => r end) None l.

Lemma rmatch_alts {A} l st (k : rstate -> option A) :
  l <> [] ->
  rmatch (ralts l) st k = first_some (fun s => match strip_prefix s (rest st) with Some t => k (after s t st) | None => None end) l.
Proof.
  induction l as [|s [|s' l] IH]; intros H; [done| |].
  - cbn [ralts first_some fold_right]. rewrite rmatch_lit. destruct (strip_prefix s (rest st)); [|done]. by destruct (k _).
  - change (ralts (s :: s' :: l)) with (RAlt (rlit s) (ralts (s' :: l))). cbn [rmatch]. rewrite IH by done.
    rewrite rmatch_lit. cbn [first_some fold_right]. done.
Qed.

(** A captured alternative: only [s] of the list begins the text. *)
Lemma step_alts {A} n l s t R st (k : rstate -> option A) :
  rest st = s ++ t -> s ∈ l -> (forall s', s' ∈ l -> s' <> s -> strip_prefix s' (s ++ t) = None) ->
  rmatch (RSeq (RGroup n (ralts l)) R) st k = rmatch R (mkR (prev (after s t st)) t (map_set n s (caps st))) k.
Proof.
  intros E Hs Ho. rewrite rmatch_seq, rmatch_group. rewrite rmatch_alts by (by intros ->; set_solver).
  set (f := fun s0 => match strip_prefix s0 (rest st) with Some t0 => _ | None => None end).
  assert (Hf : f s = rmatch R (mkR (prev (after s t st)) t (map_set n s (caps st))) k).
  { unfold f. rewrite E, strip_prefix_app. cbn [rest prev caps after]. by rewrite group_text. }
  rewrite <- Hf. assert (Hn : forall s', s' ∈ l -> s' <> s -> f s' = None).
  { intros s' H1 H2. unfold f. by rewrite E, Ho. }
  clear Ho Hf. clearbody f. induction l as [|a l IH]; [set_solver|]. cbn [first_some fold_right].
  destruct (decide (a = s)) as [->|Na].
  - destruct (f s) eqn:Ef; [done|].
    destruct (decide (s ∈ l)) as [Hl|Hl]; [apply IH; set_solver|].
    clear IH Hs. induction l as [|b l IH']; [done|]. cbn. rewrite Hn by set_solver. apply IH'; set_solver.
  - rewrite Hn by set_solver. apply IH; set_solver.
Qed.

(** ** Lemmas: texts *)
(** Characters without a role in the syntax of conditions. *)
Definition plain (c : Z) : bool :=
  (32 <=? c) && (c <? 55296) && forallb (fun x => negb (c =? x)) [34; 92; 40; 41; 38; 124; 8232; 8233].

Lemma plain_facts c : plain c = true ->
  32 <= c < 55296 /\ c <> 34 /\ c <> 92 /\ c <> 40 /\ c <> 41 /\ c <> 38 /\ c <> 124 /\ c <> 8232 /\ c <> 8233.
Proof. unfold plain. cbn. intros H. repeat (apply andb_prop in H as [H ?]). bool_to_prop. lia. Qed.

Lemma quote_char_plain c : plain c = true -> quote_char c = [c].
Proof.
  intros H%plain_facts. unfold quote_char, is_high, is_low, dquote, bslash.
  repeat match goal with |- context [?a =? ?b] => destruct (Z.eqb_spec a b); [lia|] end.
  repeat match goal with |- context [?a <? ?b] => destruct (Z.ltb_spec a b); [lia|] end.
  repeat match goal with |- context [?a <=? ?b] => destruct (Z.leb_spec a b); try lia end; done.
Qed.

Lemma quote_plain s : forallb plain s = true -> json_quote s = quote_c ++ s ++ quote_c.
Proof.
  intros H. unfold json_quote, quote_c. f_equal. f_equal. induction s as [|c s IH]; [done|].
  cbn in H. apply andb_prop in H as [Hc Hs]. destruct s as [|d s].
  - cbn. by apply quote_char_plain.
  - rewrite quote_body_cons, quote_char_plain, IH by done. pose proof (plain_facts c Hc).
    unfold is_high. destruct (Z.leb_spec 55296 c); [lia|]. done.
Qed.

Lemma plain_code_unit s : forallb plain s = true -> forallb code_unit s = true.
Proof.
  rewrite !forallb_forall. intros H c Hc. specialize (H c Hc). apply plain_facts in H.
  unfold code_unit. destruct (Z.leb_spec 0 c), (Z.ltb_spec c 65536); lia || done.
Qed.

Lemma chars_within_lit P s : Forall P s -> chars_within P (rlit s).
Proof. induction 1 as [|c s Hc _ IH]; [done|]. cbn. split; [|done]. by intros d <-%Z.eqb_eq. Qed.

(** Classes of characters of numbers. *)
Lemma digit_num c : is_digit c = true -> num_char c = true.
Proof. unfold num_char. by intros ->. Qed.

Lemma two_num a b c : num_char a = true -> num_char b = true -> (c =? a) || (c =? b) = true -> num_char c = true.
Proof. intros Ha Hb [H|H]%orb_prop; apply Z.eqb_eq in H; by subst. Qed.

(** A numeric literal is a non-empty run of number characters. *)
Lemma numeric_chars v : is_numeric_literal v = true -> v <> [] /\ forallb num_char v = true.
Proof.
  intros H. split; [by intros ->|]. unfold is_numeric_literal in H.
  destruct (match_at_start NUMERIC_LITERAL_REGEX v) eqn:E; [|done]. unfold match_at_start in E.
  unfold NUMERIC_LITERAL_REGEX in E. cbn [rseq] in E. rewrite rmatch_seq, rmatch_start, rmatch_seq in E.
  set (k0 := fun st : rstate => Some (caps st)) in E.
  assert (G : forall r1 r2 r3, chars_within (fun c => num_char c = true) r1 -> chars_within (fun c => num_char c = true) r2 ->
    chars_within (fun c => num_char c = true) r3 ->
    rmatch r1 (mkR None v []) (fun st' => rmatch (RSeq r2 (RSeq r3 (REnd false))) st' k0) = Some l -> forallb num_char v = true).
  { intros r1 r2 r3 C1 C2 C3 M. apply (rmatch_consumes (fun c => num_char c = true)) in M as (w1 & st1 & E1 & F1 & M); [|done].
    rewrite rmatch_seq in M. apply (rmatch_consumes (fun c => num_char c = true)) in M as (w2 & st2 & E2 & F2 & M); [|done].
    rewrite rmatch_seq in M. apply (rmatch_consumes (fun c => num_char c = true)) in M as (w3 & st3 & E3 & F3 & M); [|done].
    assert (E4 : rest st3 = []) by (destruct (rest st3) eqn:R; [done|]; rewrite rmatch_end_none in M; [done | by rewrite R]).
    cbn [rest] in E1. rewrite E1, E2, E3, E4, app_nil_r. rewrite forallb_forall. intros c Hc. apply list_elem_of_In in Hc.
    rewrite !elem_of_app in Hc. rewrite Forall_forall in F1, F2, F3. naive_solver. }
  eapply G; [| | |exact E]; clear; unfold ropt, rplus; cbn [chars_within rseq];
    repeat match goal with
      | |- _ /\ _ => split
      | |- chars_within _ (rlit _) => apply chars_within_lit; repeat constructor
      end; try exact I; try exact digit_num; intros c; by apply two_num.
Qed.

Lemma plain_not_quote s : forallb plain s = true -> forallb not_quote s = true.
Proof.
  rewrite !forallb_forall. intros H c Hc. specialize (H c Hc). apply plain_facts in H.
  unfold not_quote, dquote. destruct (Z.eqb_spec c 34); [lia | done].
Qed.

(** A captured name up to its closing quote. *)
Lemma step_name {A} n s l t R st (k : rstate -> option A) :
  rest st = s ++ quote_c ++ t -> s <> [] -> forallb plain s = true ->
  rmatch (RSeq (RGroup n rname) (RSeq (rlit (quote_c ++ l)) R)) st k
  = rmatch (RSeq (rlit (quote_c ++ l)) R) (mkR (prev (after s (quote_c ++ t) st)) (quote_c ++ t) (map_set n s (caps st))) k.
Proof.
  intros E Hs Hp. apply (step_run n not_quote s (quote_c ++ t)); [done | done | by apply plain_not_quote | done |].
  intros st' H. by apply (lit_refuses not_quote dquote l).
Qed.

(** A captured number followed by a text that starts with no number character. *)
Lemma step_num {A} n v t R st (k : rstate -> option A) :
  rest st = v ++ t -> is_numeric_literal v = true -> (match t with [] => true | c :: _ => negb (num_char c) end) = true ->
  (forall st', (match rest st' with [] => false | c :: _ => num_char c end) = true -> rmatch R st' k = None) ->
  rmatch (RSeq (RGroup n rnum) R) st k = rmatch R (mkR (prev (after v t st)) t (map_set n v (caps st))) k.
Proof. intros E [Hv Hc]%numeric_chars Ht Hk. by apply (step_run n num_char v t). Qed.

Lemma step_back {A} n w t R st (k : rstate -> option A) :
  map_get n (caps st) = Some w -> rest st = w ++ t -> rmatch (RSeq (RBackref n) R) st k = rmatch R (after w t st) k.
Proof. intros Hn E. rewrite rmatch_seq. cbn [rmatch]. rewrite Hn, E. cbn. by rewrite strip_prefix_app. Qed.

Lemma end_refuses {A} (p : Z -> bool) st (k : rstate -> option A) :
  (match rest st with [] => false | c :: _ => p c end) = true -> rmatch (REnd false) st k = None.
Proof. intros H. apply rmatch_end_none. by destruct (rest st). Qed.

Lemma time_funcs_distinct fn fn' t :
  fn ∈ TIME_FUNCS -> fn' ∈ TIME_FUNCS -> fn' <> fn -> strip_prefix fn' (fn ++ t) = None.
Proof.
  unfold TIME_FUNCS. rewrite !elem_of_cons, !elem_of_nil. intros H H' N.
  destruct H as [-> |[-> |[-> |[-> |[-> |[]]]]]], H' as [-> |[-> |[-> |[-> |[-> |[]]]]]]; try done; vm_compute; reflexivity.
Qed.

(** The texts of the conditions, piece by piece as the patterns read them. *)
Definition rangeText (fn tz a b : jsstr) : jsstr :=
  fn ++ (js "(" ++ quote_c) ++ tz ++ (quote_c ++ js ") >= ") ++ a ++ js " || " ++
  fn ++ (js "(" ++ quote_c) ++ tz ++ (quote_c ++ js ") < ") ++ b.
Definition compareText (fn tz o v : jsstr) : jsstr :=
  fn ++ (js "(" ++ quote_c) ++ tz ++ (quote_c ++ js ") ") ++ o ++ js " " ++ v.

Lemma range_core {A} fn tz a b tl R st (k : rstate -> option A) :
  fn ∈ TIME_FUNCS -> tz <> [] -> forallb plain tz = true -> is_numeric_literal a = true -> is_numeric_literal b = true ->
  rest st = rangeText fn tz a b ++ tl -> caps st = [] ->
  (match tl with [] => true | c :: _ => negb (num_char c) end) = true ->
  (forall st', (match rest st' with [] => false | c :: _ => num_char c end) = true -> rmatch R st' k = None) ->
  exists p, rmatch (RSeq rfunc (RSeq (rlit (js "(" ++ quote_c)) (RSeq (RGroup 2 rname) (RSeq (rlit (quote_c ++ js ") >= "))
      (RSeq (RGroup 3 rnum) (RSeq (rlit (js " || ")) (RSeq (RBackref 1) (RSeq (rlit (js "(" ++ quote_c)) (RSeq (RBackref 2)
      (RSeq (rlit (quote_c ++ js ") < ")) (RSeq (RGroup 4 rnum) R))))))))))
    ) st k
  = rmatch R (mkR p tl [(1%nat, fn); (2%nat, tz); (3%nat, a); (4%nat, b)]) k.
Proof.
  intros Hf Hz Hp Ha Hb E Hc Ht Hk. unfold rangeText in E. rewrite <- !app_assoc in E.
  unfold rfunc. rewrite (step_alts 1 TIME_FUNCS fn _ _ _ _ E); [|done|].
  2: { intros s' H1 H2. by apply time_funcs_distinct. }
  rewrite Hc. erewrite (step_lit (js "(" ++ quote_c)); [|by rewrite <- app_assoc; reflexivity].
  erewrite (step_name 2 tz); [|cbn [rest after]; reflexivity | done | done].
  erewrite (step_lit (quote_c ++ js ") >= ")); [|cbn [rest]; by rewrite <- app_assoc; reflexivity].
  erewrite (step_num 3 a); [|cbn [rest after]; reflexivity | done | done |].
  2: { intros st' H. by apply (lit_refuses num_char 32 (js "|| ")). }
  erewrite (step_lit (js " || ")); [|cbn [rest]; reflexivity].
  erewrite (step_back 1 fn); [|reflexivity | cbn [rest after]; reflexivity].
  erewrite (step_lit (js "(" ++ quote_c)); [|cbn [rest after]; by rewrite <- app_assoc; reflexivity].
  erewrite (step_back 2 tz); [|reflexivity | cbn [rest after]; reflexivity].
  erewrite (step_lit (quote_c ++ js ") < ")); [|cbn [rest after]; by rewrite <- app_assoc; reflexivity].
  erewrite (step_num 4 b); [|cbn [rest after]; reflexivity | done | done | done].
  eexists. reflexivity.
Qed.

Section TimeConditions.
Context (fn tz : jsstr) (Hf : fn ∈ TIME_FUNCS) (Hz : tz <> []) (Hp : forallb plain tz = true).

Lemma parse_range a b :
  is_numeric_literal a = true -> is_numeric_literal b = true ->
  tryParseTimeCondition (rangeText fn tz a b) = Some (CTime (mkTime fn tz MATCH_RANGE [] a b)).
Proof.
  intros Ha Hb. unfold tryParseTimeCondition.
  assert (E : match_at_start time_range_re (rangeText fn tz a b) = Some [(1%nat, fn); (2%nat, tz); (3%nat, a); (4%nat, b)]).
  { unfold match_at_start, time_range_re, rrange. cbn [rseq app]. rewrite rmatch_seq, rmatch_start.
    destruct (range_core (A := list (nat * jsstr)) fn tz a b [] (REnd false) (mkR None (rangeText fn tz a b) []) (fun st => Some (caps st))
      Hf Hz Hp Ha Hb) as (p & ->); [by rewrite app_nil_r | done | done | intros st'; apply end_refuses |].
    by rewrite rmatch_end. }
  rewrite E. reflexivity.
Qed.

Lemma parse_paren_range a b :
  is_numeric_literal a = true -> is_numeric_literal b = true ->
  tryParseTimeCondition (js "(" ++ rangeText fn tz a b ++ js ")") = Some (CTime (mkTime fn tz MATCH_RANGE [] a b)).
Proof.
  intros Ha Hb. unfold tryParseTimeCondition.
  rewrite (match_at_start_none time_range_re (js "(")) by (vm_compute; reflexivity).
  assert (E : match_at_start time_paren_range_re (js "(" ++ rangeText fn tz a b ++ js ")")
              = Some [(1%nat, fn); (2%nat, tz); (3%nat, a); (4%nat, b)]).
  { unfold match_at_start, time_paren_range_re, rrange. cbn [rseq app]. rewrite rmatch_seq, rmatch_start.
    erewrite (step_lit (js "(")); [|reflexivity].
    destruct (range_core (A := list (nat * jsstr)) fn tz a b (js ")") (RSeq (rlit (js ")")) (REnd false))
      (after (js "(") (rangeText fn tz a b ++ js ")") (mkR None (js "(" ++ rangeText fn tz a b ++ js ")") []))
      (fun st => Some (caps st)) Hf Hz Hp Ha Hb) as (p & ->); [done | done | done | |].
    { intros st' H. by apply (lit_refuses num_char 41 []). }
    erewrite (step_lit (js ")") []); [|done]. by rewrite rmatch_end. }
  rewrite E. reflexivity.
Qed.

(** The beginning shared by the comparison and the first half of a range. *)
Lemma time_head {A} R l t st (k : rstate -> option A) :
  rest st = fn ++ (js "(" ++ quote_c) ++ tz ++ quote_c ++ t -> caps st = [] ->
  exists p, rmatch (RSeq rfunc (RSeq (rlit (js "(" ++ quote_c)) (RSeq (RGroup 2 rname) (RSeq (rlit (quote_c ++ l)) R)))) st k
    = rmatch (RSeq (rlit (quote_c ++ l)) R) (mkR p (quote_c ++ t) [(1%nat, fn); (2%nat, tz)]) k.
Proof.
  intros E Hc. unfold rfunc. rewrite (step_alts 1 TIME_FUNCS fn _ _ _ _ E); [|done|].
  2: { intros s' H1 H2. by apply time_funcs_distinct. }
  rewrite Hc. erewrite (step_lit (js "(" ++ quote_c)); [|by rewrite <- app_assoc; reflexivity].
  erewrite (step_name 2 tz); [|cbn [rest after]; reflexivity | done | done].
  eexists. reflexivity.
Qed.

Lemma time_not_paren t : match_at_start time_paren_range_re (fn ++ t) = None.
Proof.
  apply match_at_start_none. revert Hf. unfold TIME_FUNCS. rewrite !elem_of_cons, elem_of_nil.
  intros [-> |[-> |[-> |[-> |[-> |[]]]]]]; vm_compute; reflexivity.
Qed.

Lemma compare_not_range o v :
  o ∈ [js "=="; js ">="; js "<"] -> is_numeric_literal v = true ->
  match_at_start time_range_re (compareText fn tz o v) = None.
Proof.
  intros Ho Hv. unfold match_at_start, time_range_re, rrange. cbn [rseq app]. rewrite rmatch_seq, rmatch_start.
  match goal with |- rmatch _ ?st ?k = None => set (st0 := st); set (k0 := k) end.
  match goal with |- rmatch (RSeq rfunc (RSeq _ (RSeq _ (RSeq (rlit (quote_c ++ ?l)) ?R)))) _ _ = None =>
    destruct (time_head R l (js ") " ++ o ++ js " " ++ v) st0 k0) as (p & ->) end.
  { unfold st0, compareText. cbn [rest]. by rewrite <- !app_assoc. }
  { done. }
  revert Ho. rewrite !elem_of_cons, elem_of_nil. intros [-> |[-> |[-> |[]]]].
  - by apply step_lit_none.
  - erewrite (step_lit (quote_c ++ js ") >= ") v); [|reflexivity].
    erewrite (step_num 3 v []); [|cbn [rest after]; by rewrite app_nil_r | done | done |].
    + by apply step_lit_none.
    + intros st' H. by apply (lit_refuses num_char 32 (js "|| ")).
  - by apply step_lit_none.
Qed.

Lemma parse_compare o v :
  o ∈ [js "=="; js ">="; js "<"] -> is_numeric_literal v = true ->
  tryParseTimeCondition (compareText fn tz o v) = Some (CTime (mkTime fn tz (timeOp o) v [] [])).
Proof.
  intros Ho Hv. unfold tryParseTimeCondition. rewrite compare_not_range by done.
  unfold compareText at 1. rewrite time_not_paren.
  assert (E : match_at_start time_cmp_re (compareText fn tz o v) = Some [(1%nat, fn); (2%nat, tz); (3%nat, o); (4%nat, v)]).
  { unfold match_at_start, time_cmp_re. cbn [rseq]. rewrite rmatch_seq, rmatch_start.
    match goal with |- rmatch _ ?st ?k = _ => set (st0 := st); set (k0 := k) end.
    match goal with |- rmatch (RSeq rfunc (RSeq _ (RSeq _ (RSeq (rlit (quote_c ++ ?l)) ?R)))) _ _ = _ =>
      destruct (time_head R l (js ") " ++ o ++ js " " ++ v) st0 k0) as (p & ->) end.
    { unfold st0, compareText. cbn [rest]. by rewrite <- !app_assoc. }
    { done. }
    erewrite (step_lit (quote_c ++ js ") ")); [|cbn [rest]; by rewrite <- app_assoc].
    erewrite (step_alts 3 _ o (js " " ++ v)); [|reflexivity | done |].
    2: { revert Ho. rewrite !elem_of_cons, elem_of_nil. intros Ho s'. rewrite !elem_of_cons, elem_of_nil. intros Hs' Ns.
         destruct Ho as [-> |[-> |[-> |[]]]], Hs' as [-> |[-> |[-> |[]]]]; done. }
    erewrite (step_lit (js " ")); [|reflexivity].
    erewrite (step_num 4 v []); [|cbn [rest after]; by rewrite app_nil_r | done | done | intros st'; apply end_refuses].
    by rewrite rmatch_end. }
  rewrite E. reflexivity.
Qed.
End TimeConditions.

(** The texts of the other conditions. *)
Definition sourceName (src : CondSource) : jsstr := match src with param => js "param" | header => js "header" end.
Definition existsText (src : CondSource) (p : jsstr) : jsstr :=
  sourceName src ++ (js "(" ++ quote_c) ++ p ++ quote_c ++
  match src with header => js ") != " ++ quote_c ++ quote_c | param => js ") != nil" end.
Definition eqText (src : CondSource) (p lit : jsstr) : jsstr :=
  sourceName src ++ (js "(" ++ quote_c) ++ p ++ quote_c ++ js ") == " ++ lit.
Definition containsText (p v : jsstr) : jsstr :=
  (js "has(header(" ++ quote_c) ++ p ++ quote_c ++ js "), " ++ (quote_c ++ v ++ quote_c) ++ js ")".

Lemma not_time pre t :
  may_match time_range_re pre (fun _ => true) = false -> may_match time_paren_range_re pre (fun _ => true) = false ->
  may_match time_cmp_re pre (fun _ => true) = false -> tryParseTimeCondition (pre ++ t) = None.
Proof. intros H1 H2 H3. unfold tryParseTimeCondition. by rewrite !match_at_start_none. Qed.

Section NamedConditions.
Context (p : jsstr) (Hn : p <> []) (Hp : forallb plain p = true).

(** The beginning of a pattern up to the quote that closes the name. *)
Lemma named {A} a l t R (k : rstate -> option A) :
  exists q, rmatch (RSeq (RStart false) (RSeq (rlit a) (RSeq (RGroup 1 rname) (RSeq (rlit (quote_c ++ l)) R)))) (mkR None (a ++ p ++ quote_c ++ t) []) k
    = rmatch (RSeq (rlit (quote_c ++ l)) R) (mkR q (quote_c ++ t) [(1%nat, p)]) k.
Proof.
  rewrite rmatch_seq, rmatch_start. erewrite (step_lit a); [|reflexivity].
  erewrite (step_name 1 p); [|cbn [rest after]; reflexivity | done | done]. eexists. reflexivity.
Qed.

Lemma named_none a l t R : strip_prefix (quote_c ++ l) (quote_c ++ t) = None ->
  match_at_start (RSeq (RStart false) (RSeq (rlit a) (RSeq (RGroup 1 rname) (RSeq (rlit (quote_c ++ l)) R)))) (a ++ p ++ quote_c ++ t) = None.
Proof.
  intros E. unfold match_at_start. destruct (named a l t R (fun st => Some (caps st))) as (q & ->). by apply step_lit_none.
Qed.

Lemma parse_exists src :
  tryParseRequestCondition (existsText src p) = Ret (Some (CPH (mkPH src p MATCH_EXISTS []))).
Proof.
  unfold tryParseRequestCondition, existsText, sourceName. destruct src.
  - rewrite (not_time (js "param")), (match_at_start_none header_exists_re (js "param")) by (vm_compute; reflexivity).
    assert (E : match_at_start param_exists_re (js "param" ++ (js "(" ++ quote_c) ++ p ++ quote_c ++ js ") != nil") = Some [(1%nat, p)]).
    { unfold match_at_start, param_exists_re. cbn [rseq].
      destruct (named (js "param(" ++ quote_c) (js ") != nil") (js ") != nil") (REnd false) (fun st => Some (caps st))) as (q & E).
      etransitivity; [exact E|]. erewrite (step_lit _ []); [|cbn [rest]; by rewrite app_nil_r]. by rewrite rmatch_end. }
    rewrite E. reflexivity.
  - rewrite (not_time (js "header")) by (vm_compute; reflexivity).
    assert (E : match_at_start header_exists_re (js "header" ++ (js "(" ++ quote_c) ++ p ++ quote_c ++ js ") != " ++ quote_c ++ quote_c) = Some [(1%nat, p)]).
    { unfold match_at_start, header_exists_re. cbn [rseq].
      destruct (named (js "header(" ++ quote_c) (js ") != " ++ quote_c ++ quote_c) (js ") != " ++ quote_c ++ quote_c) (REnd false) (fun st => Some (caps st))) as (q & E).
      etransitivity; [exact E|]. erewrite (step_lit _ []); [|cbn [rest]; by rewrite app_nil_r]. by rewrite rmatch_end. }
    rewrite E. reflexivity.
Qed.

Lemma parse_eq src lit v :
  lit <> [] -> forallb (fun c => negb (line_end c)) lit = true -> parseExprLiteral lit = Some v ->
  tryParseRequestCondition (eqText src p lit) = Ret (Some (CPH (mkPH src p MATCH_EQ v))).
Proof.
  intros Hl Hd Hv. unfold tryParseRequestCondition.
  assert (E : match_at_start eq_re (eqText src p lit) = Some [(1%nat, sourceName src); (2%nat, p); (3%nat, lit)]).
  { unfold match_at_start, eq_re, eqText. cbn [rseq]. rewrite rmatch_seq, rmatch_start.
    erewrite (step_alts 1 _ (sourceName src)); [|reflexivity | destruct src; set_solver |].
    2: { intros s' H1 H2. rewrite !elem_of_cons, elem_of_nil in H1. destruct src, H1 as [-> |[-> |[]]]; done. }
    erewrite (step_lit (js "(" ++ quote_c)); [|cbn [rest]; by rewrite <- app_assoc].
    erewrite (step_name 2 p); [|cbn [rest after]; reflexivity | done | done].
    erewrite (step_lit (quote_c ++ js ") == ")); [|cbn [rest]; by rewrite <- app_assoc].
    erewrite (step_run 3 (fun c => negb (line_end c)) lit []);
      [|cbn [rest after]; by rewrite app_nil_r | done | done | done | intros st'; apply end_refuses].
    by rewrite rmatch_end. }
  rewrite E. change (cap 3 [(1%nat, sourceName src); (2%nat, p); (3%nat, lit)]) with lit. rewrite Hv.
  clear E. unfold eqText. destruct src; cbn [sourceName].
  - rewrite (not_time (js "param")), (match_at_start_none header_exists_re (js "param")),
      (match_at_start_none header_contains_re (js "param")) by (vm_compute; reflexivity).
    assert (Epar : forall l R, strip_prefix (quote_c ++ l) (quote_c ++ js ") == " ++ lit) = None ->
      match_at_start (RSeq (RStart false) (RSeq (rlit (js "param(" ++ quote_c)) (RSeq (RGroup 1 rname) (RSeq (rlit (quote_c ++ l)) R))))
        (js "param" ++ (js "(" ++ quote_c) ++ p ++ quote_c ++ js ") == " ++ lit) = None).
    { intros l R H. exact (named_none (js "param(" ++ quote_c) l _ R H). }
    unfold param_exists_re, param_contains_re, param_compare_re. cbn [rseq]. rewrite !Epar by (vm_compute; reflexivity). reflexivity.
  - rewrite (not_time (js "header")), (match_at_start_none param_exists_re (js "header")), (match_at_start_none header_contains_re (js "header")),
      (match_at_start_none param_contains_re (js "header")), (match_at_start_none param_compare_re (js "header")) by (vm_compute; reflexivity).
    assert (Ehd : match_at_start header_exists_re (js "header" ++ (js "(" ++ quote_c) ++ p ++ quote_c ++ js ") == " ++ lit) = None).
    { unfold header_exists_re. cbn [rseq]. 
      refine (named_none (js "header(" ++ quote_c) (js ") != " ++ quote_c ++ quote_c) _ _ _). vm_compute. reflexivity. }
    rewrite Ehd. reflexivity.
Qed.

Lemma parse_contains v :
  forallb plain v = true ->
  tryParseRequestCondition (containsText p v) = Ret (Some (CPH (mkPH header p MATCH_CONTAINS v))).
Proof.
  intros Hv. unfold tryParseRequestCondition.
  assert (E : match_at_start header_contains_re (containsText p v) = Some [(1%nat, p); (2%nat, quote_c ++ v ++ quote_c)]).
  { unfold match_at_start, header_contains_re, containsText. cbn [rseq].
    match goal with |- rmatch (RSeq _ (RSeq _ (RSeq _ (RSeq _ ?R)))) _ ?k = _ =>
      destruct (named (js "has(header(" ++ quote_c) (js "), ") (js "), " ++ (quote_c ++ v ++ quote_c) ++ js ")") R k) as (q & Ex) end.
    etransitivity; [exact Ex|]. clear Ex. erewrite (step_lit (quote_c ++ js "), ")); [|cbn [rest]; by rewrite <- app_assoc].
    rewrite rmatch_seq, rmatch_group. unfold rjson_string. cbn [rseq].
    erewrite (step_lit quote_c); [|cbn [rest after]; by rewrite <- !app_assoc].
    rewrite rmatch_seq. rewrite (rmatch_star_alt_run _ _ v (quote_c ++ js ")")).
    - cbn [after rest]. erewrite (rmatch_lit_app quote_c (js ")")); [|done]. cbn [rest after caps prev].
      match goal with |- context [take ?n ?x] => replace (take n x) with (quote_c ++ v ++ quote_c)
        by (symmetry; etransitivity; [|exact (group_text (quote_c ++ v ++ quote_c) (js ")"))]; by rewrite <- ?app_assoc) end.
      erewrite (step_lit (js ")") []); [|done]. by rewrite rmatch_end.
    - reflexivity.
    - revert Hv. rewrite !forallb_forall. intros H c Hc. specialize (H c Hc). apply plain_facts in H.
      unfold dquote. destruct (Z.eqb_spec c 34), (Z.eqb_spec c 92); lia || done.
    - done.
    - intros st' k' (u & Hu). apply step_lit_none. destruct (rest st') as [|c w] eqn:Er; [done|]. cbn [strip_prefix].
      destruct (Z.eqb_spec 92 c) as [<-|]; [|done]. exfalso.
      assert (Hin : 92 ∈ v ++ quote_c ++ js ")") by (rewrite <- Hu; set_solver).
      rewrite !elem_of_app in Hin. destruct Hin as [Hin|Hin].
      + rewrite forallb_forall in Hv. apply list_elem_of_In in Hin. apply Hv, plain_facts in Hin. lia.
      + vm_compute in Hin. set_solver.
    - intros st' H. rewrite rmatch_lit. destruct (rest st') as [|c w]; [done|]. cbn [quote_c strip_prefix].
      destruct (Z.eqb_spec dquote c) as [<-|]; [|done]. by rewrite Z.eqb_refl in H. }
  rewrite E. unfold containsText.
  assert (Epre : forall t, (js "has(header(" ++ quote_c) ++ t = js "has" ++ js "(header(" ++ quote_c ++ t) by (intros t; by rewrite <- app_assoc).
  rewrite Epre. rewrite (not_time (js "has")), (match_at_start_none header_exists_re (js "has")),
    (match_at_start_none param_exists_re (js "has")) by (vm_compute; reflexivity).
  change (cap 2 [(1%nat, p); (2%nat, quote_c ++ v ++ quote_c)]) with (quote_c ++ v ++ quote_c).
  rewrite <- quote_plain by done. unfold json_parse_string.
  rewrite json_parse_quote by (by apply plain_code_unit). reflexivity.
Qed.

(** A comparison without its nil check is none of the conditions. *)
Lemma compare_unread o t :
  o ∈ [js ">"; js ">="; js "<"; js "<="] ->
  tryParseRequestCondition (js "param" ++ (js "(" ++ quote_c) ++ p ++ quote_c ++ js ") " ++ o ++ t) = Ret None.
Proof.
  intros Ho. unfold tryParseRequestCondition.
  assert (Hs : forall a, a ∈ [js "!= nil"; js "!= nil && has(param(" ++ quote_c; js "!= nil && param(" ++ quote_c; js "== "] ->
    strip_prefix (quote_c ++ js ") " ++ a) (quote_c ++ js ") " ++ o ++ t) = None).
  { intros a Ha. rewrite !elem_of_cons in Ho. rewrite !elem_of_cons in Ha.
    destruct Ho as [-> |[-> |[-> |[-> |Ho]]]]; [..|by apply elem_of_nil in Ho];
      destruct Ha as [-> |[-> |[-> |[-> |Ha]]]]; try (by apply elem_of_nil in Ha); vm_compute; reflexivity. }
  rewrite (not_time (js "param")), (match_at_start_none header_exists_re (js "param")),
    (match_at_start_none header_contains_re (js "param")) by (vm_compute; reflexivity).
  assert (Epar : forall l R, l ∈ [js "!= nil"; js "!= nil && has(param(" ++ quote_c; js "!= nil && param(" ++ quote_c; js "== "] ->
    match_at_start
      (RSeq (RStart false) (RSeq (rlit (js "param(" ++ quote_c)) (RSeq (RGroup 1 rname) (RSeq (rlit (quote_c ++ js ") " ++ l)) R))))
      (js "param" ++ (js "(" ++ quote_c) ++ p ++ quote_c ++ js ") " ++ o ++ t) = None).
  { intros l R Hl. apply (named_none (js "param(" ++ quote_c) (js ") " ++ l)). by apply Hs. }
  unfold param_exists_re, param_contains_re, param_compare_re. cbn [rseq].
  rewrite (Epar (js "!= nil")), (Epar (js "!= nil && has(param(" ++ quote_c)), (Epar (js "!= nil && param(" ++ quote_c))
    by (rewrite !elem_of_cons; tauto). cbn [mbind option_bind].
  assert (E : match_at_start eq_re (js "param" ++ (js "(" ++ quote_c) ++ p ++ quote_c ++ js ") " ++ o ++ t) = None).
  { unfold match_at_start, eq_re. cbn [rseq]. rewrite rmatch_seq, rmatch_start.
    erewrite (step_alts 1 _ (js "param")); [|reflexivity | apply list_elem_of_here |].
    2: { intros s' H1 H2. rewrite !elem_of_cons, elem_of_nil in H1. destruct H1 as [-> |[-> |[]]]; done. }
    erewrite (step_lit (js "(" ++ quote_c)); [|cbn [rest]; by rewrite <- app_assoc].
    erewrite (step_name 2 p); [|cbn [rest after]; reflexivity | done | done].
    apply step_lit_none. cbn [rest]. apply (Hs (js "== ")). rewrite !elem_of_cons; tauto. }
  by rewrite E.
Qed.
End NamedConditions.

(** ** Lemmas: splitting at the top level *)
(** The depth of parentheses after a text, which never goes below zero. *)
Fixpoint walk (s : jsstr) (d : Z) : option Z :=
  match s with
  | [] => Some d
  | c :: t =>
      let d := if c =? 40 then d + 1 else d in
      let d := if c =? 41 then d - 1 else d in
      if d <? 0 then None else walk t d
  end.

Definition noparen (s : jsstr) : bool := no_char 40 s && no_char 41 s.

Lemma walk_app a b d : walk (a ++ b) d = d' ← walk a d; walk b d'.
Proof. revert d. induction a as [|c a IH]; intros d; [done|]. cbn. by case_match. Qed.

Lemma walk_noparen s d : noparen s = true -> 0 <= d -> walk s d = Some d.
Proof.
  unfold noparen, no_char. intros H Hd. induction s as [|c s IH]; [done|]. cbn in *.
  apply andb_prop in H as [H1 H2]. apply andb_prop in H1 as [Hc1 H1], H2 as [Hc2 H2].
  apply negb_true_iff in Hc1, Hc2. rewrite Hc1, Hc2. destruct (Z.ltb_spec d 0); [lia|]. apply IH. by rewrite H1, H2.
Qed.

Lemma walk_shift s d k d' : 0 <= k -> walk s d = Some d' -> walk s (d + k) = Some (d' + k).
Proof.
  intros Hk. revert d. induction s as [|c s IH]; intros d; [cbn; congruence|]. cbn.
  replace (if c =? 40 then d + k + 1 else d + k) with ((if c =? 40 then d + 1 else d) + k) by (destruct (c =? 40); lia).
  set (e := if c =? 40 then d + 1 else d).
  replace (if c =? 41 then e + k - 1 else e + k) with ((if c =? 41 then e - 1 else e) + k) by (destruct (c =? 41); lia).
  destruct (Z.ltb_spec (if c =? 41 then e - 1 else e) 0); [done|].
  destruct (Z.ltb_spec ((if c =? 41 then e - 1 else e) + k) 0); [lia|]. apply IH.
Qed.

Section Split.
(** Separators start with a blank. *)
Context (sep' : jsstr).
Abbreviation sep := (32 :: sep').

(** Inside parentheses nothing is split. *)
Lemma splitTop_deep s t acc d k d' :
  1 <= k -> walk s d = Some d' -> 0 <= d ->
  splitTop sep (s ++ t) acc (d + k) 0 = splitTop sep t (rev s ++ acc) (d' + k) 0.
Proof.
  intros Hk. revert d acc. induction s as [|c s IH]; intros d acc H Hd; [cbn in H; by simplify_eq|].
  cbn [walk] in H. cbn [app splitTop].
  replace (if c =? 40 then d + k + 1 else d + k) with ((if c =? 40 then d + 1 else d) + k) by (destruct (c =? 40); lia).
  set (e := if c =? 40 then d + 1 else d) in *.
  replace (if c =? 41 then e + k - 1 else e + k) with ((if c =? 41 then e - 1 else e) + k) by (destruct (c =? 41); lia).
  destruct (Z.ltb_spec (if c =? 41 then e - 1 else e) 0); [done|].
  destruct (Z.eqb_spec ((if c =? 41 then e - 1 else e) + k) 0); [lia|]. cbn [andb].
  rewrite (IH _ _ H) by lia. cbn [rev]. by rewrite <- app_assoc.
Qed.

Lemma splitTop_paren w t acc :
  walk w 0 = Some 0 ->
  splitTop sep (js "(" ++ w ++ js ")" ++ t) acc 0 0 = splitTop sep t (rev (js "(" ++ w ++ js ")") ++ acc) 0 0.
Proof.
  intros Hw. change (js "(" ++ w ++ js ")" ++ t) with (40 :: w ++ 41 :: t).
  change (splitTop sep (40 :: w ++ 41 :: t) acc 0 0) with (splitTop sep (w ++ 41 :: t) (40 :: acc) (0 + 1) 0).
  rewrite (splitTop_deep w (41 :: t) (40 :: acc) 0 1 0) by (done || lia).
  change (splitTop sep (41 :: t) (rev w ++ 40 :: acc) (0 + 1) 0) with (splitTop sep t (41 :: rev w ++ 40 :: acc) 0 0).
  f_equal. change (js "(" ++ w ++ js ")") with ([40] ++ w ++ [41]). rewrite !rev_app_distr. cbn. by rewrite <- app_assoc.
Qed.

(** A text without parentheses in which no separator starts. *)
Lemma splitTop_run w t acc :
  noparen w = true -> (forall a b, w = a ++ b -> b <> [] -> starts_with sep (b ++ t) = false) ->
  splitTop sep (w ++ t) acc 0 0 = splitTop sep t (rev w ++ acc) 0 0.
Proof.
  unfold noparen, no_char. revert acc. induction w as [|c w IH]; intros acc H Hs; [done|]. cbn in H.
  apply andb_prop in H as [H1 H2]. apply andb_prop in H1 as [Hc1 H1], H2 as [Hc2 H2].
  apply negb_true_iff in Hc1, Hc2. cbn [app splitTop]. rewrite Hc1, Hc2. cbn [Z.eqb andb].
  change (c :: w ++ t) with ((c :: w) ++ t). rewrite (Hs [] (c :: w) eq_refl) by done. rewrite IH.
  - cbn [rev]. by rewrite <- app_assoc.
  - by rewrite H1, H2.
  - intros a b -> Hb. by apply (Hs (c :: a) b).
Qed.

Lemma splitTop_skip x t acc d : splitTop sep (x ++ t) acc d (length x) = splitTop sep t acc d 0.
Proof. induction x as [|c x IH]; [done|]. exact IH. Qed.

(** A text that is one part, whatever follows it. *)
Definition passes (e : jsstr) : Prop := forall t acc, splitTop sep (e ++ t) acc 0 0 = splitTop sep t (rev e ++ acc) 0 0.

Lemma passes_app a b : passes a -> passes b -> passes (a ++ b).
Proof. intros Ha Hb t acc. by rewrite <- app_assoc, Ha, Hb, rev_app_distr, app_assoc. Qed.

Lemma split_join_top es :
  es <> [] -> Forall (fun e => passes e /\ trimmed e = true) es -> splitTop sep (join sep es) [] 0 0 = es.
Proof.
  induction es as [|e es IH]; [done|]. intros _ H. inversion H as [|? ? [Hp Ht] H']; subst.
  assert (Hend : splitTop sep e [] 0 0 = [e]).
  { rewrite <- (app_nil_r e) at 1. rewrite Hp. cbn. rewrite app_nil_r, rev_involutive. by rewrite trim_trimmed. }
  destruct es as [|e' es]; [exact Hend|].
  change (join sep (e :: e' :: es)) with (e ++ sep ++ join sep (e' :: es)). rewrite Hp.
  assert (Hsep : forall J acc, splitTop sep (sep ++ J) acc 0 0 = trim (rev acc) :: splitTop sep J [] 0 0).
  { intros J acc. change (sep ++ J) with (32 :: sep' ++ J). cbn [splitTop Z.eqb andb].
    change (32 :: sep' ++ J) with (sep ++ J). rewrite starts_with_app. f_equal.
    change (length sep - 1)%nat with (S (length sep') - 1)%nat. rewrite Nat.sub_1_r. apply splitTop_skip. }
  rewrite Hsep, app_nil_r, rev_involutive, trim_trimmed by done. f_equal. by apply IH.
Qed.
End Split.

(** ** Lemmas: the conditions of a rule *)
Definition starts_ok (s : jsstr) : bool := match s with [] => false | c :: _ => negb (is_ws c) end.
Definition ends_ok (s : jsstr) : bool := match rev s with [] => false | c :: _ => negb (is_ws c) end.
(** No parenthesis and no ampersand. *)
Definition clean (s : jsstr) : bool := noparen s && no_char 38 s.

Lemma trimmed_ends s : starts_ok s = true -> ends_ok s = true -> trimmed s = true.
Proof. unfold starts_ok, ends_ok, trimmed. destruct s; [done|]. by intros -> ; destruct (rev _). Qed.
Lemma starts_ok_app a b : starts_ok a = true -> starts_ok (a ++ b) = true.
Proof. by destruct a. Qed.
Lemma ends_ok_app a b : ends_ok b = true -> ends_ok (a ++ b) = true.
Proof. unfold ends_ok. rewrite rev_app_distr. by destruct (rev b). Qed.
Lemma clean_app a b : clean (a ++ b) = clean a && clean b.
Proof.
  unfold clean, noparen. rewrite !no_char_app. destruct (no_char 40 a), (no_char 41 a), (no_char 38 a); cbn; try done.
  all: by destruct (no_char 40 b), (no_char 41 b), (no_char 38 b).
Qed.

Lemma no_char_plain x s : (forall c, plain c = true -> c <> x) -> forallb plain s = true -> no_char x s = true.
Proof.
  intros H Hs. unfold no_char. rewrite forallb_forall in *. intros c Hc. specialize (H c (Hs c Hc)).
  destruct (Z.eqb_spec c x); [done | reflexivity].
Qed.

Lemma clean_plain s : forallb plain s = true -> clean s = true.
Proof. intros H. unfold clean, noparen. rewrite !no_char_plain; try done; intros c Hc%plain_facts; lia. Qed.

Lemma num_char_cases c : num_char c = true -> 48 <= c <= 57 \/ c = 46 \/ c = 101 \/ c = 69 \/ c = 43 \/ c = 45.
Proof.
  unfold num_char, is_digit. intros H. repeat (apply orb_prop in H as [H|H]); try (apply Z.eqb_eq in H); bool_to_prop; lia.
Qed.

Lemma no_char_num x v : num_char x = false -> forallb num_char v = true -> no_char x v = true.
Proof.
  intros Hx H. unfold no_char. rewrite forallb_forall in *. intros c Hc. specialize (H c Hc).
  destruct (Z.eqb_spec c x); [congruence | done].
Qed.

Lemma num_not_ws c : num_char c = true -> is_ws c = false.
Proof.
  intros H%num_char_cases. assert (E : c = 43 \/ c = 45 \/ c = 46 \/ c = 69 \/ c = 101 \/ 48 <= c <= 57) by lia. clear H.
  destruct E as [-> |[-> |[-> |[-> |[-> |E]]]]]; try reflexivity.
  apply is_digit_facts. unfold is_digit. destruct (Z.leb_spec 48 c), (Z.leb_spec c 57); lia || done.
Qed.

Lemma numeric_text v : is_numeric_literal v = true -> clean v = true /\ no_char 124 v = true /\ starts_ok v = true /\ ends_ok v = true.
Proof.
  intros [Hv Hc]%numeric_chars. split_and!.
  - unfold clean, noparen. by rewrite !no_char_num.
  - by apply no_char_num.
  - destruct v as [|c v]; [done|]. cbn in *. apply andb_prop in Hc as [Hc _]. by rewrite num_not_ws.
  - unfold ends_ok. rewrite <- forallb_rev in Hc. destruct (rev v) as [|c w] eqn:E.
    + apply (f_equal (@rev Z)) in E. rewrite rev_involutive in E. done.
    + cbn in Hc. apply andb_prop in Hc as [Hc _]. by rewrite num_not_ws.
Qed.

Lemma time_func_text fn : fn ∈ TIME_FUNCS -> clean fn = true /\ no_char 124 fn = true /\ starts_ok fn = true /\ ends_ok fn = true.
Proof.
  unfold TIME_FUNCS. rewrite !elem_of_cons, elem_of_nil.
  intros [-> |[-> |[-> |[-> |[-> |[]]]]]]; vm_compute; done.
Qed.

(** A piece of a condition: one part of a conjunction, with its parentheses matched. *)
Definition seg (e : jsstr) : Prop := passes (js "&& ") e /\ walk e 0 = Some 0.

Lemma seg_app a b : seg a -> seg b -> seg (a ++ b).
Proof. intros [P1 W1] [P2 W2]. split; [by apply passes_app|]. by rewrite walk_app, W1. Qed.

Lemma seg_run w : clean w = true -> ends_ok w = true -> seg w.
Proof.
  intros Hc He. unfold clean in Hc. apply andb_prop in Hc as [Hc H38]. split; [|by apply walk_noparen].
  intros t acc. apply splitTop_run; [done|]. intros a b -> Hb. apply not_true_iff_false. intros [u Hu]%starts_with_spec.
  destruct b as [|x [|y b]]; [done| |].
  - injection Hu as -> _. unfold ends_ok in He. by rewrite rev_app_distr in He.
  - injection Hu as _ -> _. unfold no_char in H38. rewrite forallb_app in H38. cbn in H38. by rewrite !andb_false_r in H38.
Qed.

Lemma seg_paren w : walk w 0 = Some 0 -> seg (js "(" ++ w ++ js ")").
Proof.
  intros Hw. split.
  - intros t acc. rewrite <- !app_assoc. by apply splitTop_paren.
  - change (js "(" ++ w ++ js ")") with (40 :: w ++ [41]). cbn. rewrite walk_app.
    rewrite (walk_shift w 0 1 0) by (done || lia). reflexivity.
Qed.

Record atom (e : jsstr) : Prop := { at_seg : seg e; at_trim : trimmed e = true; at_ne : e <> [] }.

Lemma atom_of e : seg e -> starts_ok e = true -> ends_ok e = true -> atom e.
Proof. intros Hs H1 H2. split; [done | by apply trimmed_ends | by intros ->]. Qed.

Lemma walk_quoted s : forallb plain s = true -> walk (quote_c ++ s ++ quote_c) 0 = Some 0.
Proof.
  intros H. apply walk_noparen; [|done]. assert (E := clean_plain s H). unfold clean in E. apply andb_prop in E as [E _].
  unfold noparen in *. rewrite !no_char_app. apply andb_prop in E as [-> ->]. reflexivity.
Qed.

Lemma atom_range fn tz a b :
  fn ∈ TIME_FUNCS -> forallb plain tz = true -> is_numeric_literal a = true -> is_numeric_literal b = true -> atom (rangeText fn tz a b).
Proof.
  intros (F1 & _ & F2 & F3)%time_func_text Hz (A1 & _ & _ & A3)%numeric_text (B1 & _ & _ & B3)%numeric_text.
  assert (E : rangeText fn tz a b = fn ++ (js "(" ++ (quote_c ++ tz ++ quote_c) ++ js ")") ++ (js " >= " ++ a ++ js " || " ++ fn)
    ++ (js "(" ++ (quote_c ++ tz ++ quote_c) ++ js ")") ++ (js " < " ++ b)) by (unfold rangeText; by rewrite <- !app_assoc).
  rewrite E. apply atom_of; [|by apply starts_ok_app | by do 5 apply ends_ok_app].
  apply seg_app; [|apply seg_app; [|apply seg_app; [|apply seg_app]]].
  - by apply seg_run.
  - apply seg_paren. by apply walk_quoted.
  - apply seg_run; [by rewrite !clean_app, A1, F1 | by do 3 apply ends_ok_app].
  - apply seg_paren. by apply walk_quoted.
  - apply seg_run; [by rewrite !clean_app, B1 | by apply ends_ok_app].
Qed.

Lemma atom_compare fn tz o v :
  fn ∈ TIME_FUNCS -> forallb plain tz = true -> o ∈ [js "=="; js ">="; js "<"] -> is_numeric_literal v = true ->
  atom (compareText fn tz o v) /\ no_char 124 (compareText fn tz o v) = true.
Proof.
  intros (F1 & F4 & F2 & F3)%time_func_text Hz Ho (B1 & B4 & _ & B3)%numeric_text.
  assert (Oc : clean o = true /\ no_char 124 o = true).
  { revert Ho. rewrite !elem_of_cons, elem_of_nil. by intros [-> |[-> |[-> |[]]]]. }
  destruct Oc as [O1 O2]. split.
  - assert (E : compareText fn tz o v = fn ++ (js "(" ++ (quote_c ++ tz ++ quote_c) ++ js ")") ++ (js " " ++ o ++ js " " ++ v))
      by (unfold compareText; by rewrite <- !app_assoc).
    rewrite E. apply atom_of; [|by apply starts_ok_app | by do 5 apply ends_ok_app].
    apply seg_app; [|apply seg_app].
    + by apply seg_run.
    + apply seg_paren. by apply walk_quoted.
    + apply seg_run; [by rewrite !clean_app, O1, B1 | by do 3 apply ends_ok_app].
  - unfold compareText. rewrite !no_char_app, F4, O2, B4. rewrite (no_char_plain 124 tz); [reflexivity | |done].
    intros c Hc%plain_facts. lia.
Qed.

Lemma atom_exists src p : forallb plain p = true -> atom (existsText src p) /\ no_char 124 (existsText src p) = true.
Proof.
  intros Hp. assert (P4 : no_char 124 p = true) by (apply no_char_plain; [intros c Hc%plain_facts; lia | done]).
  unfold existsText. split; [|destruct src; by rewrite !no_char_app, P4].
  destruct src; cbn [sourceName].
  - assert (E : js "param" ++ (js "(" ++ quote_c) ++ p ++ quote_c ++ js ") != nil"
      = js "param" ++ (js "(" ++ (quote_c ++ p ++ quote_c) ++ js ")") ++ js " != nil") by (by rewrite <- !app_assoc).
    rewrite E. apply atom_of; [|done | by do 2 apply ends_ok_app]. apply seg_app; [by apply seg_run | apply seg_app; [|by apply seg_run]].
    apply seg_paren. by apply walk_quoted.
  - assert (E : js "header" ++ (js "(" ++ quote_c) ++ p ++ quote_c ++ js ") != " ++ quote_c ++ quote_c
      = js "header" ++ (js "(" ++ (quote_c ++ p ++ quote_c) ++ js ")") ++ (js " != " ++ quote_c ++ quote_c)) by (by rewrite <- !app_assoc).
    rewrite E. apply atom_of; [|done | by do 2 apply ends_ok_app]. apply seg_app; [by apply seg_run | apply seg_app; [|by apply seg_run]].
    apply seg_paren. by apply walk_quoted.
Qed.

Lemma atom_eq src p lit :
  forallb plain p = true -> clean lit = true -> no_char 124 lit = true -> ends_ok lit = true ->
  atom (eqText src p lit) /\ no_char 124 (eqText src p lit) = true.
Proof.
  intros Hp L1 L2 L3. assert (P4 : no_char 124 p = true) by (apply no_char_plain; [intros c Hc%plain_facts; lia | done]).
  unfold eqText. split; [|destruct src; by rewrite !no_char_app, P4, L2].
  assert (E : sourceName src ++ (js "(" ++ quote_c) ++ p ++ quote_c ++ js ") == " ++ lit
    = sourceName src ++ (js "(" ++ (quote_c ++ p ++ quote_c) ++ js ")") ++ (js " == " ++ lit)) by (by rewrite <- !app_assoc).
  rewrite E. apply atom_of; [|by destruct src | by do 3 apply ends_ok_app].
  apply seg_app; [|apply seg_app].
  - by destruct src; apply seg_run.
  - apply seg_paren. by apply walk_quoted.
  - apply seg_run; [by rewrite clean_app, L1 | by apply ends_ok_app].
Qed.

Lemma atom_contains p v :
  forallb plain p = true -> forallb plain v = true -> atom (containsText p v) /\ no_char 124 (containsText p v) = true.
Proof.
  intros Hp Hv. assert (P4 : no_char 124 p = true) by (apply no_char_plain; [intros c Hc%plain_facts; lia | done]).
  assert (V4 : no_char 124 v = true) by (apply no_char_plain; [intros c Hc%plain_facts; lia | done]).
  unfold containsText. split; [|by rewrite !no_char_app, P4, V4].
  assert (E : (js "has(header(" ++ quote_c) ++ p ++ quote_c ++ js "), " ++ (quote_c ++ v ++ quote_c) ++ js ")"
    = js "has" ++ (js "(" ++ (js "header" ++ (js "(" ++ (quote_c ++ p ++ quote_c) ++ js ")") ++ js ", " ++ (quote_c ++ v ++ quote_c)) ++ js ")"))
    by (by rewrite <- !app_assoc).
  rewrite E. apply atom_of; [|done | by do 3 apply ends_ok_app]. apply seg_app; [by apply seg_run|]. apply seg_paren.
  rewrite walk_app. cbn [mbind option_bind]. change (walk (js "header") 0) with (Some 0). cbn [mbind option_bind].
  rewrite walk_app, (proj2 (seg_paren _ (walk_quoted p Hp))). cbn [mbind option_bind].
  rewrite walk_app. change (walk (js ", ") 0) with (Some 0). cbn [mbind option_bind]. by apply walk_quoted.
Qed.

(** ** Lemmas: literals *)
Lemma plain_line s : forallb plain s = true -> forallb (fun c => negb (line_end c)) s = true.
Proof.
  rewrite !forallb_forall. intros H c Hc. specialize (H c Hc). apply plain_facts in H. unfold line_end.
  destruct (Z.eqb_spec c 10), (Z.eqb_spec c 13), (Z.eqb_spec c 8232), (Z.eqb_spec c 8233); lia || done.
Qed.

Record literal_for (v lit : jsstr) : Prop := {
  lit_ne : lit <> [];
  lit_line : forallb (fun c => negb (line_end c)) lit = true;
  lit_parse : parseExprLiteral lit = Some v;
  lit_clean : clean lit = true;
  lit_bar : no_char 124 lit = true;
  lit_end : ends_ok lit = true;
}.

Lemma quoted_literal v :
  forallb plain v = true -> literal_for v (quote_c ++ v ++ quote_c).
Proof.
  intros Hv. assert (Hl := plain_line v Hv). assert (Hc := clean_plain v Hv).
  assert (V4 : no_char 124 v = true) by (apply no_char_plain; [intros c Hc'%plain_facts; lia | done]).
  assert (He : ends_ok (quote_c ++ v ++ quote_c) = true) by (by do 2 apply ends_ok_app).
  split; [done | by rewrite !forallb_app, Hl | | by rewrite !clean_app, Hc | by rewrite !no_char_app, V4 | done].
  unfold parseExprLiteral. rewrite trim_trimmed by (apply trimmed_ends; done).
  rewrite (bool_decide_false (_ = js "true")), (bool_decide_false (_ = js "false")) by (vm_compute; done). cbn [orb].
  unfold is_numeric_literal. rewrite (match_at_start_none NUMERIC_LITERAL_REGEX quote_c) by (vm_compute; reflexivity).
  rewrite <- quote_plain, json_parse_quote by (done || by apply plain_code_unit). reflexivity.
Qed.

Lemma literal_ok v : trimmed v = true -> forallb plain v = true -> literal_for v (buildExprLiteral MATCH_EQ v).
Proof.
  intros Ht Hp. unfold buildExprLiteral. rewrite trim_trimmed by done.
  rewrite (bool_decide_false (MATCH_EQ = MATCH_CONTAINS)) by done.
  destruct (decide (v = js "true")) as [->|N1]; [split; vm_compute; done|].
  destruct (decide (v = js "false")) as [->|N2]; [split; vm_compute; done|].
  rewrite (bool_decide_false (v = js "true")), (bool_decide_false (v = js "false")) by done. cbn [orb].
  destruct (is_numeric_literal v) eqn:En; [|by rewrite quote_plain; [apply quoted_literal|]].
  destruct (numeric_text v En) as (C & B & _ & E). apply numeric_chars in En as Hn. destruct Hn as [Hne _].
  split; try done; [by apply plain_line|]. unfold parseExprLiteral. rewrite trim_trimmed by done.
  rewrite (bool_decide_false (v = js "true")), (bool_decide_false (v = js "false")) by done. cbn [orb]. by rewrite En.
Qed.

(** ** Conditions that the editor can read back *)
Definition name_ok (s : jsstr) : Prop := s <> [] /\ forallb plain s = true.

Inductive cond_ok : RequestCondition -> Prop :=
  | ok_range fn tz a b : fn ∈ TIME_FUNCS -> name_ok tz -> is_numeric_literal a = true -> is_numeric_literal b = true ->
      cond_ok (CTime (mkTime fn tz MATCH_RANGE [] a b))
  | ok_time fn tz m v : fn ∈ TIME_FUNCS -> name_ok tz -> m ∈ [MATCH_EQ; MATCH_GTE; MATCH_LT] -> is_numeric_literal v = true ->
      cond_ok (CTime (mkTime fn tz m v [] []))
  | ok_exists src p : name_ok p -> trimmed p = true -> cond_ok (CPH (mkPH src p MATCH_EXISTS []))
  | ok_eq src p v : name_ok p -> trimmed p = true -> forallb plain v = true -> trimmed v = true -> cond_ok (CPH (mkPH src p MATCH_EQ v))
  | ok_contains p v : name_ok p -> trimmed p = true -> forallb plain v = true -> trimmed v = true ->
      cond_ok (CPH (mkPH header p MATCH_CONTAINS v)).

Definition group_ok (g : RequestRuleGroup) : Prop :=
  gconditions g <> [] /\ Forall cond_ok (gconditions g) /\ is_numeric_literal (multiplier g) = true.

Definition wrap (e : jsstr) : jsstr := if includes (js " || ") e then js "(" ++ e ++ js ")" else e.

(** What the builder writes for a condition, and its reading. *)
Record readable (c : RequestCondition) (e : jsstr) : Prop := {
  r_atom : atom e;
  r_parse : tryParseRequestCondition e = Ret (Some c);
}.

Lemma no_bar_includes e : no_char 124 e = true -> includes (js " || ") e = false.
Proof.
  intros H. apply not_true_iff_false. intros (a & b & ->)%includes_spec. rewrite !no_char_app in H.
  by destruct (no_char 124 a).
Qed.

Lemma readable_wrap c e : readable c e -> no_char 124 e = true -> readable c (wrap e).
Proof. intros H Hb. unfold wrap. by rewrite no_bar_includes. Qed.

Lemma numeric_trim v : is_numeric_literal v = true -> trim v = v.
Proof. intros (_ & _ & S & E)%numeric_text. apply trim_trimmed. by apply trimmed_ends. Qed.

Lemma build_time fn tz :
  fn ∈ TIME_FUNCS -> name_ok tz -> isTimeFunc fn = true /\ str_or tz (js "Asia/Shanghai") = tz /\ json_quote tz = quote_c ++ tz ++ quote_c.
Proof.
  intros Hf [Hz Hp]. split_and!; [by apply bool_decide_eq_true | by destruct tz | by apply quote_plain].
Qed.

(** Readable alone, and inside a conjunction. *)
Definition both_readable (c : RequestCondition) : Prop :=
  readable c (buildRequestConditionExpr c) /\ readable c (wrap (buildRequestConditionExpr c)).

Lemma range_wrap fn tz a b : wrap (rangeText fn tz a b) = js "(" ++ rangeText fn tz a b ++ js ")".
Proof.
  unfold wrap. assert (Hi : includes (js " || ") (rangeText fn tz a b) = true); [|by rewrite Hi].
  apply includes_spec. unfold rangeText. eexists (fn ++ (js "(" ++ quote_c) ++ tz ++ (quote_c ++ js ") >= ") ++ a), _.
  rewrite <- !app_assoc. reflexivity.
Qed.

Lemma range_readable fn tz a b :
  fn ∈ TIME_FUNCS -> name_ok tz -> is_numeric_literal a = true -> is_numeric_literal b = true ->
  both_readable (CTime (mkTime fn tz MATCH_RANGE [] a b)).
Proof.
  intros Hf [Hz Hp] Ha Hb. unfold both_readable.
  assert (E : buildRequestConditionExpr (CTime (mkTime fn tz MATCH_RANGE [] a b)) = rangeText fn tz a b).
  { unfold buildRequestConditionExpr, buildTimeConditionExpr, normalizeTimeCondition.
    cbn [timeFunc timezone tmode rangeStart rangeEnd tvalue_].
    destruct (build_time fn tz Hf (conj Hz Hp)) as (-> & -> & ->).
    change (offeredMode None MATCH_RANGE MATCH_GTE) with MATCH_RANGE. rewrite (bool_decide_true (MATCH_RANGE = MATCH_RANGE)) by done.
    rewrite !numeric_trim, Ha, Hb by done. cbn [negb orb]. unfold rangeText. by rewrite <- !app_assoc. }
  rewrite E. split; split.
  + by apply atom_range.
  + unfold tryParseRequestCondition. by rewrite parse_range.
  + rewrite range_wrap. destruct (atom_range fn tz a b Hf Hp Ha Hb) as [[_ W] _ _].
    apply atom_of; [by apply seg_paren | done | by do 2 apply ends_ok_app].
  + rewrite range_wrap. unfold tryParseRequestCondition. by rewrite parse_paren_range.
Qed.

Lemma time_readable fn tz m v :
  fn ∈ TIME_FUNCS -> name_ok tz -> m ∈ [MATCH_EQ; MATCH_GTE; MATCH_LT] -> is_numeric_literal v = true ->
  both_readable (CTime (mkTime fn tz m v [] [])).
Proof.
  intros Hf [Hz Hp] Hm Hv. unfold both_readable.
  assert (Hm' : exists o, o ∈ [js "=="; js ">="; js "<"] /\ timeOp o = m /\
      buildRequestConditionExpr (CTime (mkTime fn tz m v [] [])) = compareText fn tz o v).
  { unfold buildRequestConditionExpr, buildTimeConditionExpr, normalizeTimeCondition.
    cbn [timeFunc timezone tmode rangeStart rangeEnd tvalue_].
    destruct (build_time fn tz Hf (conj Hz Hp)) as (-> & -> & ->). rewrite (numeric_trim v Hv), Hv. cbn [negb].
    unfold compareText. revert Hm. rewrite !elem_of_cons, elem_of_nil. intros [-> |[-> |[-> |[]]]].
    - exists (js "=="). split; [set_solver|]. split; [done|]. rewrite <- !app_assoc. reflexivity.
    - exists (js ">="). split; [set_solver|]. split; [done|]. rewrite <- !app_assoc. reflexivity.
    - exists (js "<"). split; [set_solver|]. split; [done|]. rewrite <- !app_assoc. reflexivity. }
  destruct Hm' as (o & Ho & Em & E). rewrite E. destruct (atom_compare fn tz o v Hf Hp Ho Hv) as [At Hb].
  assert (R : readable (CTime (mkTime fn tz m v [] [])) (compareText fn tz o v)).
  { split; [done|]. unfold tryParseRequestCondition. by rewrite parse_compare, Em. }
  split; [done | by apply readable_wrap].
Qed.

Lemma exists_readable src p :
  name_ok p -> trimmed p = true ->
  both_readable (CPH (mkPH src p MATCH_EXISTS [])).
Proof.
  intros [Hn Hp] Ht. unfold both_readable.
  assert (E : buildRequestConditionExpr (CPH (mkPH src p MATCH_EXISTS [])) = existsText src p).
  { unfold buildRequestConditionExpr, normalizePHCondition. cbn [source path mode value].
    rewrite trim_trimmed by done. rewrite quote_plain by done. destruct p as [|x p]; [done|]. cbn [truthy negb].
    unfold existsText. destruct src; cbn [sourceName].
    - change (offeredMode (Some param) MATCH_EXISTS MATCH_EQ) with MATCH_EXISTS. rewrite bool_decide_true by done. by rewrite <- !app_assoc.
    - change (offeredMode (Some header) MATCH_EXISTS MATCH_EQ) with MATCH_EXISTS. rewrite bool_decide_true by done. by rewrite <- !app_assoc. }
  rewrite E. destruct (atom_exists src p Hp) as [At Hb].
  assert (R : readable (CPH (mkPH src p MATCH_EXISTS [])) (existsText src p)) by (split; [done | by apply parse_exists]).
  split; [done | by apply readable_wrap].
Qed.

Lemma eq_readable src p v :
  name_ok p -> trimmed p = true -> forallb plain v = true -> trimmed v = true ->
  both_readable (CPH (mkPH src p MATCH_EQ v)).
Proof.
  intros [Hn Hp] Ht Hv Htv. unfold both_readable.
  pose proof (literal_ok v Htv Hv) as HL.
  assert (E : buildRequestConditionExpr (CPH (mkPH src p MATCH_EQ v)) = eqText src p (buildExprLiteral MATCH_EQ v)).
  { unfold buildRequestConditionExpr, normalizePHCondition. cbn [source path mode value].
    assert (Em : offeredMode (Some src) MATCH_EQ MATCH_EQ = MATCH_EQ) by (by destruct src). rewrite Em.
    rewrite trim_trimmed by done. rewrite quote_plain by done. destruct p as [|x p]; [done|]. cbn [truthy negb].
    rewrite (bool_decide_false (MATCH_EQ = MATCH_EXISTS)), (bool_decide_false (MATCH_EQ = MATCH_CONTAINS)) by done.
    rewrite (bool_decide_false (MATCH_EQ ∈ _)) by (vm_compute; set_solver).
    unfold eqText. destruct src; cbn [sourceName]; by rewrite <- !app_assoc. }
  rewrite E. destruct (atom_eq src p (buildExprLiteral MATCH_EQ v) Hp) as [At Hb]; [apply HL..|].
  assert (R : readable (CPH (mkPH src p MATCH_EQ v)) (eqText src p (buildExprLiteral MATCH_EQ v))).
  { split; [done|]. apply parse_eq; [done | done | apply HL..]. }
  split; [done | by apply readable_wrap].
Qed.

Lemma contains_readable p v :
  name_ok p -> trimmed p = true -> forallb plain v = true -> trimmed v = true ->
  both_readable (CPH (mkPH header p MATCH_CONTAINS v)).
Proof.
  intros [Hn Hp] Ht Hv Htv. unfold both_readable.
  assert (E : buildRequestConditionExpr (CPH (mkPH header p MATCH_CONTAINS v)) = containsText p v).
  { unfold buildRequestConditionExpr, normalizePHCondition. cbn [source path mode value].
    change (offeredMode (Some header) MATCH_CONTAINS MATCH_EQ) with MATCH_CONTAINS.
    rewrite (trim_trimmed p) by done. rewrite (quote_plain p) by done. destruct p as [|x p]; [done|]. cbn [truthy negb].
    rewrite (bool_decide_false (MATCH_CONTAINS = MATCH_EXISTS)), (bool_decide_true (MATCH_CONTAINS = MATCH_CONTAINS)) by done.
    unfold buildExprLiteral. rewrite trim_trimmed, (bool_decide_true (MATCH_CONTAINS = MATCH_CONTAINS)), quote_plain by done.
    unfold containsText. by rewrite <- !app_assoc. }
  rewrite E. destruct (atom_contains p v Hp Hv) as [At Hb].
  assert (R : readable (CPH (mkPH header p MATCH_CONTAINS v)) (containsText p v)) by (split; [done | by apply parse_contains]).
  split; [done | by apply readable_wrap].
Qed.

Lemma cond_readable c : cond_ok c -> both_readable c.
Proof.
  destruct 1; [by apply range_readable | by apply time_readable | by apply exists_readable | by apply eq_readable | by apply contains_readable].
Qed.

(** ** Lemmas: factors *)
Definition factorText (w m : jsstr) : jsstr := js "(" ++ w ++ js " ? " ++ m ++ js " : 1)".

Definition factorTail : regex := RSeq (rlit (js " ? ")) (RSeq (RGroup 2 rnum) (RSeq (rlit (js " : 1)")) (REnd false))).

Lemma factor_tail_only {A} st (k : rstate -> option A) x :
  rmatch factorTail st k = Some x -> exists m, Forall (fun c => num_char c = true) m /\ rest st = js " ? " ++ m ++ js " : 1)".
Proof.
  unfold factorTail. rewrite rmatch_seq, rmatch_lit. destruct (strip_prefix (js " ? ") (rest st)) as [t|] eqn:E; [|done].
  apply strip_prefix_Some in E. rewrite rmatch_seq. intros H.
  apply (rmatch_consumes (fun c => num_char c = true)) in H as (m & st1 & E1 & F & H); [|by cbn].
  cbn [rest after] in E1. rewrite rmatch_seq, rmatch_lit in H. destruct (strip_prefix (js " : 1)") (rest st1)) as [u|] eqn:E2; [|done].
  apply strip_prefix_Some in E2. destruct u as [|c u]; [|by rewrite rmatch_end_none in H].
  exists m. split; [done|]. by rewrite E, E1, E2, app_nil_r.
Qed.

Lemma num_run_inj (a b x y : jsstr) :
  Forall (fun c => num_char c = true) a -> Forall (fun c => num_char c = true) b ->
  a ++ 32 :: x = b ++ 32 :: y -> a = b /\ x = y.
Proof.
  intros Ha. revert b. induction Ha as [|c a Hc _ IH]; intros b Hb E.
  - destruct Hb as [|d b Hd _]; [by simplify_eq|]. injection E as <- _. done.
  - destruct Hb as [|d b Hd Hb]; injection E as -> E; [done|]. destruct (IH b Hb E) as [-> ->]. done.
Qed.

Lemma factor_unique v w m m' :
  Forall (fun c => num_char c = true) m -> Forall (fun c => num_char c = true) m' ->
  v ++ js " ? " ++ m' ++ js " : 1)" = w ++ js " ? " ++ m ++ js " : 1)" -> v = w.
Proof.
  intros Hm Hm' E. rewrite !app_assoc in E. apply app_inv_tail in E. rewrite <- !app_assoc in E.
  apply (f_equal (@rev Z)) in E. rewrite !rev_app_distr in E. rewrite <- !app_assoc in E.
  change (rev (js " ? ")) with [32; 63; 32] in E. cbn [app] in E.
  apply num_run_inj in E as [_ E]; [|by apply Forall_rev | by apply Forall_rev].
  injection E as E. apply (f_equal (@rev Z)) in E. by rewrite !rev_involutive in E.
Qed.

Lemma factor_match w m :
  w <> [] -> is_numeric_literal m = true -> match_at_start factor_re (factorText w m) = Some [(1%nat, w); (2%nat, m)].
Proof.
  intros Hw Hm. destruct w as [|c w]; [done|]. pose proof (numeric_chars m Hm) as [_ Hmc].
  assert (HmF : Forall (fun c => num_char c = true) m).
  { rewrite Forall_forall. intros x Hx%list_elem_of_In. rewrite forallb_forall in Hmc. auto. }
  unfold match_at_start, factor_re, factorText. cbn [rseq]. rewrite rmatch_seq, rmatch_start.
  erewrite (step_lit (js "(")); [|reflexivity]. rewrite rmatch_seq, rmatch_group. unfold rplus. rewrite rmatch_seq.
  set (tl := js " ? " ++ m ++ js " : 1)"). set (k0 := fun st : rstate => Some (caps st)).
  fold factorTail. unfold rany at 1. erewrite (rmatch_char _ c (w ++ tl)); [|reflexivity | reflexivity].
  apply (rmatch_star_unique (fun _ => true) w tl).
  - reflexivity.
  - rewrite forallb_forall. done.
  - cbn [after rest prev caps]. change (c :: w ++ tl) with ((c :: w) ++ tl). rewrite group_text.
    unfold factorTail, tl. erewrite (step_lit (js " ? ")); [|reflexivity].
    erewrite (step_num 2 m); [|cbn [rest after]; reflexivity | done | done |].
    2: { intros st' H. by apply (lit_refuses num_char 32 (js ": 1)")). }
    erewrite (step_lit (js " : 1)") []); [|done]. by rewrite rmatch_end.
  - intros v u Hv Hne. cbn [after rest prev caps].
    match goal with |- ?x = None => destruct x eqn:E end; [|done]. exfalso.
    apply factor_tail_only in E as (m' & Hm' & E). cbn [rest] in E. subst u. apply Hne. exact (factor_unique v w m m' HmF Hm' Hv).
Qed.

Lemma parseAll_Ret {A} (f : jsstr -> exc (option A)) ps xs :
  Forall2 (fun p x => f p = Ret (Some x)) ps xs -> parseAll f ps = Ret (Some xs).
Proof. induction 1 as [|p x ps xs H _ IH]; [done|]. cbn. rewrite H. cbn. by rewrite IH. Qed.

Lemma filter_truthy es : Forall (fun e => e <> []) es -> List.filter truthy es = es.
Proof. induction 1 as [|e es H _ IH]; [done|]. cbn. rewrite IH. by destruct e. Qed.

(** A conjunction of readable conditions. *)
Lemma parse_conjunction cs es :
  es <> [] -> Forall2 (fun e c => readable c e) es cs ->
  parseAll (fun ap => tryParseRequestCondition (trim ap)) (splitTopLevelAnd (join (js " && ") es)) = Ret (Some cs)
  /\ walk (join (js " && ") es) 0 = Some 0 /\ join (js " && ") es <> [].
Proof.
  intros Hne H.
  assert (Ha : Forall atom es) by (clear Hne; induction H as [|e c es cs [Ha _] _ IH]; by constructor).
  split_and!.
  - unfold splitTopLevelAnd. change (js " && ") with (32 :: js "&& "). rewrite split_join_top; [|done|].
    + rewrite filter_truthy.
      * apply parseAll_Ret. clear Hne Ha. induction H as [|e c es cs [Ha Hp] _ IH]; constructor; [|done].
        by rewrite trim_trimmed by apply Ha.
      * eapply Forall_impl; [exact Ha|]. intros e He. apply He.
    + eapply Forall_impl; [exact Ha|]. intros e [[Hp _] Ht _]. done.
  - clear H. induction Ha as [|e es [[_ W] _ _] Ha IH]; [done|]. destruct es as [|e' es]; [done|].
    change (join (js " && ") (e :: e' :: es)) with (e ++ js " && " ++ join (js " && ") (e' :: es)).
    rewrite walk_app, W. cbn [mbind option_bind]. rewrite walk_app. change (walk (js " && ") 0) with (Some 0). by apply IH.
  - destruct Ha as [|e es [_ _ He] Ha]; [done|]. destruct es as [|e' es]; [done|].
    change (join (js " && ") (e :: e' :: es)) with (e ++ js " && " ++ join (js " && ") (e' :: es)). by destruct e.
Qed.

(** The factor of a group: its text and its reading. *)
Lemma group_factor g :
  group_ok g -> exists inner, buildRuleGroupFactor g = js "(" ++ inner ++ js ")" /\ walk inner 0 = Some 0 /\
    tryParseRuleGroupFactor (buildRuleGroupFactor g) = Ret (Some g).
Proof.
  intros (Hne & Hc & Hm). destruct g as [cs m]. cbn [gconditions multiplier] in *.
  unfold buildRuleGroupFactor. cbn [gconditions multiplier]. rewrite numeric_trim, Hm by done. cbn [negb].
  assert (Hr : Forall (fun c => readable c (buildRequestConditionExpr c) /\ readable c (wrap (buildRequestConditionExpr c))) cs).
  { eapply Forall_impl; [exact Hc|]. apply cond_readable. }
  rewrite filter_truthy.
  2: { apply Forall_map. eapply Forall_impl; [exact Hr|]. intros c [R _]. apply R. }
  set (es := map buildRequestConditionExpr cs).
  set (parts := match es with [e] => [e] | _ => map wrap es end).
  set (combined := match es with [e] => e | _ => join (js " && ") (map (fun e => if includes (js " || ") e then js "(" ++ e ++ js ")" else e) es) end).
  assert (Ec : combined = join (js " && ") parts) by (unfold combined, parts; by destruct es as [|e [|e' es']]).
  assert (F2 : Forall2 (fun e c => readable c e) parts cs).
  { assert (Fw : Forall2 (fun e c => readable c e) (map wrap es) cs).
    { unfold es. clear - Hr. induction Hr as [|c cs [_ R] _ IH]; cbn; by constructor. }
    unfold parts, es in *. destruct Hr as [|c cs' [R1 R2] Hr]; [done|]. destruct cs' as [|c' cs'']; [apply Forall2_cons; split; [exact R1 | constructor] | exact Fw]. }
  assert (Hp : parts <> []) by (unfold parts, es; by destruct cs as [|? [|? ?]]).
  destruct (parse_conjunction cs parts Hp F2) as (P & W & N). rewrite <- Ec in P, W, N.
  assert (Ef : match es with [] => [] | _ => js "(" ++ combined ++ js " ? " ++ m ++ js " : 1)" end = factorText combined m).
  { unfold es. by destruct cs. }
  fold combined. rewrite Ef. exists (combined ++ js " ? " ++ m ++ js " : 1"). split_and!.
  - unfold factorText. by rewrite <- !app_assoc.
  - rewrite walk_app, W. cbn [mbind option_bind]. rewrite walk_app. change (walk (js " ? ") 0) with (Some 0). cbn [mbind option_bind].
    destruct (numeric_text m Hm) as (C & _). unfold clean in C. apply andb_prop in C as [C _].
    by rewrite walk_app, walk_noparen.
  - unfold tryParseRuleGroupFactor. rewrite factor_match by done.
    change (cap 1 [(1%nat, combined); (2%nat, m)]) with combined. change (cap 2 [(1%nat, combined); (2%nat, m)]) with m.
    rewrite P. cbn. by destruct cs.
Qed.

(** ** Lemmas: products of factors *)
Definition parens (s : jsstr) : jsstr := js "(" ++ s ++ js ")".

(** A factor the splitter keeps whole. *)
Definition factorish (f : jsstr) : Prop := exists inner, f = parens inner /\ walk inner 0 = Some 0.

Lemma factorish_ends f : factorish f -> starts_ok f = true /\ ends_ok f = true.
Proof. intros (i & -> & _). split; [done | by do 2 apply ends_ok_app]. Qed.

Lemma factorish_passes f : factorish f -> passes (js "* ") f /\ trimmed f = true.
Proof.
  intros H. split; [|by destruct (factorish_ends f H); apply trimmed_ends].
  destruct H as (i & -> & W). intros t acc. unfold parens. rewrite <- !app_assoc. by apply splitTop_paren.
Qed.

Lemma factorish_nonempty f : factorish f -> f <> [].
Proof. by intros (i & -> & _). Qed.

Lemma product_ends fs :
  fs <> [] -> Forall factorish fs -> starts_ok (join (js " * ") fs) = true /\ ends_ok (join (js " * ") fs) = true.
Proof.
  intros Hne H. induction H as [|f fs Hf Hfs IH]; [done|]. destruct fs as [|f' fs]; [by apply factorish_ends|].
  change (join (js " * ") (f :: f' :: fs)) with (f ++ js " * " ++ join (js " * ") (f' :: fs)).
  destruct (IH ltac:(done)) as [_ E]. destruct (factorish_ends f Hf) as [S _].
  split; [by apply starts_ok_app | by do 2 apply ends_ok_app].
Qed.

Lemma product_trimmed fs : fs <> [] -> Forall factorish fs -> trimmed (join (js " * ") fs) = true /\ truthy (join (js " * ") fs) = true.
Proof.
  intros Hne H. destruct (product_ends fs Hne H) as [S E]. split; [by apply trimmed_ends|]. by destruct (join _ fs).
Qed.

Lemma product_split fs : fs <> [] -> Forall factorish fs -> splitTopLevelMultiply (join (js " * ") fs) = fs.
Proof.
  intros Hne H. unfold splitTopLevelMultiply. change (js " * ") with (32 :: js "* "). rewrite split_join_top; [|done|].
  - apply filter_truthy. eapply Forall_impl; [exact H | apply factorish_nonempty].
  - eapply Forall_impl; [exact H | apply factorish_passes].
Qed.

(** The parser on a product reads each factor. *)
Lemma product_parse fs :
  fs <> [] -> Forall factorish fs -> tryParseRequestRuleExpr (join (js " * ") fs) = parseAll tryParseRuleGroupFactor fs.
Proof.
  intros Hne H. destruct (product_trimmed fs Hne H) as [T Tr]. unfold tryParseRequestRuleExpr.
  rewrite trim_trimmed, Tr by done. cbn [negb]. by rewrite product_split.
Qed.

Lemma factor_parse f : factorish f -> tryParseRequestRuleExpr f = parseAll tryParseRuleGroupFactor [f].
Proof. intros H. apply (product_parse [f]); [done | by constructor]. Qed.

(** The factors of a list of groups. *)
Lemma groups_factors gs :
  Forall group_ok gs ->
  let fs := map buildRuleGroupFactor gs in
  buildRequestRuleExpr gs = join (js " * ") fs /\ Forall factorish fs /\
  Forall2 (fun f g => tryParseRuleGroupFactor f = Ret (Some g)) fs gs.
Proof.
  intros H. cbv zeta.
  assert (Hf : Forall factorish (map buildRuleGroupFactor gs)).
  { apply Forall_map. eapply Forall_impl; [exact H|]. intros g (i & E & W & _)%group_factor. by exists i. }
  split_and!; [|done|].
  - unfold buildRequestRuleExpr. rewrite filter_truthy; [done|]. eapply Forall_impl; [exact Hf | apply factorish_nonempty].
  - clear Hf. induction H as [|g gs Hg _ IH]; cbn; constructor; [|done]. by destruct (group_factor g Hg) as (i & _ & _ & E).
Qed.

Lemma partition_rules fs gs :
  Forall factorish fs -> Forall2 (fun f g => tryParseRuleGroupFactor f = Ret (Some g)) fs gs -> partitionParts fs = Ret (fs, []).
Proof.
  intros Hf H. induction H as [|f g fs gs Hg _ IH]; [done|]. inversion Hf; subst. cbn [partitionParts].
  rewrite factor_parse by done. cbn [parseAll]. rewrite Hg. cbn. by rewrite IH.
Qed.

(** Parentheses that enclose a balanced text are its outer pair. *)
Lemma outerScan_walk s d : 0 <= d -> walk s d = Some 0 -> outerScan (s ++ js ")") (d + 1) = true.
Proof.
  revert d. induction s as [|c s IH]; intros d Hd W; [by injection W as ->|].
  cbn [app outerScan]. cbn [walk] in W.
  assert (E : (if c =? 41 then (if c =? 40 then d + 1 + 1 else d + 1) - 1 else if c =? 40 then d + 1 + 1 else d + 1)
              = (if c =? 41 then (if c =? 40 then d + 1 else d) - 1 else if c =? 40 then d + 1 else d) + 1).
  { destruct (c =? 40), (c =? 41); lia. }
  rewrite E. clear E. revert W. generalize (if c =? 41 then (if c =? 40 then d + 1 else d) - 1 else if c =? 40 then d + 1 else d).
  intros d'. destruct (Z.ltb_spec d' 0); [done|]. intros W.
  rewrite (proj2 (Z.eqb_neq (d' + 1) 0)) by lia. by apply IH.
Qed.

Lemma parens_outer s : walk s 0 = Some 0 -> hasFullOuterParens (parens s) = true.
Proof.
  intros W. unfold hasFullOuterParens.
  assert (E : ends_with (js ")") (parens s) = true) by (unfold parens; rewrite app_assoc; unfold ends_with; by rewrite rev_app_distr).
  rewrite E. change (starts_with (js "(") (parens s)) with true. cbn [negb orb].
  unfold parens. change (js "(" ++ s ++ js ")") with (40 :: (s ++ js ")")). cbn [outerScan].
  exact (outerScan_walk s 0 ltac:(lia) W).
Qed.

Lemma slice_parens s : slice_1_m1 (parens s) = s.
Proof.
  unfold slice_1_m1, parens. rewrite app_assoc, length_app. replace (length (js "(" ++ s) + length (js ")") - 1)%nat with (length (js "(" ++ s)).
  - by rewrite take_app_length.
  - change (length (js ")")) with 1%nat. lia.
Qed.

Lemma parse_built_rules gs : Forall group_ok gs -> tryParseRequestRuleExpr (buildRequestRuleExpr gs) = Ret (Some gs).
Proof.
  intros H. destruct (groups_factors gs H) as (-> & Hf & H2). destruct gs as [|g gs]; [done|].
  rewrite product_parse by done. by apply parseAll_Ret.
Qed.

(** ** Properties *)

(** C19.  Request rules survive the editor: for every list of groups whose names
    and values use no character of the expression syntax, whose numbers are
    numeric literals, and whose conditions are of the kinds listed in [cond_ok]
    (times and overnight ranges, existence, equality, and a header that contains
    a text), parsing the built expression gives back the same groups. *)
Theorem request_rules_roundtrip gs :
  Forall group_ok gs -> tryParseRequestRuleExpr (buildRequestRuleExpr gs) = Ret (Some gs).
Proof. apply parse_built_rules. Qed.

(** Example groups: a night range with a header, and a parameter. *)
Definition night_groups : list RequestRuleGroup :=
  [mkGroup [CTime (mkTime (js "hour") (js "Asia/Shanghai") MATCH_RANGE [] (js "21") (js "6"));
            CPH (mkPH header (js "x-batch") MATCH_EXISTS [])] (js "0.5");
   mkGroup [CPH (mkPH param (js "service_tier") MATCH_EQ (js "fast"))] (js "2")].

Lemma name_ok_b s : truthy s && forallb plain s = true -> name_ok s.
Proof. destruct s as [|c s]; [done|]. by split. Qed.

Lemma night_groups_ok : Forall group_ok night_groups.
Proof.
  apply Forall_cons_2; [|apply Forall_cons_2; [|apply Forall_nil_2]].
  - split; [discriminate|]. split; [|vm_compute; reflexivity].
    apply Forall_cons_2; [|apply Forall_cons_2; [|apply Forall_nil_2]].
    + apply ok_range; [apply list_elem_of_here | apply name_ok_b | |]; vm_compute; reflexivity.
    + apply ok_exists; [apply name_ok_b|]; vm_compute; reflexivity.
  - split; [discriminate|]. split; [|vm_compute; reflexivity].
    apply Forall_cons_2; [|apply Forall_nil_2]. apply ok_eq; [apply name_ok_b | | |]; vm_compute; reflexivity.
Qed.

Lemma request_rules_roundtrip_witness :
  Forall group_ok night_groups /\ tryParseRequestRuleExpr (buildRequestRuleExpr night_groups) = Ret (Some night_groups).
Proof. split; [exact night_groups_ok | exact (request_rules_roundtrip night_groups night_groups_ok)]. Defined.

Lemma length_trim s : (length (trim s) <= length s)%nat.
Proof.
  assert (L : forall x, (length (trim_start x) <= length x)%nat).
  { unfold trim_start. induction x as [|c x IH]; [done|]. cbn [drop_while]. destruct (is_ws c); cbn [length] in *; lia. }
  unfold trim, trim_end. rewrite length_rev. etransitivity; [apply L|]. rewrite length_rev. apply L.
Qed.

Lemma length_slice s : (length (slice_1_m1 s) = length s - 2)%nat.
Proof. unfold slice_1_m1. rewrite length_drop, length_take. lia. Qed.

Lemma outer_length s : hasFullOuterParens s = true -> (1 <= length s)%nat.
Proof. destruct s; [done|]. intros _. cbn. lia. Qed.

(** More fuel than characters changes nothing. *)
Lemma unwrap_fuel n m s : (length s <= n)%nat -> (length s <= m)%nat -> unwrapLoop n s = unwrapLoop m s.
Proof.
  revert m s. induction n as [|n IH]; intros m s Hn Hm.
  - destruct s; [|cbn in Hn; lia]. destruct m; [done|]. reflexivity.
  - destruct m as [|m]; [destruct s; [reflexivity | cbn in Hm; lia]|]. cbn [unwrapLoop]. destruct (hasFullOuterParens s) eqn:E; [|done].
    pose proof (outer_length s E). pose proof (length_trim (slice_1_m1 s)) as L. rewrite length_slice in L. apply IH; lia.
Qed.

(** A pair of parentheses around a text is removed with those of the text. *)
Lemma unwrap_parens_any s : walk s 0 = Some 0 -> trimmed s = true -> unwrapOuterParens (parens s) = unwrapOuterParens s.
Proof.
  intros W T. unfold unwrapOuterParens.
  assert (Hf : factorish (parens s)) by (by exists s). rewrite trim_trimmed by (by apply factorish_passes).
  assert (L : length (parens s) = S (S (length s))).
  { unfold parens. rewrite !length_app. change (length (js "(")) with 1%nat. change (length (js ")")) with 1%nat. lia. }
  rewrite L. cbn [unwrapLoop]. rewrite parens_outer, slice_parens, trim_trimmed by done.
  etransitivity; [|apply (unwrap_fuel (S (length s))); lia]. reflexivity.
Qed.

Lemma unwrap_none s : trimmed s = true -> hasFullOuterParens s = false -> unwrapOuterParens s = s.
Proof. intros T N. unfold unwrapOuterParens. rewrite trim_trimmed by done. destruct (length s); [done|]. cbn. by rewrite N. Qed.

(** The parts of a combined text. *)
Lemma split_combined_any base gs :
  trim base <> [] -> walk (trim base) 0 = Some 0 -> tryParseRuleGroupFactor (parens (trim base)) = Ret None -> gs <> [] -> Forall group_ok gs ->
  splitBillingExprAndRequestRules (combineBillingExpr base (buildRequestRuleExpr gs)) = Ret (unwrapOuterParens (trim base), buildRequestRuleExpr gs).
Proof.
  set (b := trim base). intros Hb Wb Pb Hg H. assert (Tb : trimmed b = true) by apply trimmed_trim.
  destruct (groups_factors gs H) as (-> & Hf & H2). set (fs := map buildRuleGroupFactor gs) in *.
  assert (Hne : fs <> []) by (unfold fs; by destruct gs). destruct (product_trimmed fs Hne Hf) as [T Tr].
  assert (Hbf : factorish (parens b)) by (by exists b).
  assert (Ec : combineBillingExpr base (join (js " * ") fs) = join (js " * ") (parens b :: fs)).
  { unfold combineBillingExpr. fold b. rewrite (trim_trimmed (join _ fs)), Tr by done. destruct b; [done|]. cbn [truthy negb].
    unfold parens. destruct fs as [|f fs']; [done|]. cbn [join]. by rewrite <- !app_assoc. }
  rewrite Ec. unfold splitBillingExprAndRequestRules.
  destruct (product_trimmed (parens b :: fs)) as [T2 Tr2]; [done | by constructor|].
  rewrite trim_trimmed, Tr2 by done. cbn [negb]. rewrite product_split; [|done | by constructor].
  destruct fs as [|f fs']; [done|]. cbn [length Nat.leb]. set (fs := f :: fs') in *.
  cbn [partitionParts]. rewrite factor_parse by done. cbn [parseAll]. rewrite Pb. cbn [exc_bind].
  rewrite (partition_rules fs gs) by done. cbn [exc_bind]. unfold fs. by rewrite unwrap_parens_any.
Qed.

Lemma split_combined base gs :
  base <> [] -> trimmed base = true -> walk base 0 = Some 0 -> hasFullOuterParens base = false ->
  tryParseRuleGroupFactor (parens base) = Ret None -> gs <> [] -> Forall group_ok gs ->
  splitBillingExprAndRequestRules (combineBillingExpr base (buildRequestRuleExpr gs)) = Ret (base, buildRequestRuleExpr gs).
Proof.
  intros Hb T W N P Hg H. pose proof (split_combined_any base gs) as E. rewrite (trim_trimmed base T), unwrap_none in E by done. auto.
Qed.


Definition base_price : jsstr := js "tier(" ++ quote_c ++ js "base" ++ quote_c ++ js ", p * 2.5 + c * 15)".


(** The comparisons of a parameter, and the operator the builder writes. *)
Definition compare_modes : list (jsstr * jsstr) :=
  [(MATCH_GT, js ">"); (MATCH_GTE, js ">="); (MATCH_LT, js "<"); (MATCH_LTE, js "<=")].

Definition paramCompareText (p o v : jsstr) : jsstr :=
  js "param" ++ (js "(" ++ quote_c) ++ p ++ quote_c ++ js ") " ++ o ++ js " " ++ v.

Lemma atom_param_compare p o v :
  forallb plain p = true -> o ∈ [js ">"; js ">="; js "<"; js "<="] -> is_numeric_literal v = true -> atom (paramCompareText p o v).
Proof.
  intros Hp Ho (V1 & _ & _ & V3)%numeric_text.
  assert (O1 : clean o = true) by (revert Ho; rewrite !elem_of_cons, elem_of_nil; by intros [-> |[-> |[-> |[-> |[]]]]]).
  assert (E : paramCompareText p o v = js "param" ++ (js "(" ++ (quote_c ++ p ++ quote_c) ++ js ")") ++ (js " " ++ o ++ js " " ++ v))
    by (unfold paramCompareText; by rewrite <- !app_assoc).
  rewrite E. apply atom_of; [|done | by do 5 apply ends_ok_app]. apply seg_app; [by apply seg_run | apply seg_app].
  - apply seg_paren. by apply walk_quoted.
  - apply seg_run; [by rewrite !clean_app, O1, V1 | by do 3 apply ends_ok_app].
Qed.

Lemma compare_mode_facts m o :
  (m, o) ∈ compare_modes -> o ∈ [js ">"; js ">="; js "<"; js "<="] /\ m ∈ map fst (getRequestRuleMatchOptions (Some param)).
Proof.
  unfold compare_modes. rewrite !elem_of_cons, elem_of_nil. cbn [getRequestRuleMatchOptions map fst app].
  intros [[= -> ->]|[[= -> ->]|[[= -> ->]|[[= -> ->]|[]]]]]; rewrite !elem_of_cons; tauto.
Qed.

Lemma build_param_compare p m o v :
  name_ok p -> trimmed p = true -> (m, o) ∈ compare_modes -> is_numeric_literal v = true ->
  buildRequestConditionExpr (CPH (mkPH param p m v)) = join (js " && ") [existsText param p; paramCompareText p o v].
Proof.
  intros [Hn Hp] Ht Hm Hv. unfold buildRequestConditionExpr, normalizePHCondition. cbn [source path mode value].
  rewrite (trim_trimmed p), (quote_plain p), (numeric_trim v), Hv by done. destruct p as [|x p]; [done|]. cbn [truthy negb].
  unfold existsText, paramCompareText. cbn [sourceName join]. set (w := x :: p). clearbody w.
  unfold compare_modes in Hm. rewrite !elem_of_cons, elem_of_nil in Hm.
  destruct Hm as [[= -> ->]|[[= -> ->]|[[= -> ->]|[[= -> ->]|[]]]]]; rewrite <- !app_assoc; reflexivity.
Qed.

(** A rule that compares a request parameter with a number is never read
    back: the editor offers the comparison and writes it with a nil check joined
    by an and, which the reader of a group takes for two conditions, the second of
    which it does not know, so that the whole rule expression is refused. *)
Theorem compare_rule_lost p m o v mult :
  name_ok p -> trimmed p = true -> (m, o) ∈ compare_modes -> is_numeric_literal v = true -> is_numeric_literal mult = true ->
  let group := mkGroup [CPH (mkPH param p m v)] mult in
  m ∈ map fst (getRequestRuleMatchOptions (Some param)) /\
  buildRequestRuleExpr [group] <> [] /\ tryParseRequestRuleExpr (buildRequestRuleExpr [group]) = Ret None.
Proof.
  intros Hn Ht Hm Hv Hk group. set (parts := [existsText param p; paramCompareText p o v]).
  destruct (compare_mode_facts m o Hm) as [Ho Hoff].
  assert (Ha : Forall atom parts).
  { apply Forall_cons_2; [by apply atom_exists, Hn | apply Forall_cons_2; [by apply atom_param_compare; [apply Hn|..] | apply Forall_nil_2]]. }
  assert (Ef : buildRuleGroupFactor group = factorText (join (js " && ") parts) mult).
  { unfold buildRuleGroupFactor, group. cbn [gconditions multiplier map]. rewrite (numeric_trim mult), Hk by done. cbn [negb].
    rewrite (build_param_compare p m o v) by done. reflexivity. }
  assert (Hw : walk (join (js " && ") parts) 0 = Some 0).
  { unfold parts. cbn [join]. rewrite !walk_app. inversion Ha as [|? ? [[_ W1] _ _] Ha']; subst. inversion Ha' as [|? ? [[_ W2] _ _] _]; subst.
    rewrite W1. cbn [mbind option_bind]. change (walk (js " && ") 0) with (Some 0). exact W2. }
  assert (Hf : factorish (factorText (join (js " && ") parts) mult)).
  { exists (join (js " && ") parts ++ js " ? " ++ mult ++ js " : 1"). split; [unfold factorText, parens; by rewrite <- !app_assoc|].
    rewrite walk_app, Hw. cbn [mbind option_bind]. rewrite walk_app. change (walk (js " ? ") 0) with (Some 0). cbn [mbind option_bind].
    destruct (numeric_text mult Hk) as (C & _). unfold clean in C. apply andb_prop in C as [C _]. by rewrite walk_app, walk_noparen. }
  assert (Eb : buildRequestRuleExpr [group] = factorText (join (js " && ") parts) mult).
  { unfold buildRequestRuleExpr. cbn [map]. rewrite Ef, filter_truthy; [done|]. apply Forall_cons_2; [by apply factorish_nonempty | done]. }
  rewrite Eb. split_and!.
  - done.
  - by apply factorish_nonempty.
  - rewrite factor_parse by done. cbn [parseAll]. unfold tryParseRuleGroupFactor. rewrite factor_match by done.
    change (cap 1 _) with (join (js " && ") parts). unfold splitTopLevelAnd. change (js " && ") with (32 :: js "&& ").
    rewrite split_join_top; [|done|]. 2: { eapply Forall_impl; [exact Ha|]. intros e [[Hp _] T _]. done. }
    rewrite filter_truthy by (eapply Forall_impl; [exact Ha|]; intros e He; apply He). unfold parts. cbn [parseAll].
    rewrite !trim_trimmed by (inversion Ha as [|? ? A1 Ha']; inversion Ha' as [|? ? A2 ?]; apply A1 || apply A2).
    rewrite parse_exists by apply Hn. cbn [exc_bind]. unfold paramCompareText. by rewrite compare_unread by (done || apply Hn).
Qed.

Lemma compare_rule_lost_witness :
  tryParseRequestRuleExpr (buildRequestRuleExpr [mkGroup [CPH (mkPH param (js "max_tokens") MATCH_GT (js "1000"))] (js "2")]) = Ret None.
Proof.
  refine (proj2 (proj2 (compare_rule_lost (js "max_tokens") MATCH_GT (js ">") (js "1000") (js "2") _ _ _ _ _)));
    [apply name_ok_b; vm_compute; reflexivity | vm_compute; reflexivity | apply list_elem_of_here | vm_compute; reflexivity..].
Defined.

End BillingExpr.
