(* ===== verification/ModelSquare.v ===== *)
(** * The model square

    The public list of models with their prices: the filters and orders of
    [features/pricing/lib/filters.ts], the state of [hooks/use-filters.ts], the
    group ratios of [lib/model-helpers.ts], the prices of [lib/price.ts] and the
    summary of tiered prices of [lib/dynamic-price.ts].  [toLowerCase],
    [localeCompare] and the formatter of the browser are parameters. *)
From S2P Require Import Prelude JsString JsNumber JsNumberOrder JsNumberRound Json JsObject JsRegex Currency BillingExpr.
Local Open Scope Z_scope.

Module ModelSquare.
Import Currency.

(** ** Models *)
Record PricingModel := mkPricing {
  model_name : option jsstr; description : option jsstr; vendor_name : option jsstr; quota_type : num; model_ratio : num; completion_ratio : num;
  model_price : option num; cache_ratio : option num; create_cache_ratio : option num; image_ratio : option num; audio_ratio : option num;
  audio_completion_ratio : option num; enable_groups : option (list jsstr); tags : option jsstr; supported_endpoint_types : option (list jsstr);
  group_ratio : option (list (jsstr * json)); billing_mode : option jsstr; billing_expr : option jsstr }.

Definition FILTER_ALL : jsstr := js "all".
Definition SORT_NAME : jsstr := js "name".
Definition SORT_PRICE_LOW : jsstr := js "price-low".
Definition SORT_PRICE_HIGH : jsstr := js "price-high".
Definition TOKEN_TYPE : num := num_zero.
Definition REQUEST_TYPE : num := num_of_Z 1.

Definition truthy_text (s : option jsstr) : option jsstr := match s with Some (_ :: _) => s | _ => None end.

(** The state of the filters: the properties of an object. *)
Abbreviation FilterState := members.

Section Filters.
Context (toLowerCase : jsstr -> jsstr) (localeCompare : jsstr -> jsstr -> Z).

(** [s?.toLowerCase().includes(q)] *)
Definition field_matches (q : jsstr) (s : option jsstr) : bool := match s with Some t => includes q (toLowerCase t) | None => false end.

Definition filterBySearch (models : list PricingModel) (query : jsstr) : list PricingModel :=
  match query with
  | [] => models
  | _ => let q := toLowerCase query in
         List.filter (fun m => field_matches q (model_name m) || field_matches q (description m) || field_matches q (tags m) || field_matches q (vendor_name m)) models
  end.

Definition filterByVendor (models : list PricingModel) (vendor : jsstr) : list PricingModel :=
  if bool_decide (vendor = FILTER_ALL) then models else List.filter (fun m => bool_decide (vendor_name m = Some vendor)) models.

(** [l?.includes(x)] *)
Definition has (l : option (list jsstr)) (x : jsstr) : bool := match l with Some l => bool_decide (x ∈ l) | None => false end.

Definition filterByGroup (models : list PricingModel) (group : jsstr) : list PricingModel :=
  if bool_decide (group = FILTER_ALL) then models else List.filter (fun m => has (enable_groups m) group) models.

Definition filterByQuotaType (models : list PricingModel) (quotaType : jsstr) : list PricingModel :=
  if bool_decide (quotaType = js "all") then models
  else let targetType := if bool_decide (quotaType = js "token") then TOKEN_TYPE else REQUEST_TYPE in
       List.filter (fun m => num_eqb (quota_type m) targetType) models.

Definition filterByEndpointType (models : list PricingModel) (endpointType : jsstr) : list PricingModel :=
  if bool_decide (endpointType = js "all") then models else List.filter (fun m => has (supported_endpoint_types m) endpointType) models.

(** [tagsString.split(/[,;|\s]+/)], trimmed, without the empty ones. *)
Definition is_separator (c : Z) : bool := (c =? 44) || (c =? 59) || (c =? 124) || is_ws c.

Definition parseTags (tagsString : option jsstr) : list jsstr :=
  match truthy_text tagsString with
  | Some s => base.filter (fun t => t <> []) (map trim (BillingExpr.regex_split (rplus (RChar is_separator)) s))
  | None => []
  end.

Definition model_tags (m : PricingModel) : list jsstr := map toLowerCase (parseTags (tags m)).

Definition extractAllTags (models : list PricingModel) : list jsstr := js_sort localeCompare (set_of_list (flat_map model_tags models)).

Definition filterByTag (models : list PricingModel) (tag : jsstr) : list PricingModel :=
  if bool_decide (tag = FILTER_ALL) then models else List.filter (fun m => bool_decide (toLowerCase tag ∈ model_tags m)) models.

Definition getModelPrice (m : PricingModel) : num :=
  if num_eqb (quota_type m) num_zero then model_ratio m else match model_price m with Some p => if num_truthy p then p else num_zero | None => num_zero end.

(** The sign of what a comparator returns. *)
Definition price_cmp (a b : PricingModel) : Z := num_sign (num_sub (getModelPrice a) (getModelPrice b)).
Definition name_cmp (a b : PricingModel) : Z := localeCompare (default [] (model_name a)) (default [] (model_name b)).

Definition sortModels (models : list PricingModel) (sortBy : jsstr) : list PricingModel :=
  if bool_decide (sortBy = SORT_NAME) then js_sort name_cmp models
  else if bool_decide (sortBy = SORT_PRICE_LOW) then js_sort price_cmp models
  else if bool_decide (sortBy = SORT_PRICE_HIGH) then js_sort (fun a b => price_cmp b a) models
  else models.

Record Filters := mkFilters { f_search : jsstr; f_vendor : jsstr; f_group : jsstr; f_quotaType : jsstr; f_endpointType : jsstr; f_tag : jsstr; f_sortBy : jsstr }.

Definition filterAndSortModels (models : list PricingModel) (f : Filters) : list PricingModel :=
  let result := filterBySearch models (f_search f) in
  let result := filterByVendor result (f_vendor f) in
  let result := filterByGroup result (f_group f) in
  let result := filterByQuotaType result (f_quotaType f) in
  let result := filterByEndpointType result (f_endpointType f) in
  let result := filterByTag result (f_tag f) in
  sortModels result (f_sortBy f).

(** ** The state of the filters

    An object whose absent properties are the ones at their default. *)

(** Whether a property survives the loop that deletes [undefined] and [null]. *)
Definition kept_entry (e : jsstr * json) : bool := match e.2 with JNull => false | _ => true end.

Definition updateFilters (updates : list (jsstr * option json)) (prev : FilterState) : FilterState :=
  List.filter kept_entry (apply_updates updates prev).

(** The property [k] is the text [v]. *)
Definition text_is (k v : jsstr) (s : FilterState) : bool := match map_get k s with Some (JStr t) => bool_decide (t = v) | _ => false end.

Definition text_at (k : jsstr) (d : jsstr) (s : FilterState) : jsstr := match map_get k s with Some (JStr (c :: r)) => c :: r | _ => d end.

Definition searchInput (s : FilterState) : jsstr := text_at (js "search") [] s.
Definition sortBy (s : FilterState) : jsstr := text_at (js "sort") SORT_NAME s.
Definition vendorFilter (s : FilterState) : jsstr := text_at (js "vendor") FILTER_ALL s.
Definition groupFilter (s : FilterState) : jsstr := text_at (js "group") FILTER_ALL s.
Definition quotaTypeFilter (s : FilterState) : jsstr := text_at (js "quotaType") (js "all") s.
Definition endpointTypeFilter (s : FilterState) : jsstr := text_at (js "endpointType") (js "all") s.
Definition tagFilter (s : FilterState) : jsstr := text_at (js "tag") FILTER_ALL s.
Definition tokenUnit (s : FilterState) : jsstr := if text_is (js "tokenUnit") (js "K") s then js "K" else js "M".
Definition viewMode (s : FilterState) : jsstr := if text_is (js "view") (js "table") s then js "table" else js "card".
Definition showRechargePrice (s : FilterState) : bool := match map_get (js "rechargePrice") s with Some (JBool b) => b | _ => false end.

(** [{ [key]: v === d ? undefined : v }] *)
Definition set_text (key d v : jsstr) : FilterState -> FilterState := updateFilters [(key, if bool_decide (v = d) then None else Some (JStr v))].

Definition setSearchInput (v : jsstr) : FilterState -> FilterState := set_text (js "search") [] v.
Definition setSortBy (v : jsstr) : FilterState -> FilterState := set_text (js "sort") SORT_NAME v.
Definition setVendorFilter (v : jsstr) : FilterState -> FilterState := set_text (js "vendor") FILTER_ALL v.
Definition setGroupFilter (v : jsstr) : FilterState -> FilterState := set_text (js "group") FILTER_ALL v.
Definition setQuotaTypeFilter (v : jsstr) : FilterState -> FilterState := set_text (js "quotaType") (js "all") v.
Definition setEndpointTypeFilter (v : jsstr) : FilterState -> FilterState := set_text (js "endpointType") (js "all") v.
Definition setTagFilter (v : jsstr) : FilterState -> FilterState := set_text (js "tag") FILTER_ALL v.
Definition setTokenUnit (v : jsstr) : FilterState -> FilterState := set_text (js "tokenUnit") (js "M") v.
Definition setViewMode (v : jsstr) : FilterState -> FilterState := set_text (js "view") (js "card") v.
Definition setShowRechargePrice (v : bool) : FilterState -> FilterState :=
  updateFilters [(js "rechargePrice", if v then Some (JBool true) else None)].

Definition clearFilters : FilterState -> FilterState :=
  updateFilters [(js "vendor", None); (js "group", None); (js "quotaType", None); (js "endpointType", None); (js "tag", None)].
Definition clearSearch : FilterState -> FilterState := updateFilters [(js "search", None)].

Definition availableTags (models : list PricingModel) : list jsstr := match models with [] => [] | _ => extractAllTags models end.

Definition current_filters (s : FilterState) : Filters :=
  mkFilters (searchInput s) (vendorFilter s) (groupFilter s) (quotaTypeFilter s) (endpointTypeFilter s) (tagFilter s) (sortBy s).

Definition filteredModels (models : list PricingModel) (s : FilterState) : list PricingModel :=
  match models with [] => [] | _ => filterAndSortModels models (current_filters s) end.

Definition active_flags (s : FilterState) : list bool :=
  [negb (bool_decide (vendorFilter s = FILTER_ALL)); negb (bool_decide (groupFilter s = FILTER_ALL)); negb (bool_decide (quotaTypeFilter s = js "all"));
   negb (bool_decide (endpointTypeFilter s = js "all")); negb (bool_decide (tagFilter s = FILTER_ALL))].

Definition hasActiveFilters (s : FilterState) : bool := existsb id (active_flags s).
Definition activeFilterCount (s : FilterState) : nat := sum_list_with (fun b : bool => if b then 1%nat else 0%nat) (active_flags s).
End Filters.

(** ** Group ratios *)
Definition EXCLUDED_GROUPS : list jsstr := [[]; js "auto"].

Definition getAvailableGroups (model : PricingModel) (usableGroup : list jsstr) : list jsstr :=
  List.filter (fun g => bool_decide (g ∈ default [] (enable_groups model))) (List.filter (fun g => negb (bool_decide (g ∈ EXCLUDED_GROUPS))) usableGroup).

(** [groupRatio[group]] when it is a finite number. *)
Definition finite_ratio (groupRatio : list (jsstr * json)) (group : jsstr) : option num :=
  match map_get group groupRatio with Some (JNum r) => if num_is_finite r then Some r else None | _ => None end.

Definition getConfiguredGroupRatio (groupRatio : list (jsstr * json)) (group : jsstr) : num := default (num_of_Z 1) (finite_ratio groupRatio group).

Definition min_ratio (groupRatio : list (jsstr * json)) (acc : num) (group : jsstr) : num :=
  match finite_ratio groupRatio group with Some r => if num_ltb r acc then r else acc | None => acc end.

Definition getDisplayGroupRatio (model : PricingModel) (selectedGroup : option jsstr) : num :=
  let groups := default [] (enable_groups model) in
  let ratios := default [] (group_ratio model) in
  let cheapest :=
    match groups with
    | [] => num_of_Z 1
    | _ => let m := fold_left (min_ratio ratios) groups (num_inf false) in if num_eqb m (num_inf false) then num_of_Z 1 else m
    end in
  match truthy_text selectedGroup with
  | Some g => if negb (bool_decide (g = FILTER_ALL)) && bool_decide (g ∈ groups) then getConfiguredGroupRatio ratios g else cheapest
  | None => cheapest
  end.

Definition isTokenBasedModel (model : PricingModel) : bool := num_eqb (quota_type model) TOKEN_TYPE.

(** ** Prices *)
Inductive PriceType := input | output | cache | create_cache | image | audio_input | audio_output.

(** [hasRatio(v) ? f(Number(v)) : NaN] *)
Definition with_ratio (v : option num) (f : num -> num) : num := match v with Some r => if num_is_finite r then f r else num_nan | None => num_nan end.

Definition calculateTokenPrice (model : PricingModel) (type : PriceType) (ratio : num) : num :=
  let base := num_mul (num_mul (model_ratio model) (num_of_Z 2)) ratio in
  match type with
  | input => base
  | output => num_mul base (completion_ratio model)
  | cache => with_ratio (cache_ratio model) (num_mul base)
  | create_cache => with_ratio (create_cache_ratio model) (num_mul base)
  | image => with_ratio (image_ratio model) (num_mul base)
  | audio_input => with_ratio (audio_ratio model) (num_mul base)
  | audio_output => with_ratio (audio_ratio model) (fun r => with_ratio (audio_completion_ratio model) (fun c => num_mul (num_mul base r) c))
  end.

Definition applyRechargeRate (price : num) (showWithRecharge : bool) (priceRate usdRate : num) : num :=
  if showWithRecharge then num_div (num_mul price priceRate) usdRate else price.

Inductive TokenUnit := UnitM | UnitK.
Definition TOKEN_UNIT_DIVISORS (u : TokenUnit) : num := match u with UnitM => num_of_Z 1 | UnitK => num_of_Z 1000 end.

Section Prices.
Context (format : option jsstr -> bool -> Z -> num -> jsstr) (store : option CurrencyConfig).

Definition TOKEN_FORMAT : FormatOptions := mkFormat 4 6 false num_zero false true.
Definition REQUEST_FORMAT : FormatOptions := mkFormat 4 4 false num_zero false true.

Definition show_token_price (model : PricingModel) (type : PriceType) (unit : TokenUnit) (recharge : bool) (priceRate usdRate ratio : num) : jsstr :=
  if num_eqb (quota_type model) REQUEST_TYPE then js "-"
  else let priceInUSD := applyRechargeRate (calculateTokenPrice model type ratio) recharge priceRate usdRate in
       formatCurrencyFromUSD format store (Some (num_div priceInUSD (TOKEN_UNIT_DIVISORS unit))) TOKEN_FORMAT.

Definition formatPrice (model : PricingModel) (type : PriceType) (unit : TokenUnit) (recharge : bool) (priceRate usdRate : num) (selectedGroup : option jsstr) : jsstr :=
  show_token_price model type unit recharge priceRate usdRate (getDisplayGroupRatio model selectedGroup).

Definition formatGroupPrice (model : PricingModel) (group : jsstr) (type : PriceType) (unit : TokenUnit) (recharge : bool) (priceRate usdRate : num)
    (groupRatio : list (jsstr * json)) : jsstr :=
  show_token_price model type unit recharge priceRate usdRate (getConfiguredGroupRatio groupRatio group).

Definition show_request_price (model : PricingModel) (recharge : bool) (priceRate usdRate ratio : num) : jsstr :=
  if negb (num_eqb (quota_type model) REQUEST_TYPE) then js "-"
  else let price := match model_price model with Some p => if num_truthy p then p else num_zero | None => num_zero end in
       formatCurrencyFromUSD format store (Some (applyRechargeRate (num_mul price ratio) recharge priceRate usdRate)) REQUEST_FORMAT.

Definition formatFixedPrice (model : PricingModel) (group : jsstr) (recharge : bool) (priceRate usdRate : num) (groupRatio : list (jsstr * json)) : jsstr :=
  show_request_price model recharge priceRate usdRate (getConfiguredGroupRatio groupRatio group).

Definition formatRequestPrice (model : PricingModel) (recharge : bool) (priceRate usdRate : num) (selectedGroup : option jsstr) : jsstr :=
  show_request_price model recharge priceRate usdRate (getDisplayGroupRatio model selectedGroup).

(** ** Tiered prices *)
Definition isDynamicPricingModel (model : PricingModel) : bool :=
  bool_decide (billing_mode model = Some (js "tiered_expr")) && match truthy_text (billing_expr model) with Some _ => true | None => false end.

Record DynamicPriceOptions := mkDynamic {
  dp_unit : TokenUnit; dp_recharge : option bool; dp_priceRate : option num; dp_usdRate : option num; dp_groupRatio : option num }.

Definition formatDynamicUnitPrice (value : num) (o : DynamicPriceOptions) : jsstr :=
  let one := default (num_of_Z 1) in
  let priceUSD := num_div (num_mul value (one (dp_groupRatio o))) (TOKEN_UNIT_DIVISORS (dp_unit o)) in
  formatBillingCurrencyFromUSD format store
    (Some (applyRechargeRate priceUSD (default false (dp_recharge o)) (one (dp_priceRate o)) (one (dp_usdRate o)))) TOKEN_FORMAT.

Record DynamicPriceEntry := mkEntry { de_variable : BillingExpr.BillingVar; de_field : jsstr; de_value : num; de_formatted : jsstr }.

Definition price_entry (tier : BillingExpr.ParsedTier) (o : DynamicPriceOptions) (v : BillingExpr.BillingVar) : list DynamicPriceEntry :=
  match BillingExpr.field v with
  | None | Some [] => []
  | Some f => match map_get f (BillingExpr.prices tier) with
              | Some value => if negb (num_is_finite value) || num_leb value num_zero then []
                              else [mkEntry v f value (formatDynamicUnitPrice value o)]
              | None => []
              end
  end.

Definition is_primary (e : DynamicPriceEntry) : bool := bool_decide (de_field e ∈ [js "inputPrice"; js "outputPrice"]).

Definition entry_cmp (a b : DynamicPriceEntry) : Z :=
  if eqb (is_primary a) (is_primary b) then 0 else if is_primary a then -1 else 1.

Definition getDynamicPriceEntries (tier : option BillingExpr.ParsedTier) (o : DynamicPriceOptions) : list DynamicPriceEntry :=
  match tier with
  | None => []
  | Some t => js_sort entry_cmp (flat_map (price_entry t o) BillingExpr.BILLING_PRICING_VARS)
  end.

Definition getDynamicPricingTiers (model : PricingModel) : BillingExpr.exc (list BillingExpr.ParsedTier) :=
  if negb (isDynamicPricingModel model) then BillingExpr.Ret []
  else BillingExpr.exc_bind (BillingExpr.splitBillingExprAndRequestRules (default [] (billing_expr model)))
         (fun '(billingExpr, _) => BillingExpr.Ret (BillingExpr.parseTiersFromExpr billingExpr)).

Definition hasDynamicRequestRules (model : PricingModel) : BillingExpr.exc bool :=
  if negb (isDynamicPricingModel model) then BillingExpr.Ret false
  else BillingExpr.exc_bind (BillingExpr.splitBillingExprAndRequestRules (default [] (billing_expr model)))
         (fun '(_, rules) => BillingExpr.exc_bind (BillingExpr.tryParseRequestRuleExpr rules)
            (fun g => BillingExpr.Ret (match g with Some (_ :: _) => true | _ => false end))).

Record DynamicPricingSummary := mkSummary {
  tiers : list BillingExpr.ParsedTier; tier : option BillingExpr.ParsedTier; tierCount : nat; hasRequestRules : bool; isSpecialExpression : bool;
  rawExpression : jsstr; entries : list DynamicPriceEntry; primaryEntries : list DynamicPriceEntry; secondaryEntries : list DynamicPriceEntry }.

Definition getDynamicPricingSummary (model : PricingModel) (o : DynamicPriceOptions) : BillingExpr.exc (option DynamicPricingSummary) :=
  if negb (isDynamicPricingModel model) then BillingExpr.Ret None
  else BillingExpr.exc_bind (getDynamicPricingTiers model) (fun ts =>
       BillingExpr.exc_bind (hasDynamicRequestRules model) (fun rules =>
         let raw := default [] (billing_expr model) in
         let es := getDynamicPriceEntries (head ts) o in
         BillingExpr.Ret (Some (mkSummary ts (head ts) (length ts) rules
           (negb (bool_decide (trim raw = [])) && bool_decide (ts = [])) raw es
           (List.filter is_primary es) (List.filter (fun e => negb (is_primary e)) es))))).
End Prices.

(** ** What the filters select *)
Section Selection.
Context (toLowerCase : jsstr -> jsstr) (localeCompare : jsstr -> jsstr -> Z).

(** A model is selected when every filter that is not at its default accepts it. *)
Definition matches (f : Filters) (m : PricingModel) : bool :=
  let q := toLowerCase (f_search f) in
  (bool_decide (f_search f = []) || existsb (field_matches toLowerCase q) [model_name m; description m; tags m; vendor_name m])
  && (bool_decide (f_vendor f = FILTER_ALL) || bool_decide (vendor_name m = Some (f_vendor f)))
  && (bool_decide (f_group f = FILTER_ALL) || has (enable_groups m) (f_group f))
  && (bool_decide (f_quotaType f = js "all") || num_eqb (quota_type m) (if bool_decide (f_quotaType f = js "token") then TOKEN_TYPE else REQUEST_TYPE))
  && (bool_decide (f_endpointType f = js "all") || has (supported_endpoint_types m) (f_endpointType f))
  && (bool_decide (f_tag f = FILTER_ALL) || bool_decide (toLowerCase (f_tag f) ∈ model_tags toLowerCase m)).

Lemma filter_and {A} (p q : A -> bool) l : List.filter q (List.filter p l) = List.filter (fun x => p x && q x) l.
Proof. induction l as [|x l IH]; [done|]. cbn. destruct (p x); cbn; [destruct (q x); by rewrite IH | done]. Qed.

Lemma filter_unless {A} (b : bool) (p : A -> bool) l : (if b then l else List.filter p l) = List.filter (fun x => b || p x) l.
Proof. destruct b; [|done]. by induction l as [|x l IH]; cbn; [|f_equal]. Qed.

Lemma filterBySearch_unless models q :
  filterBySearch toLowerCase models q =
  List.filter (fun m => bool_decide (q = []) || existsb (field_matches toLowerCase (toLowerCase q)) [model_name m; description m; tags m; vendor_name m]) models.
Proof.
  rewrite <- filter_unless. destruct q as [|c q]; [by rewrite bool_decide_eq_true_2|]. rewrite bool_decide_eq_false_2 by done.
  apply List.filter_ext. intros m. cbn [existsb]. by rewrite orb_false_r, !orb_assoc.
Qed.

Lemma filter_chain models f :
  filterAndSortModels toLowerCase localeCompare models f = sortModels localeCompare (List.filter (matches f) models) (f_sortBy f).
Proof.
  unfold filterAndSortModels, filterByVendor, filterByGroup, filterByQuotaType, filterByEndpointType, filterByTag.
  rewrite filterBySearch_unless, !filter_unless, !filter_and. f_equal. apply List.filter_ext. intros m. unfold matches. by rewrite !andb_assoc.
Qed.

Lemma filtered_models models s :
  filteredModels toLowerCase localeCompare models s =
  sortModels localeCompare (List.filter (matches (current_filters s)) models) (sortBy s).
Proof.
  destruct models as [|m models]; [|apply (filter_chain (m :: models) (current_filters s))].
  cbn. unfold sortModels. by repeat case_bool_decide.
Qed.

Lemma sortModels_Permutation models k : sortModels localeCompare models k ≡ₚ models.
Proof. unfold sortModels. repeat case_bool_decide; by rewrite ?js_sort_Permutation. Qed.

(** A price that can be compared: a finite double. *)
Definition priced (m : PricingModel) : bool := is_double (getModelPrice m) && num_is_finite (getModelPrice m).

Definition units_cmp (a b : PricingModel) : Z := num_units (getModelPrice a) - num_units (getModelPrice b).

#[export] Instance units_Comparator : Comparator units_cmp.
Proof. split; unfold units_cmp; lia. Qed.
#[export] Instance units_Comparator_flip : Comparator (fun a b => units_cmp b a).
Proof. split; unfold units_cmp; lia. Qed.

Lemma price_cmp_units a b : priced a = true -> priced b = true ->
  (price_cmp a b <= 0 <-> units_cmp a b <= 0) /\ (units_cmp a b <= 0 <-> num_leb (getModelPrice a) (getModelPrice b) = true).
Proof.
  intros [Da Fa]%andb_true_iff [Db Fb]%andb_true_iff. unfold price_cmp, units_cmp. rewrite sub_sign, num_leb_units, Z.leb_le by done.
  pose proof (Z.sgn_spec (num_units (getModelPrice a) - num_units (getModelPrice b))). lia.
Qed.

Lemma sorted_low models : forallb priced models = true ->
  StronglySorted (fun a b => num_leb (getModelPrice a) (getModelPrice b) = true) (js_sort price_cmp models).
Proof.
  intros Hp. assert (Hin : forall x, x ∈ models -> priced x = true) by (intros x Hx; apply (proj1 (List.forallb_forall _ _) Hp), list_elem_of_In, Hx).
  rewrite (js_sort_on price_cmp units_cmp) by (intros x y Hx%Hin Hy%Hin; by apply price_cmp_units).
  eapply sorted_on; [|apply StronglySorted_js_sort, _]. intros x y Hx%elem_of_js_sort%Hin Hy%elem_of_js_sort%Hin. by apply price_cmp_units.
Qed.

Lemma sorted_high models : forallb priced models = true ->
  StronglySorted (fun a b => num_leb (getModelPrice b) (getModelPrice a) = true) (js_sort (fun a b => price_cmp b a) models).
Proof.
  intros Hp. assert (Hin : forall x, x ∈ models -> priced x = true) by (intros x Hx; apply (proj1 (List.forallb_forall _ _) Hp), list_elem_of_In, Hx).
  rewrite (js_sort_on (fun a b => price_cmp b a) (fun a b => units_cmp b a)) by (intros x y Hx%Hin Hy%Hin; by apply price_cmp_units).
  eapply sorted_on; [|apply StronglySorted_js_sort, _]. intros x y Hx%elem_of_js_sort%Hin Hy%elem_of_js_sort%Hin. by apply price_cmp_units.
Qed.

#[export] Instance name_Comparator `{!Comparator localeCompare} : Comparator (name_cmp localeCompare).
Proof. split; unfold name_cmp; intros; [apply cmp_total | by eapply cmp_trans]. Qed.

Lemma forallb_filter {A} (p q : A -> bool) l : forallb p l = true -> forallb p (List.filter q l) = true.
Proof. rewrite !List.forallb_forall. intros H x [Hx _]%List.filter_In. by apply H. Qed.

(** C16.  The list shows exactly the models that every active filter accepts, each as
    often as the server sent it, ordered by name, by rising or by falling price. *)
Theorem square_shows_matches `{!Comparator localeCompare} models s :
  forallb priced models = true ->
  let shown := filteredModels toLowerCase localeCompare models s in
  shown ≡ₚ List.filter (matches (current_filters s)) models /\
  (sortBy s = SORT_NAME -> StronglySorted (fun a b => name_cmp localeCompare a b <= 0) shown) /\
  (sortBy s = SORT_PRICE_LOW -> StronglySorted (fun a b => num_leb (getModelPrice a) (getModelPrice b) = true) shown) /\
  (sortBy s = SORT_PRICE_HIGH -> StronglySorted (fun a b => num_leb (getModelPrice b) (getModelPrice a) = true) shown).
Proof.
  intros Hp. cbn zeta. rewrite filtered_models. split_and!; [apply sortModels_Permutation | intros ->..]; cbn.
  - apply StronglySorted_js_sort, _.
  - apply sorted_low. by apply forallb_filter.
  - apply sorted_high. by apply forallb_filter.
Qed.

(** Every tag the square offers selects at least one model. *)
Lemma offered_tags_select (lower_twice : forall t, toLowerCase (toLowerCase t) = toLowerCase t) models t :
  t ∈ availableTags toLowerCase localeCompare models -> filterByTag toLowerCase models t <> [].
Proof.
  intros Ht. assert (Hm : models <> []) by (by intros ->; apply not_elem_of_nil in Ht).
  assert (Hx : t ∈ set_of_list (flat_map (model_tags toLowerCase) models)) by (by destruct models; [|apply elem_of_js_sort in Ht]).
  apply elem_of_set_of_list, list_elem_of_In, List.in_flat_map in Hx as (m & Hin & Hx). unfold filterByTag. case_bool_decide; [done|].
  intros E. apply (in_nil (a := m)). rewrite <- E. apply List.filter_In. split; [done|]. apply bool_decide_eq_true_2.
  pose proof Hx as (t0 & <- & _)%List.in_map_iff. rewrite lower_twice. by apply list_elem_of_In.
Qed.
End Selection.

(** ** The state of the filters against a record of choices *)
Record Choices := mkChoices {
  c_search : jsstr; c_sort : jsstr; c_vendor : jsstr; c_group : jsstr; c_quotaType : jsstr; c_endpointType : jsstr; c_tag : jsstr;
  c_unit : TokenUnit; c_table : bool; c_recharge : bool }.

Inductive FilterAction :=
  | SetSearchInput (v : jsstr) | SetSortBy (v : jsstr) | SetVendor (v : jsstr) | SetGroup (v : jsstr) | SetQuotaType (v : jsstr)
  | SetEndpointType (v : jsstr) | SetTag (v : jsstr) | SetTokenUnit (u : TokenUnit) | SetViewMode (table : bool) | SetRecharge (v : bool)
  | ClearFilters | ClearSearch.

Definition unit_text (u : TokenUnit) : jsstr := match u with UnitM => js "M" | UnitK => js "K" end.

Definition act (s : FilterState) (a : FilterAction) : FilterState :=
  match a with
  | SetSearchInput v => setSearchInput v s
  | SetSortBy v => setSortBy v s
  | SetVendor v => setVendorFilter v s
  | SetGroup v => setGroupFilter v s
  | SetQuotaType v => setQuotaTypeFilter v s
  | SetEndpointType v => setEndpointTypeFilter v s
  | SetTag v => setTagFilter v s
  | SetTokenUnit u => setTokenUnit (unit_text u) s
  | SetViewMode t => setViewMode (if t then js "table" else js "card") s
  | SetRecharge v => setShowRechargePrice v s
  | ClearFilters => clearFilters s
  | ClearSearch => clearSearch s
  end.

Definition or_text (v d : jsstr) : jsstr := match v with [] => d | _ => v end.

Definition choose (c : Choices) (a : FilterAction) : Choices :=
  match a, c with
  | SetSearchInput v, mkChoices _ so ve gr qt en ta un tb re => mkChoices v so ve gr qt en ta un tb re
  | SetSortBy v, mkChoices se _ ve gr qt en ta un tb re => mkChoices se (or_text v SORT_NAME) ve gr qt en ta un tb re
  | SetVendor v, mkChoices se so _ gr qt en ta un tb re => mkChoices se so (or_text v FILTER_ALL) gr qt en ta un tb re
  | SetGroup v, mkChoices se so ve _ qt en ta un tb re => mkChoices se so ve (or_text v FILTER_ALL) qt en ta un tb re
  | SetQuotaType v, mkChoices se so ve gr _ en ta un tb re => mkChoices se so ve gr (or_text v (js "all")) en ta un tb re
  | SetEndpointType v, mkChoices se so ve gr qt _ ta un tb re => mkChoices se so ve gr qt (or_text v (js "all")) ta un tb re
  | SetTag v, mkChoices se so ve gr qt en _ un tb re => mkChoices se so ve gr qt en (or_text v FILTER_ALL) un tb re
  | SetTokenUnit u, mkChoices se so ve gr qt en ta _ tb re => mkChoices se so ve gr qt en ta u tb re
  | SetViewMode t, mkChoices se so ve gr qt en ta un _ re => mkChoices se so ve gr qt en ta un t re
  | SetRecharge v, mkChoices se so ve gr qt en ta un tb _ => mkChoices se so ve gr qt en ta un tb v
  | ClearFilters, mkChoices se so _ _ _ _ _ un tb re => mkChoices se so FILTER_ALL FILTER_ALL (js "all") (js "all") FILTER_ALL un tb re
  | ClearSearch, mkChoices _ so ve gr qt en ta un tb re => mkChoices [] so ve gr qt en ta un tb re
  end.

Definition choices (s : FilterState) : Choices :=
  mkChoices (searchInput s) (sortBy s) (vendorFilter s) (groupFilter s) (quotaTypeFilter s) (endpointTypeFilter s) (tagFilter s)
    (if bool_decide (tokenUnit s = js "K") then UnitK else UnitM) (bool_decide (viewMode s = js "table")) (showRechargePrice s).

Definition non_null (o : option json) : option json := match o with Some JNull => None | _ => o end.

Lemma get_updateFilters k us s : NoDup (map_keys s) -> NoDup (map_keys us) ->
  map_get k (updateFilters us s) = non_null (match map_get k us with Some o => o | None => map_get k s end).
Proof.
  intros Hs Hu. unfold updateFilters. rewrite get_filter by (by apply keys_apply_updates). rewrite get_apply_updates by done.
  by destruct (match map_get k us with Some o => o | None => map_get k s end) as [[]|].
Qed.

Lemma keys_act s a : NoDup (map_keys s) -> NoDup (map_keys (act s a)).
Proof. intros Hs. destruct a; apply keys_filter, keys_apply_updates, Hs. Qed.

(** The choices read from the lookups of the state. *)
Definition text_of (d : jsstr) (o : option json) : jsstr := match o with Some (JStr (c :: r)) => c :: r | _ => d end.
Definition flag_of (v : jsstr) (o : option json) : bool := match o with Some (JStr t) => bool_decide (t = v) | _ => false end.

Definition choices_of (g : jsstr -> option json) : Choices :=
  mkChoices (text_of [] (g (js "search"))) (text_of SORT_NAME (g (js "sort"))) (text_of FILTER_ALL (g (js "vendor"))) (text_of FILTER_ALL (g (js "group")))
    (text_of (js "all") (g (js "quotaType"))) (text_of (js "all") (g (js "endpointType"))) (text_of FILTER_ALL (g (js "tag")))
    (if flag_of (js "K") (g (js "tokenUnit")) then UnitK else UnitM) (flag_of (js "table") (g (js "view")))
    (match g (js "rechargePrice") with Some (JBool b) => b | _ => false end).

Lemma choices_lookup s : choices s = choices_of (fun k => map_get k s).
Proof.
  unfold choices, choices_of, searchInput, sortBy, vendorFilter, groupFilter, quotaTypeFilter, endpointTypeFilter, tagFilter, text_at.
  unfold tokenUnit, viewMode, showRechargePrice, text_is. fold (flag_of (js "K") (map_get (js "tokenUnit") s)) (flag_of (js "table") (map_get (js "view") s)).
  f_equal; [by destruct (flag_of (js "K") _) | by destruct (flag_of (js "table") _)].
Qed.

Lemma choices_null g : choices_of (fun k => non_null (g k)) = choices_of g.
Proof. unfold choices_of. by f_equal; match goal with |- context [non_null ?x] => destruct x as [[]|] end. Qed.

Lemma choices_update us s : NoDup (map_keys s) -> NoDup (map_keys us) ->
  choices (updateFilters us s) = choices_of (fun k => match map_get k us with Some o => o | None => map_get k s end).
Proof. intros Hs Hu. rewrite choices_lookup, <- (choices_null (fun k => match map_get k us with Some o => o | None => _ end)). unfold choices_of. by rewrite !get_updateFilters by done. Qed.

(** The property names of a literal are distinct. *)
Ltac keys_differ := match goal with |- NoDup ?l => let k := eval vm_compute in l in change (NoDup k); apply (bool_decide_unpack (NoDup k)); vm_compute; exact I end.

Lemma act_choices s a : NoDup (map_keys s) -> choices (act s a) = choose (choices s) a.
Proof.
  intros Hs. rewrite (choices_lookup s).
  destruct a; cbn [act];
    unfold setSearchInput, setSortBy, setVendorFilter, setGroupFilter, setQuotaTypeFilter, setEndpointTypeFilter, setTagFilter, setTokenUnit, setViewMode,
      setShowRechargePrice, clearFilters, clearSearch, set_text; rewrite choices_update by (exact Hs || keys_differ);
    try match goal with v : jsstr |- context [bool_decide (?v = ?d)] => destruct (decide (v = d)) as [->|?];
      [rewrite (bool_decide_eq_true_2 (d = d)) by done | rewrite (bool_decide_eq_false_2 (v = d)) by done; destruct v as [|c v]] end;
    try match goal with x : bool |- _ => destruct x | x : TokenUnit |- _ => destruct x end.
  all: reflexivity.
Qed.

Lemma acts_choices acts s : NoDup (map_keys s) -> choices (fold_left act acts s) = fold_left choose acts (choices s).
Proof.
  revert s. induction acts as [|a acts IH]; intros s Hs; [done|]. cbn [fold_left]. rewrite IH by (by apply keys_act). by rewrite act_choices.
Qed.

Lemma active_count s : hasActiveFilters s = true <-> (0 < activeFilterCount s)%nat.
Proof.
  unfold hasActiveFilters, activeFilterCount. induction (active_flags s) as [|b l IH]; cbn [existsb sum_list_with]; [split; [done|lia]|].
  destruct b; cbn [orb id]; [split; [lia|done]|]. rewrite IH. lia.
Qed.

Lemma inactive_choices s : hasActiveFilters s = false <->
  c_vendor (choices s) = FILTER_ALL /\ c_group (choices s) = FILTER_ALL /\ c_quotaType (choices s) = js "all" /\
  c_endpointType (choices s) = js "all" /\ c_tag (choices s) = FILTER_ALL.
Proof.
  unfold hasActiveFilters, active_flags. cbn [existsb choices c_vendor c_group c_quotaType c_endpointType c_tag]. unfold id.
  rewrite !orb_false_iff, !negb_false_iff, !bool_decide_eq_true. tauto.
Qed.

(** C27.  Any sequence of choices leaves the state that reads as a record on which the
    same choices were made, clearing the filters leaves none active, and the
    count of active filters agrees with the flag. *)
Theorem filters_refine acts s : NoDup (map_keys s) ->
  choices (fold_left act acts s) = fold_left choose acts (choices s) /\
  hasActiveFilters (clearFilters (fold_left act acts s)) = false /\
  (hasActiveFilters s = true <-> (0 < activeFilterCount s)%nat).
Proof.
  intros Hs. split; [by apply acts_choices|]. split; [|apply active_count]. change (clearFilters _) with (act (fold_left act acts s) ClearFilters).
  assert (Hn : NoDup (map_keys (fold_left act acts s))) by (revert s Hs; induction acts; intros; [done|]; apply IHacts, keys_act, Hs).
  apply inactive_choices. rewrite act_choices by done. by destruct (choices _).
Qed.

(** ** Group ratios *)
Section Ratios.
Context (ratios : list (jsstr * json)).

Definition ratio_double (g : jsstr) : Prop := forall r, finite_ratio ratios g = Some r -> is_double r = true.

(** The accumulator of the loop: no ratio met yet, or the least of the ones met. *)
Definition least_of (seen : list jsstr) (acc : num) : Prop :=
  (acc = num_inf false /\ Forall (fun g => finite_ratio ratios g = None) seen) \/
  (exists g, g ∈ seen /\ finite_ratio ratios g = Some acc /\ forall g' r, g' ∈ seen -> finite_ratio ratios g' = Some r -> num_leb acc r = true).

Lemma finite_below_inf r : num_is_finite r = true -> num_ltb r (num_inf false) = true.
Proof. by destruct r as [[]| | |[] ]. Qed.

Lemma finite_ratio_finite g r : finite_ratio ratios g = Some r -> num_is_finite r = true.
Proof. unfold finite_ratio. destruct (map_get g ratios) as [[]|]; try done. case_match; [by intros [= <-] | done]. Qed.

Lemma least_step seen acc g : (forall g', g' ∈ g :: seen -> ratio_double g') -> least_of seen acc -> least_of (g :: seen) (min_ratio ratios acc g).
Proof.
  intros Hd H. unfold min_ratio. destruct (finite_ratio ratios g) as [r|] eqn:E.
  - pose proof (finite_ratio_finite _ _ E) as Fr. assert (Dr : is_double r = true) by (apply (Hd g); [by left | done]). right.
    destruct H as [[-> Hn]|(g0 & H0 & E0 & Hl)].
    + rewrite finite_below_inf by done. exists g. split_and!; [by left | done |]. intros g' r' [->|Hg']%elem_of_cons E'.
      * assert (r' = r) as -> by congruence. rewrite num_leb_units by done. apply Z.leb_refl.
      * rewrite Forall_forall in Hn. by rewrite (Hn g' Hg') in E'.
    + pose proof (finite_ratio_finite _ _ E0) as Fa. assert (Da : is_double acc = true) by (apply (Hd g0); [by right | done]).
      rewrite num_ltb_units by done. destruct (Z.ltb_spec (num_units r) (num_units acc)) as [L|L].
      * exists g. split_and!; [by left | done |]. intros g' r' [->|Hg']%elem_of_cons E'.
        -- assert (r' = r) as -> by congruence. rewrite num_leb_units by done. apply Z.leb_refl.
        -- pose proof (Hl g' r' Hg' E') as Hle. pose proof (finite_ratio_finite _ _ E') as F'. assert (D' : is_double r' = true) by (apply (Hd g'); [by right | done]).
           rewrite num_leb_units, Z.leb_le in Hle |- * by done. lia.
      * exists g0. split_and!; [by right | done |]. intros g' r' [->|Hg']%elem_of_cons E'; [|by apply (Hl g')].
        assert (r' = r) as -> by congruence. rewrite num_leb_units by done. by apply Z.leb_le.
  - destruct H as [[-> Hn]|(g0 & H0 & E0 & Hl)]; [left; split; [done|by constructor]|right]. exists g0. split_and!; [by right | done |].
    intros g' r' [->|Hg']%elem_of_cons E'; [congruence | by apply (Hl g')].
Qed.

Lemma least_fold groups seen acc : (forall g, g ∈ groups ++ seen -> ratio_double g) -> least_of seen acc ->
  least_of (rev groups ++ seen) (fold_left (min_ratio ratios) groups acc).
Proof.
  revert seen acc. induction groups as [|g groups IH]; intros seen acc Hd H; [done|]. cbn [fold_left rev]. rewrite <- app_assoc. apply (IH (g :: seen)).
  - intros g' Hg'. apply Hd. cbn. set_solver.
  - apply least_step; [|done]. intros g' Hg'. apply Hd. cbn. set_solver.
Qed.

Lemma least_all groups : (forall g, g ∈ groups -> ratio_double g) -> least_of groups (fold_left (min_ratio ratios) groups (num_inf false)).
Proof.
  intros Hd. assert (Hr : forall x, x ∈ rev groups <-> x ∈ groups) by (intros x; by rewrite !list_elem_of_In, <- in_rev).
  assert (H : least_of (rev groups ++ []) (fold_left (min_ratio ratios) groups (num_inf false))).
  { apply least_fold; [by rewrite app_nil_r|]. left. split; [done | by constructor]. }
  rewrite app_nil_r in H. destruct H as [[E Hn]|(g & Hg & E & Hl)].
  - left. split; [done|]. rewrite Forall_forall in Hn |- *. intros g Hg. by apply Hn, Hr.
  - right. exists g. split_and!; [by apply Hr | done|]. intros g' r' Hg'. by apply Hl, Hr.
Qed.

Lemma finite_not_inf r : num_is_finite r = true -> num_eqb r (num_inf false) = false.
Proof. by destruct r as [[]| | |[] ]. Qed.
End Ratios.

(** Without a selected group: one when no enabled group has a ratio, otherwise
    the least of the configured ratios of the enabled groups. *)
Definition best_ratio (ratios : list (jsstr * json)) (groups : list jsstr) (r : num) : Prop :=
  (r = num_of_Z 1 /\ Forall (fun g => finite_ratio ratios g = None) groups) \/
  (exists g, g ∈ groups /\ finite_ratio ratios g = Some r /\ forall g' r', g' ∈ groups -> finite_ratio ratios g' = Some r' -> num_leb r r' = true).

(** A selected group that the model offers decides the ratio; otherwise the least
    configured ratio of the groups of the model does, or one when there is none. *)
Theorem display_ratio_spec model selected : let ratios := default [] (group_ratio model) in let groups := default [] (enable_groups model) in
  (forall g, g ∈ groups -> ratio_double ratios g) ->
  match selected with
  | Some g => if bool_decide (g = []) || bool_decide (g = FILTER_ALL) || negb (bool_decide (g ∈ groups))
              then best_ratio ratios groups (getDisplayGroupRatio model selected)
              else getDisplayGroupRatio model selected = getConfiguredGroupRatio ratios g
  | None => best_ratio ratios groups (getDisplayGroupRatio model selected)
  end.
Proof.
  intros ratios groups Hd.
  set (cheapest := match groups with [] => num_of_Z 1 | _ => let m := fold_left (min_ratio ratios) groups (num_inf false) in if num_eqb m (num_inf false) then num_of_Z 1 else m end).
  assert (Hc : best_ratio ratios groups cheapest).
  { destruct (least_all ratios groups Hd) as [[E Hn]|(g & Hg & E & Hl)]; unfold cheapest; cbn zeta.
    - left. split; [|done]. rewrite E. by destruct groups.
    - right. exists g. rewrite finite_not_inf by (by eapply finite_ratio_finite). split_and!; [done | by destruct groups; [apply not_elem_of_nil in Hg|] |].
      destruct groups; [by apply not_elem_of_nil in Hg | done]. }
  assert (Hu : getDisplayGroupRatio model selected = match truthy_text selected with
    | Some g => if negb (bool_decide (g = FILTER_ALL)) && bool_decide (g ∈ groups) then getConfiguredGroupRatio ratios g else cheapest | None => cheapest end) by done.
  rewrite Hu. destruct selected as [[|c g]|]; cbn [truthy_text]; [done| |done]. rewrite (bool_decide_eq_false_2 (c :: g = [])) by done.
  by destruct (bool_decide (_ = FILTER_ALL)), (bool_decide (_ ∈ groups)).
Qed.

(** The ratio that is shown is not always the best price of the viewer: a group
    without a ratio is charged at one, and the loop passes over it. *)
Theorem display_ratio_not_best :
  exists model g, g ∈ default [] (enable_groups model) /\
    num_ltb (getConfiguredGroupRatio (default [] (group_ratio model)) g) (getDisplayGroupRatio model None) = true.
Proof.
  exists (mkPricing None None None num_zero num_zero num_zero None None None None None None (Some [js "a"; js "b"]) None None
           (Some [(js "b", JNum (num_of_Z 2))]) None None), (js "a"). split; [by left | vm_compute; reflexivity].
Qed.

(** ** Prices that cannot be shown *)
Definition price_missing (model : PricingModel) (type : PriceType) : bool :=
  let absent v := match v with Some r => negb (num_is_finite r) | None => true end in
  match type with
  | input | output => false
  | cache => absent (cache_ratio model)
  | create_cache => absent (create_cache_ratio model)
  | image => absent (image_ratio model)
  | audio_input => absent (audio_ratio model)
  | audio_output => absent (audio_ratio model) || absent (audio_completion_ratio model)
  end.

Lemma with_ratio_missing v f : match v with Some r => negb (num_is_finite r) | None => true end = true -> with_ratio v f = num_nan.
Proof. destruct v as [r|]; [|done]. cbn. by intros ->%negb_true_iff. Qed.

Lemma nan_mul x : num_mul num_nan x = num_nan.
Proof. by destruct x. Qed.
Lemma nan_div x : num_div num_nan x = num_nan.
Proof. by destruct x. Qed.

Lemma missing_nan model type ratio : price_missing model type = true -> calculateTokenPrice model type ratio = num_nan.
Proof.
  destruct type; cbn [price_missing calculateTokenPrice]; try done; intros H; try by apply with_ratio_missing.
  apply orb_true_iff in H as [H|H]; [by apply with_ratio_missing|]. destruct (audio_ratio model) as [r|]; [|done]. cbn [with_ratio]. destruct (num_is_finite r); [|done]. by apply with_ratio_missing.
Qed.

(** A price whose ratio is missing is shown as a dash, in every currency. *)
Lemma missing_price_dash format store model type unit recharge priceRate usdRate ratio : price_missing model type = true ->
  show_token_price format store model type unit recharge priceRate usdRate ratio = js "-".
Proof.
  intros H. unfold show_token_price. rewrite missing_nan by done. destruct (num_eqb _ _); [done|].
  replace (applyRechargeRate num_nan recharge priceRate usdRate) with num_nan by (unfold applyRechargeRate; destruct recharge; [by rewrite nan_mul, nan_div | done]).
  by rewrite nan_div.
Qed.

(** ** The entries of a tiered price *)
Section Entries.
Context (format : option jsstr -> bool -> Z -> num -> jsstr) (store : option CurrencyConfig).

#[export] Instance entry_Comparator : Comparator entry_cmp.
Proof. split; unfold entry_cmp; intros; destruct (is_primary a), (is_primary b); try destruct (is_primary c); cbn in *; lia. Qed.

Lemma primary_first l : StronglySorted (fun a b => entry_cmp a b <= 0) l -> List.filter is_primary l ++ List.filter (fun e => negb (is_primary e)) l = l.
Proof.
  induction 1 as [|x l Hs IH Hx]; [done|]. cbn. destruct (is_primary x) eqn:E; cbn; [by rewrite IH|].
  assert (Hn : List.filter is_primary l = []).
  { clear Hs IH. induction Hx as [|y l Hy _ IH]; [done|]. cbn. unfold entry_cmp in Hy. rewrite E in Hy. by destruct (is_primary y). }
  rewrite Hn in IH |- *. cbn in IH |- *. by rewrite IH.
Qed.

Lemma price_entry_spec tier o v e : e ∈ price_entry format store tier o v <->
  exists f, BillingExpr.field v = Some f /\ f <> [] /\ map_get f (BillingExpr.prices tier) = Some (de_value e) /\ num_is_finite (de_value e) = true /\
    num_leb (de_value e) num_zero = false /\ e = mkEntry v f (de_value e) (formatDynamicUnitPrice format store (de_value e) o).
Proof.
  unfold price_entry. destruct (BillingExpr.field v) as [[|c f]|] eqn:E; try (split; [by intros ?%not_elem_of_nil | by intros (? & [= <-] & ? & _)]).
  destruct (map_get (c :: f) (BillingExpr.prices tier)) as [x|] eqn:G.
  - destruct (num_is_finite x) eqn:F; cbn [negb orb]; [destruct (num_leb x num_zero) eqn:L|].
    all: split; [try (by intros ?%not_elem_of_nil) | intros (f' & [= <-] & _ & G' & F' & L' & H); rewrite G in G'; try congruence].
    + intros ->%list_elem_of_singleton. exists (c :: f). cbn. done.
    + apply list_elem_of_singleton. injection G' as ->. done.
  - split; [by intros ?%not_elem_of_nil|]. intros (f' & [= <-] & _ & G' & _). congruence.
Qed.

(** The entries of a tier are the variables with a finite positive price, each
    with that price, and the input and output prices come first. *)
Theorem dynamic_entries_spec tier o :
  let es := getDynamicPriceEntries format store (Some tier) o in
  List.filter is_primary es ++ List.filter (fun e => negb (is_primary e)) es = es /\
  forall v, v ∈ BillingExpr.BILLING_PRICING_VARS -> forall f x, BillingExpr.field v = Some f ->
    (mkEntry v f x (formatDynamicUnitPrice format store x o) ∈ es <->
     map_get f (BillingExpr.prices tier) = Some x /\ num_is_finite x = true /\ num_leb x num_zero = false).
Proof.
  split; [apply primary_first, StronglySorted_js_sort, _|]. intros v Hv f x Hf. unfold getDynamicPriceEntries. rewrite elem_of_js_sort, list_elem_of_In, List.in_flat_map. split.
  - intros (v' & _ & H%list_elem_of_In%price_entry_spec). destruct H as (f' & _ & _ & G & F & L & E). cbn in *. injection E as -> ->. done.
  - intros (G & F & L). exists v. split; [by apply list_elem_of_In|]. apply list_elem_of_In, price_entry_spec. exists f. cbn. split_and!; try done.
    assert (Hne : forallb (fun v => match BillingExpr.field v with Some [] => false | _ => true end) BillingExpr.BILLING_PRICING_VARS = true) by (vm_compute; reflexivity).
    rewrite List.forallb_forall in Hne. apply list_elem_of_In in Hv. specialize (Hne v Hv). rewrite Hf in Hne. by destruct f.
Qed.
End Entries.

(** ** Concrete models *)
Definition sample (name : jsstr) (ratio : Z) (vendor tags : jsstr) : PricingModel :=
  mkPricing (Some name) None (Some vendor) num_zero (num_of_Z ratio) (num_of_Z 1) None None None None None None (Some [js "vip"; js "default"]) (Some tags) None
    (Some [(js "default", JNum (num_of_Z 1)); (js "vip", JNum (num_of_Z 3))]) None None.
Definition sample_models : list PricingModel := [sample (js "b-chat") 5 (js "x") (js "fast, Cheap"); sample (js "a-chat") 2 (js "x") (js "slow"); sample (js "c") 1 (js "y") []].
Definition sample_state : FilterState := [(js "vendor", JStr (js "x")); (js "sort", JStr (js "price-low"))].

Lemma square_shows_matches_witness :
  map model_name (filteredModels ascii_lower str_cmp sample_models sample_state) = [Some (js "a-chat"); Some (js "b-chat")] /\
  StronglySorted (fun a b => num_leb (getModelPrice a) (getModelPrice b) = true) (filteredModels ascii_lower str_cmp sample_models sample_state).
Proof.
  split; [vm_compute; reflexivity|].
  destruct (square_shows_matches ascii_lower str_cmp sample_models sample_state) as (_ & _ & H & _); [vm_compute; reflexivity | apply H; vm_compute; reflexivity].
Defined.

Lemma filters_refine_witness :
  c_vendor (choices (fold_left act [SetVendor (js "y"); SetTokenUnit UnitK] sample_state)) = js "y".
Proof.
  rewrite (proj1 (filters_refine [SetVendor (js "y"); SetTokenUnit UnitK] sample_state ltac:(keys_differ))). vm_compute. reflexivity.
Defined.

Lemma display_ratio_spec_witness :
  best_ratio [(js "default", JNum (num_of_Z 1)); (js "vip", JNum (num_of_Z 3))] [js "vip"; js "default"] (getDisplayGroupRatio (sample [] 1 [] []) None).
Proof.
  apply (display_ratio_spec (sample [] 1 [] []) None). intros g [->|[->|[]%not_elem_of_nil]%elem_of_cons]%elem_of_cons r H; vm_compute in H; injection H as <-; reflexivity.
Defined.
End ModelSquare.
