(* ===== verification/JsExpr.v ===== *)
(** * A fragment of JavaScript expressions

    The price estimator runs a billing expression as JavaScript.  The file gives
    the meaning of the expressions the generator writes: numbers, strings,
    identifiers, [?:], [&&], comparisons, [+], [*], unary minus, parentheses and
    calls of [tier(name, value)], which records the name and returns the value.
    Lexer, parser and evaluator are partial: [None] says that the text is
    outside the fragment, never that JavaScript would reject it. *)
From S2P Require Import Prelude JsString JsNumber Json JsonText JsRegex.
Local Open Scope Z_scope.

#[local] Arguments js : simpl never.

(** ** Tokens *)
Inductive punct := PQuestion | PColon | PComma | POpen | PClose | PPlus | PMinus | PTimes | PAnd | PLt | PLe | PGt | PGe.
#[global] Instance punct_eq_dec : EqDecision punct.
Proof. solve_decision. Defined.

Inductive token := TNum (n : num) | TStr (s : jsstr) | TId (x : jsstr) | TP (p : punct).

(** Longer punctuators first; those outside the fragment stop the lexer. *)
Definition puncts : list (jsstr * option punct) :=
  [(js "++", None); (js "--", None); (js "**", None); (js "&&=", None); (js "<<", None); (js ">>", None); (js "??", None); (js "?.", None);
   (js "+=", None); (js "-=", None); (js "*=", None); (js "=>", None);
   (js "&&", Some PAnd); (js "<=", Some PLe); (js ">=", Some PGe); (js "<", Some PLt); (js ">", Some PGt);
   (js "?", Some PQuestion); (js ":", Some PColon); (js ",", Some PComma); (js "(", Some POpen); (js ")", Some PClose);
   (js "+", Some PPlus); (js "-", Some PMinus); (js "*", Some PTimes)].

Fixpoint first_punct (l : list (jsstr * option punct)) (s : jsstr) : option (punct * jsstr) :=
  match l with
  | [] => None
  | (w, p) :: l =>
      match strip_prefix w s with
      | Some r => match p with Some p => Some (p, r) | None => None end
      | None => first_punct l s
      end
  end.

Definition ident_start (c : Z) : bool := ((65 <=? c) && (c <=? 90)) || ((97 <=? c) && (c <=? 122)) || (c =? 95) || (c =? 36).
Definition ident_char (c : Z) : bool := ident_start c || is_digit c.

(** A decimal literal: not a legacy octal, and not followed by an identifier. *)
Definition legacy_octal (s : jsstr) : bool := match s with z :: d :: _ => (z =? 48) && is_digit d | _ => false end.
Definition ident_next (r : jsstr) : bool := match r with c :: _ => ident_char c | [] => false end.
Definition lex_number (s : jsstr) : option (num * jsstr) :=
  if legacy_octal s then None
  else '(m, e, r) ← decimal_prefix s; if ident_next r then None else Some (num_of_dec m e, r).

(** A string literal without escapes and line terminators, after its quote. *)
Definition str_char (c : Z) : bool := negb (c =? dquote) && negb (c =? 92) && negb (line_end c).
Definition lex_string (s : jsstr) : option (jsstr * jsstr) :=
  match drop_while str_char s with
  | c :: r => if c =? dquote then Some (take_while str_char s, r) else None
  | [] => None
  end.

Definition lex_token (s : jsstr) : option (token * jsstr) :=
  match s with
  | [] => None
  | c :: t =>
      if is_digit c || (c =? dot) then '(n, r) ← lex_number s; Some (TNum n, r)
      else if ident_start c then Some (TId (take_while ident_char s), drop_while ident_char s)
      else if c =? dquote then '(w, r) ← lex_string t; Some (TStr w, r)
      else '(p, r) ← first_punct puncts s; Some (TP p, r)
  end.

Fixpoint lex_loop (fuel : nat) (s : jsstr) : option (list token) :=
  match drop_while is_ws s with
  | [] => Some []
  | c :: t =>
      match fuel with
      | O => None
      | S fuel => '(k, r) ← lex_token (c :: t); ks ← lex_loop fuel r; Some (k :: ks)
      end
  end.
Definition lex (s : jsstr) : option (list token) := lex_loop (length s) s.

(** ** Expressions *)
Inductive binop := BAnd | BLt | BLe | BGt | BGe | BAdd | BMul.
Inductive expr :=
| ENum (n : num)
| EStr (s : jsstr)
| EVar (x : jsstr)
| ENeg (e : expr)
| EBin (o : binop) (a b : expr)
| ECond (c a b : expr)
| ECall (f : jsstr) (args : list expr).

(** The left-associative levels, from the loosest: [&&], comparisons, [+], [*]. *)
Definition level_op (n : nat) (p : punct) : option binop :=
  match n, p with
  | 4%nat, PAnd => Some BAnd
  | 3%nat, PLt => Some BLt
  | 3%nat, PLe => Some BLe
  | 3%nat, PGt => Some BGt
  | 3%nat, PGe => Some BGe
  | 2%nat, PPlus => Some BAdd
  | 1%nat, PTimes => Some BMul
  | _, _ => None
  end.

(** What the parser is to read next: a whole expression, an operand of a level,
    the operators of a level after a first operand, the arguments of a call. *)
Inductive goal := GCond | GLevel (n : nat) | GLoop (n : nat) (l : expr) | GArgs (f : jsstr) (acc : list expr).

Fixpoint parse (fuel : nat) (g : goal) (ts : list token) : option (expr * list token) :=
  match fuel with
  | O => None
  | S fuel =>
      match g with
      | GCond =>
          '(c, ts) ← parse fuel (GLevel 4) ts;
          match ts with
          | TP PQuestion :: ts =>
              '(a, ts) ← parse fuel GCond ts;
              match ts with
              | TP PColon :: ts => '(b, ts) ← parse fuel GCond ts; Some (ECond c a b, ts)
              | _ => None
              end
          | _ => Some (c, ts)
          end
      | GLevel (S n) => '(l, ts) ← parse fuel (GLevel n) ts; parse fuel (GLoop (S n) l) ts
      | GLoop n l =>
          match ts with
          | TP p :: ts' =>
              match level_op n p with
              | Some o => '(r, ts'') ← parse fuel (GLevel (pred n)) ts'; parse fuel (GLoop n (EBin o l r)) ts''
              | None => Some (l, ts)
              end
          | _ => Some (l, ts)
          end
      | GLevel O =>
          match ts with
          | TNum n :: ts => Some (ENum n, ts)
          | TStr s :: ts => Some (EStr s, ts)
          | TId f :: TP POpen :: ts => parse fuel (GArgs f []) ts
          | TId x :: ts => Some (EVar x, ts)
          | TP PMinus :: ts => '(e, ts) ← parse fuel (GLevel O) ts; Some (ENeg e, ts)
          | TP POpen :: ts => '(e, ts) ← parse fuel GCond ts; match ts with TP PClose :: ts => Some (e, ts) | _ => None end
          | _ => None
          end
      | GArgs f acc =>
          '(e, ts) ← parse fuel GCond ts;
          match ts with
          | TP PComma :: ts => parse fuel (GArgs f (acc ++ [e])) ts
          | TP PClose :: ts => Some (ECall f (acc ++ [e]), ts)
          | _ => None
          end
      end
  end.

Definition parse_expr (ts : list token) : option expr :=
  match parse (8 * S (length ts)) GCond ts with Some (e, []) => Some e | _ => None end.

(** ** Evaluation *)
Inductive value := VN (n : num) | VB (b : bool) | VS (s : jsstr).

Definition to_boolean (v : value) : bool :=
  match v with VN n => num_truthy n | VB b => b | VS [] => false | VS _ => true end.

Definition env : Type := list (jsstr * num).

Definition bin_num (o : binop) (a b : num) : value :=
  match o with
  | BAdd => VN (num_add a b)
  | BMul => VN (num_mul a b)
  | BLt => VB (num_ltb a b)
  | BLe => VB (num_leb a b)
  | BGt => VB (num_ltb b a)
  | BGe => VB (num_leb b a)
  | BAnd => VB false
  end.

(** The value, and the name the last call of [tier] recorded. *)
Fixpoint eval (rho : env) (e : expr) (tier : jsstr) : option (value * jsstr) :=
  match e with
  | ENum n => Some (VN n, tier)
  | EStr s => Some (VS s, tier)
  | EVar x => n ← map_get x rho; Some (VN n, tier)
  | ENeg e => '(v, tier) ← eval rho e tier; match v with VN n => Some (VN (num_opp n), tier) | _ => None end
  | EBin BAnd a b => '(v, tier) ← eval rho a tier; if to_boolean v then eval rho b tier else Some (v, tier)
  | EBin o a b =>
      '(va, tier) ← eval rho a tier; '(vb, tier) ← eval rho b tier;
      match va, vb with VN x, VN y => Some (bin_num o x y, tier) | _, _ => None end
  | ECond c a b => '(v, tier) ← eval rho c tier; if to_boolean v then eval rho a tier else eval rho b tier
  | ECall f [a; b] =>
      if bool_decide (f = js "tier") then
        '(va, tier) ← eval rho a tier; '(vb, _) ← eval rho b tier;
        match va with VS name => Some (vb, name) | _ => None end
      else None
  | ECall _ _ => None
  end.

Definition js_eval (rho : env) (text : jsstr) : option (value * jsstr) :=
  ts ← lex text; e ← parse_expr ts; eval rho e [].

Example eval_prices :
  js_eval [(js "p", num_of_Z 10); (js "c", num_of_Z 3)] (js "p < 10 && c >= 3 ? tier(" ++ [dquote] ++ js "a" ++ [dquote] ++ js ", p * 2) : tier(" ++ [dquote] ++ js "b" ++ [dquote] ++ js ", p * 2.5 + c * -1e+0)")
  = Some (VN (num_of_Z 22), js "b").
Proof. vm_compute. reflexivity. Qed.

(** ** Lemmas: tokens *)
(** The text has these tokens, with fuel for each of its characters. *)
Definition lexed (s : jsstr) (ks : list token) : Prop := exists f, (f <= length s)%nat /\ lex_loop f s = Some ks.

Lemma lex_loop_mono f f' s ks : lex_loop f s = Some ks -> (f <= f')%nat -> lex_loop f' s = Some ks.
Proof.
  revert f' s ks. induction f as [|f IH]; intros f' s ks H Hf.
  - cbn in H. destruct f'; cbn; destruct (drop_while is_ws s); congruence.
  - destruct f' as [|f']; [lia|]. cbn [lex_loop] in *. destruct (drop_while is_ws s) as [|c t]; [done|].
    destruct (lex_token (c :: t)) as [[k r]|]; [|done]. cbn [mbind option_bind] in *. destruct (lex_loop f r) as [ks'|] eqn:E; [|done].
    by rewrite (IH f' r ks' E) by lia.
Qed.

Lemma lexed_lex s ks : lexed s ks -> lex s = Some ks.
Proof. intros (f & Hf & H). by apply (lex_loop_mono f). Qed.

Lemma lexed_nil : lexed [] [].
Proof. by exists 0%nat. Qed.

Lemma lexed_ws w s ks : forallb is_ws w = true -> lexed s ks -> lexed (w ++ s) ks.
Proof.
  intros Hw (f & Hf & H). exists f. split; [rewrite length_app; lia|].
  destruct f; cbn in *; by rewrite drop_while_app.
Qed.

Lemma lexed_token s k r ks :
  match s with c :: _ => is_ws c | [] => true end = false -> lex_token s = Some (k, r) -> (length r < length s)%nat -> lexed r ks -> lexed s (k :: ks).
Proof.
  intros Hs Hk Hl (f & Hf & H). exists (S f). split; [lia|]. cbn [lex_loop]. destruct s as [|c t]; [done|]. cbn [drop_while]. rewrite Hs.
  rewrite Hk. cbn [mbind option_bind]. by rewrite H.
Qed.

Lemma lexed_ident x c w r ks :
  x = c :: w -> ident_start c = true -> forallb ident_char x = true -> ident_next r = false -> lexed r ks -> lexed (x ++ r) (TId x :: ks).
Proof.
  intros -> Hc Hx Hr Hl. assert (Hs : is_digit c = false /\ (c =? dot) = false /\ is_ws c = false).
  { unfold ident_start in Hc. unfold is_digit, dot, is_ws. repeat split; apply not_true_is_false; intros H; bool_to_prop; lia. }
  destruct Hs as (Hd & Hdot & Hw). apply (lexed_token _ _ r); [done | | rewrite length_app; cbn; lia | done].
  cbn [app lex_token]. rewrite Hd, Hdot, Hc. cbn [orb]. change (c :: w ++ r) with ((c :: w) ++ r).
  rewrite take_while_app, drop_while_app by done. destruct r as [|d r]; [by rewrite app_nil_r|]. cbn in *. rewrite Hr. by rewrite app_nil_r.
Qed.

Lemma lexed_string w r ks : forallb str_char w = true -> lexed r ks -> lexed (dquote :: w ++ dquote :: r) (TStr w :: ks).
Proof.
  intros Hw Hl. apply (lexed_token _ _ r); [done | | cbn; rewrite length_app; cbn; lia | done].
  assert (E : lex_string (w ++ dquote :: r) = Some (w, r)).
  { unfold lex_string. rewrite take_while_app, drop_while_app by done. cbn. by rewrite app_nil_r. }
  cbn -[lex_string]. by rewrite E.
Qed.

(** *** Numbers *)
Lemma decimal_prefix_app s r m e :
  decimal_prefix s = Some (m, e, []) -> num_stop r = true -> decimal_prefix (s ++ r) = Some (m, e, r).
Proof.
  intros H Hr. unfold decimal_prefix in *. destruct (take_while_stop_app s r Hr) as [-> ->].
  set (fr := match drop_while is_digit s with c :: r => if c =? dot then (take_while is_digit r, drop_while is_digit r) else ([], drop_while is_digit s) | [] => ([], drop_while is_digit s) end) in *.
  replace (match drop_while is_digit s ++ r with c :: r0 => if c =? dot then (take_while is_digit r0, drop_while is_digit r0) else ([], drop_while is_digit s ++ r)
    | [] => ([], drop_while is_digit s ++ r) end) with (fr.1, fr.2 ++ r).
  - destruct fr as [fp r2]. cbn [fst snd]. destruct (take_while is_digit s ++ fp); [done|]. rewrite exponent_part_app by done.
    destruct (exponent_part r2) as [e' r3]. by injection H as <- <- ->.
  - unfold fr. destruct (drop_while is_digit s) as [|c u]; cbn [app].
    + destruct r as [|d r]; [done|]. cbn in Hr. bool_to_prop. by destruct (Z.eqb_spec d dot).
    + destruct (c =? dot); [|done]. by destruct (take_while_stop_app u r Hr) as [-> ->].
Qed.

(** Where a number of the fragment ends. *)
Definition num_end (r : jsstr) : bool := num_stop r && negb (ident_next r).

Lemma lex_number_app s r n : lex_number s = Some (n, []) -> num_end r = true -> lex_number (s ++ r) = Some (n, r).
Proof.
  unfold lex_number, num_end. intros H [Hstop Hid%negb_true_iff]%andb_prop. destruct (legacy_octal s) eqn:El; [done|].
  assert (El' : s <> [] -> legacy_octal (s ++ r) = false).
  { intros Hs. destruct s as [|z [|d s]]; [done | | done]. cbn. destruct r as [|d r]; [done|]. cbn in Hstop.
    destruct (is_digit d); [done | apply andb_false_r]. }
  destruct (decimal_prefix s) as [[[m e] t]|] eqn:Ed; [|done]. cbn in H.
  assert (s <> []) by (by intros ->). rewrite El' by done. destruct (ident_next t); [done|]. injection H as <- ->.
  rewrite (decimal_prefix_app s r m e) by done. cbn. by rewrite Hid.
Qed.

(** The tokens of a printed number, and whether the literal is the number. *)
Definition num_tokens (n : num) : list token :=
  match num_to_string n with
  | c :: t => if c =? minus then match lex_number t with Some (m, _) => [TP PMinus; TNum m] | None => [] end else [TNum n]
  | [] => []
  end.

Definition num_expr (n : num) : expr :=
  match num_tokens n with [TP PMinus; TNum m] => ENeg (ENum m) | _ => ENum n end.

Definition num_literal_ok (n : num) : bool :=
  match num_to_string n with
  | c :: t =>
      if c =? minus then match lex_number t with Some (m, []) => bool_decide (num_opp m = n) | _ => false end
      else bool_decide (lex_number (c :: t) = Some (n, []))
  | [] => false
  end.

Lemma lex_number_head s x : lex_number s = Some x -> match s with c :: _ => is_digit c || (c =? dot) | [] => false end = true.
Proof.
  unfold lex_number. destruct (legacy_octal s); [done|]. destruct s as [|c t]; [done|]. unfold decimal_prefix. cbn.
  destruct (is_digit c); [done|]. by destruct (c =? dot).
Qed.

Lemma lexed_number n t r ks :
  lex_number t = Some (n, []) -> num_end r = true -> lexed r ks -> lexed (t ++ r) (TNum n :: ks).
Proof.
  intros Hn Hr Hl. pose proof (lex_number_head t _ Hn) as Hh. destruct t as [|c t]; [done|].
  assert (Hw : is_ws c = false). { unfold is_digit, dot in Hh. unfold is_ws. apply not_true_is_false. intros H. bool_to_prop. lia. }
  apply (lexed_token _ _ r); [done | | rewrite length_app; cbn; lia | done].
  unfold lex_token. change ((c :: t) ++ r) with (c :: t ++ r) at 1. cbv iota beta. rewrite Hh, (lex_number_app _ r n) by done. done.
Qed.

Lemma minus_token d u : d <> 45 -> d <> 61 -> first_punct puncts (45 :: d :: u) = Some (PMinus, d :: u).
Proof.
  intros H1 H2. cbv -[Z.eqb]. rewrite !(proj2 (Z.eqb_neq 45 d)), !(proj2 (Z.eqb_neq 61 d)) by lia. reflexivity.
Qed.

Lemma lexed_num n r ks : num_literal_ok n = true -> num_end r = true -> lexed r ks -> lexed (num_to_string n ++ r) (num_tokens n ++ ks).
Proof.
  unfold num_literal_ok, num_tokens. destruct (num_to_string n) as [|c t]; [done|]. intros H Hr Hl. destruct (Z.eqb_spec c minus) as [->|].
  - destruct (lex_number t) as [[m [|]]|] eqn:E; [|done..]. pose proof (lex_number_head t _ E) as Hh.
    destruct t as [|d t]; [done|]. assert (Hd : d <> 45 /\ d <> 61). { unfold is_digit, dot in Hh. bool_to_prop. lia. }
    apply (lexed_token _ _ ((d :: t) ++ r)); [done | | cbn; lia | by apply lexed_number].
    transitivity ('(p, r) ← first_punct puncts (45 :: d :: t ++ r); Some (TP p, r)); [reflexivity|].
    by rewrite minus_token by lia.
  - bool_to_prop. by apply lexed_number.
Qed.

(** ** Lemmas: parsing *)
Definition rank (g : goal) : nat := match g with GCond => 6 | GLevel n => S n | GLoop _ _ => 1 | GArgs _ _ => 7 end.

(** The tokens [w] before [r] are read as [e], with fuel linear in their number. *)
Definition reads (g : goal) (w : list token) (e : expr) (r : list token) : Prop :=
  forall f, (8 * length w + rank g <= f)%nat -> parse f g (w ++ r) = Some (e, r).

(** No operator of the level follows. *)
Definition quiet (n : nat) (r : list token) : bool :=
  match r with TP p :: _ => match level_op n p with Some _ => false | None => true end | _ => true end.

Lemma reads_num n r : reads (GLevel 0) [TNum n] (ENum n) r.
Proof. intros [|f] Hf; [cbn in Hf; lia | done]. Qed.

Lemma reads_str s r : reads (GLevel 0) [TStr s] (EStr s) r.
Proof. intros [|f] Hf; [cbn in Hf; lia | done]. Qed.

Lemma reads_var x r : match r with TP POpen :: _ => false | _ => true end = true -> reads (GLevel 0) [TId x] (EVar x) r.
Proof. intros Hr [|f] Hf; [cbn in Hf; lia|]. cbn. destruct r as [|[| | |[]] r]; done. Qed.

Lemma reads_neg w e r : reads (GLevel 0) w e r -> reads (GLevel 0) (TP PMinus :: w) (ENeg e) r.
Proof. intros H [|f] Hf; [cbn in Hf; lia|]. cbn. rewrite H; [done | cbn in *; lia]. Qed.

Lemma reads_printed n r : num_literal_ok n = true -> reads (GLevel 0) (num_tokens n) (num_expr n) r.
Proof.
  unfold num_literal_ok, num_expr, num_tokens. destruct (num_to_string n) as [|c t]; [done|]. destruct (c =? minus); intros H.
  - destruct (lex_number t) as [[m [|]]|]; [|done..]. apply reads_neg, reads_num.
  - apply reads_num.
Qed.

Lemma reads_stop n l r : quiet n r = true -> reads (GLoop n l) [] l r.
Proof.
  intros Hr [|f] Hf; [cbn in Hf; lia|]. cbn. destruct r as [|[| | |p] r]; [done..|]. cbn in Hr. by destruct (level_op n p).
Qed.

Lemma reads_step n p o l w a v e r :
  level_op n p = Some o -> reads (GLevel (pred n)) w a (v ++ r) -> reads (GLoop n (EBin o l a)) v e r ->
  reads (GLoop n l) (TP p :: w ++ v) e r.
Proof.
  intros Ho Ha Hv [|f] Hf; [cbn in Hf; lia|]. assert (n <= 4)%nat by (do 5 (destruct n as [|n]; [lia|]); done).
  cbn [length rank] in Hf. rewrite length_app in Hf. cbn [parse app]. rewrite Ho, <- app_assoc.
  rewrite Ha by (cbn; lia). cbn [mbind option_bind]. by rewrite Hv by (cbn; lia).
Qed.

Lemma reads_up n w a v e r :
  reads (GLevel n) w a (v ++ r) -> reads (GLoop (S n) a) v e r -> reads (GLevel (S n)) (w ++ v) e r.
Proof.
  intros Ha Hv [|f] Hf; [cbn in Hf; lia|]. cbn [rank] in Hf. rewrite length_app in Hf. cbn [parse]. rewrite <- app_assoc.
  rewrite Ha by (cbn; lia). cbn [mbind option_bind]. by rewrite Hv by (cbn; lia).
Qed.

Lemma reads_up_stop n w a r : quiet (S n) r = true -> reads (GLevel n) w a r -> reads (GLevel (S n)) w a r.
Proof. intros Hq Ha. rewrite <- (app_nil_r w). apply (reads_up n w a []); [done | by apply reads_stop]. Qed.

Lemma reads_cond w c v a u b r :
  reads (GLevel 4) w c (TP PQuestion :: v ++ TP PColon :: u ++ r) -> reads GCond v a (TP PColon :: u ++ r) -> reads GCond u b r ->
  reads GCond (w ++ TP PQuestion :: v ++ TP PColon :: u) (ECond c a b) r.
Proof.
  intros Hc Ha Hb [|f] Hf; [cbn in Hf; lia|]. cbn [rank] in Hf. rewrite !length_app in Hf. cbn [length] in Hf. rewrite length_app in Hf. cbn [length] in Hf.
  rewrite <- app_assoc. cbn [app]. rewrite <- app_assoc. cbn [app parse].
  rewrite Hc by (cbn; lia). cbn [mbind option_bind]. rewrite Ha by (cbn; lia). cbn [mbind option_bind]. by rewrite Hb by (cbn; lia).
Qed.

Lemma reads_plain w e r :
  match r with TP PQuestion :: _ => false | _ => true end = true -> reads (GLevel 4) w e r -> reads GCond w e r.
Proof.
  intros Hr He [|f] Hf; [cbn in Hf; lia|]. cbn [parse]. rewrite He by (cbn in *; lia). cbn [mbind option_bind].
  destruct r as [|[| | |[]] r]; done.
Qed.

Lemma reads_last g acc w a r :
  reads GCond w a (TP PClose :: r) -> reads (GArgs g acc) (w ++ [TP PClose]) (ECall g (acc ++ [a])) r.
Proof.
  intros Ha [|f] Hf; [cbn in Hf; lia|]. cbn [rank] in Hf. rewrite length_app in Hf. cbn [length] in Hf.
  rewrite <- app_assoc. cbn [app parse]. by rewrite Ha by (cbn; lia).
Qed.

Lemma reads_more g acc w a v e r :
  reads GCond w a (TP PComma :: v ++ r) -> reads (GArgs g (acc ++ [a])) v e r -> reads (GArgs g acc) (w ++ TP PComma :: v) e r.
Proof.
  intros Ha Hv [|f] Hf; [cbn in Hf; lia|]. cbn [rank] in Hf. rewrite length_app in Hf. cbn [length] in Hf.
  rewrite <- app_assoc. cbn [app parse]. rewrite Ha by (cbn; lia). cbn [mbind option_bind]. by rewrite Hv by (cbn; lia).
Qed.

Lemma reads_call g w e r : reads (GArgs g []) w e r -> reads (GLevel 0) (TId g :: TP POpen :: w) e r.
Proof. intros H [|f] Hf; [cbn in Hf; lia|]. cbn [app parse]. by rewrite H by (cbn in *; lia). Qed.

Lemma reads_parse w e : reads GCond w e [] -> parse_expr w = Some e.
Proof. intros H. unfold parse_expr. rewrite <- (app_nil_r w) at 2. by rewrite H by (cbn; lia). Qed.
