(* ===== verification/TierExpr.v ===== *)
(** * Tier expressions ([src/web/default/src/features/pricing/lib/tier-expr.ts])

    The visual editor of tiered prices keeps a list of tiers and stores a text:
    [cond ? tier("a", p * 1 + c * 2) : tier("b", ...)].  The module models the
    normalisation of tiers, the generator of the text, the parser that reads a
    text back into tiers by regular expressions (and gives up when the text it
    would generate differs), and the local estimator that evaluates the text as
    JavaScript.  A tier's optional prices are an association list from the
    field names to numbers. *)
From S2P Require Import Prelude JsString JsNumber Json JsRegex JsRegexMatch BillingExpr.
Import BillingExpr.
Local Open Scope Z_scope.

Module TierExpr.
#[local] Arguments js : simpl never.

(** ** Data *)
Inductive CacheMode := CACHE_MODE_TIMED | CACHE_MODE_GENERIC.
#[global] Instance CacheMode_eq_dec : EqDecision CacheMode.
Proof. solve_decision. Defined.

(** [number | string] *)
Inductive CondValue := VNum (n : num) | VStr (s : jsstr).

Record TierConditionInput := mkCond { cvar : jsstr; cop : jsstr; cvalue : CondValue }.

(** [Partial<VisualTier>]: a property the object does not have is [None]. *)
Record PartialTier := mkPartial {
  p_label : option jsstr; p_conditions : option (list TierConditionInput);
  p_input : option num; p_output : option num; p_cache_mode : option CacheMode;
  p_extra : list (jsstr * num) }.

Record VisualTier := mkVTier {
  v_label : jsstr; v_conditions : list TierConditionInput;
  input_unit_cost : num; output_unit_cost : num; cache_mode : CacheMode;
  v_extra : list (jsstr * num) }.

Record VisualConfig := mkConfig { tiers : list VisualTier }.

Definition partial_of (t : VisualTier) : PartialTier :=
  mkPartial (Some (v_label t)) (Some (v_conditions t)) (Some (input_unit_cost t)) (Some (output_unit_cost t))
    (Some (cache_mode t)) (v_extra t).

(** [Number(x) || 0], of a number or [undefined]. *)
Definition num_or0 (x : option num) : num :=
  match x with Some n => if num_truthy n then n else num_zero | None => num_zero end.

(** ** Normalisation *)
Definition f_cc1h : jsstr := js "cache_create_1h_unit_cost".
Definition EXTRA_FIELDS : list jsstr :=
  [js "cache_read_unit_cost"; js "cache_create_unit_cost"; f_cc1h; js "image_unit_cost";
   js "image_output_unit_cost"; js "audio_input_unit_cost"; js "audio_output_unit_cost"].

Definition getTierCacheMode (tier : option PartialTier) : CacheMode :=
  match tier with
  | Some t =>
      match p_cache_mode t with
      | Some m => m
      | None =>
          match map_get f_cc1h (p_extra t) with
          | Some n => if num_ltb num_zero n then CACHE_MODE_TIMED else CACHE_MODE_GENERIC
          | None => CACHE_MODE_GENERIC
          end
      end
  | None => CACHE_MODE_GENERIC
  end.

(** The spread keeps a price of input or output that is there as it is; the
    other prices are replaced by [Number(x) || 0]. *)
Definition normalizeVisualTier (tier : PartialTier) : VisualTier :=
  mkVTier (default [] (p_label tier)) (default [] (p_conditions tier))
    (default (num_or0 (p_input tier)) (p_input tier)) (default (num_or0 (p_output tier)) (p_output tier))
    (getTierCacheMode (Some tier))
    (map (fun f => (f, num_or0 (map_get f (p_extra tier)))) EXTRA_FIELDS).

Definition createDefaultVisualConfig : VisualConfig :=
  mkConfig [normalizeVisualTier (mkPartial (Some (js "base")) (Some []) (Some num_zero) (Some num_zero) (Some CACHE_MODE_GENERIC) [])].

Definition normalizeVisualConfig (config : option VisualConfig) : VisualConfig :=
  match config with
  | None => createDefaultVisualConfig
  | Some c =>
      match tiers c with
      | [] => createDefaultVisualConfig
      | ts => mkConfig (map (fun t => normalizeVisualTier (partial_of t)) ts)
      end
  end.

(** ** Generation *)
Definition value_text (v : CondValue) : jsstr := match v with VNum n => num_to_string n | VStr s => s end.

Definition cond_complete (c : TierConditionInput) : bool :=
  truthy (cvar c) && truthy (cop c) && match cvalue c with VStr [] => false | _ => true end.

Definition cond_text (c : TierConditionInput) : jsstr := cvar c ++ js " " ++ cop c ++ js " " ++ value_text (cvalue c).

Definition buildConditionStr (conditions : list TierConditionInput) : jsstr :=
  join (js " && ") (map cond_text (List.filter cond_complete conditions)).

Definition price_text (var : jsstr) (n : num) : jsstr := var ++ js " * " ++ num_to_string n.

Definition extra_parts (extra : list (jsstr * num)) : list jsstr :=
  flat_map (fun cv : jsstr * jsstr =>
    let v := num_or0 (map_get cv.1 extra) in
    if num_truthy v then [price_text cv.2 v] else []) BILLING_CACHE_VAR_MAP.

Definition buildTierBodyExpr (tier : VisualTier) : jsstr :=
  join (js " + ")
    (price_text (js "p") (num_or0 (Some (input_unit_cost tier))) ::
     price_text (js "c") (num_or0 (Some (output_unit_cost tier))) :: extra_parts (v_extra tier)).

Definition tier_call (label body : jsstr) : jsstr :=
  js "tier(" ++ quote_c ++ label ++ quote_c ++ js ", " ++ body ++ js ")".

Definition FREE : jsstr := js "p * 0 + c * 0".

(** The tiers after the first [i], of [n]: a condition counts except on the last. *)
Fixpoint tier_parts (i : nat) (ts : list VisualTier) : list jsstr :=
  match ts with
  | [] => []
  | tier :: rest =>
      let label := str_or (v_label tier) (js "tier_" ++ string_of_Z (Z.of_nat i + 1)) in
      let body := tier_call label (buildTierBodyExpr tier) in
      let cond := buildConditionStr (v_conditions tier) in
      (match rest with
       | _ :: _ => if truthy cond then cond ++ js " ? " ++ body else body
       | [] => body
       end) :: tier_parts (S i) rest
  end.

Definition generateExprFromVisualConfig (config : option VisualConfig) : jsstr :=
  match config with
  | None => FREE
  | Some c =>
      match tiers c with
      | [] => FREE
      | [tier] =>
          let label := str_or (v_label tier) (js "default") in
          let body := tier_call label (buildTierBodyExpr tier) in
          let cond := buildConditionStr (v_conditions tier) in
          if truthy cond then cond ++ js " ? " ++ body ++ js " : " ++ FREE else body
      | ts => join (js " : ") (tier_parts 0 ts)
      end
  end.

(** ** Parsing *)
Definition version_re : regex :=
  RSeq (RStart false) (rseq [rlit (js "v"); rplus (RChar is_digit); rlit (js ":"); RGroup 1 (RStar rany); REnd false]).

(** An optional further price, its group numbered [n]. *)
Definition opt_price_re (n : nat) (var : jsstr) : regex :=
  ropt (rseq [rws; rlit (js "+"); rws; rlit var; rws; rlit (js "*"); rws; RGroup n rnum]).

Fixpoint opt_prices_re (n : nat) (vars : list jsstr) (R : regex) : regex :=
  match vars with
  | [] => R
  | v :: vars => RSeq (opt_price_re n v) (opt_prices_re (S n) vars R)
  end.

(** The prices with the groups numbered from [n], then [R]. *)
Definition body_re (n : nat) (R : regex) : regex :=
  rseq [rlit (js "p"); rws; rlit (js "*"); rws; RGroup n rnum; rws; rlit (js "+"); rws; rlit (js "c"); rws; rlit (js "*"); rws;
        RGroup (S n) rnum; opt_prices_re (S (S n)) (map snd BILLING_CACHE_VAR_MAP) R].

(** The call of [tier], the label's group numbered [n]. *)
Definition call_re (n : nat) (R : regex) : regex :=
  rseq [rlit (js "tier(" ++ quote_c); RGroup n (RStar (RChar not_quote)); rlit (quote_c ++ js ","); rws; body_re (S n) R].

Definition singleRe : regex := RSeq (RStart false) (call_re 1 (rseq [rlit (js ")"); REnd false])).

Definition condGroup : regex := RSeq rone_cond (RStar (rseq [rws; rlit (js "&&"); rws; rone_cond])).

Definition visualTierRe : regex :=
  RSeq (ropt (rseq [RGroup 1 condGroup; rws; rlit (js "?"); rws])) (call_re 2 (rlit (js ")"))).

Definition and_re : regex := rseq [rws; rlit (js "&&"); rws].

Definition readCondition (cp : jsstr) : option TierConditionInput :=
  match parseTierCondition cp with
  | Some c => Some (mkCond (tvar c) (op c) (VNum (tvalue c)))
  | None => None
  end.

Definition readConditions (condStr : jsstr) : list TierConditionInput :=
  if truthy condStr then omap readCondition (regex_split and_re condStr) else [].

(** The optional prices of a match: the groups from [n] that took part. *)
Fixpoint readExtra (n : nat) (vars : list (jsstr * jsstr)) (m : list (nat * jsstr)) : list (jsstr * num) :=
  match vars with
  | [] => []
  | cv :: vars =>
      match map_get n m with
      | Some val => (cv.1, num_of_string val) :: readExtra (S n) vars m
      | None => readExtra (S n) vars m
      end
  end.

(** The tier of a match whose label is group [n]. *)
Definition readTier (n : nat) (conds : list TierConditionInput) (m : list (nat * jsstr)) : VisualTier :=
  normalizeVisualTier (mkPartial (Some (cap n m)) (Some conds)
    (Some (num_of_string (cap (S n) m))) (Some (num_of_string (cap (S (S n)) m))) None
    (readExtra (S (S (S n))) BILLING_CACHE_VAR_MAP m)).

Definition tryParseVisualConfig (exprStr : jsstr) : option VisualConfig :=
  if negb (truthy exprStr) then None
  else
    let body := match match_at_start version_re exprStr with Some m => cap 1 m | None => exprStr end in
    match match_at_start singleRe body with
    | Some simple => Some (normalizeVisualConfig (Some (mkConfig [readTier 1 [] simple])))
    | None =>
        match map (fun x : jsstr * rstate => readTier 2 (readConditions (cap 1 (caps x.2))) (caps x.2)) (matchAll visualTierRe body) with
        | [] => None
        | ts =>
            let cfg := normalizeVisualConfig (Some (mkConfig ts)) in
            if bool_decide (remove_ws (generateExprFromVisualConfig (Some cfg)) = remove_ws body) then Some cfg else None
        end
    end.

Definition two_tiers : jsstr :=
  js "len <= 272000 && c < 5 ? " ++ tier_call (js "standard") (js "p * 2.5 + c * 15 + cr * 0.25") ++ js " : "
  ++ tier_call (js "long_context") (js "p * 5 + c * 22.5 + cr * 0.5").

Example parse_two :
  match tryParseVisualConfig two_tiers with
  | Some c => map v_label (tiers c) = [js "standard"; js "long_context"] /\ generateExprFromVisualConfig (Some c) = two_tiers
  | None => False
  end.
Proof. vm_compute. done. Qed.

(** ** Texts the parser reads *)
Definition reads_as (p : Z -> bool) (n : num) : bool :=
  truthy (num_to_string n) && forallb p (num_to_string n) && bool_decide (num_of_string (num_to_string n) = n).

(** A price whose text is a number of the expression and reads back. *)
Definition cost_ok (n : num) : bool := reads_as num_char n.

Definition cond_vars : list jsstr := [js "p"; js "c"; js "len"].
Definition OPS : list jsstr := [js "<"; js "<="; js ">"; js ">="].

Definition cond_ok (c : TierConditionInput) : bool :=
  bool_decide (cvar c ∈ cond_vars) && bool_decide (cop c ∈ OPS) &&
  match cvalue c with VNum n => reads_as tier_num_char n | VStr _ => false end.

Definition extra_ok (extra : list (jsstr * num)) : bool :=
  forallb (fun f => cost_ok (num_or0 (map_get f extra))) EXTRA_FIELDS.

Definition tier_ok (t : VisualTier) : bool :=
  truthy (v_label t) && forallb not_quote (v_label t) && cost_ok (input_unit_cost t) && cost_ok (output_unit_cost t)
  && extra_ok (v_extra t) && forallb cond_ok (v_conditions t).

(** Every tier but the last has a condition; of several tiers, the last has none. *)
Fixpoint chain_ok (ts : list VisualTier) : bool :=
  match ts with
  | [] => false
  | [t] => match v_conditions t with [] => true | _ => false end
  | t :: ts => match v_conditions t with [] => false | _ => chain_ok ts end
  end.

Definition config_ok (c : VisualConfig) : bool :=
  forallb tier_ok (tiers c) && match tiers c with [_] => true | ts => chain_ok ts end.

(** What the text keeps of a tier: the cache mode is derived from the prices. *)
Definition canonical_tier (t : VisualTier) : VisualTier :=
  normalizeVisualTier (mkPartial (Some (v_label t)) (Some (v_conditions t)) (Some (input_unit_cost t)) (Some (output_unit_cost t))
    None (v_extra t)).
Definition canonical_config (c : VisualConfig) : VisualConfig := mkConfig (map canonical_tier (tiers c)).

(** ** Lemmas: numbers and prices *)
Lemma reads_as_spec p n : reads_as p n = true ->
  num_to_string n <> [] /\ forallb p (num_to_string n) = true /\ num_of_string (num_to_string n) = n.
Proof. unfold reads_as. intros H. bool_to_prop. split; [by destruct (num_to_string n) | done]. Qed.

Definition stops (p : Z -> bool) (t : jsstr) : bool := match t with [] => true | c :: _ => negb (p c) end.

Lemma eats_ws1 t : stops is_ws t = true -> eats rws (js " ") t [].
Proof. intros H. by apply eats_star. Qed.

Lemma eats_ws0 t : stops is_ws t = true -> eats rws [] t [].
Proof. intros H. by apply eats_star. Qed.

Lemma eats_number n t m : reads_as num_char m = true -> stops num_char t = true ->
  eats (RGroup n rnum) (num_to_string m) t [(n, num_to_string m)].
Proof.
  intros (Hne & Hc & _)%reads_as_spec Ht. apply (eats_group n rnum (num_to_string m) t []). by apply eats_plus.
Qed.

Lemma num_head p n t : (forall c, p c = true -> is_ws c = false) -> reads_as p n = true -> stops is_ws (num_to_string n ++ t) = true.
Proof.
  intros Hp (Hne & Hc & _)%reads_as_spec. destruct (num_to_string n) as [|c u]; [done|]. cbn in *.
  apply andb_prop in Hc as [Hc _]. by rewrite (Hp c Hc).
Qed.

(** [\s*] around an operator. *)
Lemma eats_infix o T v t cs :
  starts_ok o = true -> stops is_ws (v ++ t) = true -> eats T v t cs ->
  eats (RSeq rws (RSeq (rlit o) (RSeq rws T))) (js " " ++ o ++ js " " ++ v) t cs.
Proof.
  intros H1 H2 HT. apply (eats_seq _ _ (js " ") _ t [] cs).
  { apply eats_ws1. by destruct o. }
  apply (eats_seq _ _ o _ t [] cs); [by apply eats_lit|].
  apply (eats_seq _ _ (js " ") _ t [] cs); [by apply eats_ws1 | done].
Qed.

Lemma eats_times n m R w t cs :
  cost_ok m = true -> stops num_char (w ++ t) = true -> eats R w t cs ->
  eats (RSeq rws (RSeq (rlit (js "*")) (RSeq rws (RSeq (RGroup n rnum) R)))) (js " * " ++ num_to_string m ++ w) t ((n, num_to_string m) :: cs).
Proof.
  intros Hm Ht HR. apply (eats_infix (js "*") _ (num_to_string m ++ w) t); [done | |].
  - rewrite <- app_assoc. by apply (num_head num_char); [apply num_not_ws|].
  - apply (eats_seq _ _ (num_to_string m) w t [(n, num_to_string m)] cs); [by apply eats_number | done].
Qed.

Lemma eats_times_end n m t :
  cost_ok m = true -> stops num_char t = true ->
  eats (RSeq rws (RSeq (rlit (js "*")) (RSeq rws (RGroup n rnum)))) (js " * " ++ num_to_string m) t [(n, num_to_string m)].
Proof.
  intros Hm Ht. apply (eats_infix (js "*") _ (num_to_string m) t); [done | |].
  - by apply (num_head num_char); [apply num_not_ws|].
  - by apply eats_number.
Qed.

(** ** Lemmas: optional prices *)
(** The price of each variable, printed when it is not zero. *)
Definition opt_text (vs : list (jsstr * num)) : jsstr :=
  concat (map (fun p => if num_truthy p.2 then js " + " ++ price_text p.1 p.2 else []) vs).

Fixpoint opt_caps (n : nat) (vs : list (jsstr * num)) : list (nat * jsstr) :=
  match vs with
  | [] => []
  | (_, m) :: vs => (if num_truthy m then [(n, num_to_string m)] else []) ++ opt_caps (S n) vs
  end.

(** A pattern for a variable refuses the price of each later one and the end. *)
Definition price_re (n : nat) (var : jsstr) : regex :=
  rseq [rws; rlit (js "+"); rws; rlit var; rws; rlit (js "*"); rws; RGroup n rnum].

Fixpoint separated (vars : list jsstr) : bool :=
  match vars with
  | [] => true
  | v :: vars =>
      starts_ok v &&
      forallb (fun v' => refused_by (price_re 0 v) (js " + " ++ v' ++ js " * ")) vars && refused_by (price_re 0 v) (js ")") && separated vars
  end.

Lemma refused_any_group n v pre : refused_by (price_re 0 v) pre = true -> refused_by (price_re n v) pre = true.
Proof. done. Qed.

Lemma refuses_later n v vs t :
  forallb (fun v' => refused_by (price_re 0 v) (js " + " ++ v' ++ js " * ")) (map fst vs) = true ->
  refused_by (price_re 0 v) (js ")") = true -> refuses (price_re n v) (opt_text vs ++ js ")" ++ t).
Proof.
  intros Hv Hend. induction vs as [|[v' m] vs IH].
  - apply (refused_by_sound _ (js ")")). exact Hend.
  - cbn in Hv. apply andb_prop in Hv as [H1 H2]. unfold opt_text. cbn [map concat fst snd].
    fold (opt_text vs). destruct (num_truthy m); [|by apply IH].
    replace ((js " + " ++ price_text v' m) ++ opt_text vs) with ((js " + " ++ v' ++ js " * ") ++ num_to_string m ++ opt_text vs)
      by (unfold price_text; by rewrite <- !app_assoc).
    rewrite <- app_assoc.
    apply (refused_by_sound _ (js " + " ++ v' ++ js " * ")). exact H1.
Qed.

Lemma opt_text_stops vs t : stops num_char (opt_text vs ++ js ")" ++ t) = true.
Proof. induction vs as [|[v m] vs IH]; [done|]. unfold opt_text. cbn [map concat fst snd]. by destruct (num_truthy m). Qed.

Lemma eats_opt_prices n vs R t cs :
  separated (map fst vs) = true -> forallb (fun p => cost_ok p.2) vs = true -> eats R (js ")") t cs ->
  eats (opt_prices_re n (map fst vs) R) (opt_text vs ++ js ")") t (opt_caps n vs ++ cs).
Proof.
  intros Hs Hc HR. revert n Hs Hc. induction vs as [|[v m] vs IH]; intros n Hs Hc; [done|].
  cbn in Hs, Hc. bool_to_prop. cbn [map opt_prices_re opt_caps fst]. unfold opt_text. cbn [map concat fst snd]. fold (opt_text vs).
  rewrite <- !app_assoc. apply eats_seq; [|by apply IH]. unfold opt_price_re, ropt. fold (price_re n v).
  destruct (num_truthy m).
  - apply eats_alt_l. unfold price_text. change (js " + ") with (js " " ++ js "+" ++ js " "). rewrite <- !app_assoc.
    apply (eats_infix (js "+") _ (v ++ js " * " ++ num_to_string m)); [done | |].
    + destruct v as [|c v]; [done|]. done.
    + apply (eats_seq _ _ v _ _ [] [(n, num_to_string m)]); [by apply eats_lit|].
      apply eats_times_end; [done | apply opt_text_stops].
  - apply eats_alt_r; [|apply eats_eps]. rewrite app_nil_l, <- app_assoc. by apply refuses_later.
Qed.

Lemma vars_separated : separated (map snd BILLING_CACHE_VAR_MAP) = true.
Proof. vm_compute. reflexivity. Qed.

(** ** Lemmas: one tier *)
Lemma join_concat sep x l : join sep (x :: l) = x ++ concat (map (app sep) l).
Proof.
  revert x. induction l as [|y l IH]; intros x; [symmetry; apply app_nil_r|]. change (join sep (x :: y :: l)) with (x ++ sep ++ join sep (y :: l)).
  rewrite IH. cbn [map concat]. by rewrite <- app_assoc.
Qed.

(** The optional prices of a tier, by variable. *)
Definition tier_extra (extra : list (jsstr * num)) : list (jsstr * num) :=
  map (fun cv : jsstr * jsstr => (cv.2, num_or0 (map_get cv.1 extra))) BILLING_CACHE_VAR_MAP.

Lemma extra_parts_text extra : concat (map (app (js " + ")) (extra_parts extra)) = opt_text (tier_extra extra).
Proof.
  unfold extra_parts, opt_text, tier_extra. induction BILLING_CACHE_VAR_MAP as [|cv l IH]; [done|].
  cbn [flat_map map concat fst snd]. destruct (num_truthy _); cbn [app map concat]; by rewrite IH.
Qed.

Lemma num_or0_idemp x : num_or0 (Some (num_or0 x)) = num_or0 x.
Proof. destruct x as [n|]; [|done]. cbn. by destruct (num_truthy n) eqn:E; cbn; [rewrite E|]. Qed.

(** A readable price is not a negative zero. *)
Lemma cost_ok_or0 n : cost_ok n = true -> num_or0 (Some n) = n.
Proof. intros (_ & Hc & Hr)%reads_as_spec. destruct n as [[|]| | |]; done. Qed.

Lemma body_text t :
  cost_ok (input_unit_cost t) = true -> cost_ok (output_unit_cost t) = true ->
  buildTierBodyExpr t = js "p" ++ js " * " ++ num_to_string (input_unit_cost t) ++ js " + " ++ js "c" ++ js " * "
    ++ num_to_string (output_unit_cost t) ++ opt_text (tier_extra (v_extra t)).
Proof.
  intros Hi Ho. unfold buildTierBodyExpr. rewrite !cost_ok_or0 by done. rewrite join_concat. cbn [map concat].
  rewrite extra_parts_text. unfold price_text. by rewrite <- !app_assoc.
Qed.

Definition call_caps (n : nat) (t : VisualTier) : list (nat * jsstr) :=
  (n, v_label t) :: (S n, num_to_string (input_unit_cost t)) :: (S (S n), num_to_string (output_unit_cost t))
  :: opt_caps (S (S (S n))) (tier_extra (v_extra t)).

Lemma extra_ok_costs extra : extra_ok extra = true -> forallb (fun p : jsstr * num => cost_ok p.2) (tier_extra extra) = true.
Proof. done. Qed.

Lemma eats_body n t R u cs :
  tier_ok t = true -> eats R (js ")") u cs ->
  eats (body_re n R) (buildTierBodyExpr t ++ js ")") u
    ((n, num_to_string (input_unit_cost t)) :: (S n, num_to_string (output_unit_cost t)) :: opt_caps (S (S n)) (tier_extra (v_extra t)) ++ cs).
Proof.
  unfold tier_ok. intros H HR. bool_to_prop. rewrite body_text by done. rewrite <- !app_assoc.
  unfold body_re. cbn [rseq].
  apply (eats_seq _ _ (js "p") _ u []); [by apply eats_lit|].
  apply eats_times; [done | done |].
  apply (eats_infix (js "+") _ (js "c" ++ js " * " ++ num_to_string (output_unit_cost t) ++ opt_text (tier_extra (v_extra t)) ++ js ")")); [done | done |].
  apply (eats_seq _ _ (js "c") _ u []); [by apply eats_lit|].
  apply eats_times; [done | rewrite <- app_assoc; apply opt_text_stops |].
  apply (eats_opt_prices (S (S n)) (tier_extra (v_extra t)) R u cs); [apply vars_separated | by apply extra_ok_costs | done].
Qed.

Lemma eats_call n t R u cs :
  tier_ok t = true -> eats R (js ")") u cs ->
  eats (call_re n R) (tier_call (v_label t) (buildTierBodyExpr t)) u (call_caps n t ++ cs).
Proof.
  intros Ht HR. pose proof Ht as H. unfold tier_ok in H. bool_to_prop. unfold call_re, tier_call. cbn [rseq].
  rewrite app_assoc. apply (eats_seq _ _ (js "tier(" ++ quote_c) _ u []); [by apply eats_lit|].
  unfold call_caps. apply (eats_seq _ _ (v_label t) _ u [(n, v_label t)]).
  - apply (eats_group n _ (v_label t) _ []). by apply eats_star.
  - change (js ", ") with (js "," ++ js " "). rewrite <- app_assoc, (app_assoc quote_c).
    apply (eats_seq _ _ (quote_c ++ js ",") _ u []); [by apply eats_lit|].
    apply (eats_seq _ _ (js " ") _ u []); [apply eats_ws1 | by apply eats_body].
    rewrite body_text by done. done.
Qed.

(** ** Lemmas: conditions *)
Definition cond_num (c : TierConditionInput) : jsstr := value_text (cvalue c).

Lemma cond_ok_spec c : cond_ok c = true ->
  cvar c ∈ cond_vars /\ cop c ∈ OPS /\
  exists n, cvalue c = VNum n /\ cond_num c <> [] /\ forallb tier_num_char (cond_num c) = true /\ num_of_string (cond_num c) = n.
Proof.
  unfold cond_ok, cond_num. intros H. bool_to_prop. split; [done|]. split; [done|].
  destruct (cvalue c) as [n|s]; [|done]. exists n. split; [done|]. by apply reads_as_spec.
Qed.

Lemma tier_num_not_ws c : tier_num_char c = true -> is_ws c = false.
Proof.
  intros H. apply num_not_ws. revert H. unfold tier_num_char, num_char. intros H.
  repeat (apply orb_prop in H as [H|H]; [|by rewrite H, ?orb_true_r]). by rewrite H.
Qed.

Lemma cond_num_stops c t : cond_ok c = true -> stops is_ws (cond_num c ++ t) = true.
Proof.
  intros (_ & _ & n & _ & Hne & Hc & _)%cond_ok_spec. destruct (cond_num c) as [|d u]; [done|]. cbn in *.
  apply andb_prop in Hc as [Hc _]. by rewrite tier_num_not_ws.
Qed.

(** Only one variable begins the text; after a shorter operator a number does
    not start. *)
Ltac each_alt :=
  repeat match goal with
  | |- Forall _ (_ :: _) => apply Forall_cons; split
  | |- Forall _ [] => apply Forall_nil
  end.

Lemma var_only s R u : s ∈ cond_vars -> only_alt cond_vars s R (js " " ++ u).
Proof.
  intros Hs. unfold only_alt, cond_vars in *.
  repeat (apply elem_of_cons in Hs as [->|Hs]); [| | |by apply not_elem_of_nil in Hs];
    each_alt; try exact I; first [left; reflexivity | right; intros u' E; vm_compute in E; discriminate E].
Qed.

Lemma op_only s R u : s ∈ OPS -> (forall t, refuses R (js "=" ++ t)) -> only_alt OPS s R (js " " ++ u).
Proof.
  intros Hs HR. unfold only_alt, OPS in *.
  repeat (apply elem_of_cons in Hs as [->|Hs]); [| | | |by apply not_elem_of_nil in Hs];
    each_alt; try exact I; first [left; reflexivity | right; intros u' E; vm_compute in E; discriminate E |
      right; intros u' E; vm_compute in E; injection E as <-; apply (HR (js " " ++ u))].
Qed.

Lemma eats_num_run c t : cond_ok c = true -> stops tier_num_char t = true -> eats rtier_num (cond_num c) t [].
Proof. intros (_ & _ & n & _ & Hne & Hc & _)%cond_ok_spec Ht. by apply eats_plus. Qed.

Lemma eats_cond c t : cond_ok c = true -> stops tier_num_char t = true -> eats rone_cond (cond_text c) t [].
Proof.
  intros Hc Ht. pose proof (cond_ok_spec c Hc) as (Hv & Ho & _). unfold rone_cond, cond_text. cbn [rseq]. fold (cond_num c).
  apply eats_alts; [exact Hv | | apply var_only, Hv].
  apply (eats_seq _ _ (js " ") _ t [] []).
  { apply eats_ws1. unfold OPS in Ho. repeat (apply elem_of_cons in Ho as [->|Ho]); [done.. | by apply not_elem_of_nil in Ho]. }
  apply eats_alts; [exact Ho | | apply op_only; [exact Ho|]].
  - apply (eats_seq _ _ (js " ") _ t [] []); [apply eats_ws1; by apply cond_num_stops | by apply eats_num_run].
  - intros u. by apply (refused_by_sound _ (js "=")).
Qed.

(** A text of conditions: the pieces between [" && "]. *)
Definition conds_text (cs : list TierConditionInput) : jsstr := join (js " && ") (map cond_text cs).

Lemma conds_text_cons c cs : conds_text (c :: cs) = cond_text c ++ concat (map (fun c => js " && " ++ cond_text c) cs).
Proof. unfold conds_text. cbn [map]. rewrite join_concat, map_map. done. Qed.

Lemma cond_var_head c : cond_ok c = true -> exists d u, cond_text c = d :: u /\ d ∈ [112; 99; 108] /\ starts_ok (cond_text c) = true.
Proof.
  intros (Hv & _)%cond_ok_spec. unfold cond_text, cond_vars in *.
  repeat (apply elem_of_cons in Hv as [->|Hv]); [..|by apply not_elem_of_nil in Hv]; eexists _, _; (split; [reflexivity|]); split; [set_solver | done | set_solver | done | set_solver | done].
Qed.

Lemma and_stops cs t : stops tier_num_char t = true -> stops tier_num_char (concat (map (fun c => js " && " ++ cond_text c) cs) ++ t) = true.
Proof. by destruct cs. Qed.

Lemma eats_conds c cs u :
  forallb cond_ok (c :: cs) = true -> eats condGroup (conds_text (c :: cs)) (js " ? " ++ u) [].
Proof.
  cbn [forallb]. intros [Hc Hcs]%andb_prop. set (t := js " ? " ++ u). assert (Ht : stops tier_num_char t = true) by done. rewrite conds_text_cons. unfold condGroup.
  apply (eats_seq _ _ _ _ t [] []); [apply eats_cond; [done | by apply and_stops] |].
  apply eats_star_iter.
  - apply Forall_forall. intros w Hw. apply list_elem_of_fmap in Hw as (d & -> & _). done.
  - intros i w Hi. apply list_lookup_fmap_Some in Hi as (d & -> & Hd).
    assert (Hok : cond_ok d = true). { rewrite forallb_forall in Hcs. apply Hcs, list_elem_of_In. by eapply list_elem_of_lookup_2. }
    change (js " && ") with (js " " ++ js "&&" ++ js " "). rewrite <- !app_assoc. cbn [rseq].
    apply eats_infix; [done | destruct (cond_var_head d Hok) as (x & y & E & _ & Hs); by rewrite E in * |].
    rewrite skipn_map. apply eats_cond; [done | by apply and_stops].
  - by apply (refused_by_sound _ (js " ?") (js " " ++ u)).
Qed.

(** ** Lemmas: splitting conditions *)
Lemma ws_split v u w d r :
  v ++ u = w ++ d :: r -> forallb is_ws v = true -> is_ws d = false -> exists w', u = w' ++ d :: r /\ w = v ++ w'.
Proof.
  revert w. induction v as [|x v IH]; intros w E Hv Hd; [by exists w|]. cbn in Hv. apply andb_prop in Hv as [Hx Hv].
  destruct w as [|y w]; cbn in E; injection E as -> E; [by rewrite Hd in Hx|].
  destruct (IH w E Hv Hd) as (w' & -> & ->). by exists w'.
Qed.

(** The separator does not start in a text without [&] whose end is no space. *)
Lemma and_refused b t : no_char 38 b = true -> ends_ok b = true -> refuses and_re (b ++ t).
Proof.
  intros Hn He. assert (Hb : exists w d r, b = w ++ d :: r /\ is_ws d = false /\ forallb is_ws w = true).
  { exists (take_while is_ws b). pose proof (take_drop_while is_ws b) as E. pose proof (drop_while_head is_ws b) as Hd.
    destruct (drop_while is_ws b) as [|d r] eqn:Ed.
    - exfalso. rewrite app_nil_r in E. unfold ends_ok in He. pose proof (forallb_take_while is_ws b) as Hw. rewrite E in Hw.
      rewrite <- forallb_rev in Hw. destruct (rev b) as [|c u]; [done|]. cbn in Hw. by destruct (is_ws c).
    - exists d, r. split; [done|]. split; [by apply negb_true_iff in Hd | apply forallb_take_while]. }
  destruct Hb as (w & d & r & -> & Hd & Hw). apply (refuses_star is_ws). intros v u E Hv.
  rewrite <- app_assoc in E. symmetry in E. apply ws_split in E as (w' & -> & ->); [|done..].
  rewrite !no_char_app in Hn. apply andb_prop in Hn as [[_ Hn1]%andb_prop Hn2]. apply refuses_seq_l.
  assert (Hne : forall x y, no_char 38 (x :: y) = true -> 38 <> x).
  { intros x y H. cbn in H. apply andb_prop in H as [H _]. by apply negb_true_iff, Z.eqb_neq in H. }
  destruct w' as [|c w']; apply (refuses_lit_head 38); by eapply Hne.
Qed.

Lemma ends_ok_suffix a b : b <> [] -> ends_ok (a ++ b) = true -> ends_ok b = true.
Proof.
  unfold ends_ok. rewrite rev_app_distr. intros Hb. destruct (rev b) as [|c u] eqn:E; [|done].
  by apply (f_equal (@rev Z)) in E; rewrite rev_involutive in E.
Qed.

Lemma tier_num_facts s : forallb tier_num_char s = true -> no_char 38 s = true /\ (s <> [] -> ends_ok s = true).
Proof.
  intros H. split.
  - unfold no_char. rewrite forallb_forall in *. intros c Hc. specialize (H c Hc). unfold tier_num_char, is_digit in H.
    apply negb_true_iff, Z.eqb_neq. intros ->. done.
  - intros Hs. unfold ends_ok. rewrite <- forallb_rev in H. destruct (rev s) as [|c u] eqn:E.
    + by apply (f_equal (@rev Z)) in E; rewrite rev_involutive in E.
    + cbn in H. apply andb_prop in H as [H _]. by rewrite (tier_num_not_ws c H).
Qed.

Lemma cond_text_facts c : cond_ok c = true -> no_char 38 (cond_text c) = true /\ ends_ok (cond_text c) = true.
Proof.
  intros (Hv & Ho & n & _ & Hne & Hn & _)%cond_ok_spec. apply tier_num_facts in Hn as [Hn He]. unfold cond_text. fold (cond_num c). split.
  - rewrite !no_char_app, Hn. unfold cond_vars, OPS in *.
    repeat (apply elem_of_cons in Hv as [->|Hv]); [..|by apply not_elem_of_nil in Hv];
      (repeat (apply elem_of_cons in Ho as [->|Ho]); [..|by apply not_elem_of_nil in Ho]); done.
  - rewrite !app_assoc. apply ends_ok_app, He, Hne.
Qed.

Lemma and_refused_in c a b t : cond_ok c = true -> cond_text c = a ++ b -> b <> [] -> refuses and_re (b ++ t).
Proof.
  intros [Hn He]%cond_text_facts E Hb. rewrite E in *. rewrite no_char_app in Hn. bool_to_prop.
  apply and_refused; [done | by apply ends_ok_suffix in He].
Qed.

Definition and_tail (cs : list TierConditionInput) : jsstr := concat (map (fun c => js " && " ++ cond_text c) cs).

Lemma eats_and c cs : cond_ok c = true -> eats and_re (js " && ") (cond_text c ++ and_tail cs) [].
Proof.
  intros (d & u & E & _ & Hs)%cond_var_head. unfold and_re. cbn [rseq]. change (js " && ") with (js " " ++ js "&&" ++ js " ").
  apply (eats_seq _ _ (js " ") _ _ [] []); [by apply eats_ws1|].
  apply (eats_seq _ _ (js "&&") _ _ [] []); [by apply eats_lit|]. apply eats_ws1. by rewrite E in *.
Qed.

Lemma split_conds_loop cs : forall c fuel p parts, forallb cond_ok (c :: cs) = true -> (length cs <= fuel)%nat ->
  let '(cur, parts') := fold_left (fun '(cur, parts) (x : jsstr * rstate) => (rest x.2, parts ++ [take (length cur - length x.1) cur]))
    (exec_all fuel and_re p (cond_text c ++ and_tail cs)) (cond_text c ++ and_tail cs, parts) in
  parts' ++ [cur] = parts ++ map cond_text (c :: cs).
Proof.
  induction cs as [|d cs IH]; intros c fuel p parts Hok Hf; cbn [forallb] in Hok; apply andb_prop in Hok as [Hc Hcs].
  - cbn [and_tail map concat]. rewrite app_nil_r. destruct fuel as [|fuel]; [done|]. cbn [exec_all].
    rewrite exec_from_none; [done|]. intros a b E. destruct (decide (b = [])) as [->|Hb].
    + apply (refuses_star is_ws). intros v u Ev _. symmetry in Ev. apply app_eq_nil in Ev as [_ ->].
      apply refuses_seq_l. intros A st k Er. by rewrite rmatch_lit, Er.
    + rewrite <- (app_nil_r b). by eapply and_refused_in.
  - destruct fuel as [|fuel]; [cbn in Hf; lia|]. pose proof Hcs as Hcs'. cbn [forallb] in Hcs'. apply andb_prop in Hcs' as [Hd _].
    change (and_tail (d :: cs)) with ((js " && " ++ cond_text d) ++ and_tail cs). rewrite <- (app_assoc (js " && ")). cbn [exec_all].
    rewrite exec_from_skip by (intros a b E Hb; exact (and_refused_in c a b _ Hc E Hb)).
    rewrite (exec_from_eats and_re _ _ _ [] (eats_and d cs Hd)). cbn [rest with_caps].
    rewrite (proj2 (Nat.ltb_lt _ _)) by (rewrite !length_app; change (length (js " && ")) with 4%nat; lia). cbn [fold_left rest snd fst].
    replace (take _ (cond_text c ++ js " && " ++ cond_text d ++ and_tail cs)) with (cond_text c).
    + match goal with |- context [exec_all fuel and_re ?q _] => specialize (IH d fuel q (parts ++ [cond_text c]) Hcs) end.
      cbn [length] in Hf. specialize (IH ltac:(lia)). destruct (fold_left _ _ _) as [cur parts']. rewrite IH. cbn [map]. by rewrite <- app_assoc.
    + rewrite length_app. replace (_ + _ - _)%nat with (length (cond_text c)) by lia. by rewrite take_app_length.
Qed.

Lemma split_conds c cs : forallb cond_ok (c :: cs) = true -> regex_split and_re (conds_text (c :: cs)) = map cond_text (c :: cs).
Proof.
  intros Hok. rewrite conds_text_cons. fold (and_tail cs). unfold regex_split, matchAll.
  pose proof (split_conds_loop cs c (S (length (cond_text c ++ and_tail cs))) None [] Hok) as H.
  enough (Hl : (length cs <= length (and_tail cs))%nat).
  { specialize (H ltac:(rewrite length_app; lia)). by destruct (fold_left _ _ _). }
  clear. induction cs as [|d cs IH]; [done|]. change (and_tail (d :: cs)) with ((js " && " ++ cond_text d) ++ and_tail cs).
  rewrite !length_app. change (length (js " && ")) with 4%nat. cbn [length]. lia.
Qed.

Lemma read_condition c : cond_ok c = true -> readCondition (cond_text c) = Some c.
Proof.
  intros Hc. pose proof (cond_ok_spec c Hc) as (Hv & Ho & n & Hn & Hne & Hchars & Hback).
  destruct (cond_var_head c Hc) as (_ & _ & _ & _ & Hst). destruct (cond_text_facts c Hc) as [_ Hen].
  unfold readCondition, parseTierCondition. rewrite trim_trimmed by (by apply trimmed_ends).
  cbn [rseq]. rewrite (eats_match_at_start _ _ [(1%nat, cvar c); (2%nat, cop c); (3%nat, cond_num c)]).
  - change (Some (mkCond (cvar c) (cop c) (VNum (num_of_string (cond_num c)))) = Some c). rewrite Hback, <- Hn. by destruct c.
  - unfold cond_text. fold (cond_num c). apply eats_alts_group; [exact Hv | | apply var_only, Hv].
    apply (eats_seq _ _ (js " ") _ [] [] [(2%nat, cop c); (3%nat, cond_num c)]).
    { apply eats_ws1. clear - Ho. unfold OPS in Ho. repeat (apply elem_of_cons in Ho as [->|Ho]); [done.. | by apply not_elem_of_nil in Ho]. }
    apply eats_alts_group; [exact Ho | | apply op_only; [exact Ho | intros u; by apply (refused_by_sound _ (js "="))]].
    apply (eats_seq _ _ (js " ") _ [] [] [(3%nat, cond_num c)]); [apply eats_ws1; by apply cond_num_stops|].
    rewrite <- (app_nil_r (cond_num c)) at 1. apply (eats_seq _ _ (cond_num c) [] [] [(3%nat, cond_num c)] []).
    + apply (eats_group 3 rtier_num _ _ []). by apply eats_plus.
    + apply eats_end.
Qed.

Lemma read_conditions cs : forallb cond_ok cs = true -> readConditions (conds_text cs) = cs.
Proof.
  destruct cs as [|c cs]; [done|]. intros Hok. unfold readConditions. rewrite split_conds by done.
  replace (truthy (conds_text (c :: cs))) with true.
  - rewrite forallb_forall in Hok. induction (c :: cs) as [|d l IH]; [done|]. cbn [map omap list_omap].
    rewrite read_condition by (apply Hok; by left). f_equal. apply IH. intros x Hx. apply Hok. by right.
  - cbn [forallb] in Hok. apply andb_prop in Hok as [Hc _]. rewrite conds_text_cons.
    by destruct (cond_var_head c Hc) as (d & u & -> & _).
Qed.

(** ** Lemmas: captures of a tier *)
Lemma map_get_opt_caps_lt k n vs m : (k < n)%nat -> map_get k (fold_left (fun m p => map_set p.1 p.2 m) (opt_caps n vs) m) = map_get k m.
Proof.
  revert n m. induction vs as [|[v x] vs IH]; intros n m Hk; [done|]. cbn [opt_caps]. rewrite fold_left_app, IH by lia.
  destruct (num_truthy x); [|done]. cbn. apply map_get_set_ne. lia.
Qed.

Lemma read_opt_caps (cvs : list (jsstr * jsstr)) (val : jsstr * jsstr -> num) n m :
  (forall k, (n <= k)%nat -> map_get k m = None) -> forallb (fun cv => cost_ok (val cv)) cvs = true ->
  readExtra n cvs (fold_left (fun m p => map_set p.1 p.2 m) (opt_caps n (map (fun cv => (cv.2, val cv)) cvs)) m)
  = flat_map (fun cv => if num_truthy (val cv) then [(cv.1, val cv)] else []) cvs.
Proof.
  revert n m. induction cvs as [|cv cvs IH]; intros n m Hm Hok; [done|]. cbn [map opt_caps readExtra flat_map].
  cbn [forallb] in Hok. apply andb_prop in Hok as [Hcv Hok].
  rewrite fold_left_app, map_get_opt_caps_lt by lia. destruct (num_truthy (val cv)); cbn [fold_left fst snd].
  - rewrite map_get_set_eq. cbn [app]. rewrite (proj2 (proj2 (reads_as_spec _ _ Hcv))). f_equal.
    apply IH; [|done]. intros k Hk. rewrite map_get_set_ne by lia. apply Hm. lia.
  - rewrite Hm by lia. cbn [app]. apply IH; [|done]. intros k Hk. apply Hm. lia.
Qed.

Lemma map_get_printed (cvs : list (jsstr * jsstr)) (val : jsstr -> num) f :
  NoDup (map fst cvs) -> f ∈ map fst cvs ->
  map_get f (flat_map (fun cv => if num_truthy (val cv.1) then [(cv.1, val cv.1)] else []) cvs)
  = if num_truthy (val f) then Some (val f) else None.
Proof.
  assert (Hno : forall cvs, f ∉ map fst cvs -> map_get f (flat_map (fun cv : jsstr * jsstr => if num_truthy (val cv.1) then [(cv.1, val cv.1)] else []) cvs) = None).
  { clear. induction cvs as [|cv cvs IH]; intros Hf; [done|]. cbn [map] in Hf. apply not_elem_of_cons in Hf as [Hn Hf]. cbn [flat_map].
    destruct (num_truthy (val cv.1)); cbn [app map_get]; [|by apply IH]. rewrite bool_decide_eq_false_2 by done. by apply IH. }
  induction cvs as [|cv cvs IH]; intros Hnd Hf; [by apply not_elem_of_nil in Hf|]. cbn [map] in *.
  apply NoDup_cons in Hnd as [Hcv Hnd]. cbn [flat_map]. apply elem_of_cons in Hf as [->|Hf].
  - destruct (num_truthy (val cv.1)); cbn [app map_get]; [by rewrite bool_decide_eq_true_2 | by apply Hno].
  - assert (f <> cv.1) by (intros ->; done).
    destruct (num_truthy (val cv.1)); cbn [app map_get]; [rewrite bool_decide_eq_false_2 by done|]; by apply IH.
Qed.

Lemma map_fields : map fst BILLING_CACHE_VAR_MAP = EXTRA_FIELDS.
Proof. reflexivity. Qed.

Lemma fields_NoDup : NoDup EXTRA_FIELDS.
Proof. apply (bool_decide_unpack (NoDup EXTRA_FIELDS)). vm_compute. exact I. Qed.

Lemma cc1h_field : f_cc1h ∈ EXTRA_FIELDS.
Proof. apply (bool_decide_unpack (f_cc1h ∈ EXTRA_FIELDS)). vm_compute. exact I. Qed.

(** The prices the text keeps. *)
Definition printed_extra (extra : list (jsstr * num)) : list (jsstr * num) :=
  flat_map (fun cv : jsstr * jsstr =>
    if num_truthy (num_or0 (map_get cv.1 extra)) then [(cv.1, num_or0 (map_get cv.1 extra))] else []) BILLING_CACHE_VAR_MAP.

Lemma printed_extra_get extra f : f ∈ EXTRA_FIELDS ->
  map_get f (printed_extra extra) = if num_truthy (num_or0 (map_get f extra)) then Some (num_or0 (map_get f extra)) else None.
Proof.
  intros Hf. apply (map_get_printed BILLING_CACHE_VAR_MAP (fun f => num_or0 (map_get f extra)));
    rewrite map_fields; [apply fields_NoDup | done].
Qed.

Lemma printed_extra_or0 extra f : f ∈ EXTRA_FIELDS -> num_or0 (map_get f (printed_extra extra)) = num_or0 (map_get f extra).
Proof.
  intros Hf. rewrite printed_extra_get by done. destruct (num_truthy (num_or0 (map_get f extra))) eqn:E.
  - apply num_or0_idemp.
  - destruct (map_get f extra) as [n|]; [|done]. cbn in *. by destruct (num_truthy n) eqn:E'; [rewrite E' in E|].
Qed.

Lemma mode_printed l c i o extra :
  getTierCacheMode (Some (mkPartial l c i o None (printed_extra extra))) = getTierCacheMode (Some (mkPartial l c i o None extra)).
Proof.
  cbn [getTierCacheMode p_cache_mode p_extra]. rewrite printed_extra_get by apply cc1h_field.
  destruct (map_get f_cc1h extra) as [n|]; [|done]. cbn. destruct (num_truthy n) eqn:E; [by rewrite E|].
  cbn. by destruct n as [[|]| | |[|]].
Qed.

Lemma normalize_printed l c i o extra :
  normalizeVisualTier (mkPartial l c i o None (printed_extra extra)) = normalizeVisualTier (mkPartial l c i o None extra).
Proof.
  unfold normalizeVisualTier. cbn [p_label p_conditions p_input p_output p_extra]. rewrite mode_printed. f_equal.
  apply map_ext_in. intros f Hf. rewrite printed_extra_or0; [done | by apply list_elem_of_In].
Qed.

Lemma tier_ok_costs t : tier_ok t = true ->
  num_of_string (num_to_string (input_unit_cost t)) = input_unit_cost t /\
  num_of_string (num_to_string (output_unit_cost t)) = output_unit_cost t /\ extra_ok (v_extra t) = true.
Proof. unfold tier_ok. intros H. bool_to_prop. repeat split; [by eapply reads_as_spec.. | done]. Qed.

Lemma read_tier n t m :
  tier_ok t = true -> (forall k, (n <= k)%nat -> map_get k m = None) ->
  readTier n (v_conditions t) (fold_left (fun m p => map_set p.1 p.2 m) (call_caps n t) m) = canonical_tier t.
Proof.
  intros (Hi & Ho & He)%tier_ok_costs Hm. unfold readTier, call_caps, cap, canonical_tier. cbn [fold_left fst snd].
  rewrite !map_get_opt_caps_lt by lia. rewrite !map_get_set_eq. rewrite !(map_get_set_ne n), !(map_get_set_ne (S n)) by lia.
  rewrite !map_get_set_eq. cbn [default from_option id]. rewrite Hi, Ho.
  unfold tier_extra. rewrite (read_opt_caps _ (fun cv => num_or0 (map_get cv.1 (v_extra t)))).
  - apply normalize_printed.
  - intros k Hk. rewrite !map_get_set_ne by lia. apply Hm. lia.
  - done.
Qed.

(** ** Lemmas: the pattern of a tier *)
Definition piece (cond : bool) (t : VisualTier) : jsstr * list (nat * jsstr) :=
  let body := tier_call (v_label t) (buildTierBodyExpr t) in
  if cond then (conds_text (v_conditions t) ++ js " ? " ++ body, (1%nat, conds_text (v_conditions t)) :: call_caps 2 t)
  else (body, call_caps 2 t).

Lemma tier_ok_conds t : tier_ok t = true -> forallb cond_ok (v_conditions t) = true.
Proof. unfold tier_ok. intros H. bool_to_prop. done. Qed.

Lemma eats_piece cond t u :
  tier_ok t = true -> (cond = true -> v_conditions t <> []) -> eats visualTierRe (piece cond t).1 u (piece cond t).2.
Proof.
  intros Ht Hc. unfold visualTierRe, piece, ropt.
  assert (Hcall : eats (call_re 2 (rlit (js ")"))) (tier_call (v_label t) (buildTierBodyExpr t)) u (call_caps 2 t)).
  { rewrite <- (app_nil_r (call_caps 2 t)). apply eats_call; [done | apply eats_lit]. }
  destruct cond; cbn [fst snd].
  - apply tier_ok_conds in Ht. destruct (v_conditions t) as [|c cs]; [by destruct Hc|].
    rewrite app_assoc. apply (eats_seq _ _ _ _ u [(1%nat, conds_text (c :: cs))]); [|done].
    apply eats_alt_l. cbn [rseq]. change [(1%nat, conds_text (c :: cs))] with ([(1%nat, conds_text (c :: cs))] ++ []).
    apply eats_seq; [apply (eats_group 1 _ _ _ []); by apply eats_conds|].
    change (js " ? ") with (js " " ++ js "?" ++ js " "). apply (eats_seq _ _ (js " ") _ _ [] []); [by apply eats_ws1|].
    apply (eats_seq _ _ (js "?") _ _ [] []); [by apply eats_lit | by apply eats_ws1].
  - apply (eats_seq _ _ [] _ u []); [|done]. apply eats_alt_r; [|apply eats_eps].
    by apply (refused_by_sound _ (js "tier(")).
Qed.

Lemma call_caps_fold_2 t : tier_ok t = true -> forall b, readTier 2 (v_conditions t) (caps (with_caps (piece b t).2 (mkR None [] []))) = canonical_tier t.
Proof.
  intros Ht b. unfold piece. destruct b; cbn [snd with_caps caps fold_left fst].
  - apply (read_tier 2 t [(1%nat, conds_text (v_conditions t))] Ht). intros k Hk. cbn. by destruct k as [|[|k]]; [lia | lia |].
  - by apply (read_tier 2 t [] Ht).
Qed.

(** What the parser makes of a match. *)
Definition read_match (m : list (nat * jsstr)) : VisualTier := readTier 2 (readConditions (cap 1 m)) m.

Lemma cap_1_call t m : map_get 1%nat (fold_left (fun m p => map_set p.1 p.2 m) (call_caps 2 t) m) = map_get 1%nat m.
Proof. unfold call_caps. cbn [fold_left fst snd]. rewrite map_get_opt_caps_lt by lia. by rewrite !map_get_set_ne by lia. Qed.

Lemma read_piece cond t :
  tier_ok t = true -> (cond = false -> v_conditions t = []) -> read_match (caps (with_caps (piece cond t).2 (mkR None [] []))) = canonical_tier t.
Proof.
  intros Ht Hc. unfold read_match. replace (readConditions _) with (v_conditions t); [by apply call_caps_fold_2|].
  unfold piece, cap. destruct cond; cbn [snd with_caps caps fold_left fst]; rewrite cap_1_call.
  - cbn. symmetry. apply read_conditions. by apply tier_ok_conds.
  - by rewrite Hc.
Qed.

(** ** Lemmas: configurations *)
Lemma extra_normal extra f : f ∈ EXTRA_FIELDS ->
  map_get f (map (fun f => (f, num_or0 (map_get f extra))) EXTRA_FIELDS) = Some (num_or0 (map_get f extra)).
Proof.
  intros Hf. apply elem_map_get.
  - unfold map_keys. rewrite <- list_fmap_compose. apply fields_NoDup.
  - apply list_elem_of_fmap. by exists f.
Qed.

Lemma normalize_idemp p : normalizeVisualTier (partial_of (normalizeVisualTier p)) = normalizeVisualTier p.
Proof.
  unfold normalizeVisualTier at 1. unfold partial_of. cbn [p_label p_conditions p_input p_output p_extra]. unfold normalizeVisualTier.
  cbn [v_label v_conditions input_unit_cost output_unit_cost cache_mode v_extra default from_option id]. f_equal.
  apply map_ext_in. intros f Hf%list_elem_of_In. by rewrite extra_normal, num_or0_idemp.
Qed.

Lemma extra_parts_normal extra : extra_parts (map (fun f => (f, num_or0 (map_get f extra))) EXTRA_FIELDS) = extra_parts extra.
Proof.
  unfold extra_parts. rewrite !flat_map_concat_map. f_equal. apply map_ext_in. intros cv Hcv.
  rewrite extra_normal, num_or0_idemp; [done|]. rewrite <- map_fields. apply list_elem_of_In, in_map, Hcv.
Qed.

(** The text depends on what [canonical_tier] keeps. *)
Lemma canonical_text t :
  v_label (canonical_tier t) = v_label t /\ v_conditions (canonical_tier t) = v_conditions t /\
  buildTierBodyExpr (canonical_tier t) = buildTierBodyExpr t.
Proof.
  split; [done|]. split; [done|]. unfold buildTierBodyExpr, canonical_tier, normalizeVisualTier.
  cbn [input_unit_cost output_unit_cost v_extra p_input p_output p_extra default from_option id]. by rewrite extra_parts_normal.
Qed.

Lemma canonical_parts i ts : tier_parts i (map canonical_tier ts) = tier_parts i ts.
Proof.
  revert i. induction ts as [|t ts IH]; intros i; [done|]. cbn [map tier_parts]. rewrite IH.
  destruct (canonical_text t) as (-> & -> & ->). by destruct ts.
Qed.

Lemma canonical_generate c : generateExprFromVisualConfig (Some (canonical_config c)) = generateExprFromVisualConfig (Some c).
Proof.
  destruct c as [[|t [|t' ts]]]; [done | |]; unfold generateExprFromVisualConfig, canonical_config; cbn [tiers map].
  - by destruct (canonical_text t) as (-> & -> & ->).
  - by rewrite <- (canonical_parts 0 (t :: t' :: ts)).
Qed.

Lemma canonical_normal t ts :
  normalizeVisualConfig (Some (mkConfig (map canonical_tier (t :: ts)))) = mkConfig (map canonical_tier (t :: ts)).
Proof. unfold normalizeVisualConfig. cbn [tiers]. cbn [map]. f_equal. cbn [map]. f_equal; [apply normalize_idemp|]. rewrite map_map. apply map_ext. intros x. apply normalize_idemp. Qed.

Lemma cond_complete_ok cs : forallb cond_ok cs = true -> buildConditionStr cs = conds_text cs.
Proof.
  intros H. unfold buildConditionStr, conds_text. do 2 f_equal. induction cs as [|c cs IH]; [done|]. cbn [forallb] in H.
  apply andb_prop in H as [Hc Hcs]. cbn [List.filter]. rewrite IH by done.
  replace (cond_complete c) with true; [done|]. apply cond_ok_spec in Hc as (Hv & Ho & n & Hn & _). unfold cond_complete. rewrite Hn.
  unfold cond_vars, OPS in *. repeat (apply elem_of_cons in Hv as [->|Hv]); [..|by apply not_elem_of_nil in Hv];
      (repeat (apply elem_of_cons in Ho as [->|Ho]); [..|by apply not_elem_of_nil in Ho]); done.
Qed.

Lemma conds_truthy c cs : forallb cond_ok (c :: cs) = true -> truthy (conds_text (c :: cs)) = true.
Proof.
  cbn [forallb]. intros [Hc _]%andb_prop. rewrite conds_text_cons. by destruct (cond_var_head c Hc) as (d & u & -> & _).
Qed.

Lemma tier_ok_label t d : tier_ok t = true -> str_or (v_label t) d = v_label t.
Proof. unfold tier_ok, str_or. intros H. bool_to_prop. by rewrite H. Qed.

(** The pieces of a chain of tiers. *)
Fixpoint chain_pieces (ts : list VisualTier) : list (jsstr * list (nat * jsstr)) :=
  match ts with
  | [] => []
  | [t] => [piece false t]
  | t :: ts => piece true t :: chain_pieces ts
  end.

Lemma chain_parts i ts : forallb tier_ok ts = true -> chain_ok ts = true -> tier_parts i ts = map fst (chain_pieces ts).
Proof.
  revert i. induction ts as [|t ts IH]; intros i Hok Hch; [done|]. cbn [forallb] in Hok. apply andb_prop in Hok as [Ht Hts].
  cbn [tier_parts]. rewrite tier_ok_label by done. destruct ts as [|t' ts]; [done|].
  cbn [chain_ok] in Hch. destruct (v_conditions t) as [|c cs] eqn:Ec; [done|].
  pose proof (tier_ok_conds t Ht) as Hcs. rewrite Ec in Hcs. rewrite cond_complete_ok, conds_truthy by done.
  change (chain_pieces (t :: t' :: ts)) with (piece true t :: chain_pieces (t' :: ts)). cbn [map]. rewrite <- (IH (S i)) by done.
  f_equal. unfold piece. by rewrite Ec.
Qed.

Lemma separator_refused a b t : js " : " = a ++ b -> b <> [] -> refuses visualTierRe (b ++ t).
Proof.
  intros E Hb. change (js " : ") with [32; 58; 32] in E.
  destruct a as [|x [|y [|z a]]]; cbn in E.
  - rewrite <- E. by apply (refused_by_sound _ [32; 58; 32]).
  - injection E as _ <-. by apply (refused_by_sound _ [58; 32]).
  - injection E as _ _ <-. by apply (refused_by_sound _ [32]).
  - injection E as _ _ _ E. symmetry in E. by apply app_eq_nil in E as [_ ->].
Qed.

Lemma nil_refused a b : [] = a ++ b -> refuses visualTierRe b.
Proof. intros E. symmetry in E. apply app_eq_nil in E as [_ ->]. intros A st k E. destruct st as [p r c]. cbn in E. subst r. reflexivity. Qed.

(** Whatever follows the only tier of a conditional price. *)
Lemma free_refused a b : js " : p * 0 + c * 0" = a ++ b -> refuses visualTierRe b.
Proof.
  assert (H : forallb (fun n => refused_by visualTierRe (drop n (js " : p * 0 + c * 0"))) (seq 0 16) = true) by (vm_compute; reflexivity).
  intros E. destruct (decide (b = [])) as [->|Hb]; [by apply (nil_refused [])|].
  rewrite <- (app_nil_r b). apply refused_by_sound. rewrite forallb_forall in H. rewrite <- (drop_app_length a b), <- E. apply H.
  apply in_seq. split; [lia|]. apply (f_equal length) in E. rewrite length_app in E. change (length (js " : p * 0 + c * 0")) with 16%nat in E.
  destruct b; [done|]. cbn in E. lia.
Qed.

Definition heads : list Z := [112; 99; 108; 116].

Lemma version_none d u : d ∈ heads -> match_at_start version_re (d :: u) = None.
Proof.
  intros Hd. apply refuses_match_at_start. unfold heads in Hd.
  repeat (apply elem_of_cons in Hd as [->|Hd]); [..|by apply not_elem_of_nil in Hd]; by apply (refused_by_sound _ [_]).
Qed.

Lemma single_none d u : d ∈ [112; 99; 108] -> match_at_start singleRe (d :: u) = None.
Proof.
  intros Hd. apply refuses_match_at_start.
  repeat (apply elem_of_cons in Hd as [->|Hd]); [..|by apply not_elem_of_nil in Hd]; by apply (refused_by_sound _ [_]).
Qed.

(** A text that starts with a condition goes to the pattern of the tiers. *)
Lemma parse_conditional c cs u t ts :
  forallb cond_ok (c :: cs) = true ->
  map (fun x : jsstr * rstate => read_match (caps x.2)) (matchAll visualTierRe (conds_text (c :: cs) ++ u)) = map canonical_tier (t :: ts) ->
  generateExprFromVisualConfig (Some (mkConfig (t :: ts))) = conds_text (c :: cs) ++ u ->
  tryParseVisualConfig (conds_text (c :: cs) ++ u) = Some (canonical_config (mkConfig (t :: ts))).
Proof.
  cbn [forallb]. intros [Hc _]%andb_prop Hm Hg. revert Hm Hg. rewrite conds_text_cons.
  destruct (cond_var_head c Hc) as (d & v & -> & Hd & _). cbn [app]. intros Hm Hg. unfold tryParseVisualConfig. cbn [truthy negb].
  rewrite version_none by (unfold heads; set_solver). rewrite single_none by done.
  unfold read_match in Hm. rewrite Hm. cbn [map]. change (canonical_tier t :: map canonical_tier ts) with (map canonical_tier (t :: ts)).
  rewrite canonical_normal. change (mkConfig (map canonical_tier (t :: ts))) with (canonical_config (mkConfig (t :: ts))).
  rewrite canonical_generate, Hg. by rewrite bool_decide_eq_true_2.
Qed.

(** One tier without a condition goes to the other pattern. *)
Lemma parse_single t :
  tier_ok t = true -> v_conditions t = [] ->
  tryParseVisualConfig (tier_call (v_label t) (buildTierBodyExpr t)) = Some (canonical_config (mkConfig [t])).
Proof.
  intros Ht Hc. unfold tryParseVisualConfig. set (text := tier_call _ _).
  assert (Hh : exists u, text = 116 :: u) by (eexists; reflexivity). destruct Hh as (u & Hu).
  replace (truthy text) with true by (by rewrite Hu). cbn [negb]. rewrite Hu at 1. rewrite version_none by (unfold heads; set_solver).
  assert (He : eats (call_re 1 (rseq [rlit (js ")"); REnd false])) text [] (call_caps 1 t)).
  { unfold text. rewrite <- (app_nil_r (call_caps 1 t)). apply eats_call; [done|].
    rewrite <- (app_nil_r (js ")")). apply (eats_seq _ _ (js ")") [] [] [] []); [apply eats_lit | apply eats_end]. }
  unfold singleRe. rewrite (eats_match_at_start _ _ _ He). cbn [with_caps caps].
  rewrite <- Hc, (read_tier 1 t [] Ht) by done. f_equal. apply (canonical_normal t []).
Qed.

Lemma chain_pieces_eats ts i q u : forallb tier_ok ts = true -> chain_ok ts = true -> chain_pieces ts !! i = Some q -> eats visualTierRe q.1 u q.2.
Proof.
  revert i. induction ts as [|t ts IH]; intros i Hok Hch Hi; [done|]. cbn [forallb] in Hok. apply andb_prop in Hok as [Ht Hts].
  destruct ts as [|t' ts].
  - destruct i as [|i]; [|done]. injection Hi as <-. by apply (eats_piece false).
  - cbn [chain_ok] in Hch. destruct (v_conditions t) eqn:Ec; [done|]. destruct i as [|i].
    + injection Hi as <-. apply (eats_piece true); [done|]. by rewrite Ec.
    + by apply (IH i).
Qed.

Lemma chain_pieces_read ts : forallb tier_ok ts = true -> chain_ok ts = true ->
  map (fun q : jsstr * list (nat * jsstr) => read_match (caps (with_caps q.2 (mkR None [] [])))) (chain_pieces ts) = map canonical_tier ts.
Proof.
  induction ts as [|t ts IH]; intros Hok Hch; [done|]. cbn [forallb] in Hok. apply andb_prop in Hok as [Ht Hts].
  destruct ts as [|t' ts].
  - cbn [chain_pieces map]. rewrite read_piece; [done | done |]. intros _. cbn in Hch. by destruct (v_conditions t).
  - change (chain_pieces (t :: t' :: ts)) with (piece true t :: chain_pieces (t' :: ts)). cbn [map] in *.
    rewrite read_piece by done. f_equal. apply IH; [done|]. cbn [chain_ok] in Hch. by destruct (v_conditions t).
Qed.

Lemma piece_nonempty b t : tier_ok t = true -> (piece b t).1 <> [].
Proof. intros _. unfold piece. destruct b; [by destruct (conds_text (v_conditions t)) | done]. Qed.

Lemma chain_pieces_nonempty ts : forallb tier_ok ts = true -> Forall (fun q => q.1 <> []) (chain_pieces ts).
Proof.
  induction ts as [|t ts IH]; intros Hok; [constructor|]. cbn [forallb] in Hok. apply andb_prop in Hok as [Ht Hts].
  destruct ts as [|t' ts]; [constructor; [by apply piece_nonempty | constructor]|].
  change (chain_pieces (t :: t' :: ts)) with (piece true t :: chain_pieces (t' :: ts)). constructor; [by apply piece_nonempty | by apply IH].
Qed.

Lemma map_read_caps l : map (fun x : jsstr * rstate => read_match (caps x.2)) l = map read_match (map (fun x : jsstr * rstate => caps x.2) l).
Proof. by rewrite map_map. Qed.

(** Two tiers or more. *)
Lemma parse_chain t t' ts :
  forallb tier_ok (t :: t' :: ts) = true -> chain_ok (t :: t' :: ts) = true ->
  tryParseVisualConfig (generateExprFromVisualConfig (Some (mkConfig (t :: t' :: ts)))) = Some (canonical_config (mkConfig (t :: t' :: ts))).
Proof.
  intros Hok Hch. set (tt := t :: t' :: ts) in *.
  assert (Hg : generateExprFromVisualConfig (Some (mkConfig tt)) = (piece true t).1 ++ pieces_text (js " : ") (chain_pieces (t' :: ts)) ++ []).
  { unfold generateExprFromVisualConfig, tt. cbn [tiers]. rewrite (chain_parts 0 (t :: t' :: ts) Hok Hch).
    change (chain_pieces (t :: t' :: ts)) with (piece true t :: chain_pieces (t' :: ts)). cbn [map]. rewrite join_concat, map_map, app_nil_r. done. }
  assert (Ht : tier_ok t = true /\ exists c cs, v_conditions t = c :: cs).
  { cbn in Hok, Hch. apply andb_prop in Hok as [Ht _]. split; [done|]. destruct (v_conditions t) as [|c cs]; [done|]. by exists c, cs. }
  destruct Ht as (Ht & c & cs & Ec). pose proof (tier_ok_conds t Ht) as Hcs. rewrite Ec in Hcs.
  assert (Htext : exists u, (piece true t).1 ++ pieces_text (js " : ") (chain_pieces (t' :: ts)) ++ [] = conds_text (c :: cs) ++ u).
  { eexists. unfold piece. cbn [fst]. rewrite Ec, <- app_assoc. reflexivity. }
  destruct Htext as (u & Hu). rewrite Hg, Hu. apply parse_conditional; [done | | by rewrite <- Hu, <- Hg].
  rewrite <- Hu, map_read_caps. rewrite (matchAll_pieces visualTierRe (js " : ") [] separator_refused nil_refused (piece true t).1 (piece true t).2).
  - rewrite <- surjective_pairing, map_map. apply (chain_pieces_read tt Hok Hch).
  - by apply piece_nonempty.
  - apply chain_pieces_nonempty. cbn in Hok |- *. by apply andb_prop in Hok as [_ ?].
  - rewrite <- surjective_pairing. intros i q Hi. by apply (chain_pieces_eats tt i).
Qed.

(** One tier with a condition: the other requests are free. *)
Lemma parse_guarded t c cs :
  tier_ok t = true -> v_conditions t = c :: cs ->
  tryParseVisualConfig (generateExprFromVisualConfig (Some (mkConfig [t]))) = Some (canonical_config (mkConfig [t])).
Proof.
  intros Ht Ec. pose proof (tier_ok_conds t Ht) as Hcs. rewrite Ec in Hcs.
  assert (Hg : generateExprFromVisualConfig (Some (mkConfig [t])) = conds_text (c :: cs) ++ js " ? " ++ tier_call (v_label t) (buildTierBodyExpr t) ++ js " : " ++ FREE).
  { unfold generateExprFromVisualConfig. cbn [tiers]. rewrite tier_ok_label, Ec, cond_complete_ok, conds_truthy by done. done. }
  rewrite Hg. apply parse_conditional; [done | | by rewrite Hg].
  replace (conds_text (c :: cs) ++ js " ? " ++ tier_call (v_label t) (buildTierBodyExpr t) ++ js " : " ++ FREE)
    with ((piece true t).1 ++ pieces_text (js " : ") [] ++ js " : p * 0 + c * 0") by (unfold piece; cbn [fst]; rewrite Ec, <- !app_assoc; reflexivity).
  rewrite map_read_caps.
  rewrite (matchAll_pieces visualTierRe (js " : ") (js " : p * 0 + c * 0") separator_refused free_refused (piece true t).1 (piece true t).2).
  - cbn [map snd]. f_equal. by apply read_piece.
  - by apply piece_nonempty.
  - constructor.
  - intros [|i] q Hi; [|done]. injection Hi as <-. apply (eats_piece true); [done|]. by rewrite Ec.
Qed.

Lemma parse_generated c :
  config_ok c = true -> tryParseVisualConfig (generateExprFromVisualConfig (Some c)) = Some (canonical_config c).
Proof.
  destruct c as [[|t [|t' ts]]]; unfold config_ok; cbn [tiers]; intros H; [done | |].
  - rewrite andb_true_r in H. cbn in H. rewrite andb_true_r in H. destruct (v_conditions t) as [|c cs] eqn:Ec; [|by eapply parse_guarded].
    unfold generateExprFromVisualConfig. cbn [tiers]. rewrite tier_ok_label, Ec by done. by apply parse_single.
  - apply andb_prop in H as [Hok Hch]. by apply parse_chain.
Qed.

Lemma canonical_idemp t : canonical_tier (canonical_tier t) = canonical_tier t.
Proof.
  unfold canonical_tier at 1. cbn [v_label v_conditions canonical_tier normalizeVisualTier input_unit_cost output_unit_cost v_extra
    p_label p_conditions p_input p_output p_extra default from_option id].
  unfold canonical_tier, normalizeVisualTier. cbn [p_label p_conditions p_input p_output p_extra default from_option id]. f_equal.
  - cbn [getTierCacheMode p_cache_mode p_extra]. rewrite extra_normal by apply cc1h_field.
    destruct (map_get f_cc1h (v_extra t)) as [n|]; [|done]. cbn. destruct (num_truthy n) eqn:E; [done|]. by destruct n as [[|]| | |[|]].
  - apply map_ext_in. intros f Hf%list_elem_of_In. by rewrite extra_normal, num_or0_idemp.
Qed.

Lemma canonical_config_idemp c : canonical_config (canonical_config c) = canonical_config c.
Proof. unfold canonical_config. cbn [tiers]. f_equal. rewrite map_map. apply map_ext, canonical_idemp. Qed.

Lemma canonical_tier_ok t : tier_ok (canonical_tier t) = tier_ok t.
Proof.
  unfold tier_ok. destruct (canonical_text t) as (-> & -> & _). do 2 f_equal. unfold extra_ok.
  apply eq_true_iff_eq. rewrite !forallb_forall. unfold canonical_tier, normalizeVisualTier. cbn [v_extra p_extra].
  split; intros H f Hf; specialize (H f Hf); revert H; apply list_elem_of_In in Hf; by rewrite extra_normal, num_or0_idemp.
Qed.

Lemma canonical_chain_ok ts : chain_ok (map canonical_tier ts) = chain_ok ts.
Proof. induction ts as [|t [|t' ts] IH]; [done | done |]. cbn [map chain_ok] in *. by rewrite IH. Qed.

Lemma canonical_config_ok c : config_ok (canonical_config c) = config_ok c.
Proof.
  destruct c as [ts]. unfold config_ok, canonical_config. cbn [tiers]. f_equal.
  - induction ts as [|t ts IH]; [done|]. cbn [map forallb]. by rewrite canonical_tier_ok, IH.
  - pose proof (canonical_chain_ok ts) as H. destruct ts as [|t [|t' ts]]; [done | done | exact H].
Qed.

(** C10.  Reading the generated expression of tiered prices gives the tiers back:
    for every configuration whose tiers are named, whose numbers print as
    numbers that read back, and whose tiers but the last carry conditions, the
    parser returns the configuration in normal form; the normal form generates
    the same text and is its own normal form. *)
Theorem tiers_roundtrip c :
  config_ok c = true ->
  tryParseVisualConfig (generateExprFromVisualConfig (Some c)) = Some (canonical_config c) /\
  generateExprFromVisualConfig (Some (canonical_config c)) = generateExprFromVisualConfig (Some c) /\
  canonical_config (canonical_config c) = canonical_config c.
Proof.
  intros H. split; [by apply parse_generated|]. split; [apply canonical_generate|].
  apply canonical_config_idemp.
Qed.

Definition num_lit (s : jsstr) : num := num_of_string s.
Definition simple_tier (label : jsstr) (conds : list TierConditionInput) (i o cr : jsstr) : VisualTier :=
  normalizeVisualTier (mkPartial (Some label) (Some conds) (Some (num_lit i)) (Some (num_lit o)) None [(js "cache_read_unit_cost", num_lit cr)]).

(** The preset of GLM-4.5 Air. *)
Definition glm_config : VisualConfig :=
  mkConfig
    [simple_tier (js "short_output") [mkCond (js "len") (js "<") (VNum (num_of_Z 32000)); mkCond (js "c") (js "<") (VNum (num_of_Z 200))] (js "0.8") (js "2") (js "0.16");
     simple_tier (js "long_output") [mkCond (js "len") (js "<") (VNum (num_of_Z 32000)); mkCond (js "c") (js ">=") (VNum (num_of_Z 200))] (js "0.8") (js "6") (js "0.16");
     simple_tier (js "mid_context") [] (js "1.2") (js "8") (js "0.24")].

Lemma tiers_roundtrip_witness :
  config_ok glm_config = true /\
  tryParseVisualConfig (generateExprFromVisualConfig (Some glm_config)) = Some (canonical_config glm_config) /\
  generateExprFromVisualConfig (Some (canonical_config glm_config)) = generateExprFromVisualConfig (Some glm_config) /\
  canonical_config (canonical_config glm_config) = canonical_config glm_config.
Proof. split; [vm_compute; reflexivity | apply (tiers_roundtrip glm_config); vm_compute; reflexivity]. Defined.

(** A single tier with a malformed number is still read: the text
    [tier("base", p * 1.2.3 + c * 4)] opens in the visual editor, and the
    expression generated from it charges nothing for the input. *)
Theorem malformed_price_read :
  match tryParseVisualConfig (tier_call (js "base") (js "p * 1.2.3 + c * 4")) with
  | Some c => generateExprFromVisualConfig (Some c) = tier_call (js "base") (js "p * 0 + c * 4")
  | None => False
  end.
Proof. vm_compute. reflexivity. Qed.
End TierExpr.
