(* ===== verification/TierEval.v ===== *)
(** * The price estimator ([evalExprLocally] of tier-expr.ts)

    The estimator builds a JavaScript function from the text of the expression
    and calls it with the token counts.  The constructor of functions is a
    parameter [run]; what it does on the expressions of the fragment of [JsExpr]
    is the hypothesis [run_agrees].  The theorem relates the text the visual
    editor generates to the tiers it came from: the estimate is the price of the
    first tier whose conditions hold. *)
From S2P Require Import Prelude JsString JsNumber Json JsonText JsRegex JsRegexMatch BillingExpr JsExpr TierExpr.
Import BillingExpr TierExpr.
Local Open Scope Z_scope.

Module TierEval.
#[local] Arguments js : simpl never.

(** ** The estimator *)
Definition ESTIMATOR_VARS : list (jsstr * jsstr) :=
  [(js "cr", js "cacheReadTokens"); (js "cc", js "cacheCreateTokens"); (js "cc1h", js "cacheCreate1hTokens"); (js "img", js "imageTokens");
   (js "img_o", js "imageOutputTokens"); (js "ai", js "audioInputTokens"); (js "ao", js "audioOutputTokens")].

(** [ExtraTokenValues]: the counts by state key. *)
Definition ExtraTokenValues : Type := list (jsstr * num).

Record EvalResult := mkResult { cost : num; matchedTier : jsstr; error : option jsstr }.

(** A call of the function: [Number] of what it returns with the tier it
    recorded, or the message of what it throws. *)
Inductive RunResult := Returned (value : num) (tier : jsstr) | Thrown (message : jsstr).

Definition estimator_env (promptTokens completionTokens : num) (extra : ExtraTokenValues) : env :=
  let tokens k := num_or0 (map_get k extra) in
  let len := num_add (num_add (num_add promptTokens (tokens (js "cacheReadTokens"))) (tokens (js "cacheCreateTokens")))
               (tokens (js "cacheCreate1hTokens")) in
  [(js "p", promptTokens); (js "c", completionTokens); (js "len", len)] ++
  map (fun field => (field.1, num_or0 (map_get field.2 extra))) ESTIMATOR_VARS.

Definition evalExprLocally (run : env -> jsstr -> RunResult) (exprStr : jsstr) (promptTokens completionTokens : num)
    (extra : ExtraTokenValues) : EvalResult :=
  if negb (truthy exprStr) || negb (truthy (trim exprStr)) then mkResult num_zero [] None
  else
    match run (estimator_env promptTokens completionTokens extra) exprStr with
    | Returned v tier => mkResult (num_or0 (Some v)) tier None
    | Thrown message => mkResult num_zero [] (Some message)
    end.

Definition extra_vars_re : regex := rseq [RWordBoundary; RGroup 1 (ralts (map fst ESTIMATOR_VARS)); RWordBoundary].

Definition exprUsesExtraVars (exprStr : jsstr) : bool :=
  if negb (truthy exprStr) then false
  else match exec_from extra_vars_re None exprStr with Some _ => true | None => false end.

(** ** What a configuration charges *)
Section Charge.
Context (rho : env).

Definition count (x : jsstr) : num := default num_nan (map_get x rho).

(** The prices of a tier, in the order they are added. *)
Definition tier_prices (t : VisualTier) : list (jsstr * num) :=
  (js "c", output_unit_cost t) :: List.filter (fun q => num_truthy q.2) (tier_extra (v_extra t)).

Definition tier_cost (t : VisualTier) : num :=
  fold_left (fun acc q => num_add acc (num_mul (count q.1) q.2)) (tier_prices t) (num_mul (count (js "p")) (input_unit_cost t)).

Definition op_bin (o : jsstr) : binop :=
  if bool_decide (o = js "<") then BLt else if bool_decide (o = js "<=") then BLe else if bool_decide (o = js ">") then BGt else BGe.

Definition cond_holds (c : TierConditionInput) : bool :=
  match cvalue c with
  | VNum n => to_boolean (bin_num (op_bin (cop c)) (count (cvar c)) n)
  | VStr _ => false
  end.

(** The first tier whose conditions hold. *)
Definition matched (ts : list VisualTier) : option VisualTier := List.find (fun t => forallb cond_holds (v_conditions t)) ts.

Definition free_cost : num := num_add (num_mul (count (js "p")) num_zero) (num_mul (count (js "c")) num_zero).

Definition charge (c : VisualConfig) : num * jsstr :=
  match matched (tiers c) with
  | Some t => (tier_cost t, v_label t)
  | None => (free_cost, [])
  end.
End Charge.

(** ** Tokens and expressions of the generated text *)
Definition price_tokens (q : jsstr * num) : list token := TId q.1 :: TP PTimes :: num_tokens q.2.
Definition price_expr (q : jsstr * num) : expr := EBin BMul (EVar q.1) (num_expr q.2).

Definition plus_tokens (l : list (jsstr * num)) : list token := concat (map (fun q => TP PPlus :: price_tokens q) l).
Definition sum_tokens (q : jsstr * num) (l : list (jsstr * num)) : list token := price_tokens q ++ plus_tokens l.
Definition sum_expr (q : jsstr * num) (l : list (jsstr * num)) : expr := fold_left (fun a q => EBin BAdd a (price_expr q)) l (price_expr q).

Definition op_punct (o : jsstr) : punct :=
  if bool_decide (o = js "<") then PLt else if bool_decide (o = js "<=") then PLe else if bool_decide (o = js ">") then PGt else PGe.
Definition cond_n (c : TierConditionInput) : num := match cvalue c with VNum n => n | VStr _ => num_nan end.
Definition cond_tokens (c : TierConditionInput) : list token := TId (cvar c) :: TP (op_punct (cop c)) :: num_tokens (cond_n c).
Definition cond_expr (c : TierConditionInput) : expr := EBin (op_bin (cop c)) (EVar (cvar c)) (num_expr (cond_n c)).
Definition and_tokens (l : list TierConditionInput) : list token := concat (map (fun c => TP PAnd :: cond_tokens c) l).
Definition conds_expr (c : TierConditionInput) (l : list TierConditionInput) : expr := fold_left (fun a c => EBin BAnd a (cond_expr c)) l (cond_expr c).

Definition p_price (t : VisualTier) : jsstr * num := (js "p", input_unit_cost t).
Definition call_tokens (t : VisualTier) : list token :=
  TId (js "tier") :: TP POpen :: [TStr (v_label t)] ++ TP PComma :: sum_tokens (p_price t) (tier_prices t) ++ [TP PClose].
Definition call_expr (t : VisualTier) : expr := ECall (js "tier") [EStr (v_label t); sum_expr (p_price t) (tier_prices t)].

(** *** Parsing *)
Definition ends_sum (r : list token) : bool := quiet 1 r && quiet 2 r && quiet 3 r && quiet 4 r.

Lemma reads_price q r : num_literal_ok q.2 = true -> quiet 1 r = true -> reads (GLevel 1) (price_tokens q) (price_expr q) r.
Proof.
  intros Hq Hr. unfold price_tokens. change (TId q.1 :: TP PTimes :: num_tokens q.2) with ([TId q.1] ++ (TP PTimes :: num_tokens q.2)).
  eapply reads_up; [by apply reads_var|]. rewrite <- (app_nil_r (num_tokens q.2)).
  eapply reads_step; [reflexivity | by apply reads_printed | by apply reads_stop].
Qed.

Lemma reads_plus l a r :
  forallb (fun q => num_literal_ok q.2) l = true -> quiet 1 r = true -> quiet 2 r = true ->
  reads (GLoop 2 a) (plus_tokens l) (fold_left (fun a q => EBin BAdd a (price_expr q)) l a) r.
Proof.
  intros Hl H1 H2. revert a Hl. induction l as [|q l IH]; intros a Hl; [by apply reads_stop|].
  cbn in Hl. apply andb_prop in Hl as [Hq Hl]. unfold plus_tokens. cbn [map concat fold_left app].
  eapply reads_step; [reflexivity | | by apply IH]. apply reads_price; [done|]. by destruct l.
Qed.

Lemma reads_sum q l r :
  num_literal_ok q.2 = true -> forallb (fun q => num_literal_ok q.2) l = true -> ends_sum r = true ->
  reads (GLevel 4) (sum_tokens q l) (sum_expr q l) r.
Proof.
  unfold ends_sum. intros Hq Hl Hr. bool_to_prop. apply reads_up_stop; [done|]. apply reads_up_stop; [done|]. unfold sum_tokens.
  eapply reads_up; [|by apply reads_plus]. apply reads_price; [done|]. by destruct l.
Qed.

Lemma op_levels o : o ∈ OPS -> level_op 3 (op_punct o) = Some (op_bin o).
Proof. intros Ho. unfold OPS in Ho. repeat (apply elem_of_cons in Ho as [->|Ho]); [reflexivity.. | by apply not_elem_of_nil in Ho]. Qed.

Lemma op_quiet o n r : o ∈ OPS -> (n < 3)%nat -> quiet n (TP (op_punct o) :: r) = true.
Proof.
  intros Ho Hn. unfold OPS in Ho. repeat (apply elem_of_cons in Ho as [->|Ho]); [.. | by apply not_elem_of_nil in Ho];
    by destruct n as [|[|[|]]]; try lia.
Qed.

Lemma op_not_open o : o ∈ OPS -> op_punct o <> POpen.
Proof. intros Ho. unfold OPS in Ho. repeat (apply elem_of_cons in Ho as [->|Ho]); [done.. | by apply not_elem_of_nil in Ho]. Qed.

Lemma reads_condition c r :
  cop c ∈ OPS -> num_literal_ok (cond_n c) = true -> quiet 1 r = true -> quiet 2 r = true -> quiet 3 r = true ->
  reads (GLevel 3) (cond_tokens c) (cond_expr c) r.
Proof.
  intros Ho Hn H1 H2 H3. unfold cond_tokens. change (TId (cvar c) :: TP (op_punct (cop c)) :: num_tokens (cond_n c))
    with ([TId (cvar c)] ++ (TP (op_punct (cop c)) :: num_tokens (cond_n c))).
  eapply reads_up.
  - do 2 (apply reads_up_stop; [by apply op_quiet; [|lia]|]). apply reads_var. cbn. pose proof (op_not_open _ Ho). by destruct (op_punct (cop c)).
  - rewrite <- (app_nil_r (num_tokens (cond_n c))). eapply reads_step; [by apply op_levels | | by apply reads_stop].
    cbn [pred]. do 2 (apply reads_up_stop; [done|]). by apply reads_printed.
Qed.

Definition cond_eval_ok (c : TierConditionInput) : bool := bool_decide (cop c ∈ OPS) && num_literal_ok (cond_n c).

Lemma reads_and l a r :
  forallb cond_eval_ok l = true -> ends_sum r = true ->
  reads (GLoop 4 a) (and_tokens l) (fold_left (fun a c => EBin BAnd a (cond_expr c)) l a) r.
Proof.
  intros Hl Hr. revert a Hl. induction l as [|c l IH]; intros a Hl; [apply reads_stop; unfold ends_sum in Hr; by bool_to_prop|].
  cbn in Hl. apply andb_prop in Hl as [Hc Hl]. unfold cond_eval_ok in Hc. apply andb_prop in Hc as [Ho Hn]. bool_to_prop.
  unfold and_tokens. cbn [map concat fold_left app]. eapply reads_step; [reflexivity | | by apply IH].
  unfold ends_sum in Hr. bool_to_prop. apply reads_condition; [done | done | by destruct l..].
Qed.

Lemma reads_conds c l r :
  forallb cond_eval_ok (c :: l) = true -> ends_sum r = true -> reads (GLevel 4) (cond_tokens c ++ and_tokens l) (conds_expr c l) r.
Proof.
  cbn [forallb]. intros [Hc Hl]%andb_prop Hr. unfold cond_eval_ok in Hc. apply andb_prop in Hc as [Ho Hn]. bool_to_prop.
  eapply reads_up; [|by apply reads_and]. unfold ends_sum in Hr. bool_to_prop. apply reads_condition; [done | done | by destruct l..].
Qed.

(** What the fragment needs of a tier. *)
Definition tier_eval_ok (t : VisualTier) : bool :=
  forallb str_char (v_label t) && num_literal_ok (input_unit_cost t) && num_literal_ok (output_unit_cost t)
  && forallb (fun q : jsstr * num => num_literal_ok q.2) (tier_extra (v_extra t)) && forallb cond_eval_ok (v_conditions t).

Lemma tier_prices_ok t : tier_eval_ok t = true ->
  num_literal_ok (input_unit_cost t) = true /\ forallb (fun q => num_literal_ok q.2) (tier_prices t) = true.
Proof.
  unfold tier_eval_ok, tier_prices. intros H. bool_to_prop. split; [done|]. cbn [forallb snd]. rewrite H2. cbn [andb].
  rewrite forallb_forall in *. intros q [Hq _]%filter_In. by apply H1.
Qed.

Lemma reads_tier t r : tier_eval_ok t = true -> ends_sum r = true -> reads (GLevel 4) (call_tokens t) (call_expr t) r.
Proof.
  intros (Hi & Hp)%tier_prices_ok Hr. unfold ends_sum in Hr. bool_to_prop.
  do 4 (apply reads_up_stop; [done|]). unfold call_tokens. apply reads_call. eapply reads_more.
  - apply reads_plain; [done|]. do 4 (apply reads_up_stop; [done|]). apply reads_str.
  - apply (reads_last _ [EStr (v_label t)]). apply reads_plain; [done|]. by apply reads_sum.
Qed.

(** The tokens of a configuration and its expression. *)
Definition guard_tokens (t : VisualTier) : list token :=
  match v_conditions t with c :: cs => cond_tokens c ++ and_tokens cs | [] => [] end.
Definition guard_expr (t : VisualTier) : expr :=
  match v_conditions t with c :: cs => conds_expr c cs | [] => ENum num_zero end.

Fixpoint chain_tokens (ts : list VisualTier) : list token :=
  match ts with
  | [] => []
  | [t] => call_tokens t
  | t :: ts => guard_tokens t ++ TP PQuestion :: call_tokens t ++ TP PColon :: chain_tokens ts
  end.
Fixpoint chain_expr (ts : list VisualTier) : expr :=
  match ts with
  | [] => ENum num_zero
  | [t] => call_expr t
  | t :: ts => ECond (guard_expr t) (call_expr t) (chain_expr ts)
  end.

Definition free_tokens : list token := sum_tokens (js "p", num_zero) [(js "c", num_zero)].
Definition free_expr : expr := sum_expr (js "p", num_zero) [(js "c", num_zero)].

Lemma reads_guard t r : tier_eval_ok t = true -> v_conditions t <> [] -> reads (GLevel 4) (guard_tokens t) (guard_expr t) (TP PQuestion :: r).
Proof.
  unfold tier_eval_ok, guard_tokens, guard_expr. intros H Hc. bool_to_prop. destruct (v_conditions t) as [|c cs]; [done|]. by apply reads_conds.
Qed.

Lemma reads_branch t w e r :
  tier_eval_ok t = true -> v_conditions t <> [] -> reads GCond w e r ->
  reads GCond (guard_tokens t ++ TP PQuestion :: call_tokens t ++ TP PColon :: w) (ECond (guard_expr t) (call_expr t) e) r.
Proof.
  intros Ht Hc Hw. apply reads_cond; [by apply reads_guard | apply reads_plain; [done | by apply reads_tier] | done].
Qed.

Lemma reads_chain ts : forallb tier_eval_ok ts = true -> chain_ok ts = true -> reads GCond (chain_tokens ts) (chain_expr ts) [].
Proof.
  induction ts as [|t ts IH]; intros Hok Hch; [done|]. cbn [forallb] in Hok. apply andb_prop in Hok as [Ht Hts].
  destruct ts as [|t' ts]; [apply reads_plain; [done | by apply reads_tier]|].
  cbn [chain_ok] in Hch. change (chain_tokens (t :: t' :: ts)) with (guard_tokens t ++ TP PQuestion :: call_tokens t ++ TP PColon :: chain_tokens (t' :: ts)).
  change (chain_expr (t :: t' :: ts)) with (ECond (guard_expr t) (call_expr t) (chain_expr (t' :: ts))).
  destruct (v_conditions t) eqn:Ec; [done|]. apply reads_branch; [done | by rewrite Ec | by apply IH].
Qed.

(** *** Lexing *)
Definition is_ident (x : jsstr) : bool := match x with c :: _ => ident_start c && forallb ident_char x | [] => false end.

Lemma lexed_var x r ks : is_ident x = true -> ident_next r = false -> lexed r ks -> lexed (x ++ r) (TId x :: ks).
Proof. unfold is_ident. destruct x as [|c x]; [done|]. intros [Hc Hx]%andb_prop Hr Hl. by apply (lexed_ident _ c x). Qed.

Lemma lexed_infix o p r ks :
  (forall r, lex_token (o ++ js " " ++ r) = Some (TP p, js " " ++ r)) -> starts_ok o = true -> lexed r ks ->
  lexed (js " " ++ o ++ js " " ++ r) (TP p :: ks).
Proof.
  intros Ho Hs Hl. apply lexed_ws; [done|]. destruct o as [|c o]; [done|].
  apply (lexed_token _ _ (js " " ++ r)); [cbn in *; by destruct (is_ws c) | done | rewrite !length_app; cbn; lia | by apply lexed_ws].
Qed.

Lemma lexed_price q r ks :
  is_ident q.1 = true -> num_literal_ok q.2 = true -> num_end r = true -> lexed r ks -> lexed (price_text q.1 q.2 ++ r) (price_tokens q ++ ks).
Proof.
  intros Hi Hn Hr Hl. unfold price_text, price_tokens. rewrite <- !app_assoc. cbn [app]. apply lexed_var; [done | done |].
  apply (lexed_infix (js "*") PTimes); [done | done |]. by apply lexed_num.
Qed.

Lemma lexed_plus l r ks :
  forallb (fun q => is_ident q.1 && num_literal_ok q.2) l = true -> num_end r = true -> lexed r ks ->
  lexed (concat (map (fun q => js " + " ++ price_text q.1 q.2) l) ++ r) (plus_tokens l ++ ks).
Proof.
  intros Hl Hr Hk. induction l as [|q l IH]; [done|]. cbn [forallb] in Hl. apply andb_prop in Hl as [[Hi Hn]%andb_prop Hl].
  unfold plus_tokens. cbn [map concat]. rewrite <- !app_assoc. apply (lexed_infix (js "+") PPlus); [done | done|].
  apply lexed_price; [done | done | by destruct l | by apply IH].
Qed.

Lemma lexed_sum q l r ks :
  forallb (fun q => is_ident q.1 && num_literal_ok q.2) (q :: l) = true -> num_end r = true -> lexed r ks ->
  lexed (price_text q.1 q.2 ++ concat (map (fun q => js " + " ++ price_text q.1 q.2) l) ++ r) (sum_tokens q l ++ ks).
Proof.
  cbn [forallb]. intros [[Hi Hn]%andb_prop Hl]%andb_prop Hr Hk. unfold sum_tokens. rewrite <- app_assoc.
  apply lexed_price; [done | done | by destruct l | by apply lexed_plus].
Qed.

Lemma opt_text_filter vs : opt_text vs = concat (map (fun q => js " + " ++ price_text q.1 q.2) (List.filter (fun q => num_truthy q.2) vs)).
Proof. unfold opt_text. induction vs as [|q vs IH]; [done|]. cbn [map concat List.filter]. destruct (num_truthy q.2); cbn [map concat]; by rewrite IH. Qed.

Lemma vars_ident : forallb is_ident (map snd BILLING_CACHE_VAR_MAP) = true.
Proof. vm_compute. reflexivity. Qed.

Lemma tier_prices_lex t : tier_eval_ok t = true -> forallb (fun q => is_ident q.1 && num_literal_ok q.2) (p_price t :: tier_prices t) = true.
Proof.
  intros (Hi & Hp)%tier_prices_ok. cbn [forallb p_price fst snd]. rewrite Hi. cbn [andb].
  change (is_ident (js "p")) with true. cbn [andb]. rewrite forallb_forall in *. intros q Hq. rewrite (Hp q Hq), andb_true_r.
  destruct Hq as [<- | Hq]; [done|]. apply filter_In in Hq as [Hq _]. unfold tier_extra in Hq. apply in_map_iff in Hq as (cv & <- & Hcv).
  cbn [fst]. pose proof vars_ident as Hv. rewrite forallb_forall in Hv. by apply Hv, in_map.
Qed.

Lemma lexed_char c p r ks : (forall r, lex_token (c :: r) = Some (TP p, r)) -> is_ws c = false -> lexed r ks -> lexed (c :: r) (TP p :: ks).
Proof. intros Hc Hw Hl. apply (lexed_token _ _ r); [done | done | cbn; lia | done]. Qed.

(** The call of [tier], around the sum. *)
Lemma lexed_call label body r ts ks :
  forallb str_char label = true -> lexed r ks -> (forall r ks, num_end r = true -> lexed r ks -> lexed (body ++ r) (ts ++ ks)) ->
  lexed (tier_call label body ++ r) (TId (js "tier") :: TP POpen :: TStr label :: TP PComma :: ts ++ TP PClose :: ks).
Proof.
  intros Hs Hl Hb. unfold tier_call. change (js "tier(") with (js "tier" ++ js "("). rewrite <- !app_assoc.
  apply lexed_var; [done | done |]. apply (lexed_char 40 POpen); [done | done |].
  apply (lexed_string label (js ", " ++ body ++ js ")" ++ r)); [done|]. apply (lexed_char 44 PComma); [done | done |].
  apply (lexed_ws [32]); [done|]. apply Hb; [done|]. by apply (lexed_char 41 PClose).
Qed.

Lemma lexed_tier t r ks :
  tier_ok t = true -> tier_eval_ok t = true -> lexed r ks ->
  lexed (tier_call (v_label t) (buildTierBodyExpr t) ++ r) (call_tokens t ++ ks).
Proof.
  intros Ht He Hl. pose proof (tier_prices_lex t He) as Hp. unfold tier_ok in Ht. bool_to_prop.
  assert (Hs : forallb str_char (v_label t) = true) by (unfold tier_eval_ok in He; by bool_to_prop).
  unfold call_tokens. cbn [app]. rewrite <- app_assoc. apply lexed_call; [done | done |]. clear r ks Hl. intros r ks Hr Hl.
  pose proof (lexed_sum (p_price t) (tier_prices t) r ks Hp Hr Hl) as Hsum.
  rewrite body_text, opt_text_filter by done. unfold p_price, tier_prices, price_text in Hsum |- *. cbn [map concat fst snd] in Hsum.
  rewrite <- !app_assoc in *. exact Hsum.
Qed.

Lemma lexed_cond c r ks :
  cond_ok c = true -> cond_eval_ok c = true -> num_end r = true -> lexed r ks -> lexed (cond_text c ++ r) (cond_tokens c ++ ks).
Proof.
  intros (Hv & Ho & n & En & _)%cond_ok_spec He Hr Hl. unfold cond_eval_ok, cond_n in He. rewrite En in He. bool_to_prop.
  unfold cond_text, cond_tokens, cond_n. rewrite En. cbn [value_text]. rewrite <- !app_assoc. cbn [app].
  apply lexed_var; [| done |].
  - unfold cond_vars in Hv. repeat (apply elem_of_cons in Hv as [->|Hv]); [done.. | by apply not_elem_of_nil in Hv].
  - apply lexed_infix; [| | by apply lexed_num].
    + intros u. unfold OPS in Ho. repeat (apply elem_of_cons in Ho as [->|Ho]); [reflexivity.. | by apply not_elem_of_nil in Ho].
    + unfold OPS in Ho. repeat (apply elem_of_cons in Ho as [->|Ho]); [reflexivity.. | by apply not_elem_of_nil in Ho].
Qed.

Lemma lexed_and cs r ks :
  forallb cond_ok cs = true -> forallb cond_eval_ok cs = true -> num_end r = true -> lexed r ks -> lexed (and_tail cs ++ r) (and_tokens cs ++ ks).
Proof.
  intros Hc He Hr Hl. induction cs as [|c cs IH]; [done|]. cbn [forallb] in Hc, He. apply andb_prop in Hc as [Hc Hcs], He as [He Hes].
  unfold and_tail, and_tokens. cbn [map concat]. rewrite <- !app_assoc. apply (lexed_infix (js "&&") PAnd); [done | done |].
  apply lexed_cond; [done | done | by destruct cs | by apply IH].
Qed.

Lemma lexed_guard t r ks :
  tier_ok t = true -> tier_eval_ok t = true -> v_conditions t <> [] -> lexed r ks ->
  lexed (conds_text (v_conditions t) ++ js " ? " ++ r) (guard_tokens t ++ TP PQuestion :: ks).
Proof.
  intros Ht%tier_ok_conds He Hne Hl. assert (Hes : forallb cond_eval_ok (v_conditions t) = true) by (unfold tier_eval_ok in He; by bool_to_prop).
  unfold guard_tokens. destruct (v_conditions t) as [|c cs]; [done|]. cbn [forallb] in Ht, Hes. apply andb_prop in Ht as [Hc Hcs], Hes as [He1 He2].
  rewrite conds_text_cons. fold (and_tail cs). rewrite <- !app_assoc. apply lexed_cond; [done | done | by destruct cs |].
  apply lexed_and; [done | done | done |]. by apply (lexed_infix (js "?") PQuestion).
Qed.

Lemma lexed_branch t r ks :
  tier_ok t = true -> tier_eval_ok t = true -> v_conditions t <> [] -> lexed r ks ->
  lexed ((piece true t).1 ++ js " : " ++ r) (guard_tokens t ++ TP PQuestion :: call_tokens t ++ TP PColon :: ks).
Proof.
  intros Ht He Hc Hl. unfold piece. cbn [fst]. rewrite <- !app_assoc. apply lexed_guard; [done..|]. apply lexed_tier; [done..|].
  by apply (lexed_infix (js ":") PColon).
Qed.

Lemma lexed_chain ts :
  forallb tier_ok ts = true -> forallb tier_eval_ok ts = true -> chain_ok ts = true ->
  lexed (join (js " : ") (map fst (chain_pieces ts))) (chain_tokens ts).
Proof.
  induction ts as [|t ts IH]; intros Hok He Hch; [done|]. cbn [forallb] in Hok, He. apply andb_prop in Hok as [Ht Hts], He as [He Hes].
  destruct ts as [|t' ts].
  - cbn [chain_pieces map join chain_tokens]. unfold piece. cbn [fst].
    rewrite <- (app_nil_r (tier_call _ _)), <- (app_nil_r (call_tokens t)). apply lexed_tier; [done | done | apply lexed_nil].
  - cbn [chain_ok] in Hch. destruct (v_conditions t) eqn:Ec; [done|].
    change (chain_pieces (t :: t' :: ts)) with (piece true t :: chain_pieces (t' :: ts)).
    change (chain_tokens (t :: t' :: ts)) with (guard_tokens t ++ TP PQuestion :: call_tokens t ++ TP PColon :: chain_tokens (t' :: ts)).
    cbn [map]. replace (join (js " : ") ((piece true t).1 :: map fst (chain_pieces (t' :: ts))))
      with ((piece true t).1 ++ js " : " ++ join (js " : ") (map fst (chain_pieces (t' :: ts)))) by (by destruct ts).
    apply lexed_branch; [done | done | by rewrite Ec | by apply IH].
Qed.

(** *** Evaluation *)
Section Eval.
Context (rho : env).

Lemma eval_num n tier : num_literal_ok n = true -> eval rho (num_expr n) tier = Some (VN n, tier).
Proof.
  unfold num_literal_ok, num_expr, num_tokens. destruct (num_to_string n) as [|c t]; [done|]. destruct (c =? minus); [|done].
  destruct (lex_number t) as [[m [|]]|]; [|done..]. intros H. bool_to_prop. cbn. by rewrite H.
Qed.

Definition known (x : jsstr) : bool := map_has x rho.

Lemma eval_var x tier : known x = true -> eval rho (EVar x) tier = Some (VN (count rho x), tier).
Proof. unfold known, map_has, count. cbn. by destruct (map_get x rho). Qed.

Lemma eval_price q tier :
  known q.1 = true -> num_literal_ok q.2 = true -> eval rho (price_expr q) tier = Some (VN (num_mul (count rho q.1) q.2), tier).
Proof.
  intros Hk Hn. unfold price_expr. cbn [eval]. fold (eval rho (EVar q.1) tier). rewrite (eval_var q.1 tier Hk). cbn [mbind option_bind].
  by rewrite eval_num.
Qed.

Lemma eval_plus l a n tier :
  eval rho a tier = Some (VN n, tier) -> forallb (fun q => known q.1 && num_literal_ok q.2) l = true ->
  eval rho (fold_left (fun a q => EBin BAdd a (price_expr q)) l a) tier
  = Some (VN (fold_left (fun acc q => num_add acc (num_mul (count rho q.1) q.2)) l n), tier).
Proof.
  revert a n. induction l as [|q l IH]; intros a n Ha Hl; [done|]. cbn [forallb] in Hl. apply andb_prop in Hl as [[Hk Hn]%andb_prop Hl].
  cbn [fold_left]. apply IH; [|done]. cbn [eval]. rewrite Ha. cbn [mbind option_bind].
  fold (eval rho (price_expr q) tier). by rewrite eval_price.
Qed.

Lemma eval_cond c tier :
  cop c ∈ OPS -> known (cvar c) = true -> num_literal_ok (cond_n c) = true ->
  eval rho (cond_expr c) tier = Some (bin_num (op_bin (cop c)) (count rho (cvar c)) (cond_n c), tier).
Proof.
  intros Ho Hk Hn. unfold cond_expr. pose proof (eval_var (cvar c) tier Hk) as Hv. pose proof (eval_num (cond_n c) tier Hn) as Hm.
  unfold OPS in Ho. repeat (apply elem_of_cons in Ho as [->|Ho]); [.. | by apply not_elem_of_nil in Ho];
    cbn [eval] in *; rewrite Hv; cbn [mbind option_bind]; by rewrite Hm.
Qed.

Definition cond_known (c : TierConditionInput) : Prop :=
  cop c ∈ OPS /\ known (cvar c) = true /\ num_literal_ok (cond_n c) = true /\ cvalue c = VNum (cond_n c).

Lemma eval_holds c tier : cond_known c -> exists v, eval rho (cond_expr c) tier = Some (v, tier) /\ to_boolean v = cond_holds rho c.
Proof.
  intros (Ho & Hk & Hn & Hv). eexists. split; [by apply eval_cond|]. unfold cond_holds. by rewrite Hv.
Qed.

Lemma eval_and l a v tier :
  eval rho a tier = Some (v, tier) -> Forall cond_known l ->
  exists v', eval rho (fold_left (fun a c => EBin BAnd a (cond_expr c)) l a) tier = Some (v', tier) /\
    to_boolean v' = to_boolean v && forallb (cond_holds rho) l.
Proof.
  intros Ha Hl. revert a v Ha. induction Hl as [|c l Hc Hl IH]; intros a v Ha; [exists v; by rewrite andb_true_r|].
  cbn [fold_left forallb]. destruct (eval_holds c tier Hc) as (w & Hw & Hb).
  destruct (IH (EBin BAnd a (cond_expr c)) (if to_boolean v then w else v)) as (v' & Hv' & Hb').
  - cbn [eval]. rewrite Ha. cbn [mbind option_bind]. fold (eval rho (cond_expr c) tier). rewrite Hw. by destruct (to_boolean v).
  - exists v'. split; [done|]. rewrite Hb'. destruct (to_boolean v) eqn:E; [by rewrite Hb | by rewrite E].
Qed.

Lemma eval_guard t tier :
  Forall cond_known (v_conditions t) -> v_conditions t <> [] ->
  exists v, eval rho (guard_expr t) tier = Some (v, tier) /\ to_boolean v = forallb (cond_holds rho) (v_conditions t).
Proof.
  intros Hc Hne. unfold guard_expr, conds_expr. destruct (v_conditions t) as [|c cs]; [done|]. inversion Hc as [|? ? H1 H2]; subst.
  destruct (eval_holds c tier H1) as (w & Hw & Hb). destruct (eval_and cs _ w tier Hw H2) as (v & Hv & Hb').
  exists v. split; [done|]. cbn [forallb]. by rewrite Hb', Hb.
Qed.

Definition tier_known (t : VisualTier) : Prop :=
  forallb (fun q => known q.1 && num_literal_ok q.2) (p_price t :: tier_prices t) = true /\ Forall cond_known (v_conditions t).

Lemma eval_call t tier : tier_known t -> eval rho (call_expr t) tier = Some (VN (tier_cost rho t), v_label t).
Proof.
  intros [Hp _]. cbn [forallb] in Hp. apply andb_prop in Hp as [[Hk Hn]%andb_prop Hl]. unfold call_expr.
  pose proof (eval_plus (tier_prices t) _ _ tier (eval_price (p_price t) tier Hk Hn) Hl) as Hs.
  fold (sum_expr (p_price t) (tier_prices t)) in Hs. cbn [eval]. rewrite bool_decide_eq_true_2 by done. cbn [mbind option_bind].
  fold (eval rho (sum_expr (p_price t) (tier_prices t)) tier). rewrite Hs. reflexivity.
Qed.

Lemma eval_branch t e tier :
  tier_known t -> v_conditions t <> [] ->
  eval rho (ECond (guard_expr t) (call_expr t) e) tier
  = if forallb (cond_holds rho) (v_conditions t) then Some (VN (tier_cost rho t), v_label t) else eval rho e tier.
Proof.
  intros Ht Hne. destruct (eval_guard t tier (proj2 Ht) Hne) as (v & Hv & Hb).
  cbn [eval]. rewrite Hv. cbn [mbind option_bind]. rewrite Hb. fold (eval rho (call_expr t) tier).
  destruct (forallb (cond_holds rho) (v_conditions t)); [by apply eval_call | done].
Qed.

Lemma eval_chain ts tier :
  Forall tier_known ts -> chain_ok ts = true ->
  exists t, matched rho ts = Some t /\ eval rho (chain_expr ts) tier = Some (VN (tier_cost rho t), v_label t).
Proof.
  induction ts as [|t ts IH]; intros Hk Hch; [done|]. inversion Hk as [|? ? Ht Hts]; subst. unfold matched. cbn [List.find]. destruct ts as [|t' ts].
  - cbn in Hch. destruct (v_conditions t) eqn:Ec; [|done]. exists t. split; [done|]. by apply eval_call.
  - cbn [chain_ok] in Hch. destruct (v_conditions t) eqn:Ec; [done|]. rewrite <- Ec.
    change (chain_expr (t :: t' :: ts)) with (ECond (guard_expr t) (call_expr t) (chain_expr (t' :: ts))).
    rewrite eval_branch by (done || by rewrite Ec). destruct (forallb (cond_holds rho) (v_conditions t)); [by exists t | by apply IH].
Qed.
End Eval.

(** ** The estimate *)
Lemma env_known pt ct extra : forallb (known (estimator_env pt ct extra)) ([js "p"; js "c"; js "len"] ++ map snd BILLING_CACHE_VAR_MAP) = true.
Proof. reflexivity. Qed.

Definition config_eval_ok (c : VisualConfig) : bool := forallb tier_eval_ok (tiers c).

Lemma tier_known_env pt ct extra t : tier_ok t = true -> tier_eval_ok t = true -> tier_known (estimator_env pt ct extra) t.
Proof.
  intros Ht He. pose proof (env_known pt ct extra) as Hk. rewrite forallb_forall in Hk. split.
  - apply tier_prices_ok in He as [Hi Hp]. cbn [forallb p_price fst snd]. rewrite Hi. rewrite (Hk (js "p")) by (by left). cbn [andb].
    rewrite forallb_forall in *. intros q Hq. rewrite (Hp q Hq), andb_true_r. apply Hk. destruct Hq as [<-|Hq]; [right; by left|].
    apply filter_In in Hq as [Hq _]. apply in_map_iff in Hq as (cv & <- & Hcv). cbn [fst]. apply in_or_app. right. by apply in_map.
  - apply tier_ok_conds in Ht. assert (Hes : forallb cond_eval_ok (v_conditions t) = true) by (unfold tier_eval_ok in He; by bool_to_prop).
    rewrite forallb_forall in Ht, Hes. apply Forall_forall. intros c Hc%list_elem_of_In. specialize (Ht c Hc). specialize (Hes c Hc).
    apply cond_ok_spec in Ht as (Hv & Ho & n & En & _). unfold cond_eval_ok in Hes. bool_to_prop.
    split; [done|]. split; [|split; [done | unfold cond_n; by rewrite En]].
    apply Hk, in_or_app. left. by apply list_elem_of_In.
Qed.

(** What the fragment makes of the generated text. *)
Lemma js_eval_reads rho s ks e v tier :
  lexed s ks -> reads GCond ks e [] -> eval rho e [] = Some (v, tier) -> js_eval rho s = Some (v, tier).
Proof. intros Hl%lexed_lex Hr%reads_parse He. unfold js_eval. rewrite Hl. cbn. rewrite Hr. cbn. exact He. Qed.

Lemma lexed_free : lexed FREE free_tokens.
Proof. apply (lexed_sum (js "p", num_zero) [(js "c", num_zero)] [] []); [reflexivity | reflexivity | apply lexed_nil]. Qed.

Lemma js_eval_guarded pt ct extra t :
  tier_ok t = true -> tier_eval_ok t = true -> v_conditions t <> [] ->
  js_eval (estimator_env pt ct extra) (generateExprFromVisualConfig (Some (mkConfig [t])))
  = let '(n, l) := charge (estimator_env pt ct extra) (mkConfig [t]) in Some (VN n, l).
Proof.
  intros Ht He Hne. set (rho := estimator_env pt ct extra).
  assert (Hg : generateExprFromVisualConfig (Some (mkConfig [t])) = (piece true t).1 ++ js " : " ++ FREE).
  { unfold generateExprFromVisualConfig. cbn [tiers]. rewrite tier_ok_label by done. rewrite cond_complete_ok by (by apply tier_ok_conds).
    destruct (v_conditions t) as [|c cs] eqn:Ec; [done|]. rewrite conds_truthy by (rewrite <- Ec; by apply tier_ok_conds).
    unfold piece. cbn [fst]. by rewrite Ec, <- !app_assoc. }
  rewrite Hg. pose proof (tier_known_env pt ct extra t Ht He) as Hk. fold rho in Hk.
  assert (Hf : eval rho free_expr [] = Some (VN (free_cost rho), [])) by reflexivity.
  assert (Hb := eval_branch rho t free_expr [] Hk Hne). rewrite Hf in Hb.
  assert (Hl : lexed ((piece true t).1 ++ js " : " ++ FREE) (guard_tokens t ++ TP PQuestion :: call_tokens t ++ TP PColon :: free_tokens))
    by (apply lexed_branch; [done | done | done | apply lexed_free]).
  assert (Hr : reads GCond (guard_tokens t ++ TP PQuestion :: call_tokens t ++ TP PColon :: free_tokens) (ECond (guard_expr t) (call_expr t) free_expr) [])
    by (apply reads_branch; [done | done | apply reads_plain; [done | by apply reads_sum]]).
  unfold charge, matched. cbn [tiers List.find].
  destruct (forallb (cond_holds rho) (v_conditions t)); by apply (js_eval_reads _ _ _ _ _ _ Hl Hr).
Qed.

Lemma js_eval_chain pt ct extra ts :
  forallb tier_ok ts = true -> forallb tier_eval_ok ts = true -> chain_ok ts = true ->
  js_eval (estimator_env pt ct extra) (join (js " : ") (map fst (chain_pieces ts)))
  = let '(n, l) := charge (estimator_env pt ct extra) (mkConfig ts) in Some (VN n, l).
Proof.
  intros Hok He Hch. assert (Hk : Forall (tier_known (estimator_env pt ct extra)) ts).
  { rewrite forallb_forall in *. apply Forall_forall. intros t Ht%list_elem_of_In. by apply tier_known_env; [apply Hok | apply He]. }
  destruct (eval_chain _ ts [] Hk Hch) as (t & Hm & Hev). unfold charge. cbn [tiers]. rewrite Hm.
  eapply js_eval_reads; [by apply lexed_chain | by apply reads_chain | done].
Qed.

Lemma js_eval_config pt ct extra c :
  config_ok c = true -> config_eval_ok c = true ->
  js_eval (estimator_env pt ct extra) (generateExprFromVisualConfig (Some c))
  = let '(n, l) := charge (estimator_env pt ct extra) c in Some (VN n, l).
Proof.
  destruct c as [[|t [|t' ts]]]; unfold config_ok, config_eval_ok; cbn [tiers]; intros H He; [done | |].
  - cbn in H, He. rewrite !andb_true_r in *. destruct (v_conditions t) as [|c cs] eqn:Ec; [|by apply js_eval_guarded; [..|rewrite Ec]].
    unfold generateExprFromVisualConfig. cbn [tiers]. rewrite tier_ok_label, Ec by done.
    apply (js_eval_chain pt ct extra [t]); cbn; by rewrite ?H, ?He, ?Ec.
  - apply andb_prop in H as [Hok Hch]. unfold generateExprFromVisualConfig. cbn [tiers].
    rewrite (chain_parts 0 (t :: t' :: ts)) by done. by apply js_eval_chain.
Qed.

Lemma js_eval_nonblank rho s x : js_eval rho s = Some x -> truthy s = true /\ truthy (trim s) = true.
Proof.
  intros H. assert (Ht : truthy (trim s) = true).
  { destruct (trim s) eqn:E; [|done]. apply trim_nil_all_ws in E. exfalso.
    assert (Hl : lex s = Some []). { unfold lex. destruct (length s); cbn; rewrite <- (app_nil_r s), drop_while_app by done; done. }
    unfold js_eval in H. by rewrite Hl in H. }
  split; [|done]. by destruct s.
Qed.

(** [new Function(...)] runs the expressions of the fragment as [JsExpr] says. *)
Definition run_agrees (run : env -> jsstr -> RunResult) : Prop :=
  forall rho s n tier, js_eval rho s = Some (VN n, tier) -> run rho s = Returned n tier.


(** A reference run: the fragment itself, and an error elsewhere. *)
Definition fragment_run (rho : env) (s : jsstr) : RunResult :=
  match js_eval rho s with Some (VN n, tier) => Returned n tier | _ => Thrown (js "outside the fragment") end.

Lemma fragment_run_agrees : run_agrees fragment_run.
Proof. intros rho s n tier H. unfold fragment_run. by rewrite H. Qed.

End TierEval.
