(* ===== verification/TieredEditor.v ===== *)
(** * The editor of tiered prices
    ([src/web/default/src/features/system-settings/models/tiered-pricing-editor.tsx])

    The editor holds a visual configuration or a raw text, and the groups of
    request rules; the page that shows it holds the two stored texts.  Effects
    that run after every rendering copy the editor's state into the texts, and
    re-read the texts into the state when a reference says so.  The module models
    the number inputs, every handler of the cards, the effects of one commit with
    the values of its rendering, and the commits until nothing changes.  A
    rendering that throws ends the editor ([Throw]). *)
From stdpp Require Import relations.
From S2P Require Import Prelude JsString JsNumber Json JsRegex BillingExpr TierExpr.
Import BillingExpr TierExpr.
Local Open Scope Z_scope.

Module TieredEditor.
#[local] Arguments js : simpl never.

(** ** Number inputs *)
Definition unitCostToPrice (uc : num) : num := num_or0 (Some uc).
Definition priceToUnitCost (price : num) : num := num_or0 (Some price).

Section Hint.
Context (toLocaleString : num -> jsstr).

Definition formatTokenHint (n : option CondValue) : jsstr :=
  match n with
  | None | Some (VStr []) => []
  | Some v =>
      let v := match v with VNum n => n | VStr s => num_of_string s end in
      if num_is_nan v then []
      else if num_eqb v num_zero then js "= 0"
      else if num_leb (num_of_Z 1000000) v then js "= " ++ toLocaleString (num_div v (num_of_Z 1000000)) ++ js "M tokens"
      else if num_leb (num_of_Z 1000) v then js "= " ++ toLocaleString (num_div v (num_of_Z 1000)) ++ js "K tokens"
      else js "= " ++ toLocaleString v ++ js " tokens"
  end.
End Hint.

Definition formatNumberDraft (value : CondValue) : jsstr :=
  match value with
  | VStr s => s
  | VNum n => if num_is_finite n then num_to_string n else js "0"
  end.

Definition parseNumberDraft (value : jsstr) : num :=
  if negb (truthy (trim value)) then num_zero
  else let next := num_of_string value in if num_is_finite next then next else num_zero.

Definition isZeroDraft (value : jsstr) : bool := truthy (trim value) && num_eqb (parseNumberDraft value) num_zero.

(** [DraftNumberInput]: its draft, its focus, and the value of its owner. *)
Record Draft := mkDraft { draft : jsstr; focused : bool; owner : CondValue }.

Definition draft_mount (v : CondValue) : Draft := mkDraft (formatNumberDraft v) false v.

(** The effect on the focus and the owner's value. *)
Definition draft_sync (d : Draft) : Draft := if focused d then d else mkDraft (formatNumberDraft (owner d)) false (owner d).

(** The owner stores what the input reports. *)
Definition draft_change (text : jsstr) (d : Draft) : Draft := mkDraft text (focused d) (VNum (parseNumberDraft text)).
Definition draft_focus (d : Draft) : Draft := mkDraft (draft d) true (owner d).
Definition draft_blur (d : Draft) : Draft :=
  let normalized := parseNumberDraft (draft d) in mkDraft (num_to_string normalized) false (VNum normalized).

(** Whether focusing selects the text. *)
Definition selects_zero (selectZeroOnFocus : bool) (d : Draft) : bool := selectZeroOnFocus && isZeroDraft (draft d).

(** ** Tier cards *)
Definition list_set {A} (i : nat) (x : A) (l : list A) : list A := <[i := x]> l.
Definition list_remove {A} (i : nat) (l : list A) : list A := take i l ++ drop (S i) l.

Definition with_conditions (cs : list TierConditionInput) (t : VisualTier) : VisualTier :=
  mkVTier (v_label t) cs (input_unit_cost t) (output_unit_cost t) (cache_mode t) (v_extra t).

Definition handleConditionChange (i : nat) (next : TierConditionInput) (t : VisualTier) : VisualTier :=
  with_conditions (list_set i next (v_conditions t)) t.

Definition handleConditionRemove (i : nat) (t : VisualTier) : VisualTier := with_conditions (list_remove i (v_conditions t)) t.

(** [{ ...tier, [field]: value }] for a price. *)
Definition handlePriceChange (field : jsstr) (value : num) (t : VisualTier) : VisualTier :=
  if bool_decide (field = js "input_unit_cost") then
    mkVTier (v_label t) (v_conditions t) value (output_unit_cost t) (cache_mode t) (v_extra t)
  else if bool_decide (field = js "output_unit_cost") then
    mkVTier (v_label t) (v_conditions t) (input_unit_cost t) value (cache_mode t) (v_extra t)
  else mkVTier (v_label t) (v_conditions t) (input_unit_cost t) (output_unit_cost t) (cache_mode t) (map_set field value (v_extra t)).

Definition handleCacheModeChange (m : CacheMode) (t : VisualTier) : VisualTier :=
  mkVTier (v_label t) (v_conditions t) (input_unit_cost t) (output_unit_cost t) m
    (map_set f_cc1h (match m with CACHE_MODE_TIMED => default num_zero (map_get f_cc1h (v_extra t)) | CACHE_MODE_GENERIC => num_zero end) (v_extra t)).

Definition handleLabelChange (label : jsstr) (t : VisualTier) : VisualTier :=
  mkVTier label (v_conditions t) (input_unit_cost t) (output_unit_cost t) (cache_mode t) (v_extra t).

Definition MEDIA_PRICE_VARS : list BillingVar := List.filter (fun v => bool_decide (group v = Some (js "media"))) BILLING_EXTRA_VARS.
Definition CACHE_PRICE_VARS : list BillingVar := List.filter (fun v => bool_decide (group v = Some (js "cache"))) BILLING_EXTRA_VARS.

Definition tier_price (t : VisualTier) (v : BillingVar) : num :=
  unitCostToPrice (default num_zero (map_get (default [] (tierField v)) (v_extra t))).

Definition hasMediaPricing (t : VisualTier) : bool := existsb (fun v => num_ltb num_zero (tier_price t v)) MEDIA_PRICE_VARS.

(** The cache prices a card shows. *)
Definition shown_cache_vars (t : VisualTier) : list BillingVar :=
  List.filter (fun v => negb (bool_decide (key v = js "cc1h") &&
    match getTierCacheMode (Some (partial_of t)) with CACHE_MODE_TIMED => false | CACHE_MODE_GENERIC => true end)) CACHE_PRICE_VARS.

(** ** The list of tiers, on the normalised configuration *)
Definition threshold : TierConditionInput := mkCond (js "len") (js "<") (VNum (num_of_Z 200000)).

Definition handleTierChange (i : nat) (next : VisualTier) (config : VisualConfig) : VisualConfig :=
  mkConfig (list_set i (normalizeVisualTier (partial_of next)) (tiers config)).

Definition close_last (ts : list VisualTier) : list VisualTier :=
  match last ts with
  | Some t =>
      match v_conditions t with
      | [] => list_set (length ts - 1) (normalizeVisualTier (partial_of (with_conditions [threshold] t))) ts
      | _ => ts
      end
  | None => ts
  end.

Definition handleAddTier (config : VisualConfig) : VisualConfig :=
  let ts := close_last (tiers config) in
  mkConfig (ts ++ [normalizeVisualTier (mkPartial (Some (js "tier_" ++ string_of_Z (Z.of_nat (length ts) + 1))) (Some [])
                     (Some num_zero) (Some num_zero) None [])]).

Definition handleRemoveTier (i : nat) (config : VisualConfig) : VisualConfig :=
  match list_remove i (tiers config) with [] => config | ts => mkConfig ts end.

Definition handleAddCondition (i : nat) (config : VisualConfig) : option VisualConfig :=
  match tiers config !! i with
  | Some t =>
      if (2 <=? length (v_conditions t))%nat then None
      else
        let nextVar := if bool_decide (js "len" ∈ map cvar (v_conditions t)) then js "c" else js "len" in
        Some (mkConfig (list_set i (with_conditions (v_conditions t ++ [mkCond nextVar (js "<") (VNum (num_of_Z 200000))]) t) (tiers config)))
  | None => None
  end.

(** ** Rule cards *)
Inductive SourceChoice := SOURCE_PARAM | SOURCE_HEADER | SOURCE_TIME.

Definition handleSourceChange (s : SourceChoice) : RequestCondition :=
  match s with
  | SOURCE_TIME => CTime createEmptyTimeCondition
  | SOURCE_HEADER => CPH (mkPH header (path createEmptyCondition) (BillingExpr.mode createEmptyCondition) (BillingExpr.value createEmptyCondition))
  | SOURCE_PARAM => CPH (mkPH param (path createEmptyCondition) (BillingExpr.mode createEmptyCondition) (BillingExpr.value createEmptyCondition))
  end.

Definition handleRuleModeChange (m : jsstr) (c : RequestCondition) : RequestCondition :=
  match c with
  | CTime c => CTime (mkTime (timeFunc c) (timezone c) m (tvalue_ c) (rangeStart c) (rangeEnd c))
  | CPH c => CPH (mkPH (source c) (path c) m (BillingExpr.value c))
  end.

Definition handleRuleConditionChange (i : nat) (next : RequestCondition) (g : RequestRuleGroup) : RequestRuleGroup :=
  mkGroup (list_set i next (gconditions g)) (multiplier g).

Definition handleAddRuleCondition (timeMode : bool) (g : RequestRuleGroup) : RequestRuleGroup :=
  mkGroup (gconditions g ++ [if timeMode then CTime createEmptyTimeCondition else CPH createEmptyCondition]) (multiplier g).

Definition handleRuleConditionRemove (i : nat) (g : RequestRuleGroup) : RequestRuleGroup :=
  mkGroup (list_remove i (gconditions g)) (multiplier g).

Definition handleMultiplierChange (value : num) (g : RequestRuleGroup) : RequestRuleGroup := mkGroup (gconditions g) (num_to_string value).

(** ** The editor and its page *)
Inductive EditorMode := visual | raw.
#[global] Instance EditorMode_eq_dec : EqDecision EditorMode.
Proof. solve_decision. Defined.

Record Editor := mkEditor {
  editorMode : EditorMode; visualConfig : option VisualConfig; rawExpr : jsstr;
  requestRuleGroups : list RequestRuleGroup; initRef : bool }.

(** The editor, the texts of its page, and the dependencies of the effects at
    the last commit ([None] before the first). *)
Record Page := mkPage {
  ed : Editor; currentExpr : jsstr; currentRequestRuleExpr : jsstr; modelName : jsstr;
  committed : option (jsstr * jsstr * jsstr) }.

Definition parsed_groups (rules : jsstr) : exc (list RequestRuleGroup) :=
  exc_bind (tryParseRequestRuleExpr rules) (fun gs => Ret (default [] gs)).

(** The initial state. *)
Definition mount (name expr rules : jsstr) : exc Page :=
  exc_bind (parsed_groups rules) (fun gs =>
    Ret (mkPage (mkEditor visual (tryParseVisualConfig expr) (combineBillingExpr expr rules) gs false) expr rules name None)).

Definition canUseVisualRules (rules : jsstr) : exc bool :=
  if negb (truthy rules) then Ret true
  else exc_bind (tryParseRequestRuleExpr rules) (fun gs => Ret (match gs with Some _ => true | None => false end)).

Definition effectiveExpr (e : Editor) : exc jsstr :=
  match editorMode e with
  | visual => Ret (generateExprFromVisualConfig (visualConfig e))
  | raw => exc_bind (splitBillingExprAndRequestRules (rawExpr e)) (fun '(billingExpr, _) => Ret billingExpr)
  end.

(** The first effect: re-reading the texts. *)
Definition init_effect (expr rules : jsstr) (e : Editor) : exc Editor :=
  if initRef e then Ret e
  else
    exc_bind (parsed_groups rules) (fun gs =>
      let '(m, cfg) :=
        match tryParseVisualConfig expr with
        | Some parsed => (visual, Some parsed)
        | None => if truthy expr then (raw, None) else (editorMode e, Some createDefaultVisualConfig)
        end in
      Ret (mkEditor m cfg (combineBillingExpr expr rules) gs true)).

(** One commit: the rendering computes its values, the effects whose
    dependencies changed run in order and see those values; the last two effects
    are guarded by what they would write, so that running them again changes
    nothing. *)
Definition commit (p : Page) : exc Page :=
  let e := ed p in
  let expr := currentExpr p in
  let rules := currentRequestRuleExpr p in
  exc_bind (canUseVisualRules rules) (fun _ =>
  exc_bind (effectiveExpr e) (fun eff =>
    let texts_changed := match committed p with Some (x, r, _) => negb (bool_decide (x = expr /\ r = rules)) | None => true end in
    let name_changed := match committed p with Some (_, _, n) => negb (bool_decide (n = modelName p)) | None => true end in
    exc_bind (if texts_changed then init_effect expr rules e else Ret e) (fun e1 =>
    let e2 := if name_changed then mkEditor (editorMode e1) (visualConfig e1) (rawExpr e1) (requestRuleGroups e1) false else e1 in
    let expr' := if bool_decide (eff = expr) then expr else eff in
    let rules' :=
      match editorMode e with
      | raw => rules
      | visual => let ruleExpr := buildRequestRuleExpr (requestRuleGroups e) in if bool_decide (ruleExpr = rules) then rules else ruleExpr
      end in
    Ret (mkPage e2 expr' rules' (modelName p) (Some (expr, rules, modelName p)))))).

(** The commits until the fifth, after which nothing changes (see [settles]). *)
Fixpoint commits (n : nat) (p : Page) : exc Page :=
  match n with O => Ret p | S n => exc_bind (commit p) (commits n) end.
Definition settle (p : Page) : exc Page := commits 5 p.

(** ** Handlers *)
Definition with_ed (e : Editor) (p : Page) : Page := mkPage e (currentExpr p) (currentRequestRuleExpr p) (modelName p) (committed p).
Definition with_rules (rules : jsstr) (p : Page) : Page := mkPage (ed p) (currentExpr p) rules (modelName p) (committed p).

Definition setVisualConfig (c : option VisualConfig) (e : Editor) : Editor := mkEditor (editorMode e) c (rawExpr e) (requestRuleGroups e) (initRef e).
Definition setRawExpr (s : jsstr) (e : Editor) : Editor := mkEditor (editorMode e) (visualConfig e) s (requestRuleGroups e) (initRef e).
Definition setRequestRuleGroups (gs : list RequestRuleGroup) (e : Editor) : Editor := mkEditor (editorMode e) (visualConfig e) (rawExpr e) gs (initRef e).
Definition setEditorMode (m : EditorMode) (e : Editor) : Editor := mkEditor m (visualConfig e) (rawExpr e) (requestRuleGroups e) (initRef e).

Definition handleVisualChange (next : VisualConfig) (p : Page) : Page := with_ed (setVisualConfig (Some next) (ed p)) p.

(** A handler that throws keeps what it had set before. *)
Definition handleRawChange (value : jsstr) (p : Page) : Page :=
  let p := with_ed (setRawExpr value (ed p)) p in
  match splitBillingExprAndRequestRules value with
  | Ret (_, ruleStr) => with_rules ruleStr p
  | Throw => p
  end.

Definition handleModeChange (next : EditorMode) (p : Page) : Page :=
  match next with
  | visual =>
      match splitBillingExprAndRequestRules (rawExpr (ed p)) with
      | Throw => p
      | Ret (billingExpr, ruleStr) =>
          let cfg := match tryParseVisualConfig billingExpr with Some c => c | None => createDefaultVisualConfig end in
          let e := setVisualConfig (Some cfg) (ed p) in
          match tryParseRequestRuleExpr ruleStr with
          | Throw => with_ed e p
          | Ret gs => with_rules ruleStr (with_ed (setEditorMode visual (setRequestRuleGroups (default [] gs) e)) p)
          end
      end
  | raw =>
      let expr := generateExprFromVisualConfig (visualConfig (ed p)) in
      let ruleExpr := buildRequestRuleExpr (requestRuleGroups (ed p)) in
      with_ed (setEditorMode raw (setRawExpr (str_or (combineBillingExpr expr ruleExpr) expr) (ed p))) p
  end.

Record Preset := mkPreset { preset_key : jsstr; preset_label : jsstr; preset_expr : jsstr; preset_rules : option (list RequestRuleGroup) }.

Definition applyPreset (preset : Preset) (p : Page) : Page :=
  let presetGroups := default [] (preset_rules preset) in
  let ruleExpr := buildRequestRuleExpr presetGroups in
  let combined := str_or (combineBillingExpr (preset_expr preset) ruleExpr) (preset_expr preset) in
  let e := setRawExpr combined (ed p) in
  let e :=
    match tryParseVisualConfig (preset_expr preset) with
    | Some parsed => setEditorMode visual (setVisualConfig (Some parsed) e)
    | None => setVisualConfig None (setEditorMode raw e)
    end in
  with_rules ruleExpr (with_ed (setRequestRuleGroups presetGroups e) p).

(** The presets; the text of a tier is written as in the source. *)
Definition tq (label body : jsstr) : jsstr := tier_call label body.
Definition flat (body : jsstr) : jsstr := tq (js "base") body.
Definition opus : jsstr := flat (js "p * 5 + c * 25 + cr * 0.5 + cc * 6.25 + cc1h * 10").
Definition gpt54 : jsstr :=
  js "len <= 272000 ? " ++ tq (js "standard") (js "p * 2.5 + c * 15 + cr * 0.25") ++ js " : " ++ tq (js "long_context") (js "p * 5 + c * 22.5 + cr * 0.5").
Definition weekday_rule (v : jsstr) : RequestRuleGroup :=
  mkGroup [CTime (mkTime (js "weekday") (js "Asia/Shanghai") MATCH_EQ v [] [])] (js "0.8").

Definition PRESET_GROUPS : list (jsstr * list Preset) :=
  [(js "Fixed price",
    [mkPreset (js "flat") (js "Flat") (flat (js "p * 2 + c * 4")) None;
     mkPreset (js "claude-opus") (js "Claude Opus 4.6") opus None;
     mkPreset (js "gpt-5.4") (js "GPT-5.4") gpt54 None]);
   (js "Tiered",
    [mkPreset (js "claude-sonnet") (js "Claude Sonnet 4.5")
       (js "len <= 200000 ? " ++ tq (js "standard") (js "p * 3 + c * 15 + cr * 0.3 + cc * 3.75 + cc1h * 6") ++ js " : "
        ++ tq (js "long_context") (js "p * 6 + c * 22.5 + cr * 0.6 + cc * 7.5 + cc1h * 12")) None;
     mkPreset (js "qwen3-max") (js "Qwen3 Max")
       (js "len <= 32000 ? " ++ tq (js "short") (js "p * 1.2 + c * 6 + cr * 0.24 + cc * 1.5") ++ js " : len <= 128000 ? "
        ++ tq (js "mid") (js "p * 2.4 + c * 12 + cr * 0.48 + cc * 3") ++ js " : " ++ tq (js "long") (js "p * 3 + c * 15 + cr * 0.6 + cc * 3.75")) None;
     mkPreset (js "glm-4.5-air") (js "GLM-4.5 Air")
       (js "len < 32000 && c < 200 ? " ++ tq (js "short_output") (js "p * 0.8 + c * 2 + cr * 0.16") ++ js " : len < 32000 && c >= 200 ? "
        ++ tq (js "long_output") (js "p * 0.8 + c * 6 + cr * 0.16") ++ js " : " ++ tq (js "mid_context") (js "p * 1.2 + c * 8 + cr * 0.24")) None;
     mkPreset (js "doubao-seed-1.8") (js "Doubao Seed 1.8")
       (js "len <= 32000 && c <= 200 ? " ++ tq (js "discount") (js "p * 0.8 + c * 2 + cr * 0.16 + cc * 0.17") ++ js " : len <= 32000 ? "
        ++ tq (js "short") (js "p * 0.8 + c * 8 + cr * 0.16 + cc * 0.17") ++ js " : len <= 128000 ? "
        ++ tq (js "mid") (js "p * 1.2 + c * 16 + cr * 0.16 + cc * 0.17") ++ js " : "
        ++ tq (js "long") (js "p * 2.4 + c * 24 + cr * 0.16 + cc * 0.17")) None]);
   (js "Multimodal",
    [mkPreset (js "gpt-image-1-mini") (js "GPT Image 1 Mini") (flat (js "p * 2 + c * 8 + img * 2.5")) None;
     mkPreset (js "gemini-2.5-flash") (js "Gemini 2.5 Flash") (flat (js "p * 0.3 + c * 2.5 + cr * 0.03 + ai * 1.0")) None;
     mkPreset (js "gemini-3-pro-image") (js "Gemini 3 Pro Image") (flat (js "p * 2 + c * 12 + img_o * 120")) None;
     mkPreset (js "qwen3-omni-flash") (js "Qwen3 Omni Flash") (flat (js "p * 0.43 + c * 3.06 + img * 0.78 + ai * 3.81 + ao * 15.11")) None]);
   (js "Request rule",
    [mkPreset (js "claude-opus-fast") (js "Claude Opus 4.6 Fast") opus
       (Some [mkGroup [CPH (mkPH header (js "anthropic-beta") MATCH_CONTAINS (js "fast-mode-2026-02-01"))] (js "6")]);
     mkPreset (js "gpt-5.4-tiers") (js "GPT-5.4 Priority/Flex") gpt54
       (Some [mkGroup [CPH (mkPH param (js "service_tier") MATCH_EQ (js "priority"))] (js "2");
              mkGroup [CPH (mkPH param (js "service_tier") MATCH_EQ (js "flex"))] (js "0.5")])]);
   (js "Time-based",
    [mkPreset (js "night-discount") (js "Night discount (50%)") (flat (js "p * 3 + c * 15"))
       (Some [mkGroup [CTime (mkTime (js "hour") (js "Asia/Shanghai") MATCH_RANGE [] (js "21") (js "6"))] (js "0.5")]);
     mkPreset (js "weekend-discount") (js "Weekend discount (80%)") (flat (js "p * 3 + c * 15"))
       (Some [weekday_rule (js "0"); weekday_rule (js "6")])])].

(** The groups of the collapsed and of the expanded list. *)
Definition visible_presets (expanded : bool) : list (jsstr * list Preset) := if expanded then PRESET_GROUPS else take 2 PRESET_GROUPS.

Definition handleRuleGroupsChange (gs : list RequestRuleGroup) (p : Page) : Page := with_ed (setRequestRuleGroups gs (ed p)) p.

(** The page's name of a new model. *)
Definition rename (name : jsstr) (p : Page) : Page := mkPage (ed p) (currentExpr p) (currentRequestRuleExpr p) name (committed p).

(** The cards act on the normalised configuration. *)
Definition edit_config (f : VisualConfig -> VisualConfig) (p : Page) : Page :=
  handleVisualChange (f (normalizeVisualConfig (visualConfig (ed p)))) p.

(** ** Lemmas: commits *)
Lemma exc_bind_Ret {A B} (x : exc A) (f : A -> exc B) b : exc_bind x f = Ret b -> exists a, x = Ret a /\ f a = Ret b.
Proof. destruct x as [a|]; [|done]. intros H. by exists a. Qed.

(** What a commit writes. *)
Record committed_as (p q : Page) : Prop := {
  co_eff : effectiveExpr (ed p) = Ret (currentExpr q);
  co_rules : currentRequestRuleExpr q = match editorMode (ed p) with visual => buildRequestRuleExpr (requestRuleGroups (ed p)) | raw => currentRequestRuleExpr p end;
  co_name : modelName q = modelName p;
  co_committed : committed q = Some (currentExpr p, currentRequestRuleExpr p, modelName p) }.

Lemma commit_as p q : commit p = Ret q -> committed_as p q.
Proof.
  unfold commit. intros H. apply exc_bind_Ret in H as (can & _ & H). apply exc_bind_Ret in H as (eff & He & H).
  apply exc_bind_Ret in H as (e1 & _ & [= <-]). split; cbn; [|destruct (editorMode (ed p)); [|done]|done|done].
  - rewrite He. f_equal. by destruct (bool_decide_reflect (eff = currentExpr p)).
  - by destruct (bool_decide_reflect (buildRequestRuleExpr (requestRuleGroups (ed p)) = currentRequestRuleExpr p)).
Qed.

Definition name_known (p : Page) : Prop := exists x r, committed p = Some (x, r, modelName p).
Definition texts_known (p : Page) : Prop := committed p = Some (currentExpr p, currentRequestRuleExpr p, modelName p).

Lemma commit_name p q : commit p = Ret q -> name_known q.
Proof. intros H%commit_as. eexists _, _. rewrite (co_committed _ _ H). by rewrite (co_name _ _ H). Qed.

(** When the first effect does not run. *)
Lemma commit_ed p q : name_known p -> initRef (ed p) = true \/ texts_known p -> commit p = Ret q -> ed q = ed p.
Proof.
  intros (x & r & Hn) Hi H. unfold commit in H. apply exc_bind_Ret in H as (can & _ & H). apply exc_bind_Ret in H as (eff & He & H).
  apply exc_bind_Ret in H as (e1 & H1 & [= <-]). cbn. unfold texts_known in Hi. rewrite Hn in *.
  rewrite (bool_decide_eq_true_2 (modelName p = modelName p)) by done. cbn [negb].
  destruct Hi as [Hi|[= -> ->]].
  - unfold init_effect in H1. rewrite Hi in H1. destruct (negb _); by injection H1.
  - rewrite bool_decide_eq_true_2 in H1 by done. by injection H1.
Qed.

(** When it runs. *)
Lemma commit_reads p q : name_known p -> ~ texts_known p -> commit p = Ret q -> initRef (ed q) = true.
Proof.
  intros (x & r & Hn) Hi H. unfold commit in H. apply exc_bind_Ret in H as (can & _ & H). apply exc_bind_Ret in H as (eff & He & H).
  apply exc_bind_Ret in H as (e1 & H1 & [= <-]). cbn. unfold texts_known in Hi. rewrite Hn in *.
  rewrite (bool_decide_eq_true_2 (modelName p = modelName p)) by done. cbn [negb].
  rewrite bool_decide_eq_false_2 in H1 by (intros [-> ->]; done). cbn [negb] in H1. unfold init_effect in H1.
  destruct (initRef (ed p)) eqn:E; [injection H1 as <-; done|]. apply exc_bind_Ret in H1 as (gs & _ & H1).
  by destruct (tryParseVisualConfig _) in H1; [|destruct (truthy _) in H1]; injection H1 as <-.
Qed.

Lemma page_eq p q : ed q = ed p -> currentExpr q = currentExpr p -> currentRequestRuleExpr q = currentRequestRuleExpr p ->
  modelName q = modelName p -> committed q = committed p -> q = p.
Proof. destruct p, q. cbn. by intros -> -> -> -> ->. Qed.

(** A page that the next commit leaves as it is. *)
Record quiet_page (p : Page) : Prop := {
  qp_texts : texts_known p;
  qp_can : exists b, canUseVisualRules (currentRequestRuleExpr p) = Ret b;
  qp_eff : effectiveExpr (ed p) = Ret (currentExpr p);
  qp_rules : editorMode (ed p) = visual -> buildRequestRuleExpr (requestRuleGroups (ed p)) = currentRequestRuleExpr p }.

Lemma commit_quiet p : quiet_page p -> commit p = Ret p.
Proof.
  intros [Ht (b & Hb) He Hr]. unfold commit. rewrite Hb. cbn [exc_bind]. rewrite He. cbn [exc_bind]. unfold texts_known in Ht. rewrite Ht.
  rewrite !bool_decide_eq_true_2 by done. cbn [negb exc_bind]. destruct p as [e x r n c]. cbn in *. subst c.
  destruct (editorMode e); [|done]. rewrite Hr by done. by rewrite bool_decide_eq_true_2.
Qed.

Lemma commit_can p q : commit p = Ret q -> exists b, canUseVisualRules (currentRequestRuleExpr p) = Ret b.
Proof. unfold commit. intros H. apply exc_bind_Ret in H as (b & Hb & _). by exists b. Qed.

(** Two commits that leave the editor's state as it is. *)
Lemma commit_twice p q r : commit p = Ret q -> ed q = ed p -> commit q = Ret r -> ed r = ed q -> quiet_page r.
Proof.
  intros Hp Eq Hq Er. pose proof (commit_as _ _ Hp) as Cp. pose proof (commit_as _ _ Hq) as Cq.
  assert (Ex : currentExpr r = currentExpr q).
  { pose proof (co_eff _ _ Cp) as H1. pose proof (co_eff _ _ Cq) as H2. rewrite Eq, H1 in H2. congruence. }
  assert (Rr : currentRequestRuleExpr r = currentRequestRuleExpr q).
  { rewrite (co_rules _ _ Cq), (co_rules _ _ Cp), Eq. by destruct (editorMode (ed p)). }
  split.
  - unfold texts_known. rewrite (co_committed _ _ Cq), (co_name _ _ Cq). by rewrite Ex, Rr.
  - rewrite Rr. by eapply commit_can.
  - rewrite Er. apply (co_eff _ _ Cq).
  - intros Hv. rewrite Er in *. rewrite (co_rules _ _ Cq), Hv. done.
Qed.

(** Once the texts have been re-read, three commits are enough. *)
Lemma read_then_quiet p q r : name_known p -> initRef (ed p) = true -> commit p = Ret q -> commit q = Ret r -> quiet_page r.
Proof.
  intros Hn Hi Hp Hq. assert (Eq : ed q = ed p) by (by apply commit_ed; [|left|]).
  apply (commit_twice p q r); [done..|]. apply commit_ed; [by eapply commit_name | left; by rewrite Eq | done].
Qed.

Lemma quiet_commits n p : quiet_page p -> commits n p = Ret p.
Proof. intros H. induction n as [|n IH]; [done|]. cbn. by rewrite commit_quiet. Qed.

Lemma commits_add n m p q : commits n p = Ret q -> commits (n + m) p = commits m q.
Proof.
  revert p. induction n as [|n IH]; intros p; cbn; [by intros [= ->]|]. intros H. apply exc_bind_Ret in H as (r & -> & H). cbn. by apply IH.
Qed.

Lemma texts_known_dec p : texts_known p \/ ~ texts_known p.
Proof. unfold texts_known. destruct (decide (committed p = Some (currentExpr p, currentRequestRuleExpr p, modelName p))); [by left | by right]. Qed.

(** From the first commit on, four more make the page quiet. *)
Lemma four_commits p q : name_known p -> commits 4 p = Ret q -> quiet_page q.
Proof.
  intros Hn H. cbn in H. apply exc_bind_Ret in H as (p1 & H1 & H). apply exc_bind_Ret in H as (p2 & H2 & H).
  apply exc_bind_Ret in H as (p3 & H3 & H). apply exc_bind_Ret in H as (p4 & H4 & [= <-]).
  pose proof (commit_name _ _ H1) as N1. pose proof (commit_name _ _ H2) as N2. pose proof (commit_name _ _ H3) as N3.
  assert (Q : quiet_page p2 -> quiet_page p4).
  { intros Q. rewrite (commit_quiet p2 Q) in H3. injection H3 as <-. rewrite (commit_quiet p2 Q) in H4. by injection H4 as <-. }
  destruct (initRef (ed p)) eqn:Ei; [exact (Q (read_then_quiet p p1 p2 Hn Ei H1 H2))|].
  destruct (texts_known_dec p) as [Tp|Tp].
  - assert (E1 : ed p1 = ed p) by (by apply commit_ed; [|right|]).
    destruct (texts_known_dec p1) as [T1|T1].
    + apply Q. apply (commit_twice p p1 p2); [done..|]. by apply commit_ed; [|right|].
    + pose proof (commit_reads p1 p2 N1 T1 H2) as I2. exact (read_then_quiet p2 p3 p4 N2 I2 H3 H4).
  - pose proof (commit_reads p p1 Hn Tp H1) as I1.
    pose proof (read_then_quiet p1 p2 p3 N1 I1 H2 H3) as Q3. rewrite (commit_quiet p3 Q3) in H4. by injection H4 as <-.
Qed.

(** Whether the commits of a page reach a rendering that throws. *)
Definition crashes (n : nat) (p : Page) : Prop := exists k q, (k < n)%nat /\ commits k p = Ret q /\ commit q = Throw.

Lemma commits_cases n p : (exists q, commits n p = Ret q) \/ crashes n p.
Proof.
  revert p. induction n as [|n IH]; intros p; [left; by exists p|]. cbn. destruct (commit p) as [p1|] eqn:E; cbn.
  - destruct (IH p1) as [H|(k & q & Hk & Hq & Hc)]; [by left|]. right. exists (S k), q. split; [lia|]. split; [|done]. cbn. by rewrite E.
  - right. exists 0%nat, p. split; [lia|]. done.
Qed.

(** C23.  The effects of the editor always come to rest: from any page, five
    commits either meet a rendering that throws, or reach a page on which every
    further commit changes nothing, whose billing text is the editor's effective
    expression and whose rule text, in visual mode, is what the groups build. *)
Theorem editor_settles p :
  (exists q, settle p = Ret q /\ (forall n, commits n q = Ret q) /\ effectiveExpr (ed q) = Ret (currentExpr q) /\
     (editorMode (ed q) = visual -> currentRequestRuleExpr q = buildRequestRuleExpr (requestRuleGroups (ed q))))
  \/ crashes 5 p.
Proof.
  destruct (commits_cases 5 p) as [(q & Hq)|Hc]; [left | by right]. exists q. split; [done|].
  cbn in Hq. apply exc_bind_Ret in Hq as (p1 & H1 & Hq). assert (Q : quiet_page q) by (by eapply (four_commits p1); [eapply commit_name|]).
  split; [intros n; by apply quiet_commits|]. destruct Q as [_ _ He Hr]. split; [done|]. intros Hv. by rewrite Hr.
Qed.

(** ** Opening and editing *)
Lemma can_use rules gs : tryParseRequestRuleExpr rules = Ret gs -> exists b, canUseVisualRules rules = Ret b.
Proof. intros H. unfold canUseVisualRules. destruct (truthy rules); cbn [negb]; [|by eexists]. rewrite H. by eexists. Qed.

Lemma generate_truthy c : truthy (generateExprFromVisualConfig c) = true.
Proof.
  destruct c as [[[|t [|t' ts]]]|]; [done | | | done]; unfold generateExprFromVisualConfig; cbn [tiers tier_parts].
  - destruct (truthy (buildConditionStr (v_conditions t))) eqn:E; [by destruct (buildConditionStr (v_conditions t)) | done].
  - rewrite join_concat. destruct (truthy (buildConditionStr (v_conditions t))) eqn:E; [by destruct (buildConditionStr (v_conditions t)) | done].
Qed.

(** The page of stored texts the editor reads. *)
Definition opened (name expr rules : jsstr) (c : VisualConfig) (gs : list RequestRuleGroup) (i : bool) : Page :=
  mkPage (mkEditor visual (Some c) (combineBillingExpr expr rules) gs i) expr rules name (Some (expr, rules, name)).

Lemma opened_quiet name c gs i :
  Forall group_ok gs ->
  quiet_page (opened name (generateExprFromVisualConfig (Some c)) (buildRequestRuleExpr gs) c gs i).
Proof.
  intros Hg. split; [done | | done | done]. eapply can_use. by apply parse_built_rules.
Qed.

Definition texts_changed (p : Page) : Prop :=
  match committed p with Some (x, r, _) => ~ (x = currentExpr p /\ r = currentRequestRuleExpr p) | None => True end.

(** The commit that re-reads texts which the state generates. *)
Lemma commit_rereads p c gs :
  config_ok c = true -> Forall group_ok gs -> editorMode (ed p) = visual -> visualConfig (ed p) = Some c -> requestRuleGroups (ed p) = gs ->
  currentExpr p = generateExprFromVisualConfig (Some c) -> currentRequestRuleExpr p = buildRequestRuleExpr gs ->
  initRef (ed p) = false -> texts_changed p ->
  commit p = Ret (opened (modelName p) (currentExpr p) (currentRequestRuleExpr p) (canonical_config c) gs
                    (match committed p with Some (_, _, n) => bool_decide (n = modelName p) | None => false end)).
Proof.
  intros Hc Hg Hm Hv Hgs Hx Hr Hi Ht. destruct (can_use _ _ (parse_built_rules gs Hg)) as (b & Hb).
  assert (Hinit : init_effect (currentExpr p) (buildRequestRuleExpr gs) (ed p)
    = Ret (mkEditor visual (Some (canonical_config c)) (combineBillingExpr (currentExpr p) (buildRequestRuleExpr gs)) gs true)).
  { unfold init_effect. rewrite Hi. unfold parsed_groups. rewrite (parse_built_rules gs Hg). cbn [exc_bind default from_option id].
    by rewrite Hx, (parse_generated c Hc). }
  unfold commit. rewrite Hr, Hb. cbn [exc_bind]. unfold effectiveExpr. rewrite Hm, Hv, Hgs. cbn [exc_bind].
  rewrite <- Hx. rewrite !(bool_decide_eq_true_2 (currentExpr p = currentExpr p)), !(bool_decide_eq_true_2 (buildRequestRuleExpr gs = _)) by done.
  unfold texts_changed in Ht. rewrite Hr in Ht. destruct (committed p) as [[[x r] n]|].
  - rewrite (bool_decide_eq_false_2 _ Ht). cbn [negb]. rewrite Hinit. cbn [exc_bind]. by destruct (bool_decide (n = modelName p)).
  - by rewrite Hinit.
Qed.

(** Opening a model the editor can read changes nothing: when the stored
    texts are the generated ones, the editor comes to rest in visual mode with
    the tiers in normal form and the same rule groups, and both texts are kept. *)
Theorem open_readable name c gs :
  config_ok c = true -> Forall group_ok gs ->
  exists p, mount name (generateExprFromVisualConfig (Some c)) (buildRequestRuleExpr gs) = Ret p /\
    settle p = Ret (opened name (generateExprFromVisualConfig (Some c)) (buildRequestRuleExpr gs) (canonical_config c) gs false).
Proof.
  intros Hc Hg. set (X := generateExprFromVisualConfig (Some c)). set (R := buildRequestRuleExpr gs).
  set (p := mkPage (mkEditor visual (Some (canonical_config c)) (combineBillingExpr X R) gs false) X R name None).
  assert (HX : X = generateExprFromVisualConfig (Some (canonical_config c))) by (by rewrite canonical_generate).
  assert (Hi := commit_rereads p (canonical_config c) gs ltac:(by rewrite canonical_config_ok) Hg eq_refl eq_refl eq_refl HX eq_refl eq_refl I).
  exists p. split.
  - unfold mount, parsed_groups, R. rewrite (parse_built_rules gs Hg). cbn [exc_bind default from_option id]. unfold p, R, X.
    by rewrite (parse_generated c Hc).
  - unfold settle. cbn [commits]. rewrite Hi, canonical_config_idemp. cbn [exc_bind currentExpr currentRequestRuleExpr modelName committed p].
    rewrite HX. apply (quiet_commits 4). by apply opened_quiet.
Qed.

(** A commit in visual mode that reads nothing again. *)
Lemma commit_visual c w gs i x r n x' r' b :
  canUseVisualRules r = Ret b -> buildRequestRuleExpr gs = r -> i = true \/ (x' = x /\ r' = r) ->
  commit (mkPage (mkEditor visual (Some c) w gs i) x r n (Some (x', r', n)))
  = Ret (mkPage (mkEditor visual (Some c) w gs i) (generateExprFromVisualConfig (Some c)) r n (Some (x, r, n))).
Proof.
  intros Hb <- Hi. unfold commit. cbn [ed currentExpr currentRequestRuleExpr committed modelName]. rewrite Hb. cbn [exc_bind effectiveExpr editorMode visualConfig].
  assert (Hinit : (if negb (bool_decide (x' = x /\ r' = buildRequestRuleExpr gs)) then init_effect x (buildRequestRuleExpr gs) (mkEditor visual (Some c) w gs i)
    else Ret (mkEditor visual (Some c) w gs i)) = Ret (mkEditor visual (Some c) w gs i)).
  { destruct Hi as [->|Hi]; [by destruct (negb _) | by rewrite bool_decide_eq_true_2]. }
  rewrite Hinit. rewrite (bool_decide_eq_true_2 (n = n)) by done. cbn [negb exc_bind requestRuleGroups].
  rewrite (bool_decide_eq_true_2 (buildRequestRuleExpr gs = _)) by done.
  by destruct (bool_decide_reflect (generateExprFromVisualConfig (Some c) = x)) as [->|].
Qed.

Lemma commits_step n p q : commit p = Ret q -> commits (S n) p = commits n q.
Proof. intros H. cbn. by rewrite H. Qed.

(** The commits after the one that stored the texts of a readable state. *)
Lemma visual_rest c w gs i x r n :
  config_ok c = true -> Forall group_ok gs -> buildRequestRuleExpr gs = r ->
  exists q, commits 4 (mkPage (mkEditor visual (Some c) w gs i) (generateExprFromVisualConfig (Some c)) r n (Some (x, r, n))) = Ret q /\
    editorMode (ed q) = visual /\ currentExpr q = generateExprFromVisualConfig (Some c) /\ currentRequestRuleExpr q = r /\
    (visualConfig (ed q) = Some c \/ visualConfig (ed q) = Some (canonical_config c)) /\ requestRuleGroups (ed q) = gs /\ quiet_page q.
Proof.
  intros Hc Hg Hr. set (X := generateExprFromVisualConfig (Some c)).
  assert (Hb : exists b, canUseVisualRules r = Ret b) by (rewrite <- Hr; eapply can_use; by apply parse_built_rules). destruct Hb as (b & Hb).
  destruct (decide (X = x)) as [<-|Hne].
  { set (q := mkPage _ _ _ _ _). assert (Q : quiet_page q) by (split; [done | by exists b | done | done]).
    exists q. split; [by apply quiet_commits|]. do 3 (split; [done|]). split; [by left | done]. }
  destruct i.
  - set (q := mkPage (mkEditor visual (Some c) w gs true) X r n (Some (X, r, n))). assert (Q : quiet_page q) by (split; [done | by exists b | done | done]).
    exists q. split; [|do 3 (split; [done|]); split; [by left | done]].
    rewrite (commits_step 3 _ _ (commit_visual c w gs true X r n x r b Hb Hr (or_introl eq_refl))). by apply quiet_commits.
  - assert (Hj := commit_rereads (mkPage (mkEditor visual (Some c) w gs false) X r n (Some (x, r, n))) c gs
      Hc Hg eq_refl eq_refl eq_refl eq_refl (eq_sym Hr) eq_refl (fun H => Hne (eq_sym (proj1 H)))).
    cbn [modelName currentExpr currentRequestRuleExpr committed] in Hj.
    assert (HX : X = generateExprFromVisualConfig (Some (canonical_config c))) by (by rewrite canonical_generate).
    eexists. split; [rewrite (commits_step 3 _ _ Hj); apply quiet_commits; rewrite HX, <- Hr; by apply opened_quiet|].
    split; [done|]. split; [done|]. split; [done|]. split; [by right|]. split; [done|]. rewrite HX, <- Hr. by apply opened_quiet.
Qed.

(** An edit of the tiers on a page at rest. *)
Lemma edit_rest p c :
  quiet_page p -> editorMode (ed p) = visual -> Forall group_ok (requestRuleGroups (ed p)) -> config_ok c = true ->
  exists q, settle (handleVisualChange c p) = Ret q /\ editorMode (ed q) = visual /\
    currentExpr q = generateExprFromVisualConfig (Some c) /\ currentRequestRuleExpr q = currentRequestRuleExpr p /\
    (visualConfig (ed q) = Some c \/ visualConfig (ed q) = Some (canonical_config c)) /\
    requestRuleGroups (ed q) = requestRuleGroups (ed p) /\ quiet_page q.
Proof.
  intros [Ht (b & Hb) He Hr] Hm Hg Hc. destruct p as [[m cfg w gs i] x r n cm]. cbn in Ht, Hm, Hb, Hr, Hg. unfold texts_known in Ht. cbn in Ht. subst m cm.
  specialize (Hr eq_refl). unfold handleVisualChange, with_ed, setVisualConfig. cbn [ed currentExpr currentRequestRuleExpr modelName committed editorMode rawExpr requestRuleGroups initRef].
  unfold settle. rewrite (commits_step 4 _ _ (commit_visual c w gs i x r n x r b Hb Hr (or_intror (conj eq_refl eq_refl)))). by apply visual_rest.
Qed.

(** ** What opening loses *)
Lemma free_unread : tryParseVisualConfig FREE = None.
Proof. vm_compute. reflexivity. Qed.

Lemma free_split : splitBillingExprAndRequestRules FREE = Ret (FREE, []).
Proof. vm_compute. reflexivity. Qed.

(** Commits in raw mode, without rules. *)
Lemma commit_raw cfg w i x n x' b r :
  splitBillingExprAndRequestRules w = Ret (b, r) -> i = true \/ x' = x ->
  commit (mkPage (mkEditor raw cfg w [] i) x [] n (Some (x', [], n))) = Ret (mkPage (mkEditor raw cfg w [] i) b [] n (Some (x, [], n))).
Proof.
  intros Hs Hi. unfold commit. cbn [ed currentExpr currentRequestRuleExpr committed modelName canUseVisualRules truthy negb exc_bind effectiveExpr editorMode rawExpr].
  rewrite Hs. cbn [exc_bind].
  match goal with |- context [if negb ?t then init_effect _ _ _ else _] => destruct t eqn:E end;
    [|apply bool_decide_eq_false in E; destruct Hi as [->|Hi]; [|by destruct E]]; cbn [negb exc_bind init_effect initRef];
    rewrite (bool_decide_eq_true_2 (n = n)) by done; cbn [negb]; by destruct (bool_decide_reflect (b = x)) as [->|].
Qed.

Lemma commit_raw_reads w x n x' b r :
  splitBillingExprAndRequestRules w = Ret (b, r) -> x' <> x -> truthy x = true -> tryParseVisualConfig x = None ->
  commit (mkPage (mkEditor raw None w [] false) x [] n (Some (x', [], n)))
  = Ret (mkPage (mkEditor raw None (combineBillingExpr x []) [] true) b [] n (Some (x, [], n))).
Proof.
  intros Hs Hne Hx Hp. unfold commit. cbn [ed currentExpr currentRequestRuleExpr committed modelName canUseVisualRules truthy negb exc_bind effectiveExpr editorMode rawExpr].
  rewrite Hs. cbn [exc_bind]. rewrite (bool_decide_eq_false_2 (_ /\ _)) by (by intros [? _]). cbn [negb]. unfold init_effect. cbn [initRef].
  change (parsed_groups []) with (Ret (@nil RequestRuleGroup)). cbn [exc_bind]. rewrite Hp, Hx. cbn [exc_bind].
  rewrite (bool_decide_eq_true_2 (n = n)) by done. cbn [negb]. by destruct (bool_decide_reflect (b = x)) as [->|].
Qed.

Lemma commit_mount_unread n expr :
  truthy expr = true -> tryParseVisualConfig expr = None ->
  commit (mkPage (mkEditor visual None (combineBillingExpr expr []) [] false) expr [] n None)
  = Ret (mkPage (mkEditor raw None (combineBillingExpr expr []) [] false) FREE [] n (Some (expr, [], n))).
Proof.
  intros Hx Hp. unfold commit. cbn [ed currentExpr currentRequestRuleExpr committed modelName canUseVisualRules truthy negb exc_bind effectiveExpr editorMode visualConfig].
  unfold init_effect. cbn [initRef]. change (parsed_groups []) with (Ret (@nil RequestRuleGroup)). cbn [exc_bind]. rewrite Hp, Hx. cbn [exc_bind].
  rewrite (bool_decide_eq_true_2 (buildRequestRuleExpr [] = [])) by done.
  change (generateExprFromVisualConfig None) with FREE. by destruct (bool_decide_reflect (FREE = expr)) as [->|].
Qed.

(** Opening a model whose price the visual editor cannot read loses the
    price: whatever the stored expression was, the editor comes to rest in raw
    mode with [p * 0 + c * 0] as the text shown and as the stored expression. *)
Theorem open_unreadable_lost name expr b r :
  truthy expr = true -> expr <> FREE -> tryParseVisualConfig expr = None ->
  splitBillingExprAndRequestRules (combineBillingExpr expr []) = Ret (b, r) ->
  exists p, mount name expr [] = Ret p /\
    settle p = Ret (mkPage (mkEditor raw None FREE [] true) FREE [] name (Some (FREE, [], name))).
Proof.
  intros Hx Hne Hp Hs. eexists. split.
  { unfold mount. change (parsed_groups []) with (Ret (@nil RequestRuleGroup)). cbn [exc_bind]. rewrite Hp. reflexivity. }
  unfold settle. rewrite (commits_step 4 _ _ (commit_mount_unread name expr Hx Hp)).
  rewrite (commits_step 3 _ _ (commit_raw_reads _ FREE name expr b r Hs Hne eq_refl free_unread)).
  change (combineBillingExpr FREE []) with FREE.
  rewrite (commits_step 2 _ _ (commit_raw None FREE true b name FREE FREE [] free_split (or_introl eq_refl))).
  rewrite (commits_step 1 _ _ (commit_raw None FREE true FREE name b FREE [] free_split (or_introl eq_refl))).
  by rewrite (commits_step 0 _ _ (commit_raw None FREE true FREE name FREE FREE [] free_split (or_introl eq_refl))).
Qed.

(** The three-tier example of the editor's own prompt for assistants. *)
Definition nested_tiers : jsstr :=
  js "len <= 128000 ? " ++ tier_call (js "standard") (js "p * 1.1 + c * 4.4") ++ js " : (len <= 1000000 ? "
  ++ tier_call (js "medium") (js "p * 2.2 + c * 8.8") ++ js " : " ++ tier_call (js "long") (js "p * 4.4 + c * 17.6") ++ js ")".

Lemma open_unreadable_lost_witness :
  exists p, mount (js "m") nested_tiers [] = Ret p /\
    settle p = Ret (mkPage (mkEditor raw None FREE [] true) FREE [] (js "m") (Some (FREE, [], js "m"))).
Proof.
  apply (open_unreadable_lost (js "m") nested_tiers nested_tiers []);
    [vm_compute; reflexivity | intros H; vm_compute in H; discriminate H | vm_compute; reflexivity | vm_compute; reflexivity].
Defined.

(** Opening a model whose request rules the visual editor cannot read erases
    them: the editor comes to rest with the price kept and no rules stored. *)
Theorem open_rules_erased name c rules :
  config_ok c = true -> truthy rules = true -> tryParseRequestRuleExpr rules = Ret None ->
  exists p, mount name (generateExprFromVisualConfig (Some c)) rules = Ret p /\
    settle p = Ret (opened name (generateExprFromVisualConfig (Some c)) [] (canonical_config c) [] true).
Proof.
  intros Hc Ht Hp. set (X := generateExprFromVisualConfig (Some c)).
  assert (HX : X = generateExprFromVisualConfig (Some (canonical_config c))) by (by rewrite canonical_generate).
  set (w := combineBillingExpr X rules). set (e := mkEditor visual (Some (canonical_config c)) w [] false).
  exists (mkPage e X rules name None). split.
  { unfold mount, parsed_groups. rewrite Hp. cbn [exc_bind default from_option id]. unfold X. by rewrite (parse_generated c Hc). }
  assert (H1 : commit (mkPage e X rules name None) = Ret (mkPage e X [] name (Some (X, rules, name)))).
  { unfold commit, canUseVisualRules. cbn [ed currentExpr currentRequestRuleExpr committed modelName]. rewrite Ht, Hp. cbn [negb exc_bind].
    unfold effectiveExpr, e. cbn [editorMode visualConfig exc_bind]. unfold init_effect, parsed_groups. cbn [initRef]. rewrite Hp. cbn [exc_bind default from_option id].
    unfold X at 1. rewrite (parse_generated c Hc). cbn [exc_bind editorMode visualConfig rawExpr requestRuleGroups]. rewrite <- HX.
    rewrite (bool_decide_eq_true_2 (X = X)) by done. rewrite bool_decide_eq_false_2; [done|]. by destruct rules. }
  assert (Hne : texts_changed (mkPage e X [] name (Some (X, rules, name)))) by (intros [_ E]; cbn in E; by rewrite E in Ht).
  assert (H2 := commit_rereads (mkPage e X [] name (Some (X, rules, name))) (canonical_config c) [] ltac:(by rewrite canonical_config_ok)
    ltac:(constructor) eq_refl eq_refl eq_refl HX eq_refl eq_refl Hne).
  unfold settle. rewrite (commits_step 4 _ _ H1), (commits_step 3 _ _ H2). rewrite canonical_config_idemp.
  cbn [currentExpr currentRequestRuleExpr modelName committed]. rewrite bool_decide_eq_true_2 by done. rewrite HX.
  apply quiet_commits. apply (opened_quiet name (canonical_config c) [] true). constructor.
Qed.

Example preset_configs :
  forallb (fun pr => match tryParseVisualConfig (preset_expr pr) with Some c => config_ok c | None => false end) (concat (map snd PRESET_GROUPS)) = true.
Proof. vm_compute. reflexivity. Qed.

(** A preset the editor reads: its tiers are readable and so are its rules. *)
Definition preset_ok (pr : Preset) (c : VisualConfig) : Prop :=
  tryParseVisualConfig (preset_expr pr) = Some c /\ config_ok c = true /\ Forall group_ok (default [] (preset_rules pr)).

Definition preset_groups (pr : Preset) : list RequestRuleGroup := default [] (preset_rules pr).

Definition preset_text (pr : Preset) : jsstr :=
  str_or (combineBillingExpr (preset_expr pr) (buildRequestRuleExpr (preset_groups pr))) (preset_expr pr).

Lemma apply_preset pr c p :
  tryParseVisualConfig (preset_expr pr) = Some c ->
  applyPreset pr p = mkPage (mkEditor visual (Some c) (preset_text pr) (preset_groups pr) (initRef (ed p))) (currentExpr p)
    (buildRequestRuleExpr (preset_groups pr)) (modelName p) (committed p).
Proof. intros H. unfold applyPreset. rewrite H. reflexivity. Qed.

(** A preset is applied: on a page at rest whose rules are those of the
    preset, or whose texts have already been re-read, choosing a preset comes to
    rest in visual mode with the preset's prices and rules stored. *)
Theorem preset_applied pr c p :
  quiet_page p -> preset_ok pr c ->
  currentRequestRuleExpr p = buildRequestRuleExpr (preset_groups pr) \/ initRef (ed p) = true ->
  exists q, settle (applyPreset pr p) = Ret q /\ editorMode (ed q) = visual /\
    currentExpr q = generateExprFromVisualConfig (Some c) /\ currentRequestRuleExpr q = buildRequestRuleExpr (preset_groups pr) /\
    (visualConfig (ed q) = Some c \/ visualConfig (ed q) = Some (canonical_config c)) /\ requestRuleGroups (ed q) = preset_groups pr.
Proof.
  intros [Ht _ _ _] (Hp & Hc & Hg) Hi. rewrite (apply_preset pr c p Hp). rewrite Ht.
  destruct (can_use _ _ (parse_built_rules _ Hg)) as (b & Hb). unfold settle.
  rewrite (commits_step 4 _ _ (commit_visual c _ _ (initRef (ed p)) _ _ _ (currentExpr p) (currentRequestRuleExpr p) b Hb eq_refl
    ltac:(destruct Hi as [->|Hi]; [right; done | by left]))).
  destruct (visual_rest c (preset_text pr) (preset_groups pr) (initRef (ed p)) (currentExpr p) _ (modelName p) Hc Hg eq_refl) as (q & Hq).
  exists q. tauto.
Qed.

(** A preset with rules chosen right after opening does not set its prices:
    its rules are stored, but the expression that was stored before comes back. *)
Theorem preset_after_open_keeps_price pr c name c0 gs0 :
  preset_ok pr c -> config_ok c0 = true -> buildRequestRuleExpr (preset_groups pr) <> buildRequestRuleExpr gs0 ->
  settle (applyPreset pr (opened name (generateExprFromVisualConfig (Some c0)) (buildRequestRuleExpr gs0) (canonical_config c0) gs0 false))
  = Ret (opened name (generateExprFromVisualConfig (Some c0)) (buildRequestRuleExpr (preset_groups pr)) (canonical_config c0) (preset_groups pr) true).
Proof.
  intros (Hp & Hc & Hg) Hc0 Hne. rewrite (apply_preset pr c _ Hp). cbn [opened ed initRef currentExpr currentRequestRuleExpr modelName committed].
  set (X := generateExprFromVisualConfig (Some c0)). set (R := buildRequestRuleExpr gs0) in *. set (gs := preset_groups pr) in *.
  destruct (can_use _ _ (parse_built_rules gs Hg)) as (b & Hb). assert (HX : generateExprFromVisualConfig (Some (canonical_config c0)) = X) by apply canonical_generate.
  set (e := mkEditor visual (Some (canonical_config c0)) (combineBillingExpr X (buildRequestRuleExpr gs)) gs true).
  assert (H1 : commit (mkPage (mkEditor visual (Some c) (preset_text pr) gs false) X (buildRequestRuleExpr gs) name (Some (X, R, name)))
    = Ret (mkPage e (generateExprFromVisualConfig (Some c)) (buildRequestRuleExpr gs) name (Some (X, buildRequestRuleExpr gs, name)))).
  { unfold commit. cbn [ed currentExpr currentRequestRuleExpr committed modelName]. rewrite Hb. cbn [exc_bind effectiveExpr editorMode visualConfig].
    rewrite bool_decide_eq_false_2 by (intros [_ ?]; by destruct Hne). cbn [negb]. unfold init_effect, parsed_groups. cbn [initRef]. rewrite (parse_built_rules gs Hg).
    cbn [exc_bind default from_option id]. unfold X at 1. rewrite (parse_generated c0 Hc0). cbn [exc_bind].
    rewrite (bool_decide_eq_true_2 (name = name)) by done. cbn [negb requestRuleGroups]. rewrite (bool_decide_eq_true_2 (buildRequestRuleExpr gs = _)) by done.
    by destruct (bool_decide_reflect (generateExprFromVisualConfig (Some c) = X)) as [->|]. }
  unfold settle. rewrite (commits_step 4 _ _ H1). unfold e.
  rewrite (commits_step 3 _ _ (commit_visual _ _ gs true _ _ name _ _ b Hb eq_refl (or_introl eq_refl))), HX.
  rewrite (commits_step 2 _ _ (commit_visual _ _ gs true _ _ name _ _ b Hb eq_refl (or_introl eq_refl))), HX.
  unfold opened. apply quiet_commits. split; [done | by exists b | by cbn [effectiveExpr ed editorMode visualConfig]; rewrite HX | done].
Qed.

(** ** Sequences of edits *)
(** The edits of the cards: every handler, on any value. *)
Inductive edit_step (c : VisualConfig) : VisualConfig -> Prop :=
| edit_add_tier : edit_step c (handleAddTier c)
| edit_remove_tier i : edit_step c (handleRemoveTier i c)
| edit_label i t label : tiers c !! i = Some t -> edit_step c (handleTierChange i (handleLabelChange label t) c)
| edit_price i t field v : tiers c !! i = Some t -> edit_step c (handleTierChange i (handlePriceChange field v t) c)
| edit_cache_mode i t m : tiers c !! i = Some t -> edit_step c (handleTierChange i (handleCacheModeChange m t) c)
| edit_condition i t j next : tiers c !! i = Some t -> edit_step c (handleTierChange i (handleConditionChange j next t) c)
| edit_remove_condition i t j : tiers c !! i = Some t -> edit_step c (handleTierChange i (handleConditionRemove j t) c)
| edit_add_condition i c' : handleAddCondition i c = Some c' -> edit_step c c'.

(** The edits that keep a configuration readable: not a blank label or one with
    a quote, not a price or a condition that the expression cannot hold, and
    every tier but the last keeps a condition and the last gets none, unless it
    is the only one. *)
Inductive readable_step (c : VisualConfig) : VisualConfig -> Prop :=
| rd_add_tier : readable_step c (handleAddTier c)
| rd_remove_tier i : (S i < length (tiers c) \/ length (tiers c) = 2)%nat -> readable_step c (handleRemoveTier i c)
| rd_label i t label : tiers c !! i = Some t -> truthy label = true -> forallb not_quote label = true ->
    readable_step c (handleTierChange i (handleLabelChange label t) c)
| rd_price i t field v : tiers c !! i = Some t -> cost_ok v = true ->
    readable_step c (handleTierChange i (handlePriceChange field v t) c)
| rd_cache_mode i t m : tiers c !! i = Some t -> cost_ok (default num_zero (map_get f_cc1h (v_extra t))) = true ->
    readable_step c (handleTierChange i (handleCacheModeChange m t) c)
| rd_condition i t j next : tiers c !! i = Some t -> cond_ok next = true ->
    readable_step c (handleTierChange i (handleConditionChange j next t) c)
| rd_remove_condition i t j : tiers c !! i = Some t -> (2 <= length (v_conditions t))%nat ->
    readable_step c (handleTierChange i (handleConditionRemove j t) c)
| rd_add_condition i c' : handleAddCondition i c = Some c' -> (S i < length (tiers c) \/ length (tiers c) = 1)%nat -> readable_step c c'.

Lemma cost_zero : cost_ok num_zero = true.
Proof. vm_compute. reflexivity. Qed.

Lemma extra_ok_normal extra : extra_ok (map (fun f => (f, num_or0 (map_get f extra))) EXTRA_FIELDS) = extra_ok extra.
Proof.
  unfold extra_ok. apply eq_true_iff_eq. rewrite !forallb_forall.
  split; intros H f Hf; specialize (H f Hf); revert H; apply list_elem_of_In in Hf; by rewrite extra_normal, num_or0_idemp.
Qed.

Lemma normal_tier_ok t : tier_ok (normalizeVisualTier (partial_of t)) = tier_ok t.
Proof. unfold tier_ok, normalizeVisualTier. cbn [v_label v_conditions input_unit_cost output_unit_cost v_extra partial_of p_label p_conditions p_input p_output p_extra default from_option id]. by rewrite extra_ok_normal. Qed.

Lemma extra_ok_set f v extra : extra_ok extra = true -> cost_ok v = true -> extra_ok (map_set f v extra) = true.
Proof.
  unfold extra_ok. rewrite !forallb_forall. intros H Hv g Hg. rewrite map_get_set. destruct (bool_decide (g = f)); [|by apply H].
  cbn. destruct (num_truthy v); [done | apply cost_zero].
Qed.

(** The conditions of a tier decide its place in the chain. *)
Definition has_conds (t : VisualTier) : bool := match v_conditions t with [] => false | _ => true end.

Lemma chain_ok_init ts : chain_ok ts = true -> exists init t, ts = init ++ [t] /\ forallb has_conds init = true.
Proof.
  induction ts as [|t ts IH]; [done|]. destruct ts as [|t' ts]; [intros _; by exists [], t|].
  change (chain_ok (t :: t' :: ts)) with (match v_conditions t with [] => false | _ => chain_ok (t' :: ts) end).
  destruct (v_conditions t) eqn:Ec; [done|]. intros (init & z & -> & H)%IH. exists (t :: init), z. split; [done|].
  cbn [forallb]. unfold has_conds at 1. by rewrite Ec.
Qed.

Lemma chain_ok_snoc ts t : forallb has_conds ts = true -> has_conds t = false -> chain_ok (ts ++ [t]) = true.
Proof.
  intros Hts Ht. induction ts as [|x ts IH]; [unfold has_conds in Ht; cbn; by destruct (v_conditions t)|].
  cbn in Hts. apply andb_prop in Hts as [Hx Hts]. cbn [app]. destruct (ts ++ [t]) as [|y ys] eqn:E; [by destruct ts|].
  change (chain_ok (x :: y :: ys)) with (match v_conditions x with [] => false | _ => chain_ok (y :: ys) end).
  unfold has_conds in Hx. destruct (v_conditions x); [done | by apply IH].
Qed.

(** Replacing a tier by one with conditions exactly when it has some. *)
Lemma chain_ok_set ts i t t' : ts !! i = Some t -> has_conds t' = has_conds t -> chain_ok (list_set i t' ts) = chain_ok ts.
Proof.
  intros Hi Hh. revert i Hi. induction ts as [|x ts IH]; intros i Hi; [done|]. destruct i as [|i]; cbn in Hi.
  - injection Hi as ->. unfold has_conds in Hh. destruct ts as [|y ts]; cbn; by destruct (v_conditions t), (v_conditions t').
  - change (list_set (S i) t' (x :: ts)) with (x :: list_set i t' ts). specialize (IH i Hi).
    destruct ts as [|y ts]; [done|]. destruct (list_set i t' (y :: ts)) as [|z zs] eqn:E; [by destruct i|].
    change (chain_ok (x :: z :: zs)) with (match v_conditions x with [] => false | _ => chain_ok (z :: zs) end). rewrite IH. done.
Qed.

Lemma config_ok_split c : config_ok c = true <-> forallb tier_ok (tiers c) = true /\ (length (tiers c) = 1%nat \/ chain_ok (tiers c) = true).
Proof.
  unfold config_ok. rewrite andb_true_iff. destruct (tiers c) as [|t [|t' ts]]; cbn [length]; intuition (done || lia).
Qed.

Lemma forallb_set {A} (f : A -> bool) i x l : forallb f l = true -> f x = true -> forallb f (list_set i x l) = true.
Proof.
  intros Hl Hx. revert i. induction l as [|y l IH]; intros i; [done|]. cbn in Hl. apply andb_prop in Hl as [Hy Hl].
  destruct i as [|i]; cbn; [by rewrite Hx | rewrite Hy; by apply IH].
Qed.

Lemma config_ok_set c i t t' :
  config_ok c = true -> tiers c !! i = Some t -> tier_ok t' = true -> has_conds t' = has_conds t -> config_ok (mkConfig (list_set i t' (tiers c))) = true.
Proof.
  rewrite !config_ok_split. cbn [tiers]. intros [Hok Hch] Hi Ht Hh. split; [by apply forallb_set|].
  destruct Hch as [Hl|Hch]; [left | right; by erewrite chain_ok_set]. unfold list_set. by rewrite length_insert.
Qed.

Lemma tier_of_ok c i t : config_ok c = true -> tiers c !! i = Some t -> tier_ok t = true.
Proof. intros [H _]%config_ok_split Hi. rewrite forallb_forall in H. apply H, list_elem_of_In. by eapply list_elem_of_lookup_2. Qed.

(** A change of a tier that keeps its number of conditions. *)
Lemma tier_change_ok c i t t' :
  config_ok c = true -> tiers c !! i = Some t -> tier_ok t' = true -> has_conds t' = has_conds t -> config_ok (handleTierChange i t' c) = true.
Proof. intros Hc Hi Ht Hh. unfold handleTierChange. eapply config_ok_set; [done | done | by rewrite normal_tier_ok | done]. Qed.

Lemma threshold_ok v : v ∈ cond_vars -> cond_ok (mkCond v (js "<") (VNum (num_of_Z 200000))) = true.
Proof. intros Hv. unfold cond_vars in Hv. repeat (apply elem_of_cons in Hv as [->|Hv]); [vm_compute; reflexivity.. | by apply not_elem_of_nil in Hv]. Qed.

Lemma last_snoc_set {A} (l : list A) x y : list_set (length (l ++ [x]) - 1) y (l ++ [x]) = l ++ [y].
Proof. unfold list_set. rewrite length_app. cbn. replace (length l + 1 - 1)%nat with (length l + 0)%nat by lia. by rewrite insert_app_r. Qed.

Lemma close_last_ok c :
  config_ok c = true -> forallb tier_ok (close_last (tiers c)) = true /\ forallb has_conds (close_last (tiers c)) = true.
Proof.
  intros [Hok Hch]%config_ok_split.
  assert (Hsplit : exists init t, tiers c = init ++ [t] /\ forallb has_conds init = true).
  { destruct Hch as [Hl|Hch]; [|by apply chain_ok_init]. destruct (tiers c) as [|t [|]]; [done | by exists [], t | done]. }
  destruct Hsplit as (init & t & E & Hi). rewrite E in *. unfold close_last. rewrite last_snoc. destruct (v_conditions t) as [|x l] eqn:Ec.
  - rewrite last_snoc_set. rewrite !forallb_app in *. cbn in *. apply andb_prop in Hok as [Ho Ht]. rewrite andb_true_r in Ht.
    rewrite Ho, Hi, normal_tier_ok. split; [|done]. rewrite andb_true_r. revert Ht. unfold tier_ok, with_conditions.
    cbn [v_label v_conditions input_unit_cost output_unit_cost v_extra]. rewrite Ec. done.
  - split; [done|]. rewrite forallb_app, Hi. cbn. unfold has_conds. by rewrite Ec.
Qed.

Lemma tier_name_ok n : truthy (js "tier_" ++ string_of_Z n) = true /\ (0 <= n -> forallb not_quote (js "tier_" ++ string_of_Z n) = true).
Proof.
  split; [done|]. intros Hn. rewrite forallb_app. change (forallb not_quote (js "tier_")) with true. cbn [andb].
  destruct (string_of_Z_digits n Hn) as (Hd & _). revert Hd. rewrite !forallb_forall. intros Hd x Hx. specialize (Hd x Hx).
  unfold not_quote, dquote. unfold is_digit in Hd. bool_to_prop. destruct (Z.eqb_spec x 34); [lia | done].
Qed.

Lemma add_tier_ok c : config_ok c = true -> config_ok (handleAddTier c) = true.
Proof.
  intros [H1 H2]%close_last_ok. apply config_ok_split. unfold handleAddTier. cbn [tiers]. split; [|right; by apply chain_ok_snoc].
  rewrite forallb_app, H1. cbn [andb forallb]. rewrite andb_true_r. unfold tier_ok, normalizeVisualTier.
  cbn [v_label v_conditions input_unit_cost output_unit_cost v_extra p_label p_conditions p_input p_output p_extra default from_option id].
  destruct (tier_name_ok (Z.of_nat (length (close_last (tiers c))) + 1)) as [-> ->]; [|lia].
  rewrite cost_zero, extra_ok_normal. reflexivity.
Qed.

Lemma add_condition_ok c i c' :
  config_ok c = true -> handleAddCondition i c = Some c' -> (S i < length (tiers c) \/ length (tiers c) = 1)%nat -> config_ok c' = true.
Proof.
  intros Hc H Hi. unfold handleAddCondition in H. destruct (tiers c !! i) as [t|] eqn:Et; [|done].
  destruct (2 <=? length (v_conditions t))%nat; [done|]. injection H as <-. set (x := mkCond _ _ _).
  assert (Hx : cond_ok x = true). { apply threshold_ok. destruct (bool_decide _); unfold cond_vars; set_solver. }
  pose proof (tier_of_ok c i t Hc Et) as Ht. assert (Ht' : tier_ok (with_conditions (v_conditions t ++ [x]) t) = true).
  { revert Ht. unfold tier_ok. cbn [with_conditions v_label v_conditions input_unit_cost output_unit_cost v_extra]. rewrite forallb_app. cbn [forallb].
    rewrite Hx. by rewrite !andb_true_r. }
  destruct Hi as [Hi|Hi].
  - apply (config_ok_set c i t); [done | done | done |]. apply config_ok_split in Hc as [_ [Hl|Hch]]; [lia|].
    apply chain_ok_init in Hch as (init & z & E & Hin). rewrite E in Et, Hi. rewrite length_app in Hi. cbn in Hi. rewrite lookup_app_l in Et by lia.
    rewrite forallb_forall in Hin. specialize (Hin t (proj1 (list_elem_of_In _ _) (list_elem_of_lookup_2 _ _ _ Et))).
    rewrite Hin. unfold has_conds. cbn. by destruct (v_conditions t).
  - apply config_ok_split in Hc as [Hok _]. apply config_ok_split. cbn [tiers]. split; [by apply forallb_set|]. left. unfold list_set. by rewrite length_insert.
Qed.

Lemma tier_ok_fields t : tier_ok t = true <->
  (truthy (v_label t) = true /\ forallb not_quote (v_label t) = true) /\
  (cost_ok (input_unit_cost t) = true /\ cost_ok (output_unit_cost t) = true) /\ extra_ok (v_extra t) = true /\ forallb cond_ok (v_conditions t) = true.
Proof. unfold tier_ok. rewrite !andb_true_iff. tauto. Qed.

Lemma chain_ok_remove ts i : chain_ok ts = true -> (S i < length ts)%nat -> chain_ok (list_remove i ts) = true.
Proof.
  revert i. induction ts as [|x [|y ts] IH]; intros i Hc Hi; [done | cbn in Hi; lia |].
  change (chain_ok (x :: y :: ts)) with (match v_conditions x with [] => false | _ => chain_ok (y :: ts) end) in Hc.
  destruct i as [|i]; [by destruct (v_conditions x)|]. cbn [length] in Hi.
  change (list_remove (S i) (x :: y :: ts)) with (x :: list_remove i (y :: ts)).
  destruct (v_conditions x) as [|d ds] eqn:Ex; [done|]. specialize (IH i Hc ltac:(cbn; lia)).
  destruct (list_remove i (y :: ts)) as [|z zs]; [done|].
  change (chain_ok (x :: z :: zs)) with (match v_conditions x with [] => false | _ => chain_ok (z :: zs) end). by rewrite Ex.
Qed.

Lemma forallb_remove {A} (f : A -> bool) i l : forallb f l = true -> forallb f (list_remove i l) = true.
Proof.
  revert i. induction l as [|x l IH]; intros i Hl; [by destruct i|]. cbn in Hl. apply andb_prop in Hl as [Hx Hl].
  destruct i as [|i]; [done|]. change (list_remove (S i) (x :: l)) with (x :: list_remove i l). cbn. rewrite Hx. by apply IH.
Qed.

Lemma length_remove {A} i (l : list A) : (length (list_remove i l) = length l - (if (i <? length l)%nat then 1 else 0))%nat.
Proof. unfold list_remove. rewrite length_app, length_take, length_drop. destruct (Nat.ltb_spec i (length l)); lia. Qed.

Lemma remove_tier_ok c i :
  config_ok c = true -> (S i < length (tiers c) \/ length (tiers c) = 2)%nat -> config_ok (handleRemoveTier i c) = true.
Proof.
  intros Hc Hi. unfold handleRemoveTier. destruct (list_remove i (tiers c)) as [|t ts] eqn:E; [done|]. rewrite <- E.
  rewrite config_ok_split in *. destruct Hc as [Hok Hch]. cbn [tiers]. split; [by apply forallb_remove|].
  pose proof (length_remove i (tiers c)) as Hl. destruct (Nat.ltb_spec i (length (tiers c))).
  - destruct Hi as [Hi|Hi]; [|left; lia]. destruct Hch as [Hch|Hch]; [lia|]. right. by apply chain_ok_remove.
  - unfold list_remove. rewrite take_ge, drop_ge, app_nil_r by lia. done.
Qed.

Lemma edit_step_ok c c' : config_ok c = true -> readable_step c c' -> config_ok c' = true.
Proof.
  intros Hc H.
  destruct H as [|i Hi|i t label Hi Hl Hq|i t field v Hi Hv|i t m Hi Hm|i t j next Hi Hn|i t j Hi Hn|i c' Ha Hi];
    [by apply add_tier_ok | by apply remove_tier_ok | | | | | | by eapply add_condition_ok];
    pose proof (proj1 (tier_ok_fields t) (tier_of_ok c i t Hc Hi)) as ([H1 H2] & [H3 H4] & H5 & H6);
    apply (tier_change_ok c i t); try done; try apply tier_ok_fields.
  - done.
  - unfold handlePriceChange. destruct (bool_decide _); [done|]. destruct (bool_decide _); [done|].
    split; [done|]. split; [done|]. split; [by apply extra_ok_set | done].
  - unfold handlePriceChange. destruct (bool_decide _); [done|]. by destruct (bool_decide _).
  - split; [done|]. split; [done|]. split; [|done]. apply extra_ok_set; [done|]. destruct m; [done | apply cost_zero].
  - split; [done|]. split; [done|]. split; [done|]. by apply forallb_set.
  - unfold has_conds, handleConditionChange. cbn. destruct (v_conditions t) as [|x l]; [done|]. by destruct j.
  - split; [done|]. split; [done|]. split; [done|]. by apply forallb_remove.
  - unfold has_conds, handleConditionRemove. cbn. pose proof (length_remove j (v_conditions t)) as Hr.
    destruct (v_conditions t) as [|x l]; [cbn in Hn; lia|]. destruct (list_remove j (x :: l)); [|done].
    cbn [length] in *. destruct (_ <? _)%nat; lia.
Qed.

(** A page at rest in visual mode, with rules that read back. *)
Record visual_page (p : Page) : Prop := {
  vp_quiet : quiet_page p; vp_visual : editorMode (ed p) = visual; vp_groups : Forall group_ok (requestRuleGroups (ed p));
  vp_config : exists c, visualConfig (ed p) = Some c }.

(** The pages reached by edits of the tiers, the effects coming to rest after
    each; the cards are there in visual mode only. *)
Inductive edited_from (p0 : Page) : Page -> Prop :=
| ef_open : edited_from p0 p0
| ef_edit p q c' : edited_from p0 p -> editorMode (ed p) = visual -> edit_step (normalizeVisualConfig (visualConfig (ed p))) c' ->
    settle (handleVisualChange c' p) = Ret q -> edited_from p0 q.

Lemma normalize_config_ok c : config_ok c = true -> config_ok (normalizeVisualConfig (Some c)) = true.
Proof.
  destruct c as [[|t ts]]; [done|]. rewrite !config_ok_split. unfold normalizeVisualConfig. cbn [tiers]. intros [Hok Hch]. split.
  - rewrite forallb_forall in *. intros x (y & <- & Hy)%in_map_iff. rewrite normal_tier_ok. by apply Hok.
  - destruct Hch as [Hl|Hch]; [left; by rewrite length_map | right]. revert Hch. generalize (t :: ts). clear. intros l. 
    induction l as [|x [|y l] IH]; [done | done |]. cbn [map chain_ok] in *. cbn [v_conditions normalizeVisualTier partial_of p_conditions default from_option id].
    destruct (v_conditions x); [done | exact IH].
Qed.

(** Once the texts have been re-read, an edit leaves the editor as it sets it. *)
Lemma commits_ed n p q : name_known p -> initRef (ed p) = true -> commits n p = Ret q -> ed q = ed p.
Proof.
  revert p. induction n as [|n IH]; intros p Hn Hi; cbn; [by intros [= <-]|]. intros H. apply exc_bind_Ret in H as (r & Hr & H).
  assert (E : ed r = ed p) by (by apply commit_ed; [|left|]). rewrite <- E. apply IH; [by eapply commit_name | by rewrite E | done].
Qed.

Lemma commits_rules n p q :
  name_known p -> initRef (ed p) = true -> buildRequestRuleExpr (requestRuleGroups (ed p)) = currentRequestRuleExpr p ->
  commits n p = Ret q -> currentRequestRuleExpr q = currentRequestRuleExpr p.
Proof.
  revert p. induction n as [|n IH]; intros p Hn Hi Hr; cbn; [by intros [= <-]|]. intros H. apply exc_bind_Ret in H as (r & Hc & H).
  assert (E : ed r = ed p) by (by apply commit_ed; [|left|]).
  assert (Er : currentRequestRuleExpr r = currentRequestRuleExpr p).
  { rewrite (co_rules _ _ (commit_as _ _ Hc)). by destruct (editorMode (ed p)). }
  rewrite <- Er. apply IH; [by eapply commit_name | by rewrite E | by rewrite E, Er | done].
Qed.

(** The editor after an edit came to rest.  If its texts were re-read before, or
    the edit writes the text that is stored, it shows the edited tiers; otherwise
    it re-reads the text of the edited tiers and shows what it reads, or goes to
    raw mode if it cannot read it. *)
Definition after_edit (p : Page) (c' : VisualConfig) (q : Page) : Prop :=
  if initRef (ed p) || bool_decide (generateExprFromVisualConfig (Some c') = currentExpr p)
  then editorMode (ed q) = visual /\ visualConfig (ed q) = Some c'
  else match tryParseVisualConfig (generateExprFromVisualConfig (Some c')) with
       | Some shown => editorMode (ed q) = visual /\ visualConfig (ed q) = Some shown
       | None => editorMode (ed q) = raw
       end.

(** The commit that re-reads the text of the edited tiers. *)
Lemma commit_after_edit c' w gs x r n q :
  Forall group_ok gs -> buildRequestRuleExpr gs = r -> generateExprFromVisualConfig (Some c') <> x ->
  commit (mkPage (mkEditor visual (Some c') w gs false) (generateExprFromVisualConfig (Some c')) r n (Some (x, r, n))) = Ret q ->
  initRef (ed q) = true /\ requestRuleGroups (ed q) = gs /\ currentRequestRuleExpr q = r /\
  match tryParseVisualConfig (generateExprFromVisualConfig (Some c')) with
  | Some shown => editorMode (ed q) = visual /\ visualConfig (ed q) = Some shown
  | None => editorMode (ed q) = raw
  end.
Proof.
  intros Hg Hr Hne H. pose proof (co_rules _ _ (commit_as _ _ H)) as Hq. unfold commit in H.
  apply exc_bind_Ret in H as (can & _ & H). apply exc_bind_Ret in H as (eff & _ & H).
  cbn [committed currentExpr currentRequestRuleExpr modelName ed] in H.
  rewrite bool_decide_eq_false_2 in H by (intros [? _]; congruence). rewrite (bool_decide_eq_true_2 (n = n)) in H by done. cbn [negb] in H.
  apply exc_bind_Ret in H as (e1 & H1 & [= <-]). cbn [ed currentRequestRuleExpr] in *. unfold init_effect in H1. cbn [initRef editorMode] in H1.
  rewrite <- Hr in H1. unfold parsed_groups in H1. rewrite (parse_built_rules gs Hg) in H1. cbn [exc_bind default from_option id] in H1.
  rewrite generate_truthy in H1.
  destruct (tryParseVisualConfig (generateExprFromVisualConfig (Some c'))); injection H1 as <-; cbn;
    (split; [done|]); (split; [done|]); (split; [by rewrite Hq|]); done.
Qed.

(** An edit of the tiers on a page at rest, whatever it sets. *)
Lemma edit_any p c' q :
  visual_page p -> settle (handleVisualChange c' p) = Ret q ->
  quiet_page q /\ currentRequestRuleExpr q = currentRequestRuleExpr p /\ requestRuleGroups (ed q) = requestRuleGroups (ed p) /\
  after_edit p c' q.
Proof.
  intros [[Ht (b & Hb) He Hr] Hm Hg _] H.
  assert (Q : quiet_page q).
  { unfold settle in H. cbn [commits] in H. apply exc_bind_Ret in H as (p1 & H1 & H). eapply (four_commits p1); [by eapply commit_name | exact H]. }
  destruct p as [[m cfg w gs i] x r n cm]. cbn in Ht, Hm, Hb, Hr, Hg. unfold texts_known in Ht. cbn in Ht. subst m cm.
  specialize (Hr eq_refl). unfold handleVisualChange, with_ed, setVisualConfig in H.
  cbn [ed currentExpr currentRequestRuleExpr modelName committed editorMode rawExpr requestRuleGroups initRef] in *.
  unfold settle in H. rewrite (commits_step 4 _ _ (commit_visual c' w gs i x r n x r b Hb Hr (or_intror (conj eq_refl eq_refl)))) in H.
  unfold after_edit. cbn [ed initRef currentExpr]. set (X := generateExprFromVisualConfig (Some c')) in *.
  destruct (decide (X = x)) as [Ex|Hne].
  { rewrite (bool_decide_eq_true_2 (X = x)), orb_true_r by done. rewrite <- Ex in H.
    rewrite quiet_commits in H by (split; [done | by exists b | done | done]). injection H as <-. done. }
  rewrite (bool_decide_eq_false_2 (X = x)), orb_false_r by done. destruct i.
  - assert (Hk : name_known (mkPage (mkEditor visual (Some c') w gs true) X r n (Some (x, r, n)))) by (by eexists _, _).
    pose proof (commits_ed 4 _ q Hk eq_refl H) as E. pose proof (commits_rules 4 _ q Hk eq_refl Hr H) as Er. rewrite E. done.
  - cbn [commits] in H. apply exc_bind_Ret in H as (p2 & H2 & H).
    destruct (commit_after_edit c' w gs x r n p2 Hg Hr Hne H2) as (I2 & G2 & R2 & C2). pose proof (commit_name _ _ H2) as N2.
    pose proof (commits_ed 3 _ q N2 I2 H) as E. pose proof (commits_rules 3 _ q N2 I2 ltac:(by rewrite G2, R2) H) as Er.
    rewrite E, Er, G2. done.
Qed.

(** A readable edit, or any edit once the texts were re-read, comes to rest with
    the text of the edited tiers. *)
Lemma edit_settles p c' :
  visual_page p -> initRef (ed p) = true \/ config_ok c' = true ->
  exists q, settle (handleVisualChange c' p) = Ret q /\ editorMode (ed q) = visual /\
    currentExpr q = generateExprFromVisualConfig (Some c') /\
    (visualConfig (ed q) = Some c' \/ visualConfig (ed q) = Some (canonical_config c')).
Proof.
  intros HV [Hi|Hc].
  - destruct HV as [[Ht (b & Hb) _ Hr] Hm _ _]. destruct p as [[m cfg w gs i] x r n cm].
    cbn in Ht, Hm, Hb, Hr, Hi. unfold texts_known in Ht. cbn in Ht. subst m cm i. specialize (Hr eq_refl).
    unfold handleVisualChange, with_ed, setVisualConfig. cbn [ed currentExpr currentRequestRuleExpr modelName committed editorMode rawExpr requestRuleGroups initRef].
    unfold settle. rewrite (commits_step 4 _ _ (commit_visual c' w gs true x r n x r b Hb Hr (or_introl eq_refl))).
    rewrite (commits_step 3 _ _ (commit_visual c' w gs true _ r n x r b Hb Hr (or_introl eq_refl))).
    eexists. split; [apply quiet_commits; split; [done | by exists b | done | done]|]. auto.
  - destruct HV as [Q V G _]. destruct (edit_rest p c' Q V G Hc) as (q & ? & ? & ? & _ & ? & _). by exists q.
Qed.

(** C3.  What the visual editor shows is what is stored.  From a page at rest in
    visual mode, after any sequence of edits of the tiers (adding and removing
    tiers and conditions, any labels, prices, cache modes and conditions), the
    page is at rest, the rules are untouched, and in visual mode the stored text
    is the one of the tiers shown; it reads back as them when they are readable.
    A further edit comes to rest with the text of the edited tiers stored, if the
    edited tiers are readable or the editor has re-read its texts, which it does
    at the first edit that changes the text; a first edit that is not readable is
    replaced by what its text reads as, or ends visual mode.  The edits of
    [readable_step] keep the tiers readable. *)
Theorem edits_stored p0 p :
  visual_page p0 -> edited_from p0 p ->
  quiet_page p /\ currentRequestRuleExpr p = currentRequestRuleExpr p0 /\
  (editorMode (ed p) = visual -> exists c, visualConfig (ed p) = Some c /\ currentExpr p = generateExprFromVisualConfig (Some c) /\
     (config_ok c = true -> tryParseVisualConfig (currentExpr p) = Some (canonical_config c)) /\
     forall c', edit_step (normalizeVisualConfig (Some c)) c' ->
       (forall q, settle (handleVisualChange c' p) = Ret q -> after_edit p c' q) /\
       (initRef (ed p) = true \/ config_ok c' = true ->
          exists q, settle (handleVisualChange c' p) = Ret q /\ editorMode (ed q) = visual /\
            currentExpr q = generateExprFromVisualConfig (Some c') /\
            (visualConfig (ed q) = Some c' \/ visualConfig (ed q) = Some (canonical_config c'))) /\
       (config_ok c = true -> readable_step (normalizeVisualConfig (Some c)) c' -> config_ok c' = true)).
Proof.
  intros H0 H.
  assert (Hp : quiet_page p /\ currentRequestRuleExpr p = currentRequestRuleExpr p0 /\ (editorMode (ed p) = visual -> visual_page p)).
  { induction H as [|p q c' _ (_ & Ep & Vp) Hm _ Hs]; [by destruct H0|].
    destruct (edit_any p c' q (Vp Hm) Hs) as (Qq & Eq & Gq & Aq). split; [done|]. split; [by rewrite Eq|]. intros Vq.
    destruct (Vp Hm) as [_ _ G _]. split; [done | done | by rewrite Gq |]. revert Aq. unfold after_edit.
    destruct (_ || _); [intros [_ ->]; eauto|]. destruct (tryParseVisualConfig _); [intros [_ ->]; eauto | congruence]. }
  destruct Hp as (Qp & Ep & Vp). split; [done|]. split; [done|]. intros Hm. specialize (Vp Hm). destruct (vp_config p Vp) as [c Hc].
  assert (Hx : currentExpr p = generateExprFromVisualConfig (Some c)).
  { destruct Qp as [_ _ He _]. unfold effectiveExpr in He. rewrite Hm, Hc in He. by injection He. }
  exists c. split; [done|]. split; [done|]. split; [intros Hok; rewrite Hx; by apply parse_generated|].
  intros c' _. split; [intros q Hq; by apply edit_any|]. split; [by apply edit_settles|].
  intros Hok Hs. eapply edit_step_ok; [|exact Hs]. by apply normalize_config_ok.
Qed.

(** ** Inputs *)
Definition draft_inv (d : Draft) : Prop :=
  draft d = formatNumberDraft (owner d) \/ owner d = VNum (parseNumberDraft (draft d)).

Inductive draft_step : Draft -> Draft -> Prop :=
| ds_change d text : draft_step d (draft_change text d)
| ds_focus d : draft_step d (draft_focus d)
| ds_blur d : draft_step d (draft_blur d)
| ds_sync d : draft_step d (draft_sync d).

Lemma parse_draft_finite s : num_is_finite (parseNumberDraft s) = true.
Proof. unfold parseNumberDraft. destruct (truthy (trim s)); [|done]. cbn [negb]. by destruct (num_is_finite (num_of_string s)) eqn:E; [rewrite E|]. Qed.

(** A number input never shows one number and reports another: after any
    sequence of typing, focusing, leaving and updates of the owner, the text is
    the owner's value or the owner's value is what the text reads as; after
    leaving, the text is the owner's value, and what is reported is finite. *)
Theorem draft_consistent v d :
  rtc draft_step (draft_mount v) d ->
  draft_inv d /\ draft (draft_blur d) = formatNumberDraft (owner (draft_blur d)) /\ num_is_finite (parseNumberDraft (draft d)) = true.
Proof.
  intros H. split; [|split; [|apply parse_draft_finite]].
  - revert H. apply (rtc_ind_r draft_inv); [by left|]. intros x y _ Hs Hx. destruct Hs as [d0 text|d0|d0|d0]; [by right | exact Hx | left |].
    + unfold draft_blur. cbn. by rewrite parse_draft_finite.
    + unfold draft_sync. destruct (focused d0); [done | by left].
  - unfold draft_blur. cbn. by rewrite parse_draft_finite.
Qed.

(** ** Witnesses *)
Definition glm_page : Page :=
  opened (js "glm") (generateExprFromVisualConfig (Some glm_config)) (buildRequestRuleExpr night_groups) glm_config night_groups false.

Lemma glm_ok : config_ok glm_config = true.
Proof. vm_compute. reflexivity. Qed.

Lemma glm_visual : visual_page glm_page.
Proof.
  split; [by apply opened_quiet, night_groups_ok | done | apply night_groups_ok |]. by exists glm_config.
Qed.

Lemma open_readable_witness :
  exists p, mount (js "glm") (generateExprFromVisualConfig (Some glm_config)) (buildRequestRuleExpr night_groups) = Ret p /\
    settle p = Ret (opened (js "glm") (generateExprFromVisualConfig (Some glm_config)) (buildRequestRuleExpr night_groups)
                      (canonical_config glm_config) night_groups false).
Proof. apply (open_readable (js "glm") glm_config night_groups); [vm_compute; reflexivity | apply night_groups_ok]. Defined.

Lemma edits_stored_witness :
  exists p, edited_from glm_page p /\ editorMode (ed p) = visual /\ currentRequestRuleExpr p = currentRequestRuleExpr glm_page /\
    exists c, visualConfig (ed p) = Some c /\ currentExpr p = generateExprFromVisualConfig (Some c).
Proof.
  destruct (edit_settles glm_page (handleRemoveTier 0 (normalizeVisualConfig (Some glm_config))) glm_visual) as (p & Hp & Vp & _).
  { right. vm_compute. reflexivity. }
  assert (He : edited_from glm_page p) by (eapply ef_edit; [apply ef_open | reflexivity | apply edit_remove_tier | exact Hp]).
  exists p. split; [exact He|]. destruct (edits_stored glm_page p glm_visual He) as (_ & H2 & H3).
  destruct (H3 Vp) as (c & H4 & H5 & _). split; [exact Vp|]. split; [exact H2|]. exists c. split; [exact H4 | exact H5].
Defined.

(** A rule that the editor itself builds but does not read back. *)
Definition token_rule : jsstr :=
  buildRequestRuleExpr [mkGroup [CPH (mkPH param (js "max_tokens") MATCH_GT (js "1000"))] (js "2")].

Lemma open_rules_erased_witness :
  exists p, mount (js "m") (generateExprFromVisualConfig (Some glm_config)) token_rule = Ret p /\
    settle p = Ret (opened (js "m") (generateExprFromVisualConfig (Some glm_config)) [] (canonical_config glm_config) [] true).
Proof. apply (open_rules_erased (js "m") glm_config token_rule); vm_compute; reflexivity. Defined.

Definition flat_preset : Preset := mkPreset (js "flat") (js "Flat") (flat (js "p * 2 + c * 4")) None.
Definition opus_fast_preset : Preset :=
  mkPreset (js "claude-opus-fast") (js "Claude Opus 4.6 Fast") opus
    (Some [mkGroup [CPH (mkPH header (js "anthropic-beta") MATCH_CONTAINS (js "fast-mode-2026-02-01"))] (js "6")]).

Definition config_of (s : jsstr) : VisualConfig := default createDefaultVisualConfig (tryParseVisualConfig s).

Lemma flat_preset_ok : preset_ok flat_preset (config_of (preset_expr flat_preset)).
Proof. split; [vm_compute; reflexivity|]. split; [vm_compute; reflexivity | constructor]. Qed.

Lemma opus_fast_ok : preset_ok opus_fast_preset (config_of (preset_expr opus_fast_preset)).
Proof.
  split; [vm_compute; reflexivity|]. split; [vm_compute; reflexivity|]. constructor; [|constructor]. split; [done|]. split; [|vm_compute; reflexivity].
  constructor; [|constructor]. apply ok_contains; [by apply name_ok_b | reflexivity.. ].
Qed.

Definition glm_plain_page : Page := opened (js "glm") (generateExprFromVisualConfig (Some glm_config)) [] (canonical_config glm_config) [] false.

Lemma preset_applied_witness :
  exists q, settle (applyPreset flat_preset glm_plain_page) = Ret q /\ currentExpr q = flat (js "p * 2 + c * 4").
Proof.
  destruct (preset_applied flat_preset (config_of (preset_expr flat_preset)) glm_plain_page) as (q & Hq & _ & Hx & _).
  - unfold glm_plain_page. rewrite <- canonical_generate. apply (opened_quiet (js "glm") (canonical_config glm_config) [] false). constructor.
  - apply flat_preset_ok.
  - left. reflexivity.
  - exists q. split; [exact Hq|]. rewrite Hx. vm_compute. reflexivity.
Defined.

Lemma preset_after_open_keeps_price_witness :
  settle (applyPreset opus_fast_preset (opened (js "glm") (generateExprFromVisualConfig (Some glm_config)) (buildRequestRuleExpr []) (canonical_config glm_config) [] false))
  = Ret (opened (js "glm") (generateExprFromVisualConfig (Some glm_config)) (buildRequestRuleExpr (preset_groups opus_fast_preset))
           (canonical_config glm_config) (preset_groups opus_fast_preset) true).
Proof.
  apply (preset_after_open_keeps_price opus_fast_preset (config_of (preset_expr opus_fast_preset)) (js "glm") glm_config []);
    [apply opus_fast_ok | vm_compute; reflexivity | intros H; vm_compute in H; discriminate H].
Defined.

Lemma draft_consistent_witness :
  let d := draft_change (js "1e3") (draft_focus (draft_mount (VNum (num_of_Z 7)))) in
  draft_inv d /\ draft (draft_blur d) = js "1000".
Proof.
  destruct (draft_consistent (VNum (num_of_Z 7)) (draft_change (js "1e3") (draft_focus (draft_mount (VNum (num_of_Z 7)))))) as (H & _).
  - eapply rtc_l; [apply ds_focus|]. eapply rtc_l; [apply ds_change|]. apply rtc_refl.
  - split; [exact H | vm_compute; reflexivity].
Defined.

(** ** Two more behaviours *)
(** The first text typed in raw mode that the visual editor can read throws
    the user out of raw mode: open, switch to raw, change a price. *)
Theorem raw_edit_leaves_raw :
  match mount (js "m") (flat (js "p * 3 + c * 15")) [] with
  | Ret p =>
      match settle p with
      | Ret p =>
          match settle (handleModeChange raw p) with
          | Ret p =>
              editorMode (ed p) = raw /\
              match settle (handleRawChange (flat (js "p * 4 + c * 15")) p) with
              | Ret p => editorMode (ed p) = visual /\ currentExpr p = flat (js "p * 4 + c * 15")
              | Throw => False
              end
          | Throw => False
          end
      | Throw => False
      end
  | Throw => False
  end.
Proof. vm_compute. done. Qed.

Lemma normal_body t : buildTierBodyExpr (normalizeVisualTier (partial_of t)) = buildTierBodyExpr t.
Proof.
  unfold buildTierBodyExpr, normalizeVisualTier. cbn [input_unit_cost output_unit_cost v_extra partial_of p_input p_output p_extra default from_option id].
  by rewrite extra_parts_normal.
Qed.

(** Removing the condition of a tier that is not the last leaves a text that
    is no conditional expression: the two calls are only joined by a colon. *)
Theorem unconditioned_tier_text t t' :
  tier_ok t = true -> tier_ok t' = true -> length (v_conditions t) = 1%nat ->
  generateExprFromVisualConfig (Some (handleTierChange 0 (handleConditionRemove 0 t) (mkConfig [t; t'])))
  = tier_call (v_label t) (buildTierBodyExpr t) ++ js " : " ++ tier_call (v_label t') (buildTierBodyExpr t').
Proof.
  intros Ht Ht' Hl. unfold handleTierChange, handleConditionRemove. destruct (v_conditions t) as [|c [|]] eqn:Ec; [done | | done].
  change (list_remove 0 [c]) with (@nil TierConditionInput). set (n := normalizeVisualTier (partial_of (with_conditions [] t))).
  change (generateExprFromVisualConfig _) with (tier_call (str_or (v_label t) (js "tier_1")) (buildTierBodyExpr n) ++ js " : "
    ++ tier_call (str_or (v_label t') (js "tier_2")) (buildTierBodyExpr t')).
  rewrite !tier_ok_label by done. unfold n. by rewrite normal_body.
Qed.

Lemma unconditioned_tier_text_witness :
  let t := simple_tier (js "a") [threshold] (js "1") (js "2") (js "0") in
  let t' := simple_tier (js "b") [] (js "3") (js "4") (js "0") in
  generateExprFromVisualConfig (Some (handleTierChange 0 (handleConditionRemove 0 t) (mkConfig [t; t'])))
  = tier_call (js "a") (js "p * 1 + c * 2") ++ js " : " ++ tier_call (js "b") (js "p * 3 + c * 4").
Proof.
  cbv zeta. rewrite (unconditioned_tier_text (simple_tier (js "a") [threshold] (js "1") (js "2") (js "0")) (simple_tier (js "b") [] (js "3") (js "4") (js "0")));
    [vm_compute; reflexivity | vm_compute; reflexivity | vm_compute; reflexivity | vm_compute; reflexivity].
Defined.
End TieredEditor.
