(* ===== verification/ModelPricing.v ===== *)
(** * Model prices ([src/web/default/src/features/system-settings/models]:
    [pricing-format.ts], [model-pricing-snapshots.ts] and the table of
    [model-ratio-visual-editor.tsx])

    Ten JSON texts hold the prices of all models, one map from model names per
    kind of price.  The table reads them into one row per model, beside the rows
    last saved; saving a row and deleting one rewrite the ten texts.  The texts
    are modelled as JSON objects, as their declared type
    [Record<string, number | string>] says; another JSON value is [None].  Model
    names are looked up among an object's own properties. *)
From S2P Require Import Prelude JsString JsNumber Json JsonText JsObject JsRegex BillingExpr.
Import BillingExpr.
Local Open Scope Z_scope.

Module ModelPricing.
#[local] Arguments js : simpl never.

(** ** Numbers ([pricing-format.ts]) *)
(** A value that a form or a map holds. *)
Inductive PriceValue := PUndef | PNum (n : num) | PStr (s : jsstr).

Definition price_number (v : PriceValue) : option num :=
  match v with
  | PUndef | PStr [] => None
  | PNum n => if num_is_finite n then Some n else None
  | PStr s => let n := num_of_string s in if num_is_finite n then Some n else None
  end.

Definition DISPLAY_DECIMALS : Z := 12.
Definition SNAP_DECIMALS : Z := 8.
Definition SNAP_EPSILON : num := num_of_string (js "1e-12").
Definition NUMBER_EPSILON : num := num_div (num_of_Z 1) (num_of_Z (2 ^ 52)).

Definition roundToDecimals (value : num) (decimals : Z) : num :=
  let factor := num_of_Z (10 ^ decimals) in num_div (num_round (num_mul value factor)) factor.

Fixpoint snap_from (value tolerance : num) (decimals : Z) (fuel : nat) : num :=
  match fuel with
  | O => value
  | S fuel =>
      let rounded := roundToDecimals value decimals in
      if num_leb (num_abs (num_sub value rounded)) tolerance then rounded else snap_from value tolerance (decimals + 1) fuel
  end.

(** The loop tries the decimals from zero to [SNAP_DECIMALS]. *)
Definition snapFloatDrift (value : num) : num :=
  let tolerance := num_max SNAP_EPSILON (num_mul (num_mul (num_abs value) NUMBER_EPSILON) (num_of_Z 8)) in
  snap_from value tolerance 0 (Z.to_nat SNAP_DECIMALS + 1).

Definition formatPricingNumber (value : PriceValue) : jsstr :=
  match price_number value with
  | None => []
  | Some n => num_to_string (parseFloat (num_to_fixed DISPLAY_DECIMALS (snapFloatDrift n)))
  end.

Example format_prices : map (fun s => formatPricingNumber (PStr s)) [js "0.1"; js "2.4999999999999996"; js "0.30000000000000004"; js "15"; js "abc"; js ""; js "0.0000001234567"; js "-2.5"]
  = [js "0.1"; js "2.5"; js "0.3"; js "15"; []; []; js "1.23457e-7"; js "-2.5"].
Proof. vm_compute. reflexivity. Qed.

(** ** The ten maps *)
Record Fields (A : Type) := mkFields {
  f_price : A; f_ratio : A; f_cache : A; f_createCache : A; f_completion : A; f_image : A; f_audio : A; f_audioCompletion : A;
  f_mode : A; f_expr : A }.
Arguments mkFields {A}. Arguments f_price {A}. Arguments f_ratio {A}. Arguments f_cache {A}. Arguments f_createCache {A}. Arguments f_completion {A}.
Arguments f_image {A}. Arguments f_audio {A}. Arguments f_audioCompletion {A}. Arguments f_mode {A}. Arguments f_expr {A}.

Definition fields_map {A B} (g : A -> B) (x : Fields A) : Fields B :=
  mkFields (g (f_price x)) (g (f_ratio x)) (g (f_cache x)) (g (f_createCache x)) (g (f_completion x)) (g (f_image x)) (g (f_audio x))
    (g (f_audioCompletion x)) (g (f_mode x)) (g (f_expr x)).

(** The ten kinds, in the order in which the code lists the maps. *)
Inductive Field := Price | Ratio | Cache | CreateCache | Completion | Image | Audio | AudioCompletion | Mode | Expr.
Definition field_names : list Field := [Price; Ratio; Cache; CreateCache; Completion; Image; Audio; AudioCompletion; Mode; Expr].

Definition at_field {A} (f : Field) : Fields A -> A :=
  match f with
  | Price => f_price | Ratio => f_ratio | Cache => f_cache | CreateCache => f_createCache | Completion => f_completion | Image => f_image
  | Audio => f_audio | AudioCompletion => f_audioCompletion | Mode => f_mode | Expr => f_expr
  end.

Definition fields_all {A} (x : Fields (option A)) : option (Fields A) :=
  p ← f_price x; r ← f_ratio x; c ← f_cache x; cc ← f_createCache x; co ← f_completion x; i ← f_image x; a ← f_audio x; ac ← f_audioCompletion x;
  m ← f_mode x; e ← f_expr x; Some (mkFields p r c cc co i a ac m e).

Definition safeJsonParse (value : jsstr) (fallback : json) : json :=
  if negb (truthy value) || negb (truthy (trim value)) then fallback
  else match json_parse (trim value) with Some v => v | None => fallback end.

Definition readMap (text : jsstr) : option members := match safeJsonParse text (JObj []) with JObj ps => Some ps | _ => None end.
Definition readMaps (texts : Fields jsstr) : option (Fields members) := fields_all (fields_map readMap texts).
Definition writeMaps (maps : Fields members) : Fields jsstr := fields_map (fun m => json_pretty (JObj m)) maps.

(** ** Rows *)
Record Snapshot := mkSnapshot {
  s_name : jsstr; s_price : jsstr; s_ratio : jsstr; s_cacheRatio : jsstr; s_createCacheRatio : jsstr; s_completionRatio : jsstr;
  s_imageRatio : jsstr; s_audioRatio : jsstr; s_audioCompletionRatio : jsstr;
  s_billingMode : jsstr; s_billingExpr : option jsstr; s_requestRuleExpr : option jsstr; hasConflict : bool }.

Definition TIERED : jsstr := js "tiered_expr".
Definition PER_REQUEST : jsstr := js "per-request".
Definition PER_TOKEN : jsstr := js "per-token".

(** What the ten maps hold for one model. *)
Abbreviation cells := (Field -> option json).
Definition cells_of (maps : Fields members) (name : jsstr) : cells := fun f => map_get name (at_field f maps).

(** [map[name]?.toString() || ''] *)
Definition valueText (v : option json) : jsstr := match v with None | Some JNull => [] | Some v => json_to_string v end.

Definition modelNames (maps : Fields members) : list jsstr := set_of_list (concat (map (fun f => map_keys (at_field f maps)) field_names)).

Definition is_tiered (c : cells) : bool := match c Mode with Some (JStr m) => bool_decide (m = TIERED) | _ => false end.

(** [billingExprMap[name] || ''], a string. *)
Definition storedExpr (c : cells) : jsstr := match c Expr with Some (JStr e) => e | _ => [] end.

Definition rowOf (name : jsstr) (c : cells) : exc Snapshot :=
  let price := valueText (c Price) in
  let ratio := valueText (c Ratio) in
  let cache := valueText (c Cache) in
  let createCache := valueText (c CreateCache) in
  let completion := valueText (c Completion) in
  let image := valueText (c Image) in
  let audio := valueText (c Audio) in
  let audioCompletion := valueText (c AudioCompletion) in
  if is_tiered c then
    exc_bind (splitBillingExprAndRequestRules (storedExpr c)) (fun '(pureExpr, requestRuleExpr) =>
      Ret (mkSnapshot name price ratio cache createCache completion image audio audioCompletion TIERED (Some pureExpr) (Some requestRuleExpr) false))
  else
    Ret (mkSnapshot name price ratio cache createCache completion image audio audioCompletion
           (if truthy price then PER_REQUEST else PER_TOKEN) None None
           (truthy price && (truthy ratio || truthy completion || truthy cache || truthy createCache || truthy image || truthy audio || truthy audioCompletion))).

Definition snapshotRow (maps : Fields members) (name : jsstr) : exc Snapshot := rowOf name (cells_of maps name).

Fixpoint exc_map {A B} (f : A -> exc B) (l : list A) : exc (list B) :=
  match l with
  | [] => Ret []
  | x :: l => exc_bind (f x) (fun y => exc_bind (exc_map f l) (fun ys => Ret (y :: ys)))
  end.

Definition buildModelSnapshots (texts : Fields jsstr) : option (exc (list Snapshot)) :=
  maps ← readMaps texts; Some (exc_map (snapshotRow maps) (modelNames maps)).

Definition hasPricingValue (value : jsstr) : bool := truthy value.

Definition isBasePricingUnset (snapshot : option Snapshot) : bool :=
  match snapshot with
  | None => true
  | Some s => negb (bool_decide (s_billingMode s = TIERED)) && negb (hasPricingValue (s_price s)) && negb (hasPricingValue (s_ratio s))
  end.

Definition ratioToPrice (ratio : jsstr) (denominator : option jsstr) : jsstr :=
  let d := match denominator with Some (c :: r) => price_number (PStr (c :: r)) | _ => Some (num_of_Z 2) end in
  match price_number (PStr ratio), d with
  | Some r, Some d => formatPricingNumber (PNum (num_mul r d))
  | _, _ => []
  end.

Definition getModeLabel (mode : option jsstr) : jsstr :=
  match mode with
  | Some m => if bool_decide (m = PER_REQUEST) then js "Per-request" else if bool_decide (m = TIERED) then js "Expression" else js "Per-token"
  | None => js "Per-token"
  end.

Definition getModeVariant (mode : option jsstr) : jsstr :=
  match mode with
  | Some m => if bool_decide (m = PER_REQUEST) then js "warning" else if bool_decide (m = TIERED) then js "info" else js "success"
  | None => js "success"
  end.

Section Summary.
Context (t : jsstr -> jsstr).

Definition getExpressionSummary (row : Snapshot) : jsstr :=
  let tierCount := length (matchAll (rlit (js "tier(")) (default [] (s_billingExpr row))) in
  if (0 <? tierCount)%nat then t (js "Tiered pricing") ++ [32; 183; 32] ++ string_of_Z (Z.of_nat tierCount) ++ js " " ++ t (js "tiers")
  else t (js "Expression pricing").

Definition getPriceSummary (row : Snapshot) : jsstr :=
  if bool_decide (s_billingMode row = TIERED) then getExpressionSummary row
  else if bool_decide (s_billingMode row = PER_REQUEST) then
    if truthy (s_price row) then js "$" ++ s_price row ++ js " / " ++ t (js "request") else t (js "Unset price")
  else
    let inputPrice := ratioToPrice (s_ratio row) None in
    if negb (truthy inputPrice) then t (js "Unset price")
    else
      let extraCount := length (List.filter hasPricingValue
        [s_completionRatio row; s_cacheRatio row; s_createCacheRatio row; s_imageRatio row; s_audioRatio row; s_audioCompletionRatio row]) in
      if (0 <? extraCount)%nat then t (js "Input") ++ js " $" ++ inputPrice ++ [32; 183; 32] ++ string_of_Z (Z.of_nat extraCount) ++ js " " ++ t (js "extras")
      else t (js "Input") ++ js " $" ++ inputPrice.

Definition getPriceDetail (row : Snapshot) : jsstr :=
  if bool_decide (s_billingMode row = TIERED) then
    if truthy (default [] (s_requestRuleExpr row)) then t (js "Includes request rules") else t (js "Expression based")
  else if bool_decide (s_billingMode row = PER_REQUEST) then t (js "Fixed request price")
  else
    let inputPrice := ratioToPrice (s_ratio row) None in
    if negb (truthy inputPrice) then t (js "No base input price")
    else
      let detail label ratio := if truthy ratio then t label ++ js " $" ++ ratioToPrice ratio (Some inputPrice) else [] in
      let details := take 2 (List.filter truthy
        [detail (js "Output") (s_completionRatio row); detail (js "Cache") (s_cacheRatio row); detail (js "Cache write") (s_createCacheRatio row)]) in
      match details with [] => t (js "Base input price only") | _ => join [32; 183; 32] details end.
End Summary.

Definition getSnapshotSignature (snapshot : option Snapshot) : jsstr :=
  match snapshot with
  | None => []
  | Some s =>
      json_stringify (JObj
        [(js "price", JStr (s_price s)); (js "ratio", JStr (s_ratio s)); (js "cacheRatio", JStr (s_cacheRatio s));
         (js "createCacheRatio", JStr (s_createCacheRatio s)); (js "completionRatio", JStr (s_completionRatio s)); (js "imageRatio", JStr (s_imageRatio s));
         (js "audioRatio", JStr (s_audioRatio s)); (js "audioCompletionRatio", JStr (s_audioCompletionRatio s));
         (js "billingMode", JStr (str_or (s_billingMode s) PER_TOKEN)); (js "billingExpr", JStr (default [] (s_billingExpr s)));
         (js "requestRuleExpr", JStr (default [] (s_requestRuleExpr s)))])
  end.

(** ** Saving and deleting *)
(** [ModelRatioData]: an absent field is the empty string, which the code treats
    alike. *)
Record ModelRatioData := mkData {
  d_name : jsstr; d_price : jsstr; d_ratio : jsstr; d_cacheRatio : jsstr; d_createCacheRatio : jsstr; d_completionRatio : jsstr;
  d_imageRatio : jsstr; d_audioRatio : jsstr; d_audioCompletionRatio : jsstr;
  d_billingMode : jsstr; d_billingExpr : jsstr; d_requestRuleExpr : jsstr }.

Definition setIfPresent (name value : jsstr) (m : members) : members :=
  if negb (truthy value) then m
  else let parsed := parseFloat value in if num_is_finite parsed then obj_put name (JNum parsed) m else m.

Definition delete_model (name : jsstr) (maps : Fields members) : Fields members := fields_map (map_del name) maps.

Definition set_ratios (name : jsstr) (data : ModelRatioData) (m : Fields members) : Fields members :=
  mkFields (f_price m) (setIfPresent name (d_ratio data) (f_ratio m)) (setIfPresent name (d_cacheRatio data) (f_cache m))
    (setIfPresent name (d_createCacheRatio data) (f_createCache m)) (setIfPresent name (d_completionRatio data) (f_completion m))
    (setIfPresent name (d_imageRatio data) (f_image m)) (setIfPresent name (d_audioRatio data) (f_audio m))
    (setIfPresent name (d_audioCompletionRatio data) (f_audioCompletion m)) (f_mode m) (f_expr m).

Definition set_price (name : jsstr) (data : ModelRatioData) (m : Fields members) : Fields members :=
  mkFields (setIfPresent name (d_price data) (f_price m)) (f_ratio m) (f_cache m) (f_createCache m) (f_completion m) (f_image m) (f_audio m)
    (f_audioCompletion m) (f_mode m) (f_expr m).

Definition set_expr (name : jsstr) (data : ModelRatioData) (m : Fields members) : Fields members :=
  let combined := combineBillingExpr (d_billingExpr data) (d_requestRuleExpr data) in
  if truthy combined then
    mkFields (f_price m) (f_ratio m) (f_cache m) (f_createCache m) (f_completion m) (f_image m) (f_audio m) (f_audioCompletion m)
      (obj_put name (JStr TIERED) (f_mode m)) (obj_put name (JStr combined) (f_expr m))
  else m.

Definition persist_model (data : ModelRatioData) (maps : Fields members) (name : jsstr) : Fields members :=
  let maps := delete_model name maps in
  if bool_decide (d_billingMode data = TIERED) then set_ratios name data (set_price name data (set_expr name data maps))
  else if truthy (d_price data) then set_price name data maps
  else set_ratios name data maps.

Definition persist_maps (data : ModelRatioData) (targets : list jsstr) (maps : Fields members) : Fields members := fold_left (persist_model data) targets maps.

Definition persistPricingData (data : ModelRatioData) (targets : list jsstr) (texts : Fields jsstr) : option (Fields jsstr) :=
  maps ← readMaps texts; Some (writeMaps (persist_maps data targets maps)).

Definition handleDelete (name : jsstr) (texts : Fields jsstr) : option (Fields jsstr) :=
  maps ← readMaps texts; Some (writeMaps (delete_model name maps)).

(** ** The table *)
Record ModelRow := mkRow { displayed : Snapshot; saved : option Snapshot; r_draft : option Snapshot; isDraftChanged : bool; isDraftDeleted : bool; isDraftNew : bool }.

(** [new Map(rows.map((row) => [row.name, row]))] *)
Definition byName (rows : list Snapshot) : list (jsstr * Snapshot) := fold_left (fun m row => map_set (s_name row) row m) rows [].

(** A candidate without prices: the fields left out are empty. *)
Definition unsetRow (name : jsstr) : Snapshot := mkSnapshot name [] [] [] [] [] [] [] [] PER_TOKEN None None false.

Definition tableRow (savedByName draftByName : list (jsstr * Snapshot)) (name : jsstr) : ModelRow :=
  let saved := map_get name savedByName in
  let draft := map_get name draftByName in
  mkRow (match saved with Some s => s | None => match draft with Some d => d | None => unsetRow name end end) saved draft
    (negb (bool_decide (getSnapshotSignature saved = getSnapshotSignature draft)))
    (match saved, draft with Some _, None => true | _, _ => false end)
    (match saved, draft with None, Some _ => true | _, _ => false end).

(** The filter of the table: all models, or the candidates without a base price. *)
Inductive FilterMode := all | unset (candidates : list jsstr).

Section Table.
Context (localeCompare : jsstr -> jsstr -> Z).

Definition models (filterMode : FilterMode) (savedRows draftRows : list Snapshot) : list ModelRow :=
  let savedByName := byName savedRows in
  let draftByName := byName draftRows in
  let names := match filterMode with unset candidates => set_of_list candidates | all => set_of_list (map_keys savedByName ++ map_keys draftByName) end in
  js_sort (fun a b => localeCompare (s_name (displayed a)) (s_name (displayed b)))
    (List.filter (fun row => match filterMode with unset _ => isBasePricingUnset (saved row) | all => true end)
      (List.filter (fun row => negb (isDraftDeleted row)) (map (tableRow savedByName draftByName) names))).
End Table.

Definition mode_of (row : ModelRow) : jsstr :=
  let m := s_billingMode (displayed row) in if bool_decide (m = PER_REQUEST) || bool_decide (m = TIERED) then m else PER_TOKEN.

(** The counts of per-token, per-request and tiered rows. *)
Definition modeCounts (rows : list ModelRow) : Z * Z * Z :=
  fold_left (fun '(a, b, c) row =>
    if bool_decide (mode_of row = PER_REQUEST) then (a, b + 1, c) else if bool_decide (mode_of row = TIERED) then (a, b, c + 1) else (a + 1, b, c)) rows (0, 0, 0).

Definition handleEdit (model : ModelRow) : ModelRatioData :=
  let s := match r_draft model with Some d => d | None => match saved model with Some s => s | None => displayed model end end in
  mkData (s_name s) (s_price s) (s_ratio s) (s_cacheRatio s) (s_createCacheRatio s) (s_completionRatio s) (s_imageRatio s) (s_audioRatio s) (s_audioCompletionRatio s)
    (if bool_decide (s_billingMode s = TIERED) then TIERED else if truthy (s_price s) then PER_REQUEST else PER_TOKEN)
    (default [] (s_billingExpr s)) (default [] (s_requestRuleExpr s)).

(** [handleBatchCopy], once the open editor has committed its draft: the source
    and its targets, or the message. *)
Definition batchCopy (source : option ModelRatioData) (selected : list jsstr) (texts : Fields jsstr) : jsstr + option (Fields jsstr) :=
  match source with
  | None => inl (js "Open a source model first")
  | Some data =>
      match selected with
      | [] => inl (js "Select at least one target model")
      | _ => inr (persistPricingData data (set_of_list (d_name data :: selected)) texts)
      end
  end.

#[local] Hint Resolve map_ok_del map_ok_put map_ok_keys : core.

Lemma pretty_trimmed m : trim (json_pretty (JObj m)) = json_pretty (JObj m) /\ truthy (json_pretty (JObj m)) = true.
Proof. destruct (object_text [32; 32] [] m) as (r & E & T). unfold json_pretty. split; [done|]. by rewrite E. Qed.

(** What is written is read back. *)
Lemma readMap_written m : map_ok m = true -> readMap (json_pretty (JObj m)) = Some m.
Proof.
  intros H. destruct (pretty_trimmed m) as [Ht Hb]. unfold readMap, safeJsonParse. rewrite Ht, Hb. cbn [negb orb]. by rewrite json_parse_pretty.
Qed.

Definition maps_ok (maps : Fields members) : Prop := forall f, map_ok (at_field f maps) = true.

Lemma readMaps_written maps : maps_ok maps -> readMaps (writeMaps maps) = Some maps.
Proof.
  intros H. destruct maps as [p r c cc co i a ac m e]. unfold readMaps, writeMaps, fields_map, fields_all.
  cbn [f_price f_ratio f_cache f_createCache f_completion f_image f_audio f_audioCompletion f_mode f_expr].
  rewrite (readMap_written p (H Price)), (readMap_written r (H Ratio)), (readMap_written c (H Cache)), (readMap_written cc (H CreateCache)),
    (readMap_written co (H Completion)), (readMap_written i (H Image)), (readMap_written a (H Audio)), (readMap_written ac (H AudioCompletion)),
    (readMap_written m (H Mode)), (readMap_written e (H Expr)).
  reflexivity.
Qed.

(** ** Saving and deleting *)
Lemma at_fields_map {A B} (g : A -> B) f x : at_field f (fields_map g x) = g (at_field f x).
Proof. by destruct f. Qed.

(** The number a form field is stored as, if any. *)
Definition stored (value : jsstr) : option num :=
  if truthy value && num_is_finite (parseFloat value) then Some (parseFloat value) else None.

Lemma setIfPresent_stored name value m :
  setIfPresent name value m = match stored value with Some n => obj_put name (JNum n) m | None => m end.
Proof. unfold setIfPresent, stored. destruct (truthy value); [|done]. cbn. by destruct (num_is_finite _). Qed.

Definition combined (data : ModelRatioData) : jsstr := combineBillingExpr (d_billingExpr data) (d_requestRuleExpr data).
Definition data_tiered (data : ModelRatioData) : bool := bool_decide (d_billingMode data = TIERED).

Definition data_ratio (f : Field) (data : ModelRatioData) : jsstr :=
  match f with
  | Ratio => d_ratio data | Cache => d_cacheRatio data | CreateCache => d_createCacheRatio data | Completion => d_completionRatio data
  | Image => d_imageRatio data | Audio => d_audioRatio data | AudioCompletion => d_audioCompletionRatio data | _ => []
  end.

(** What the ten maps hold for a model after it was saved: an expression model
    keeps its prices and ratios beside its expression, a model with a fixed price
    only that price, any other model its ratios. *)
Definition saved_cells (data : ModelRatioData) : cells := fun f =>
  match f with
  | Mode => if data_tiered data && truthy (combined data) then Some (JStr TIERED) else None
  | Expr => if data_tiered data && truthy (combined data) then Some (JStr (combined data)) else None
  | Price => if data_tiered data || truthy (d_price data) then JNum <$> stored (d_price data) else None
  | f => if data_tiered data || negb (truthy (d_price data)) then JNum <$> stored (data_ratio f data) else None
  end.

(** Reduces the projections of the ten maps and nothing else. *)
Ltac fields_cbn :=
  cbn [at_field fields_map delete_model f_price f_ratio f_cache f_createCache f_completion f_image f_audio f_audioCompletion f_mode f_expr data_ratio
       fmap option_fmap option_map orb andb negb] in *.

(** The cases of saving: the mode, whether there is an expression and a price. *)
Ltac persist_cases data :=
  unfold persist_model, saved_cells, data_tiered, set_ratios, set_price, set_expr; fold (combined data);
  destruct (bool_decide (d_billingMode data = TIERED)), (truthy (combined data)), (truthy (d_price data)).

Definition keys_distinct (maps : Fields members) : Prop := forall f, NoDup (map_keys (at_field f maps)).

Lemma get_setIfPresent k name value m :
  NoDup (map_keys m) ->
  map_get k (setIfPresent name value m) = if decide (k = name) then (match stored value with Some n => Some (JNum n) | None => map_get k m end) else map_get k m.
Proof. intros Hn. rewrite setIfPresent_stored. destruct (stored value); [by apply get_obj_put|]. by case_decide. Qed.

Lemma keys_setIfPresent name value m : NoDup (map_keys m) -> NoDup (map_keys (setIfPresent name value m)).
Proof. intros Hn. rewrite setIfPresent_stored. destruct (stored value); [by apply keys_obj_put | done]. Qed.

#[local] Hint Resolve keys_obj_put NoDup_map_del keys_setIfPresent : core.

Lemma cells_of_delete maps name n f :
  keys_distinct maps -> cells_of (delete_model name maps) n f = if decide (n = name) then None else cells_of maps n f.
Proof. intros Hn. unfold cells_of, delete_model. rewrite at_fields_map. apply get_map_del, Hn. Qed.

Lemma keys_delete name maps : keys_distinct maps -> keys_distinct (delete_model name maps).
Proof. intros Hn f. unfold delete_model. rewrite at_fields_map. by apply NoDup_map_del. Qed.

Lemma keys_persist data maps name : keys_distinct maps -> keys_distinct (persist_model data maps name).
Proof.
  intros Hn%(keys_delete name) f. specialize (Hn f). persist_cases data; destruct f; fields_cbn; auto.
Qed.

Lemma cells_of_persist data maps name n f :
  keys_distinct maps ->
  cells_of (persist_model data maps name) n f = if decide (n = name) then saved_cells data f else cells_of maps n f.
Proof.
  intros Hn. pose proof (cells_of_delete maps name n f Hn) as Hd. pose proof (keys_delete name maps Hn f) as Hk. unfold cells_of in *.
  persist_cases data; destruct f; fields_cbn; rewrite ?get_setIfPresent, ?get_obj_put, ?Hd by auto; case_decide; try done; by destruct (stored _).
Qed.

Lemma cells_of_persist_all data targets maps n f :
  keys_distinct maps ->
  cells_of (persist_maps data targets maps) n f = if decide (n ∈ targets) then saved_cells data f else cells_of maps n f.
Proof.
  unfold persist_maps. revert maps. induction targets as [|x targets IH]; intros maps Hn; [done|]. cbn [fold_left].
  rewrite IH by (by apply keys_persist). rewrite cells_of_persist by done.
  destruct (decide (n ∈ targets)), (decide (n = x)); subst; repeat case_decide; set_solver.
Qed.

(** A row depends on the model's cells only. *)
Lemma rowOf_ext name c c' : (forall f, c f = c' f) -> rowOf name c = rowOf name c'.
Proof. intros H. unfold rowOf, is_tiered, storedExpr. by rewrite !H. Qed.

Lemma elem_of_modelNames maps n : n ∈ modelNames maps <-> exists f, cells_of maps n f <> None.
Proof.
  unfold modelNames. rewrite elem_of_set_of_list. unfold cells_of. split.
  - intros H. apply list_elem_of_In, in_concat in H as (l & Hl & Hn). apply in_map_iff in Hl as (f & <- & _). exists f.
    apply list_elem_of_In, elem_of_map_keys in Hn as [v ->]. done.
  - intros [f Hf]. apply list_elem_of_In, in_concat. exists (map_keys (at_field f maps)). split.
    + apply in_map_iff. exists f. split; [done|]. destruct f; cbn; tauto.
    + apply list_elem_of_In, elem_of_map_keys. destruct (map_get n (at_field f maps)) eqn:E; [by eexists | done].
Qed.

(** Data that survives its text: the numbers read back, the expression is made
    of code units. *)
Definition data_ok (data : ModelRatioData) : bool :=
  forallb (fun f => match stored (data_ratio f data) with Some n => num_reads_back n | None => true end) field_names
  && match stored (d_price data) with Some n => num_reads_back n | None => true end && forallb code_unit (combined data).

Lemma maps_ok_keys maps : maps_ok maps -> keys_distinct maps.
Proof. intros H f. apply map_ok_keys, H. Qed.

Lemma ok_setIfPresent name value m :
  map_ok m = true -> forallb code_unit name = true -> match stored value with Some n => num_reads_back n | None => true end = true ->
  map_ok (setIfPresent name value m) = true.
Proof. intros Hm Hn Hv. rewrite setIfPresent_stored. destruct (stored value); [by apply map_ok_put | done]. Qed.

Lemma ok_delete name maps : maps_ok maps -> maps_ok (delete_model name maps).
Proof. intros H f. unfold delete_model. rewrite at_fields_map. apply map_ok_del, H. Qed.

Lemma ok_persist data maps name : maps_ok maps -> data_ok data = true -> forallb code_unit name = true -> maps_ok (persist_model data maps name).
Proof.
  intros Hm%(ok_delete name) Hd Hn f. unfold data_ok in Hd. rewrite !andb_true_iff, forallb_forall in Hd. destruct Hd as [[Hr Hp] Hc].
  assert (Hr' : match stored (data_ratio f data) with Some n => num_reads_back n | None => true end = true) by (apply Hr; destruct f; cbn; tauto).
  specialize (Hm f). persist_cases data; destruct f; fields_cbn; auto using ok_setIfPresent.
Qed.

Lemma ok_persist_all data targets maps :
  maps_ok maps -> data_ok data = true -> Forall (fun n => forallb code_unit n = true) targets -> maps_ok (persist_maps data targets maps).
Proof.
  unfold persist_maps. intros Hm Hd Ht. revert maps Hm. induction Ht; intros maps Hm; [done|]. cbn [fold_left]. apply IHHt. by apply ok_persist.
Qed.

(** ** Saving and deleting, on the texts *)
Abbreviation units := (forallb code_unit).
Lemma readMap_ok text m : units text = true -> readMap text = Some m -> json_nums_ok (JObj m) = true -> map_ok m = true.
Proof.
  intros Hu H Hn. unfold map_ok. rewrite json_ok_split, Hn, andb_true_r. revert H. unfold readMap, safeJsonParse.
  destruct (negb _ || negb _); [by intros [= <-]|].
  destruct (json_parse (trim text)) as [v|] eqn:E; [|by intros [= <-]]. destruct v; try done. intros [= <-].
  eapply json_parse_shape; [|exact E]. by apply forallb_trim.
Qed.

Definition texts_units (texts : Fields jsstr) : Prop := forall f, units (at_field f texts) = true.
Definition nums_ok (maps : Fields members) : Prop := forall f, json_nums_ok (JObj (at_field f maps)) = true.

Lemma at_readMaps texts maps f : readMaps texts = Some maps -> readMap (at_field f texts) = Some (at_field f maps).
Proof.
  unfold readMaps, fields_all, fields_map. cbn [f_price f_ratio f_cache f_createCache f_completion f_image f_audio f_audioCompletion f_mode f_expr].
  intros H. repeat (apply bind_Some in H as (? & ? & H)). injection H as <-. by destruct f.
Qed.

Lemma readMaps_ok texts maps : texts_units texts -> readMaps texts = Some maps -> nums_ok maps -> maps_ok maps.
Proof. intros Hu H Hn f. eapply readMap_ok; [apply Hu | by apply at_readMaps | apply Hn]. Qed.

Lemma modelNames_cells maps maps' n (c : cells) (P : Prop) `{!Decision P} :
  (forall f, cells_of maps' n f = if decide P then c f else cells_of maps n f) ->
  n ∈ modelNames maps' <-> if decide P then exists f, c f <> None else n ∈ modelNames maps.
Proof. intros H. rewrite elem_of_modelNames. setoid_rewrite H. case_decide; [done|]. by rewrite elem_of_modelNames. Qed.

Lemma snapshotRow_cells maps maps' n (c : cells) (P : Prop) `{!Decision P} :
  (forall f, cells_of maps' n f = if decide P then c f else cells_of maps n f) ->
  snapshotRow maps' n = if decide P then rowOf n c else snapshotRow maps n.
Proof. intros H. unfold snapshotRow. case_decide; by apply rowOf_ext. Qed.

(** C9.  Saving the prices of a model, alone or for a batch of models: the texts
    written can be read again; the row of every target is the row of the data
    saved (expression models keep their prices and ratios as a fallback, models
    with a fixed price keep only it, other models their ratios), the row of every
    other model is what it was, and no model appears or disappears but a target. *)
Theorem save_rows data targets texts maps :
  texts_units texts -> readMaps texts = Some maps -> nums_ok maps -> data_ok data = true -> Forall (fun n => units n = true) targets ->
  exists texts' maps', persistPricingData data targets texts = Some texts' /\ readMaps texts' = Some maps' /\
    (forall n, snapshotRow maps' n = if decide (n ∈ targets) then rowOf n (saved_cells data) else snapshotRow maps n) /\
    (forall n, n ∈ modelNames maps' <-> if decide (n ∈ targets) then exists f, saved_cells data f <> None else n ∈ modelNames maps).
Proof.
  intros Hu Hr Hn Hd Ht. pose proof (readMaps_ok _ _ Hu Hr Hn) as Hok. exists (writeMaps (persist_maps data targets maps)), (persist_maps data targets maps).
  split; [unfold persistPricingData; by rewrite Hr|]. split; [by apply readMaps_written, ok_persist_all|].
  split; intros n; [apply snapshotRow_cells | apply modelNames_cells]; intros f; by apply cells_of_persist_all, maps_ok_keys.
Qed.

(** Deleting a model removes it from all ten texts and leaves the rows of the
    other models as they are. *)
Theorem delete_rows name texts maps :
  texts_units texts -> readMaps texts = Some maps -> nums_ok maps ->
  exists texts' maps', handleDelete name texts = Some texts' /\ readMaps texts' = Some maps' /\
    ~ name ∈ modelNames maps' /\ (forall n, n <> name -> snapshotRow maps' n = snapshotRow maps n /\ (n ∈ modelNames maps' <-> n ∈ modelNames maps)).
Proof.
  intros Hu Hr Hn. pose proof (readMaps_ok _ _ Hu Hr Hn) as Hok. exists (writeMaps (delete_model name maps)), (delete_model name maps).
  split; [unfold handleDelete; by rewrite Hr|]. split; [by apply readMaps_written, ok_delete|].
  assert (Hc : forall n f, cells_of (delete_model name maps) n f = if decide (n = name) then None else cells_of maps n f) by (intros n f; by apply cells_of_delete, maps_ok_keys).
  split.
  - rewrite elem_of_modelNames. intros [f Hf]. rewrite Hc, decide_True in Hf by done. done.
  - intros n Hne. pose proof (snapshotRow_cells maps _ n (fun _ => None) (n = name) (Hc n)) as H1.
    pose proof (modelNames_cells maps _ n (fun _ => None) (n = name) (Hc n)) as H2. rewrite decide_False in H1 by done. rewrite decide_False in H2 by done. done.
Qed.

(** ** The table *)

(** The texts that the signature of a row compares. *)
Definition price_fields (s : Snapshot) : list jsstr :=
  [s_price s; s_ratio s; s_cacheRatio s; s_createCacheRatio s; s_completionRatio s; s_imageRatio s; s_audioRatio s; s_audioCompletionRatio s;
   str_or (s_billingMode s) PER_TOKEN; default [] (s_billingExpr s); default [] (s_requestRuleExpr s)].

Definition row_units (s : Snapshot) : Prop := Forall (fun t => units t = true) (price_fields s).
#[export] Instance row_units_dec s : Decision (row_units s).
Proof. unfold row_units. apply _. Defined.

Definition signature_keys : list jsstr :=
  [js "price"; js "ratio"; js "cacheRatio"; js "createCacheRatio"; js "completionRatio"; js "imageRatio"; js "audioRatio"; js "audioCompletionRatio";
   js "billingMode"; js "billingExpr"; js "requestRuleExpr"].

Definition signature_value (ts : list jsstr) : json := JObj (zip signature_keys (map JStr ts)).

Lemma signature_some s : getSnapshotSignature (Some s) = json_stringify (signature_value (price_fields s)).
Proof. reflexivity. Qed.

Lemma signature_ok s : row_units s -> json_ok (signature_value (price_fields s)) = true.
Proof.
  intros H. unfold row_units in H. remember (price_fields s) as ts eqn:E. assert (Hl : length ts = 11%nat) by (by subst). clear E.
  do 12 (destruct ts as [|? ts]; try done). repeat (apply Forall_cons in H as [? H]).
  unfold signature_value. cbn [zip zip_with map signature_keys]. cbn [json_ok]. apply andb_true_intro. split.
  - apply bool_decide_eq_true_2, obj_of_members_plain; [cbn; apply (bool_decide_unpack _); vm_compute; reflexivity | repeat constructor].
  - cbn [forallb fst snd json_ok]. repeat (apply andb_true_intro; split); done || reflexivity.
Qed.

(** Signatures agree exactly when the compared texts do. *)
Lemma signature_eq s d : row_units s -> row_units d -> getSnapshotSignature (Some s) = getSnapshotSignature (Some d) <-> price_fields s = price_fields d.
Proof.
  intros Hs Hd. rewrite !signature_some. split; [|by intros ->]. intros H.
  assert (E : Some (signature_value (price_fields s)) = Some (signature_value (price_fields d))).
  { rewrite <- !json_parse_stringify by (by apply signature_ok). by rewrite H. }
  injection E as E1 E2 E3 E4 E5 E6 E7 E8 E9 E10 E11. unfold price_fields. congruence.
Qed.

Lemma signature_none s : getSnapshotSignature (Some s) <> [].
Proof. rewrite signature_some. unfold json_stringify, signature_value. cbn [stringify]. intros H. pose proof (head_wrap 123 125 [] [] (map (fun p : jsstr * json => json_quote p.1 ++ [58] ++ [] ++ stringify [] ([] ++ []) p.2) (zip signature_keys (map JStr (price_fields s))))) as Hh. by rewrite H in Hh. Qed.

Definition distinct_rows (rows : list Snapshot) : Prop := NoDup (map s_name rows).

Lemma byName_rows rows : distinct_rows rows -> byName rows = map (fun row => (s_name row, row)) rows.
Proof.
  intros Hn. unfold byName. pose proof (fold_map_set_NoDup (map (fun row => (s_name row, row)) rows) []) as H.
  rewrite fold_left_map in H. cbn [fst snd app] in H. apply H. unfold map_keys. cbn [app]. change (fmap fst) with (map (@fst jsstr Snapshot)). by rewrite map_map.
Qed.

Lemma keys_byName rows : distinct_rows rows -> map_keys (byName rows) = map s_name rows.
Proof. intros Hn. rewrite byName_rows by done. unfold map_keys. change (fmap fst) with (map (@fst jsstr Snapshot)). by rewrite map_map. Qed.

Lemma byName_Some rows n s : distinct_rows rows -> map_get n (byName rows) = Some s -> s_name s = n /\ s ∈ rows.
Proof.
  intros Hn H%map_get_Some_elem. rewrite byName_rows in H by done. apply list_elem_of_In, in_map_iff in H as (r & [= <- <-] & H).
  split; [done|]. by apply list_elem_of_In.
Qed.

Lemma byName_None rows n : distinct_rows rows -> map_get n (byName rows) = None <-> n ∉ map s_name rows.
Proof. intros Hn. by rewrite map_get_None, keys_byName. Qed.

Section TableRows.
Context (savedRows draftRows : list Snapshot).
Hypotheses (Hs : distinct_rows savedRows) (Hd : distinct_rows draftRows).
Abbreviation row := (tableRow (byName savedRows) (byName draftRows)).

Lemma name_displayed n : s_name (displayed (row n)) = n.
Proof.
  cbn. destruct (map_get n (byName savedRows)) eqn:E; [by eapply byName_Some in E as [? _]|].
  destruct (map_get n (byName draftRows)) eqn:E'; [by eapply byName_Some in E' as [? _] | done].
Qed.

Lemma deleted_iff n : isDraftDeleted (row n) = true <-> n ∈ map s_name savedRows /\ n ∉ map s_name draftRows.
Proof.
  pose proof (byName_None savedRows n Hs). pose proof (byName_None draftRows n Hd). cbn.
  destruct (map_get n (byName savedRows)), (map_get n (byName draftRows)); split; try done.
  - intros [_ Hn]. naive_solver.
  - intros _. split; [destruct (decide (n ∈ map s_name savedRows)); naive_solver | tauto].
  - intros [Hi _]. naive_solver.
  - intros [Hi _]. naive_solver.
Qed.

Lemma changed_iff n :
  Forall row_units (savedRows ++ draftRows) ->
  isDraftChanged (row n) = false <-> price_fields <$> saved (row n) = price_fields <$> r_draft (row n).
Proof.
  intros Hu. cbn. rewrite negb_false_iff, bool_decide_eq_true. rewrite Forall_app, !Forall_forall in Hu. destruct Hu as [Hu Hv].
  destruct (map_get n (byName savedRows)) as [s|] eqn:Es, (map_get n (byName draftRows)) as [d|] eqn:Ed; cbn [fmap option_fmap option_map].
  - apply byName_Some in Es as [_ Es]; [|done]. apply byName_Some in Ed as [_ Ed]; [|done]. rewrite signature_eq by auto. split; congruence.
  - split; [|done]. intros H. by apply signature_none in H.
  - split; [|done]. intros H. symmetry in H. by apply signature_none in H.
  - done.
Qed.

Lemma elem_of_models cmp mode r :
  r ∈ models cmp mode savedRows draftRows <->
  exists n, r = row n /\ ~ (n ∈ map s_name savedRows /\ n ∉ map s_name draftRows) /\
    match mode with all => n ∈ map s_name savedRows ++ map s_name draftRows | unset candidates => n ∈ candidates /\ isBasePricingUnset (saved (row n)) = true end.
Proof.
  unfold models. rewrite elem_of_js_sort, list_elem_of_In, !filter_In, in_map_iff. setoid_rewrite <- (list_elem_of_In _).
  rewrite negb_true_iff. split.
  - intros [[(n & <- & Hn) Hk] Hm]. exists n. split; [done|]. split.
    + intros H%deleted_iff. congruence.
    + destruct mode; rewrite elem_of_set_of_list in Hn; [|done]. by rewrite !keys_byName in Hn.
  - intros (n & -> & Hk & Hn). split; [split; [exists n; split; [done|]|]|].
    + destruct mode; rewrite elem_of_set_of_list; [by rewrite !keys_byName | by destruct Hn].
    + destruct (isDraftDeleted (row n)) eqn:E; [by apply deleted_iff in E | done].
    + by destruct mode, Hn.
Qed.
End TableRows.

(** The table of all models lists exactly the models of the draft, those
    deleted in the draft being left out, each shown as it was last saved, or as
    drafted when it is new; a row is marked as changed exactly when the price
    texts, the mode or the expressions of draft and saved row differ, and as new
    exactly when the model has not been saved. *)
Theorem table_rows cmp savedRows draftRows :
  distinct_rows savedRows -> distinct_rows draftRows -> Forall row_units (savedRows ++ draftRows) ->
  (forall n, n ∈ map s_name draftRows <-> exists r, r ∈ models cmp all savedRows draftRows /\ s_name (displayed r) = n) /\
  (forall r, r ∈ models cmp all savedRows draftRows ->
     (isDraftChanged r = false <-> price_fields <$> saved r = price_fields <$> r_draft r) /\
     (isDraftNew r = true <-> ~ s_name (displayed r) ∈ map s_name savedRows) /\
     (displayed r ∈ savedRows \/ isDraftNew r = true /\ displayed r ∈ draftRows)).
Proof.
  intros Hs Hd Hu. split.
  - intros n. setoid_rewrite elem_of_models; [|done..]. split.
    + intros Hn. exists (tableRow (byName savedRows) (byName draftRows) n). split; [|by apply name_displayed]. exists n. set_solver.
    + intros (r & (m & -> & Hk & Hm) & <-). rewrite name_displayed by done.
      destruct (decide (m ∈ map s_name draftRows)); [done|]. exfalso. apply Hk. set_solver.
  - intros r. rewrite elem_of_models by done. intros (n & -> & Hk & Hn). split; [by apply changed_iff|]. rewrite name_displayed by done.
    pose proof (byName_None savedRows n Hs) as Ns. pose proof (byName_None draftRows n Hd) as Nd. cbn.
    destruct (map_get n (byName savedRows)) as [s|] eqn:Es.
    + split; [destruct (map_get n (byName draftRows)); split; try done; naive_solver|]. left. by eapply byName_Some.
    + destruct (map_get n (byName draftRows)) as [d|] eqn:Ed.
      * split; [naive_solver|]. right. split; [done|]. by eapply byName_Some.
      * exfalso. set_solver.
Qed.

Lemma modeCounts_fold rows a b c : 
  let '(x, y, z) := fold_left (fun '(a, b, c) row =>
    if bool_decide (mode_of row = PER_REQUEST) then (a, b + 1, c) else if bool_decide (mode_of row = TIERED) then (a, b, c + 1) else (a + 1, b, c)) rows (a, b, c) in
  x + y + z = a + b + c + Z.of_nat (length rows).
Proof.
  revert a b c. induction rows as [|r rows IH]; intros a b c; [cbn; lia|]. cbn [fold_left length].
  destruct (bool_decide _); [|destruct (bool_decide _)];
    [specialize (IH a (b + 1) c) | specialize (IH a b (c + 1)) | specialize (IH (a + 1) b c)]; destruct (fold_left _ rows _) as [[x y] z]; lia.
Qed.

(** The counts on the filter add up to the rows of the table. *)
Lemma modeCounts_total rows : let '(x, y, z) := modeCounts rows in x + y + z = Z.of_nat (length rows).
Proof. exact (modeCounts_fold rows 0 0 0). Qed.

(** ** An instance *)
Definition gpt : jsstr := js "gpt-4o".
Definition claude : jsstr := js "claude".
Definition sample_maps : Fields members :=
  mkFields [(claude, JNum (num_of_Z 3))] [(gpt, JNum (num_of_string (js "1.25")))] [] [] [(gpt, JNum (num_of_Z 4))] [] [] [] [] [].
Definition sample_texts : Fields jsstr := writeMaps sample_maps.
Definition sample_data : ModelRatioData :=
  mkData gpt [] (js "2.5") (js "0.1") [] (js "4") [] [] [] PER_TOKEN [] [].

Definition sample_row (maps : Fields members) (n : jsstr) : Snapshot := match snapshotRow maps n with Ret s => s | Throw => unsetRow n end.

Lemma save_rows_witness :
  exists texts' maps', persistPricingData sample_data [gpt; js "new-model"] sample_texts = Some texts' /\ readMaps texts' = Some maps' /\
    (forall n, snapshotRow maps' n = if decide (n ∈ [gpt; js "new-model"]) then rowOf n (saved_cells sample_data) else snapshotRow sample_maps n) /\
    (forall n, n ∈ modelNames maps' <-> if decide (n ∈ [gpt; js "new-model"]) then exists f, saved_cells sample_data f <> None else n ∈ modelNames sample_maps).
Proof.
  apply save_rows; [intros []; vm_compute; reflexivity | vm_compute; reflexivity | intros []; vm_compute; reflexivity | vm_compute; reflexivity |].
  repeat (apply Forall_cons_2; [vm_compute; reflexivity|]). apply Forall_nil_2.
Defined.

Lemma delete_rows_witness :
  exists texts' maps', handleDelete gpt sample_texts = Some texts' /\ readMaps texts' = Some maps' /\
    ~ gpt ∈ modelNames maps' /\ (forall n, n <> gpt -> snapshotRow maps' n = snapshotRow sample_maps n /\ (n ∈ modelNames maps' <-> n ∈ modelNames sample_maps)).
Proof. apply delete_rows; [intros []; vm_compute; reflexivity | vm_compute; reflexivity | intros []; vm_compute; reflexivity]. Defined.

Definition sample_saved : list Snapshot := map (sample_row sample_maps) [claude; gpt].
Definition sample_draft : list Snapshot := map (sample_row (persist_maps sample_data [gpt] (delete_model claude sample_maps))) [gpt; js "new-model"].

Definition by_length (a b : jsstr) : Z := Z.of_nat (length a) - Z.of_nat (length b).

Lemma table_rows_witness :
  (forall n, n ∈ map s_name sample_draft <-> exists r, r ∈ models by_length all sample_saved sample_draft /\ s_name (displayed r) = n) /\
  (forall r, r ∈ models by_length all sample_saved sample_draft ->
     (isDraftChanged r = false <-> price_fields <$> saved r = price_fields <$> r_draft r) /\
     (isDraftNew r = true <-> ~ s_name (displayed r) ∈ map s_name sample_saved) /\
     (displayed r ∈ sample_saved \/ isDraftNew r = true /\ displayed r ∈ sample_draft)).
Proof.
  apply table_rows.
  - unfold distinct_rows. apply (bool_decide_unpack _). vm_compute. reflexivity.
  - unfold distinct_rows. apply (bool_decide_unpack _). vm_compute. reflexivity.
  - apply (bool_decide_unpack _). vm_compute. reflexivity.
Defined.

Example sample_table :
  map (fun r => (s_name (displayed r), isDraftChanged r, isDraftNew r))
    (models by_length all sample_saved sample_draft)
  = [(gpt, true, false); (js "new-model", true, true)].
Proof. vm_compute. reflexivity. Qed.
End ModelPricing.
