(* ===== verification/PricingPanel.v ===== *)
(** * The price panel of one model
    ([src/web/default/src/features/system-settings/models]:
    [model-pricing-core.ts] and [ModelPricingEditorPanel] of
    [model-pricing-sheet.tsx])

    The panel shows prices per million tokens and keeps a form of ratios, which
    is what is saved: the ratio of the input price to two dollars, and of every
    other lane to the input price (of the audio output to the audio input).  The
    state is the form, the prices on screen and the lanes switched on; every
    handler is a function on it.  The counter that remounts the expression editor
    is left out. *)
From stdpp Require Import relations.
From S2P Require Import Prelude JsString JsNumber Json JsonText JsObject JsRegex BillingExpr ModelPricing.
Import BillingExpr ModelPricing.
Local Open Scope Z_scope.

Module PricingPanel.
#[local] Arguments js : simpl never.

(** ** Lanes *)
Inductive LaneKey := completion | cache | createCache | image | audioInput | audioOutput.
#[export] Instance LaneKey_eq_dec : EqDecision LaneKey.
Proof. solve_decision. Defined.

Record LaneConfig := mkLane { lane_key : LaneKey; titleKey : jsstr; descriptionKey : jsstr; placeholder : jsstr }.

Definition laneConfigs : list LaneConfig :=
  [mkLane completion (js "Completion price") (js "Output token price for generated tokens.") (js "15");
   mkLane cache (js "Cache read price") (js "Token price for cache reads.") (js "0.3");
   mkLane createCache (js "Cache write price") (js "Token price for creating cache entries.") (js "3.75");
   mkLane image (js "Image input price") (js "Token price for image input.") (js "2.5");
   mkLane audioInput (js "Audio input price") (js "Token price for audio input.") (js "3.81");
   mkLane audioOutput (js "Audio output price") (js "Token price for audio output.") (js "15.11")].

(** The keys of the lanes, in order. *)
Definition lanes : list LaneKey := map lane_key laneConfigs.

(** [{ ...record, [lane]: value }] *)
Definition put {A} (lane : LaneKey) (value : A) (record : LaneKey -> A) : LaneKey -> A := fun k => if decide (k = lane) then value else record k.

Definition EMPTY_LANE_PRICES : LaneKey -> jsstr := fun _ => [].
Definition EMPTY_LANE_ENABLED : LaneKey -> bool := fun _ => false.

(** The pattern [numericDraftRegex]: digits with an optional fraction, a fraction
    alone, or nothing. *)
Definition numericDraftRegex : regex :=
  let digits := RStar (RChar is_digit) in
  rseq [RStart false;
        ropt (RGroup 1 (RAlt (RSeq (rplus (RChar is_digit)) (ropt (RGroup 2 (RSeq (rlit (js ".")) digits)))) (RSeq (rlit (js ".")) digits)));
        REnd false].
Definition isNumericDraft (value : jsstr) : bool := match match_at_start numericDraftRegex value with Some _ => true | None => false end.

Example numeric_drafts : map isNumericDraft [[]; js "3"; js "3."; js "3.75"; js ".5"; js "."; js "-1"; js "1e3"; js "1.2.3"; js " 1"]
  = [true; true; true; true; true; true; false; false; false; false].
Proof. vm_compute. reflexivity. Qed.

Definition hasValue (value : jsstr) : bool := truthy value.
Definition toNumberOrNull (value : jsstr) : option num := price_number (PStr value).

Definition ratioToBasePrice (ratio : jsstr) : jsstr :=
  match toNumberOrNull ratio with None => [] | Some n => formatPricingNumber (PNum (num_mul n (num_of_Z 2))) end.

Definition deriveLanePrice (ratio denominator : jsstr) : jsstr :=
  match toNumberOrNull ratio, toNumberOrNull denominator with
  | Some r, Some d => formatPricingNumber (PNum (num_mul r d))
  | _, _ => []
  end.

(** ** The form and the panel *)
Record Form := mkForm { name : jsstr; price : jsstr; ratio : jsstr; laneRatio : LaneKey -> jsstr }.

(** The field of a lane in the data of a model ([ratioFieldByLane]). *)
Definition ratioFieldByLane (lane : LaneKey) (data : ModelRatioData) : jsstr :=
  match lane with
  | completion => d_completionRatio data | cache => d_cacheRatio data | createCache => d_createCacheRatio data | image => d_imageRatio data
  | audioInput => d_audioRatio data | audioOutput => d_audioCompletionRatio data
  end.

Record LaneState := mkLanes { ls_promptPrice : jsstr; prices : LaneKey -> jsstr; enabled : LaneKey -> bool }.

Definition createInitialLaneState (data : option ModelRatioData) : LaneState :=
  match data with
  | None => mkLanes [] EMPTY_LANE_PRICES EMPTY_LANE_ENABLED
  | Some data =>
      let promptPrice := ratioToBasePrice (d_ratio data) in
      let audioInputPrice := deriveLanePrice (d_audioRatio data) promptPrice in
      mkLanes promptPrice
        (fun lane => match lane with
                     | audioInput => audioInputPrice
                     | audioOutput => deriveLanePrice (d_audioCompletionRatio data) audioInputPrice
                     | lane => deriveLanePrice (ratioFieldByLane lane data) promptPrice
                     end)
        (fun lane => hasValue (ratioFieldByLane lane data))
  end.

Inductive PricingMode := per_token | per_request | tiered_expr.
Definition mode_text (m : PricingMode) : jsstr := match m with per_token => PER_TOKEN | per_request => PER_REQUEST | tiered_expr => TIERED end.

Record Panel := mkPanel {
  form : Form; pricingMode : PricingMode; promptPrice : jsstr; lanePrices : LaneKey -> jsstr; laneEnabled : LaneKey -> bool;
  billingExpr : jsstr; requestRuleExpr : jsstr }.

(** The effect on the edited model. *)
Definition load (editData : option ModelRatioData) : Panel :=
  let next := createInitialLaneState editData in
  match editData with
  | Some d =>
      mkPanel (mkForm (d_name d) (d_price d) (d_ratio d) (fun lane => ratioFieldByLane lane d))
        (if bool_decide (d_billingMode d = TIERED) then tiered_expr else if truthy (d_price d) then per_request else per_token)
        (ls_promptPrice next) (prices next) (enabled next) (d_billingExpr d) (d_requestRuleExpr d)
  | None => mkPanel (mkForm [] [] [] (fun _ => [])) per_token (ls_promptPrice next) (prices next) (enabled next) [] []
  end.

(** ** Handlers *)
Definition set_form (f : Form) (p : Panel) : Panel := mkPanel f (pricingMode p) (promptPrice p) (lanePrices p) (laneEnabled p) (billingExpr p) (requestRuleExpr p).
Definition setName (v : jsstr) (f : Form) : Form := mkForm v (price f) (ratio f) (laneRatio f).
Definition setPrice (v : jsstr) (f : Form) : Form := mkForm (name f) v (ratio f) (laneRatio f).
Definition setRatio (v : jsstr) (f : Form) : Form := mkForm (name f) (price f) v (laneRatio f).
Definition setLaneRatio (lane : LaneKey) (v : jsstr) (f : Form) : Form := mkForm (name f) (price f) (ratio f) (put lane v (laneRatio f)).

Definition is_zero (n : num) : bool := num_eqb n num_zero.

Definition deriveLaneRatio (lane : LaneKey) (price nextPromptPrice : jsstr) (nextLanePrices : LaneKey -> jsstr) : jsstr :=
  match toNumberOrNull price with
  | None => []
  | Some priceNumber =>
      let base := match lane with audioOutput => nextLanePrices audioInput | _ => nextPromptPrice end in
      match toNumberOrNull base with
      | None => []
      | Some d => if is_zero d then [] else formatPricingNumber (PNum (num_div priceNumber d))
      end
  end.

Definition baseRatio (nextPromptPrice : jsstr) : jsstr :=
  match toNumberOrNull nextPromptPrice with Some n => formatPricingNumber (PNum (num_div n (num_of_Z 2))) | None => [] end.

Definition syncLaneRatios (nextPromptPrice : jsstr) (nextLanePrices : LaneKey -> jsstr) (nextLaneEnabled : LaneKey -> bool) (f : Form) : Form :=
  fold_left (fun f lane =>
    setLaneRatio lane (if negb (nextLaneEnabled lane) then [] else deriveLaneRatio lane (nextLanePrices lane) nextPromptPrice nextLanePrices) f)
    lanes (setRatio (baseRatio nextPromptPrice) f).

Definition handlePromptPriceChange (value : jsstr) (p : Panel) : Panel :=
  if negb (isNumericDraft value) then p
  else mkPanel (syncLaneRatios value (lanePrices p) (laneEnabled p) (form p)) (pricingMode p) value (lanePrices p) (laneEnabled p) (billingExpr p) (requestRuleExpr p).

Definition handleLanePriceChange (lane : LaneKey) (value : jsstr) (p : Panel) : Panel :=
  if negb (isNumericDraft value) then p
  else
    let nextLanePrices := put lane value (lanePrices p) in
    let f := if laneEnabled p lane then setLaneRatio lane (deriveLaneRatio lane value (promptPrice p) nextLanePrices) (form p) else form p in
    let f := if bool_decide (lane = audioInput) && laneEnabled p audioOutput
             then setLaneRatio audioOutput (deriveLaneRatio audioOutput (nextLanePrices audioOutput) (promptPrice p) nextLanePrices) f else f in
    mkPanel f (pricingMode p) (promptPrice p) nextLanePrices (laneEnabled p) (billingExpr p) (requestRuleExpr p).

Definition handleLaneToggle (lane : LaneKey) (checked : bool) (p : Panel) : Panel :=
  let nextEnabled := put lane checked (laneEnabled p) in
  if checked then
    mkPanel (setLaneRatio lane (deriveLaneRatio lane (lanePrices p lane) (promptPrice p) (lanePrices p)) (form p)) (pricingMode p) (promptPrice p)
      (lanePrices p) nextEnabled (billingExpr p) (requestRuleExpr p)
  else
    let nextPrices := put lane [] (lanePrices p) in
    let f := setLaneRatio lane [] (form p) in
    let '(nextEnabled, nextPrices, f) :=
      if bool_decide (lane = audioInput) then (put audioOutput false nextEnabled, put audioOutput [] nextPrices, setLaneRatio audioOutput [] f)
      else (nextEnabled, nextPrices, f) in
    mkPanel f (pricingMode p) (promptPrice p) nextPrices nextEnabled (billingExpr p) (requestRuleExpr p).

Definition handleModeChange (nextMode : PricingMode) (p : Panel) : Panel :=
  mkPanel (form p) nextMode (promptPrice p) (lanePrices p) (laneEnabled p)
    (match nextMode with
     | tiered_expr => if truthy (billingExpr p) then billingExpr p else js "tier(" ++ quote_c ++ js "base" ++ quote_c ++ js ", p * 0 + c * 0)"
     | _ => billingExpr p
     end) (requestRuleExpr p).

(** The inputs of the name, which is fixed while editing, and of the fixed price. *)
Definition changeName (value : jsstr) (p : Panel) : Panel := set_form (setName value (form p)) p.
Definition changePrice (value : jsstr) (p : Panel) : Panel := if isNumericDraft value then set_form (setPrice value (form p)) p else p.

(** [setBillingExpr] and [setRequestRuleExpr], which the expression editor calls. *)
Definition changeExprs (expr rules : jsstr) (p : Panel) : Panel :=
  mkPanel (form p) (pricingMode p) (promptPrice p) (lanePrices p) (laneEnabled p) expr rules.

(** ** Checking and submitting *)
Definition mode_is (m : PricingMode) (p : Panel) : bool := bool_decide (mode_text (pricingMode p) = mode_text m).

Definition INPUT_REQUIRED : jsstr := js "Input price is required before saving dependent prices.".
Definition AUDIO_REQUIRED : jsstr := js "Audio output price requires an audio input price.".
Definition CONFLICT : jsstr := js "This model has both fixed-price and token-price settings. Saving the current mode will rewrite the conflicting fields.".

Definition missing_input (p : Panel) : bool :=
  mode_is per_token p && bool_decide (toNumberOrNull (promptPrice p) = None) && existsb (fun lane => laneEnabled p lane && hasValue (lanePrices p lane)) lanes.
Definition missing_audio (p : Panel) : bool := mode_is per_token p && laneEnabled p audioOutput && negb (hasValue (lanePrices p audioInput)).

(** The field and the message of an error, or none. *)
Definition validatePricingValues (p : Panel) : option (jsstr * jsstr) :=
  if missing_input p then Some (js "ratio", INPUT_REQUIRED)
  else if missing_audio p then Some (js "audioRatio", AUDIO_REQUIRED)
  else None.

Definition warnings (editData : option ModelRatioData) (p : Panel) : list jsstr :=
  (match editData with
   | Some d => if truthy (d_price d) && existsb hasValue [d_ratio d; d_completionRatio d; d_cacheRatio d; d_createCacheRatio d; d_imageRatio d; d_audioRatio d; d_audioCompletionRatio d]
               then [CONFLICT] else []
   | None => []
   end) ++ (if missing_input p then [INPUT_REQUIRED] else []) ++ (if missing_audio p then [AUDIO_REQUIRED] else []).

Definition buildSubmitData (p : Panel) : ModelRatioData :=
  let f := form p in
  let '(expr, rules) := match pricingMode p with tiered_expr => (billingExpr p, requestRuleExpr p) | _ => ([], []) end in
  mkData (trim (name f)) (price f) (ratio f) (laneRatio f cache) (laneRatio f createCache) (laneRatio f completion) (laneRatio f image)
    (laneRatio f audioInput) (laneRatio f audioOutput) (mode_text (pricingMode p)) expr rules.

(** The form's schema asks for a name. *)
Definition commitDraft (p : Panel) : option ModelRatioData :=
  if negb (truthy (name (form p))) then None
  else match validatePricingValues p with Some _ => None | None => Some (buildSubmitData p) end.

(** [commitOpenEditor]: whether the page may go on to save, and the texts. *)
Definition commitOpenEditor (editorOpen : bool) (p : Panel) (texts : Fields jsstr) : bool * option (Fields jsstr) :=
  if negb editorOpen then (true, Some texts)
  else match commitDraft p with
       | None => (false, Some texts)
       | Some data => (true, persistPricingData data [d_name data] texts)
       end.

(** ** Preview *)
Record PreviewRow := mkPreview { key : jsstr; label : jsstr; value : jsstr; multiline : bool }.

Section Preview.
Context (t : jsstr -> jsstr).

Definition buildPreviewRows (p : Panel) : list PreviewRow :=
  let empty := t (js "Empty") in
  let lane k title l := mkPreview k (t title) (if laneEnabled p l && truthy (lanePrices p l) then js "$" ++ lanePrices p l else empty) false in
  match pricingMode p with
  | tiered_expr =>
      [mkPreview (js "mode") (js "BillingMode") TIERED false;
       mkPreview (js "expr") (t (js "Expression")) (str_or (combineBillingExpr (billingExpr p) (requestRuleExpr p)) empty) true]
  | per_request => [mkPreview (js "price") (js "ModelPrice") (str_or (price (form p)) empty) false]
  | per_token =>
      [mkPreview (js "inputPrice") (t (js "Input price")) (if truthy (promptPrice p) then js "$" ++ promptPrice p else empty) false;
       lane (js "completion") (js "Completion price") completion;
       lane (js "cache") (js "Cache read price") cache;
       lane (js "createCache") (js "Cache write price") createCache;
       lane (js "image") (js "Image input price") image;
       lane (js "audio") (js "Audio input price") audioInput;
       lane (js "audioCompletion") (js "Audio output price") audioOutput]
  end.
End Preview.

(** ** The form in step with the prices on screen *)
Definition lane_value (p : Panel) (lane : LaneKey) : jsstr :=
  if laneEnabled p lane then deriveLaneRatio lane (lanePrices p lane) (promptPrice p) (lanePrices p) else [].

Definition in_step (p : Panel) : Prop := ratio (form p) = baseRatio (promptPrice p) /\ forall lane, laneRatio (form p) lane = lane_value p lane.

(** The actions of the user; those of the audio output are only offered when the
    audio input has a price, which nothing below needs. *)
Inductive panel_step (p : Panel) : Panel -> Prop :=
| step_prompt v : panel_step p (handlePromptPriceChange v p)
| step_lane lane v : panel_step p (handleLanePriceChange lane v p)
| step_toggle lane checked : panel_step p (handleLaneToggle lane checked p)
| step_mode m : panel_step p (handleModeChange m p)
| step_name v : panel_step p (changeName v p)
| step_price v : panel_step p (changePrice v p)
| step_exprs e r : panel_step p (changeExprs e r p).

Lemma put_same {A} lane (v : A) r : put lane v r lane = v.
Proof. unfold put. by rewrite decide_True. Qed.

Lemma put_other {A} lane lane' (v : A) r : lane' <> lane -> put lane v r lane' = r lane'.
Proof. intros H. unfold put. by rewrite decide_False. Qed.

Lemma sync_ratio pr ps en f : ratio (syncLaneRatios pr ps en f) = baseRatio pr.
Proof. reflexivity. Qed.

Lemma sync_lane pr ps en f lane : laneRatio (syncLaneRatios pr ps en f) lane = if en lane then deriveLaneRatio lane (ps lane) pr ps else [].
Proof.
  unfold syncLaneRatios, lanes. cbn [map lane_key laneConfigs fold_left laneRatio setLaneRatio setRatio]. unfold put.
  destruct lane; repeat (rewrite decide_False by done); rewrite decide_True by done; by destruct (en _).
Qed.

Lemma prompt_in_step v p : isNumericDraft v = true -> in_step (handlePromptPriceChange v p).
Proof. intros Hv. unfold handlePromptPriceChange. rewrite Hv. split; [apply sync_ratio | intros lane; apply sync_lane]. Qed.

(** The ratio of a lane is the one of the prices on screen; a step leaves the lane
    and the prices its ratio depends on. *)
Definition lane_ok (p : Panel) (l : LaneKey) : Prop := laneRatio (form p) l = lane_value p l.

Definition untouched (p q : Panel) (l : LaneKey) : Prop :=
  laneRatio (form q) l = laneRatio (form p) l /\ laneEnabled q l = laneEnabled p l /\
  (laneEnabled p l = true -> lanePrices q l = lanePrices p l /\ promptPrice q = promptPrice p /\
     (l = audioOutput -> lanePrices q audioInput = lanePrices p audioInput)).

Lemma untouched_ok p q l : untouched p q l -> lane_ok p l -> lane_ok q l.
Proof.
  intros (Hr & He & Hp) Hok. unfold lane_ok, lane_value in *. rewrite Hr, He, Hok. destruct (laneEnabled p l) eqn:E; [|done].
  destruct (Hp eq_refl) as (P1 & P2 & P3). rewrite P1, P2. unfold deriveLaneRatio. destruct (toNumberOrNull (lanePrices p l)); [|done].
  destruct l; try done. by rewrite P3.
Qed.

Lemma untouched_trans p q r l : untouched p q l -> untouched q r l -> untouched p r l.
Proof.
  intros (R1 & E1 & P1) (R2 & E2 & P2). split; [congruence|]. split; [congruence|]. intros H.
  destruct (P1 H) as (A1 & A2 & A3). rewrite <- E1 in H. destruct (P2 H) as (B1 & B2 & B3).
  split; [congruence|]. split; [congruence|]. intros Hl. rewrite B3, A3; done.
Qed.

Lemma lane_step_cases lane v p l : lane_ok (handleLanePriceChange lane v p) l \/ untouched p (handleLanePriceChange lane v p) l.
Proof.
  unfold handleLanePriceChange. destruct (isNumericDraft v); cbn [negb]; [|by right]. unfold lane_ok, lane_value, untouched.
  cbn [form laneEnabled lanePrices promptPrice]. set (f := if laneEnabled p lane then _ else _).
  destruct (decide (l = audioOutput /\ lane = audioInput)) as [[-> ->]|Hn].
  - rewrite bool_decide_eq_true_2 by done. cbn [andb]. destruct (laneEnabled p audioOutput); [left; cbn; by rewrite !put_same|].
    right. split; [|done]. unfold f. destruct (laneEnabled p audioInput); [cbn; by rewrite put_other | done].
  - assert (Ef : laneRatio (if bool_decide (lane = audioInput) && laneEnabled p audioOutput
      then setLaneRatio audioOutput (deriveLaneRatio audioOutput (put lane v (lanePrices p) audioOutput) (promptPrice p) (put lane v (lanePrices p))) f
      else f) l = laneRatio f l).
    { destruct (bool_decide_reflect (lane = audioInput)) as [->|]; [|done]. destruct (laneEnabled p audioOutput); [|done].
      cbn. apply put_other. naive_solver. }
    rewrite Ef. destruct (decide (l = lane)) as [->|Hne].
    + unfold f. destruct (laneEnabled p lane); [left; cbn; by rewrite !put_same | by right].
    + right. split; [unfold f; destruct (laneEnabled p lane); [cbn; by rewrite put_other | done]|]. split; [done|]. intros _.
      split; [by apply put_other|]. split; [done|]. intros ->. apply put_other. naive_solver.
Qed.

Lemma toggle_step_cases lane checked p l : lane_ok (handleLaneToggle lane checked p) l \/ untouched p (handleLaneToggle lane checked p) l.
Proof.
  unfold handleLaneToggle. destruct checked.
  - unfold lane_ok, lane_value, untouched. cbn [form laneEnabled lanePrices promptPrice laneRatio setLaneRatio].
    destruct (decide (l = lane)) as [->|Hne]; [left; by rewrite !put_same | right; rewrite !put_other by done; tauto].
  - destruct (bool_decide_reflect (lane = audioInput)) as [->|Hna]; unfold lane_ok, lane_value, untouched; cbn [form laneEnabled lanePrices promptPrice laneRatio setLaneRatio].
    + destruct (decide (l = audioOutput)) as [->|Hno]; [left; by rewrite !put_same|]. rewrite !(put_other audioOutput) by done.
      destruct (decide (l = audioInput)) as [->|Hni]; [left; by rewrite !put_same|]. right. rewrite !put_other by done. tauto.
    + destruct (decide (l = lane)) as [->|Hne]; [left; by rewrite !put_same|]. right. rewrite !put_other by done. split; [done|]. split; [done|].
      intros _. split; [done|]. split; done.
Qed.

Lemma step_cases p q l : panel_step p q -> lane_ok q l \/ untouched p q l.
Proof.
  intros [v|lane v|lane c|m|v|v|e r]; [|apply lane_step_cases | apply toggle_step_cases | by right | by right | | by right].
  - unfold handlePromptPriceChange. destruct (isNumericDraft v); [left; apply sync_lane | by right].
  - unfold changePrice. destruct (isNumericDraft v); by right.
Qed.

Lemma base_cases p q : panel_step p q ->
  ratio (form q) = baseRatio (promptPrice q) \/ ratio (form q) = ratio (form p) /\ promptPrice q = promptPrice p.
Proof.
  intros [v|lane v|lane c|m|v|v|e r]; try (by right).
  - unfold handlePromptPriceChange. destruct (isNumericDraft v); [left; apply sync_ratio | by right].
  - right. unfold handleLanePriceChange. destruct (isNumericDraft v); [|done]. cbn.
    destruct (laneEnabled p lane), (bool_decide (lane = audioInput) && laneEnabled p audioOutput); done.
  - right. unfold handleLaneToggle. destruct c; [done|]. by destruct (bool_decide (lane = audioInput)).
  - right. unfold changePrice. by destruct (isNumericDraft v).
Qed.

Lemma panel_step_in_step p q : in_step p -> panel_step p q -> in_step q.
Proof.
  intros [Hr Hl] Hs. split.
  - destruct (base_cases p q Hs) as [?|[-> ->]]; done.
  - intros l. destruct (step_cases p q l Hs) as [?|Hu]; [done|]. eapply untouched_ok; [exact Hu | apply Hl].
Qed.

Lemma steps_in_step p q : in_step p -> rtc panel_step p q -> in_step q.
Proof. intros H0 H. induction H as [|p q r Hs _ IH]; [done|]. eauto using panel_step_in_step. Qed.

(** The form follows the prices on screen since the panel [p0]: every ratio is
    the one of the prices on screen, or was not touched. *)
Definition follows (p0 p : Panel) : Prop :=
  (ratio (form p) = baseRatio (promptPrice p) \/ ratio (form p) = ratio (form p0) /\ promptPrice p = promptPrice p0) /\
  forall l, lane_ok p l \/ untouched p0 p l.

Lemma steps_follow p0 p : rtc panel_step p0 p -> follows p0 p.
Proof.
  revert p. apply rtc_ind_r; [split; by right|]. intros p q _ Hs [Hr Hl]. split.
  - destruct (base_cases p q Hs) as [?|[E1 E2]]; [by left|]. destruct Hr as [Hr|[Hr Hp]]; [left | right]; by rewrite E1, E2.
  - intros l. destruct (step_cases p q l Hs) as [?|Hu]; [by left|]. destruct (Hl l) as [Hok|H0]; [left | right].
    + by eapply untouched_ok.
    + by eapply untouched_trans.
Qed.

(** C13.  The ratios that will be saved follow the prices on screen.  After any
    sequence of actions on the panel of any model, the base ratio and the ratio
    of every lane are those derived from the prices on screen (from the lane's
    price and the input price, or the audio input price for the audio output; none
    for a lane that is switched off), or neither they nor the prices they depend
    on have been touched, so that the stored ratio is kept.  On the panel of a new
    model, and on any panel once an input price was entered, they all are the
    derived ones. *)
Theorem ratios_in_step data p :
  rtc panel_step (load data) p ->
  follows (load data) p /\ (data = None -> in_step p) /\
  (forall v q, isNumericDraft v = true -> rtc panel_step (handlePromptPriceChange v p) q -> in_step q).
Proof.
  intros H. split; [by apply steps_follow|]. split.
  - intros ->. eapply steps_in_step; [|exact H]. split; [vm_compute; reflexivity | by intros []].
  - intros v q Hv Hq. eapply steps_in_step; [|exact Hq]. by apply prompt_in_step.
Qed.

(** A model stored with an input ratio of zero is opened with a ratio that its
    prices do not give: untouched, it is saved as it was. *)
Example opened_zero_ratio :
  let p := load (Some (mkData (js "m") [] (js "0") [] [] (js "4") [] [] [] PER_TOKEN [] [])) in
  lane_value p completion = [] /\ laneRatio (form p) completion = js "4" /\ saved_cells (buildSubmitData p) Completion = Some (JNum (num_of_Z 4)).
Proof. vm_compute. auto. Qed.

(** ** What is saved *)
Lemma commitDraft_Some p d : commitDraft p = Some d -> d = buildSubmitData p /\ validatePricingValues p = None.
Proof. unfold commitDraft. destruct (negb _); [done|]. destruct (validatePricingValues p) eqn:E; [done|]. by intros [= <-]. Qed.

Definition lane_field (lane : LaneKey) : Field :=
  match lane with completion => Completion | cache => Cache | createCache => CreateCache | image => Image | audioInput => Audio | audioOutput => AudioCompletion end.

Lemma submitted p :
  let d := buildSubmitData p in
  d_price d = price (form p) /\ d_ratio d = ratio (form p) /\ d_billingMode d = mode_text (pricingMode p) /\ forall lane, data_ratio (lane_field lane) d = laneRatio (form p) lane.
Proof. unfold buildSubmitData. destruct (pricingMode p); repeat split; by intros []. Qed.

Lemma saved_lane d lane :
  saved_cells d (lane_field lane) = if data_tiered d || negb (truthy (d_price d)) then JNum <$> stored (data_ratio (lane_field lane) d) else None.
Proof. by destruct lane. Qed.

(** Choosing the per-token mode does not save token prices while the form holds
    a fixed price: the data is submitted with that mode, but what is stored for
    the model is the fixed price alone, so the saved row is per-request and the
    ratios entered are dropped. *)
Theorem token_mode_not_saved p d n :
  pricingMode p = per_token -> stored (price (form p)) = Some n -> truthy (num_to_string n) = true -> commitDraft p = Some d ->
  d_billingMode d = PER_TOKEN /\ (forall f, f <> Price -> saved_cells d f = None) /\
  exists row, rowOf (d_name d) (saved_cells d) = Ret row /\ s_billingMode row = PER_REQUEST /\ s_ratio row = [].
Proof.
  intros Hm Hp Ht [-> _]%commitDraft_Some. destruct (submitted p) as (Ep & _ & Em & _). rewrite Hm in Em.
  assert (Tp : truthy (price (form p)) = true) by (unfold stored in Hp; by destruct (truthy _)).
  assert (Nt : data_tiered (buildSubmitData p) = false) by (unfold data_tiered; rewrite Em; by apply bool_decide_eq_false_2).
  assert (Hc : forall f, f <> Price -> saved_cells (buildSubmitData p) f = None) by (intros f Hf; unfold saved_cells; rewrite Nt, Ep, Tp; by destruct f).
  assert (Hpr : saved_cells (buildSubmitData p) Price = Some (JNum n)) by (unfold saved_cells; by rewrite Nt, Ep, Tp, Hp).
  split; [done|]. split; [done|]. unfold rowOf, is_tiered. rewrite Hpr, (Hc Mode), (Hc Ratio) by done. eexists. split; [reflexivity|].
  cbn [s_billingMode s_ratio valueText json_to_string]. by rewrite Ht.
Qed.

(** With an input price of zero the prices of the other lanes are lost in
    silence: the panel accepts the draft, but every lane's ratio is a quotient by
    zero, left empty, and nothing is stored for it (the audio output, which
    depends on the audio input alone, apart). *)
Theorem zero_input_drops_lanes p z :
  in_step p -> pricingMode p = per_token -> name (form p) <> [] -> missing_audio p = false -> toNumberOrNull (promptPrice p) = Some z -> is_zero z = true ->
  commitDraft p = Some (buildSubmitData p) /\ (forall lane, lane <> audioOutput -> saved_cells (buildSubmitData p) (lane_field lane) = None).
Proof.
  intros [_ Hl] Hm Hn Ha Hz Z0. split.
  - unfold commitDraft, validatePricingValues, missing_input. rewrite Ha, Hz, (bool_decide_eq_false_2 (Some z = None)), andb_false_r by done. by destruct (name (form p)).
  - intros lane Hno. rewrite saved_lane. destruct (submitted p) as (_ & _ & _ & ->). rewrite Hl. unfold lane_value, deriveLaneRatio.
    replace (match lane with audioOutput => lanePrices p audioInput | _ => promptPrice p end) with (promptPrice p) by (by destruct lane).
    rewrite Hz, Z0. destruct (laneEnabled p lane), (toNumberOrNull (lanePrices p lane)); by case_match.
Qed.

(** ** Saving and opening again *)
(** The panel on the row of a model, in the draft and as saved. *)
Definition open_row (row : exc Snapshot) : exc Panel :=
  exc_bind row (fun row => Ret (load (Some (handleEdit (mkRow row (Some row) (Some row) false false false))))).
Definition reopen (d : ModelRatioData) : exc Panel := open_row (rowOf (d_name d) (saved_cells d)).

(** A text that is stored and shown again as it is: empty, or the canonical text
    of a number. *)
Definition canonical (s : jsstr) : bool := bool_decide (valueText (JNum <$> stored s) = s).
Definition form_canonical (f : Form) : bool := canonical (price f) && canonical (ratio f) && forallb (fun lane => canonical (laneRatio f lane)) lanes.

(** The panel [q] shows the form of [p]. *)
Record shows (q p : Panel) : Prop := {
  sh_name : name (form q) = trim (name (form p)); sh_price : price (form q) = price (form p); sh_ratio : ratio (form q) = ratio (form p);
  sh_lanes : forall lane, laneRatio (form q) lane = laneRatio (form p) lane;
  sh_enabled : forall lane, laneEnabled q lane = hasValue (laneRatio (form p) lane) }.

Lemma canonical_shown s : canonical s = true -> valueText (JNum <$> stored s) = s.
Proof. by intros H%bool_decide_eq_true. Qed.

Lemma form_canonical_lane f lane : form_canonical f = true -> canonical (laneRatio f lane) = true.
Proof. unfold form_canonical. rewrite !andb_true_iff, forallb_forall. intros [_ H]. apply H. destruct lane; cbn; tauto. Qed.

Lemma form_canonical_price f : form_canonical f = true -> canonical (price f) = true /\ canonical (ratio f) = true.
Proof. unfold form_canonical. rewrite !andb_true_iff. tauto. Qed.

Section Reopen.
Context (p : Panel) (d : ModelRatioData).
Hypotheses (Hc : commitDraft p = Some d) (Hf : form_canonical (form p) = true).

Lemma reopen_cells (f : Field) (s : jsstr) (b : bool) : canonical s = true -> saved_cells d f = (if b then JNum <$> stored s else None) -> valueText (saved_cells d f) = if b then s else [].
Proof. intros Hs ->. destruct b; [by apply canonical_shown | done]. Qed.

(** The texts shown for the saved model. *)
Lemma reopen_texts :
  let tok := data_tiered d || negb (truthy (price (form p))) in
  valueText (saved_cells d Price) = (if data_tiered d || truthy (price (form p)) then price (form p) else []) /\
  valueText (saved_cells d Ratio) = (if tok then ratio (form p) else []) /\
  forall lane, valueText (saved_cells d (lane_field lane)) = if tok then laneRatio (form p) lane else [].
Proof.
  destruct (commitDraft_Some _ _ Hc) as [Hd _]. destruct (submitted p) as (Ep & Er & _ & El). rewrite <- Hd in *.
  destruct (form_canonical_price _ Hf) as [Cp Cr]. cbn zeta. rewrite <- Ep.
  split; [apply reopen_cells; [by rewrite Ep | done]|]. split; [rewrite <- Er; apply reopen_cells; [by rewrite Er | done]|].
  intros lane. rewrite <- El. apply reopen_cells; [rewrite El; by apply form_canonical_lane | by destruct lane].
Qed.

(** The texts decide what the panel shows. *)
Lemma reopen_shows m e r :
  d_name d = trim (name (form p)) ->
  valueText (saved_cells d Price) = price (form p) -> valueText (saved_cells d Ratio) = ratio (form p) ->
  (forall lane, valueText (saved_cells d (lane_field lane)) = laneRatio (form p) lane) ->
  (if is_tiered (saved_cells d) then splitBillingExprAndRequestRules (storedExpr (saved_cells d)) = Ret (e, r) /\ m = tiered_expr
   else m = (if truthy (price (form p)) then per_request else per_token) /\ e = [] /\ r = []) ->
  exists q, reopen d = Ret q /\ shows q p /\ pricingMode q = m /\ billingExpr q = e /\ requestRuleExpr q = r.
Proof.
  intros Hn Hp Hr Hl Hm. pose proof (Hl completion); pose proof (Hl cache); pose proof (Hl createCache); pose proof (Hl image); pose proof (Hl audioInput); pose proof (Hl audioOutput).
  cbn [lane_field] in *. unfold reopen, open_row, rowOf. rewrite Hp, Hr, H, H0, H1, H2, H3, H4.
  destruct (is_tiered (saved_cells d)).
  - destruct Hm as [-> ->]. cbn [exc_bind]. eexists. split; [reflexivity|]. split; [|done]. split; try done; by intros [].
  - destruct Hm as (-> & -> & ->). cbn [exc_bind]. eexists. split; [reflexivity|]. split; [split; try done; by intros []|].
    split; [|done]. cbn [load handleEdit r_draft s_billingMode s_price d_billingMode d_price pricingMode].
    by destruct (truthy (price (form p))).
Qed.
End Reopen.

(** An expression that is separated from its rules again: without rules it is one
    factor; with rules, they are of the kinds that are read back and the base is
    balanced, not one pair of parentheses and not itself a rule. *)
Definition expr_readable (base rules : jsstr) : Prop :=
  base <> [] /\ trimmed base = true /\
  ((rules = [] /\ (length (splitTopLevelMultiply base) <= 1)%nat) \/
   (walk base 0 = Some 0 /\ hasFullOuterParens base = false /\ tryParseRuleGroupFactor (parens base) = Ret None /\
    exists gs, gs <> [] /\ Forall group_ok gs /\ rules = buildRequestRuleExpr gs)).

Lemma split_readable base rules : expr_readable base rules ->
  truthy (combineBillingExpr base rules) = true /\ splitBillingExprAndRequestRules (combineBillingExpr base rules) = Ret (base, rules).
Proof.
  intros (Hb & Ht & H). assert (Tb : truthy (trim base) = true) by (rewrite trim_trimmed by done; by destruct base).
  destruct H as [[-> Hl]|(Hw & Ho & Hp & gs & Hg & Hok & ->)].
  - assert (E : combineBillingExpr base [] = base) by (unfold combineBillingExpr; rewrite Tb; cbn; by rewrite trim_trimmed).
    rewrite E. rewrite trim_trimmed in Tb by done. split; [done|]. unfold splitBillingExprAndRequestRules. rewrite trim_trimmed, Tb by done.
    cbn [negb]. by rewrite (proj2 (Nat.leb_le _ _) Hl).
  - split; [|by apply split_combined]. unfold combineBillingExpr. rewrite Tb. by destruct (truthy (trim (buildRequestRuleExpr gs))).
Qed.

(** What the panel shows of the model [p] saved: in expression mode everything;
    otherwise the fixed price decides, and not the mode chosen. *)
Definition reopened (p : Panel) (again : exc Panel) : Prop :=
  match pricingMode p with
  | tiered_expr =>
      expr_readable (billingExpr p) (requestRuleExpr p) ->
      exists q, again = Ret q /\ shows q p /\ pricingMode q = tiered_expr /\ billingExpr q = billingExpr p /\ requestRuleExpr q = requestRuleExpr p
  | _ =>
      if truthy (price (form p))
      then exists q, again = Ret q /\ pricingMode q = per_request /\ name (form q) = trim (name (form p)) /\ price (form q) = price (form p) /\
             ratio (form q) = [] /\ forall lane, laneRatio (form q) lane = []
      else exists q, again = Ret q /\ pricingMode q = per_token /\ shows q p
  end.

Lemma reopen_plain p d :
  commitDraft p = Some d -> form_canonical (form p) = true -> data_tiered d = false -> d_name d = trim (name (form p)) ->
  if truthy (price (form p))
  then exists q, reopen d = Ret q /\ pricingMode q = per_request /\ name (form q) = trim (name (form p)) /\ price (form q) = price (form p) /\
         ratio (form q) = [] /\ forall lane, laneRatio (form q) lane = []
  else exists q, reopen d = Ret q /\ pricingMode q = per_token /\ shows q p.
Proof.
  intros Hc Hf Nt Hn. destruct (reopen_texts p d Hc Hf) as (Tp & Tr & Tl). rewrite Nt in *. cbn [orb] in *. destruct (truthy (price (form p))) eqn:Ht.
  - unfold reopen, open_row, rowOf, is_tiered. replace (saved_cells d Mode) with (@None json) by (unfold saved_cells; by rewrite Nt).
    pose proof (Tl completion) as L1; pose proof (Tl cache) as L2; pose proof (Tl createCache) as L3; pose proof (Tl image) as L4;
      pose proof (Tl audioInput) as L5; pose proof (Tl audioOutput) as L6. cbn [lane_field negb] in *.
    cbn [exc_bind]. rewrite Tp, Tr, L1, L2, L3, L4, L5, L6. eexists. split; [reflexivity|].
    cbn [load handleEdit r_draft s_billingMode s_price d_billingMode d_price pricingMode form price ratio d_ratio s_ratio]. rewrite Ht.
    split_and!; try done. by intros [].
  - destruct (reopen_shows p d per_token [] []) as (q & Hq & Sq & Mq & _); eauto.
    + rewrite Tp. by destruct (price (form p)).
    + unfold is_tiered, saved_cells. by rewrite Nt, Ht.
Qed.

Lemma reopen_saved p d : commitDraft p = Some d -> form_canonical (form p) = true -> reopened p (reopen d).
Proof.
  intros Hc Hf. destruct (commitDraft_Some _ _ Hc) as [Hd _]. destruct (submitted p) as (_ & _ & Em & _). rewrite <- Hd in Em.
  assert (Hn : d_name d = trim (name (form p))) by (rewrite Hd; unfold buildSubmitData; by destruct (pricingMode p)).
  unfold reopened. destruct (pricingMode p) eqn:Hm;
    [apply reopen_plain; [done..| |done]; unfold data_tiered; rewrite Em; by apply bool_decide_eq_false_2 .. |].
  intros He. assert (Ec : combined d = combineBillingExpr (billingExpr p) (requestRuleExpr p)) by (rewrite Hd; unfold combined, buildSubmitData; by rewrite Hm).
  destruct (split_readable _ _ He) as [Hb Hs]. rewrite <- Ec in Hb, Hs.
  assert (Nt : data_tiered d = true) by (unfold data_tiered; rewrite Em; by apply bool_decide_eq_true_2).
  destruct (reopen_texts p d Hc Hf) as (Tp & Tr & Tl). rewrite Nt in *. cbn [orb] in *.
  eapply reopen_shows; eauto. unfold is_tiered, storedExpr, saved_cells. rewrite Nt, Hb. cbn [andb]. rewrite bool_decide_eq_true_2 by done. done.
Qed.

(** C35.  Saving the open panel into the ten texts, reading them and opening the
    model from its row, when the texts of the form are canonical numbers or empty.
    In expression mode the panel shows the same form, expression and request rules,
    if the expression is one that is separated from its rules again.  Otherwise the
    fixed price decides, whichever of the two modes was chosen: without one the
    panel shows the same name, base ratio and lanes in per-token mode; with one it
    shows that price alone in per-request mode, the ratios being dropped. *)
Theorem save_reopen p d texts maps :
  commitDraft p = Some d -> form_canonical (form p) = true ->
  texts_units texts -> readMaps texts = Some maps -> nums_ok maps -> data_ok d = true -> forallb code_unit (d_name d) = true ->
  exists texts' maps', commitOpenEditor true p texts = (true, Some texts') /\ readMaps texts' = Some maps' /\
    reopened p (open_row (snapshotRow maps' (d_name d))).
Proof.
  intros Hc Hf Hu Hr Hn Hd Hun. pose proof (readMaps_ok _ _ Hu Hr Hn) as Hok. set (maps' := persist_maps d [d_name d] maps).
  exists (writeMaps maps'), maps'. split; [unfold commitOpenEditor, persistPricingData; by rewrite Hc, Hr|].
  split; [apply readMaps_written, ok_persist_all; auto|].
  assert (E : snapshotRow maps' (d_name d) = rowOf (d_name d) (saved_cells d)).
  { apply rowOf_ext. intros f. unfold maps'. rewrite cells_of_persist_all by (by apply maps_ok_keys). rewrite decide_True by (by apply list_elem_of_here). done. }
  rewrite E. exact (reopen_saved p d Hc Hf).
Qed.

(** ** Instances *)
Definition opened_model : ModelRatioData := mkData (js "gpt-4o") [] (js "1.25") [] [] (js "4") [] [] [] PER_TOKEN [] [].
Definition new_panel : Panel := changeName (js "gpt-4o") (load None).
Definition priced_panel : Panel := handleLanePriceChange completion (js "10") (handleLaneToggle completion true (handlePromptPriceChange (js "2.5") new_panel)).

Example priced_form : (ratio (form priced_panel), laneRatio (form priced_panel) completion, commitDraft priced_panel) = (js "1.25", js "4", Some opened_model).
Proof. vm_compute. reflexivity. Qed.

Lemma ratios_in_step_witness :
  in_step priced_panel /\ follows (load (Some opened_model)) (handleLanePriceChange completion (js "10") (load (Some opened_model))).
Proof.
  split.
  - apply (ratios_in_step None priced_panel); [|reflexivity].
    eapply rtc_l; [exact (step_name _ (js "gpt-4o"))|]. eapply rtc_l; [exact (step_prompt _ (js "2.5"))|].
    eapply rtc_l; [exact (step_toggle _ completion true)|]. eapply rtc_l; [exact (step_lane _ completion (js "10"))|]. apply rtc_refl.
  - apply (ratios_in_step (Some opened_model)). eapply rtc_l; [exact (step_lane _ completion (js "10"))|]. apply rtc_refl.
Defined.

(** A model with a fixed price, moved to token prices. *)
Definition fixed_model : ModelRatioData := mkData (js "dall-e") (js "0.04") [] [] [] [] [] [] [] PER_REQUEST [] [].
Definition moved_panel : Panel := handlePromptPriceChange (js "3") (handleModeChange per_token (load (Some fixed_model))).

Lemma token_mode_not_saved_witness :
  d_billingMode (buildSubmitData moved_panel) = PER_TOKEN /\ (forall f, f <> Price -> saved_cells (buildSubmitData moved_panel) f = None) /\
  exists row, rowOf (d_name (buildSubmitData moved_panel)) (saved_cells (buildSubmitData moved_panel)) = Ret row /\ s_billingMode row = PER_REQUEST /\ s_ratio row = [].
Proof. apply (token_mode_not_saved moved_panel _ (num_of_string (js "0.04"))); vm_compute; reflexivity. Defined.

Definition free_input : Panel := handleLanePriceChange completion (js "10") (handleLaneToggle completion true (handlePromptPriceChange (js "0") new_panel)).

Lemma zero_input_drops_lanes_witness :
  commitDraft free_input = Some (buildSubmitData free_input) /\ (forall lane, lane <> audioOutput -> saved_cells (buildSubmitData free_input) (lane_field lane) = None).
Proof.
  apply (zero_input_drops_lanes free_input num_zero); [|vm_compute; reflexivity | vm_compute; discriminate | vm_compute; reflexivity..].
  apply (steps_in_step (handlePromptPriceChange (js "0") new_panel)); [apply prompt_in_step; vm_compute; reflexivity|].
  eapply rtc_l; [exact (step_toggle _ completion true)|]. eapply rtc_l; [exact (step_lane _ completion (js "10"))|]. apply rtc_refl.
Defined.

Lemma opened_draft : commitDraft priced_panel = Some opened_model.
Proof. vm_compute. reflexivity. Qed.

(** A model priced by an expression with a rule. *)
Definition expr_panel : Panel := changeExprs base_price (buildRequestRuleExpr night_groups) (handleModeChange tiered_expr new_panel).

Lemma expr_panel_readable : expr_readable (billingExpr expr_panel) (requestRuleExpr expr_panel).
Proof.
  split; [discriminate|]. split; [vm_compute; reflexivity|]. right. split; [vm_compute; reflexivity|]. split; [vm_compute; reflexivity|].
  split; [vm_compute; reflexivity|]. exists night_groups. split; [discriminate|]. split; [exact night_groups_ok | reflexivity].
Qed.

Lemma save_reopen_witness :
  (exists texts' maps', commitOpenEditor true priced_panel sample_texts = (true, Some texts') /\ readMaps texts' = Some maps' /\
    exists q, open_row (snapshotRow maps' (d_name opened_model)) = Ret q /\ pricingMode q = per_token /\ shows q priced_panel) /\
  (exists texts' maps' q, commitOpenEditor true expr_panel sample_texts = (true, Some texts') /\ readMaps texts' = Some maps' /\
    open_row (snapshotRow maps' (d_name (buildSubmitData expr_panel))) = Ret q /\ requestRuleExpr q = buildRequestRuleExpr night_groups).
Proof.
  split.
  - apply (save_reopen priced_panel opened_model sample_texts sample_maps opened_draft);
      [vm_compute; reflexivity | intros []; vm_compute; reflexivity | vm_compute; reflexivity | intros []; vm_compute; reflexivity | vm_compute; reflexivity..].
  - destruct (save_reopen expr_panel (buildSubmitData expr_panel) sample_texts sample_maps) as (texts' & maps' & H1 & H2 & H3);
      [vm_compute; reflexivity | vm_compute; reflexivity | intros []; vm_compute; reflexivity | vm_compute; reflexivity | intros []; vm_compute; reflexivity | vm_compute; reflexivity..|].
    destruct (H3 expr_panel_readable) as (q & H4 & _ & _ & _ & H5). exists texts', maps', q. split; [exact H1|]. split; [exact H2|]. split; [exact H4 | exact H5].
Defined.
End PricingPanel.
