(* ===== verification/Flow.v ===== *)
(** * Usage flow of the dashboard ([src/web/default/src/features/dashboard/lib/flow.ts])

    The dashboard draws the usage of the gateway as a layered flow: every row of
    usage data is a path through the visible stages (user, node, token, group,
    model, channel) that carries a quota, a number of tokens and a number of
    requests.  The module models the whole aggregation: the stages of a role, the
    filters, the limit on the nodes of a stage, nodes and links with their values,
    masking, highlighting, shares and colours, and the options of the filters.

    The metrics of a row are the server's integers, and their sums are integers
    (exact in JavaScript below [2^53]); shares and opacities are doubles.
    [localeCompare], the formatter of [Intl] and the colour scheme of the chart
    library are parameters. *)
From S2P Require Import Prelude JsString JsNumber.
Local Open Scope Z_scope.

Module Flow.
#[local] Arguments js : simpl never.

(** ** Data ([types.ts]) *)
Inductive FlowNodeKind := kuser | knode | ktoken | kgroup | kmodel | kchannel.
#[global] Instance FlowNodeKind_eq_dec : EqDecision FlowNodeKind.
Proof. solve_decision. Defined.

Inductive FlowMetric := mquota | mtokens | mrequests.
Inductive FlowOverflowMode := aggregate | hide.
Inductive FlowRole := ruser | radmin | rroot.

Record FlowQuotaDataItem := mkRow {
  user_id : option Z; username : option jsstr; node_name : option jsstr; use_group : option jsstr;
  token_id : option Z; token_name : option jsstr; channel_id : option Z; channel_name : option jsstr;
  model_name : option jsstr; token_used : option Z; count : option Z; quota : option Z }.

Record FlowNodeFilter := mkFilter { fkind : FlowNodeKind; fid : jsstr }.
Record FlowLinkSelection := mkSel { sel_source : jsstr; sel_target : jsstr }.

Record FlowMetrics := mkMetrics { m_quota : Z; m_tokens : Z; m_requests : Z }.
Record FlowPathNode := mkNode { id : jsstr; label : jsstr; kind : FlowNodeKind }.
Record PreparedFlowPath := mkPath { path : list FlowPathNode; metrics : FlowMetrics }.
Record FlowNodeRank := mkRank { rnode : FlowPathNode; rvalue : Z }.
Record FlowHighlightSets := mkHigh { hnodes : list jsstr; hlinks : list jsstr }.

Record DashboardFlowNode := mkFlowNode {
  n_id : jsstr; n_label : jsstr; n_kind : FlowNodeKind; n_value : Z; n_requests : Z; n_quota : Z; n_tokens : Z;
  n_color : jsstr; n_colorKey : jsstr; n_highlighted : option bool; n_dimmed : option bool }.

Record DashboardFlowLink := mkFlowLink {
  source : jsstr; target : jsstr; l_value : Z; l_requests : Z; l_quota : Z; l_tokens : Z;
  sourceLabel : jsstr; targetLabel : jsstr; l_color : jsstr; linkColor : jsstr; linkAlpha : num; hoverColor : jsstr;
  l_colorKey : jsstr; share : num; l_highlighted : option bool; l_dimmed : option bool }.

Record DashboardFlowGraph := mkGraph { nodes : list DashboardFlowNode; links : list DashboardFlowLink }.
Record FlowSummary := mkSummary { s_quota : Z; s_tokens : Z; s_requests : Z }.

Record FlowUserFilterOption := mkUserOption { uo_value : jsstr; uo_label : jsstr; uo_valueLabel : jsstr; uo_valueRaw : Z; uo_color : jsstr }.
Record FlowNodeFilterOption := mkNodeOption {
  no_kind : FlowNodeKind; no_value : jsstr; no_label : jsstr; no_valueLabel : jsstr; no_valueRaw : Z; no_color : jsstr }.

(** The context of path labels, and the options of the graph and of the page. *)
Abbreviation FlowPathContext := (option (Z -> jsstr)) (only parsing).
Record FlowGraphOptions := mkGraphOptions {
  topNodeLimit : option num; overflowMode : option FlowOverflowMode; otherNodeLabel : option (FlowNodeKind -> jsstr);
  activeNode : option FlowNodeFilter; activeLink : option FlowLinkSelection; maskSensitive : bool }.
Record FlowBuildOptions := mkBuildOptions {
  role : option FlowRole; selectedUsers : option (list jsstr); selectedNodes : option (list FlowNodeFilter);
  colorPalette_ : option (list jsstr); visibleStages : option (list FlowNodeKind); deletedTokenLabel_ : option (Z -> jsstr);
  graphOptions : FlowGraphOptions }.
Record FlowFilterOptions := mkFilterOptions { fo_users : list FlowUserFilterOption; fo_nodes : list FlowNodeFilterOption }.
Record ProcessedFlowData := mkProcessed { summary : FlowSummary; flow : DashboardFlowGraph; filterOptions : FlowFilterOptions }.

(** ** Constants *)
Definition EMPTY_FLOW_PATH_CONTEXT : FlowPathContext := None.
Definition DEFAULT_FLOW_ROLE : FlowRole := ruser.
Definition DEFAULT_FLOW_OVERFLOW_MODE : FlowOverflowMode := aggregate.
Definition DEFAULT_FLOW_CHART_COLOR : jsstr := js "#1664FF".

Definition kind_name (k : FlowNodeKind) : jsstr :=
  match k with
  | kuser => js "user" | knode => js "node" | ktoken => js "token"
  | kgroup => js "group" | kmodel => js "model" | kchannel => js "channel"
  end.

Definition OTHER_FLOW_NODE_IDS (k : FlowNodeKind) : jsstr :=
  match k with
  | kuser => js "user:__other__" | knode => js "node:__other__" | ktoken => js "token:__other__"
  | kgroup => js "group:__other__" | kmodel => js "model:__other__" | kchannel => js "channel:__other__"
  end.

Definition DEFAULT_OTHER_FLOW_NODE_LABELS (k : FlowNodeKind) : jsstr :=
  match k with
  | kuser => js "Other users" | knode => js "Other nodes" | ktoken => js "Other tokens"
  | kgroup => js "Other groups" | kmodel => js "Other models" | kchannel => js "Other channels"
  end.

Definition FLOW_NODE_KINDS : list FlowNodeKind := [kuser; knode; ktoken; kgroup; kmodel; kchannel].
Definition SENSITIVE_FLOW_KINDS : list FlowNodeKind := [kuser; knode; ktoken; kgroup; kchannel].
Definition OTHER_FLOW_NODE_ID_SET : list jsstr := set_of_list (map OTHER_FLOW_NODE_IDS FLOW_NODE_KINDS).

(** ** Rows and paths *)
Definition numberValue (value : option Z) : Z := default 0 value.
(** [s || d] *)
Definition or_str (s : option jsstr) (d : jsstr) : jsstr := match s with Some (c :: t) => c :: t | _ => d end.

Definition rowMetrics (row : FlowQuotaDataItem) : FlowMetrics :=
  mkMetrics (numberValue (quota row)) (numberValue (token_used row)) (numberValue (count row)).

Definition metricValue (ms : FlowMetrics) (metric : FlowMetric) : Z :=
  match metric with mrequests => m_requests ms | mtokens => m_tokens ms | mquota => m_quota ms end.

Definition userNode (row : FlowQuotaDataItem) : FlowPathNode :=
  let userID := numberValue (user_id row) in
  mkNode (if 0 <? userID then js "user:" ++ string_of_Z userID else js "user:" ++ or_str (username row) (js "unknown"))
    (or_str (username row) (if 0 <? userID then js "user-" ++ string_of_Z userID else js "Unknown User")) kuser.

Definition nodeNameNode (row : FlowQuotaDataItem) : FlowPathNode :=
  let nodeName := or_str (node_name row) (js "default-node") in mkNode (js "node:" ++ nodeName) nodeName knode.

Definition deletedTokenLabel (tokenID : Z) (ctx : FlowPathContext) : jsstr :=
  if tokenID <=? 0 then js "Unknown Token"
  else match ctx with Some f => f tokenID | None => js "token-" ++ string_of_Z tokenID end.

Definition tokenNode (row : FlowQuotaDataItem) (ctx : FlowPathContext) : FlowPathNode :=
  let tokenID := numberValue (token_id row) in
  mkNode (if 0 <? tokenID then js "token:" ++ string_of_Z tokenID else js "token:" ++ or_str (token_name row) (js "unknown"))
    (or_str (token_name row) (deletedTokenLabel tokenID ctx)) ktoken.

Definition groupNode (row : FlowQuotaDataItem) : FlowPathNode :=
  let useGroup := or_str (use_group row) (js "unknown") in mkNode (js "group:" ++ useGroup) useGroup kgroup.

Definition modelNode (row : FlowQuotaDataItem) : FlowPathNode :=
  mkNode (js "model:" ++ or_str (model_name row) (js "unknown")) (or_str (model_name row) (js "Unknown Model")) kmodel.

Definition channelNode (row : FlowQuotaDataItem) : FlowPathNode :=
  let channelID := numberValue (channel_id row) in
  mkNode (if 0 <? channelID then js "channel:" ++ string_of_Z channelID else js "channel:" ++ or_str (channel_name row) (js "unknown"))
    (or_str (channel_name row) (if 0 <? channelID then js "channel-" ++ string_of_Z channelID else js "Unknown")) kchannel.

Definition NODE_BUILDERS (k : FlowNodeKind) (row : FlowQuotaDataItem) (ctx : FlowPathContext) : FlowPathNode :=
  match k with
  | kuser => userNode row | knode => nodeNameNode row | ktoken => tokenNode row ctx
  | kgroup => groupNode row | kmodel => modelNode row | kchannel => channelNode row
  end.

Definition ROLE_FLOW_STAGES (r : FlowRole) : list FlowNodeKind :=
  match r with
  | rroot => [kuser; knode; ktoken; kgroup; kmodel; kchannel]
  | radmin => [kuser; kgroup; kmodel; kchannel]
  | ruser => [ktoken; kgroup; kmodel]
  end.

Definition MIN_FLOW_STAGES : nat := 2.
Definition getFlowStages (r : FlowRole) : list FlowNodeKind := ROLE_FLOW_STAGES r.

Definition resolveVisibleStages (r : FlowRole) (visible : option (list FlowNodeKind)) : list FlowNodeKind :=
  let stages := getFlowStages r in
  match visible with
  | None => stages
  | Some v =>
      let filtered := List.filter (fun stage => set_has stage (set_of_list v)) stages in
      if (MIN_FLOW_STAGES <=? length filtered)%nat then filtered else stages
  end.

Definition flowPathForStages (row : FlowQuotaDataItem) (stages : list FlowNodeKind) (ctx : FlowPathContext) : list FlowPathNode :=
  map (fun stage => NODE_BUILDERS stage row ctx) stages.

(** ** Filters *)
Definition filterRows (rows : list FlowQuotaDataItem) (selected : option (list jsstr)) : list FlowQuotaDataItem :=
  let selectedUsers := set_of_list (default [] selected) in
  match selectedUsers with [] => rows | _ => List.filter (fun row => set_has (id (userNode row)) selectedUsers) rows end.

Definition NUL : Z := 0.
Definition nodeFilterKey (f : FlowNodeFilter) : jsstr := kind_name (fkind f) ++ [NUL] ++ fid f.

(** The table of the ids added per kind, as both loops below build it. *)
Definition addToSet (k : FlowNodeKind) (i : jsstr) (m : list (FlowNodeKind * list jsstr)) : list (FlowNodeKind * list jsstr) :=
  map_set k (set_add i (default [] (map_get k m))) m.

Definition normalizeSelectedNodeFilters (selected : option (list FlowNodeFilter)) (stages : list FlowNodeKind)
    : list (FlowNodeKind * list jsstr) :=
  let visibleKinds := set_of_list stages in
  fold_left (fun filters f => if negb (set_has (fkind f) visibleKinds) then filters else addToSet (fkind f) (fid f) filters)
    (default [] selected) [].

Definition pathMatchesNodeFilters (p : list FlowPathNode) (filters : list (FlowNodeKind * list jsstr)) : bool :=
  match filters with
  | [] => true
  | _ =>
      let pathNodesByKind := fold_left (fun m n => addToSet (kind n) (id n) m) p [] in
      forallb (fun f => match map_get f.1 pathNodesByKind with
                        | None => false
                        | Some pathIds => existsb (fun i => set_has i pathIds) f.2
                        end) filters
  end.

Definition filterRowsByNodes (rows : list FlowQuotaDataItem) (selected : option (list FlowNodeFilter))
    (stages : list FlowNodeKind) (ctx : FlowPathContext) : list FlowQuotaDataItem :=
  let filters := normalizeSelectedNodeFilters selected stages in
  match filters with
  | [] => rows
  | _ => List.filter (fun row => pathMatchesNodeFilters (flowPathForStages row stages ctx) filters) rows
  end.

Definition selectedNodeFiltersExceptKind (selected : option (list FlowNodeFilter)) (k : FlowNodeKind) : option (list FlowNodeFilter) :=
  match List.filter (fun f => negb (bool_decide (fkind f = k))) (default [] selected) with
  | [] => None
  | filtered => Some filtered
  end.

(** ** Nodes and links *)
Definition addMetrics (ms : FlowMetrics) (metric : FlowMetric) (n : DashboardFlowNode) : DashboardFlowNode :=
  mkFlowNode (n_id n) (n_label n) (n_kind n) (n_value n + metricValue ms metric) (n_requests n + m_requests ms)
    (n_quota n + m_quota ms) (n_tokens n + m_tokens ms) (n_color n) (n_colorKey n) (n_highlighted n) (n_dimmed n).

Definition newNode (p : FlowPathNode) (color colorKey : jsstr) : DashboardFlowNode :=
  mkFlowNode (id p) (label p) (kind p) 0 0 0 0 color colorKey None None.

Definition addNode (m : list (jsstr * DashboardFlowNode)) (pathNode : FlowPathNode) (ms : FlowMetrics) (metric : FlowMetric)
    (color colorKey : jsstr) : list (jsstr * DashboardFlowNode) :=
  let previous := default (newNode pathNode color colorKey) (map_get (id pathNode) m) in
  map_set (id pathNode) (addMetrics ms metric previous) m.

Definition pathLinkKey (s t : FlowPathNode) : jsstr := id s ++ [NUL] ++ id t.
Definition linkStableKey (l : DashboardFlowLink) : jsstr := source l ++ [NUL] ++ target l.

Definition newLink (s t : FlowPathNode) (color colorKey : jsstr) : DashboardFlowLink :=
  mkFlowLink (id s) (id t) 0 0 0 0 (label s) (label t) color color (num_of_Z 1) color colorKey num_zero None None.

Definition addLinkMetrics (ms : FlowMetrics) (metric : FlowMetric) (l : DashboardFlowLink) : DashboardFlowLink :=
  mkFlowLink (source l) (target l) (l_value l + metricValue ms metric) (l_requests l + m_requests ms)
    (l_quota l + m_quota ms) (l_tokens l + m_tokens ms) (sourceLabel l) (targetLabel l) (l_color l) (linkColor l)
    (linkAlpha l) (hoverColor l) (l_colorKey l) (share l) (l_highlighted l) (l_dimmed l).

Definition addLink (m : list (jsstr * DashboardFlowLink)) (s t : FlowPathNode) (ms : FlowMetrics) (metric : FlowMetric)
    (color colorKey : jsstr) : list (jsstr * DashboardFlowLink) :=
  let key := id s ++ [NUL] ++ id t in
  let previous := default (newLink s t color colorKey) (map_get key m) in
  map_set key (addLinkMetrics ms metric previous) m.

(** The consecutive pairs of a path. *)
Definition pairs {A} (p : list A) : list (A * A) := zip p (tail p).

(** ** Colours *)
Record DataScheme := mkScheme { maxDomainLength : option Z; scheme : list (option jsstr) }.

Definition hex_char (c : Z) : bool := digit_value c <? 16.

Definition alphaColor (color : jsstr) (alpha : num) : jsstr * num :=
  let normalized := trim color in
  let hex := match normalized with 35 :: r => r | _ => normalized end in
  if negb ((length hex =? 6)%nat && forallb hex_char hex) then (normalized, alpha)
  else
    let v := fold_left (fun acc c => acc * 16 + digit_value c) hex 0 in
    let red := Z.land (Z.shiftr v 16) 255 in
    let green := Z.land (Z.shiftr v 8) 255 in
    let blue := Z.land v 255 in
    (js "rgba(" ++ string_of_Z red ++ js ", " ++ string_of_Z green ++ js ", " ++ string_of_Z blue ++ js ", "
       ++ num_to_fixed 2 alpha ++ js ")", num_of_Z 1).

(** ** Summary and limits *)
Definition buildSummary (rows : list FlowQuotaDataItem) : FlowSummary :=
  fold_left (fun s row => let ms := rowMetrics row in
    mkSummary (s_quota s + m_quota ms) (s_tokens s + m_tokens ms) (s_requests s + m_requests ms)) rows (mkSummary 0 0 0).

Definition normalizeTopNodeLimit (limit : option num) : option Z :=
  match limit with
  | None => None
  | Some l => if num_is_finite l && (0 <? num_floor l) then Some (num_floor l) else None
  end.

Definition otherFlowNode (k : FlowNodeKind) (labeler : option (FlowNodeKind -> jsstr)) : FlowPathNode :=
  mkNode (OTHER_FLOW_NODE_IDS k) (match labeler with Some f => f k | None => DEFAULT_OTHER_FLOW_NODE_LABELS k end) k.

Definition isTopFlowNode (n : FlowPathNode) (topNodeSets : option (list (FlowNodeKind * list jsstr))) : bool :=
  match topNodeSets with
  | None => true
  | Some sets => match map_get (kind n) sets with None => true | Some topNodes => set_has (id n) topNodes end
  end.

Definition applyTopNodeLimit (p : list FlowPathNode) (topNodeSets : option (list (FlowNodeKind * list jsstr)))
    (mode : FlowOverflowMode) (labeler : option (FlowNodeKind -> jsstr)) : option (list FlowPathNode) :=
  match topNodeSets with
  | None => Some p
  | Some _ =>
      if negb (existsb (fun n => negb (isTopFlowNode n topNodeSets)) p) then Some p
      else match mode with
           | hide => None
           | aggregate => Some (map (fun n => if isTopFlowNode n topNodeSets then n else otherFlowNode (kind n) labeler) p)
           end
  end.

(** ** Highlighting *)
Definition pathContainsFlowNode (p : list FlowPathNode) (f : FlowNodeFilter) : bool :=
  existsb (fun n => bool_decide (kind n = fkind f) && bool_decide (id n = fid f)) p.

Definition pathContainsFlowLink (p : list FlowPathNode) (l : FlowLinkSelection) : bool :=
  existsb (fun st => bool_decide (id st.1 = sel_source l) && bool_decide (id st.2 = sel_target l)) (pairs p).

Definition matchesPath (active : option FlowNodeFilter) (link : option FlowLinkSelection) (p : list FlowPathNode) : bool :=
  match link with
  | Some l => pathContainsFlowLink p l
  | None => match active with Some f => pathContainsFlowNode p f | None => false end
  end.

Definition buildFlowHighlightSets (prepared : list PreparedFlowPath) (active : option FlowNodeFilter)
    (link : option FlowLinkSelection) (stages : list FlowNodeKind) : option FlowHighlightSets :=
  let nodeActive := match active with Some f => bool_decide (fkind f ∈ stages) | None => false end in
  if negb nodeActive && match link with None => true | Some _ => false end then None
  else
    let sets := fold_left (fun h pr =>
      if negb (matchesPath active link (path pr)) then h
      else mkHigh (fold_left (fun s n => set_add (id n) s) (path pr) (hnodes h))
                  (fold_left (fun s st => set_add (pathLinkKey st.1 st.2) s) (pairs (path pr)) (hlinks h)))
      prepared (mkHigh [] []) in
    match hnodes sets with [] => None | _ => Some sets end.

Definition setNodeFlags (h : bool) (n : DashboardFlowNode) : DashboardFlowNode :=
  mkFlowNode (n_id n) (n_label n) (n_kind n) (n_value n) (n_requests n) (n_quota n) (n_tokens n) (n_color n) (n_colorKey n)
    (Some h) (Some (negb h)).
Definition setLinkFlags (h : bool) (l : DashboardFlowLink) : DashboardFlowLink :=
  mkFlowLink (source l) (target l) (l_value l) (l_requests l) (l_quota l) (l_tokens l) (sourceLabel l) (targetLabel l)
    (l_color l) (linkColor l) (linkAlpha l) (hoverColor l) (l_colorKey l) (share l) (Some h) (Some (negb h)).

Definition on_values {K A B} (f : A -> B) (m : list (K * A)) : list (K * B) := map (fun kv => (kv.1, f kv.2)) m.

Definition applyFlowHighlights (ns : list (jsstr * DashboardFlowNode)) (ls : list (jsstr * DashboardFlowLink))
    (sets : option FlowHighlightSets) : list (jsstr * DashboardFlowNode) * list (jsstr * DashboardFlowLink) :=
  match sets with
  | None => (ns, ls)
  | Some h => (on_values (fun n => setNodeFlags (set_has (n_id n) (hnodes h)) n) ns,
               on_values (fun l => setLinkFlags (set_has (linkStableKey l) (hlinks h)) l) ls)
  end.

(** ** Masking *)
Definition FLOW_MASK_TEXT : jsstr := [8226; 8226; 8226; 8226].
Definition maskFlowLabel (l : jsstr) : jsstr := match l with [] => l | _ => FLOW_MASK_TEXT end.

Definition setLabel (t : jsstr) (n : DashboardFlowNode) : DashboardFlowNode :=
  mkFlowNode (n_id n) t (n_kind n) (n_value n) (n_requests n) (n_quota n) (n_tokens n) (n_color n) (n_colorKey n)
    (n_highlighted n) (n_dimmed n).
Definition setLinkLabels (s t : jsstr) (l : DashboardFlowLink) : DashboardFlowLink :=
  mkFlowLink (source l) (target l) (l_value l) (l_requests l) (l_quota l) (l_tokens l) s t
    (l_color l) (linkColor l) (linkAlpha l) (hoverColor l) (l_colorKey l) (share l) (l_highlighted l) (l_dimmed l).

(** The nodes whose label is masked: neither loop of the source skips them. *)
Definition maskable (n : DashboardFlowNode) : bool :=
  set_has (n_kind n) (set_of_list SENSITIVE_FLOW_KINDS) && negb (set_has (n_id n) OTHER_FLOW_NODE_ID_SET).

Definition maskFlowGraphLabels (ns : list (jsstr * DashboardFlowNode)) (ls : list (jsstr * DashboardFlowLink))
    : list (jsstr * DashboardFlowNode) * list (jsstr * DashboardFlowLink) :=
  let ns' := on_values (fun n => if maskable n then setLabel (maskFlowLabel (n_label n)) n else n) ns in
  let maskedById := fold_left (fun m n => if maskable n then map_set (n_id n) (maskFlowLabel (n_label n)) m else m) (map_values ns) [] in
  match maskedById with
  | [] => (ns', ls)
  | _ => (ns', on_values (fun l => setLinkLabels (default (sourceLabel l) (map_get (source l) maskedById))
                                                 (default (targetLabel l) (map_get (target l) maskedById)) l) ls)
  end.

(** ** Shares *)
Definition setShare (total : Z) (l : DashboardFlowLink) : DashboardFlowLink :=
  mkFlowLink (source l) (target l) (l_value l) (l_requests l) (l_quota l) (l_tokens l) (sourceLabel l) (targetLabel l)
    (l_color l) (linkColor l) (linkAlpha l) (hoverColor l) (l_colorKey l)
    (if 0 <? total then num_div (num_of_Z (l_value l)) (num_of_Z total) else num_zero) (l_highlighted l) (l_dimmed l).

Definition setDisplay (d : jsstr * num) (l : DashboardFlowLink) : DashboardFlowLink :=
  mkFlowLink (source l) (target l) (l_value l) (l_requests l) (l_quota l) (l_tokens l) (sourceLabel l) (targetLabel l)
    (l_color l) d.1 d.2 (l_color l) (l_colorKey l) (share l) (l_highlighted l) (l_dimmed l).

(** ** The graph *)
Section Graph.
Context (localeCompare : jsstr -> jsstr -> Z) (formatNumber : Z -> jsstr).
(** [vchartDefaultDataScheme], which is not empty: its entries before the last, and the last. *)
Context (firstSchemes : list DataScheme) (lastScheme : DataScheme).

(** [charts.ts] *)
Definition getDashboardChartColors (domainLength : Z) : list jsstr :=
  let fits s := match maxDomainLength s with None => true | Some m => (m =? 0) || (domainLength <=? m) end in
  omap (fun c => c) (scheme (default lastScheme (List.find fits (firstSchemes ++ [lastScheme])))).

Definition colorAt (index : nat) (palette : option (list jsstr)) : jsstr :=
  let colors := match palette with Some (c :: p) => c :: p | _ => getDashboardChartColors (Z.of_nat index + 1) end in
  match colors with
  | [] => DEFAULT_FLOW_CHART_COLOR
  | _ => default DEFAULT_FLOW_CHART_COLOR (nth_error colors (index mod length colors)%nat)
  end.

Definition colorPalette (colorCount : nat) (palette : option (list jsstr)) : list jsstr :=
  match palette with
  | Some (c :: p) => c :: p
  | _ => match getDashboardChartColors (Z.of_nat colorCount) with [] => [DEFAULT_FLOW_CHART_COLOR] | colors => colors end
  end.

Definition stableColorMap (keys : list jsstr) (palette : option (list jsstr)) : list (jsstr * jsstr) :=
  let uniqueKeys := set_of_list keys in
  let colors := colorPalette (length uniqueKeys) palette in
  fold_left (fun m ki => map_set ki.2 (colorAt ki.1 (Some colors)) m) (imap pair uniqueKeys) [].

Definition byValue {A} (f : A -> Z) (a b : A) : Z := f b - f a.
Definition byText {A} (f : A -> jsstr) (a b : A) : Z := localeCompare (f a) (f b).

Definition byRank : FlowNodeRank -> FlowNodeRank -> Z :=
  cmp_or (byValue rvalue) (cmp_or (byText (fun r => label (rnode r))) (byText (fun r => id (rnode r)))).
Definition byValueThenLabel : DashboardFlowNode -> DashboardFlowNode -> Z := cmp_or (byValue n_value) (byText n_label).

(** The totals of a stage: [current.value += value] under the node's key. *)
Definition addRank (key : jsstr) (n : FlowPathNode) (value : Z) (m : list (jsstr * FlowNodeRank)) : list (jsstr * FlowNodeRank) :=
  let current := default (mkRank n 0) (map_get key m) in
  map_set key (mkRank (rnode current) (rvalue current + value)) m.

Definition stageTotals (rows : list FlowQuotaDataItem) (metric : FlowMetric) (stages : list FlowNodeKind) (ctx : FlowPathContext)
    : list (FlowNodeKind * list (jsstr * FlowNodeRank)) :=
  fold_left (fun totals row =>
    fold_left (fun totals n =>
      match map_get (kind n) totals with
      | None => totals
      | Some st => map_set (kind n) (addRank (id n) n (metricValue (rowMetrics row) metric) st) totals
      end) (flowPathForStages row stages ctx) totals)
    rows (fold_left (fun m stage => map_set stage [] m) stages []).

Definition buildTopNodeSets (rows : list FlowQuotaDataItem) (metric : FlowMetric) (stages : list FlowNodeKind) (limit : option Z)
    (ctx : FlowPathContext) : option (list (FlowNodeKind * list jsstr)) :=
  match limit with
  | None => None
  | Some l =>
      if l =? 0 then None
      else Some (fold_left (fun m ks =>
             map_set ks.1 (set_of_list (map (fun r => id (rnode r)) (take (Z.to_nat l) (js_sort byRank (map_values ks.2))))) m)
           (stageTotals rows metric stages ctx) [])
  end.

Definition preparePaths (rows : list FlowQuotaDataItem) (stages : list FlowNodeKind) (ctx : FlowPathContext)
    (topNodeSets : option (list (FlowNodeKind * list jsstr))) (mode : FlowOverflowMode) (labeler : option (FlowNodeKind -> jsstr))
    : list PreparedFlowPath :=
  omap (fun row => (fun p => mkPath p (rowMetrics row)) <$>
    applyTopNodeLimit (flowPathForStages row stages ctx) topNodeSets mode labeler) rows.

(** [path[0]?.id] of every path, without the empty ones. *)
Definition rootIds (prepared : list PreparedFlowPath) : list jsstr :=
  List.filter (fun i => match i with [] => false | _ => true end) (omap (fun pr => id <$> head (path pr)) prepared).

(** One iteration of the loop that adds the nodes and links of a path. *)
Definition addPath (metric : FlowMetric) (colors : list (jsstr * jsstr)) (palette : option (list jsstr))
    (acc : list (jsstr * DashboardFlowNode) * list (jsstr * DashboardFlowLink)) (pr : PreparedFlowPath)
    : list (jsstr * DashboardFlowNode) * list (jsstr * DashboardFlowLink) :=
  match path pr with
  | [] => acc
  | root :: _ =>
      let color := default (colorAt 0 palette) (map_get (id root) colors) in
      (fold_left (fun m n => addNode m n (metrics pr) metric color (id root)) (path pr) acc.1,
       fold_left (fun m st => addLink m st.1 st.2 (metrics pr) metric color (id root)) (pairs (path pr)) acc.2)
  end.

(** [assignLinkDisplayColors]: the display of every link, by the link's key. *)
Definition linksBySource (ls : list DashboardFlowLink) : list (jsstr * list DashboardFlowLink) :=
  fold_left (fun m l => map_set (source l) (default [] (map_get (source l) m) ++ [l]) m) ls [].

Definition linkDisplays (sourceLinks : list DashboardFlowLink) : list (jsstr * (jsstr * num)) :=
  let sorted := js_sort (cmp_or (byValue l_value) (byText linkStableKey)) sourceLinks in
  let denominator := Z.max (Z.of_nat (length sorted) - 1) 1 in
  imap (fun index l =>
    let alpha :=
      if (length sorted =? 1)%nat then num_of_string (js "0.34")
      else num_add (num_of_string (js "0.24"))
             (num_mul (num_div (num_of_Z (Z.of_nat index)) (num_of_Z denominator)) (num_of_string (js "0.2"))) in
    (linkStableKey l, alphaColor (l_color l) alpha)) sorted.

Definition assignLinkDisplayColors (ls : list DashboardFlowLink) : list DashboardFlowLink :=
  let displays := concat (map (fun sl => linkDisplays sl.2) (linksBySource ls)) in
  map (fun l => match map_get (linkStableKey l) displays with Some d => setDisplay d l | None => l end) ls.

Definition buildFlowGraph (rows : list FlowQuotaDataItem) (metric : FlowMetric) (r : FlowRole) (palette : option (list jsstr))
    (visible : option (list FlowNodeKind)) (ctx : FlowPathContext) (options : FlowGraphOptions) : DashboardFlowGraph :=
  let stages := resolveVisibleStages r visible in
  let topNodeSets := buildTopNodeSets rows metric stages (normalizeTopNodeLimit (topNodeLimit options)) ctx in
  let mode := default DEFAULT_FLOW_OVERFLOW_MODE (overflowMode options) in
  let prepared := preparePaths rows stages ctx topNodeSets mode (otherNodeLabel options) in
  let colors := stableColorMap (js_sort localeCompare (rootIds prepared)) palette in
  let '(ns, ls) := fold_left (addPath metric colors palette) prepared ([], []) in
  let '(ns, ls) := if maskSensitive options then maskFlowGraphLabels ns ls else (ns, ls) in
  let '(ns, ls) := applyFlowHighlights ns ls (buildFlowHighlightSets prepared (activeNode options) (activeLink options) stages) in
  let flowLinks := js_sort (cmp_or (byText source) (byText target)) (map_values ls) in
  let firstStepSources := set_of_list (rootIds prepared) in
  let total := fold_left (fun sum l => sum + l_value l) (List.filter (fun l => set_has (source l) firstStepSources) flowLinks) 0 in
  mkGraph (js_sort byValueThenLabel (map_values ns)) (assignLinkDisplayColors (map (setShare total) flowLinks)).

(** ** Filter options *)
Definition buildUserFilterOptions (rows : list FlowQuotaDataItem) (metric : FlowMetric) (palette : option (list jsstr))
    : list FlowUserFilterOption :=
  let colors := stableColorMap (js_sort localeCompare (map (fun row => id (userNode row)) rows)) palette in
  let users := fold_left (fun users row =>
    let u := userNode row in
    if (numberValue (user_id row) =? 0) && match username row with Some (_ :: _) => false | _ => true end then users
    else
      let '(lbl, v, color) := default (label u, 0, default (colorAt 0 palette) (map_get (id u) colors)) (map_get (id u) users) in
      map_set (id u) (lbl, v + metricValue (rowMetrics row) metric, color) users) rows [] in
  js_sort (cmp_or (byValue uo_valueRaw) (byText uo_label))
    (map (fun kv : jsstr * (jsstr * Z * jsstr) => let '(lbl, v, color) := kv.2 in mkUserOption kv.1 lbl (formatNumber v) v color) users).

Definition stageOrder (stages : list FlowNodeKind) (k : FlowNodeKind) : Z :=
  default 0 (map_get k (fold_left (fun m ik => map_set ik.2 (Z.of_nat ik.1) m) (imap pair stages) [])).

Definition nodeOptionTotals (rows : list FlowQuotaDataItem) (metric : FlowMetric) (stages : list FlowNodeKind) (ctx : FlowPathContext)
    (selected : option (list FlowNodeFilter)) (stage : FlowNodeKind) : list (jsstr * FlowNodeRank) :=
  fold_left (fun totals row =>
      let n := NODE_BUILDERS stage row ctx in
      addRank (nodeFilterKey (mkFilter (kind n) (id n))) n (metricValue (rowMetrics row) metric) totals)
    (filterRowsByNodes rows (selectedNodeFiltersExceptKind selected stage) stages ctx) [].

Definition buildNodeFilterOptions (rows : list FlowQuotaDataItem) (metric : FlowMetric) (r : FlowRole)
    (visible : option (list FlowNodeKind)) (palette : option (list jsstr)) (ctx : FlowPathContext)
    (selected : option (list FlowNodeFilter)) : list FlowNodeFilterOption :=
  let stages := resolveVisibleStages r visible in
  let colorIds := fold_left (fun s row => fold_left (fun s n => set_add (id n) s) (flowPathForStages row stages ctx) s) rows [] in
  let colors := stableColorMap (js_sort localeCompare colorIds) palette in
  let options := concat (map (fun stage =>
    map (fun rank => mkNodeOption (kind (rnode rank)) (id (rnode rank)) (label (rnode rank)) (formatNumber (rvalue rank)) (rvalue rank)
                       (default (colorAt 0 palette) (map_get (id (rnode rank)) colors)))
      (map_values (nodeOptionTotals rows metric stages ctx selected stage))) stages) in
  js_sort (cmp_or (fun a b => stageOrder stages (no_kind a) - stageOrder stages (no_kind b))
            (cmp_or (byValue no_valueRaw) (cmp_or (byText no_label) (byText no_value)))) options.

Definition buildFlowFilterOptions (rows : list FlowQuotaDataItem) (metric : FlowMetric) (palette : option (list jsstr))
    (r : FlowRole) (visible : option (list FlowNodeKind)) (selected : option (list FlowNodeFilter)) : FlowFilterOptions :=
  mkFilterOptions (buildUserFilterOptions rows metric palette)
    (buildNodeFilterOptions rows metric r visible palette EMPTY_FLOW_PATH_CONTEXT selected).

Definition buildDashboardFlowData (rows : list FlowQuotaDataItem) (metric : FlowMetric) (options : FlowBuildOptions) : ProcessedFlowData :=
  let r := default DEFAULT_FLOW_ROLE (role options) in
  let palette := colorPalette_ options in
  let ctx := deletedTokenLabel_ options in
  let stages := resolveVisibleStages r (visibleStages options) in
  let userFilteredRows := filterRows rows (selectedUsers options) in
  let filteredRows := filterRowsByNodes userFilteredRows (selectedNodes options) stages ctx in
  mkProcessed (buildSummary filteredRows)
    (buildFlowGraph filteredRows metric r palette (visibleStages options) ctx (graphOptions options))
    (mkFilterOptions (buildUserFilterOptions rows metric palette)
       (buildNodeFilterOptions userFilteredRows metric r (visibleStages options) palette ctx (selectedNodes options))).

(** ** Drawing order of the links *)
Definition flag (b : option bool) : option Z := match b with Some true => Some 1 | Some false => Some 0 | None => None end.
(** [Number(x) - Number(y)], where a flag that was never set gives [NaN] and so decides nothing. *)
Definition flagDiff (x y : option bool) : Z := match flag x, flag y with Some a, Some b => a - b | _, _ => 0 end.

Definition byLinkDrawPriority : DashboardFlowLink -> DashboardFlowLink -> Z :=
  cmp_or (fun a b => flagDiff (l_dimmed a) (l_dimmed b))
    (cmp_or (fun a b => flagDiff (l_highlighted b) (l_highlighted a))
      (cmp_or (byValue l_value) (byText linkStableKey))).

Definition isTrue (b : option bool) : bool := match b with Some true => true | _ => false end.

(** The links of the chart with their [zIndex]. *)
Definition sankeyLinks (g : DashboardFlowGraph) : list (DashboardFlowLink * Z) :=
  imap (fun index l =>
    (l, if isTrue (l_highlighted l) then 1000000 + Z.of_nat index
        else if isTrue (l_dimmed l) then Z.of_nat index else 100000 + Z.of_nat index))
    (js_sort byLinkDrawPriority (List.filter (fun l => 0 <? l_value l) (links g))).

End Graph.

(** ** Lemmas: tables that accumulate *)
#[local] Arguments sum_with : simpl never.

Section Accumulate.
Context {K V X : Type} `{EqDecision K} (key : X -> K) (init : X -> V) (upd : X -> V -> V).

Definition accum (m : list (K * V)) (x : X) : list (K * V) :=
  map_set (key x) (upd x (default (init x) (map_get (key x) m))) m.

Lemma sum_map_set (g : V -> Z) k v (m : list (K * V)) :
  sum_with g (map_values (map_set k v m)) = sum_with g (map_values m) + g v - match map_get k m with Some v0 => g v0 | None => 0 end.
Proof.
  unfold map_values. induction m as [|[k' v'] m IH]; [csimpl; rewrite sum_with_cons, !sum_with_nil; lia|]. cbn [map_set map_get].
  case_bool_decide; csimpl; rewrite !sum_with_cons; [lia|]. rewrite IH. lia.
Qed.

Lemma elem_map_set k v k' v' (m : list (K * V)) : (k', v') ∈ map_set k v m -> (k', v') = (k, v) \/ (k', v') ∈ m.
Proof.
  induction m as [|[k1 v1] m IH]; csimpl; [set_solver|]. case_bool_decide; subst; rewrite !elem_of_cons; naive_solver.
Qed.

Record accumulated (Q : K -> V -> Prop) (g : V -> Z) (w : X -> Z) (xs : list X) (m m' : list (K * V)) : Prop := {
  acc_nodup : NoDup (map_keys m');
  acc_inv : forall k v, (k, v) ∈ m' -> Q k v;
  acc_sum : sum_with g (map_values m') = sum_with g (map_values m) + sum_with w xs;
  acc_keys : forall k, k ∈ map_keys m' <-> k ∈ map_keys m \/ k ∈ map key xs }.

Lemma accum_fold (Q : K -> V -> Prop) (g : V -> Z) (w : X -> Z) xs m :
  (forall x, x ∈ xs -> Q (key x) (upd x (init x)) /\ g (upd x (init x)) = w x) ->
  (forall x v, x ∈ xs -> Q (key x) v -> Q (key x) (upd x v) /\ g (upd x v) = g v + w x) ->
  NoDup (map_keys m) -> (forall k v, (k, v) ∈ m -> Q k v) ->
  accumulated Q g w xs m (fold_left accum xs m).
Proof.
  revert m. induction xs as [|x xs IH]; intros m Hi Hu Hd HQ.
  - split; [done | done | by cbn [fold_left]; rewrite sum_with_nil, Z.add_0_r | set_solver].
  - cbn [fold_left].
    assert (HQx : Q (key x) (upd x (default (init x) (map_get (key x) m))) /\
      g (upd x (default (init x) (map_get (key x) m))) = match map_get (key x) m with Some v0 => g v0 | None => 0 end + w x).
    { destruct (map_get (key x) m) as [v|] eqn:E; cbn [default].
      - apply Hu; [set_solver|]. apply HQ. by apply map_get_Some_elem.
      - destruct (Hi x) as [Hq Hg]; [set_solver|]. split; [done|]. rewrite Hg. done. }
    destruct HQx as [Q1 G1].
    destruct (IH (accum m x)) as [D I S Ks].
    + intros y Hy. apply Hi. set_solver.
    + intros y v Hy. apply Hu. set_solver.
    + by apply NoDup_map_set.
    + intros k v [[= -> ->]|H]%elem_map_set; [done | by apply HQ].
    + split; [done | done | |].
      * rewrite S. unfold accum. rewrite sum_map_set, G1, sum_with_cons. lia.
      * intros k. rewrite Ks. unfold accum. rewrite elem_of_map_keys_set. cbn [map]. set_solver.
Qed.
End Accumulate.

Lemma fold_left_concat {A B C} (f : A -> B -> A) (h : C -> list B) cs a :
  fold_left f (concat (map h cs)) a = fold_left (fun a c => fold_left f (h c) a) cs a.
Proof. revert a. induction cs as [|c cs IH]; intros a; [done|]. cbn. by rewrite fold_left_app, IH. Qed.

Lemma sum_with_map {A B} (f : B -> Z) (h : A -> B) l : sum_with f (map h l) = sum_with (fun x => f (h x)) l.
Proof. induction l as [|x l IH]; [done|]. cbn [map]. by rewrite !sum_with_cons, IH. Qed.

Lemma sum_with_concat {A B} (f : B -> Z) (h : A -> list B) l :
  sum_with f (concat (map h l)) = sum_with (fun x => sum_with f (h x)) l.
Proof. induction l as [|x l IH]; [done|]. cbn [map concat]. by rewrite sum_with_app, sum_with_cons, IH. Qed.

Lemma sum_with_filter {A} (f : A -> Z) (p : A -> bool) l :
  sum_with f (List.filter p l) = sum_with (fun x => if p x then f x else 0) l.
Proof. induction l as [|x l IH]; [done|]. cbn [List.filter]. rewrite sum_with_cons. destruct (p x); rewrite ?sum_with_cons, IH; lia. Qed.

(** ** Lemmas: paths *)
Definition colon : Z := 58.

(** The identifier of a node names its kind, and contains no separator. *)
Record node_wf (n : FlowPathNode) : Prop := {
  wf_prefix : exists s, id n = kind_name (kind n) ++ colon :: s;
  wf_nul : no_char NUL (id n) = true }.

Lemma id_kind k k' s s' : kind_name k ++ colon :: s = kind_name k' ++ colon :: s' -> k = k'.
Proof. destruct k, k'; intros H; try done; exfalso; vm_compute in H; simplify_eq. Qed.

Lemma wf_kind n n' : node_wf n -> node_wf n' -> id n = id n' -> kind n = kind n'.
Proof. intros [[s E] _] [[s' E'] _] H. rewrite E, E' in H. by eapply id_kind. Qed.

Definition name_clean (s : option jsstr) : bool := match s with Some s => no_char NUL s | None => true end.

(** The names of a row contain no NUL character, which separates the keys. *)
Definition row_clean (row : FlowQuotaDataItem) : bool :=
  forallb name_clean [username row; node_name row; use_group row; token_name row; channel_name row; model_name row].

Lemma or_str_clean s d : name_clean s = true -> no_char NUL d = true -> no_char NUL (or_str s d) = true.
Proof. by destruct s as [[|c s]|]. Qed.

Lemma string_of_Z_clean n : 0 < n -> no_char NUL (string_of_Z n) = true.
Proof.
  intros H. apply digits_no_char; [done|]. by apply string_of_Z_digits; lia.
Qed.

Lemma builder_kind k row ctx : kind (NODE_BUILDERS k row ctx) = k.
Proof. by destruct k. Qed.

Lemma builder_wf k row ctx : row_clean row = true -> node_wf (NODE_BUILDERS k row ctx).
Proof.
  unfold row_clean. cbn [forallb]. intros H. repeat (apply andb_prop in H as [? H]).
  split.
  - destruct k; cbn; try case_match; by eexists.
  - destruct k; cbn [NODE_BUILDERS id userNode nodeNameNode tokenNode groupNode modelNode channelNode];
      try (case_match; bool_to_prop); rewrite no_char_app; apply andb_true_intro; split;
      try (by vm_compute); try (by apply or_str_clean); by apply string_of_Z_clean.
Qed.

Lemma other_wf k lab : node_wf (otherFlowNode k lab).
Proof. split; [by destruct k; eexists | by destruct k]. Qed.

Record path_wf (stages : list FlowNodeKind) (p : list FlowPathNode) : Prop := {
  pw_kinds : map kind p = stages;
  pw_nodes : Forall node_wf p }.

Lemma row_path_wf row stages ctx : row_clean row = true -> path_wf stages (flowPathForStages row stages ctx).
Proof.
  intros H. unfold flowPathForStages. split.
  - rewrite map_map. erewrite map_ext; [apply map_id|]. intros k. apply builder_kind.
  - apply Forall_map, Forall_true. intros k. by apply builder_wf.
Qed.

Lemma limit_path_wf stages p sets mode lab p' :
  path_wf stages p -> applyTopNodeLimit p sets mode lab = Some p' -> path_wf stages p'.
Proof.
  intros [Hk Hn] H. unfold applyTopNodeLimit in H. destruct sets as [sets|]; [|by simplify_eq].
  destruct (negb _); [by simplify_eq|]. destruct mode; simplify_eq. split.
  - rewrite map_map. apply map_ext. intros n. by destruct (isTopFlowNode n _).
  - apply Forall_map. eapply Forall_impl; [exact Hn|]. intros n H. destruct (isTopFlowNode n _); [done | apply other_wf].
Qed.

Lemma prepared_wf rows stages ctx sets mode lab :
  Forall (fun row => row_clean row = true) rows ->
  Forall (fun pr => path_wf stages (path pr)) (preparePaths rows stages ctx sets mode lab).
Proof.
  intros H. unfold preparePaths. induction H as [|row rows Hr _ IH]; [done|]. cbn.
  destruct (applyTopNodeLimit _ sets mode lab) eqn:E; cbn; [|done]. constructor; [|done]. cbn.
  eapply limit_path_wf; [|exact E]. by apply row_path_wf.
Qed.

Lemma stages_NoDup r v : NoDup (resolveVisibleStages r v).
Proof.
  assert (H : NoDup (getFlowStages r)) by (apply (bool_decide_unpack _); by destruct r).
  unfold resolveVisibleStages. destruct v as [v|]; [|done]. case_match; [|done].
  clear -H. induction H as [|k l Hk _ IH]; [constructor|]. cbn. destruct (set_has _ _); [|done].
  constructor; [|done]. rewrite list_elem_of_In, filter_In, <- list_elem_of_In. tauto.
Qed.

Lemma stages_two r v : (2 <= length (resolveVisibleStages r v))%nat.
Proof.
  unfold resolveVisibleStages, MIN_FLOW_STAGES. destruct v as [v|]; [|destruct r; cbn; lia].
  destruct (Nat.leb_spec 2 (length (List.filter (fun stage => set_has stage (set_of_list v)) (getFlowStages r)))); [done|].
  destruct r; cbn; lia.
Qed.

(** ** Lemmas: the tables of nodes and links *)
Inductive Measure := XValue | XQuota | XTokens | XRequests.

Definition metrics_measure (metric : FlowMetric) (x : Measure) (ms : FlowMetrics) : Z :=
  match x with XValue => metricValue ms metric | XQuota => m_quota ms | XTokens => m_tokens ms | XRequests => m_requests ms end.
Definition node_measure (x : Measure) (n : DashboardFlowNode) : Z :=
  match x with XValue => n_value n | XQuota => n_quota n | XTokens => n_tokens n | XRequests => n_requests n end.
Definition link_measure (x : Measure) (l : DashboardFlowLink) : Z :=
  match x with XValue => l_value l | XQuota => l_quota l | XTokens => l_tokens l | XRequests => l_requests l end.
Definition summary_measure (metric : FlowMetric) (x : Measure) (s : FlowSummary) : Z :=
  match x with
  | XQuota => s_quota s | XTokens => s_tokens s | XRequests => s_requests s
  | XValue => match metric with mquota => s_quota s | mtokens => s_tokens s | mrequests => s_requests s end
  end.

(** What a step of a path adds: the node or pair, the metrics, the colour and its key. *)
Record NodeEvent := mkNE { ne_node : FlowPathNode; ne_ms : FlowMetrics; ne_color : jsstr; ne_key : jsstr }.
Record LinkEvent := mkLE { le_src : FlowPathNode; le_tgt : FlowPathNode; le_ms : FlowMetrics; le_color : jsstr; le_key : jsstr }.

Section Tables.
Context (metric : FlowMetric) (color : PreparedFlowPath -> jsstr) (stages : list FlowNodeKind).

Definition rootId (pr : PreparedFlowPath) : jsstr := match path pr with [] => [] | n :: _ => id n end.
Definition nodeEvents (pr : PreparedFlowPath) : list NodeEvent :=
  map (fun n => mkNE n (metrics pr) (color pr) (rootId pr)) (path pr).
Definition linkEvents (pr : PreparedFlowPath) : list LinkEvent :=
  map (fun st => mkLE st.1 st.2 (metrics pr) (color pr) (rootId pr)) (pairs (path pr)).

Definition nodeTable (prs : list PreparedFlowPath) : list (jsstr * DashboardFlowNode) :=
  fold_left (accum (fun e => id (ne_node e)) (fun e => newNode (ne_node e) (ne_color e) (ne_key e))
    (fun e => addMetrics (ne_ms e) metric)) (concat (map nodeEvents prs)) [].
Definition linkTable (prs : list PreparedFlowPath) : list (jsstr * DashboardFlowLink) :=
  fold_left (accum (fun e => pathLinkKey (le_src e) (le_tgt e)) (fun e => newLink (le_src e) (le_tgt e) (le_color e) (le_key e))
    (fun e => addLinkMetrics (le_ms e) metric)) (concat (map linkEvents prs)) [].

Definition nodeQ (k : jsstr) (n : DashboardFlowNode) : Prop :=
  n_id n = k /\ node_wf (mkNode (n_id n) (n_label n) (n_kind n)) /\ n_kind n ∈ stages.
Definition linkQ (k : jsstr) (l : DashboardFlowLink) : Prop :=
  k = source l ++ [NUL] ++ target l /\ no_char NUL (source l) = true.

Lemma key_split a b a' b' :
  no_char NUL a = true -> no_char NUL a' = true -> a ++ [NUL] ++ b = a' ++ [NUL] ++ b' -> a = a' /\ b = b'.
Proof.
  revert a'. induction a as [|c a IH]; intros [|c' a'] H H' E; cbn in *; simplify_eq; try done.
  - apply andb_prop in H as [_ H], H' as [_ H']. destruct (IH a') as [-> ->]; done.
Qed.

Section WellFormed.
Context (prs : list PreparedFlowPath) (Hwf : Forall (fun pr => path_wf stages (path pr)) prs).

Lemma nodeEvents_wf e : e ∈ concat (map nodeEvents prs) -> node_wf (ne_node e) /\ kind (ne_node e) ∈ stages.
Proof.
  rewrite list_elem_of_In, in_concat. intros (l & (pr & <- & Hp)%in_map_iff & (n & <- & Hn)%in_map_iff).
  apply list_elem_of_In in Hp; apply list_elem_of_In in Hn. rewrite Forall_forall in Hwf. destruct (Hwf pr Hp) as [Hk Hw].
  rewrite Forall_forall in Hw. split; [by apply Hw|]. rewrite <- Hk. cbn. apply list_elem_of_In, in_map. by apply list_elem_of_In.
Qed.

Lemma pairs_elem {A} (p : list A) s t : (s, t) ∈ pairs p -> s ∈ p /\ t ∈ tail p.
Proof.
  unfold pairs. rewrite list_elem_of_In. intros H. split; apply list_elem_of_In; [by eapply in_combine_l | by eapply in_combine_r].
Qed.

Lemma linkEvents_wf e : e ∈ concat (map linkEvents prs) -> node_wf (le_src e) /\ node_wf (le_tgt e).
Proof.
  rewrite list_elem_of_In, in_concat. intros (l & (pr & <- & Hp)%in_map_iff & ([s t] & <- & Hn)%in_map_iff).
  apply list_elem_of_In in Hp; apply list_elem_of_In in Hn. rewrite Forall_forall in Hwf. destruct (Hwf pr Hp) as [_ Hw].
  rewrite Forall_forall in Hw. apply pairs_elem in Hn as [Hs Ht]. split; cbn; apply Hw; [done|].
  destruct (path pr); [done|]. by right.
Qed.

(** Sums over the table of nodes, for a weight on identifiers and kinds. *)
Lemma nodeTable_sum (P : jsstr -> FlowNodeKind -> bool) x :
  accumulated (fun e => id (ne_node e)) nodeQ (fun n => if P (n_id n) (n_kind n) then node_measure x n else 0)
    (fun e => if P (id (ne_node e)) (kind (ne_node e)) then metrics_measure metric x (ne_ms e) else 0)
    (concat (map nodeEvents prs)) [] (nodeTable prs).
Proof.
  apply accum_fold; [| |constructor|set_solver].
  - intros e He. destruct (nodeEvents_wf e He) as [Hw Hs]. split.
    + split; [done|]. by destruct (ne_node e).
    + cbn. destruct (P _ _); [|done]. by destruct x, metric.
  - intros e n He (E & Hw & Hk). destruct (nodeEvents_wf e He) as [Hw' _]. split; [done|].
    assert (Ek : n_kind n = kind (ne_node e)) by (apply (wf_kind _ _ Hw Hw'); done).
    cbn. rewrite E, Ek. destruct (P _ _); [|lia]. by destruct x.
Qed.

Lemma linkTable_sum (P : jsstr -> jsstr -> bool) x :
  accumulated (fun e => pathLinkKey (le_src e) (le_tgt e)) linkQ (fun l => if P (source l) (target l) then link_measure x l else 0)
    (fun e => if P (id (le_src e)) (id (le_tgt e)) then metrics_measure metric x (le_ms e) else 0)
    (concat (map linkEvents prs)) [] (linkTable prs).
Proof.
  apply accum_fold; [| |constructor|set_solver].
  - intros e He. destruct (linkEvents_wf e He) as [[_ Hw] _]. split; [done|].
    cbn. destruct (P _ _); [|done]. by destruct x, metric.
  - intros e l He (E & Hw). destruct (linkEvents_wf e He) as [[_ Hw'] _]. split; [done|].
    unfold pathLinkKey in E. apply key_split in E as [E1 E2]; [|done..].
    cbn. rewrite <- E1, <- E2. destruct (P _ _); [|lia]. by destruct x.
Qed.
End WellFormed.
End Tables.

(** ** Lemmas: from the tables to the graph *)
Definition node_core (n : DashboardFlowNode) : jsstr * FlowNodeKind * Z * Z * Z * Z :=
  (n_id n, n_kind n, n_value n, n_requests n, n_quota n, n_tokens n).
Definition link_core (l : DashboardFlowLink) : jsstr * jsstr * Z * Z * Z * Z :=
  (source l, target l, l_value l, l_requests l, l_quota l, l_tokens l).

Lemma values_on_values {K A B} (f : A -> B) (m : list (K * A)) : map_values (on_values f m) = map f (map_values m).
Proof. unfold map_values, on_values. induction m as [|[k a] m IH]; [done|]. csimpl. by f_equal. Qed.

Lemma map_core {A B} (c : A -> B) (f : A -> A) l : (forall a, c (f a) = c a) -> map c (map f l) = map c l.
Proof. intros H. rewrite map_map. by apply map_ext. Qed.

Lemma node_core_measure x n n' : node_core n = node_core n' -> n_id n = n_id n' /\ n_kind n = n_kind n' /\ node_measure x n = node_measure x n'.
Proof. unfold node_core. intros [= ? ? ? ? ? ?]. by destruct x. Qed.

(** Sums that depend on the core only. *)
Lemma node_sums (P : jsstr -> FlowNodeKind -> bool) x ns ns' :
  map node_core ns ≡ₚ map node_core ns' ->
  sum_with (fun n => if P (n_id n) (n_kind n) then node_measure x n else 0) ns
  = sum_with (fun n => if P (n_id n) (n_kind n) then node_measure x n else 0) ns'.
Proof.
  set (G := fun c : jsstr * FlowNodeKind * Z * Z * Z * Z => let '(i, k, v, r, q, t) := c in
    if P i k then match x with XValue => v | XQuota => q | XTokens => t | XRequests => r end else 0).
  intros H. apply (sum_with_Permutation G) in H. rewrite !sum_with_map in H.
  assert (E : forall l, sum_with (fun n => if P (n_id n) (n_kind n) then node_measure x n else 0) l = sum_with (fun n => G (node_core n)) l).
  { intros l. apply sum_with_ext. intros n _. cbn. by destruct x. }
  by rewrite !E.
Qed.

Lemma link_sums (P : jsstr -> jsstr -> bool) x ls ls' :
  map link_core ls ≡ₚ map link_core ls' ->
  sum_with (fun l => if P (source l) (target l) then link_measure x l else 0) ls
  = sum_with (fun l => if P (source l) (target l) then link_measure x l else 0) ls'.
Proof.
  set (G := fun c : jsstr * jsstr * Z * Z * Z * Z => let '(s, d, v, r, q, t) := c in
    if P s d then match x with XValue => v | XQuota => q | XTokens => t | XRequests => r end else 0).
  intros H. apply (sum_with_Permutation G) in H. rewrite !sum_with_map in H.
  assert (E : forall l, sum_with (fun l => if P (source l) (target l) then link_measure x l else 0) l = sum_with (fun n => G (link_core n)) l).
  { intros l. apply sum_with_ext. intros n _. cbn. by destruct x. }
  by rewrite !E.
Qed.

Section GraphLemmas.
Context (localeCompare : jsstr -> jsstr -> Z) (firstSchemes : list DataScheme) (lastScheme : DataScheme).

Definition rootColor (colors : list (jsstr * jsstr)) (palette : option (list jsstr)) (pr : PreparedFlowPath) : jsstr :=
  match path pr with [] => [] | root :: _ => default (colorAt firstSchemes lastScheme 0 palette) (map_get (id root) colors) end.

Lemma addPath_tables metric colors palette prs :
  fold_left (addPath firstSchemes lastScheme metric colors palette) prs ([], [])
  = (nodeTable metric (rootColor colors palette) prs, linkTable metric (rootColor colors palette) prs).
Proof.
  unfold nodeTable, linkTable. rewrite !fold_left_concat. generalize (@nil (jsstr * DashboardFlowNode)), (@nil (jsstr * DashboardFlowLink)).
  induction prs as [|pr prs IH]; intros ns ls; [done|]. cbn [fold_left]. rewrite <- IH. f_equal.
  unfold addPath, nodeEvents, linkEvents. rewrite !fold_left_map.
  destruct pr as [p ms]. cbn [path metrics]. unfold rootColor, rootId. cbn [path]. by destruct p.
Qed.

Lemma links_cores ls total :
  map link_core (assignLinkDisplayColors localeCompare (map (setShare total) ls)) = map link_core ls.
Proof.
  unfold assignLinkDisplayColors. rewrite map_core; [by rewrite map_core|]. intros l. by case_match.
Qed.

Lemma highlight_cores ns ls h :
  map node_core (map_values (applyFlowHighlights ns ls h).1) = map node_core (map_values ns) /\
  map link_core (map_values (applyFlowHighlights ns ls h).2) = map link_core (map_values ls).
Proof. destruct h as [h|]; [|done]. cbn [applyFlowHighlights fst snd]. by rewrite !values_on_values, !map_core. Qed.

Lemma mask_cores ns ls :
  map node_core (map_values (maskFlowGraphLabels ns ls).1) = map node_core (map_values ns) /\
  map link_core (map_values (maskFlowGraphLabels ns ls).2) = map link_core (map_values ls).
Proof.
  unfold maskFlowGraphLabels.
  assert (E : map node_core (map_values (on_values (fun n => if maskable n then setLabel (maskFlowLabel (n_label n)) n else n) ns))
              = map node_core (map_values ns)) by (rewrite values_on_values, map_core; [done|]; intros n; by case_match).
  case_match; split; try exact E; [done|]. cbn [snd]. by rewrite values_on_values, map_core.
Qed.

(** The paths that the graph is made of. *)
Definition shownPaths (rows : list FlowQuotaDataItem) (metric : FlowMetric) (r : FlowRole) (visible : option (list FlowNodeKind))
    (ctx : FlowPathContext) (options : FlowGraphOptions) : list PreparedFlowPath :=
  let stages := resolveVisibleStages r visible in
  preparePaths rows stages ctx
    (buildTopNodeSets localeCompare rows metric stages (normalizeTopNodeLimit (topNodeLimit options)) ctx)
    (default DEFAULT_FLOW_OVERFLOW_MODE (overflowMode options)) (otherNodeLabel options).

Definition shownColor rows metric r palette visible ctx options : PreparedFlowPath -> jsstr :=
  rootColor (stableColorMap firstSchemes lastScheme
    (js_sort localeCompare (rootIds (shownPaths rows metric r visible ctx options))) palette) palette.

Lemma graph_cores rows metric r palette visible ctx options :
  let g := buildFlowGraph localeCompare firstSchemes lastScheme rows metric r palette visible ctx options in
  let prs := shownPaths rows metric r visible ctx options in
  let color := shownColor rows metric r palette visible ctx options in
  map node_core (nodes g) ≡ₚ map node_core (map_values (nodeTable metric color prs)) /\
  map link_core (links g) ≡ₚ map link_core (map_values (linkTable metric color prs)).
Proof.
  unfold buildFlowGraph. fold (shownPaths rows metric r visible ctx options). cbv zeta. rewrite addPath_tables.
  fold (shownColor rows metric r palette visible ctx options).
  set (ns := nodeTable _ _ _). set (ls := linkTable _ _ _).
  set (masked := if maskSensitive options then maskFlowGraphLabels ns ls else (ns, ls)).
  assert (Em : map node_core (map_values masked.1) = map node_core (map_values ns) /\
               map link_core (map_values masked.2) = map link_core (map_values ls)).
  { unfold masked. destruct (maskSensitive options); [apply mask_cores | done]. }
  destruct masked as [ns1 ls1]. set (h := buildFlowHighlightSets _ _ _ _).
  destruct (highlight_cores ns1 ls1 h) as [H1 H2]. destruct (applyFlowHighlights ns1 ls1 h) as [ns2 ls2].
  cbn [fst snd nodes links] in *. destruct Em as [E1 E2]. split.
  - rewrite js_sort_Permutation. by rewrite H1, E1.
  - rewrite links_cores, js_sort_Permutation. by rewrite H2, E2.
Qed.
End GraphLemmas.

(** ** Lemmas: conservation along paths *)
Lemma path_in i (w : Z) p :
  sum_with (fun st => if bool_decide (id st.2 = i) then w else 0) (pairs p) + match p with n :: _ => if bool_decide (id n = i) then w else 0 | [] => 0 end
  = sum_with (fun n => if bool_decide (id n = i) then w else 0) p.
Proof.
  induction p as [|n p IH]; [done|]. rewrite sum_with_cons. destruct p as [|n' p]; [cbn; rewrite !sum_with_nil; lia|].
  change (pairs (n :: n' :: p)) with ((n, n') :: pairs (n' :: p)). rewrite sum_with_cons. cbn [snd]. rewrite <- IH. lia.
Qed.

Lemma path_out i (w : Z) p :
  sum_with (fun st => if bool_decide (id st.1 = i) then w else 0) (pairs p) + match last p with Some n => if bool_decide (id n = i) then w else 0 | None => 0 end
  = sum_with (fun n => if bool_decide (id n = i) then w else 0) p.
Proof.
  induction p as [|n p IH]; [done|]. rewrite sum_with_cons. destruct p as [|n' p]; [cbn; rewrite !sum_with_nil; lia|].
  change (pairs (n :: n' :: p)) with ((n, n') :: pairs (n' :: p)). rewrite sum_with_cons. cbn [fst].
  change (last (n :: n' :: p)) with (last (n' :: p)). rewrite <- IH. lia.
Qed.

(** A path visits each of its stages once. *)
Lemma path_kind k (w : Z) p :
  NoDup (map kind p) -> k ∈ map kind p -> sum_with (fun n => if bool_decide (kind n = k) then w else 0) p = w.
Proof.
  induction p as [|n p IH]; [set_solver|]. cbn [map]. intros [Hn Hd]%NoDup_cons [->|Hk]%elem_of_cons; rewrite sum_with_cons.
  - rewrite bool_decide_true by done. rewrite (sum_with_ext _ (fun _ => 0)).
    + clear. induction p as [|m p IH]; [rewrite sum_with_nil; lia|]. rewrite sum_with_cons. lia.
    + intros m Hm. rewrite bool_decide_false; [done|]. intros E. apply Hn. rewrite <- E. apply list_elem_of_In, in_map. by apply list_elem_of_In.
  - rewrite IH by done. rewrite bool_decide_false; [lia|]. intros <-. done.
Qed.

Lemma sum_unique {V} (f : V -> Z) (h : V -> jsstr) (m : list (jsstr * V)) k v :
  NoDup (map_keys m) -> (forall k' v', (k', v') ∈ m -> h v' = k') -> (k, v) ∈ m ->
  sum_with (fun v' => if bool_decide (h v' = k) then f v' else 0) (map_values m) = f v.
Proof.
  unfold map_keys, map_values. induction m as [|[k1 v1] m IH]; [set_solver|]. csimpl.
  intros [Hn Hd]%NoDup_cons Hh Hin. rewrite sum_with_cons. assert (E1 : h v1 = k1) by (apply Hh; set_solver).
  apply elem_of_cons in Hin as [[= -> ->]|Hin].
  - rewrite bool_decide_true by done. rewrite (sum_with_ext _ (fun _ => 0)).
    + clear. induction (m.*2) as [|u l IH]; [rewrite sum_with_nil; lia|]. rewrite sum_with_cons. lia.
    + intros u Hu. rewrite bool_decide_false; [done|]. apply list_elem_of_fmap in Hu as ([k2 v2] & -> & H2).
      cbn. rewrite (Hh k2 v2) by set_solver. intros ->. apply Hn. apply list_elem_of_fmap. by exists (k1, v2).
  - rewrite IH; [|done|set_solver|done]. rewrite bool_decide_false; [lia|]. rewrite E1. intros ->.
    apply Hn. apply list_elem_of_fmap. by exists (k, v).
Qed.

Section Conservation.
Context (metric : FlowMetric) (color : PreparedFlowPath -> jsstr) (stages : list FlowNodeKind).
Context (prs : list PreparedFlowPath) (Hwf : Forall (fun pr => path_wf stages (path pr)) prs) (Hnd : NoDup stages).

Lemma events_sum (P : FlowPathNode -> bool) x :
  sum_with (fun e => if P (ne_node e) then metrics_measure metric x (ne_ms e) else 0) (concat (map (nodeEvents color) prs))
  = sum_with (fun pr => sum_with (fun n => if P n then metrics_measure metric x (metrics pr) else 0) (path pr)) prs.
Proof. rewrite sum_with_concat. apply sum_with_ext. intros pr _. unfold nodeEvents. by rewrite sum_with_map. Qed.

Lemma table_stage k x :
  k ∈ stages ->
  sum_with (fun n => if bool_decide (n_kind n = k) then node_measure x n else 0) (map_values (nodeTable metric color prs))
  = sum_with (fun pr => metrics_measure metric x (metrics pr)) prs.
Proof.
  intros Hk. destruct (nodeTable_sum metric color stages prs Hwf (fun _ k' => bool_decide (k' = k)) x) as [_ _ S _]. cbv beta in S.
  rewrite S. change (sum_with _ (map_values [])) with 0. rewrite Z.add_0_l.
  etransitivity; [exact (events_sum (fun n => bool_decide (kind n = k)) x)|]. apply sum_with_ext. intros pr Hp.
  rewrite Forall_forall in Hwf. destruct (Hwf pr Hp) as [Ek _]. apply path_kind; by rewrite Ek.
Qed.

Lemma table_node i x :
  sum_with (fun n => if bool_decide (n_id n = i) then node_measure x n else 0) (map_values (nodeTable metric color prs))
  = sum_with (fun pr => sum_with (fun n => if bool_decide (id n = i) then metrics_measure metric x (metrics pr) else 0) (path pr)) prs.
Proof.
  destruct (nodeTable_sum metric color stages prs Hwf (fun i' _ => bool_decide (i' = i)) x) as [_ _ S _]. cbv beta in S.
  rewrite S. change (sum_with _ (map_values [])) with 0. rewrite Z.add_0_l. exact (events_sum (fun n => bool_decide (id n = i)) x).
Qed.

Lemma links_sum (P : jsstr -> jsstr -> bool) x :
  sum_with (fun l => if P (source l) (target l) then link_measure x l else 0) (map_values (linkTable metric color prs))
  = sum_with (fun pr => sum_with (fun st => if P (id st.1) (id st.2) then metrics_measure metric x (metrics pr) else 0) (pairs (path pr))) prs.
Proof.
  destruct (linkTable_sum metric color stages prs Hwf P x) as [_ _ S _]. cbv beta in S.
  rewrite S. change (sum_with _ (map_values [])) with 0. rewrite Z.add_0_l, sum_with_concat.
  apply sum_with_ext. intros pr _. unfold linkEvents. by rewrite sum_with_map.
Qed.

Lemma table_in i x :
  (forall pr n, pr ∈ prs -> head (path pr) = Some n -> id n <> i) ->
  sum_with (fun l => if bool_decide (target l = i) then link_measure x l else 0) (map_values (linkTable metric color prs))
  = sum_with (fun n => if bool_decide (n_id n = i) then node_measure x n else 0) (map_values (nodeTable metric color prs)).
Proof.
  intros H. etransitivity; [exact (links_sum (fun _ t => bool_decide (t = i)) x)|]. rewrite table_node. apply sum_with_ext. intros pr Hp. rewrite <- path_in.
  destruct (path pr) as [|n p] eqn:E; [lia|]. rewrite bool_decide_false; [lia|]. apply (H pr); [done|]. by rewrite E.
Qed.

Lemma table_out i x :
  (forall pr n, pr ∈ prs -> last (path pr) = Some n -> id n <> i) ->
  sum_with (fun l => if bool_decide (source l = i) then link_measure x l else 0) (map_values (linkTable metric color prs))
  = sum_with (fun n => if bool_decide (n_id n = i) then node_measure x n else 0) (map_values (nodeTable metric color prs)).
Proof.
  intros H. etransitivity; [exact (links_sum (fun s _ => bool_decide (s = i)) x)|]. rewrite table_node. apply sum_with_ext. intros pr Hp. rewrite <- path_out.
  destruct (last (path pr)) as [n|] eqn:E; [|lia]. rewrite bool_decide_false; [lia|]. by apply (H pr).
Qed.

(** The entries of the table of nodes. *)
Lemma table_entry n :
  n ∈ map_values (nodeTable metric color prs) ->
  (n_id n, n) ∈ nodeTable metric color prs /\ node_wf (mkNode (n_id n) (n_label n) (n_kind n)) /\ n_kind n ∈ stages.
Proof.
  intros ([k n'] & -> & Hin)%list_elem_of_fmap. cbn.
  destruct (nodeTable_sum metric color stages prs Hwf (fun _ _ => true) XValue) as [_ I _ _]. destruct (I _ _ Hin) as (<- & Hw & Hk). done.
Qed.

Lemma table_single n x :
  n ∈ map_values (nodeTable metric color prs) ->
  sum_with (fun m => if bool_decide (n_id m = n_id n) then node_measure x m else 0) (map_values (nodeTable metric color prs)) = node_measure x n.
Proof.
  intros Hn. destruct (nodeTable_sum metric color stages prs Hwf (fun _ _ => true) XValue) as [D I _ _].
  apply (sum_unique (node_measure x) n_id); [done | | by apply table_entry]. intros k v Hv. by destruct (I k v Hv).
Qed.

(** A node of another kind is not at that end of any path. *)
Lemma kind_not_at n k (e : list FlowPathNode -> option FlowPathNode) :
  (forall p m, e p = Some m -> m ∈ p) -> (forall p m, map kind p = stages -> e p = Some m -> kind m = k) ->
  n ∈ map_values (nodeTable metric color prs) -> n_kind n <> k ->
  forall pr m, pr ∈ prs -> e (path pr) = Some m -> id m <> n_id n.
Proof.
  intros He Hek Hn Hne pr m Hp Hm Hid. destruct (proj1 (Forall_forall _ _) Hwf pr Hp) as [Ek Hw].
  rewrite Forall_forall in Hw. specialize (Hw m (He _ _ Hm)). destruct (table_entry n Hn) as (_ & Hw' & _).
  apply Hne. rewrite <- (Hek _ _ Ek Hm). symmetry. by apply (wf_kind _ _ Hw Hw').
Qed.
End Conservation.

Lemma last_elem {A} (l : list A) x : last l = Some x -> x ∈ l.
Proof. induction l as [|y [|z l] IH]; cbn; [done|intros [= ->]; set_solver|]. intros H. right. by apply IH. Qed.

Lemma last_map {A B} (f : A -> B) l x : last l = Some x -> last (map f l) = Some (f x).
Proof. induction l as [|y [|z l] IH]; cbn; [done|congruence|]. exact IH. Qed.

Lemma NoDup_tail_head {A} (l : list A) a k : NoDup l -> head l = Some a -> k ∈ tail l -> k <> a.
Proof. destruct l; [done|]. cbn. intros [H _]%NoDup_cons [= ->] Hk ->. done. Qed.

Lemma NoDup_init_last {A} (l : list A) a k : NoDup l -> last l = Some a -> k ∈ removelast l -> k <> a.
Proof.
  induction l as [|x [|y l] IH]; [done|set_solver|]. intros [Hx Hd]%NoDup_cons Hl. change (removelast (x :: y :: l)) with (x :: removelast (y :: l)).
  intros [->|Hk]%elem_of_cons; [|by apply IH]. intros ->. apply Hx. by apply last_elem.
Qed.

Lemma summary_sum metric x rows :
  summary_measure metric x (buildSummary rows) = sum_with (fun row => metrics_measure metric x (rowMetrics row)) rows.
Proof.
  unfold buildSummary.
  assert (G : forall s, summary_measure metric x (fold_left (fun s row => let ms := rowMetrics row in
    mkSummary (s_quota s + m_quota ms) (s_tokens s + m_tokens ms) (s_requests s + m_requests ms)) rows s)
    = summary_measure metric x s + sum_with (fun row => metrics_measure metric x (rowMetrics row)) rows).
  { induction rows as [|row rows IH]; intros s; [cbn; rewrite sum_with_nil; lia|]. cbn [fold_left]. rewrite IH, sum_with_cons.
    destruct x, metric; cbn; lia. }
  rewrite G. by destruct x, metric.
Qed.

Lemma aggregate_keeps rows stages ctx sets lab (f : FlowMetrics -> Z) :
  sum_with (fun pr => f (metrics pr)) (preparePaths rows stages ctx sets aggregate lab) = sum_with (fun row => f (rowMetrics row)) rows.
Proof.
  unfold preparePaths. induction rows as [|row rows IH]; [done|]. cbn [omap list_omap].
  assert (E : exists p, applyTopNodeLimit (flowPathForStages row stages ctx) sets aggregate lab = Some p).
  { unfold applyTopNodeLimit. destruct sets; [|by eexists]. case_match; by eexists. }
  destruct E as [p ->]. cbn [fmap option_fmap option_map]. rewrite !sum_with_cons, IH. done.
Qed.

(** ** Conservation in the graph *)
Definition stageTotal (x : Measure) (k : FlowNodeKind) (g : DashboardFlowGraph) : Z :=
  sum_with (node_measure x) (List.filter (fun n => bool_decide (n_kind n = k)) (nodes g)).
Definition inflow (x : Measure) (i : jsstr) (g : DashboardFlowGraph) : Z :=
  sum_with (link_measure x) (List.filter (fun l => bool_decide (target l = i)) (links g)).
Definition outflow (x : Measure) (i : jsstr) (g : DashboardFlowGraph) : Z :=
  sum_with (link_measure x) (List.filter (fun l => bool_decide (source l = i)) (links g)).

Section GraphConservation.
Context (localeCompare : jsstr -> jsstr -> Z) (firstSchemes : list DataScheme) (lastScheme : DataScheme).
Context (rows : list FlowQuotaDataItem) (metric : FlowMetric) (r : FlowRole) (palette : option (list jsstr))
  (visible : option (list FlowNodeKind)) (ctx : FlowPathContext) (options : FlowGraphOptions).
Context (Hclean : Forall (fun row => row_clean row = true) rows).

Let g := buildFlowGraph localeCompare firstSchemes lastScheme rows metric r palette visible ctx options.
Let prs := shownPaths localeCompare rows metric r visible ctx options.
Let color := shownColor localeCompare firstSchemes lastScheme rows metric r palette visible ctx options.
Let stages := resolveVisibleStages r visible.

Lemma shown_wf : Forall (fun pr => path_wf stages (path pr)) prs.
Proof. by apply prepared_wf. Qed.

Lemma graph_cores' :
  map node_core (nodes g) ≡ₚ map node_core (map_values (nodeTable metric color prs)) /\
  map link_core (links g) ≡ₚ map link_core (map_values (linkTable metric color prs)).
Proof. apply graph_cores. Qed.

Lemma graph_node n : n ∈ nodes g -> exists n0, n0 ∈ map_values (nodeTable metric color prs) /\ node_core n0 = node_core n.
Proof.
  intros Hn. assert (Hc : node_core n ∈ map node_core (nodes g)) by (apply list_elem_of_In, in_map; by apply list_elem_of_In).
  rewrite (proj1 graph_cores') in Hc. apply list_elem_of_In, in_map_iff in Hc as (n0 & E & H0). exists n0. by rewrite list_elem_of_In.
Qed.

Lemma graph_stage x k : k ∈ stages -> stageTotal x k g = sum_with (fun pr => metrics_measure metric x (metrics pr)) prs.
Proof.
  intros Hk. unfold stageTotal. rewrite sum_with_filter.
  etransitivity; [exact (node_sums (fun _ k' => bool_decide (k' = k)) x _ _ (proj1 graph_cores'))|].
  apply (table_stage metric color stages prs shown_wf); [apply stages_NoDup | done].
Qed.

Lemma graph_in x n : n ∈ nodes g -> n_kind n ∈ tail stages -> inflow x (n_id n) g = node_measure x n.
Proof.
  intros Hn Hk. destruct (graph_node n Hn) as (n0 & H0 & E). destruct (node_core_measure x n0 n E) as (Ei & Ek & <-). rewrite <- Ei.
  unfold inflow. rewrite sum_with_filter. etransitivity; [exact (link_sums (fun _ t => bool_decide (t = n_id n0)) x _ _ (proj2 graph_cores'))|].
  etransitivity; [apply (table_in metric color stages prs shown_wf)|by apply (table_single metric color stages prs shown_wf)].
  destruct (head stages) as [a|] eqn:Ea; [|exfalso; revert Hk Ea; generalize stages as l; intros [|? ?] Hk; [by apply elem_of_nil in Hk | done]].
  apply (kind_not_at metric color stages prs shown_wf n0 a head); [intros [|? ?] m; set_solver | | done |].
  - intros [|m' p] m Ep; [done|]. cbn. intros [= ->]. rewrite <- Ep in Ea. by injection Ea.
  - rewrite Ek. eapply NoDup_tail_head; [apply stages_NoDup | exact Ea | exact Hk].
Qed.

Lemma graph_out x n : n ∈ nodes g -> n_kind n ∈ removelast stages -> outflow x (n_id n) g = node_measure x n.
Proof.
  intros Hn Hk. destruct (graph_node n Hn) as (n0 & H0 & E). destruct (node_core_measure x n0 n E) as (Ei & Ek & <-). rewrite <- Ei.
  unfold outflow. rewrite sum_with_filter. etransitivity; [exact (link_sums (fun s _ => bool_decide (s = n_id n0)) x _ _ (proj2 graph_cores'))|].
  etransitivity; [apply (table_out metric color stages prs shown_wf)|by apply (table_single metric color stages prs shown_wf)].
  destruct (last stages) as [a|] eqn:Ea; [|by apply last_None in Ea; rewrite Ea in Hk; apply elem_of_nil in Hk].
  apply (kind_not_at metric color stages prs shown_wf n0 a last); [apply last_elem | | done |].
  - intros p m Ep Hl. apply (last_map kind) in Hl. rewrite Ep in Hl. congruence.
  - rewrite Ek. eapply NoDup_init_last; [apply stages_NoDup | exact Ea | exact Hk].
Qed.
End GraphConservation.

(** The rows behind the graph are rows of the input. *)
Lemma filtered_subset rows us sel stages ctx row :
  row ∈ filterRowsByNodes (filterRows rows us) sel stages ctx -> row ∈ rows.
Proof.
  unfold filterRowsByNodes, filterRows.
  assert (F : forall (p : FlowQuotaDataItem -> bool) l, row ∈ List.filter p l -> row ∈ l).
  { intros p l H. apply list_elem_of_In, filter_In in H as [H _]. by apply list_elem_of_In. }
  case_match; case_match; eauto.
Qed.


(** ** Lemmas: the nodes kept by the limit *)
Lemma fold_set_get {K V W} `{EqDecision K} (F : V -> W) (T : list (K * V)) (m0 : list (K * W)) k :
  NoDup (map_keys T) ->
  map_get k (fold_left (fun m kv => map_set kv.1 (F kv.2) m) T m0)
  = match map_get k T with Some v => Some (F v) | None => map_get k m0 end.
Proof.
  unfold map_keys. revert m0. induction T as [|[k1 v1] T IH]; intros m0; [done|]. csimpl. intros [Hn Hd]%NoDup_cons.
  rewrite IH by done. rewrite map_get_set. case_bool_decide as E; [|done]. subst.
  by rewrite (proj2 (map_get_None k1 T) Hn).
Qed.

Section TopNodes.
Context (localeCompare : jsstr -> jsstr -> Z).
Context (rows : list FlowQuotaDataItem) (metric : FlowMetric) (stages : list FlowNodeKind) (ctx : FlowPathContext).
Context (Hnd : NoDup stages).

Definition rowNode (k : FlowNodeKind) (row : FlowQuotaDataItem) : FlowPathNode := NODE_BUILDERS k row ctx.
Definition rowValue (row : FlowQuotaDataItem) : Z := metricValue (rowMetrics row) metric.

(** What the rows give to the node [i] of kind [k]. *)
Definition nodeTotal (k : FlowNodeKind) (i : jsstr) : Z :=
  sum_with (fun row => if bool_decide (id (rowNode k row) = i) then rowValue row else 0) rows.

Definition rankTable (k : FlowNodeKind) (l : list FlowQuotaDataItem) (m : list (jsstr * FlowNodeRank)) : list (jsstr * FlowNodeRank) :=
  fold_left (fun m row => addRank (id (rowNode k row)) (rowNode k row) (rowValue row) m) l m.

Definition pathStep (row : FlowQuotaDataItem) (totals : list (FlowNodeKind * list (jsstr * FlowNodeRank))) (n : FlowPathNode) :=
  match map_get (kind n) totals with
  | None => totals
  | Some st => map_set (kind n) (addRank (id n) n (rowValue row) st) totals
  end.

Lemma pathStep_keys row totals n : map_keys (pathStep row totals n) = map_keys totals.
Proof.
  unfold pathStep. destruct (map_get (kind n) totals) eqn:E; [|done]. rewrite map_keys_set, bool_decide_true; [done|].
  apply elem_of_map_keys. eauto.
Qed.

Lemma path_steps row ss totals k :
  NoDup ss ->
  map_get k (fold_left (pathStep row) (flowPathForStages row ss ctx) totals)
  = if bool_decide (k ∈ ss) then addRank (id (rowNode k row)) (rowNode k row) (rowValue row) <$> map_get k totals else map_get k totals.
Proof.
  unfold flowPathForStages. revert totals. induction ss as [|s ss IH]; intros totals; [done|]. intros [Hs Hd]%NoDup_cons. cbn [map fold_left].
  rewrite IH by done. unfold pathStep. rewrite builder_kind. destruct (decide (k = s)) as [->|N].
  - rewrite (bool_decide_false (s ∈ ss)), (bool_decide_true (s ∈ s :: ss)) by set_solver.
    destruct (map_get s totals) eqn:E; [by rewrite map_get_set_eq | done].
  - assert (Eg : map_get k (match map_get s totals with None => totals
        | Some st => map_set s (addRank (id (NODE_BUILDERS s row ctx)) (NODE_BUILDERS s row ctx) (rowValue row) st) totals end) = map_get k totals)
      by (destruct (map_get s totals); [by rewrite map_get_set_ne | done]).
    rewrite Eg. rewrite (bool_decide_ext (k ∈ s :: ss) (k ∈ ss)) by set_solver. done.
Qed.

Lemma stageTotals_get k : k ∈ stages -> map_get k (stageTotals rows metric stages ctx) = Some (rankTable k rows []).
Proof.
  intros Hk. unfold stageTotals.
  assert (G : forall l totals m, map_get k totals = Some m ->
    map_get k (fold_left (fun totals row => fold_left (pathStep row) (flowPathForStages row stages ctx) totals) l totals) = Some (rankTable k l m)).
  { induction l as [|row l IH]; intros totals m Hm; [done|]. cbn [fold_left rankTable]. apply IH.
    rewrite path_steps by done. by rewrite bool_decide_true, Hm by done. }
  apply G. assert (I : forall m0, map_get k (fold_left (fun m stage => map_set stage ([] : list (jsstr * FlowNodeRank)) m) stages m0) = Some []).
  { clear - Hk. induction stages as [|s ss IH]; [set_solver|]. intros m0. cbn [fold_left]. destruct (decide (k ∈ ss)); [by apply IH|].
    apply elem_of_cons in Hk as [->|]; [|done].
    assert (J : forall m1, map_get s (fold_left (fun m stage => map_set stage ([] : list (jsstr * FlowNodeRank)) m) ss m1) = map_get s m1).
    { clear IH. induction ss as [|t ss IH]; intros m1; [done|]. cbn [fold_left]. rewrite IH by set_solver. rewrite map_get_set_ne by set_solver. done. }
    by rewrite J, map_get_set_eq. }
  apply I.
Qed.

Lemma stageTotals_NoDup : NoDup (map_keys (stageTotals rows metric stages ctx)).
Proof.
  unfold stageTotals.
  assert (G : forall l totals, NoDup (map_keys totals) ->
    NoDup (map_keys (fold_left (fun totals row => fold_left (pathStep row) (flowPathForStages row stages ctx) totals) l totals))).
  { induction l as [|row l IH]; intros totals H; [done|]. cbn [fold_left]. apply IH.
    generalize (flowPathForStages row stages ctx) as p. induction p as [|n p IHp] using rev_ind; [done|].
    rewrite fold_left_app. cbn [fold_left]. by rewrite pathStep_keys. }
  apply G. clear. assert (I : forall ss (m0 : list (FlowNodeKind * list (jsstr * FlowNodeRank))), NoDup (map_keys m0) ->
    NoDup (map_keys (fold_left (fun m stage => map_set stage [] m) ss m0))).
  { induction ss as [|s ss IH]; intros m0 H; [done|]. apply IH. by apply NoDup_map_set. }
  apply I. constructor.
Qed.

Definition topIds (l : Z) (k : FlowNodeKind) : list jsstr :=
  set_of_list (map (fun rk => id (rnode rk)) (take (Z.to_nat l) (js_sort (byRank localeCompare) (map_values (rankTable k rows []))))).

Lemma topSets_get l k :
  0 < l -> k ∈ stages ->
  exists sets, buildTopNodeSets localeCompare rows metric stages (Some l) ctx = Some sets /\ map_get k sets = Some (topIds l k).
Proof.
  intros Hl Hk. unfold buildTopNodeSets. rewrite (proj2 (Z.eqb_neq l 0)) by lia. eexists. split; [reflexivity|].
  rewrite (fold_set_get (fun t => set_of_list (map (fun rk => id (rnode rk)) (take (Z.to_nat l) (js_sort (byRank localeCompare) (map_values t)))))).
  - by rewrite stageTotals_get.
  - apply stageTotals_NoDup.
Qed.

Lemma rankTable_spec k i :
  accumulated (fun row => id (rowNode k row)) (fun key r => id (rnode r) = key)
    (fun r => if bool_decide (id (rnode r) = i) then rvalue r else 0)
    (fun row => if bool_decide (id (rowNode k row) = i) then rowValue row else 0) rows [] (rankTable k rows []).
Proof.
  apply (accum_fold (fun row => id (rowNode k row)) (fun row => mkRank (rowNode k row) 0)
    (fun row r => mkRank (rnode r) (rvalue r + rowValue row))); [| |constructor|set_solver].
  - intros row _. split; [done|]. cbn. by case_bool_decide.
  - intros row r _ E. split; [done|]. cbn [rnode rvalue]. rewrite E. case_bool_decide; lia.
Qed.

Lemma rank_total k key r : (key, r) ∈ rankTable k rows [] -> id (rnode r) = key /\ rvalue r = nodeTotal k key.
Proof.
  intros H. destruct (rankTable_spec k key) as [D I S _]. split; [by apply I|].
  rewrite (sum_unique rvalue (fun r => id (rnode r)) _ key r D I H) in S. cbn in S. exact S.
Qed.

Lemma set_of_list_length {A} `{EqDecision A} (l : list A) : (length (set_of_list l) <= length l)%nat.
Proof.
  unfold set_of_list. assert (G : forall s, (length (fold_left (fun s x => set_add x s) l s) <= length s + length l)%nat).
  { induction l as [|x l IH]; intros s; cbn [fold_left length]; [lia|]. etransitivity; [apply IH|].
    unfold set_add. case_match; [lia|]. rewrite length_app. cbn. lia. }
  apply (G []).
Qed.

Lemma topIds_length l k : 0 < l -> (length (topIds l k) <= Z.to_nat l)%nat.
Proof. intros Hl. unfold topIds. etransitivity; [apply set_of_list_length|]. rewrite length_map, length_take. lia. Qed.

Context `{HL : !SignComparator localeCompare}.

#[local] Instance byValue_sign {A} (f : A -> Z) : SignComparator (byValue f).
Proof. split; unfold byValue; intros; lia. Qed.
#[local] Instance byText_sign {A} (f : A -> jsstr) : SignComparator (byText localeCompare f).
Proof. split; unfold byText; intros; [apply sign_sym | by eapply sign_trans]. Qed.

(** A node left out by the limit carries no more than any node kept. *)
Lemma topIds_dominate l k i row :
  i ∈ topIds l k -> row ∈ rows -> id (rowNode k row) ∉ topIds l k -> nodeTotal k (id (rowNode k row)) <= nodeTotal k i.
Proof.
  unfold topIds. rewrite !elem_of_set_of_list. set (s := js_sort _ _). intros Hi Hr Hj.
  assert (Hsort : StronglySorted (fun a b => byRank localeCompare a b <= 0) s).
  { apply StronglySorted_js_sort. unfold byRank. apply SignComparator_Comparator. apply _. }
  assert (Hs : forall rk, rk ∈ s -> exists key, (key, rk) ∈ rankTable k rows []).
  { intros rk Hrk. unfold s in Hrk. rewrite elem_of_js_sort in Hrk. apply list_elem_of_fmap in Hrk as ([key rk'] & -> & H). by exists key. }
  assert (Hin : exists rk, rk ∈ s /\ id (rnode rk) = id (rowNode k row)).
  { destruct (rankTable_spec k []) as [D I _ Ks]. assert (Hk : id (rowNode k row) ∈ map_keys (rankTable k rows [])).
    { apply Ks. right. apply list_elem_of_In. apply (in_map (fun row => id (rowNode k row))). by apply list_elem_of_In. }
    apply elem_of_map_keys in Hk as [rk Hg]. apply map_get_Some_elem in Hg. exists rk. split; [|by apply I].
    unfold s. rewrite elem_of_js_sort. apply list_elem_of_fmap. by exists (id (rowNode k row), rk). }
  destruct Hin as (rj & Hrj & Ej). apply list_elem_of_In, in_map_iff in Hi as (ri & Ei & Hri). apply list_elem_of_In in Hri.
  assert (Hd : rj ∈ drop (Z.to_nat l) s).
  { rewrite <- (take_drop (Z.to_nat l) s), elem_of_app in Hrj. destruct Hrj as [H|H]; [|done]. exfalso. apply Hj. rewrite <- Ej.
    apply list_elem_of_In. apply (in_map (fun rk => id (rnode rk))). by apply list_elem_of_In. }
  assert (Hle : byRank localeCompare ri rj <= 0).
  { rewrite <- (take_drop (Z.to_nat l) s) in Hsort. apply StronglySorted_app in Hsort as (Hc & _ & _). by apply Hc. }
  assert (Hv : rvalue rj <= rvalue ri).
  { revert Hle. unfold byRank, cmp_or at 1, byValue. destruct (Z.eqb_spec (rvalue rj - rvalue ri) 0); lia. }
  destruct (Hs ri) as [ki Hki]; [rewrite <- (take_drop (Z.to_nat l) s); set_solver|]. destruct (Hs rj Hrj) as [kj Hkj].
  destruct (rank_total k ki ri Hki) as [Ki Vi]. destruct (rank_total k kj rj Hkj) as [Kj Vj].
  rewrite <- Ei, <- Ej, Ki, Kj, <- Vi, <- Vj. done.
Qed.
End TopNodes.

(** ** Lemmas: the nodes of the graph *)
Section GraphNodes.
Context (localeCompare : jsstr -> jsstr -> Z) (firstSchemes : list DataScheme) (lastScheme : DataScheme).
Context (rows : list FlowQuotaDataItem) (metric : FlowMetric) (r : FlowRole) (palette : option (list jsstr))
  (visible : option (list FlowNodeKind)) (ctx : FlowPathContext) (options : FlowGraphOptions).
Context (Hclean : Forall (fun row => row_clean row = true) rows).

Let g := buildFlowGraph localeCompare firstSchemes lastScheme rows metric r palette visible ctx options.
Let prs := shownPaths localeCompare rows metric r visible ctx options.
Let color := shownColor localeCompare firstSchemes lastScheme rows metric r palette visible ctx options.
Let stages := resolveVisibleStages r visible.

Lemma table_ids : map n_id (map_values (nodeTable metric color prs)) = map_keys (nodeTable metric color prs).
Proof.
  destruct (nodeTable_sum metric color stages prs (shown_wf localeCompare rows metric r visible ctx options Hclean) (fun _ _ => true) XValue)
    as [_ I _ _]. unfold map_values, map_keys. revert I. generalize (nodeTable metric color prs) as m.
  induction m as [|[k n] m IH]; intros I; [done|]. csimpl. f_equal; [|apply IH; intros; apply I; set_solver].
  by destruct (I k n) as [-> _]; [set_solver|].
Qed.

Lemma graph_ids_NoDup : NoDup (map n_id (nodes g)).
Proof.
  assert (E : map n_id (nodes g) ≡ₚ map n_id (map_values (nodeTable metric color prs))).
  { destruct (graph_cores localeCompare firstSchemes lastScheme rows metric r palette visible ctx options) as [P _].
    assert (F : forall l, map n_id l = map (fun c : jsstr * FlowNodeKind * Z * Z * Z * Z => c.1.1.1.1.1) (map node_core l)) by (intros l; by rewrite map_map).
    rewrite !F. apply Permutation_map. exact P. }
  rewrite E, table_ids.
  by destruct (nodeTable_sum metric color stages prs (shown_wf localeCompare rows metric r visible ctx options Hclean) (fun _ _ => true) XValue).
Qed.

(** Every node of the graph is on a path, with its identifier and kind. *)
Lemma graph_node_path n : n ∈ nodes g -> exists pr m, pr ∈ prs /\ m ∈ path pr /\ id m = n_id n /\ kind m = n_kind n.
Proof.
  intros Hn. pose proof (shown_wf localeCompare rows metric r visible ctx options Hclean) as Hwf.
  destruct (graph_node localeCompare firstSchemes lastScheme rows metric r palette visible ctx options n Hn) as (n0 & H0 & E).
  destruct (node_core_measure XValue n0 n E) as (<- & <- & _).
  destruct (nodeTable_sum metric color stages prs Hwf (fun _ _ => true) XValue) as [_ _ _ Ks].
  destruct (table_entry metric color stages prs Hwf n0 H0) as (Hin & Hw & _).
  assert (Hk : n_id n0 ∈ map_keys (nodeTable metric color prs)) by (apply list_elem_of_fmap; by exists (n_id n0, n0)).
  apply Ks in Hk as [Hk|Hk]; [by apply elem_of_nil in Hk|]. apply list_elem_of_In, in_map_iff in Hk as (e & Ee & He).
  apply list_elem_of_In in He. destruct (nodeEvents_wf color stages prs Hwf e He) as [Hwe _].
  apply list_elem_of_In, in_concat in He as (l & (pr & <- & Hp)%in_map_iff & (m & <- & Hm)%in_map_iff).
  apply list_elem_of_In in Hp, Hm. exists pr, m. split_and!; [done | done | done |]. by apply (wf_kind m (mkNode (n_id n0) (n_label n0) (n_kind n0))).
Qed.

(** A node of a shown path is one of the top nodes, or stands for the others. *)
Lemma shown_top l k pr m :
  normalizeTopNodeLimit (topNodeLimit options) = Some l -> 0 < l -> k ∈ stages -> pr ∈ prs -> m ∈ path pr -> kind m = k ->
  id m ∈ topIds localeCompare rows metric ctx l k \/
  (id m = OTHER_FLOW_NODE_IDS k /\ default DEFAULT_FLOW_OVERFLOW_MODE (overflowMode options) = aggregate).
Proof.
  intros El Hl Hk Hp Hm Hkm. unfold prs, shownPaths in Hp. fold stages in Hp. rewrite El in Hp.
  destruct (topSets_get localeCompare rows metric stages ctx (stages_NoDup r visible) l k Hl Hk) as (sets & Es & Eg). rewrite Es in Hp.
  unfold preparePaths in Hp. apply list_elem_of_omap in Hp as (row & _ & Ep).
  destruct (applyTopNodeLimit _ _ _ _) as [p|] eqn:Ea; [|done]. cbn in Ep. injection Ep as <-. cbn [path] in Hm.
  assert (Ht : forall x, isTopFlowNode x (Some sets) = true -> kind x = k -> id x ∈ topIds localeCompare rows metric ctx l k).
  { intros x Hx Ex. unfold isTopFlowNode in Hx. rewrite Ex, Eg in Hx. by apply bool_decide_eq_true in Hx. }
  unfold applyTopNodeLimit in Ea. destruct (negb (existsb _ _)) eqn:Eo.
  - injection Ea as <-. left. apply Ht; [|done]. apply negb_true_iff in Eo.
    destruct (isTopFlowNode m (Some sets)) eqn:Em; [done|]. exfalso. apply not_true_iff_false in Eo. apply Eo, existsb_exists.
    exists m. rewrite Em. split; [by apply list_elem_of_In | done].
  - destruct (default _ _); [|done]. match type of Ea with Some ?q = _ => assert (Eq : p = q) by congruence end. clear Ea. subst p. apply list_elem_of_In, in_map_iff in Hm as (x & Ex & Hx).
    destruct (isTopFlowNode x (Some sets)) eqn:Et; subst m.
    + left. exact (Ht x Et Hkm).
    + right. cbn [otherFlowNode kind id] in Hkm |- *. by rewrite Hkm.
Qed.
End GraphNodes.

(** ** Lemmas: flags and labels *)
Definition nodeFlags (n : DashboardFlowNode) : option bool * option bool := (n_highlighted n, n_dimmed n).
Definition linkFlags (l : DashboardFlowLink) : option bool * option bool := (l_highlighted l, l_dimmed l).
Definition flagsFor (h : option bool) : option bool * option bool := (h, negb <$> h).

(** Every node of the table is unflagged, and so is every link. *)
Lemma nodeTable_flags metric color prs n : n ∈ map_values (nodeTable metric color prs) -> nodeFlags n = (None, None).
Proof.
  intros ([k n'] & -> & Hin)%list_elem_of_fmap. revert Hin. unfold nodeTable. generalize (concat (map (nodeEvents color) prs)) as es.
  intros es. cbn [snd].
  destruct (accum_fold (fun e => id (ne_node e)) (fun e => newNode (ne_node e) (ne_color e) (ne_key e)) (fun e => addMetrics (ne_ms e) metric)
    (fun _ n => nodeFlags n = (None, None)) (fun _ => 0) (fun _ => 0) es []) as [_ I _ _]; [done | done | constructor | set_solver | apply I].
Qed.

Lemma linkTable_flags metric color prs l : l ∈ map_values (linkTable metric color prs) -> linkFlags l = (None, None).
Proof.
  intros ([k l'] & -> & Hin)%list_elem_of_fmap. revert Hin. unfold linkTable. generalize (concat (map (linkEvents color) prs)) as es.
  intros es. cbn [snd].
  destruct (accum_fold (fun e => pathLinkKey (le_src e) (le_tgt e)) (fun e => newLink (le_src e) (le_tgt e) (le_color e) (le_key e))
    (fun e => addLinkMetrics (le_ms e) metric)
    (fun _ l => linkFlags l = (None, None)) (fun _ => 0) (fun _ => 0) es []) as [_ I _ _]; [done | done | constructor | set_solver | apply I].
Qed.

(** What the display adds to a link leaves its ends, labels and flags. *)
Lemma display_link localeCompare total ls l :
  l ∈ assignLinkDisplayColors localeCompare (map (setShare total) ls) ->
  exists l0, l0 ∈ ls /\ link_core l = link_core l0 /\ linkFlags l = linkFlags l0 /\ sourceLabel l = sourceLabel l0 /\ targetLabel l = targetLabel l0.
Proof.
  unfold assignLinkDisplayColors. rewrite list_elem_of_In. intros (l1 & <- & H1)%in_map_iff. apply in_map_iff in H1 as (l0 & <- & H0).
  exists l0. split; [by apply list_elem_of_In|]. by case_match.
Qed.

Definition onSets {A} (h : option A) (f : A -> bool) : option bool := f <$> h.

Section GraphFlags.
Context (localeCompare : jsstr -> jsstr -> Z) (firstSchemes : list DataScheme) (lastScheme : DataScheme).
Context (rows : list FlowQuotaDataItem) (metric : FlowMetric) (r : FlowRole) (palette : option (list jsstr))
  (visible : option (list FlowNodeKind)) (ctx : FlowPathContext) (options : FlowGraphOptions).

Let g := buildFlowGraph localeCompare firstSchemes lastScheme rows metric r palette visible ctx options.
Let prs := shownPaths localeCompare rows metric r visible ctx options.
Let color := shownColor localeCompare firstSchemes lastScheme rows metric r palette visible ctx options.
Let sets := buildFlowHighlightSets prs (activeNode options) (activeLink options) (resolveVisibleStages r visible).
Let masked := if maskSensitive options then maskFlowGraphLabels (nodeTable metric color prs) (linkTable metric color prs)
              else (nodeTable metric color prs, linkTable metric color prs).

Lemma graph_eq :
  exists total,
    nodes g = js_sort (byValueThenLabel localeCompare) (map_values (applyFlowHighlights masked.1 masked.2 sets).1) /\
    links g = assignLinkDisplayColors localeCompare (map (setShare total)
      (js_sort (cmp_or (byText localeCompare source) (byText localeCompare target)) (map_values (applyFlowHighlights masked.1 masked.2 sets).2))).
Proof.
  unfold g, buildFlowGraph. fold (shownPaths localeCompare rows metric r visible ctx options). cbv zeta. rewrite addPath_tables.
  fold (shownColor localeCompare firstSchemes lastScheme rows metric r palette visible ctx options).
  change (if maskSensitive options then _ else _) with masked. destruct masked as [ns1 ls1]. cbn [fst snd].
  change (buildFlowHighlightSets _ _ _ _) with sets. destruct (applyFlowHighlights ns1 ls1 sets) as [ns2 ls2]. eexists. split; reflexivity.
Qed.

(** A node of the graph comes from an entry of the table. *)
Lemma graph_node_entry n :
  n ∈ nodes g -> exists n0, n0 ∈ map_values (nodeTable metric color prs) /\ node_core n = node_core n0 /\
    n_label n = (if maskSensitive options && maskable n0 then maskFlowLabel (n_label n0) else n_label n0) /\
    nodeFlags n = flagsFor (onSets sets (fun h => set_has (n_id n) (hnodes h))).
Proof.
  destruct graph_eq as (total & -> & _). rewrite elem_of_js_sort.
  assert (E : (exists n1, n1 ∈ map_values masked.1 /\ node_core n = node_core n1 /\ n_label n = n_label n1 /\
      nodeFlags n = match sets with None => nodeFlags n1 | Some h => flagsFor (Some (set_has (n_id n1) (hnodes h))) end) ->
    exists n0, n0 ∈ map_values (nodeTable metric color prs) /\ node_core n = node_core n0 /\
      n_label n = (if maskSensitive options && maskable n0 then maskFlowLabel (n_label n0) else n_label n0) /\
      nodeFlags n = flagsFor (onSets sets (fun h => set_has (n_id n) (hnodes h)))).
  { intros (n1 & H1 & Ec & El & Ef). destruct (node_core_measure XValue n n1 Ec) as (Ei & _ & _).
    assert (Em : exists n0, n0 ∈ map_values (nodeTable metric color prs) /\ node_core n1 = node_core n0 /\ nodeFlags n1 = nodeFlags n0 /\
      n_label n1 = (if maskSensitive options && maskable n0 then maskFlowLabel (n_label n0) else n_label n0)).
    { unfold masked in H1. destruct (maskSensitive options); [|by exists n1].
      assert (H2 : n1 ∈ map (fun n => if maskable n then setLabel (maskFlowLabel (n_label n)) n else n) (map_values (nodeTable metric color prs))).
      { rewrite <- values_on_values. unfold maskFlowGraphLabels in H1. cbv zeta in H1. by destruct (fold_left _ _ _). }
      apply list_elem_of_In, in_map_iff in H2 as (n0 & <- & H0). exists n0. split; [by apply list_elem_of_In|]. cbn [andb]. by destruct (maskable n0). }
    destruct Em as (n0 & H0 & Ec' & Ef' & El'). exists n0. split_and!; [done | congruence | congruence |].
    rewrite Ef, <- Ei. destruct sets as [h|]; [done|]. rewrite Ef'. by apply nodeTable_flags in H0. }
  intros Hn. apply E. clear E. destruct sets as [h|]; cbn [applyFlowHighlights fst] in Hn; [|by exists n].
  rewrite values_on_values in Hn. apply list_elem_of_In, in_map_iff in Hn as (n1 & <- & H1). exists n1. by rewrite list_elem_of_In.
Qed.

(** A link of the graph comes from an entry of the table; masking changes its labels only. *)
Lemma graph_link_entry l :
  l ∈ links g -> exists l1 l0, l1 ∈ map_values masked.2 /\ l0 ∈ map_values (linkTable metric color prs) /\
    link_core l = link_core l0 /\ source l1 = source l /\ target l1 = target l /\ sourceLabel l = sourceLabel l1 /\ targetLabel l = targetLabel l1 /\
    linkFlags l = flagsFor (onSets sets (fun h => set_has (linkStableKey l) (hlinks h))).
Proof.
  destruct graph_eq as (total & _ & ->). intros (l2 & H2 & Ec & Ef & Es & Et)%display_link. rewrite elem_of_js_sort in H2.
  assert (E : exists l1, l1 ∈ map_values masked.2 /\ link_core l2 = link_core l1 /\ sourceLabel l2 = sourceLabel l1 /\ targetLabel l2 = targetLabel l1 /\
      linkFlags l2 = match sets with None => linkFlags l1 | Some h => flagsFor (Some (set_has (linkStableKey l1) (hlinks h))) end).
  { destruct sets as [h|]; cbn [applyFlowHighlights snd] in H2; [|by exists l2].
    rewrite values_on_values in H2. apply list_elem_of_In, in_map_iff in H2 as (l1 & <- & H1). exists l1. by rewrite list_elem_of_In. }
  destruct E as (l1 & H1 & Ec1 & Es1 & Et1 & Ef1).
  assert (Em : exists l0, l0 ∈ map_values (linkTable metric color prs) /\ link_core l1 = link_core l0 /\ linkFlags l1 = linkFlags l0).
  { unfold masked in H1. destruct (maskSensitive options); [|by exists l1]. unfold maskFlowGraphLabels in H1. cbv zeta in H1.
    destruct (fold_left _ _ _); cbn [snd] in H1; [by exists l1|]. rewrite values_on_values in H1.
    apply list_elem_of_In, in_map_iff in H1 as (l0 & <- & H0). exists l0. by rewrite list_elem_of_In. }
  destruct Em as (l0 & H0 & Ec0 & Ef0).
  assert (Ecl : link_core l = link_core l1) by congruence. assert (Ek : source l1 = source l /\ target l1 = target l) by (unfold link_core in Ecl; by simplify_eq).
  exists l1, l0. split_and!; try congruence; try done; try apply Ek.
  rewrite Ef, Ef1. unfold linkStableKey. destruct Ek as [-> ->]. destruct sets as [h|]; [done|]. rewrite Ef0. by apply linkTable_flags in H0.
Qed.
End GraphFlags.

(** The sets of the active paths. *)
Definition activeOn (active : option FlowNodeFilter) (link : option FlowLinkSelection) (stages : list FlowNodeKind) : bool :=
  match link with Some _ => true | None => match active with Some f => bool_decide (fkind f ∈ stages) | None => false end end.

Definition activePath (options : FlowGraphOptions) (pr : PreparedFlowPath) : Prop :=
  matchesPath (activeNode options) (activeLink options) (path pr) = true.

Lemma matches_nonempty active link p : matchesPath active link p = true -> p <> [].
Proof. intros H ->. destruct link, active; done. Qed.

Lemma highlight_fold active link prs h0 :
  let h := fold_left (fun h pr =>
      if negb (matchesPath active link (path pr)) then h
      else mkHigh (fold_left (fun s n => set_add (id n) s) (path pr) (hnodes h))
                  (fold_left (fun s st => set_add (pathLinkKey st.1 st.2) s) (pairs (path pr)) (hlinks h))) prs h0 in
  (forall i, i ∈ hnodes h <-> i ∈ hnodes h0 \/ exists pr m, pr ∈ prs /\ matchesPath active link (path pr) = true /\ m ∈ path pr /\ id m = i) /\
  (forall i, i ∈ hlinks h <-> i ∈ hlinks h0 \/ exists pr s t, pr ∈ prs /\ matchesPath active link (path pr) = true /\ (s, t) ∈ pairs (path pr) /\ pathLinkKey s t = i).
Proof.
  assert (F : forall {A} (f : A -> jsstr) l s i, i ∈ fold_left (fun s x => set_add (f x) s) l s <-> i ∈ s \/ exists x, x ∈ l /\ f x = i).
  { intros A f l. induction l as [|x l IH]; intros s i; cbn [fold_left]; [set_solver|]. rewrite IH, elem_of_set_add. set_solver. }
  revert h0. induction prs as [|pr prs IH]; intros h0 h; [set_solver|]. unfold h. cbn [fold_left]. clear h.
  destruct (matchesPath active link (path pr)) eqn:Em; cbn [negb].
  - destruct (IH (mkHigh (fold_left (fun s n => set_add (id n) s) (path pr) (hnodes h0))
      (fold_left (fun s st => set_add (pathLinkKey st.1 st.2) s) (pairs (path pr)) (hlinks h0)))) as [N L].
    split; intros i; [rewrite N | rewrite L]; cbn [hnodes hlinks]; rewrite F; clear - Em.
    + split; [intros [[H|(x & Hx & <-)] | (pr' & m & H)] | intros [H|(pr' & m & Hp & H)]]; [by left | right; exists pr, x; set_solver | right; exists pr', m; set_solver | by left; left |].
      apply elem_of_cons in Hp as [->|Hp]; [left; right; exists m; set_solver | right; exists pr', m; set_solver].
    + split; [intros [[H|([s t] & Hx & <-)] | (pr' & s & t & H)] | intros [H|(pr' & s & t & Hp & H)]]; [by left | right; exists pr, s, t; set_solver | right; exists pr', s, t; set_solver | by left; left |].
      apply elem_of_cons in Hp as [->|Hp]; [left; right; exists (s, t); set_solver | right; exists pr', s, t; set_solver].
  - destruct (IH h0) as [N L]. split; intros i; [rewrite N | rewrite L]; clear - Em.
    + split; (intros [H|(pr' & m & Hp & H)]; [by left | right; exists pr', m]); [set_solver|]. apply elem_of_cons in Hp as [->|Hp]; [destruct H; congruence | done].
    + split; (intros [H|(pr' & s & t & Hp & H)]; [by left | right; exists pr', s, t]); [set_solver|]. apply elem_of_cons in Hp as [->|Hp]; [destruct H; congruence | done].
Qed.

Lemma highlight_sets active link prs stages :
  match buildFlowHighlightSets prs active link stages with
  | None => activeOn active link stages = false \/ forall pr, pr ∈ prs -> matchesPath active link (path pr) = false
  | Some h =>
      activeOn active link stages = true /\ (exists pr, pr ∈ prs /\ matchesPath active link (path pr) = true) /\
      (forall i, i ∈ hnodes h <-> exists pr m, pr ∈ prs /\ matchesPath active link (path pr) = true /\ m ∈ path pr /\ id m = i) /\
      (forall i, i ∈ hlinks h <-> exists pr s t, pr ∈ prs /\ matchesPath active link (path pr) = true /\ (s, t) ∈ pairs (path pr) /\ pathLinkKey s t = i)
  end.
Proof.
  unfold buildFlowHighlightSets. cbv zeta.
  assert (Eo : negb match active with Some f => bool_decide (fkind f ∈ stages) | None => false end && match link with None => true | Some _ => false end
    = negb (activeOn active link stages)) by (unfold activeOn; destruct link; [by rewrite andb_false_r | by rewrite andb_true_r]).
  rewrite Eo. destruct (activeOn active link stages); cbn [negb]; [|by left].
  destruct (highlight_fold active link prs (mkHigh [] [])) as [N L]. cbv zeta in N, L. revert N L.
  set (h := fold_left _ prs _). intros N L. cbn [hnodes hlinks] in N, L. destruct (hnodes h) as [|i0 iz] eqn:Eh.
  - right. intros pr Hp. apply not_true_iff_false. intros Hm. destruct (path pr) as [|m p] eqn:Epath; [by apply matches_nonempty in Hm|].
    assert (Hi : id m ∈ ([] : list jsstr)); [|by apply elem_of_nil in Hi]. apply N. right. exists pr, m. rewrite Epath. set_solver.
  - assert (N' : forall i, i ∈ hnodes h <-> exists pr m, pr ∈ prs /\ matchesPath active link (path pr) = true /\ m ∈ path pr /\ id m = i).
    { intros i. rewrite Eh, N. set_solver. }
    split_and!; [done | | done | intros i; rewrite L; set_solver].
    destruct (proj1 (N' i0)) as (pr & m & Hp & Hm & _); [rewrite Eh; set_solver | by exists pr].
Qed.

(** Links of the graph are steps of its paths, and ends of links are nodes. *)
Section GraphLinks.
Context (localeCompare : jsstr -> jsstr -> Z) (firstSchemes : list DataScheme) (lastScheme : DataScheme).
Context (rows : list FlowQuotaDataItem) (metric : FlowMetric) (r : FlowRole) (palette : option (list jsstr))
  (visible : option (list FlowNodeKind)) (ctx : FlowPathContext) (options : FlowGraphOptions).
Context (Hclean : Forall (fun row => row_clean row = true) rows).

Let g := buildFlowGraph localeCompare firstSchemes lastScheme rows metric r palette visible ctx options.
Let prs := shownPaths localeCompare rows metric r visible ctx options.
Let color := shownColor localeCompare firstSchemes lastScheme rows metric r palette visible ctx options.
Let Hwf := shown_wf localeCompare rows metric r visible ctx options Hclean.

Lemma graph_link_path l : l ∈ links g -> exists pr s t, pr ∈ prs /\ (s, t) ∈ pairs (path pr) /\ id s = source l /\ id t = target l.
Proof.
  intros Hl. destruct (graph_link_entry localeCompare firstSchemes lastScheme rows metric r palette visible ctx options l Hl)
    as (_ & l0 & _ & H0 & Ec & _). fold prs in H0. fold color in H0.
  assert (Ee : source l = source l0 /\ target l = target l0) by (unfold link_core in Ec; by simplify_eq). destruct Ee as [-> ->].
  destruct (linkTable_sum metric color _ prs Hwf (fun _ _ => true) XValue) as [_ I _ Ks].
  apply list_elem_of_fmap in H0 as ([k l1] & -> & Hin). cbn [snd]. destruct (I k l1 Hin) as [Ek Hn].
  assert (Hk : k ∈ map_keys (linkTable metric color prs)) by (apply list_elem_of_fmap; by exists (k, l1)).
  apply Ks in Hk as [Hk|Hk]; [by apply elem_of_nil in Hk|]. apply list_elem_of_In, in_map_iff in Hk as (e & Ee & He).
  apply list_elem_of_In in He. destruct (linkEvents_wf color _ prs Hwf e He) as [[_ Hw] _].
  apply list_elem_of_In, in_concat in He as (es & (pr & <- & Hp)%in_map_iff & ([s t] & <- & Hm)%in_map_iff).
  apply list_elem_of_In in Hp, Hm. rewrite Ek in Ee. unfold pathLinkKey in Ee. cbn [le_src le_tgt fst snd] in Ee, Hw. apply key_split in Ee as [E1 E2]; [|done..].
  by exists pr, s, t.
Qed.

Lemma path_node_graph pr m : pr ∈ prs -> m ∈ path pr -> exists n, n ∈ nodes g /\ n_id n = id m.
Proof.
  intros Hp Hm. destruct (nodeTable_sum metric color _ prs Hwf (fun _ _ => true) XValue) as [_ I _ Ks].
  assert (Hk : id m ∈ map_keys (nodeTable metric color prs)).
  { apply Ks. right. apply list_elem_of_In, in_map_iff. exists (mkNE m (metrics pr) (color pr) (rootId pr)). split; [done|].
    apply in_concat. exists (nodeEvents color pr). split; [apply in_map; by apply list_elem_of_In|].
    apply (in_map (fun n => mkNE n (metrics pr) (color pr) (rootId pr))). by apply list_elem_of_In. }
  apply elem_of_map_keys in Hk as [n0 Hg]. apply map_get_Some_elem in Hg. destruct (I _ _ Hg) as [Ei _].
  destruct (graph_cores localeCompare firstSchemes lastScheme rows metric r palette visible ctx options) as [P _].
  assert (Hc : node_core n0 ∈ map node_core (nodes g)).
  { unfold g. rewrite P. apply list_elem_of_In. apply in_map. apply list_elem_of_In. apply list_elem_of_fmap. by exists (id m, n0). }
  apply list_elem_of_In, in_map_iff in Hc as (n & E & Hn). exists n. split; [by apply list_elem_of_In|]. destruct (node_core_measure XValue n n0 E) as (-> & _). exact Ei.
Qed.
End GraphLinks.

(** Labels after masking. *)
Lemma mask_label_cases t : maskFlowLabel t = [] \/ maskFlowLabel t = FLOW_MASK_TEXT.
Proof. destruct t; [by left | by right]. Qed.

Lemma masked_ids ns m0 :
  let m := fold_left (fun m n => if maskable n then map_set (n_id n) (maskFlowLabel (n_label n)) m else m) ns m0 in
  (forall i t, map_get i m0 = Some t -> t = [] \/ t = FLOW_MASK_TEXT) ->
  (forall i t, map_get i m = Some t -> t = [] \/ t = FLOW_MASK_TEXT) /\
  (forall i, is_Some (map_get i m0) \/ (exists n, n ∈ ns /\ maskable n = true /\ n_id n = i) -> is_Some (map_get i m)).
Proof.
  revert m0. induction ns as [|n ns IH]; intros m0 m H0.
  { split; [exact H0|]. intros i [H|(n & H & _)]; [exact H|]. exfalso. exact (proj1 (elem_of_nil n) H). }
  unfold m. cbn [fold_left]. destruct (IH (if maskable n then map_set (n_id n) (maskFlowLabel (n_label n)) m0 else m0)) as [A B].
  - intros i t. destruct (maskable n); [|apply H0]. rewrite map_get_set. case_bool_decide; [intros [= <-]; apply mask_label_cases | apply H0].
  - split; [exact A|]. intros i Hi. apply B. destruct Hi as [Hs|(n' & Hn & Hm & <-)].
    + left. destruct (maskable n); [|done]. rewrite map_get_set. case_bool_decide; [by eexists | done].
    + apply elem_of_cons in Hn as [->|Hn]; [left; rewrite Hm, map_get_set_eq; by eexists | right; by exists n'].
Qed.

(** ** Lemmas: filters *)
Lemma filters_get sel stages k :
  map_get k (normalizeSelectedNodeFilters (Some sel) stages)
  = let ids := map fid (List.filter (fun f => bool_decide (fkind f = k)) sel) in
    if bool_decide (k ∈ stages) then match ids with [] => None | _ => Some (set_of_list ids) end else None.
Proof.
  unfold normalizeSelectedNodeFilters. cbn [default].
  set (stepf := fun filters f => if negb (set_has (fkind f) (set_of_list stages)) then filters else addToSet (fkind f) (fid f) filters).
  assert (G : forall m0, map_get k (fold_left stepf sel m0)
    = let ids := map fid (List.filter (fun f => bool_decide (fkind f = k)) sel) in
      if bool_decide (k ∈ stages) then match ids with [] => map_get k m0 | _ => Some (fold_left (fun s x => set_add x s) ids (default [] (map_get k m0))) end
      else map_get k m0).
  { induction sel as [|f sel IH]; intros m0; [by case_bool_decide|]. cbn [fold_left List.filter]. rewrite IH. unfold stepf at 1 2 3, set_has.
    destruct (decide (fkind f = k)) as [<-|N].
    - rewrite (bool_decide_true (fkind f = fkind f)) by done. cbn [map]. destruct (decide (fkind f ∈ stages)) as [Hs|Hs].
      + rewrite (bool_decide_true (fkind f ∈ stages)), (bool_decide_true (fkind f ∈ set_of_list stages)) by (by rewrite ?elem_of_set_of_list).
        cbn [negb]. unfold addToSet. rewrite !map_get_set_eq. cbn [default fold_left]. destruct (map fid _); done.
      + rewrite (bool_decide_false (fkind f ∈ stages)), (bool_decide_false (fkind f ∈ set_of_list stages)) by (by rewrite ?elem_of_set_of_list). done.
    - rewrite (bool_decide_false (fkind f = k)) by done.
      assert (E : map_get k (if negb (bool_decide (fkind f ∈ set_of_list stages)) then m0 else addToSet (fkind f) (fid f) m0) = map_get k m0)
        by (destruct (bool_decide (fkind f ∈ set_of_list stages)); cbn [negb]; [|done]; apply map_get_set_ne; congruence).
      by rewrite E. }
  etransitivity; [exact (G [])|]. cbv zeta. case_bool_decide; [|done]. by destruct (map fid _).
Qed.

(** The identifiers of a path, per kind. *)
Lemma path_ids row ss ctx k :
  NoDup ss ->
  map_get k (fold_left (fun m n => addToSet (kind n) (id n) m) (flowPathForStages row ss ctx) [])
  = if bool_decide (k ∈ ss) then Some [id (rowNode ctx k row)] else None.
Proof.
  unfold flowPathForStages. intros Hnd.
  assert (G : forall m0, map_get k (fold_left (fun m n => addToSet (kind n) (id n) m) (map (fun stage => NODE_BUILDERS stage row ctx) ss) m0)
    = if bool_decide (k ∈ ss) then Some (set_add (id (rowNode ctx k row)) (default [] (map_get k m0))) else map_get k m0).
  { induction Hnd as [|s ss Hs _ IH]; intros m0; [done|]. cbn [map fold_left]. rewrite IH, builder_kind. unfold addToSet.
    destruct (decide (k = s)) as [->|N].
    - rewrite (bool_decide_false (s ∈ ss)), (bool_decide_true (s ∈ s :: ss)) by set_solver. by rewrite map_get_set_eq.
    - rewrite map_get_set_ne by done. by rewrite (bool_decide_ext (k ∈ s :: ss) (k ∈ ss)) by set_solver. }
  by rewrite G.
Qed.

Lemma filters_NoDup sel stages : NoDup (map_keys (normalizeSelectedNodeFilters sel stages)).
Proof.
  unfold normalizeSelectedNodeFilters.
  assert (G : forall l m0, NoDup (map_keys m0) -> NoDup (map_keys (fold_left (fun filters f =>
    if negb (set_has (fkind f) (set_of_list stages)) then filters else addToSet (fkind f) (fid f) filters) l m0))).
  { induction l as [|f l IH]; intros m0 H; [done|]. cbn [fold_left]. apply IH. case_match; [done|]. by apply NoDup_map_set. }
  apply G. constructor.
Qed.

(** The choice of the row's node at every stage with a selection. *)
Definition rowSelected (sel : list FlowNodeFilter) (stages : list FlowNodeKind) (ctx : FlowPathContext) (row : FlowQuotaDataItem) : Prop :=
  forall k f, k ∈ stages -> f ∈ sel -> fkind f = k -> mkFilter k (id (rowNode ctx k row)) ∈ sel.

Lemma ids_elem sel k i : i ∈ map fid (List.filter (fun f => bool_decide (fkind f = k)) sel) <-> mkFilter k i ∈ sel.
Proof.
  rewrite list_elem_of_In, in_map_iff. split.
  - intros ([k' i'] & <- & [Hf Hk]%filter_In). apply bool_decide_eq_true in Hk. cbn in *. subst. by apply list_elem_of_In.
  - intros H. exists (mkFilter k i). split; [done|]. apply filter_In. split; [by apply list_elem_of_In | by apply bool_decide_eq_true].
Qed.

Lemma matches_selected sel stages ctx row :
  NoDup stages ->
  pathMatchesNodeFilters (flowPathForStages row stages ctx) (normalizeSelectedNodeFilters (Some sel) stages) = true <-> rowSelected sel stages ctx row.
Proof.
  intros Hnd. set (filters := normalizeSelectedNodeFilters (Some sel) stages).
  assert (Hget : forall k v, (k, v) ∈ filters <-> k ∈ stages /\ v = set_of_list (map fid (List.filter (fun f => bool_decide (fkind f = k)) sel)) /\
    map fid (List.filter (fun f => bool_decide (fkind f = k)) sel) <> []).
  { intros k v. assert (E : (k, v) ∈ filters <-> map_get k filters = Some v).
    { split; [apply elem_map_get, filters_NoDup | apply map_get_Some_elem]. }
    rewrite E. unfold filters. rewrite filters_get. cbv zeta. case_bool_decide as Hk; [|naive_solver].
    destruct (map fid _) eqn:El; naive_solver. }
  assert (Ef : pathMatchesNodeFilters (flowPathForStages row stages ctx) filters = true <->
    forall k v, (k, v) ∈ filters -> id (rowNode ctx k row) ∈ v).
  { unfold pathMatchesNodeFilters.
    assert (Eb : (match filters with [] => true | _ => forallb (fun f => match map_get f.1 (fold_left (fun m n => addToSet (kind n) (id n) m) (flowPathForStages row stages ctx) []) with
        | None => false | Some pathIds => existsb (fun i => set_has i pathIds) f.2 end) filters end)
      = forallb (fun f => match map_get f.1 (fold_left (fun m n => addToSet (kind n) (id n) m) (flowPathForStages row stages ctx) []) with
        | None => false | Some pathIds => existsb (fun i => set_has i pathIds) f.2 end) filters) by (by destruct filters).
    cbv zeta. rewrite Eb, forallb_forall. split.
    - intros H k v Hin. specialize (H (k, v) (proj1 (list_elem_of_In _ _) Hin)). cbn [fst snd] in H. rewrite path_ids in H by done.
      case_bool_decide; [|done]. apply existsb_exists in H as (i & Hi & Hs%bool_decide_eq_true). apply list_elem_of_singleton in Hs as ->.
      by apply list_elem_of_In.
    - intros H [k v] Hin%list_elem_of_In. cbn [fst snd]. rewrite path_ids by done. rewrite bool_decide_true by (by apply Hget in Hin as [? _]).
      apply existsb_exists. exists (id (rowNode ctx k row)). split; [apply list_elem_of_In; by apply H|]. apply bool_decide_eq_true. set_solver. }
  rewrite Ef. unfold rowSelected. split.
  - intros H k f Hk Hf <-. rewrite <- ids_elem, <- elem_of_set_of_list. apply H. apply Hget. split_and!; [done | done |].
    intros E. assert (Hi : fid f ∈ map fid (List.filter (fun f' => bool_decide (fkind f' = fkind f)) sel)) by (apply ids_elem; by destruct f).
    rewrite E in Hi. by apply elem_of_nil in Hi.
  - intros H k v (Hk & -> & Hne)%Hget. rewrite elem_of_set_of_list, ids_elem.
    destruct (map fid (List.filter (fun f => bool_decide (fkind f = k)) sel)) as [|i l] eqn:E; [done|].
    assert (Hi : i ∈ map fid (List.filter (fun f => bool_decide (fkind f = k)) sel)) by (rewrite E; set_solver).
    apply ids_elem in Hi. by apply (H k (mkFilter k i)).
Qed.
(** ** Properties *)

(** C29.  The flow conserves what the rows carry.  For the value, the quota, the
    tokens and the requests alike: every visible stage of the graph has the same
    total; what enters a node after the first stage and what leaves a node before
    the last stage is exactly what the node carries; and unless nodes beyond the
    limit are hidden, the total of every stage is the total that the summary of
    the page shows. *)
Theorem flow_conserves localeCompare formatNumber firstSchemes lastScheme rows metric options :
  Forall (fun row => row_clean row = true) rows ->
  let d := buildDashboardFlowData localeCompare formatNumber firstSchemes lastScheme rows metric options in
  let stages := resolveVisibleStages (default DEFAULT_FLOW_ROLE (role options)) (visibleStages options) in
  forall x,
    (forall k k', k ∈ stages -> k' ∈ stages -> stageTotal x k (flow d) = stageTotal x k' (flow d)) /\
    (forall n, n ∈ nodes (flow d) -> n_kind n ∈ tail stages -> inflow x (n_id n) (flow d) = node_measure x n) /\
    (forall n, n ∈ nodes (flow d) -> n_kind n ∈ removelast stages -> outflow x (n_id n) (flow d) = node_measure x n) /\
    (default DEFAULT_FLOW_OVERFLOW_MODE (overflowMode (graphOptions options)) = aggregate ->
     forall k, k ∈ stages -> stageTotal x k (flow d) = summary_measure metric x (summary d)).
Proof.
  intros Hc d stages x. unfold d, buildDashboardFlowData. cbn [flow summary]. fold stages.
  set (shown := filterRowsByNodes _ _ _ _).
  assert (Hs : Forall (fun row => row_clean row = true) shown).
  { rewrite Forall_forall in Hc |- *. intros row Hr. apply Hc. by eapply filtered_subset. }
  split_and!.
  - intros k k' Hk Hk'. by rewrite !graph_stage.
  - intros n Hn Hk. by apply graph_in.
  - intros n Hn Hk. by apply graph_out.
  - intros Hm k Hk. rewrite graph_stage by done. unfold shownPaths. rewrite Hm, summary_sum. apply aggregate_keeps.
Qed.

(** The limit on the nodes of a stage: with a limit, a stage shows at most
    that many nodes and, when the rest is aggregated, one more that stands for
    the rest; the nodes shown are top nodes, in that no node of the rows that is
    left out carries more than a node that is kept.  [localeCompare] is a
    consistent comparator, as the language defines it. *)
Theorem flow_top_limit localeCompare firstSchemes lastScheme rows metric r palette visible ctx options l k :
  SignComparator localeCompare -> Forall (fun row => row_clean row = true) rows ->
  normalizeTopNodeLimit (topNodeLimit options) = Some l -> k ∈ resolveVisibleStages r visible ->
  let g := buildFlowGraph localeCompare firstSchemes lastScheme rows metric r palette visible ctx options in
  let mode := default DEFAULT_FLOW_OVERFLOW_MODE (overflowMode options) in
  let shown := List.filter (fun n => bool_decide (n_kind n = k)) (nodes g) in
  Z.of_nat (length shown) <= l + match mode with aggregate => 1 | hide => 0 end /\
  exists top, Z.of_nat (length top) <= l /\
    (forall n, n ∈ shown -> n_id n ∈ top \/ (n_id n = OTHER_FLOW_NODE_IDS k /\ mode = aggregate)) /\
    (forall i row, i ∈ top -> row ∈ rows -> id (rowNode ctx k row) ∉ top ->
       nodeTotal rows metric ctx k (id (rowNode ctx k row)) <= nodeTotal rows metric ctx k i).
Proof.
  intros HL Hc El Hk g mode shown.
  assert (Hl : 0 < l).
  { unfold normalizeTopNodeLimit in El. destruct (topNodeLimit options); [|done].
    destruct (num_is_finite _); [|done]. cbn [andb] in El. destruct (Z.ltb_spec 0 (num_floor n)); [|done]. by simplify_eq. }
  set (top := topIds localeCompare rows metric ctx l k).
  assert (Ht : Z.of_nat (length top) <= l) by (pose proof (topIds_length localeCompare rows metric ctx l k Hl); unfold top; lia).
  assert (Hin : forall n, n ∈ shown -> n_id n ∈ top \/ (n_id n = OTHER_FLOW_NODE_IDS k /\ mode = aggregate)).
  { intros n Hn. apply list_elem_of_In, filter_In in Hn as [Hn Ek]. apply list_elem_of_In in Hn. apply bool_decide_eq_true in Ek.
    destruct (graph_node_path localeCompare firstSchemes lastScheme rows metric r palette visible ctx options Hc n Hn) as (pr & m & Hp & Hm & <- & Em).
    apply (shown_top localeCompare rows metric r visible ctx options l k pr m); congruence || done. }
  split; [|exists top; split; [done | split; [done | intros i row; exact (topIds_dominate localeCompare rows metric (resolveVisibleStages r visible) ctx (stages_NoDup r visible) l k i row)]]].
  assert (Hd : NoDup (map n_id shown)).
  { unfold shown. pose proof (graph_ids_NoDup localeCompare firstSchemes lastScheme rows metric r palette visible ctx options Hc) as D.
    fold g in D. clear -D. induction (nodes g) as [|n ns IH]; [constructor|]. cbn in *. apply NoDup_cons in D as [Hn D].
    case_bool_decide; [|by apply IH]. cbn. constructor; [|by apply IH]. intros Hx. apply Hn. apply list_elem_of_In in Hx.
    apply in_map_iff in Hx as (y & <- & [Hy _]%filter_In). apply list_elem_of_In. by apply in_map. }
  assert (Hle : (length (map n_id shown) <= length (top ++ match mode with aggregate => [OTHER_FLOW_NODE_IDS k] | hide => [] end))%nat).
  { apply NoDup_incl_length; [by apply NoDup_ListNoDup|]. intros i (n & <- & Hn)%in_map_iff. apply list_elem_of_In in Hn.
    apply list_elem_of_In, elem_of_app. destruct (Hin n Hn) as [H|[-> ->]]; [by left | right; set_solver]. }
  rewrite length_map, length_app in Hle. destruct mode; cbn [length] in Hle; lia.
Qed.

(** The filters of the page keep exactly the rows they name: a row stays
    when no user is selected or its user is, and at every visible stage that has
    a selected node its own node is one of the selected. *)
Theorem flow_filter_exact rows us sel r visible ctx :
  let stages := resolveVisibleStages r visible in
  exists keep, filterRowsByNodes (filterRows rows us) sel stages ctx = List.filter keep rows /\
    forall row, keep row = true <->
      (default [] us = [] \/ id (userNode row) ∈ default [] us) /\ rowSelected (default [] sel) stages ctx row.
Proof.
  intros stages.
  exists (fun row => (match set_of_list (default [] us) with [] => true | l => set_has (id (userNode row)) l end) &&
    pathMatchesNodeFilters (flowPathForStages row stages ctx) (normalizeSelectedNodeFilters (Some (default [] sel)) stages)). split.
  - assert (Ef : forall l, filterRowsByNodes l sel stages ctx
      = List.filter (fun row => pathMatchesNodeFilters (flowPathForStages row stages ctx) (normalizeSelectedNodeFilters (Some (default [] sel)) stages)) l).
    { intros l. unfold filterRowsByNodes. assert (Es : normalizeSelectedNodeFilters sel stages = normalizeSelectedNodeFilters (Some (default [] sel)) stages) by done.
      rewrite Es. destruct (normalizeSelectedNodeFilters _ _); [|done]. cbn [pathMatchesNodeFilters]. induction l as [|x l IH]; [done|]. cbn [List.filter]. by rewrite <- IH. }
    rewrite Ef. unfold filterRows. destruct (set_of_list (default [] us)) as [|u l] eqn:E; [done|].
    clear. induction rows as [|row rows IH]; [done|]. cbn [List.filter]. destruct (set_has (id (userNode row)) (u :: l)); cbn [andb List.filter]; [|done].
    by destruct (pathMatchesNodeFilters _ _); rewrite IH.
  - intros row. rewrite andb_true_iff, matches_selected by apply stages_NoDup.
    assert (Eu : (match set_of_list (default [] us) with [] => true | l => set_has (id (userNode row)) l end) = true <->
      default [] us = [] \/ id (userNode row) ∈ default [] us).
    { destruct (set_of_list (default [] us)) as [|u l] eqn:E.
      - apply (proj1 (set_of_list_nil _)) in E. split; [intros _; by left | done].
      - unfold set_has. rewrite bool_decide_eq_true, <- E, elem_of_set_of_list. split; [intros H; by right|]. intros [H|H]; [|done]. by rewrite H in E. }
    by rewrite Eu.
Qed.

(** Highlighting: with an active link, or an active node of a visible stage,
    that lies on some path, a node or a link is highlighted exactly when a path
    through the active element passes it, and dimmed exactly when it is not
    highlighted; otherwise nothing is flagged. *)
Theorem flow_highlight localeCompare firstSchemes lastScheme rows metric r palette visible ctx options :
  Forall (fun row => row_clean row = true) rows ->
  let g := buildFlowGraph localeCompare firstSchemes lastScheme rows metric r palette visible ctx options in
  let prs := shownPaths localeCompare rows metric r visible ctx options in
  let on := activeOn (activeNode options) (activeLink options) (resolveVisibleStages r visible) = true /\ exists pr, pr ∈ prs /\ activePath options pr in
  (forall n, n ∈ nodes g -> exists h, nodeFlags n = flagsFor h /\ (is_Some h <-> on) /\
     (h = Some true <-> on /\ exists pr m, pr ∈ prs /\ activePath options pr /\ m ∈ path pr /\ id m = n_id n)) /\
  (forall l, l ∈ links g -> exists h, linkFlags l = flagsFor h /\ (is_Some h <-> on) /\
     (h = Some true <-> on /\ exists pr s t, pr ∈ prs /\ activePath options pr /\ (s, t) ∈ pairs (path pr) /\ id s = source l /\ id t = target l)).
Proof.
  intros Hc g prs on. unfold activePath in *.
  pose proof (shown_wf localeCompare rows metric r visible ctx options Hc) as Hwf. fold prs in Hwf.
  pose proof (highlight_sets (activeNode options) (activeLink options) prs (resolveVisibleStages r visible)) as Hh.
  set (sets := buildFlowHighlightSets _ _ _ _) in Hh.
  assert (Hon : is_Some sets <-> on).
  { destruct sets as [h|]; [by destruct Hh as (? & ? & _); split|]. split; [by intros [? [=]]|]. intros [Ho (pr & Hp & Hm)].
    destruct Hh as [Hh|Hh]; [congruence|]. by rewrite Hh in Hm. }
  split.
  - intros n Hn. destruct (graph_node_entry localeCompare firstSchemes lastScheme rows metric r palette visible ctx options n Hn) as (_ & _ & _ & _ & Ef).
    fold prs in Ef. fold sets in Ef. eexists. split; [exact Ef|]. unfold onSets. rewrite fmap_is_Some. split; [done|].
    rewrite <- Hon. destruct sets as [h|]; cbn [fmap option_fmap option_map]; [|split; [done | by intros [[? [=]] _]]].
    destruct Hh as (_ & _ & Hi & _). rewrite <- Hi. unfold set_has. split; [intros [= E%bool_decide_eq_true]; split; [by eexists | done] | intros [_ E]].
    by rewrite bool_decide_true.
  - intros l Hl. destruct (graph_link_entry localeCompare firstSchemes lastScheme rows metric r palette visible ctx options l Hl) as (_ & _ & _ & _ & _ & _ & _ & _ & _ & Ef).
    fold prs in Ef. fold sets in Ef. eexists. split; [exact Ef|]. unfold onSets. rewrite fmap_is_Some. split; [done|].
    rewrite <- Hon. destruct sets as [h|]; cbn [fmap option_fmap option_map]; [|split; [done | by intros [[? [=]] _]]].
    destruct Hh as (_ & _ & _ & Hi).
    assert (Hk : linkStableKey l ∈ hlinks h <-> exists pr s t, pr ∈ prs /\ matchesPath (activeNode options) (activeLink options) (path pr) = true /\
      (s, t) ∈ pairs (path pr) /\ id s = source l /\ id t = target l).
    { rewrite Hi. destruct (graph_link_path localeCompare firstSchemes lastScheme rows metric r palette visible ctx options Hc l Hl) as (pr0 & s0 & t0 & Hp0 & Hst0 & E0 & _).
      assert (Hnul : forall pr s t, pr ∈ prs -> (s, t) ∈ pairs (path pr) -> no_char NUL (id s) = true).
      { intros pr s t Hp [Hs _]%pairs_elem. destruct (proj1 (Forall_forall _ _) Hwf pr Hp) as [_ Hw]. apply wf_nul. exact (proj1 (Forall_forall _ _) Hw s Hs). }
      split; intros (pr & s & t & Hp & Hm & Hst & E); exists pr, s, t; split_and!; try done.
      - unfold pathLinkKey, linkStableKey in E. rewrite <- E0 in E. apply key_split in E as [E1 E2]; [congruence | exact (Hnul pr s t Hp Hst) | exact (Hnul pr0 s0 t0 Hp0 Hst0)].
      - unfold pathLinkKey, linkStableKey in E. rewrite <- E0 in E. apply key_split in E as [E1 E2]; [done | exact (Hnul pr s t Hp Hst) | exact (Hnul pr0 s0 t0 Hp0 Hst0)].
      - unfold pathLinkKey, linkStableKey. by destruct E as [-> ->]. }
    rewrite <- Hk. unfold set_has. split; [intros [= E%bool_decide_eq_true]; split; [by eexists | done] | intros [_ E]]. by rewrite bool_decide_true.
Qed.

(** Masking hides the identities and nothing else: with masking on, every
    node that stands for a user, a server node, a token, a group or a channel is
    labelled with the mask (or not at all), so is every end of a link at such a
    node, and apart from labels the graph is the graph without masking; every end
    of a link is a node of the graph. *)
Theorem flow_masking localeCompare firstSchemes lastScheme rows metric r palette visible ctx options options' :
  Forall (fun row => row_clean row = true) rows ->
  maskSensitive options = true ->
  options' = mkGraphOptions (topNodeLimit options) (overflowMode options) (otherNodeLabel options) (activeNode options) (activeLink options) false ->
  let g := buildFlowGraph localeCompare firstSchemes lastScheme rows metric r palette visible ctx options in
  let g' := buildFlowGraph localeCompare firstSchemes lastScheme rows metric r palette visible ctx options' in
  let hidden t := t = [] \/ t = FLOW_MASK_TEXT in
  (forall n, n ∈ nodes g -> maskable n = true -> hidden (n_label n)) /\
  (forall l n, l ∈ links g -> n ∈ nodes g -> maskable n = true ->
     (n_id n = source l -> hidden (sourceLabel l)) /\ (n_id n = target l -> hidden (targetLabel l))) /\
  (forall l, l ∈ links g -> (exists n, n ∈ nodes g /\ n_id n = source l) /\ (exists n, n ∈ nodes g /\ n_id n = target l)) /\
  map node_core (nodes g) ≡ₚ map node_core (nodes g') /\ map link_core (links g) ≡ₚ map link_core (links g').
Proof.
  intros Hc Hm -> g g' hidden.
  set (prs := shownPaths localeCompare rows metric r visible ctx options).
  set (color := shownColor localeCompare firstSchemes lastScheme rows metric r palette visible ctx options).
  assert (Emask : forall n n0, node_core n = node_core n0 -> maskable n = maskable n0).
  { intros n n0 E. destruct (node_core_measure XValue n n0 E) as (Ei & Ek & _). unfold maskable. by rewrite Ei, Ek. }
  split_and!.
  - intros n Hn Hk. destruct (graph_node_entry localeCompare firstSchemes lastScheme rows metric r palette visible ctx options n Hn) as (n0 & _ & Ec & El & _).
    rewrite El, Hm, <- (Emask _ _ Ec), Hk. apply mask_label_cases.
  - intros l n Hl Hn Hk.
    destruct (graph_node_entry localeCompare firstSchemes lastScheme rows metric r palette visible ctx options n Hn) as (n0 & H0 & Ec & _).
    destruct (node_core_measure XValue n n0 Ec) as (-> & _ & _). rewrite (Emask _ _ Ec) in Hk.
    destruct (graph_link_entry localeCompare firstSchemes lastScheme rows metric r palette visible ctx options l Hl) as (l1 & _ & H1 & _ & _ & Es & Et & -> & -> & _).
    rewrite <- Es, <- Et. fold prs color in H0, H1. rewrite Hm in H1. unfold maskFlowGraphLabels in H1. cbv zeta in H1.
    destruct (masked_ids (map_values (nodeTable metric color prs)) []) as [A B]; [done|]. cbv zeta in A, B.
    set (byId := fold_left _ _ []) in *. clearbody byId.
    assert (HB : is_Some (map_get (n_id n0) byId)) by (apply B; right; by exists n0).
    destruct byId as [|kv byId']; [by destruct HB|]. set (byId := kv :: byId') in *.
    cbn [snd] in H1. rewrite values_on_values in H1. apply list_elem_of_In, in_map_iff in H1 as (l0 & <- & _). cbn [source target sourceLabel targetLabel setLinkLabels].
    destruct HB as [t Ht]. split; intros <-; rewrite Ht; by apply (A (n_id n0)).
  - intros l Hl. destruct (graph_link_path localeCompare firstSchemes lastScheme rows metric r palette visible ctx options Hc l Hl) as (pr & s & t & Hp & Hst & Es & Et).
    apply pairs_elem in Hst as [Hs Ht]. rewrite <- Es, <- Et.
    assert (Ht' : t ∈ path pr) by (destruct (path pr); [done | by right]).
    split; by apply (path_node_graph localeCompare firstSchemes lastScheme rows metric r palette visible ctx options Hc pr).
  - unfold g, g'. rewrite (proj1 (graph_cores localeCompare firstSchemes lastScheme rows metric r palette visible ctx options)).
    by rewrite (proj1 (graph_cores localeCompare firstSchemes lastScheme rows metric r palette visible ctx (mkGraphOptions _ _ _ _ _ false))).
  - unfold g, g'. rewrite (proj2 (graph_cores localeCompare firstSchemes lastScheme rows metric r palette visible ctx options)).
    by rewrite (proj2 (graph_cores localeCompare firstSchemes lastScheme rows metric r palette visible ctx (mkGraphOptions _ _ _ _ _ false))).
Qed.

(** ** A concrete page *)
Definition sampleRow (u g m : jsstr) (ch v : Z) : FlowQuotaDataItem :=
  mkRow None (Some u) None (Some g) None None (Some ch) None (Some m) (Some (2 * v)) (Some 1) (Some v).
Definition sampleRows : list FlowQuotaDataItem :=
  [sampleRow (js "alice") (js "vip") (js "gpt") 7 30; sampleRow (js "bob") (js "vip") (js "gpt") 8 20;
   sampleRow (js "carol") (js "free") (js "claude") 7 10].
Definition sampleScheme : DataScheme := mkScheme None [Some (js "#112233"); None].
Definition sampleGraphOptions : FlowGraphOptions :=
  mkGraphOptions (Some (num_of_Z 1)) None None (Some (mkFilter kgroup (js "group:vip"))) None true.
Definition sampleOptions : FlowBuildOptions := mkBuildOptions (Some radmin) None None None None None sampleGraphOptions.
Definition sampleData : ProcessedFlowData :=
  buildDashboardFlowData str_cmp string_of_Z [] sampleScheme sampleRows mquota sampleOptions.
Definition sampleGraph : DashboardFlowGraph :=
  buildFlowGraph str_cmp [] sampleScheme sampleRows mquota radmin None None None sampleGraphOptions.

Lemma sampleRows_clean : Forall (fun row => row_clean row = true) sampleRows.
Proof. repeat constructor. Qed.

Lemma flow_conserves_witness : stageTotal XValue kmodel (flow sampleData) = 60.
Proof.
  destruct (flow_conserves str_cmp string_of_Z [] sampleScheme sampleRows mquota sampleOptions sampleRows_clean XValue) as (_ & _ & _ & E).
  etransitivity; [exact (E eq_refl kmodel ltac:(apply (bool_decide_unpack _); vm_compute; exact I)) | vm_compute; reflexivity].
Defined.

Lemma flow_top_limit_witness :
  Z.of_nat (length (List.filter (fun n => bool_decide (n_kind n = kmodel)) (nodes sampleGraph))) <= 2.
Proof.
  apply (flow_top_limit str_cmp [] sampleScheme sampleRows mquota radmin None None None sampleGraphOptions 1 kmodel).
  - apply _.
  - exact sampleRows_clean.
  - vm_compute. reflexivity.
  - apply (bool_decide_unpack _). vm_compute. exact I.
Defined.

Lemma flow_highlight_witness : Forall (fun n => exists h, nodeFlags n = flagsFor h) (nodes sampleGraph).
Proof.
  rewrite Forall_forall. intros n Hn.
  destruct (proj1 (flow_highlight str_cmp [] sampleScheme sampleRows mquota radmin None None None sampleGraphOptions sampleRows_clean) n Hn) as (h & E & _).
  by exists h.
Defined.

Lemma flow_masking_witness :
  Forall (fun n => maskable n = true -> n_label n = [] \/ n_label n = FLOW_MASK_TEXT) (nodes sampleGraph).
Proof.
  rewrite Forall_forall.
  apply (flow_masking str_cmp [] sampleScheme sampleRows mquota radmin None None None sampleGraphOptions
    (mkGraphOptions (Some (num_of_Z 1)) None None (Some (mkFilter kgroup (js "group:vip"))) None false)).
  - exact sampleRows_clean.
  - reflexivity.
  - reflexivity.
Defined.

(** The nodes of the sample by value and label: two per stage, one of them for the rest. *)
Example sample_stages : map n_id (nodes sampleGraph) =
  [js "model:gpt"; js "group:vip"; js "channel:7"; js "user:__other__"; js "user:alice"; js "channel:__other__"; js "group:__other__"; js "model:__other__"].
Proof. vm_compute. reflexivity. Qed.

End Flow.
