(* ===== verification/PlaygroundMessages.v ===== *)
(** * Chat playground: messages
      ([src/web/default/src/features/playground/lib/message])

    The message of the playground conversation, the separation of [<think>]
    reasoning from visible text, the timing of answers and of reasoning, the
    application of streamed chunks, the finalisation of an answer and the edits
    of a conversation.  Every reading of [Date.now()] and of [nanoid()] is an
    argument of the function that reads it; times are whole milliseconds. *)
From S2P Require Import Prelude JsString.
Local Open Scope Z_scope.

Module PlaygroundMessages.
#[local] Arguments js : simpl never.

(** ** Data ([types.ts], [constants.ts]) *)
Inductive MessageRole := user | assistant | system.
#[global] Instance MessageRole_eq_dec : EqDecision MessageRole.
Proof. solve_decision. Defined.

Inductive MessageStatus := LOADING | STREAMING | COMPLETE | ERROR.
#[global] Instance MessageStatus_eq_dec : EqDecision MessageStatus.
Proof. solve_decision. Defined.

Record MessageVersion := mkVersion { id : jsstr; content : jsstr }.

Record Reasoning := mkReasoning {
  rcontent : jsstr;
  duration : Z;
  rstartedAt : option Z;
  rcompletedAt : option Z;
  rdurationMs : option Z;
}.

Record Message := mkMessage {
  key : jsstr;
  from : MessageRole;
  versions : list MessageVersion;
  createdAt : option Z;
  startedAt : option Z;
  completedAt : option Z;
  durationMs : option Z;
  sources : option (list (jsstr * jsstr));
  reasoning : option Reasoning;
  isReasoningStreaming : option bool;
  isReasoningComplete : option bool;
  isContentComplete : option bool;
  status : option MessageStatus;
  errorCode : option (option jsstr);
}.

(** [{ ...message, field: value }] *)
Definition with_versions (v : list MessageVersion) (m : Message) : Message :=
  mkMessage (key m) (from m) v (createdAt m) (startedAt m) (completedAt m) (durationMs m) (sources m) (reasoning m)
    (isReasoningStreaming m) (isReasoningComplete m) (isContentComplete m) (status m) (errorCode m).
Definition with_createdAt (c : option Z) (m : Message) : Message :=
  mkMessage (key m) (from m) (versions m) c (startedAt m) (completedAt m) (durationMs m) (sources m) (reasoning m)
    (isReasoningStreaming m) (isReasoningComplete m) (isContentComplete m) (status m) (errorCode m).
Definition with_timing (s c d : option Z) (m : Message) : Message :=
  mkMessage (key m) (from m) (versions m) (createdAt m) s c d (sources m) (reasoning m)
    (isReasoningStreaming m) (isReasoningComplete m) (isContentComplete m) (status m) (errorCode m).
Definition with_reasoning (r : option Reasoning) (m : Message) : Message :=
  mkMessage (key m) (from m) (versions m) (createdAt m) (startedAt m) (completedAt m) (durationMs m) (sources m) r
    (isReasoningStreaming m) (isReasoningComplete m) (isContentComplete m) (status m) (errorCode m).
Definition with_reasoningStreaming (b : bool) (m : Message) : Message :=
  mkMessage (key m) (from m) (versions m) (createdAt m) (startedAt m) (completedAt m) (durationMs m) (sources m) (reasoning m)
    (Some b) (isReasoningComplete m) (isContentComplete m) (status m) (errorCode m).
Definition with_status (s : MessageStatus) (m : Message) : Message :=
  mkMessage (key m) (from m) (versions m) (createdAt m) (startedAt m) (completedAt m) (durationMs m) (sources m) (reasoning m)
    (isReasoningStreaming m) (isReasoningComplete m) (isContentComplete m) (Some s) (errorCode m).
Definition with_errorCode (e : option jsstr) (m : Message) : Message :=
  mkMessage (key m) (from m) (versions m) (createdAt m) (startedAt m) (completedAt m) (durationMs m) (sources m) (reasoning m)
    (isReasoningStreaming m) (isReasoningComplete m) (isContentComplete m) (status m) (Some e).

(** A string in a condition. *)
Definition truthy (s : jsstr) : bool := match s with [] => false | _ => true end.
(** [a || b] on strings. *)
Definition str_or (a b : jsstr) : jsstr := if truthy a then a else b.

Definition e_API_REQUEST_ERROR : jsstr := js "Request error occurred".
Definition e_INTERRUPTED : jsstr := js "Generation was interrupted".
Definition e_CONNECTION_CLOSED : jsstr := js "Connection closed".
Definition e_PARSE_ERROR : jsstr := js "Error parsing response data".
Definition e_STREAM_START_ERROR : jsstr := js "Error establishing connection".
Definition e_NETWORK_ERROR : jsstr := js "Network connection failed or server not responding".
Definition ERROR_MESSAGES : list jsstr :=
  [e_API_REQUEST_ERROR; e_NETWORK_ERROR; e_PARSE_ERROR; e_STREAM_START_ERROR; e_CONNECTION_CLOSED; e_INTERRUPTED].

(** ** [message-utils.ts] *)
Definition createMessageVersion (nanoid : jsstr) (content : jsstr) : MessageVersion := mkVersion nanoid content.

Definition getCurrentVersion (message : Message) : MessageVersion :=
  match versions message with v :: _ => v | [] => mkVersion (js "default") [] end.

Definition getMessageContent (message : Message) : jsstr := content (getCurrentVersion message).

Definition hasMessageContent (message : Message) : bool := truthy (trim (getMessageContent message)).

Definition updateCurrentVersionContent (message : Message) (c : jsstr) : Message :=
  let currentVersion := getCurrentVersion message in
  with_versions [mkVersion (id currentVersion) c] message.

Definition createUserMessage (nanoid1 nanoid2 : jsstr) (c : jsstr) (created : Z) : Message :=
  mkMessage nanoid1 user [createMessageVersion nanoid2 c] (Some created) None None None None None None None None None None.

Definition createLoadingAssistantMessage (nanoid1 nanoid2 : jsstr) (started : Z) : Message :=
  mkMessage nanoid1 assistant [createMessageVersion nanoid2 []] (Some started) (Some started) None None None None
    (Some false) (Some false) (Some false) (Some LOADING) None.

Inductive ContentPart := TextPart (text : jsstr) | ImagePart (url : jsstr).
Inductive ApiContent := PlainText (s : jsstr) | Parts (ps : list ContentPart).

Definition buildMessageContent (text : jsstr) (imageUrls : list jsstr) : ApiContent :=
  let validImages := List.filter (fun url => truthy (trim url)) imageUrls in
  match validImages with
  | [] => PlainText text
  | _ => Parts (TextPart text :: map (fun url => ImagePart (trim url)) validImages)
  end.

Definition getTextContent (c : ApiContent) : jsstr :=
  match c with
  | PlainText s => s
  | Parts ps =>
      match List.find (fun p => match p with TextPart _ => true | ImagePart _ => false end) ps with
      | Some (TextPart t) => t
      | _ => []
      end
  end.

Record ChatCompletionMessage := mkApiMessage { role : MessageRole; apiContent : ApiContent }.

Definition formatMessageForAPI (message : Message) : ChatCompletionMessage :=
  mkApiMessage (from message) (PlainText (content (getCurrentVersion message))).

Definition isValidMessage (message : Message) : bool :=
  match versions message with
  | [] => false
  | _ => negb (bool_decide (from message = assistant) && negb (hasMessageContent message))
  end.

(** ** [message-reasoning-utils.ts] *)
Record ParsedThinkTags := mkParsed { visibleContent : jsstr; preasoning : jsstr; hasUnclosedTag : bool }.

Definition open_tag : jsstr := js "<think>".
Definition close_tag : jsstr := js "</think>".

#[global] Arguments open_tag : simpl never.
#[global] Arguments close_tag : simpl never.

(** The loop of [parseThinkTags].  [rest] is [content.slice(currentPos)], so
    [content.indexOf(tag, currentPos)] is [currentPos] plus the index in [rest];
    the result is the visible parts, the reasoning parts and the unclosed flag. *)
Fixpoint thinkLoop (fuel : nat) (rest : jsstr) : list jsstr * list jsstr * bool :=
  match fuel with
  | O => ([], [], false)
  | S fuel =>
      match index_of open_tag rest with
      | None => (if truthy rest then [rest] else [], [], false)
      | Some openPos =>
          let visible := if bool_decide (0 < openPos)%nat then [take openPos rest] else [] in
          let inner := drop (openPos + 7) rest in
          match index_of close_tag inner with
          | None => (visible, [inner], true)
          | Some closePos =>
              let '(vs, rs, unclosed) := thinkLoop fuel (drop (closePos + 8) inner) in
              (visible ++ vs, take closePos inner :: rs, unclosed)
          end
      end
  end.

Definition parseThinkTags (content : jsstr) : ParsedThinkTags :=
  if negb (includes open_tag content) then mkParsed content [] false
  else
    let '(visibleParts, reasoningParts, unclosed) := thinkLoop (S (length content)) content in
    mkParsed (trim (join [] visibleParts)) (trim (join [10; 10] reasoningParts)) unclosed.

(** ** [message-timing-utils.ts] *)
Definition or_else {A} (a b : option A) : option A := match a with Some _ => a | None => b end.

Definition completeAssistantTiming (message : Message) (completed : Z) : Message :=
  if negb (bool_decide (from message = assistant)) then message
  else
    let started := default completed (or_else (startedAt message) (createdAt message)) in
    with_timing (Some started) (Some completed) (Some (Z.max 0 (completed - started))) message.

Definition startReasoningTiming (message : Message) (started : Z) : Reasoning :=
  match reasoning message with
  | Some r => mkReasoning (rcontent r) (duration r) (Some (default started (rstartedAt r))) (rcompletedAt r) (rdurationMs r)
  | None => mkReasoning [] 0 (Some started) None None
  end.

Definition completeReasoningTiming (message : Message) (completed : Z) : Message :=
  match reasoning message with
  | None => message
  | Some r =>
      match rdurationMs r with
      | Some _ => message
      | None =>
          let started := default completed (or_else (rstartedAt r) (startedAt message)) in
          let durationMs := Z.max 0 (completed - started) in
          with_reasoning (Some (mkReasoning (rcontent r) (- (- durationMs / 1000)) (Some started) (Some completed) (Some durationMs)))
            message
      end
  end.

(** ** [message-streaming-utils.ts] *)
Definition set_rcontent (c : jsstr) (r : Reasoning) : Reasoning :=
  mkReasoning c (duration r) (rstartedAt r) (rcompletedAt r) (rdurationMs r).

Definition processStreamingContent (message : Message) (contentChunk : option jsstr) (now : Z) : Message :=
  let currentVersion := getCurrentVersion message in
  let fullContent :=
    match contentChunk with
    | Some chunk => if truthy chunk then content currentVersion ++ chunk else content currentVersion
    | None => content currentVersion
    end in
  if match reasoning message with None => true | Some _ => false end && negb (includes open_tag fullContent)
  then with_reasoningStreaming false (updateCurrentVersionContent message fullContent)
  else
    let p := parseThinkTags fullContent in
    let finalReasoning :=
      if truthy (preasoning p) then Some (set_rcontent (preasoning p) (startReasoningTiming message now))
      else reasoning message in
    with_reasoningStreaming (hasUnclosedTag p)
      (with_reasoning finalReasoning (updateCurrentVersionContent message fullContent)).

Inductive StreamChunkType := creasoning | ccontent.

Definition getAppendableChunk (currentContent chunk : jsstr) : jsstr :=
  if negb (truthy currentContent) || negb (starts_with currentContent chunk) then chunk
  else drop (length currentContent) chunk.

Definition applyStreamingChunk (message : Message) (type : StreamChunkType) (chunk : jsstr) (now1 now2 : Z) : Message :=
  if bool_decide (status message = Some ERROR) then message
  else match type with
  | creasoning =>
      let r := startReasoningTiming message now1 in
      let appendableChunk := getAppendableChunk (rcontent r) chunk in
      with_status STREAMING (with_reasoningStreaming true
        (with_reasoning (Some (set_rcontent (rcontent r ++ appendableChunk) r)) message))
  | ccontent =>
      let currentVersion := getCurrentVersion message in
      let appendableChunk := getAppendableChunk (content currentVersion) chunk in
      let contentMessage := processStreamingContent message (Some appendableChunk) now1 in
      with_status STREAMING
        (match isReasoningStreaming contentMessage with
         | Some true => contentMessage
         | _ => completeReasoningTiming contentMessage now2
         end)
  end.

Definition finalizeMessage (message : Message) (apiReasoningContent : option jsstr) (now1 now2 : Z) : Message :=
  let currentVersion := getCurrentVersion message in
  let parsedThinkTags :=
    if includes open_tag (content currentVersion) then Some (parseThinkTags (content currentVersion)) else None in
  let visible := match parsedThinkTags with Some p => visibleContent p | None => content currentVersion end in
  let finalReasoning :=
    str_or (default [] apiReasoningContent)
      (str_or (match reasoning message with Some r => rcontent r | None => [] end)
        (match parsedThinkTags with Some p => preasoning p | None => [] end)) in
  let finalized :=
    with_reasoningStreaming false
      (with_reasoning (if truthy finalReasoning
                       then Some (set_rcontent finalReasoning (startReasoningTiming message now1)) else None)
        (updateCurrentVersionContent message visible)) in
  completeReasoningTiming finalized now2.

Definition completeAssistantMessage (message : Message) (now1 now2 now3 : Z) : Message :=
  completeAssistantTiming (with_status COMPLETE (finalizeMessage message None now1 now2)) now3.

Definition isAssistantMessageFinal (message : Message) : bool :=
  bool_decide (status message = Some COMPLETE) || bool_decide (status message = Some ERROR).

Definition isAssistantMessagePending (message : Message) : bool :=
  bool_decide (status message = Some LOADING) || bool_decide (status message = Some STREAMING).

Definition isPendingAssistantMessage (message : Message) : bool :=
  bool_decide (from message = assistant) && isAssistantMessagePending message.

(** A choice of the response: [choice.message?.content] and [reasoning_content]. *)
Record ChatCompletionChoice := mkChoice { choiceContent : option jsstr; choiceReasoning : option jsstr }.

Definition hasChatCompletionChoice (choices : list ChatCompletionChoice) : bool :=
  match choices with [] => false | _ => true end.

Definition applyChatCompletionChoice (message : Message) (choice : ChatCompletionChoice) (now1 now2 now3 : Z) : Message :=
  completeAssistantTiming
    (with_status COMPLETE
      (finalizeMessage (updateCurrentVersionContent message (default [] (choiceContent choice)))
         (choiceReasoning choice) now1 now2)) now3.

Definition applyChatCompletionResponse (message : Message) (choices : list ChatCompletionChoice) (now1 now2 now3 : Z)
    : option Message :=
  match choices with
  | [] => None
  | choice :: _ => Some (applyChatCompletionChoice message choice now1 now2 now3)
  end.

(** The last index whose message satisfies [p] (the downward loop). *)
Fixpoint lastIndex (p : Message -> bool) (ms : list Message) : option nat :=
  match ms with
  | [] => None
  | m :: ms' =>
      match lastIndex p ms' with
      | Some i => Some (S i)
      | None => if p m then Some O else None
      end
  end.

Definition sanitizeMessage (t : jsstr -> jsstr) (message : Message) (now1 now2 now3 : Z) : Message :=
  let finalized := finalizeMessage message None now1 now2 in
  let hasContent := hasMessageContent finalized in
  let hasReasoning := match reasoning finalized with Some r => truthy (trim (rcontent r)) | None => false end in
  if hasContent || hasReasoning
  then completeAssistantTiming (with_reasoningStreaming false (with_status COMPLETE finalized)) now3
  else
    completeAssistantTiming
      (with_reasoningStreaming false (with_status ERROR
        (updateCurrentVersionContent finalized (t e_API_REQUEST_ERROR ++ js ": " ++ t e_INTERRUPTED)))) now3.

Definition sanitizeMessagesOnLoad (t : jsstr -> jsstr) (messages : list Message) (now1 now2 now3 : Z) : list Message :=
  match lastIndex isPendingAssistantMessage messages with
  | None => messages
  | Some targetIndex =>
      match messages !! targetIndex with
      | Some message => <[targetIndex := sanitizeMessage t message now1 now2 now3]> messages
      | None => messages
      end
  end.

(** ** [message-update-utils.ts] *)
Definition updateLastAssistantMessage (messages : list Message) (updater : Message -> Message) : list Message :=
  match last messages with
  | None => messages
  | Some lst =>
      if bool_decide (from lst = assistant) then <[(length messages - 1)%nat := updater lst]> messages else messages
  end.

Definition updateAssistantMessageWithError (messages : list Message) (errorMessage : jsstr) (code : option jsstr)
    (title : jsstr) (now : Z) : list Message :=
  updateLastAssistantMessage messages (fun message =>
    let updatedMessage := updateCurrentVersionContent message (title ++ js ": " ++ errorMessage) in
    completeAssistantTiming
      (with_errorCode (match code with Some c => if truthy c then Some c else None | None => None end)
        (with_reasoningStreaming false (with_status ERROR updatedMessage))) now).

(** ** [conversation-message-utils.ts] *)
Definition appendUserMessagePair (messages : list Message) (c : jsstr) (n1 n2 n3 n4 : jsstr) (submittedAt : Z) : list Message :=
  messages ++ [createUserMessage n1 n2 c submittedAt; createLoadingAssistantMessage n3 n4 submittedAt].

Definition findIndexByKey (messages : list Message) (messageKey : jsstr) : option nat :=
  fst <$> list_find (fun message => key message = messageKey) messages.

Definition createRegeneratedMessages (messages : list Message) (messageKey : jsstr) (n1 n2 : jsstr) (now : Z)
    : option (list Message) :=
  messageIndex ← findIndexByKey messages messageKey;
  message ← messages !! messageIndex;
  if bool_decide (from message = user)
  then Some (take (messageIndex + 1) messages ++ [createLoadingAssistantMessage n1 n2 now])
  else Some (take messageIndex messages ++ [createLoadingAssistantMessage n1 n2 now]).

Definition removeMessageByKey (messages : list Message) (messageKey : jsstr) : list Message :=
  filter (fun message => key message <> messageKey) messages.

(** The downward search from [beforeIndex - 1]. *)
Definition getPreviousUserMessage (messages : list Message) (beforeIndex : nat) : option Message :=
  List.find (fun m => bool_decide (from m = user)) (rev (take beforeIndex messages)).

Definition applyMessageEdit (messages : list Message) (messageKey : jsstr) (c : jsstr) (shouldSubmit : bool)
    (n1 n2 : jsstr) (submittedAt : Z) : option (list Message * bool) :=
  messageIndex ← findIndexByKey messages messageKey;
  let updatedMessages :=
    map (fun message =>
           if bool_decide (key message = messageKey)
           then with_createdAt (if shouldSubmit then Some submittedAt else createdAt message)
                  (updateCurrentVersionContent message c)
           else message) messages in
  message ← updatedMessages !! messageIndex;
  if negb shouldSubmit || negb (bool_decide (from message = user)) then Some (updatedMessages, false)
  else Some (take (messageIndex + 1) updatedMessages ++ [createLoadingAssistantMessage n1 n2 submittedAt], true).

Definition getEditingMessageContent (messages : list Message) (editingKey : option jsstr) : jsstr :=
  match editingKey with
  | None => []
  | Some k =>
      if negb (truthy k) then []
      else match List.find (fun item => bool_decide (key item = k)) messages with
           | Some message => getMessageContent message
           | None => []
           end
  end.

Definition getChatMessageRenderState (messages : list Message) (message : Message) (messageIndex : nat)
    (editingKey : option jsstr) : bool * jsstr * bool :=
  (bool_decide (Z.of_nat messageIndex = Z.of_nat (length messages) - 1) && bool_decide (from message = assistant),
   getMessageContent message,
   bool_decide (editingKey = Some (key message))).

(** ** [message-action-utils.ts], [message-editor-utils.ts], [message-error-utils.ts] *)
Record MessageActionState := mkActionState {
  acontent : jsstr; hasContent : bool; isAssistant : bool; isLoading : bool; isUser : bool }.

Definition getMessageActionState (message : Message) : MessageActionState :=
  mkActionState (getMessageContent message) (hasMessageContent message)
    (bool_decide (from message = assistant))
    (bool_decide (status message = Some LOADING) || bool_decide (status message = Some STREAMING))
    (bool_decide (from message = user)).

Record MessageEditorState := mkEditorState { canSave : bool; hasChanged : bool; showSaveAndSubmit : bool }.

Definition getMessageEditorState (message : Message) (editText originalText : jsstr) : MessageEditorState :=
  let hasText := bool_decide (0 < length (trim editText))%nat in
  let changed := negb (bool_decide (editText = originalText)) in
  mkEditorState (hasText && changed) changed (bool_decide (from message = user)).

Inductive ErrorKind := generic | model_price.
Record MessageErrorState := mkErrorState { econtent : jsstr; kind : ErrorKind; showSettingsLink : bool }.

Definition MODEL_PRICE_ERROR_CODE : jsstr := js "model_price_error".
Definition FALLBACK_ERROR_CONTENT : jsstr := js "An unknown error occurred".

Definition isAdminRole (role : option Z) : bool := match role with Some r => 10 <=? r | None => false end.

Definition isErrorMessage (message : Message) : bool := bool_decide (status message = Some ERROR).

Definition getMessageErrorState (message : Message) (isAdmin : bool) : option MessageErrorState :=
  if negb (isErrorMessage message) then None
  else
    let c := str_or (getMessageContent message) FALLBACK_ERROR_CONTENT in
    let isModelPriceError := bool_decide (errorCode message = Some (Some MODEL_PRICE_ERROR_CODE)) in
    Some (mkErrorState c (if isModelPriceError then model_price else generic) (isModelPriceError && isAdmin)).

(** ** [message-content-utils.ts] *)
Record MessageContentState := mkContentState {
  displayContent : jsstr; hasSources : bool; cIsAssistant : bool; showLoader : bool;
  showMessageContent : bool; csources : list (jsstr * jsstr);
  (** [hasReasoning] is the presence of [reasoningContent]. *)
  reasoningContent : option jsstr }.

Definition isTrue (b : option bool) : bool := match b with Some true => true | _ => false end.

Definition shouldShowMessageLoader (message : Message) (isAssistant : bool) (versionContent : jsstr) : bool :=
  isAssistant && negb (isTrue (isReasoningStreaming message))
  && (bool_decide (status message = Some LOADING)
      || (bool_decide (status message = Some STREAMING) && negb (truthy versionContent))).

Definition shouldShowMessageContent (message : Message) (versionContent : jsstr) : bool :=
  (bool_decide (from message = user) || negb (isTrue (isReasoningStreaming message)))
  && bool_decide (0 < length versionContent)%nat.

Definition getDisplayContent (message : Message) (versionContent : jsstr) : jsstr :=
  if negb (bool_decide (from message = assistant)) then versionContent
  else if negb (includes open_tag versionContent) then versionContent
  else visibleContent (parseThinkTags versionContent).

Definition getMessageContentState (message : Message) (versionContent : jsstr) : MessageContentState :=
  let isAssistant := bool_decide (from message = assistant) in
  let srcs := default [] (sources message) in
  let rc := if isAssistant then rcontent <$> reasoning message else None in
  mkContentState (getDisplayContent message versionContent) (bool_decide (0 < length srcs)%nat) isAssistant
    (shouldShowMessageLoader message isAssistant versionContent)
    (shouldShowMessageContent message versionContent) srcs
    (match rc with Some c => if truthy c then Some c else None | None => None end).

(** ** Specification of the [<think>] markup *)
(** A text is a sequence of visible pieces each followed by a closed block, a
    visible tail, and possibly a block that is still open. *)
Record ThinkText := mkThink { blocks : list (jsstr * jsstr); tailText : jsstr; openBlock : option jsstr }.

Definition renderBlock (b : jsstr * jsstr) : jsstr := b.1 ++ open_tag ++ b.2 ++ close_tag.

Definition render (d : ThinkText) : jsstr :=
  concat (map renderBlock (blocks d)) ++ tailText d ++ match openBlock d with Some r => open_tag ++ r | None => [] end.

Definition think_wf (d : ThinkText) : Prop :=
  Forall (fun b => includes open_tag b.1 = false /\ includes close_tag b.2 = false) (blocks d) /\
  includes open_tag (tailText d) = false /\
  match openBlock d with Some r => includes close_tag r = false | None => True end.

Definition tagged (d : ThinkText) : Prop := blocks d <> [] \/ openBlock d <> None.

Definition reasonings (d : ThinkText) : list jsstr :=
  map snd (blocks d) ++ match openBlock d with Some r => [r] | None => [] end.

Lemma open_tag_first v t : includes open_tag v = false -> index_of open_tag (v ++ open_tag ++ t) = Some (length v).
Proof. apply (index_of_first 60 (js "think>")). vm_compute. set_solver. Qed.

Lemma close_tag_first v t : includes close_tag v = false -> index_of close_tag (v ++ close_tag ++ t) = Some (length v).
Proof. apply (index_of_first 60 (js "/think>")). vm_compute. set_solver. Qed.

Lemma drop_past (v p t : jsstr) n : n = (length v + length p)%nat -> drop n (v ++ p ++ t) = t.
Proof. intros ->. rewrite app_assoc, <- length_app. apply drop_app_length. Qed.

Lemma visible_part (v t : jsstr) :
  (if bool_decide (0 < length v)%nat then [take (length v) (v ++ t)] else []) = if truthy v then [v] else [].
Proof.
  rewrite take_app_length. destruct v as [|c v]; [reflexivity|].
  by rewrite (bool_decide_true (0 < length (c :: v))%nat) by (cbn; lia).
Qed.

Lemma thinkLoop_block fuel v r t :
  includes open_tag v = false -> includes close_tag r = false ->
  thinkLoop (S fuel) (v ++ open_tag ++ r ++ close_tag ++ t)
  = let '(vs, rs, u) := thinkLoop fuel t in ((if truthy v then [v] else []) ++ vs, r :: rs, u).
Proof.
  intros Hv Hr. cbn [thinkLoop]. rewrite open_tag_first by done. cbv zeta.
  rewrite (drop_past v open_tag) by done. rewrite close_tag_first by done.
  rewrite (drop_past r close_tag) by done. destruct (thinkLoop fuel t) as [[vs rs] u].
  by rewrite visible_part, take_app_length.
Qed.

Lemma includes_app_tag v r : includes open_tag (v ++ open_tag ++ r) = true.
Proof. apply includes_spec. eauto. Qed.

(** Enough fuel for the loop: one unit per block and one for the tail. *)
Lemma thinkLoop_render fuel d :
  think_wf d -> (length (blocks d) < fuel)%nat ->
  exists vs, thinkLoop fuel (render d) = (vs, reasonings d, match openBlock d with Some _ => true | None => false end)
    /\ concat vs = concat (map fst (blocks d)) ++ tailText d.
Proof.
  destruct d as [bs tl ob]. unfold think_wf, render, reasonings. cbn [blocks tailText openBlock].
  intros (Hb & Ht & Ho). revert fuel. induction Hb as [|[v r] bs [Hv Hr] Hb IH]; intros [|fuel] Hf; try (cbn in Hf; lia).
  - cbn [map concat app]. destruct ob as [r|].
    + exists (if truthy tl then [tl] else []). cbn [thinkLoop].
      rewrite (open_tag_first tl r) by done. cbv zeta. rewrite (drop_past tl open_tag) by done.
      rewrite (proj2 (index_of_None _ r)) by done. rewrite visible_part. split; [done|].
      destruct tl; [done|]. cbn. by rewrite app_nil_r.
    + exists (if truthy tl then [tl] else []). rewrite app_nil_r. cbn [thinkLoop].
      rewrite (proj2 (index_of_None _ tl)) by done. split; [done|]. destruct tl; [done|]. cbn. by rewrite app_nil_r.
  - cbn [fst snd] in *. destruct (IH fuel) as (vs & E & Ec); [cbn in Hf; lia|].
    exists ((if truthy v then [v] else []) ++ vs). cbn [map concat]. unfold renderBlock at 1. cbn [fst snd].
    rewrite <- !app_assoc. rewrite thinkLoop_block by done. rewrite E. split; [done|].
    rewrite concat_app, Ec. destruct v; [done|]. cbn. by rewrite app_nil_r.
Qed.

Lemma render_length d : (length (blocks d) <= length (render d))%nat.
Proof.
  unfold render. generalize (tailText d ++ match openBlock d with Some r => open_tag ++ r | None => [] end). intros w.
  induction (blocks d) as [|b bs IH]; [cbn; lia|]. cbn [map concat length]. rewrite <- app_assoc, length_app.
  assert (1 <= length (renderBlock b))%nat; [|lia].
  unfold renderBlock. rewrite !length_app. change (length open_tag) with 7%nat. lia.
Qed.

Lemma render_tagged d : tagged d -> includes open_tag (render d) = true.
Proof.
  destruct d as [[|[v r] bs] tl [o|]]; unfold tagged, render, renderBlock; cbn [blocks tailText openBlock map concat fst snd];
    intros H; try (destruct H; done); apply includes_spec.
  - exists tl, o. done.
  - exists v. eexists. rewrite <- !app_assoc. reflexivity.
  - exists v. eexists. rewrite <- !app_assoc. reflexivity.
Qed.

(** C31.  [parseThinkTags] reads the markup: every text is made of visible
    pieces, closed blocks and possibly an open block; the visible
    content is the visible pieces in order (trimmed when there is a block), the
    reasoning is the blocks in order separated by blank lines, the flag tells
    whether the last block is open, and the loop always ends. *)
Theorem parseThinkTags_spec :
  (forall text, exists d, think_wf d /\ render d = text) /\
  (forall d, think_wf d -> tagged d ->
     parseThinkTags (render d)
     = mkParsed (trim (concat (map fst (blocks d)) ++ tailText d)) (trim (join [10; 10] (reasonings d)))
         (match openBlock d with Some _ => true | None => false end)) /\
  (forall d, think_wf d -> ~ tagged d -> parseThinkTags (render d) = mkParsed (tailText d) [] false).
Proof.
  split_and!.
  - intros text. remember (length text) as n eqn:En. revert text En.
    induction n as [n IH] using (well_founded_induction lt_wf). intros text En.
    destruct (index_of open_tag text) as [i|] eqn:E.
    2: { exists (mkThink [] text None). split; [|by unfold render; cbn; rewrite app_nil_r].
         apply index_of_None in E. by split_and!. }
    apply index_of_Some in E as [[Et Ev]|?]; [|done]. set (v := take i text) in *. set (w := drop (i + _) text) in *.
    destruct (index_of close_tag w) as [j|] eqn:E.
    2: { exists (mkThink [] v (Some w)). apply index_of_None in E. by split_and!. }
    apply index_of_Some in E as [[Ew Er]|?]; [|done]. set (r := take j w) in *. set (z := drop (j + _) w) in *.
    destruct (IH (length z)) with (text := z) as (d & Hd & Hz); [| done |].
    { rewrite En, Et, Ew, !length_app. change (length open_tag) with 7%nat. lia. }
    exists (mkThink ((v, r) :: blocks d) (tailText d) (openBlock d)). split.
    + destruct Hd as (H1 & H2 & H3). split_and!; [|done|done]. by constructor.
    + unfold render, renderBlock in *. cbn [blocks tailText openBlock map concat fst snd].
      rewrite <- !app_assoc, Hz. by rewrite Et at 1; rewrite Ew at 1.
  - intros d Hd Ht. unfold parseThinkTags. rewrite render_tagged by done. cbn [negb].
    destruct (thinkLoop_render (S (length (render d))) d Hd) as (vs & -> & Ec).
    { pose proof (render_length d). lia. }
    by rewrite join_nil_concat, Ec.
  - intros [[|b bs] tl [o|]] (_ & H & _) Ht; try (exfalso; apply Ht; unfold tagged; cbn; by auto).
    unfold render, parseThinkTags. cbn in *. by rewrite app_nil_r, H.
Qed.

(** ** Streaming *)
(** What the conversation shows of a message. *)
Record Shown := mkShown {
  s_key : jsstr; s_from : MessageRole; s_content : jsstr; s_reasoning : option jsstr;
  s_status : option MessageStatus; s_streaming : option bool }.

Definition shown (m : Message) : Shown :=
  mkShown (key m) (from m) (getMessageContent m) (rcontent <$> reasoning m) (status m) (isReasoningStreaming m).

Lemma shown_completeReasoningTiming m t : shown (completeReasoningTiming m t) = shown m.
Proof.
  unfold completeReasoningTiming, shown. destruct (reasoning m) as [r|] eqn:E; [|by rewrite E].
  destruct (rdurationMs r); [by rewrite E | done].
Qed.

Lemma shown_completeAssistantTiming m t : shown (completeAssistantTiming m t) = shown m.
Proof. unfold completeAssistantTiming. by destruct (negb _). Qed.

Definition set_shown_status (s : MessageStatus) (v : Shown) : Shown :=
  mkShown (s_key v) (s_from v) (s_content v) (s_reasoning v) (Some s) (s_streaming v).

Lemma shown_with_status s m : shown (with_status s m) = set_shown_status s (shown m).
Proof. reflexivity. Qed.

(** The message a finalised one shows. *)
Lemma shown_finalize m api t1 t2 :
  let c := getMessageContent m in
  let tags := includes open_tag c in
  let fr := str_or (default [] api) (str_or (default [] (rcontent <$> reasoning m))
              (if tags then preasoning (parseThinkTags c) else [])) in
  shown (finalizeMessage m api t1 t2)
  = mkShown (key m) (from m) (if tags then visibleContent (parseThinkTags c) else c)
      (if truthy fr then Some fr else None) (status m) (Some false).
Proof.
  cbv zeta. unfold finalizeMessage. rewrite shown_completeReasoningTiming. fold (getMessageContent m).
  set (c := getMessageContent m). set (p := parseThinkTags c).
  set (fr := str_or _ (str_or _ _)). set (fr' := str_or _ (str_or (default _ _) _)).
  assert (fr = fr') as -> by (unfold fr, fr'; by destruct (reasoning m), (includes open_tag c)).
  unfold shown. f_equal.
  - by destruct (includes open_tag c).
  - by destruct (truthy fr').
Qed.

(** The chunks of a stream, with the clock readings of their application. *)
Record ChunkEvent := mkChunk { ctype : StreamChunkType; chunk : jsstr; clock1 : Z; clock2 : Z }.

Definition feed (m : Message) (es : list ChunkEvent) : Message :=
  fold_left (fun m e => applyStreamingChunk m (ctype e) (chunk e) (clock1 e) (clock2 e)) es m.

Definition contentChunk (e : ChunkEvent) : jsstr := match ctype e with ccontent => chunk e | creasoning => [] end.
Definition reasoningChunk (e : ChunkEvent) : jsstr := match ctype e with creasoning => chunk e | ccontent => [] end.

(** No chunk repeats the whole text received before it on its channel. *)
Fixpoint deltas (accC accR : jsstr) (es : list ChunkEvent) : Prop :=
  match es with
  | [] => True
  | e :: es =>
      match ctype e with
      | ccontent => (accC = [] \/ starts_with accC (chunk e) = false) /\ deltas (accC ++ chunk e) accR es
      | creasoning => (accR = [] \/ starts_with accR (chunk e) = false) /\ deltas accC (accR ++ chunk e) es
      end
  end.

Lemma appendable acc c : acc = [] \/ starts_with acc c = false -> getAppendableChunk acc c = c.
Proof. unfold getAppendableChunk. intros [-> | ->]; [done|]. by rewrite orb_true_r. Qed.

Lemma includes_app_l p s t : includes p (s ++ t) = false -> includes p s = false.
Proof.
  rewrite <- !not_true_iff_false, !includes_spec. intros H (a & b & ->). apply H. exists a, (b ++ t).
  by rewrite <- !app_assoc.
Qed.

Lemma preasoning_tag c : truthy (preasoning (parseThinkTags c)) = true -> includes open_tag c = true.
Proof. unfold parseThinkTags. by destruct (includes open_tag c). Qed.

Lemma parse_no_tag c : includes open_tag c = false -> parseThinkTags c = mkParsed c [] false.
Proof. unfold parseThinkTags. by intros ->. Qed.

(** The state of a message after part of a stream. *)
Record fed (m0 m : Message) (accC accR : jsstr) : Prop := {
  fed_key : key m = key m0;
  fed_from : from m = from m0;
  fed_content : getMessageContent m = accC;
  fed_status : status m <> Some ERROR;
  fed_plain : includes open_tag accC = false -> default [] (rcontent <$> reasoning m) = accR;
  fed_think : accR = [] -> truthy (preasoning (parseThinkTags accC)) = true ->
    rcontent <$> reasoning m = Some (preasoning (parseThinkTags accC));
}.

Lemma start_rcontent m t : rcontent (startReasoningTiming m t) = default [] (rcontent <$> reasoning m).
Proof. unfold startReasoningTiming. by destruct (reasoning m). Qed.

(** The text and the reasoning a content chunk leaves. *)
Lemma shown_process m c t :
  let full := getMessageContent m ++ c in
  let p := parseThinkTags full in
  key (processStreamingContent m (Some c) t) = key m /\
  from (processStreamingContent m (Some c) t) = from m /\
  getMessageContent (processStreamingContent m (Some c) t) = full /\
  rcontent <$> reasoning (processStreamingContent m (Some c) t)
  = (if truthy (preasoning p) then Some (preasoning p) else rcontent <$> reasoning m).
Proof.
  cbv zeta. unfold processStreamingContent.
  assert (E : (if truthy c then content (getCurrentVersion m) ++ c else content (getCurrentVersion m))
              = getMessageContent m ++ c) by (destruct c; [symmetry; apply app_nil_r | reflexivity]).
  rewrite E. set (full := getMessageContent m ++ c).
  destruct (reasoning m) as [r|] eqn:Er; cbn [andb].
  - split_and!; try done. by destruct (truthy (preasoning (parseThinkTags full))).
  - destruct (includes open_tag full) eqn:Ei; cbn [negb].
    + split_and!; try done. by destruct (truthy (preasoning (parseThinkTags full))).
    + rewrite parse_no_tag by done. split_and!; try done. cbn. by rewrite Er.
Qed.

(** A text after a chunk: a chunk that begins with all of the text replaces it. *)
Definition take_chunk (acc c : jsstr) : jsstr := if starts_with acc c then c else acc ++ c.

Lemma take_appendable acc c : take_chunk acc c = acc ++ getAppendableChunk acc c.
Proof.
  unfold take_chunk, getAppendableChunk. destruct (starts_with acc c) eqn:E; cbn [negb]; [|by rewrite orb_true_r].
  apply starts_with_spec in E as [t ->]. destruct acc; [done|]. cbn [truthy negb orb]. by rewrite drop_app_length.
Qed.

(** The text received on a channel. *)
Fixpoint received (ty : StreamChunkType) (acc : jsstr) (es : list ChunkEvent) : jsstr :=
  match es with
  | [] => acc
  | e :: es => received ty (match ctype e, ty with
                            | ccontent, ccontent | creasoning, creasoning => take_chunk acc (chunk e)
                            | _, _ => acc
                            end) es
  end.

Lemma received_deltas es accC accR : deltas accC accR es ->
  received ccontent accC es = accC ++ concat (map contentChunk es) /\ received creasoning accR es = accR ++ concat (map reasoningChunk es).
Proof.
  revert accC accR. induction es as [|e es IH]; intros accC accR Hd; cbn [received map concat]; [by rewrite !app_nil_r|].
  unfold contentChunk at 1, reasoningChunk at 1. cbn in Hd. destruct (ctype e); destruct Hd as [Ha Hd]; rewrite take_appendable, (appendable _ _ Ha);
    destruct (IH _ _ Hd) as [-> ->]; by rewrite <- !app_assoc.
Qed.

Lemma feed_step m0 m accC accR e :
  fed m0 m accC accR ->
  fed m0 (applyStreamingChunk m (ctype e) (chunk e) (clock1 e) (clock2 e)) (received ccontent accC [e]) (received creasoning accR [e]).
Proof.
  intros [Hk Hf Hc Hs Hp Ht]. destruct e as [ty c t1 t2]. unfold applyStreamingChunk. cbn [received].
  cbn [ctype chunk clock1 clock2] in *. rewrite bool_decide_false by done. destruct ty; rewrite take_appendable.
  - rewrite start_rcontent. split; try done.
    + cbn. intros Hi. by rewrite (Hp Hi).
    + cbn. intros [-> Hn]%app_eq_nil Hth. change (getAppendableChunk [] c) with c in Hn. rewrite Hn, (Ht eq_refl Hth). cbn. f_equal.
      unfold getAppendableChunk. destruct (preasoning (parseThinkTags accC)); [done|]. cbn. by rewrite app_nil_r.
  - change (content (getCurrentVersion m)) with (getMessageContent m). rewrite Hc. set (a := getAppendableChunk accC c).
    destruct (shown_process m a t1) as (Pk & Pf & Pc & Pr). rewrite Hc in Pc, Pr.
    set (q := processStreamingContent m (Some a) t1) in *.
    assert (Hq : forall x, shown (with_status STREAMING match isReasoningStreaming q with Some true => q | _ => completeReasoningTiming q x end)
        = shown (with_status STREAMING q)).
    { intros x. rewrite !shown_with_status. f_equal. destruct (isReasoningStreaming q) as [[]|]; auto using shown_completeReasoningTiming. }
    specialize (Hq t2). set (z := with_status STREAMING _) in Hq |- *.
    split.
    + change (s_key (shown z) = key m0). rewrite Hq. change (key q = key m0). congruence.
    + change (s_from (shown z) = from m0). rewrite Hq. change (from q = from m0). congruence.
    + change (s_content (shown z) = accC ++ a). rewrite Hq. exact Pc.
    + change (s_status (shown z) <> Some ERROR). by rewrite Hq.
    + intros Hi. change (default [] (s_reasoning (shown z)) = accR). rewrite Hq.
      change (default [] (rcontent <$> reasoning q) = accR). rewrite Pr, (parse_no_tag _ Hi). apply Hp.
      by eapply includes_app_l.
    + intros -> Hth. change (s_reasoning (shown z) = Some (preasoning (parseThinkTags (accC ++ a)))). rewrite Hq.
      change (rcontent <$> reasoning q = Some (preasoning (parseThinkTags (accC ++ a)))). by rewrite Pr, Hth.
Qed.

Lemma feed_all m0 es m accC accR :
  fed m0 m accC accR -> fed m0 (feed m es) (received ccontent accC es) (received creasoning accR es).
Proof.
  revert m accC accR. induction es as [|e es IH]; intros m accC accR H; [done|].
  cbn [feed fold_left]. apply (IH _ (received ccontent accC [e]) (received creasoning accR [e])). by apply feed_step.
Qed.


Definition sampleMessage : Message := createLoadingAssistantMessage (js "k") (js "v") 0.


(** A chunk that begins with all the text received so far is taken as a
    new snapshot of the answer and not as an addition: after the text [s], the
    chunk [s ++ t] leaves [s ++ t] where the response's text is [s ++ s ++ t]. *)
Theorem repeated_text_replaces m s t t1 t2 :
  getMessageContent m = s -> s <> [] -> status m <> Some ERROR ->
  getMessageContent (applyStreamingChunk m ccontent (s ++ t) t1 t2) = s ++ t.
Proof.
  intros Hc Hs He. unfold applyStreamingChunk. rewrite bool_decide_false by done. cbv zeta.
  fold (getMessageContent m). rewrite Hc.
  assert (Ha : getAppendableChunk s (s ++ t) = t).
  { unfold getAppendableChunk. rewrite starts_with_app. destruct s; [done|]. cbn [truthy negb orb].
    apply (drop_app_length (z :: s)). }
  rewrite Ha. destruct (shown_process m t t1) as (_ & _ & Pc & _). rewrite Hc in Pc.
  set (q := processStreamingContent m (Some t) t1) in *.
  change (getMessageContent (with_status STREAMING ?x)) with (getMessageContent x).
  destruct (isReasoningStreaming q) as [[]|]; [done|..];
    exact (eq_trans (f_equal s_content (shown_completeReasoningTiming q t2)) Pc).
Qed.

Lemma repeated_text_replaces_witness :
  let m := updateCurrentVersionContent sampleMessage (js "ha") in
  getMessageContent (applyStreamingChunk m ccontent (js "ha") 1 1) = js "ha".
Proof.
  cbv zeta. refine (repeated_text_replaces (updateCurrentVersionContent sampleMessage (js "ha")) (js "ha") [] 1 1 _ _ _);
    [reflexivity | discriminate | discriminate].
Defined.

(** An empty [<think>] block whose closing tag is split between two chunks
    leaves the fragment of the tag as the reasoning of the answer: the hypothesis
    of [streaming_matches_response] on the reasoning cannot be dropped. *)
Theorem split_closing_tag_kept :
  let es := [mkChunk ccontent (js "<think></") 1 1; mkChunk ccontent (js "think>hi") 2 2] in
  let c := concat (map contentChunk es) in
  deltas [] [] es /\
  s_reasoning (shown (completeAssistantMessage (feed sampleMessage es) 3 3 3)) = Some (js "</") /\
  s_reasoning (shown (applyChatCompletionChoice sampleMessage (mkChoice (Some c) (Some [])) 3 3 3)) = None.
Proof.
  cbv zeta. split; [|split; vm_compute; reflexivity].
  split; [left; reflexivity|]. split; [right; vm_compute; reflexivity | done].
Qed.

(** ** Loading *)
Lemma lastIndex_Some p ms i :
  lastIndex p ms = Some i ->
  (exists m, ms !! i = Some m /\ p m = true) /\ forall j m, (i < j)%nat -> ms !! j = Some m -> p m = false.
Proof.
  revert i. induction ms as [|m ms IH]; intros i H; [done|]. cbn in H.
  destruct (lastIndex p ms) as [k|] eqn:E.
  - injection H as <-. destruct (IH k eq_refl) as [H1 H2]. split; [done|].
    intros [|j] m' Hj Hm; [lia|]. apply (H2 j); [lia | done].
  - destruct (p m) eqn:Em; [|done]. injection H as <-. split; [by exists m|].
    intros [|j] m' Hj Hm; [lia|]. cbn in Hm. clear IH Hj. revert j Hm E.
    induction ms as [|x ms IH]; intros j Hm E; [done|]. cbn in E.
    destruct (lastIndex p ms); [done|]. destruct (p x) eqn:Ex; [done|].
    destruct j; cbn in Hm; [by simplify_eq | by eapply IH].
Qed.

Lemma lastIndex_None p ms : lastIndex p ms = None -> forall m, m ∈ ms -> p m = false.
Proof.
  induction ms as [|x ms IH]; intros H m Hm; [set_solver|]. cbn in H.
  destruct (lastIndex p ms); [done|]. destruct (p x) eqn:Ex; [done|].
  apply elem_of_cons in Hm as [->|Hm]; auto.
Qed.

Lemma status_completeAssistantTiming m t : status (completeAssistantTiming m t) = status m.
Proof. exact (f_equal s_status (shown_completeAssistantTiming m t)). Qed.

Lemma sanitizeMessage_final t m t1 t2 t3 : isAssistantMessageFinal (sanitizeMessage t m t1 t2 t3) = true.
Proof.
  unfold isAssistantMessageFinal, sanitizeMessage. cbv zeta.
  match goal with |- context [if ?b then _ else _] => destruct b end; by rewrite status_completeAssistantTiming.
Qed.

Lemma final_not_pending m : isAssistantMessageFinal m = true -> isPendingAssistantMessage m = false.
Proof.
  unfold isAssistantMessageFinal, isPendingAssistantMessage, isAssistantMessagePending.
  destruct (status m) as [[]|]; try done; intros _; apply andb_false_r.
Qed.

(** Loading a conversation settles the answer that was being generated:
    the last pending answer becomes complete or an error, no pending answer is
    left after it, and every other message is unchanged; so when at most one
    answer was pending, none is afterwards. *)
Theorem sanitize_settles t ms t1 t2 t3 :
  let ms' := sanitizeMessagesOnLoad t ms t1 t2 t3 in
  length ms' = length ms /\
  match lastIndex isPendingAssistantMessage ms with
  | None => ms' = ms /\ forall m, m ∈ ms' -> isPendingAssistantMessage m = false
  | Some i =>
      (exists m, ms' !! i = Some m /\ isAssistantMessageFinal m = true) /\
      (forall j, j <> i -> ms' !! j = ms !! j) /\
      (forall j m, (i <= j)%nat -> ms' !! j = Some m -> isPendingAssistantMessage m = false) /\
      ((forall j m, ms !! j = Some m -> isPendingAssistantMessage m = true -> j = i) ->
       forall m, m ∈ ms' -> isPendingAssistantMessage m = false)
  end.
Proof.
  cbv zeta. unfold sanitizeMessagesOnLoad.
  destruct (lastIndex isPendingAssistantMessage ms) as [i|] eqn:E.
  2: { split; [done|]. split; [done|]. by apply lastIndex_None. }
  apply lastIndex_Some in E as [(m & Hm & Hp) Hafter]. rewrite Hm.
  set (m' := sanitizeMessage t m t1 t2 t3). pose proof (sanitizeMessage_final t m t1 t2 t3) as Hf. fold m' in Hf.
  assert (Hi : (i < length ms)%nat) by (by eapply lookup_lt_Some).
  assert (Hat : <[i:=m']> ms !! i = Some m') by (by apply list_lookup_insert_eq).
  assert (Hne : forall j, j <> i -> <[i:=m']> ms !! j = ms !! j) by (intros; by apply list_lookup_insert_ne).
  split; [apply length_insert|]. split_and!.
  - by exists m'.
  - done.
  - intros j x Hj Hx. destruct (decide (j = i)) as [->|N].
    + rewrite Hat in Hx. injection Hx as <-. by apply final_not_pending.
    + rewrite Hne in Hx by done. apply (Hafter j); [lia | done].
  - intros Huniq x [j Hx]%list_elem_of_lookup. destruct (decide (j = i)) as [->|N].
    + rewrite Hat in Hx. injection Hx as <-. by apply final_not_pending.
    + rewrite Hne in Hx by done. destruct (isPendingAssistantMessage x) eqn:Ex; [|done].
      exfalso. apply N. by eapply Huniq.
Qed.

End PlaygroundMessages.
