(* ===== verification/PlaygroundChat.v ===== *)
(** * Chat playground: requests and streams
      ([src/web/default/src/features/playground/hooks/use-chat-handler.ts],
      [use-stream-request.ts], [use-playground-conversation.ts],
      [lib/streaming])

    The request payload, the reading of stream events, and the state machine
    of a conversation: the hooks' state (messages, pending chunks, flush timer,
    request and stream bookkeeping) with one function per handler, composed
    into the events that the user, the network and the timer produce.  The
    translation function [t] of i18next is a parameter. *)
From S2P Require Import Prelude JsString JsNumber Json PlaygroundMessages.
Import PlaygroundMessages.

Module PlaygroundChat.
#[local] Arguments js : simpl never.

(** ** Request payload ([payload-builder.ts]) *)
Record PlaygroundConfig := mkConfig {
  model : jsstr; group : jsstr; temperature : num; top_p : num; max_tokens : num;
  frequency_penalty : num; presence_penalty : num; seed : option num; stream : bool }.

Record ParameterEnabled := mkEnabled {
  en_temperature : bool; en_top_p : bool; en_max_tokens : bool; en_frequency_penalty : bool;
  en_presence_penalty : bool; en_seed : bool }.

Record ChatCompletionRequest := mkRequest {
  q_model : jsstr; q_group : jsstr; q_messages : list ChatCompletionMessage; q_stream : bool;
  q_temperature : option num; q_top_p : option num; q_max_tokens : option num;
  q_frequency_penalty : option num; q_presence_penalty : option num; q_seed : option num }.

Definition enabled_value (b : bool) (v : num) : option num := if b then Some v else None.

Definition buildChatCompletionPayload (messages : list Message) (config : PlaygroundConfig) (enabled : ParameterEnabled)
    : ChatCompletionRequest :=
  let processedMessages := map formatMessageForAPI (List.filter isValidMessage messages) in
  mkRequest (model config) (group config) processedMessages (stream config)
    (enabled_value (en_temperature enabled) (temperature config))
    (enabled_value (en_top_p enabled) (top_p config))
    (enabled_value (en_max_tokens enabled) (max_tokens config))
    (enabled_value (en_frequency_penalty enabled) (frequency_penalty config))
    (enabled_value (en_presence_penalty enabled) (presence_penalty config))
    (if en_seed enabled then seed config else None).

(** ** Stream events ([stream-utils.ts]) *)
Definition STREAM_DONE_MESSAGE : jsstr := js "[DONE]".
Definition STREAM_CLOSED_READY_STATE : Z := 2.

(** [v.k] of a JSON value that is not [null]. *)
Definition prop (k : jsstr) (v : json) : option json := match v with JObj ps => map_get k ps | _ => None end.

(** [v?.[0]] *)
Definition first_elem (v : json) : option json :=
  match v with
  | JArr l => head l
  | JObj ps => map_get (js "0") ps
  | JStr (c :: _) => Some (JStr [c])
  | _ => None
  end.

(** [v?.k]: nothing of [null] and [undefined]. *)
Definition opt_prop (k : jsstr) (v : option json) : option json := match v with Some w => prop k w | None => None end.

Definition truthy_opt (v : option json) : bool := match v with Some w => json_truthy w | None => false end.

(** The update of a field of the delta: none when the field is falsy.  The
    field is declared as a string but nothing checks it, so it is kept as the
    JSON value that was received. *)
Definition delta_field (ty : StreamChunkType) (v : option json) : list (StreamChunkType * json) :=
  match v with Some w => if json_truthy w then [(ty, w)] else [] | None => [] end.

(** [None] when the code throws. *)
Definition parseStreamMessageUpdates (data : jsstr) : option (list (StreamChunkType * json)) :=
  match json_parse data with
  | None => None
  | Some JNull => None
  | Some chunk =>
      let choices := prop (js "choices") chunk in
      let delta := opt_prop (js "delta") (choices ≫= first_elem) in
      if negb (truthy_opt delta) then Some []
      else Some (delta_field creasoning (opt_prop (js "reasoning_content") delta) ++
                 delta_field ccontent (opt_prop (js "content") delta))
  end.

Definition isStreamDoneMessage (data : jsstr) : bool := bool_decide (data = STREAM_DONE_MESSAGE).

Definition isStreamClosedReadyState (readyState : option Z) : bool := bool_decide (readyState = Some STREAM_CLOSED_READY_STATE).

(** [error.code || undefined].  The message record keeps a string: a code of
    another type, which the code only ever compares with a string, is left out. *)
Definition error_code (v : option json) : option jsstr :=
  match v with Some (JStr (c :: s)) => Some (c :: s) | _ => None end.

(** The error message, which is the JSON value received, and the error code. *)
Definition parseStreamErrorDetails (data : option jsstr) : json * option jsstr :=
  match data with
  | None | Some [] => (JStr e_API_REQUEST_ERROR, None)
  | Some d =>
      match json_parse d with
      | None => (JStr d, None)
      | Some parsed =>
          let error := prop (js "error") parsed in
          if negb (truthy_opt error) then (JStr d, None)
          else let message := opt_prop (js "message") error in
               (if truthy_opt message then default JNull message else JStr d, error_code (opt_prop (js "code") error))
      end
  end.

Definition getStreamReadyStateError (eventReadyState : option Z) (status : option Z) : option jsstr :=
  match eventReadyState, status with
  | Some rs, Some st =>
      if (STREAM_CLOSED_READY_STATE <=? rs)%Z && negb (bool_decide (st = 200%Z))
      then Some (js "HTTP " ++ string_of_Z st ++ js ": " ++ e_CONNECTION_CLOSED) else None
  | _, _ => None
  end.

(** [request-error-utils.ts]: the code, the message of the response and the message of the error. *)
Record RequestErrorLike := mkRequestError { err_code : option jsstr; err_data_message : option jsstr; err_message : option jsstr }.

Definition parseRequestErrorDetails (e : RequestErrorLike) : jsstr * option jsstr :=
  (str_or (default [] (err_data_message e)) (str_or (default [] (err_message e)) e_API_REQUEST_ERROR),
   match err_code e with Some c => if truthy c then Some c else None | None => None end).

(** ** State of the hooks *)
Record ChatState := mkState {
  messages : list Message;
  pendingContent : jsstr;
  pendingReasoning : jsstr;
  (** [streamFlushTimerRef.current !== null] *)
  flushTimer : bool;
  isRequesting : bool;
  requestIdRef : nat;
  (** the request whose controller [abortControllerRef] holds *)
  abortControllerRef : option nat;
  (** the requests whose controller was aborted, and those not answered yet *)
  aborted : list nat;
  inflight : list nat;
  sseSourceRef : option nat;
  (** sources are numbered in the order of their creation *)
  sourceCount : nat;
  closedSources : list nat;
  isStreamCompleteRef : bool;
  isStreaming : bool;
}.

Definition set_messages (ms : list Message) (st : ChatState) : ChatState :=
  mkState ms (pendingContent st) (pendingReasoning st) (flushTimer st) (isRequesting st) (requestIdRef st)
    (abortControllerRef st) (aborted st) (inflight st) (sseSourceRef st) (sourceCount st) (closedSources st)
    (isStreamCompleteRef st) (isStreaming st).
Definition set_pending (c r : jsstr) (timer : bool) (st : ChatState) : ChatState :=
  mkState (messages st) c r timer (isRequesting st) (requestIdRef st)
    (abortControllerRef st) (aborted st) (inflight st) (sseSourceRef st) (sourceCount st) (closedSources st)
    (isStreamCompleteRef st) (isStreaming st).
Definition setIsRequesting (b : bool) (st : ChatState) : ChatState :=
  mkState (messages st) (pendingContent st) (pendingReasoning st) (flushTimer st) b (requestIdRef st)
    (abortControllerRef st) (aborted st) (inflight st) (sseSourceRef st) (sourceCount st) (closedSources st)
    (isStreamCompleteRef st) (isStreaming st).
Definition set_requests (rid : nat) (ac : option nat) (ab inf : list nat) (st : ChatState) : ChatState :=
  mkState (messages st) (pendingContent st) (pendingReasoning st) (flushTimer st) (isRequesting st) rid
    ac ab inf (sseSourceRef st) (sourceCount st) (closedSources st) (isStreamCompleteRef st) (isStreaming st).
Definition set_stream (src : option nat) (count : nat) (closed : list nat) (complete streaming : bool) (st : ChatState) : ChatState :=
  mkState (messages st) (pendingContent st) (pendingReasoning st) (flushTimer st) (isRequesting st) (requestIdRef st)
    (abortControllerRef st) (aborted st) (inflight st) src count closed complete streaming.

Definition isGenerating (st : ChatState) : bool := isStreaming st || isRequesting st.

(** ** [use-stream-request.ts]: closing a stream *)
Definition closeActiveStream (source : option nat) (st : ChatState) : ChatState :=
  let streamSource := or_else source (sseSourceRef st) in
  let closed := match streamSource with Some s => set_add s (closedSources st) | None => closedSources st end in
  if match source with None => true | Some s => bool_decide (sseSourceRef st = Some s) end
  then set_stream None (sourceCount st) closed (isStreamCompleteRef st) false st
  else set_stream (sseSourceRef st) (sourceCount st) closed (isStreamCompleteRef st) (isStreaming st) st.

Section Handlers.
(** The translation function; the clock readings of the event being handled. *)
Context (t : jsstr -> jsstr) (now : nat -> Z).

(** ** [use-chat-handler.ts] *)
(** [None] when the code throws: a chunk that is not a string has no method
    [startsWith], and is turned into a string when nothing is pending. *)
Definition mergePendingStreamChunk (currentChunk : jsstr) (nextChunk : json) : option jsstr :=
  if negb (truthy currentChunk) then Some (currentChunk ++ json_to_string nextChunk)
  else match nextChunk with
       | JStr next => Some (if negb (starts_with currentChunk next) then currentChunk ++ next else next)
       | _ => None
       end.

Definition flushStreamUpdates (st : ChatState) : ChatState :=
  let c := pendingContent st in
  let r := pendingReasoning st in
  if negb (truthy r) && negb (truthy c) then set_pending c r false st
  else
    set_messages
      (updateLastAssistantMessage (messages st) (fun message =>
         let m1 := if truthy r then applyStreamingChunk message creasoning r (now 0) (now 1) else message in
         if truthy c then applyStreamingChunk m1 ccontent c (now 2) (now 3) else m1))
      (set_pending [] [] false st).

Definition KNOWN_ERROR_MESSAGES : list jsstr := set_of_list ERROR_MESSAGES.

Definition getDisplayError (error : jsstr) : jsstr :=
  if set_has error KNOWN_ERROR_MESSAGES then t error
  else if ends_with (js ": " ++ e_CONNECTION_CLOSED) error
  then take (length error - length e_CONNECTION_CLOSED) error ++ t e_CONNECTION_CLOSED
  else error.

Definition handleStreamUpdate (type : StreamChunkType) (chunk : json) (st : ChatState) : option ChatState :=
  match type with
  | ccontent =>
      c ← mergePendingStreamChunk (pendingContent st) chunk; Some (set_pending c (pendingReasoning st) true st)
  | creasoning =>
      r ← mergePendingStreamChunk (pendingReasoning st) chunk; Some (set_pending (pendingContent st) r true st)
  end.

(** The loop over the updates: the state it leaves and whether it ended
    without throwing. *)
Fixpoint handleStreamUpdates (updates : list (StreamChunkType * json)) (st : ChatState) : ChatState * bool :=
  match updates with
  | [] => (st, true)
  | (type, chunk) :: rest =>
      match handleStreamUpdate type chunk st with
      | Some st' => handleStreamUpdates rest st'
      | None => (st, false)
      end
  end.

Definition handleStreamComplete (st : ChatState) : ChatState :=
  let st := setIsRequesting false (flushStreamUpdates st) in
  set_messages (updateLastAssistantMessage (messages st) (fun message =>
    if isAssistantMessageFinal message then message else completeAssistantMessage message (now 4) (now 5) (now 6))) st.

Definition handleStreamError (error : jsstr) (code : option jsstr) (st : ChatState) : ChatState :=
  let st := setIsRequesting false (flushStreamUpdates st) in
  set_messages (updateAssistantMessageWithError (messages st) (getDisplayError error) code (t e_API_REQUEST_ERROR) (now 4)) st.

(** The [handleError] closure of a stream. *)
Definition handleError (source : nat) (errorMessage : jsstr) (code : option jsstr) (st : ChatState) : ChatState :=
  if isStreamCompleteRef st then st
  else closeActiveStream (Some source) (handleStreamError errorMessage code st).

(** [handleError] with a message that is not a string: [getDisplayError] throws
    on it, so neither the last message is written nor the stream closed. *)
Definition handleErrorUntyped (st : ChatState) : ChatState :=
  if isStreamCompleteRef st then st else setIsRequesting false (flushStreamUpdates st).

(** [sendStreamRequest]; [starts] is whether [source.stream()] returns. *)
Definition sendStreamRequest (starts : bool) (st : ChatState) : ChatState :=
  let closed := match sseSourceRef st with Some s => set_add s (closedSources st) | None => closedSources st end in
  let source := sourceCount st in
  let st := set_stream (Some source) (S source) closed false true st in
  if starts then st
  else closeActiveStream (Some source) (handleStreamError e_STREAM_START_ERROR None st).

Definition sendStreamingChat (starts : bool) (st : ChatState) : ChatState := sendStreamRequest starts (setIsRequesting true st).

Definition onStreamMessage (source : nat) (data : jsstr) (st : ChatState) : ChatState :=
  if isStreamDoneMessage data then
    let st := set_stream (sseSourceRef st) (sourceCount st) (closedSources st) true (isStreaming st) st in
    handleStreamComplete (closeActiveStream (Some source) st)
  else match parseStreamMessageUpdates data with
       | Some updates =>
           let '(st', completed) := handleStreamUpdates updates st in
           if completed then st' else handleError source e_PARSE_ERROR None st'
       | None => handleError source e_PARSE_ERROR None st
       end.

Definition onStreamError (source : nat) (readyState : option Z) (data : option jsstr) (st : ChatState) : ChatState :=
  if isStreamClosedReadyState readyState then st
  else match parseStreamErrorDetails data with
       | (JStr errorMessage, code) => handleError source errorMessage code st
       | _ => handleErrorUntyped st
       end.

Definition onReadyStateChange (source : nat) (readyState status : option Z) (st : ChatState) : ChatState :=
  match getStreamReadyStateError readyState status with
  | Some errorMessage => handleError source errorMessage None st
  | None => st
  end.

(** [sendNonStreamingChat] up to its [await]. *)
Definition sendNonStreamingChat (st : ChatState) : ChatState :=
  let requestId := S (requestIdRef st) in
  setIsRequesting true
    (set_requests requestId (Some requestId) (aborted st) (requestId :: inflight st) st).

(** The [finally] block. *)
Definition finishRequest (requestId : nat) (st : ChatState) : ChatState :=
  let st := set_requests (requestIdRef st) (abortControllerRef st) (aborted st)
              (filter (fun r => r <> requestId) (inflight st)) st in
  if bool_decide (requestIdRef st = requestId)
  then setIsRequesting false (set_requests (requestIdRef st) None (aborted st) (inflight st) st)
  else st.

(** The continuation after the response, or after the rejection. *)
Definition onResponse (requestId : nat) (choices : list ChatCompletionChoice) (st : ChatState) : ChatState :=
  finishRequest requestId
    (if bool_decide (requestId ∈ aborted st) then st
     else if negb (hasChatCompletionChoice choices) then handleStreamError e_API_REQUEST_ERROR None st
     else set_messages (updateLastAssistantMessage (messages st) (fun message =>
            default message (applyChatCompletionResponse message choices (now 0) (now 1) (now 2)))) st).

Definition onRejection (requestId : nat) (error : RequestErrorLike) (st : ChatState) : ChatState :=
  finishRequest requestId
    (if bool_decide (requestId ∈ aborted st) then st
     else let '(errorMessage, code) := parseRequestErrorDetails error in handleStreamError errorMessage code st).

Definition sendChat (streams starts : bool) (st : ChatState) : ChatState :=
  if streams then sendStreamingChat starts st else sendNonStreamingChat st.

Definition stopGeneration (st : ChatState) : ChatState :=
  let st := flushStreamUpdates (closeActiveStream None st) in
  let aborted' := match abortControllerRef st with Some r => r :: aborted st | None => aborted st end in
  let st := setIsRequesting false (set_requests (requestIdRef st) None aborted' (inflight st) st) in
  set_messages (updateLastAssistantMessage (messages st) (fun message =>
    if isAssistantMessagePending message then completeAssistantMessage message (now 4) (now 5) (now 6) else message)) st.

(** ** [use-playground-conversation.ts] *)
Definition handleSendMessage (text : jsstr) (n1 n2 n3 n4 : jsstr) (streams starts : bool) (st : ChatState) : ChatState :=
  sendChat streams starts (set_messages (appendUserMessagePair (messages st) text n1 n2 n3 n4 (now 9)) st).

Definition handleRegenerateMessage (messageKey : jsstr) (n1 n2 : jsstr) (streams starts : bool) (st : ChatState) : ChatState :=
  match createRegeneratedMessages (messages st) messageKey n1 n2 (now 9) with
  | None => st
  | Some nextMessages => sendChat streams starts (set_messages nextMessages st)
  end.

Definition applyEdit (editingMessageKey : jsstr) (newContent : jsstr) (shouldSubmit : bool) (n1 n2 : jsstr)
    (streams starts : bool) (st : ChatState) : ChatState :=
  match applyMessageEdit (messages st) editingMessageKey newContent shouldSubmit n1 n2 (now 9) with
  | None => st
  | Some (ms, shouldSend) =>
      let st := set_messages ms st in
      if shouldSend then sendChat streams starts st else st
  end.

Definition handleDeleteMessage (messageKey : jsstr) (st : ChatState) : ChatState :=
  set_messages (removeMessageByKey (messages st) messageKey) st.

End Handlers.

(** ** Events *)
Inductive Event :=
  (** the user *)
  | Send (text n1 n2 n3 n4 : jsstr) (streams starts : bool)
  | Regenerate (key n1 n2 : jsstr) (streams starts : bool)
  | Edit (key newContent : jsstr) (submit : bool) (n1 n2 : jsstr) (streams starts : bool)
  | Delete (key : jsstr)
  | Clear
  | Stop
  (** the network and the timer *)
  | StreamMessage (source : nat) (data : jsstr)
  | StreamError (source : nat) (readyState : option Z) (data : option jsstr)
  | ReadyState (source : nat) (readyState status : option Z)
  | FlushTimer
  | ResponseArrives (request : nat) (choices : list ChatCompletionChoice)
  | RequestFails (request : nat) (error : RequestErrorLike).

Definition step (t : jsstr -> jsstr) (now : nat -> Z) (e : Event) (st : ChatState) : ChatState :=
  match e with
  | Send text n1 n2 n3 n4 streams starts => handleSendMessage t now text n1 n2 n3 n4 streams starts st
  | Regenerate k n1 n2 streams starts => handleRegenerateMessage t now k n1 n2 streams starts st
  | Edit k c submit n1 n2 streams starts => applyEdit t now k c submit n1 n2 streams starts st
  | Delete k => handleDeleteMessage k st
  | Clear => set_messages [] st
  | Stop => stopGeneration now st
  | StreamMessage s data => onStreamMessage t now s data st
  | StreamError s rs data => onStreamError t now s rs data st
  | ReadyState s rs status => onReadyStateChange t now s rs status st
  | FlushTimer => flushStreamUpdates now st
  | ResponseArrives r choices => onResponse t now r choices st
  | RequestFails r error => onRejection t now r error st
  end.

(** The page offers sending, regenerating, deleting and clearing only while
    nothing is being generated (the input and the message actions are disabled
    otherwise).  An edit that was opened can be saved or submitted at any time:
    neither the editor nor [applyEdit] looks at the generation.  A source that
    was closed produces no more events, the timer fires when it is set and a
    request is answered once. *)
Definition enabled (e : Event) (st : ChatState) : Prop :=
  match e with
  | Send _ _ _ _ _ _ _ | Regenerate _ _ _ _ _ | Delete _ | Clear => isGenerating st = false
  | Edit _ _ _ _ _ _ _ | Stop => True
  | StreamMessage s _ | StreamError s _ _ | ReadyState s _ _ => (s < sourceCount st) /\ (s ∉ closedSources st)
  | FlushTimer => flushTimer st = true
  | ResponseArrives r _ | RequestFails r _ => r ∈ inflight st
  end.

Definition network (e : Event) : bool :=
  match e with
  | StreamMessage _ _ | StreamError _ _ _ | ReadyState _ _ _ | FlushTimer | ResponseArrives _ _ | RequestFails _ _ => true
  | _ => false
  end.

Definition initState (loaded : list Message) : ChatState :=
  mkState loaded [] [] false false 0 None [] [] None 0 [] false false.

Inductive reachable (t : jsstr -> jsstr) : ChatState -> Prop :=
  | reach_init loaded :
      Forall (fun m => isPendingAssistantMessage m = false) loaded -> reachable t (initState loaded)
  | reach_step st e now : reachable t st -> enabled e st -> reachable t (step t now e st).

(** An edit is not submitted while an answer is being generated. *)
Definition patient (e : Event) (st : ChatState) : Prop :=
  match e with Edit _ _ true _ _ _ _ => isGenerating st = false | _ => True end.

(** The states of the runs in which every event is patient. *)
Inductive calm (t : jsstr -> jsstr) : ChatState -> Prop :=
  | calm_init loaded :
      Forall (fun m => isPendingAssistantMessage m = false) loaded -> calm t (initState loaded)
  | calm_step st e now : calm t st -> enabled e st -> patient e st -> calm t (step t now e st).

(** ** Lemmas *)
Definition settled (m : Message) : Prop := isPendingAssistantMessage m = false.

(** A conversation whose last message is the answer being generated. *)
Definition generating (ms : list Message) : Prop :=
  exists ini lst, ms = ini ++ [lst] /\ from lst = assistant /\ Forall settled ini.

Lemma updateLast_app ini lst f :
  from lst = assistant -> updateLastAssistantMessage (ini ++ [lst]) f = ini ++ [f lst].
Proof.
  intros H. unfold updateLastAssistantMessage. rewrite last_snoc, bool_decide_true by done.
  rewrite length_app. cbn [length]. replace (length ini + 1 - 1) with (length ini + 0) by lia.
  by rewrite insert_app_r.
Qed.

Lemma updateLast_other ms f : (forall m, last ms = Some m -> from m <> assistant) -> updateLastAssistantMessage ms f = ms.
Proof.
  intros H. unfold updateLastAssistantMessage. destruct (last ms) as [m|]; [|done].
  by rewrite bool_decide_false by (by apply H).
Qed.

Lemma updateLast_generating ms f :
  generating ms -> (forall m, from (f m) = from m) -> generating (updateLastAssistantMessage ms f).
Proof. intros (ini & lst & -> & Hf & Hs) H. rewrite updateLast_app by done. exists ini, (f lst). by rewrite H. Qed.

Lemma updateLast_settled ms f :
  generating ms -> (forall m, from m = assistant -> settled (f m)) -> Forall settled (updateLastAssistantMessage ms f).
Proof.
  intros (ini & lst & -> & Hf & Hs) H. rewrite updateLast_app by done.
  apply Forall_app. split; [done|]. constructor; [by apply H | constructor].
Qed.

Lemma updateLast_id ms f : (forall m, m ∈ ms -> f m = m) -> updateLastAssistantMessage ms f = ms.
Proof.
  intros H. destruct ms as [|x ini _] using rev_ind; [done|].
  unfold updateLastAssistantMessage. rewrite last_snoc. case_bool_decide; [|done].
  rewrite length_app. cbn [length]. replace (length ini + 1 - 1) with (length ini + 0) by lia.
  rewrite insert_app_r. cbn. rewrite H; [done | set_solver].
Qed.

Lemma from_applyStreamingChunk m ty c t1 t2 : from (applyStreamingChunk m ty c t1 t2) = from m.
Proof.
  unfold applyStreamingChunk. case_bool_decide; [done|]. destruct ty; [done|]. cbv zeta.
  set (a := getAppendableChunk _ _). destruct (shown_process m a t1) as (_ & Pf & _).
  set (q := processStreamingContent m (Some a) t1) in *.
  change (from (with_status STREAMING ?x)) with (from x).
  destruct (isReasoningStreaming q) as [[]|]; [done|..];
    exact (eq_trans (f_equal s_from (shown_completeReasoningTiming q t2)) Pf).
Qed.

Lemma from_finalize m api t1 t2 : from (finalizeMessage m api t1 t2) = from m.
Proof. exact (f_equal s_from (shown_finalize m api t1 t2)). Qed.

Lemma complete_facts m t1 t2 t3 :
  from (completeAssistantMessage m t1 t2 t3) = from m /\ status (completeAssistantMessage m t1 t2 t3) = Some COMPLETE.
Proof.
  unfold completeAssistantMessage. set (x := with_status COMPLETE _).
  split; [|exact (f_equal s_status (shown_completeAssistantTiming x t3))].
  rewrite (f_equal s_from (shown_completeAssistantTiming x t3) : from _ = from x).
  apply (from_finalize m None t1 t2).
Qed.

Lemma choice_facts m c t1 t2 t3 :
  from (applyChatCompletionChoice m c t1 t2 t3) = from m /\ status (applyChatCompletionChoice m c t1 t2 t3) = Some COMPLETE.
Proof.
  unfold applyChatCompletionChoice. set (x := with_status COMPLETE _).
  split; [|exact (f_equal s_status (shown_completeAssistantTiming x t3))].
  rewrite (f_equal s_from (shown_completeAssistantTiming x t3) : from _ = from x).
  unfold x. change (from (with_status COMPLETE ?y)) with (from y). by rewrite from_finalize.
Qed.

Lemma settled_status m s : status m = Some s -> s = COMPLETE \/ s = ERROR -> settled m.
Proof.
  intros H Hs. unfold settled. apply final_not_pending. unfold isAssistantMessageFinal. rewrite H.
  by destruct Hs as [-> | ->].
Qed.

(** An answer that completes or is stopped. *)
Lemma settles_complete now m :
  settled (if isAssistantMessageFinal m then m else completeAssistantMessage m (now 4) (now 5) (now 6)).
Proof.
  destruct (isAssistantMessageFinal m) eqn:E; [by apply final_not_pending|].
  eapply settled_status; [apply complete_facts | by left].
Qed.

Lemma settles_stop now m :
  settled (if isAssistantMessagePending m then completeAssistantMessage m (now 4) (now 5) (now 6) else m).
Proof.
  destruct (isAssistantMessagePending m) eqn:E.
  - eapply settled_status; [apply complete_facts | by left].
  - unfold settled, isPendingAssistantMessage. rewrite E. apply andb_false_r.
Qed.

(** ** What the handlers do to the conversation *)
Definition keeps (f : Message -> Message) : Prop := forall m, key (f m) = key m /\ from (f m) = from m.

Lemma keeps_id : keeps (fun m => m).
Proof. done. Qed.

Lemma keeps_then f g : keeps f -> keeps g -> keeps (fun m => g (f m)).
Proof. intros Hf Hg m. by rewrite (proj1 (Hg _)), (proj2 (Hg _)). Qed.

Lemma updateLast_compose ms f g : keeps f ->
  updateLastAssistantMessage (updateLastAssistantMessage ms f) g = updateLastAssistantMessage ms (fun m => g (f m)).
Proof.
  intros Hf. destruct ms as [|x ini _] using rev_ind; [done|].
  destruct (decide (from x = assistant)) as [E|E].
  - rewrite (updateLast_app ini x f), (updateLast_app ini x (fun m => g (f m))) by done.
    apply updateLast_app. by rewrite (proj2 (Hf x)).
  - rewrite !(updateLast_other (ini ++ [x])); try done; rewrite last_snoc; by intros m [= <-].
Qed.

Lemma keeps_apply ty c t1 t2 : keeps (fun m => applyStreamingChunk m ty c t1 t2).
Proof.
  intros m. split; [|apply from_applyStreamingChunk].
  unfold applyStreamingChunk. case_bool_decide; [done|]. destruct ty; [done|]. cbv zeta.
  set (a := getAppendableChunk _ _). destruct (shown_process m a t1) as (Pk & _).
  set (q := processStreamingContent m (Some a) t1) in *.
  change (key (with_status STREAMING ?x)) with (key x).
  destruct (isReasoningStreaming q) as [[]|]; [done|..];
    exact (eq_trans (f_equal s_key (shown_completeReasoningTiming q t2)) Pk).
Qed.

Lemma keeps_timing s m t : key (completeAssistantTiming (with_status s m) t) = key m /\ from (completeAssistantTiming (with_status s m) t) = from m.
Proof.
  pose proof (shown_completeAssistantTiming (with_status s m) t) as H.
  split; [exact (f_equal s_key H) | exact (f_equal s_from H)].
Qed.

Lemma keeps_complete t1 t2 t3 : keeps (fun m => completeAssistantMessage m t1 t2 t3).
Proof.
  intros m. unfold completeAssistantMessage. destruct (keeps_timing COMPLETE (finalizeMessage m None t1 t2) t3) as [-> ->].
  pose proof (shown_finalize m None t1 t2) as H. split; [exact (f_equal s_key H) | exact (f_equal s_from H)].
Qed.

Lemma keeps_choice c t1 t2 t3 : keeps (fun m => applyChatCompletionChoice m c t1 t2 t3).
Proof.
  intros m. unfold applyChatCompletionChoice.
  match goal with |- context [completeAssistantTiming (with_status COMPLETE ?x) t3] => destruct (keeps_timing COMPLETE x t3) as [-> ->] end.
  match goal with |- context [finalizeMessage ?x ?y t1 t2] => pose proof (shown_finalize x y t1 t2) as H end.
  split; [exact (f_equal s_key H) | exact (f_equal s_from H)].
Qed.

(** Flushing empties the pending chunks into the last answer and changes
    nothing else. *)
Lemma flush_facts now st :
  exists f, keeps f /\
    flushStreamUpdates now st = set_messages (updateLastAssistantMessage (messages st) f) (set_pending [] [] false st).
Proof.
  unfold flushStreamUpdates. cbv zeta. destruct (pendingReasoning st) as [|r0 r] eqn:Er, (pendingContent st) as [|c0 c] eqn:Ec; cbn [truthy negb andb].
  - exists (fun m => m). split; [done|]. by rewrite updateLast_id.
  - eexists. split; [|reflexivity]. apply keeps_apply.
  - eexists. split; [|reflexivity]. apply keeps_apply.
  - eexists. split; [|reflexivity]. exact (keeps_then _ _ (keeps_apply _ _ _ _) (keeps_apply _ _ _ _)).
Qed.

(** A function on messages that ends an answer. *)
Definition settles (f : Message -> Message) : Prop := keeps f /\ forall m, settled (f m).

Lemma settles_then f g : keeps f -> settles g -> settles (fun m => g (f m)).
Proof. intros Hf [Hk Hs]. split; [by apply keeps_then | auto]. Qed.

(** Turns a flush by [f] followed by [g] into the one function [g ∘ f]. *)
Ltac after_flush f Hf :=
  match goal with |- context [updateLastAssistantMessage (updateLastAssistantMessage _ f) ?g] =>
    exists (fun m => g (f m)); split; [apply (settles_then f g Hf) | by rewrite (updateLast_compose _ _ _ Hf)] end.

(** The stream of an error, of an end and of a stop, with the chunks it flushes. *)
Lemma error_facts t now err code st :
  exists f, settles f /\
    handleStreamError t now err code st
    = set_messages (updateLastAssistantMessage (messages st) f) (setIsRequesting false (set_pending [] [] false st)).
Proof.
  unfold handleStreamError. destruct (flush_facts now st) as (f & Hf & ->). cbn.
  unfold updateAssistantMessageWithError. after_flush f Hf. split.
  - intros m. cbv zeta. match goal with |- context [completeAssistantTiming ?x ?y] => pose proof (shown_completeAssistantTiming x y) as H end.
    split; [exact (f_equal s_key H) | exact (f_equal s_from H)].
  - intros m. eapply settled_status; [|by right]. cbv zeta. by rewrite status_completeAssistantTiming.
Qed.

Lemma completed_facts now st :
  exists f, settles f /\
    handleStreamComplete now st
    = set_messages (updateLastAssistantMessage (messages st) f) (setIsRequesting false (set_pending [] [] false st)).
Proof.
  unfold handleStreamComplete. destruct (flush_facts now st) as (f & Hf & ->). cbn. after_flush f Hf. split; intros m; [|apply settles_complete].
  destruct (isAssistantMessageFinal m); [done | apply keeps_complete].
Qed.

Lemma stop_facts now st :
  exists f, settles f /\
    stopGeneration now st
    = set_messages (updateLastAssistantMessage (messages st) f)
        (setIsRequesting false
          (set_requests (requestIdRef st) None (match abortControllerRef st with Some r => r :: aborted st | None => aborted st end)
            (inflight st) (set_pending [] [] false
              (set_stream None (sourceCount st)
                (match sseSourceRef st with Some s => set_add s (closedSources st) | None => closedSources st end)
                (isStreamCompleteRef st) false st)))).
Proof.
  unfold stopGeneration, closeActiveStream. cbn [or_else]. set (st1 := set_stream None _ _ _ false st).
  destruct (flush_facts now st1) as (f & Hf & ->). cbn. after_flush f Hf. split; intros m; [|apply settles_stop].
  destruct (isAssistantMessagePending m); [apply keeps_complete | done].
Qed.

Lemma response_settles choices now :
  hasChatCompletionChoice choices = true ->
  settles (fun m => default m (applyChatCompletionResponse m choices (now 0) (now 1) (now 2))).
Proof.
  intros Hc. destruct choices as [|c cs]; [done|]. split; intros m; cbn; [apply keeps_choice|].
  eapply settled_status; [apply choice_facts | by left].
Qed.

(** What a response or a rejection does before the [finally] block: nothing if
    the request was aborted; otherwise the last answer ends. *)
Lemma answered_facts (st st' : ChatState) t now choices :
  st' = (if negb (hasChatCompletionChoice choices) then handleStreamError t now e_API_REQUEST_ERROR None st
         else set_messages (updateLastAssistantMessage (messages st) (fun message =>
            default message (applyChatCompletionResponse message choices (now 0) (now 1) (now 2)))) st) ->
  exists f, settles f /\
    (st' = set_messages (updateLastAssistantMessage (messages st) f) (setIsRequesting false (set_pending [] [] false st)) \/
     st' = set_messages (updateLastAssistantMessage (messages st) f) st).
Proof.
  intros ->. destruct (hasChatCompletionChoice choices) eqn:E; cbn [negb].
  - eexists. split; [by apply response_settles | by right].
  - destruct (error_facts t now e_API_REQUEST_ERROR None st) as (f & Hf & ->). exists f. auto.
Qed.

(** ** Invariant *)
Definition noPending (st : ChatState) : Prop := pendingContent st = [] /\ pendingReasoning st = [] /\ flushTimer st = false.
Definition allClosed (st : ChatState) : Prop := forall s, s ∈ closedSources st <-> s < sourceCount st.

(** The active stream is the last source, the only one open; without one
    nothing waits to be shown. *)
Definition streamOk (st : ChatState) : Prop :=
  match sseSourceRef st with
  | None => isStreaming st = false /\ noPending st /\ allClosed st
  | Some s =>
      isStreaming st = true /\ isStreamCompleteRef st = false /\ S s = sourceCount st /\
      (forall s', s' ∈ closedSources st <-> s' < sourceCount st /\ s' <> s)
  end.

(** Requests are numbered in order; while the page waits for one without a
    stream, the last one is on its way and can be aborted. *)
Definition requestsOk (st : ChatState) : Prop :=
  (forall r, r ∈ inflight st -> r <= requestIdRef st) /\ (forall r, r ∈ aborted st -> r <= requestIdRef st) /\
  (forall r, abortControllerRef st = Some r -> r = requestIdRef st) /\
  (isStreaming st = false -> isRequesting st = true ->
     requestIdRef st ∈ inflight st /\ (requestIdRef st ∉ aborted st) /\ abortControllerRef st = Some (requestIdRef st)).

Definition conversationOk (generates : bool) (ms : list Message) : Prop :=
  if generates then generating ms else Forall settled ms.

Definition Inv (st : ChatState) : Prop :=
  requestsOk st /\ streamOk st /\ conversationOk (isGenerating st) (messages st).

Lemma conversation_settles b b' ms f :
  conversationOk b ms -> settles f -> (b' = true -> b = true) -> conversationOk b' (updateLastAssistantMessage ms f).
Proof.
  intros H [Hk Hs] Hb. destruct b'.
  - rewrite Hb in H by done. apply updateLast_generating; [done|]. apply Hk.
  - destruct b; [apply updateLast_settled; auto|]. cbn in *. unfold updateLastAssistantMessage.
    destruct (last ms); [|done]. case_bool_decide; [|done]. by apply Forall_insert.
Qed.

Lemma allClosed_add s st :
  S s = sourceCount st -> (forall s', s' ∈ closedSources st <-> s' < sourceCount st /\ s' <> s) ->
  forall s', s' ∈ set_add s (closedSources st) <-> s' < sourceCount st.
Proof. intros E H s'. rewrite elem_of_set_add, H. destruct (decide (s' = s)); split; intros; try lia; naive_solver. Qed.

(** A source that still produces events is the active one. *)
Lemma open_source s st :
  streamOk st -> s < sourceCount st -> (s ∉ closedSources st) -> sseSourceRef st = Some s.
Proof.
  unfold streamOk. destruct (sseSourceRef st) as [s'|].
  - intros (_ & _ & _ & Hc) Hs Hn. destruct (decide (s = s')) as [->|N]; [done|]. destruct Hn. by apply Hc.
  - intros (_ & _ & Hc) Hs Hn. by apply Hc in Hs.
Qed.

Lemma streaming_generates st s : streamOk st -> sseSourceRef st = Some s -> isGenerating st = true.
Proof. unfold streamOk, isGenerating. intros H E. rewrite E in H. by destruct H as (-> & _). Qed.

(** The end of the active stream, with the answer it leaves. *)
Lemma ended_stream s complete f st :
  Inv st -> sseSourceRef st = Some s -> settles f ->
  let st' := set_stream None (sourceCount st) (set_add s (closedSources st)) complete false
    (set_messages (updateLastAssistantMessage (messages st) f) (setIsRequesting false (set_pending [] [] false st))) in
  Inv st' /\ isGenerating st' = false.
Proof.
  intros ((R1 & R2 & R3 & _) & HS & HM) E Hf. cbv zeta. split; [|done]. split_and!.
  - split_and!; cbn; auto. done.
  - unfold streamOk in *. cbn. rewrite E in HS. destruct HS as (_ & _ & H3 & H4). split_and!; [done..|].
    exact (allClosed_add s st H3 H4).
  - cbn. by eapply (conversation_settles _ false).
Qed.

(** The [finally] block: it closes the current request and no other. *)
Lemma finish_facts r st :
  messages (finishRequest r st) = messages st /\ isStreaming (finishRequest r st) = isStreaming st /\
  (isRequesting (finishRequest r st) = true -> isRequesting st = true /\ r <> requestIdRef st) /\
  (r <> requestIdRef st -> isRequesting (finishRequest r st) = isRequesting st) /\
  (streamOk st -> streamOk (finishRequest r st)).
Proof. unfold finishRequest. cbn [requestIdRef set_requests]. case_bool_decide as E; cbn; naive_solver. Qed.

Lemma finish_requests r st :
  requestsOk st -> requestsOk (finishRequest r st).
Proof.
  intros (R1 & R2 & R3 & R4). unfold finishRequest. cbn [requestIdRef set_requests]. case_bool_decide as Er.
  - split_and!; cbn; auto; [|done..]. intros y [_ Hy]%list_elem_of_filter. auto.
  - split_and!; cbn; auto; [intros y [_ Hy]%list_elem_of_filter; auto|].
    intros Ha Hb. destruct (R4 Ha Hb) as (Q1 & Q2 & Q3). split_and!; [|done..]. apply list_elem_of_filter. auto.
Qed.

Lemma finish_generating r st :
  (isGenerating (finishRequest r st) = true -> isGenerating st = true) /\
  (r = requestIdRef st -> isStreaming st = false -> isGenerating (finishRequest r st) = false).
Proof.
  destruct (finish_facts r st) as (_ & H1 & H2 & _). unfold isGenerating. rewrite H1.
  destruct (isStreaming st), (isRequesting (finishRequest r st)); naive_solver.
Qed.

(** The end of an aborted request, and of one whose answer was applied. *)
Lemma finish_aborted r st : Inv st -> r ∈ aborted st -> Inv (finishRequest r st).
Proof.
  intros (HR & HS & HM) Ha. destruct (finish_facts r st) as (F1 & F2 & F3 & F4 & F5), (finish_generating r st) as [HG _].
  split_and!; [by apply finish_requests | auto |]. rewrite F1. destruct (isGenerating (finishRequest r st)) eqn:Eg.
  { by rewrite HG in HM. }
  destruct (isGenerating st) eqn:Eg'; [|done]. exfalso. unfold isGenerating in *.
  rewrite F2 in Eg. apply orb_false_iff in Eg as [Es Er]. rewrite Es in Eg'. cbn in Eg'.
  destruct HR as (_ & _ & _ & R4). destruct (R4 Es Eg') as (_ & Q & _).
  destruct (decide (r = requestIdRef st)) as [->|N]; [done|]. rewrite F4 in Er by done. congruence.
Qed.

Lemma finish_answered r f st st' :
  Inv st -> settles f ->
  st' = set_messages (updateLastAssistantMessage (messages st) f) (setIsRequesting false (set_pending [] [] false st)) \/
  st' = set_messages (updateLastAssistantMessage (messages st) f) st ->
  Inv (finishRequest r st') /\ (isGenerating st' = true -> isGenerating st = true).
Proof.
  intros (HR & HS & HM) Hf H. destruct (finish_facts r st') as (F1 & _ & _ & _ & F5), (finish_generating r st') as [HG _].
  assert (isGenerating st' = true -> isGenerating st = true) as Hi.
  { unfold isGenerating. destruct H as [-> | ->]; cbn; [|done]. rewrite orb_false_r. by intros ->. }
  assert (messages st' = updateLastAssistantMessage (messages st) f) as Em by (by destruct H as [-> | ->]).
  split; [|done]. split_and!.
  - apply finish_requests. destruct H as [-> | ->]; [|done]. destruct HR as (R1 & R2 & R3 & _). by split_and!.
  - apply F5. destruct H as [-> | ->]; [|done]. unfold streamOk in *. cbn. destruct (sseSourceRef st); [done|].
    by destruct HS as (? & _ & ?).
  - rewrite F1, Em. eapply conversation_settles; [exact HM | done | auto].
Qed.

(** What follows the answer to a request. *)
Definition afterAnswer (r : nat) (st st' : ChatState) : Prop :=
  Inv st' /\ (isGenerating st = false -> isGenerating st' = false) /\
  (r = requestIdRef st -> isStreaming st = false -> isGenerating st' = false).

Lemma finish_inv r st st' :
  Inv st ->
  (r ∈ aborted st) /\ st' = st \/
  (exists f, settles f /\
     (st' = set_messages (updateLastAssistantMessage (messages st) f) (setIsRequesting false (set_pending [] [] false st)) \/
      st' = set_messages (updateLastAssistantMessage (messages st) f) st)) ->
  afterAnswer r st (finishRequest r st').
Proof.
  intros HI H. destruct (finish_generating r st') as [HG HC].
  assert (Inv (finishRequest r st') /\ (isGenerating st' = true -> isGenerating st = true) /\
    requestIdRef st' = requestIdRef st /\ isStreaming st' = isStreaming st) as (I & Hi & E1 & E2).
  { destruct H as [[Ha ->]|(f & Hf & H)]; [auto using finish_aborted|].
    destruct (finish_answered r f st st' HI Hf H). by destruct H as [-> | ->]. }
  split_and!; [done| |rewrite E1, E2 in HC; exact HC].
  intros Hg. destruct (isGenerating (finishRequest r st')); [|done]. rewrite Hi in Hg by auto. done.
Qed.

Section Steps.
Context (t : jsstr -> jsstr) (now : nat -> Z).

Lemma error_stream s err code st :
  Inv st -> sseSourceRef st = Some s ->
  let st' := closeActiveStream (Some s) (handleStreamError t now err code st) in Inv st' /\ isGenerating st' = false.
Proof.
  intros HI E. cbv zeta. destruct (error_facts t now err code st) as (f & Hf & ->).
  unfold closeActiveStream. cbn. rewrite E, bool_decide_true by done.
  exact (ended_stream s (isStreamCompleteRef st) f st HI E Hf).
Qed.

Lemma handleError_stream s err code st :
  Inv st -> sseSourceRef st = Some s ->
  Inv (handleError t now s err code st) /\ isGenerating (handleError t now s err code st) = false.
Proof.
  intros HI E. unfold handleError. pose proof HI as (_ & HS & _). unfold streamOk in HS. rewrite E in HS.
  destruct HS as (_ & -> & _). by apply error_stream.
Qed.

Lemma done_stream s data st :
  isStreamDoneMessage data = true -> Inv st -> sseSourceRef st = Some s ->
  Inv (onStreamMessage t now s data st) /\ isGenerating (onStreamMessage t now s data st) = false.
Proof.
  intros Hd HI E. unfold onStreamMessage. rewrite Hd. cbv zeta.
  unfold closeActiveStream. cbn [sseSourceRef set_stream]. rewrite E, bool_decide_true by done. cbn [or_else].
  match goal with |- context [handleStreamComplete now ?x] => destruct (completed_facts now x) as (f & Hf & ->) end.
  exact (ended_stream s true f st HI E Hf).
Qed.

(** Changes of the pending chunks while a stream is active. *)
Lemma pending_inv c r b st : Inv st -> sseSourceRef st <> None -> Inv (set_pending c r b st).
Proof.
  intros (HR & HS & HM) N. split_and!; [done| |done]. unfold streamOk in *. cbn. by destruct (sseSourceRef st).
Qed.

Lemma updates_stream s us st :
  Inv st -> sseSourceRef st = Some s ->
  Inv (handleStreamUpdates us st).1 /\ sseSourceRef (handleStreamUpdates us st).1 = Some s.
Proof.
  revert st. induction us as [|[ty c] us IH]; intros st HI E; [done|]. cbn [handleStreamUpdates].
  destruct (handleStreamUpdate ty c st) as [st'|] eqn:Eu; [|done].
  assert (exists a b, st' = set_pending a b true st) as (a & b & ->).
  { unfold handleStreamUpdate in Eu. destruct ty; apply bind_Some in Eu as (? & _ & [= <-]); eauto. }
  apply IH; [|done]. apply pending_inv; [done|]. by rewrite E.
Qed.

(** A flush while a stream is active, with the request state as it was or
    reset; the answer goes on. *)
Lemma flush_stream s st b :
  Inv st -> sseSourceRef st = Some s -> (b = true -> isRequesting st = true) ->
  Inv (setIsRequesting b (flushStreamUpdates now st)).
Proof.
  intros (HR & HS & HM) E Hb. destruct (flush_facts now st) as (f & Hf & ->).
  pose proof (streaming_generates st s HS E) as Hg. unfold streamOk in HS. rewrite E in HS. destruct HS as (H1 & HS).
  split_and!.
  - destruct HR as (R1 & R2 & R3 & _). split_and!; cbn; auto. congruence.
  - unfold streamOk. cbn. rewrite E. auto.
  - unfold isGenerating in *. cbn. rewrite H1 in *. cbn. apply updateLast_generating; [exact HM|]. apply Hf.
Qed.

Lemma stop_any st : Inv st -> Inv (stopGeneration now st) /\ isGenerating (stopGeneration now st) = false.
Proof.
  intros ((R1 & R2 & R3 & R4) & HS & HM). destruct (stop_facts now st) as (f & Hf & ->). split; [|done]. split_and!.
  - split_and!; cbn; auto; [|done..]. intros r Hr. destruct (abortControllerRef st) as [r'|] eqn:E; [|auto].
    apply elem_of_cons in Hr as [->|Hr]; [|auto]. by rewrite (R3 r').
  - unfold streamOk in *. cbn. unfold allClosed. cbn. split_and!; try done.
    destruct (sseSourceRef st) as [s|]; [|apply HS]. destruct HS as (_ & _ & H3 & H4). exact (allClosed_add s st H3 H4).
  - cbn. by eapply (conversation_settles _ false).
Qed.

Lemma response_inv r choices st : Inv st -> afterAnswer r st (onResponse t now r choices st).
Proof.
  intros HI. unfold onResponse. apply (finish_inv r st); [done|].
  case_bool_decide as Ha; [by left|]. right. by eapply answered_facts.
Qed.

Lemma rejection_inv r e st : Inv st -> afterAnswer r st (onRejection t now r e st).
Proof.
  intros HI. unfold onRejection. apply (finish_inv r st); [done|].
  case_bool_decide as Ha; [by left|]. right. destruct (parseRequestErrorDetails e) as [msg code].
  destruct (error_facts t now msg code st) as (f & Hf & ->). exists f. auto.
Qed.

(** Sending a conversation that ends with a new answer, whatever is active. *)
Lemma send_inv ms streams starts st :
  requestsOk st -> streamOk st -> generating ms -> Inv (sendChat t now streams starts (set_messages ms st)).
Proof.
  intros (R1 & R2 & R3 & R4) HS HG. unfold sendChat. destruct streams.
  - unfold sendStreamingChat, sendStreamRequest. cbn [sseSourceRef set_messages setIsRequesting sourceCount closedSources].
    cbv zeta. set (st1 := set_stream (Some _) _ _ _ _ _).
    assert (I1 : Inv st1).
    { split_and!; [split_and!; cbn; auto; done| |done]. unfold streamOk in *. cbn. split_and!; try done.
      intros s'. destruct (sseSourceRef st) as [s|].
      - destruct HS as (_ & _ & H3 & H4). rewrite (allClosed_add s st H3 H4). lia.
      - destruct HS as (_ & _ & H). rewrite (H s'). lia. }
    destruct starts; [done|]. by apply (error_stream (sourceCount st)).
  - unfold sendNonStreamingChat. split_and!; [|done|unfold isGenerating; cbn; by rewrite orb_true_r].
    split_and!; cbn.
    + intros r [->|Hr]%elem_of_cons; [done|]. specialize (R1 r Hr). lia.
    + intros r Hr. specialize (R2 r Hr). lia.
    + congruence.
    + intros _ _. split_and!; [left | | done]. intros Hr. specialize (R2 _ Hr). lia.
Qed.

Lemma generating_append ms text n1 n2 n3 n4 x : Forall settled ms -> generating (appendUserMessagePair ms text n1 n2 n3 n4 x).
Proof.
  intros H. exists (ms ++ [createUserMessage n1 n2 text x]), (createLoadingAssistantMessage n3 n4 x).
  split_and!; [unfold appendUserMessagePair; by rewrite <- app_assoc | done |].
  apply Forall_app. split; [done|]. by constructor.
Qed.

Lemma generating_prefix ms n n1 n2 x : Forall settled (take n ms) -> generating (take n ms ++ [createLoadingAssistantMessage n1 n2 x]).
Proof. intros H. by eexists _, _. Qed.

(** Editing a message changes neither its author nor its status. *)
Definition editOne (k c : jsstr) (submit : bool) (x : Z) (m : Message) : Message :=
  if bool_decide (key m = k) then with_createdAt (if submit then Some x else createdAt m) (updateCurrentVersionContent m c) else m.

Lemma editOne_facts k c submit x m : from (editOne k c submit x m) = from m /\ (settled m -> settled (editOne k c submit x m)).
Proof. unfold editOne. by case_bool_decide. Qed.

Lemma conversation_edit b ms k c submit x : conversationOk b ms -> conversationOk b (map (editOne k c submit x) ms).
Proof.
  assert (forall l, Forall settled l -> Forall settled (map (editOne k c submit x) l)) as HF.
  { intros l Hl. apply Forall_map. eapply Forall_impl; [exact Hl|]. intros m. apply editOne_facts. }
  destruct b; cbn; [|auto]. intros (ini & lst & -> & H1 & H2). exists (map (editOne k c submit x) ini), (editOne k c submit x lst).
  split_and!; [by rewrite map_app | by rewrite (proj1 (editOne_facts _ _ _ _ _)) | auto].
Qed.

(** The messages up to one of the user are settled, also while an answer is
    generated: that answer is the last message. *)
Lemma settled_upto_user b ms i m :
  conversationOk b ms -> ms !! i = Some m -> from m = user -> Forall settled (take (i + 1) ms).
Proof.
  destruct b; cbn; [|intros; by apply Forall_take]. intros (ini & lst & -> & H1 & H2) Hm Hu.
  assert (i < length ini).
  { apply lookup_app_Some in Hm as [Hm|[Hl Hm]]; [by apply lookup_lt_Some in Hm|].
    apply list_lookup_singleton_Some in Hm as [_ <-]. congruence. }
  rewrite take_app_le by lia. by apply Forall_take.
Qed.

Lemma edit_inv k c submit n1 n2 streams starts st : Inv st -> Inv (applyEdit t now k c submit n1 n2 streams starts st).
Proof.
  intros (HR & HS & HM). unfold applyEdit, applyMessageEdit.
  destruct (findIndexByKey _ _) as [i|]; cbn [mbind option_bind]; [|done]. cbv zeta.
  fold (editOne k c submit (now 9)). set (ms := map _ (messages st)).
  assert (conversationOk (isGenerating st) ms) as Hms by (by apply conversation_edit).
  destruct (ms !! i) as [m|] eqn:Em; cbn [mbind option_bind]; [|done].
  destruct submit; cbn [negb orb]; [case_bool_decide as Eu; cbn [negb]|]; [|done..].
  apply send_inv; [done..|]. apply generating_prefix. by eapply settled_upto_user.
Qed.

Lemma idle_inv ms st : Inv st -> isGenerating st = false -> Forall settled ms -> Inv (set_messages ms st).
Proof. intros (HR & HS & _) Hg Hm. split_and!; [done..|]. unfold isGenerating in *. cbn. by rewrite Hg. Qed.

Lemma message_inv s data st : Inv st -> sseSourceRef st = Some s -> Inv (onStreamMessage t now s data st).
Proof.
  intros HI E. destruct (isStreamDoneMessage data) eqn:Ed; [by apply done_stream|]. unfold onStreamMessage. rewrite Ed.
  destruct (parseStreamMessageUpdates data) as [us|]; [|by apply handleError_stream].
  destruct (updates_stream s us st HI E) as [HI' E']. destruct (handleStreamUpdates us st) as [st' []]; [done|].
  by apply handleError_stream.
Qed.

Lemma error_inv s rs data st : Inv st -> sseSourceRef st = Some s -> Inv (onStreamError t now s rs data st).
Proof.
  intros HI E. unfold onStreamError. destruct (isStreamClosedReadyState rs); [done|].
  assert (Inv (handleErrorUntyped now st)).
  { unfold handleErrorUntyped. destruct (isStreamCompleteRef st); [done|]. by apply (flush_stream s). }
  destruct (parseStreamErrorDetails data) as [[] ?]; try done. by apply handleError_stream.
Qed.

(** Every enabled event keeps the invariant. *)
Lemma step_inv e st : Inv st -> enabled e st -> Inv (step t now e st).
Proof.
  intros HI He. pose proof HI as (HR & HS & HM). destruct e; cbn [step enabled] in *; try rewrite He in HM.
  - apply send_inv; [done..|]. by apply generating_append.
  - unfold handleRegenerateMessage, createRegeneratedMessages.
    destruct (findIndexByKey _ _) as [i|]; cbn; [|done]. destruct (messages st !! i); cbn; [|done].
    case_bool_decide; apply send_inv; auto; apply generating_prefix; by apply Forall_take.
  - by apply edit_inv.
  - apply idle_inv; [done..|]. cbn in HM. rewrite Forall_forall in *. intros x [_ Hx]%list_elem_of_filter. by apply HM.
  - by apply idle_inv.
  - by apply stop_any.
  - apply message_inv; [done|]. apply open_source; [done|apply He..].
  - apply error_inv; [done|]. apply open_source; [done|apply He..].
  - unfold onReadyStateChange. destruct (getStreamReadyStateError _ _); [|done].
    apply handleError_stream; [done|]. apply open_source; [done|apply He..].
  - destruct (sseSourceRef st) as [s|] eqn:E.
    + pose proof (flush_stream s st (isRequesting st) HI E (fun H => H)) as H.
      destruct (flush_facts now st) as (f & Hf & Ef). rewrite Ef in *. exact H.
    + unfold streamOk in HS. rewrite E in HS. destruct HS as (_ & (_ & _ & ?) & _). congruence.
  - by apply response_inv.
  - by apply rejection_inv.
Qed.
End Steps.

Lemma reachable_inv t st : reachable t st -> Inv st.
Proof.
  induction 1 as [loaded H|st e now _ IH He]; [|by apply step_inv].
  split_and!; [split_and!; cbn; set_solver| |done]. unfold streamOk. cbn. split_and!; [done..|].
  intros s. cbn. split; [set_solver | lia].
Qed.

Lemma idle_stream st : streamOk st -> isGenerating st = false -> sseSourceRef st = None /\ noPending st /\ allClosed st.
Proof.
  unfold streamOk, isGenerating. destruct (sseSourceRef st); [|naive_solver]. intros (-> & _) E. done.
Qed.

(** *** Runs without a submitted edit during a generation *)
(** Every request on its way is aborted or the one that can be aborted, which
    the page waits for. *)
Definition requestsHeld (st : ChatState) : Prop :=
  (forall r, r ∈ inflight st -> r ∈ aborted st \/ abortControllerRef st = Some r) /\
  (abortControllerRef st <> None -> isStreaming st = false /\ isRequesting st = true).

Definition sameRequests (st st' : ChatState) : Prop :=
  requestIdRef st' = requestIdRef st /\ abortControllerRef st' = abortControllerRef st /\
  aborted st' = aborted st /\ inflight st' = inflight st.

Lemma held_nothing st st' : requestsHeld st -> abortControllerRef st = None -> sameRequests st st' -> requestsHeld st'.
Proof. intros [H _] E (_ & E2 & E3 & E4). split; rewrite E2; [rewrite E3, E4, <- E2 | by rewrite E]. by rewrite E2. Qed.

Lemma held_streaming s st : streamOk st -> requestsHeld st -> sseSourceRef st = Some s -> abortControllerRef st = None.
Proof.
  intros HS [_ H] E. unfold streamOk in HS. rewrite E in HS. destruct HS as (HS & _).
  destruct (abortControllerRef st); [|done]. destruct H; [done|]. congruence.
Qed.

Lemma held_idle st : requestsHeld st -> isGenerating st = false -> abortControllerRef st = None.
Proof.
  intros [_ H] E. unfold isGenerating in E. destruct (abortControllerRef st); [|done]. destruct H as [_ H]; [done|].
  rewrite H, orb_true_r in E. done.
Qed.

Lemma finish_held r st st' :
  requestsOk st -> requestsHeld st -> r ∈ inflight st -> sameRequests st st' -> (r ∈ aborted st -> st' = st) ->
  requestsHeld (finishRequest r st').
Proof.
  intros (_ & _ & R3 & _) [H1 H2] Hr (E1 & E2 & E3 & E4) Ha. unfold finishRequest. cbn [requestIdRef set_requests].
  assert (forall x, x ∈ filter (fun y => y <> r) (inflight st') -> x <> r /\ (x ∈ aborted st' \/ abortControllerRef st' = Some x)) as HF.
  { intros x [Hn Hx]%list_elem_of_filter. rewrite E2, E3. rewrite E4 in Hx. auto. }
  case_bool_decide as Er.
  - split; cbn; [|done]. intros x Hx. destruct (HF x Hx) as [Hn [?|Hc]]; [by left|].
    rewrite E2 in Hc. specialize (R3 _ Hc). congruence.
  - assert (r ∈ aborted st) as Hab. { destruct (H1 r Hr) as [?|Hc]; [done|]. specialize (R3 _ Hc). congruence. }
    rewrite (Ha Hab) in *. split; cbn; [|done]. intros x Hx. by apply HF.
Qed.

(** The handlers of a stream leave the requests alone. *)
Lemma same_refl st : sameRequests st st.
Proof. done. Qed.

Lemma same_close s st st' : sameRequests st st' -> sameRequests st (closeActiveStream s st').
Proof. unfold closeActiveStream. by destruct s; [case_bool_decide|]. Qed.

Lemma same_error t now err code st st' : sameRequests st st' -> sameRequests st (handleStreamError t now err code st').
Proof. intros H. by destruct (error_facts t now err code st') as (f & _ & ->). Qed.

Lemma same_flush now st st' : sameRequests st st' -> sameRequests st (flushStreamUpdates now st').
Proof. intros H. by destruct (flush_facts now st') as (f & _ & ->). Qed.

Lemma same_handleError t now s err code st st' : sameRequests st st' -> sameRequests st (handleError t now s err code st').
Proof. intros H. unfold handleError. destruct (isStreamCompleteRef st'); [done|]. by apply same_close, same_error. Qed.

Lemma same_updates us st st' : sameRequests st st' -> sameRequests st (handleStreamUpdates us st').1.
Proof.
  revert st'. induction us as [|[ty c] us IH]; intros st' H; [done|]. cbn [handleStreamUpdates].
  destruct (handleStreamUpdate ty c st') as [x|] eqn:E; [|done]. apply IH.
  unfold handleStreamUpdate in E. by destruct ty; apply bind_Some in E as (? & _ & [= <-]).
Qed.

Lemma same_message t now s data st : sameRequests st (onStreamMessage t now s data st).
Proof.
  unfold onStreamMessage. destruct (isStreamDoneMessage data).
  - match goal with |- context [handleStreamComplete now ?x] => destruct (completed_facts now x) as (f & _ & ->) end.
    exact (same_close (Some s) st (set_stream (sseSourceRef st) (sourceCount st) (closedSources st) true (isStreaming st) st) (same_refl st)).
  - destruct (parseStreamMessageUpdates data) as [us|]; [|by apply same_handleError].
    pose proof (same_updates us st st (same_refl st)) as H. destruct (handleStreamUpdates us st) as [x []]; [done|].
    by apply same_handleError.
Qed.

Lemma same_streamError t now s rs data st : sameRequests st (onStreamError t now s rs data st).
Proof.
  unfold onStreamError. destruct (isStreamClosedReadyState rs); [done|].
  assert (sameRequests st (handleErrorUntyped now st)).
  { unfold handleErrorUntyped. destruct (isStreamCompleteRef st); [done|]. by apply (same_flush now st st). }
  destruct (parseStreamErrorDetails data) as [[] ?]; try done. by apply same_handleError.
Qed.

Lemma send_held t now ms streams starts st :
  streamOk st -> requestsHeld st -> isGenerating st = false -> requestsHeld (sendChat t now streams starts (set_messages ms st)).
Proof.
  intros HS HH Hg. pose proof (held_idle st HH Hg) as Ha. unfold sendChat. destruct streams.
  - apply (held_nothing st); [done..|]. unfold sendStreamingChat, sendStreamRequest. cbv zeta.
    destruct starts; [done|]. by apply same_close, same_error.
  - unfold sendNonStreamingChat. destruct HH as [H1 _]. unfold isGenerating in Hg. apply orb_false_iff in Hg as [Hs _].
    split; cbn; [|done]. intros r [->|Hr]%elem_of_cons; [by right|]. destruct (H1 r Hr) as [?|?]; [by left | congruence].
Qed.

Lemma step_held t now e st :
  Inv st -> requestsHeld st -> enabled e st -> patient e st -> requestsHeld (step t now e st).
Proof.
  intros HI HH He Hp. pose proof HI as (HR & HS & _).
  assert (forall s st', s < sourceCount st -> (s ∉ closedSources st) -> sameRequests st st' -> requestsHeld st') as HStr.
  { intros s st' H1 H2. apply held_nothing; [done|]. eapply held_streaming; [done..|]. by apply open_source. }
  destruct e; cbn [step enabled patient] in *.
  - by apply send_held.
  - unfold handleRegenerateMessage. destruct (createRegeneratedMessages _ _ _ _ _); [|done]. by apply send_held.
  - unfold applyEdit. destruct (applyMessageEdit _ _ _ _ _ _ _) as [[ms []]|] eqn:E; [|done..].
    destruct submit; [by apply send_held|]. exfalso. unfold applyMessageEdit in E. cbn in E.
    destruct (findIndexByKey _ _); [|done]. cbn in E. by destruct (_ !! _).
  - done.
  - done.
  - destruct (stop_facts now st) as (f & _ & ->). split; cbn; [|done]. intros r Hr. left.
    destruct HH as [H1 _]. destruct (H1 r Hr) as [Ha| ->]; [|left]. destruct (abortControllerRef st); [by right | done].
  - destruct He. eapply HStr; [done..|]. apply same_message.
  - destruct He. eapply HStr; [done..|]. apply same_streamError.
  - destruct He. eapply HStr; [done..|]. unfold onReadyStateChange.
    destruct (getStreamReadyStateError _ _); [by apply same_handleError | done].
  - destruct (sseSourceRef st) as [s|] eqn:E.
    + apply (held_nothing st); [done| |by apply same_flush]. by eapply held_streaming.
    + unfold streamOk in HS. rewrite E in HS. destruct HS as (_ & (_ & _ & ?) & _). congruence.
  - unfold onResponse. apply (finish_held _ st); [done..| |]; case_bool_decide; try done.
    destruct (negb _); [by apply same_error | done].
  - unfold onRejection. apply (finish_held _ st); [done..| |]; case_bool_decide; try done.
    destruct (parseRequestErrorDetails error). by apply same_error.
Qed.

Lemma calm_reachable t st : calm t st -> reachable t st.
Proof. induction 1; by constructor. Qed.

Lemma calm_held t st : calm t st -> requestsHeld st.
Proof.
  induction 1 as [loaded H|st e now Hc IH He Hp]; [split; cbn; set_solver|].
  apply step_held; [|done..]. eapply reachable_inv. by apply calm_reachable.
Qed.

(** ** Properties *)

(** C1.  In every state the playground can reach in which nothing is being
    generated, no answer is left loading or streaming, no received chunk waits
    to be shown, no flush is scheduled and every stream is closed.  If moreover
    no edit was submitted while an answer was generated, no request is held and
    every request still on its way was aborted. *)
Theorem chat_idle_settled t st :
  reachable t st -> isGenerating st = false ->
  Forall settled (messages st) /\ noPending st /\ sseSourceRef st = None /\ allClosed st /\
  (calm t st -> abortControllerRef st = None /\ forall r, r ∈ inflight st -> r ∈ aborted st).
Proof.
  intros HR Hg. destruct (reachable_inv t st HR) as (_ & HS & HM). rewrite Hg in HM.
  destruct (idle_stream st HS Hg) as (H1 & H2 & H3). split_and!; [done..|].
  intros Hc. pose proof (calm_held t st Hc) as HH. pose proof (held_idle st HH Hg) as Ha. split; [done|].
  intros r Hr. destruct HH as [H _]. destruct (H r Hr); [done | congruence].
Qed.

Lemma chat_idle_settled_witness :
  let st := step (fun x => x) (fun _ => 0%Z) (StreamMessage 0 STREAM_DONE_MESSAGE)
    (step (fun x => x) (fun _ => 0%Z) (Send (js "hi") (js "a") (js "b") (js "c") (js "d") true true) (initState [])) in
  Forall settled (messages st) /\ noPending st /\ sseSourceRef st = None /\ abortControllerRef st = None /\ allClosed st.
Proof.
  cbv zeta. match goal with |- Forall settled (messages ?w) /\ _ => assert (calm (fun x => x) w) as HC end.
  { apply calm_step; [apply calm_step; [apply calm_init; constructor | vm_compute; reflexivity | exact I]| |exact I].
    cbn. split; [lia|]. set_solver. }
  destruct (chat_idle_settled (fun x => x) _ (calm_reachable _ _ HC)) as (H1 & H2 & H3 & H4 & H5); [vm_compute; reflexivity|].
  split; [exact H1|]. split; [exact H2|]. split; [exact H3|]. split; [exact (proj1 (H5 HC)) | exact H4].
Defined.

(** The request an event answers. *)
Definition answers (e : Event) : option nat :=
  match e with ResponseArrives r _ | RequestFails r _ => Some r | _ => None end.

Lemma answer_aborted t now e r st : answers e = Some r -> r ∈ aborted st -> messages (step t now e st) = messages st.
Proof.
  intros E Ha. destruct e; try done; injection E as ->; cbn [step]; unfold onResponse, onRejection;
    rewrite bool_decide_true by done; apply (finish_facts r st).
Qed.

(** C32.  Once a generation has ended, nothing that still arrives from the
    network or the timer restarts it or leaves an answer pending, and closed
    streams and aborted requests change no message.  Only the answer to a
    request that was never aborted can, which needs an edit submitted while
    another answer was generated: without that, no message changes. *)
Theorem chat_idle_stable t now st e :
  reachable t st -> isGenerating st = false -> network e = true -> enabled e st ->
  isGenerating (step t now e st) = false /\ Forall settled (messages (step t now e st)) /\
  (messages (step t now e st) = messages st \/ exists r, answers e = Some r /\ r ∈ inflight st /\ (r ∉ aborted st)) /\
  (calm t st -> messages (step t now e st) = messages st).
Proof.
  intros HR Hg Hn He. pose proof (reachable_inv t st HR) as HI. pose proof HI as (_ & HS & HM). rewrite Hg in HM.
  destruct (idle_stream st HS Hg) as (_ & (_ & _ & Ht) & Hc).
  assert (exists r, answers e = Some r /\ r ∈ inflight st) as (r & Er & Hr).
  { destruct e; try done; cbn in He; try congruence; [destruct He as [H1 H2]; by apply Hc in H1 ..| |]; eauto. }
  assert (afterAnswer r st (step t now e st)) as (_ & Hi & _).
  { destruct e; try done; injection Er as ->; [by apply response_inv | by apply rejection_inv]. }
  assert (calm t st -> r ∈ aborted st) as Hcalm.
  { intros Hcm. pose proof (calm_held t st Hcm) as HH. pose proof (held_idle st HH Hg) as Hn'. destruct HH as [HH _].
    destruct (HH r Hr); [done | congruence]. }
  pose proof (step_inv t now e st HI He) as (_ & _ & HM'). rewrite (Hi Hg) in HM'.
  split_and!; [auto | done | | intros; by eapply answer_aborted; auto].
  destruct (decide (r ∈ aborted st)); [left; by eapply answer_aborted | right; eauto].
Qed.

Lemma chat_idle_stable_witness :
  let now := fun _ : nat => 0%Z in
  let t := fun x : jsstr => x in
  let st := step t now Stop (step t now (Send (js "hi") (js "a") (js "b") (js "c") (js "d") false true) (initState [])) in
  let e := ResponseArrives 1 [mkChoice (Some (js "late")) None] in
  messages (step t now e st) = messages st /\ isGenerating (step t now e st) = false.
Proof.
  cbv zeta. match goal with |- _ = messages ?w /\ _ => assert (calm (fun x => x) w) as HC end.
  { apply calm_step; [apply calm_step; [apply calm_init; constructor | vm_compute; reflexivity | exact I] | exact I | exact I]. }
  match goal with |- messages (step ?t ?now ?e ?st) = _ /\ _ =>
    destruct (chat_idle_stable t now st e (calm_reachable _ _ HC)) as (H1 & _ & _ & H4);
      [vm_compute; reflexivity | reflexivity | vm_compute; left|] end.
  split; [exact (H4 HC) | exact H1].
Defined.

(** C33.  While an answer is being generated, a stream is open or the last
    request is on its way, not aborted.  The stop button ends the generation;
    so does, on an open stream, the [DONE] message, a message that is not JSON
    or is null, an error event with a text while the source is not closed, and
    the closing of the source with a status other than 200; and without a
    stream the answer to the last request or its failure. *)
Theorem chat_generation_ends t now st :
  reachable t st ->
  (isGenerating st = true ->
     (exists s, s < sourceCount st /\ s ∉ closedSources st) \/
     isStreaming st = false /\ requestIdRef st ∈ inflight st /\ requestIdRef st ∉ aborted st) /\
  isGenerating (step t now Stop st) = false /\
  (forall s, s < sourceCount st -> (s ∉ closedSources st) ->
     (forall data, data = STREAM_DONE_MESSAGE \/ json_parse data = None \/ json_parse data = Some JNull ->
        isGenerating (step t now (StreamMessage s data) st) = false) /\
     (forall rs data text code, rs <> Some 2%Z -> parseStreamErrorDetails data = (JStr text, code) ->
        isGenerating (step t now (StreamError s rs data) st) = false) /\
     (forall rs status, (2 <= rs)%Z -> status <> 200%Z ->
        isGenerating (step t now (ReadyState s (Some rs) (Some status)) st) = false)) /\
  (isStreaming st = false ->
     (forall choices, isGenerating (step t now (ResponseArrives (requestIdRef st) choices) st) = false) /\
     (forall err, isGenerating (step t now (RequestFails (requestIdRef st) err) st) = false)).
Proof.
  intros HR. pose proof (reachable_inv t st HR) as HI. pose proof HI as (HRq & HS & _). split_and!.
  - intros Hg. unfold streamOk in HS. destruct (sseSourceRef st) as [s|].
    + left. exists s. destruct HS as (_ & _ & <- & H). split; [lia|]. rewrite H. lia.
    + right. destruct HS as (Es & _). unfold isGenerating in Hg. rewrite Es in Hg. cbn in Hg.
      destruct HRq as (_ & _ & _ & R4). destruct (R4 Es Hg) as (? & ? & _). done.
  - by apply stop_any.
  - intros s H1 H2. pose proof (open_source s st HS H1 H2) as E. split_and!; cbn [step].
    + intros data [-> | Hd]; [by apply done_stream|]. destruct (isStreamDoneMessage data) eqn:Ed; [by apply done_stream|].
      unfold onStreamMessage, parseStreamMessageUpdates. rewrite Ed. destruct Hd as [-> | ->]; by apply handleError_stream.
    + intros rs data text code Hrs Hd. unfold onStreamError, isStreamClosedReadyState. rewrite bool_decide_false by done.
      rewrite Hd. by apply handleError_stream.
    + intros rs status Hrs Hst. unfold onReadyStateChange, getStreamReadyStateError.
      replace (STREAM_CLOSED_READY_STATE <=? rs)%Z with true by (symmetry; by apply Z.leb_le).
      rewrite bool_decide_false by done. by apply handleError_stream.
  - intros Es. split; intros x; [by apply response_inv | by apply rejection_inv].
Qed.

Lemma chat_generation_ends_witness :
  let now := fun _ : nat => 0%Z in
  let t := fun x : jsstr => x in
  let st := step t now (Send (js "hi") (js "a") (js "b") (js "c") (js "d") true true) (initState []) in
  isGenerating st = true /\ isGenerating (step t now Stop st) = false /\
  isGenerating (step t now (StreamError 0 (Some 1%Z) (Some (js "gone"))) st) = false.
Proof.
  cbv zeta. split; [vm_compute; reflexivity|].
  match goal with |- isGenerating (step ?t ?now Stop ?st) = _ /\ _ => destruct (chat_generation_ends t now st) as (_ & H2 & H3 & _) end.
  { apply reach_step; [apply reach_init; constructor | vm_compute; reflexivity]. }
  split; [exact H2|]. destruct (H3 0) as (_ & H & _); [cbn; lia | cbn; set_solver|].
  apply (H (Some 1%Z) (Some (js "gone")) (js "gone") None); [done | vm_compute; reflexivity].
Defined.

(** Saving and submitting an edit while a request is on its way starts a second
    one and forgets the first without aborting it.  When the first one fails,
    the page is idle, with the second request on its way; its late answer then
    replaces the error that is shown. *)
Theorem edit_during_request :
  let now := fun _ : nat => 0%Z in
  let t := fun x : jsstr => x in
  let s1 := step t now (Send (js "hi") (js "a") (js "b") (js "c") (js "d") false true) (initState []) in
  let s2 := step t now (Edit (js "a") (js "ho") true (js "e") (js "f") false true) s1 in
  let s3 := step t now (RequestFails 1 (mkRequestError None None (Some (js "boom")))) s2 in
  let s4 := step t now (ResponseArrives 2 [mkChoice (Some (js "late")) None]) s3 in
  reachable t s3 /\ isGenerating s3 = false /\ abortControllerRef s3 = Some 2 /\ inflight s3 = [2] /\ aborted s3 = [] /\
  map getMessageContent (messages s3) = [js "ho"; js "Request error occurred: boom"] /\
  map getMessageContent (messages s4) = [js "ho"; js "late"].
Proof.
  cbv zeta. split; [|vm_compute; auto 10].
  repeat (apply reach_step; [| first [exact I | vm_compute; reflexivity | cbn; set_solver]]). apply reach_init. constructor.
Qed.

(** Chunks of a stream that wait to be shown when an edit is submitted are
    shown in the answer of the new stream. *)
Theorem edit_during_stream :
  let now := fun _ : nat => 0%Z in
  let t := fun x : jsstr => x in
  let quoted := fun x : jsstr => [34%Z] ++ x ++ [34%Z] in
  let chunk := js "{" ++ quoted (js "choices") ++ js ":[{" ++ quoted (js "delta") ++ js ":{" ++ quoted (js "content") ++ js ":"
    ++ quoted (js "old") ++ js "}}]}" in
  let s1 := step t now (Send (js "hi") (js "a") (js "b") (js "c") (js "d") true true) (initState []) in
  let s2 := step t now (StreamMessage 0 chunk) s1 in
  let s3 := step t now (Edit (js "a") (js "ho") true (js "e") (js "f") true true) s2 in
  map (fun m => (key m, getMessageContent m)) (messages (step t now FlushTimer s3)) = [(js "a", js "ho"); (js "e", js "old")].
Proof. vm_compute. reflexivity. Qed.

(** *** The conversation so far *)
(** A step that only rewrites the last answer. *)
Definition rewritesAnswer (st st' : ChatState) : Prop :=
  exists f, keeps f /\ messages st' = updateLastAssistantMessage (messages st) f.

Lemma rewrites_refl st st' : messages st' = messages st -> rewritesAnswer st st'.
Proof. intros E. exists (fun m => m). split; [apply keeps_id|]. by rewrite updateLast_id. Qed.

Lemma rewrites_from x st st' : messages x = messages st -> rewritesAnswer x st' -> rewritesAnswer st st'.
Proof. intros E (f & Hf & H). exists f. by rewrite H, E. Qed.

Lemma rewrites_messages a b b' : rewritesAnswer a b -> messages b' = messages b -> rewritesAnswer a b'.
Proof. intros (f & Hf & E) E'. exists f. by rewrite E'. Qed.

Lemma rewrites_flush now st : rewritesAnswer st (flushStreamUpdates now st).
Proof. destruct (flush_facts now st) as (f & Hf & ->). by exists f. Qed.

Lemma rewrites_error t now err code st : rewritesAnswer st (handleStreamError t now err code st).
Proof. destruct (error_facts t now err code st) as (f & [Hf _] & ->). by exists f. Qed.

Lemma messages_close s st : messages (closeActiveStream s st) = messages st.
Proof. unfold closeActiveStream. by destruct s as [s|]; [destruct (bool_decide _)|]. Qed.

Lemma rewrites_handleError t now s err code st : rewritesAnswer st (handleError t now s err code st).
Proof.
  unfold handleError. destruct (isStreamCompleteRef st); [by apply rewrites_refl|].
  eapply rewrites_messages; [apply rewrites_error | apply messages_close].
Qed.

Lemma messages_updates us st : messages (handleStreamUpdates us st).1 = messages st.
Proof.
  revert st. induction us as [|[ty c] us IH]; intros st; [done|]. cbn [handleStreamUpdates].
  destruct (handleStreamUpdate ty c st) as [x|] eqn:E; [|done]. rewrite IH.
  unfold handleStreamUpdate in E. by destruct ty; apply bind_Some in E as (? & _ & [= <-]).
Qed.

Lemma rewrites_message t now s data st : rewritesAnswer st (onStreamMessage t now s data st).
Proof.
  unfold onStreamMessage. destruct (isStreamDoneMessage data).
  - match goal with |- context [handleStreamComplete now ?x] => apply (rewrites_from x); [by rewrite messages_close|];
      destruct (completed_facts now x) as (f & [Hf _] & ->) end. by exists f.
  - destruct (parseStreamMessageUpdates data) as [us|]; [|apply rewrites_handleError].
    pose proof (messages_updates us st) as H. destruct (handleStreamUpdates us st) as [x []]; cbn in H; [by apply rewrites_refl|].
    apply (rewrites_from x); [done | apply rewrites_handleError].
Qed.



(** The request of a new message holds the valid messages of the
    conversation and the new text, in order, and never the placeholder of the
    answer; the optional parameters are exactly the enabled ones. *)
Theorem payload_of_send ms text n1 n2 n3 n4 x config en :
  let p := buildChatCompletionPayload (appendUserMessagePair ms text n1 n2 n3 n4 x) config en in
  q_messages p = map formatMessageForAPI (List.filter isValidMessage ms) ++ [mkApiMessage user (PlainText text)] /\
  Forall (fun a => role a = assistant -> exists c, apiContent a = PlainText c /\ trim c <> []) (q_messages p) /\
  (q_temperature p <> None <-> en_temperature en = true) /\ (q_top_p p <> None <-> en_top_p en = true) /\
  (q_max_tokens p <> None <-> en_max_tokens en = true) /\
  (q_frequency_penalty p <> None <-> en_frequency_penalty en = true) /\
  (q_presence_penalty p <> None <-> en_presence_penalty en = true) /\
  (q_seed p <> None <-> en_seed en = true /\ seed config <> None).
Proof.
  cbv zeta. unfold buildChatCompletionPayload, appendUserMessagePair, enabled_value.
  cbn [q_messages q_temperature q_top_p q_max_tokens q_frequency_penalty q_presence_penalty q_seed].
  assert (E : List.filter isValidMessage (ms ++ [createUserMessage n1 n2 text x; createLoadingAssistantMessage n3 n4 x])
              = List.filter isValidMessage ms ++ [createUserMessage n1 n2 text x]) by (by rewrite List.filter_app).
  rewrite E, map_app. split_and!; [done| |..]; try (by destruct (en_temperature en), (en_top_p en), (en_max_tokens en),
    (en_frequency_penalty en), (en_presence_penalty en)); [|by destruct (en_seed en); naive_solver].
  apply Forall_app. split; [|constructor; [done | constructor]].
  apply Forall_forall. intros a (m & -> & Hm)%list_elem_of_fmap Ha.
  apply list_elem_of_In, filter_In in Hm as [_ Hv]. cbn in Ha. eexists. split; [reflexivity|].
  unfold isValidMessage in Hv. destruct (versions m) as [|v vs] eqn:Ev; [done|].
  rewrite Ha, bool_decide_true in Hv by done. cbn [andb] in Hv. rewrite negb_involutive in Hv.
  unfold hasMessageContent, getMessageContent in Hv. by destruct (trim (content (getCurrentVersion m))).
Qed.

End PlaygroundChat.
