(* ===== verification/PlaygroundStorage.v ===== *)
(** * Chat playground: the stored conversation
      ([src/web/default/src/features/playground/lib/storage/storage.ts],
      [storage-schema.ts])

    What happens to a conversation between the browser's storage and the page:
    the limit on the number of messages, the repair and the truncation of every
    message, the limit on the size of the whole, and the decision to write the
    result back.  The reading of the storage and its validation by the schema
    library come before, so the input is a validated list of messages.

    The code compares references to see whether something changed: a function
    that may return its argument returns, beside the value, whether it did. *)
From S2P Require Import Prelude JsString JsRegex PlaygroundMessages.
Import PlaygroundMessages.
Local Open Scope Z_scope.

Module PlaygroundStorage.
#[local] Arguments js : simpl never.

(** ** Limits *)
Definition MAX_STORED_MESSAGES : Z := 100.
Definition MAX_LOADED_MESSAGES_CHARS : Z := 120000.
Definition MAX_LOADED_MESSAGE_CHARS : Z := 40000.
Definition TRUNCATED_CONTENT_SUFFIX : jsstr := [10; 10] ++ js "[...]".
Definition MIN_PREFIX_COLLAPSE_LENGTH : Z := 2000.
Definition MIN_REPEATED_SECTION_COUNT : Z := 3.

Definition len {A} (l : list A) : Z := Z.of_nat (length l).

(** [/^#{2,6}\s+\d+\.\s+.+$/gm] *)
Definition SECTION_HEADING_LINE_PATTERN : regex :=
  rseq [RStart true; rrepeat 2 6 (rlit (js "#")); rplus (RChar is_ws); rplus (RChar is_digit); rlit (js ".");
        rplus (RChar is_ws); rplus rdot; REnd true].

(** ** Messages *)
(** [messages.slice(-MAX_STORED_MESSAGES)], or the list itself. *)
Definition trimMessages (messages : list Message) : list Message * bool :=
  if len messages <=? MAX_STORED_MESSAGES then (messages, true)
  else (drop (length messages - Z.to_nat MAX_STORED_MESSAGES) messages, false).

Definition getMessageSize (message : Message) : Z :=
  fold_left (fun total version => total + len (content version)) (versions message) 0
  + match reasoning message with Some r => len (rcontent r) | None => 0 end.

Definition truncateText (text : jsstr) (maxLength : Z) : jsstr :=
  if len text <=? maxLength then text
  else if maxLength <=? len TRUNCATED_CONTENT_SUFFIX then take (Z.to_nat maxLength) text
  else take (Z.to_nat (maxLength - len TRUNCATED_CONTENT_SUFFIX)) text ++ TRUNCATED_CONTENT_SUFFIX.

(** ** Repeated sections *)
Record SectionOccurrence := mkOccurrence { heading : jsstr; index : Z }.

Definition getSectionOccurrences (text : jsstr) : list SectionOccurrence :=
  map (fun x : jsstr * rstate => mkOccurrence (take (length x.1 - length (rest x.2)) x.1) (len text - len x.1))
    (matchAll SECTION_HEADING_LINE_PATTERN text).

Definition getHeadingCounts (occurrences : list SectionOccurrence) : list (jsstr * Z) :=
  fold_left (fun counts o => map_set (heading o) (default 0 (map_get (heading o) counts) + 1) counts) occurrences [].

Definition findLastRepeatedSectionRunStart (text : jsstr) : Z :=
  let occurrences := getSectionOccurrences text in
  let headingCounts := getHeadingCounts occurrences in
  let '(_, lastRepeatedIndexes) :=
    fold_left (fun '(seenHeadings, indexes) o =>
      if (default 0 (map_get (heading o) headingCounts) <? MIN_REPEATED_SECTION_COUNT) || set_has (heading o) seenHeadings
      then (seenHeadings, indexes)
      else (set_add (heading o) seenHeadings, indexes ++ [index o])) (rev occurrences) ([], []) in
  match lastRepeatedIndexes with
  | [] => -1
  | i :: is_ => fold_left Z.min is_ i
  end.

Definition collapseRepeatedSectionSnapshots (text : jsstr) : jsstr :=
  if len text <? MIN_PREFIX_COLLAPSE_LENGTH then text
  else
    let lastRepeatedRunStart := findLastRepeatedSectionRunStart text in
    if lastRepeatedRunStart =? -1 then text else drop (Z.to_nat lastRepeatedRunStart) text.

(** ** Loading *)
(** The versions after the repair, and whether one of them changed. *)
Definition loadVersion (version : MessageVersion) : MessageVersion * bool :=
  let collapsedContent := collapseRepeatedSectionSnapshots (content version) in
  let c := truncateText collapsedContent MAX_LOADED_MESSAGE_CHARS in
  if bool_decide (c = content version) && bool_decide (collapsedContent = content version) then (version, false)
  else (mkVersion (id version) c, true).

Definition loadReasoning (r : Reasoning) : Reasoning :=
  mkReasoning (truncateText (rcontent r) MAX_LOADED_MESSAGE_CHARS) (duration r) (rstartedAt r) (rcompletedAt r) (rdurationMs r).

(** The message with its texts repaired; the flag tells whether it is the argument. *)
Definition repairTexts (message : Message) : Message * bool :=
  let vs := map loadVersion (versions message) in
  let r := loadReasoning <$> reasoning message in
  let changed := existsb snd vs || negb (bool_decide ((rcontent <$> r) = (rcontent <$> reasoning message))) in
  if changed then (with_reasoning r (with_versions (map fst vs) message), false) else (message, true).

Definition normalizeStoredMessageForLoad (message : Message) (now1 now2 now3 : Z) : Message * bool :=
  let '(normalized, same) := repairTexts message in
  if negb (isAssistantMessagePending normalized) then (normalized, same)
  else
    let hasContent := hasMessageContent normalized in
    let hasReasoning := match reasoning normalized with Some r => truthy (trim (rcontent r)) | None => false end in
    if negb hasContent && negb hasReasoning then (normalized, same)
    else
      let completed :=
        default now1 (or_else (completedAt normalized) (or_else (reasoning normalized ≫= rcompletedAt)
          (or_else (startedAt normalized) (createdAt normalized)))) in
      (completeAssistantTiming
         (with_reasoningStreaming false (with_status COMPLETE (finalizeMessage normalized None now2 now3))) completed, false).

(** The loop of [trimMessagesByContentSize] over the messages from the last to
    the first; [result] is the messages kept, first to last. *)
Fixpoint sizeLoop (rest : list Message) (totalSize : Z) (result : list Message) : list Message :=
  match rest with
  | [] => result
  | message :: rest =>
      let messageSize := getMessageSize message in
      if match result with [] => false | _ => MAX_LOADED_MESSAGES_CHARS <? totalSize + messageSize end then result
      else sizeLoop rest (totalSize + messageSize) (message :: result)
  end.

(** The result is always a new array. *)
Definition trimMessagesByContentSize (messages : list Message) : list Message := sizeLoop (rev messages) 0 [].

Section Load.
(** The translation function, and the clock readings of message [i]. *)
Context (t : jsstr -> jsstr) (now : nat -> nat -> Z).

Definition normalizeAll (parsed : list Message) : list (Message * bool) :=
  imap (fun i m => normalizeStoredMessageForLoad m (now i 0%nat) (now i 1%nat) (now i 2%nat)) parsed.

(** The messages kept by both limits. *)
Definition keptMessages (parsed : list Message) : list Message :=
  trimMessagesByContentSize (trimMessages (map fst (normalizeAll parsed))).1.

(** [sanitizeMessagesOnLoad] returns its argument when nothing is pending. *)
Definition sanitizeKeeps (messages : list Message) : bool :=
  match lastIndex isPendingAssistantMessage messages with None => true | Some _ => false end.

(** [loadMessages] after the validation: the conversation, and what
    [saveMessages] is called with, if it is. *)
Definition loadMessages (parsed : list Message) (now1 now2 now3 : Z) : list Message * option (list Message) :=
  let normalized := normalizeAll parsed in
  let normalizedChanged := existsb (fun x => negb x.2) normalized in
  let '(trimmed, trimmedSame) := trimMessages (map fst normalized) in
  let sizeTrimmed := trimMessagesByContentSize trimmed in
  let sizeTrimmedSame := false in
  let sanitized := sanitizeMessagesOnLoad t sizeTrimmed now1 now2 now3 in
  (sanitized,
   if normalizedChanged || negb trimmedSame || negb sizeTrimmedSame || negb (sanitizeKeeps sizeTrimmed) then Some sanitized else None).

(** What [saveMessages] stores when the storage takes it; a write the storage
    refuses is logged and leaves what was stored. *)
Definition saveMessages (messages : list Message) : list Message := (trimMessages messages).1.
End Load.

(** ** Lemmas *)
Definition totalSize (ms : list Message) : Z := sum_with getMessageSize ms.

Lemma sizeLoop_spec todo tot result :
  tot = totalSize result -> (totalSize result <= MAX_LOADED_MESSAGES_CHARS \/ (length result <= 1)%nat) ->
  exists taken left, todo = taken ++ left /\ sizeLoop todo tot result = rev taken ++ result /\
    (totalSize (rev taken ++ result) <= MAX_LOADED_MESSAGES_CHARS \/ (length (rev taken ++ result) <= 1)%nat) /\
    match left with [] => True | m :: _ => rev taken ++ result <> [] /\ MAX_LOADED_MESSAGES_CHARS < totalSize (rev taken ++ result) + getMessageSize m end.
Proof.
  revert tot result. induction todo as [|m todo IH]; intros tot result -> Hr.
  - exists [], []. done.
  - cbn [sizeLoop]. destruct (match result with [] => false | _ => _ end) eqn:E.
    + exists [], (m :: todo). split; [done|]. split; [done|]. split; [done|]. cbn [rev app]. destruct result as [|x result]; [done|].
      apply Z.ltb_lt in E. by split.
    + destruct (IH (totalSize result + getMessageSize m) (m :: result)) as (taken & left & -> & -> & H1 & H2).
      * unfold totalSize. rewrite sum_with_cons. lia.
      * destruct result as [|x result]; [by right; cbn; lia|]. left. apply Z.ltb_ge in E. unfold totalSize in *. rewrite sum_with_cons. lia.
      * exists (m :: taken), left. cbn [rev app]. rewrite <- app_assoc. done.
Qed.

Lemma sizeTrim_spec ms :
  exists dropped, ms = dropped ++ trimMessagesByContentSize ms /\
    (totalSize (trimMessagesByContentSize ms) <= MAX_LOADED_MESSAGES_CHARS \/ (length (trimMessagesByContentSize ms) <= 1)%nat) /\
    match last dropped with
    | None => True
    | Some m => trimMessagesByContentSize ms <> [] /\ MAX_LOADED_MESSAGES_CHARS < totalSize (trimMessagesByContentSize ms) + getMessageSize m
    end.
Proof.
  unfold trimMessagesByContentSize.
  destruct (sizeLoop_spec (rev ms) 0 []) as (taken & left & E & -> & H1 & H2); [done | right; cbn; lia|].
  rewrite app_nil_r in *. exists (rev left). split_and!; [|done|].
  - rewrite <- rev_app_distr, <- E. by rewrite rev_involutive.
  - destruct left as [|m left]; [done|]. cbn [rev]. by rewrite last_snoc.
Qed.

Lemma trim_spec ms :
  exists dropped, ms = dropped ++ (trimMessages ms).1 /\ len (trimMessages ms).1 <= MAX_STORED_MESSAGES /\
    (dropped = [] \/ len (trimMessages ms).1 = MAX_STORED_MESSAGES).
Proof.
  unfold trimMessages. destruct (Z.leb_spec (len ms) MAX_STORED_MESSAGES) as [H|H]; cbn [fst].
  - exists []. split; [done|]. split; [done | by left].
  - exists (take (length ms - Z.to_nat MAX_STORED_MESSAGES) ms). split; [by rewrite take_drop|].
    unfold len in *. rewrite length_drop. unfold MAX_STORED_MESSAGES in *. split; [lia | right; lia].
Qed.

Definition identity (m : Message) : jsstr * MessageRole := (key m, from m).

Lemma identity_timing m c : identity (completeAssistantTiming m c) = identity m.
Proof. unfold completeAssistantTiming, identity. by repeat case_match. Qed.

Lemma identity_finalize m a n1 n2 : identity (finalizeMessage m a n1 n2) = identity m.
Proof. unfold finalizeMessage, completeReasoningTiming, updateCurrentVersionContent, identity. cbv zeta. by repeat case_match. Qed.

Lemma identity_sanitize t m n1 n2 n3 : identity (sanitizeMessage t m n1 n2 n3) = identity m.
Proof.
  unfold sanitizeMessage. cbv zeta. case_match; rewrite identity_timing;
    (etransitivity; [|exact (identity_finalize m None n1 n2)]); [done|].
  unfold updateCurrentVersionContent, identity. by repeat case_match.
Qed.

Lemma identity_normalize m n1 n2 n3 : identity (normalizeStoredMessageForLoad m n1 n2 n3).1 = identity m.
Proof.
  unfold normalizeStoredMessageForLoad.
  assert (E : identity (repairTexts m).1 = identity m) by (unfold repairTexts; cbv zeta; by case_match).
  destruct (repairTexts m) as [m1 same]. cbn [fst] in E. case_match; [done|]. cbv zeta. case_match; [done|]. cbn [fst].
  rewrite identity_timing. etransitivity; [|exact E]. exact (identity_finalize m1 None n2 n3).
Qed.

Lemma identity_sanitizeAll t ms n1 n2 n3 : map identity (sanitizeMessagesOnLoad t ms n1 n2 n3) = map identity ms.
Proof.
  unfold sanitizeMessagesOnLoad. destruct (lastIndex _ ms) as [i|]; [|done]. destruct (ms !! i) as [m|] eqn:E; [|done].
  change (map identity) with (fmap (M := list) identity). rewrite list_fmap_insert, identity_sanitize.
  apply list_insert_id. rewrite list_lookup_fmap, E. done.
Qed.

Lemma identity_all now parsed : map identity (map fst (normalizeAll now parsed)) = map identity parsed.
Proof.
  unfold normalizeAll. revert now. induction parsed as [|m ms IH]; intros now; [done|]. cbn [imap map].
  f_equal; [apply identity_normalize|]. exact (IH (fun i => now (S i))).
Qed.

(** ** Properties *)

(** Loading a conversation respects its limits and loses no more than they
    ask: at most a hundred messages are loaded, more than one message is loaded
    only within the limit on the total size, the messages loaded are the last
    ones of the stored conversation in order, with their keys and authors, and an
    earlier message is left out only because the number is reached or its size
    would exceed the limit.  The result is written back as it is. *)
Theorem load_bounds t now parsed n1 n2 n3 :
  let normalized := map fst (normalizeAll now parsed) in
  let kept := keptMessages now parsed in
  let loaded := (loadMessages t now parsed n1 n2 n3).1 in
  len loaded <= MAX_STORED_MESSAGES /\
  (totalSize kept <= MAX_LOADED_MESSAGES_CHARS \/ len kept <= 1) /\
  (exists dropped, normalized = dropped ++ kept /\
     forall m, last dropped = Some m ->
       len kept = MAX_STORED_MESSAGES \/ MAX_LOADED_MESSAGES_CHARS < totalSize kept + getMessageSize m) /\
  (parsed <> [] -> kept <> []) /\
  map identity normalized = map identity parsed /\ map identity loaded = map identity kept /\
  (loadMessages t now parsed n1 n2 n3).2 = Some loaded /\ saveMessages loaded = loaded.
Proof.
  cbv zeta. set (normalized := map fst (normalizeAll now parsed)).
  assert (El : (loadMessages t now parsed n1 n2 n3).1 = sanitizeMessagesOnLoad t (keptMessages now parsed) n1 n2 n3 /\
    (loadMessages t now parsed n1 n2 n3).2 = Some (sanitizeMessagesOnLoad t (keptMessages now parsed) n1 n2 n3)).
  { unfold loadMessages, keptMessages. cbv zeta. fold normalized. destruct (trimMessages normalized) as [trimmed same]. cbn [fst snd negb orb].
    by rewrite !orb_true_r. }
  destruct El as [-> ->]. unfold keptMessages. fold normalized. set (trimmed := (trimMessages normalized).1).
  destruct (trim_spec normalized) as (d1 & E1 & L1 & M1). fold trimmed in E1, L1, M1.
  destruct (sizeTrim_spec trimmed) as (d2 & E2 & S2 & M2). set (kept := trimMessagesByContentSize trimmed) in *.
  assert (Eid : map identity (sanitizeMessagesOnLoad t kept n1 n2 n3) = map identity kept) by apply identity_sanitizeAll.
  assert (Hlen : length (sanitizeMessagesOnLoad t kept n1 n2 n3) = length kept) by (apply (f_equal length) in Eid; by rewrite !length_map in Eid).
  assert (Hk : len kept <= MAX_STORED_MESSAGES) by (rewrite E2 in L1; unfold len in *; rewrite length_app in L1; lia).
  split_and!.
  - unfold len in *. by rewrite Hlen.
  - destruct S2 as [?|S2]; [by left | right; unfold len; lia].
  - exists (d1 ++ d2). split; [by rewrite E1 at 1; rewrite E2 at 1; rewrite <- app_assoc|]. intros m Hm.
    destruct (last d2) as [m2|] eqn:El2.
    + right. rewrite last_app, El2 in Hm. injection Hm as <-. apply M2.
    + apply last_None in El2 as ->. rewrite app_nil_r in Hm. left. destruct M1 as [-> |M1]; [done|]. cbn in E2. by rewrite <- E2.
  - intros Hp Hn. assert (Hn1 : normalized <> []).
    { intros X. apply Hp. apply (f_equal length) in X. unfold normalized, normalizeAll in X. rewrite length_map, length_imap in X. by destruct parsed. }
    rewrite Hn in E2, M2. rewrite app_nil_r in E2. destruct (last d2) as [m2|] eqn:El2; [by destruct M2|].
    apply last_None in El2. rewrite El2 in E2. rewrite E2, app_nil_r in E1. destruct M1 as [-> |M1]; [done|]. by rewrite E2 in M1.
  - apply identity_all.
  - done.
  - done.
  - unfold saveMessages, trimMessages. unfold len in *. rewrite Hlen. by rewrite (proj2 (Z.leb_le _ _) Hk).
Qed.

(** An overlong text keeps its beginning and says that it was cut. *)
Lemma truncateText_spec text maxLength :
  0 <= maxLength -> len (truncateText text maxLength) <= maxLength /\ (len text <= maxLength -> truncateText text maxLength = text).
Proof.
  intros H. unfold truncateText. destruct (Z.leb_spec (len text) maxLength); [done|]. split; [|lia].
  destruct (Z.leb_spec maxLength (len TRUNCATED_CONTENT_SUFFIX)); unfold len in *; rewrite ?length_app, length_take; lia.
Qed.

(** Every text of a loaded message is within its limit, before the tags of an
    interrupted answer are separated. *)
Lemma repairTexts_bounded m :
  Forall (fun v => len (content v) <= MAX_LOADED_MESSAGE_CHARS) (versions (repairTexts m).1) /\
  match reasoning (repairTexts m).1 with Some r => len (rcontent r) <= MAX_LOADED_MESSAGE_CHARS | None => True end.
Proof.
  assert (T : forall s, len (truncateText s MAX_LOADED_MESSAGE_CHARS) <= MAX_LOADED_MESSAGE_CHARS) by (intros s; by apply truncateText_spec).
  assert (V : forall v, len (content (loadVersion v).1) <= MAX_LOADED_MESSAGE_CHARS).
  { intros v. unfold loadVersion. cbv zeta. case_match eqn:E; [|apply T]. apply andb_prop in E as [E _]. apply bool_decide_eq_true in E. cbn. rewrite <- E. apply T. }
  unfold repairTexts. cbv zeta. case_match eqn:E; cbn [fst versions reasoning with_reasoning with_versions].
  - split; [by do 2 apply Forall_map; apply Forall_true|]. destruct (reasoning m); cbn; [apply T | done].
  - apply orb_false_iff in E as [E1 E2]. split.
    + rewrite Forall_forall. intros v Hv. specialize (V v). unfold loadVersion in V. cbv zeta in V. case_match eqn:Ev; [done|].
      exfalso. apply not_true_iff_false in E1. apply E1, existsb_exists. exists (loadVersion v). split; [apply in_map; by apply list_elem_of_In|].
      unfold loadVersion. cbv zeta. by rewrite Ev.
    + apply negb_false_iff, bool_decide_eq_true in E2. destruct (reasoning m) as [r|]; [|done]. cbn in E2. injection E2 as <-. apply T.
Qed.

End PlaygroundStorage.
