(* ===== verification/PlaygroundPage.v ===== *)
(** * Chat playground: parameters, options and page state
      ([src/web/default/src/features/playground]:
      [lib/parameters/playground-parameters.ts],
      [lib/options/playground-option-utils.ts],
      [lib/state/playground-state-utils.ts], [lib/storage/storage.ts],
      [hooks/use-playground-options.ts], [hooks/use-playground-state.ts])

    The settings of the playground are clamped when they are edited, kept valid
    against the models and groups the server offers, and written to the browser's
    storage on every change; the conversation is loaded once and saved after a
    pause.  The page is a record, its actions and timers the steps of a relation.
    The schema library is a parameter. *)
From Stdlib Require Import SpecFloat.
From stdpp Require Import relations.
From S2P Require Import Prelude JsString JsNumber JsNumberOrder Json JsonText PlaygroundMessages PlaygroundChat PlaygroundStorage.
Import PlaygroundMessages PlaygroundChat PlaygroundStorage.
Local Open Scope Z_scope.

Module PlaygroundPage.
#[local] Arguments js : simpl never.

(** ** Parameters *)
Inductive PlaygroundParameterKey := k_temperature | k_top_p | k_frequency_penalty | k_presence_penalty | k_max_tokens | k_seed.
#[export] Instance PlaygroundParameterKey_eq_dec : EqDecision PlaygroundParameterKey.
Proof. solve_decision. Defined.

Inductive ValueType := slider | number.

Record PlaygroundParameterControl := mkControl {
  c_key : PlaygroundParameterKey; labelKey : jsstr; descriptionKey : jsstr; valueType : ValueType; min : num; max : num; step : num }.

Definition PLAYGROUND_PARAMETER_CONTROLS : list PlaygroundParameterControl :=
  let n := num_of_string in
  [mkControl k_temperature (js "Temperature") (js "Controls randomness and creativity") slider (n (js "0.1")) (n (js "1")) (n (js "0.1"));
   mkControl k_top_p (js "Top P") (js "Limits token selection to a probability mass") slider (n (js "0.1")) (n (js "1")) (n (js "0.1"));
   mkControl k_frequency_penalty (js "Frequency Penalty") (js "Reduces repeated wording") slider (n (js "-2")) (n (js "2")) (n (js "0.1"));
   mkControl k_presence_penalty (js "Presence Penalty") (js "Encourages new topics") slider (n (js "-2")) (n (js "2")) (n (js "0.1"));
   mkControl k_max_tokens (js "Max Tokens") (js "Caps the response length") number (n (js "0")) (n (js "200000")) (n (js "1"));
   mkControl k_seed (js "Seed") (js "Keeps compatible responses more repeatable") number (n (js "0")) (n (js "2147483647")) (n (js "1"))].

Definition control_of (key : PlaygroundParameterKey) : option PlaygroundParameterControl :=
  List.find (fun item => bool_decide (c_key item = key)) PLAYGROUND_PARAMETER_CONTROLS.

(** What an input reports: the text of a number field or the number of a slider. *)
Inductive InputValue := IText (s : jsstr) | INum (n : num).

(** The value of an empty or unreadable input. *)
Definition no_value (key : PlaygroundParameterKey) : option num := match key with k_seed => None | _ => Some num_zero end.

Definition precision_of (step : num) : Z :=
  match split_on 46 (num_to_string step) with _ :: d :: _ => Z.of_nat (length d) | _ => 0 end.

Definition clamp (control : PlaygroundParameterControl) (parsed : num) : num := num_min (max control) (num_max (min control) parsed).

(** [None] is [null]. *)
Definition normalizeParameterNumberValue (key : PlaygroundParameterKey) (value : InputValue) : option num :=
  match value with
  | IText [] => no_value key
  | _ =>
      let parsed := match value with INum n => n | IText s => parseFloat s end in
      match control_of key with
      | None => no_value key
      | Some control =>
          if num_is_nan parsed then no_value key
          else
            let clamped := clamp control parsed in
            Some (if num_leb (num_of_Z 1) (step control) then num_truncate clamped
                  else num_of_string (num_to_fixed (precision_of (step control)) clamped))
      end
  end.

Definition getParameterControlValueText (key : PlaygroundParameterKey) (value : option num) : jsstr :=
  match value with
  | None => match key with k_seed => js "Not set" | _ => js "null" end
  | Some n => num_to_string n
  end.

Example normalize_values :
  map (fun p => normalizeParameterNumberValue p.1 p.2)
    [(k_temperature, INum (num_of_string (js "0.7000000000000001"))); (k_top_p, INum (num_of_Z 3)); (k_frequency_penalty, INum (num_of_string (js "-2.7")));
     (k_max_tokens, IText (js "4096.9 tokens")); (k_seed, IText (js "-5")); (k_seed, IText []); (k_max_tokens, IText (js "x"))]
  = [Some (num_of_string (js "0.7")); Some (num_of_Z 1); Some (num_of_Z (-2)); Some (num_of_Z 4096); Some (num_of_Z 0); None; Some num_zero].
Proof. vm_compute. reflexivity. Qed.

(** ** Options *)
Record ModelOption := mkModel { m_label : jsstr; m_value : jsstr }.
Record GroupOption := mkGroupOption { g_label : jsstr; g_value : jsstr; g_ratio : num; g_desc : option jsstr }.

Definition offers (models : list ModelOption) (currentModel : jsstr) : bool := existsb (fun m => bool_decide (m_value m = currentModel)) models.
Definition offersGroup (groups : list GroupOption) (currentGroup : jsstr) : bool := existsb (fun g => bool_decide (g_value g = currentGroup)) groups.

Definition getModelFallback (models : list ModelOption) (currentModel : jsstr) : option jsstr :=
  if offers models currentModel then None else m_value <$> head models.

Definition shouldClearModelForGroup (models : list ModelOption) (currentModel : jsstr) : bool :=
  truthy currentModel && negb (offers models currentModel).

Definition getGroupFallback (groups : list GroupOption) (currentGroup : jsstr) : option jsstr :=
  if offersGroup groups currentGroup then None
  else match List.find (fun g => bool_decide (g_value g = js "default")) groups with
       | Some g => Some (g_value g)
       | None => g_value <$> head groups
       end.

Definition getOptionLoadErrorMessage (error : option jsstr) (fallbackMessage : jsstr) : jsstr := default fallbackMessage error.

(** The choices of the page and the options it shows. *)
Record Options := mkOptions { o_model : jsstr; o_group : jsstr; o_models : list ModelOption; o_groups : list GroupOption }.

Section OptionEffects.
(** What the two queries have answered: the models of a group, and the groups. *)
Context (modelsOf : jsstr -> option (list ModelOption)) (groupsData : option (list GroupOption)).

(** The models query is disabled for the empty group. *)
Definition modelsData (currentGroup : jsstr) : option (list ModelOption) := if truthy currentGroup then modelsOf currentGroup else None.

Definition next_model (data : option (list ModelOption)) (currentModel : jsstr) : jsstr :=
  match data with
  | None => currentModel
  | Some models =>
      match getModelFallback models currentModel with
      | Some (c :: s) => c :: s
      | _ => if shouldClearModelForGroup models currentModel then [] else currentModel
      end
  end.

Definition next_group (currentGroup : jsstr) : jsstr :=
  match groupsData with
  | None => currentGroup
  | Some groups => match getGroupFallback groups currentGroup with Some (c :: s) => c :: s | _ => currentGroup end
  end.

(** One commit: both effects see the choices of the rendering. *)
Definition commit_options (o : Options) : Options :=
  mkOptions (next_model (modelsData (o_group o)) (o_model o)) (next_group (o_group o))
    (default (o_models o) (modelsData (o_group o))) (default (o_groups o) groupsData).
End OptionEffects.

(** ** Settings in the browser's storage *)
Abbreviation members := (list (jsstr * json)).
Definition LocalStorage : Type := list (jsstr * jsstr).

Definition STORAGE_VERSION : Z := 1.
Definition KEY_CONFIG : jsstr := js "playground_config".
Definition KEY_PARAMETER_ENABLED : jsstr := js "playground_parameter_enabled".

Definition DEFAULT_CONFIG : PlaygroundConfig :=
  mkConfig (js "gpt-4o") (js "default") (num_of_string (js "0.7")) (num_of_Z 1) (num_of_Z 4096) num_zero num_zero None true.
Definition DEFAULT_PARAMETER_ENABLED : ParameterEnabled := mkEnabled true true false true true false.

(** The settings as the objects the code stores. *)
Definition config_members (c : PlaygroundConfig) : members :=
  [(js "model", JStr (model c)); (js "group", JStr (group c)); (js "temperature", JNum (temperature c)); (js "top_p", JNum (top_p c));
   (js "max_tokens", JNum (max_tokens c)); (js "frequency_penalty", JNum (frequency_penalty c)); (js "presence_penalty", JNum (presence_penalty c));
   (js "seed", match seed c with Some n => JNum n | None => JNull end); (js "stream", JBool (stream c))].

Definition enabled_members (e : ParameterEnabled) : members :=
  [(js "temperature", JBool (en_temperature e)); (js "top_p", JBool (en_top_p e)); (js "max_tokens", JBool (en_max_tokens e));
   (js "frequency_penalty", JBool (en_frequency_penalty e)); (js "presence_penalty", JBool (en_presence_penalty e)); (js "seed", JBool (en_seed e))].

(** [{ ...defaults, ...stored }], the stored fields having the types that the
    schema checked. *)
Definition str_field (k d : jsstr) (ps : members) : jsstr := match map_get k ps with Some (JStr s) => s | _ => d end.
Definition num_field (k : jsstr) (d : num) (ps : members) : num := match map_get k ps with Some (JNum n) => n | _ => d end.
Definition bool_field (k : jsstr) (d : bool) (ps : members) : bool := match map_get k ps with Some (JBool b) => b | _ => d end.
Definition seed_field (d : option num) (ps : members) : option num :=
  match map_get (js "seed") ps with Some (JNum n) => Some n | Some JNull => None | _ => d end.

Definition mergeConfig (d : PlaygroundConfig) (ps : members) : PlaygroundConfig :=
  mkConfig (str_field (js "model") (model d) ps) (str_field (js "group") (group d) ps) (num_field (js "temperature") (temperature d) ps)
    (num_field (js "top_p") (top_p d) ps) (num_field (js "max_tokens") (max_tokens d) ps) (num_field (js "frequency_penalty") (frequency_penalty d) ps)
    (num_field (js "presence_penalty") (presence_penalty d) ps) (seed_field (seed d) ps) (bool_field (js "stream") (stream d) ps).

Definition mergeEnabled (d : ParameterEnabled) (ps : members) : ParameterEnabled :=
  mkEnabled (bool_field (js "temperature") (en_temperature d) ps) (bool_field (js "top_p") (en_top_p d) ps) (bool_field (js "max_tokens") (en_max_tokens d) ps)
    (bool_field (js "frequency_penalty") (en_frequency_penalty d) ps) (bool_field (js "presence_penalty") (en_presence_penalty d) ps)
    (bool_field (js "seed") (en_seed d) ps).

(** [readStoredValue]: [None] when the text is no JSON, [Some None] when there is
    no text. *)
Definition readStoredValue (key : jsstr) (storage : LocalStorage) : option (option json) :=
  match map_get key storage with
  | None | Some [] => Some None
  | Some saved => Some <$> json_parse saved
  end.

Definition unwrapStoredValue (value : json) : json :=
  match value with
  | JObj ps => match map_get (js "version") ps, map_get (js "data") ps with Some _, Some data => data | _, _ => value end
  | _ => value
  end.

Definition envelope (data : json) : json := JObj [(js "version", JNum (num_of_Z STORAGE_VERSION)); (js "data", data)].
Definition writeStoredValue (key : jsstr) (data : json) (storage : LocalStorage) : LocalStorage := map_set key (json_stringify (envelope data)) storage.

Section Schemas.
(** [playgroundConfigSchema.parse] and [parameterEnabledSchema.parse]; [None] when
    they throw. *)
Context (playgroundConfigSchema parameterEnabledSchema : json -> option json).

Definition loadValue (schema : json -> option json) (key : jsstr) (storage : LocalStorage) : members :=
  match readStoredValue key storage with
  | Some (Some saved) => if json_truthy saved then match schema (unwrapStoredValue saved) with Some (JObj ps) => ps | _ => [] end else []
  | _ => []
  end.

Definition loadConfig : LocalStorage -> members := loadValue playgroundConfigSchema KEY_CONFIG.
Definition loadParameterEnabled : LocalStorage -> members := loadValue parameterEnabledSchema KEY_PARAMETER_ENABLED.

Definition saveValue (schema : json -> option json) (key : jsstr) (value : members) (storage : LocalStorage) : LocalStorage :=
  match schema (JObj value) with Some parsed => writeStoredValue key parsed storage | None => storage end.

Definition saveConfig (config : PlaygroundConfig) : LocalStorage -> LocalStorage := saveValue playgroundConfigSchema KEY_CONFIG (config_members config).
Definition saveParameterEnabled (enabled : ParameterEnabled) : LocalStorage -> LocalStorage :=
  saveValue parameterEnabledSchema KEY_PARAMETER_ENABLED (enabled_members enabled).

Definition getInitialPlaygroundConfig (storage : LocalStorage) : PlaygroundConfig := mergeConfig DEFAULT_CONFIG (loadConfig storage).
Definition getInitialParameterEnabled (storage : LocalStorage) : ParameterEnabled := mergeEnabled DEFAULT_PARAMETER_ENABLED (loadParameterEnabled storage).

(** ** The page *)
Record Page := mkPage {
  config : PlaygroundConfig; parameterEnabled : ParameterEnabled;
  messages : list Message; isLoadingMessages : bool;
  saveTimer : bool; latestMessages : list Message; hasLoadedMessages : bool;
  loadTimer : bool; mounted : bool;
  storage : LocalStorage; stored : option (list Message) }.

(** The state hooks of a page on the storage; the stored conversation is the
    one that validates, if any. *)
Definition mount (storage : LocalStorage) (stored : option (list Message)) : Page :=
  mkPage (getInitialPlaygroundConfig storage) (getInitialParameterEnabled storage) [] true false [] false true true storage stored.

Definition with_settings (c : PlaygroundConfig) (e : ParameterEnabled) (s : LocalStorage) (p : Page) : Page :=
  mkPage c e (messages p) (isLoadingMessages p) (saveTimer p) (latestMessages p) (hasLoadedMessages p) (loadTimer p) (mounted p) s (stored p).

(** The field that [updateConfig] replaces, and its value. *)
Inductive ConfigUpdate :=
| set_model (v : jsstr) | set_group (v : jsstr) | set_temperature (v : num) | set_top_p (v : num) | set_max_tokens (v : num)
| set_frequency_penalty (v : num) | set_presence_penalty (v : num) | set_seed (v : option num) | set_stream (v : bool).

Definition apply_update (u : ConfigUpdate) (c : PlaygroundConfig) : PlaygroundConfig :=
  let '(mkConfig m g t p x f q s r) := c in
  match u with
  | set_model v => mkConfig v g t p x f q s r
  | set_group v => mkConfig m v t p x f q s r
  | set_temperature v => mkConfig m g v p x f q s r
  | set_top_p v => mkConfig m g t v x f q s r
  | set_max_tokens v => mkConfig m g t p v f q s r
  | set_frequency_penalty v => mkConfig m g t p x v q s r
  | set_presence_penalty v => mkConfig m g t p x f v s r
  | set_seed v => mkConfig m g t p x f q v r
  | set_stream v => mkConfig m g t p x f q s v
  end.

Definition apply_enabled (key : PlaygroundParameterKey) (v : bool) (e : ParameterEnabled) : ParameterEnabled :=
  let '(mkEnabled t p x f q s) := e in
  match key with
  | k_temperature => mkEnabled v p x f q s
  | k_top_p => mkEnabled t v x f q s
  | k_max_tokens => mkEnabled t p v f q s
  | k_frequency_penalty => mkEnabled t p x v q s
  | k_presence_penalty => mkEnabled t p x f v s
  | k_seed => mkEnabled t p x f q v
  end.

Definition updateConfig (u : ConfigUpdate) (p : Page) : Page :=
  let updated := apply_update u (config p) in with_settings updated (parameterEnabled p) (saveConfig updated (storage p)) p.
Definition updateParameterEnabled (key : PlaygroundParameterKey) (v : bool) (p : Page) : Page :=
  let updated := apply_enabled key v (parameterEnabled p) in with_settings (config p) updated (saveParameterEnabled updated (storage p)) p.
Definition resetConfig (p : Page) : Page :=
  with_settings DEFAULT_CONFIG DEFAULT_PARAMETER_ENABLED (saveParameterEnabled DEFAULT_PARAMETER_ENABLED (saveConfig DEFAULT_CONFIG (storage p))) p.

(** [persistMessages] inside [updateMessages]: a timer that is set again replaces
    the one before. *)
Definition updateMessages (updater : list Message -> list Message) (p : Page) : Page :=
  let newMessages := updater (messages p) in
  mkPage (config p) (parameterEnabled p) newMessages (isLoadingMessages p) (hasLoadedMessages p || saveTimer p) newMessages (hasLoadedMessages p)
    (loadTimer p) (mounted p) (storage p) (stored p).

Definition clearMessages : Page -> Page := updateMessages (fun _ => []).

(** The save timer. *)
Definition fireSave (p : Page) : Page :=
  mkPage (config p) (parameterEnabled p) (messages p) (isLoadingMessages p) false (latestMessages p) (hasLoadedMessages p) (loadTimer p) (mounted p)
    (storage p) (Some (saveMessages (latestMessages p))).

(** The load timer: [loadMessages] reads the stored conversation and writes what
    it repaired, also when the page is gone. *)
Definition fireLoad (t : jsstr -> jsstr) (now : nat -> nat -> Z) (n1 n2 n3 : Z) (p : Page) : Page :=
  let '(loaded, stored') :=
    match stored p with
    | None => ([], None)
    | Some parsed =>
        let '(sanitized, written) := loadMessages t now parsed n1 n2 n3 in
        (sanitized, Some (match written with Some ms => saveMessages ms | None => parsed end))
    end in
  if mounted p then
    mkPage (config p) (parameterEnabled p) loaded false (saveTimer p) loaded true false true (storage p) stored'
  else
    mkPage (config p) (parameterEnabled p) (messages p) (isLoadingMessages p) (saveTimer p) (latestMessages p) (hasLoadedMessages p) false false
      (storage p) stored'.

(** The cleanup functions of the two effects. *)
Definition unmount (p : Page) : Page :=
  mkPage (config p) (parameterEnabled p) (messages p) (isLoadingMessages p) false (latestMessages p) (hasLoadedMessages p) (loadTimer p) false
    (storage p) (if saveTimer p then Some (saveMessages (latestMessages p)) else stored p).
End Schemas.

(** ** Bounds of the parameters *)
Definition within (lo hi x : num) : Prop :=
  is_double x = true /\ num_is_finite x = true /\ num_units lo <= num_units x <= num_units hi.

Lemma clamp_within c x :
  is_double (min c) = true -> num_is_finite (min c) = true -> is_double (max c) = true -> num_is_finite (max c) = true -> num_units (min c) <= num_units (max c) ->
  is_double x = true -> num_is_finite x = true -> within (min c) (max c) (clamp c x).
Proof.
  intros D1 F1 D2 F2 Hle Dx Fx. unfold clamp, num_min, num_max.
  rewrite (num_ltb_units (min c) x) by done. destruct (Z.ltb_spec (num_units (min c)) (num_units x)).
  - rewrite num_ltb_units by done. destruct (Z.ltb_spec (num_units x) (num_units (max c))); split_and!; done || lia.
  - rewrite num_ltb_units by done. destruct (Z.ltb_spec (num_units (min c)) (num_units (max c))); split_and!; done || lia.
Qed.

Definition control_ok (c : PlaygroundParameterControl) : bool :=
  is_double (min c) && num_is_finite (min c) && is_double (max c) && num_is_finite (max c) && (num_units (min c) <=? num_units (max c)).

Definition within_b (c : PlaygroundParameterControl) (x : num) : bool :=
  is_double x && num_is_finite x && (num_units (min c) <=? num_units x) && (num_units x <=? num_units (max c)).

Lemma controls_ok :
  forallb (fun c => control_ok c && within_b c (clamp c (num_inf false)) && within_b c (clamp c (num_inf true))) PLAYGROUND_PARAMETER_CONTROLS = true.
Proof. vm_compute. reflexivity. Qed.

(** Every number but [NaN] is clamped into the range of its control. *)
Lemma control_clamps c x : In c PLAYGROUND_PARAMETER_CONTROLS -> is_double x = true -> num_is_nan x = false -> within (min c) (max c) (clamp c x).
Proof.
  intros Hc Dx Nx. pose proof controls_ok as H. rewrite forallb_forall in H. specialize (H c Hc).
  assert (W : forall y, within_b c y = true -> within (min c) (max c) y) by (intros y; unfold within_b, within; rewrite !andb_true_iff, !Z.leb_le; tauto).
  apply andb_true_iff in H as [[H H1]%andb_true_iff H2]. unfold control_ok in H. rewrite !andb_true_iff, Z.leb_le in H.
  destruct x as [s|s| |s m e]; [apply clamp_within; tauto | destruct s; by apply W | done | apply clamp_within; tauto].
Qed.

(** The integer part of a number from zero to an integer. *)
Lemma truncate_within x hi M :
  within num_zero hi x -> x <> S754_zero true -> num_units hi = M * 2 ^ 1074 -> exists z, num_truncate x = num_of_Z z /\ 0 <= z <= M.
Proof.
  intros (Dx & Fx & L & U) Hz HM. destruct x as [s|s| |s m e]; try done.
  - destruct s; [done|]. exists 0. split; [done|]. change (num_units (S754_zero false)) with 0 in *. change (num_units num_zero) with 0 in *. nia.
  - pose proof (num_fraction_units _ Dx) as Hf. unfold num_truncate, num_trunc. destruct (num_fraction (S754_finite s m e)) as [n d]. destruct Hf as [Hd Hn].
    change (num_units num_zero) with 0 in L. assert (W : 0 < 2 ^ 1074) by (apply Z.pow_pos_nonneg; lia). set (X := 2 ^ 1074) in *. set (u := num_units (S754_finite s m e)) in *.
    assert (Hs : s = false). { destruct s; [|done]. exfalso. subst u. cbn [num_units] in L. pose proof (double_mantissa _ _ _ Dx) as (Le & _).
      assert (0 < 2 ^ (e + 1074)) by (apply Z.pow_pos_nonneg; lia). nia. }
    subst s. assert (0 <= n) by nia. assert (n <= M * d) by nia. assert (Hq : 0 <= Z.quot n d <= M).
    { split; [apply Z.quot_pos; lia|]. rewrite Z.quot_div_nonneg by lia. apply Z.div_le_upper_bound; lia. }
    destruct (Z.eqb_spec (Z.quot n d) 0); [exists 0 | exists (Z.quot n d)]; (split; [done | lia]).
Qed.

(** The text of a tenth. *)
Definition tenths (s : bool) (v : Z) : jsstr :=
  let ds := zeros (2 - Z.of_nat (length (string_of_Z v))) ++ string_of_Z v in
  let i := (length ds - 1)%nat in (if s then js "-" else []) ++ take i ds ++ [dot] ++ drop i ds.

Lemma fixed_tenths x lo hi A :
  within lo hi x -> - A * 2 ^ 1074 <= num_units lo -> num_units hi <= A * 2 ^ 1074 -> 0 <= A <= 10 ^ 20 ->
  (exists s, x = S754_zero s) \/
  exists s v, num_to_fixed 1 x = tenths s v /\ 0 <= v <= 10 * A /\ (s = true -> num_units lo < 0) /\ (2 ^ 1074 <= 10 * num_units lo -> 1 <= v).
Proof.
  intros (Dx & Fx & L & U) HL HU HA. destruct x as [s|s| |s m e]; try done; [by left; exists s|]. right.
  set (y := S754_finite false m e). assert (Dy : is_double y = true) by done. pose proof (num_fraction_units y Dy) as Hf.
  pose proof (double_mantissa _ _ _ Dx) as (Le & _). assert (P : 0 < 2 ^ (e + 1074)) by (apply Z.pow_pos_nonneg; lia).
  assert (Hu : num_units (S754_finite s m e) = (if s then -1 else 1) * num_units y) by (subst y; cbn [num_units]; lia).
  assert (Hy : 0 < num_units y) by (subst y; cbn [num_units]; nia). rewrite Hu in L, U.
  unfold num_to_fixed. fold y. destruct (num_fraction y) as [n d]. destruct Hf as [Hd Hn].
  assert (W : 0 < 2 ^ 1074) by (apply Z.pow_pos_nonneg; lia). set (X := 2 ^ 1074) in *. set (u := num_units y) in *.
  assert (Hn0 : 0 < n) by nia. assert (HuA : u <= A * X) by (destruct s; lia). assert (HnA : n <= A * d) by nia.
  destruct (Z.leb_spec (10 ^ 21 * d) n); [exfalso; change (10 ^ 21) with (10 * 10 ^ 20) in *; nia|].
  exists s, (ndiv_round (n * 10 ^ 1) d). change (10 ^ 1) with 10. split; [done|]. unfold ndiv_round. split; [split|split].
  - apply Z.div_pos; lia.
  - apply Z.lt_succ_r, Z.div_lt_upper_bound; lia.
  - intros ->. lia.
  - intros H10. apply Z.div_le_lower_bound; [lia|]. assert (s = false) as -> by (destruct s; [lia | done]). assert (d <= 10 * n) by nia. lia.
Qed.

Definition tenth_grid (lo hi : Z) : list num := map (fun k => num_div (num_of_Z k) (num_of_Z 10)) (map (fun i => lo + Z.of_nat i) (seq 0 (Z.to_nat (hi - lo + 1)))).

(** A value of the slider's scale: one of the tenths from the least to the
    greatest value, and within the two as the language compares numbers. *)
Definition on_scale (c : PlaygroundParameterControl) (lo hi : Z) (r : num) : bool :=
  num_leb (min c) r && num_leb r (max c) && existsb (num_eqb r) (tenth_grid lo hi).

(** The least and greatest tenth of a slider. *)
Definition slider_scale (key : PlaygroundParameterKey) : option (Z * Z) :=
  match key with k_temperature | k_top_p => Some (1, 10) | k_frequency_penalty | k_presence_penalty => Some (-20, 20) | _ => None end.

Definition zrange (lo hi : Z) : list Z := map (fun i => lo + Z.of_nat i) (seq 0 (Z.to_nat (hi - lo + 1))).

Lemma in_zrange lo hi v : lo <= v <= hi -> In v (zrange lo hi).
Proof. intros H. apply in_map_iff. exists (Z.to_nat (v - lo)). split; [lia|]. apply in_seq. lia. Qed.

Lemma tenths_positive : 
  forallb (fun c => forallb (fun v => on_scale c 1 10 (num_of_string (tenths false v))) (zrange 1 10)) (take 2 PLAYGROUND_PARAMETER_CONTROLS) = true.
Proof. vm_compute. reflexivity. Qed.

Lemma tenths_signed :
  forallb (fun c => on_scale c (-20) 20 (num_of_string (num_to_fixed 1 num_zero)) && forallb (fun v => on_scale c (-20) 20 (num_of_string (tenths true v)) && on_scale c (-20) 20 (num_of_string (tenths false v))) (zrange 0 20))
    (take 2 (drop 2 PLAYGROUND_PARAMETER_CONTROLS)) = true.
Proof. vm_compute. reflexivity. Qed.

Definition control (key : PlaygroundParameterKey) : PlaygroundParameterControl :=
  match control_of key with Some c => c | None => mkControl key [] [] number num_zero num_zero num_zero end.

Lemma control_in key : control_of key = Some (control key) /\ In (control key) PLAYGROUND_PARAMETER_CONTROLS.
Proof. destruct key; (split; [reflexivity|]); cbn; tauto. Qed.

Lemma slider_positive key x :
  slider_scale key = Some (1, 10) -> within (min (control key)) (max (control key)) x ->
  on_scale (control key) 1 10 (num_of_string (num_to_fixed 1 x)) = true.
Proof.
  intros Hk Hw. pose proof tenths_positive as T. rewrite forallb_forall in T.
  assert (Hc : In (control key) (take 2 PLAYGROUND_PARAMETER_CONTROLS)) by (destruct key; first [discriminate Hk | cbn; tauto]).
  specialize (T _ Hc). rewrite forallb_forall in T.
  assert (Hm : (- (1) * 2 ^ 1074 <=? num_units (min (control key))) && (num_units (max (control key)) <=? 1 * 2 ^ 1074) && (2 ^ 1074 <=? 10 * num_units (min (control key))) = true)
    by (destruct key; first [discriminate Hk | vm_compute; reflexivity]).
  rewrite !andb_true_iff, !Z.leb_le in Hm. destruct Hm as [[H1 H2] H3].
  destruct (fixed_tenths x _ _ 1 Hw H1 H2 ltac:(lia)) as [[s ->]|(s & v & -> & Hv & Hs & Hv1)].
  - exfalso. destruct Hw as (_ & _ & L & _). cbn [num_units] in L. assert (0 < 2 ^ 1074) by (apply Z.pow_pos_nonneg; lia). lia.
  - destruct s; [exfalso; specialize (Hs eq_refl); assert (0 < 2 ^ 1074) by (apply Z.pow_pos_nonneg; lia); lia|]. apply T, in_zrange. lia.
Qed.

Lemma slider_signed key x :
  slider_scale key = Some (-20, 20) -> within (min (control key)) (max (control key)) x ->
  on_scale (control key) (-20) 20 (num_of_string (num_to_fixed 1 x)) = true.
Proof.
  intros Hk Hw. pose proof tenths_signed as T. rewrite forallb_forall in T.
  assert (Hc : In (control key) (take 2 (drop 2 PLAYGROUND_PARAMETER_CONTROLS))) by (destruct key; first [discriminate Hk | cbn; tauto]).
  specialize (T _ Hc). apply andb_true_iff in T as [T0 T]. rewrite forallb_forall in T.
  assert (Hm : (- (2) * 2 ^ 1074 <=? num_units (min (control key))) && (num_units (max (control key)) <=? 2 * 2 ^ 1074) = true)
    by (destruct key; first [discriminate Hk | vm_compute; reflexivity]).
  rewrite !andb_true_iff, !Z.leb_le in Hm. destruct Hm as [H1 H2].
  destruct (fixed_tenths x _ _ 2 Hw H1 H2 ltac:(lia)) as [[s ->]|(s & v & -> & Hv & _)]; [exact T0|].
  specialize (T v (in_zrange 0 20 v ltac:(lia))). apply andb_true_iff in T as [T1 T2]. by destruct s.
Qed.

Lemma clamp_cases c x : clamp c x = max c \/ clamp c x = min c \/ clamp c x = x.
Proof. unfold clamp, num_min, num_max. destruct (num_ltb (min c) x); destruct (num_ltb _ (max c)); tauto. Qed.

(** The greatest value of an integer parameter. *)
Definition integer_limit (key : PlaygroundParameterKey) : option Z := match key with k_max_tokens => Some 200000 | k_seed => Some 2147483647 | _ => None end.

Lemma number_parameter key M x :
  integer_limit key = Some M -> is_double x = true -> num_is_nan x = false -> exists z, num_truncate (clamp (control key) x) = num_of_Z z /\ 0 <= z <= M.
Proof.
  intros Hk Dx Nx. pose proof (control_clamps _ x (proj2 (control_in key)) Dx Nx) as Hw.
  eapply (truncate_within _ (max (control key))).
  - destruct key; first [discriminate Hk | exact Hw].
  - destruct x as [s|s| |s m e]; [destruct key, s; first [discriminate Hk | vm_compute; discriminate] | | done |].
    + destruct (clamp_cases (control key) (S754_infinity s)) as [->|[->| ->]]; [destruct key; first [discriminate Hk | vm_compute; discriminate].. | done].
    + destruct (clamp_cases (control key) (S754_finite s m e)) as [->|[->| ->]]; [destruct key; first [discriminate Hk | vm_compute; discriminate].. | done].
  - destruct key; try discriminate Hk; injection Hk as <-; vm_compute; reflexivity.
Qed.

(** C38.  Every value entered for a parameter is stored within the limits of its
    control: a slider's value is rounded to one of the tenths of its scale, from
    the least to the greatest, an integer field's value becomes an integer from
    zero to its limit, whatever number was entered, infinities included; an empty
    or unreadable text becomes zero, and for the seed no value. *)
Theorem parameter_in_range key value parsed :
  parsed = (match value with INum n => n | IText s => parseFloat s end) -> is_double parsed = true ->
  let stored := normalizeParameterNumberValue key value in
  (value = IText [] \/ num_is_nan parsed = true -> stored = no_value key) /\
  (value <> IText [] -> num_is_nan parsed = false ->
     (forall lo hi, slider_scale key = Some (lo, hi) -> exists r, stored = Some r /\ on_scale (control key) lo hi r = true) /\
     (forall M, integer_limit key = Some M -> exists z, stored = Some (num_of_Z z) /\ 0 <= z <= M)).
Proof.
  intros -> Dx. destruct (control_in key) as [Ec Hc]. cbv zeta. split.
  - intros [->|Hn]; [done|]. unfold normalizeParameterNumberValue. rewrite Ec. destruct value as [[|c s]|n]; [done | by rewrite Hn..].
  - intros Hv Hn. set (parsed := match value with INum n => n | IText s => parseFloat s end) in *.
    assert (E : normalizeParameterNumberValue key value = Some (if num_leb (num_of_Z 1) (step (control key)) then num_truncate (clamp (control key) parsed)
      else num_of_string (num_to_fixed (precision_of (step (control key))) (clamp (control key) parsed)))).
    { unfold normalizeParameterNumberValue. rewrite Ec. subst parsed. destruct value as [[|c s]|n]; [done | by rewrite Hn..]. }
    rewrite E. pose proof (control_clamps _ parsed Hc Dx Hn) as Hw. split.
    + intros lo hi Hk. eexists. split; [reflexivity|].
      replace (num_leb (num_of_Z 1) (step (control key))) with false by (destruct key; first [discriminate Hk | vm_compute; reflexivity]).
      replace (precision_of (step (control key))) with 1 by (destruct key; first [discriminate Hk | vm_compute; reflexivity]).
      assert (Hl : (lo, hi) = (1, 10) \/ (lo, hi) = (-20, 20)) by (destruct key; try discriminate Hk; injection Hk as <- <-; tauto).
      destruct Hl as [[= -> ->]|[= -> ->]]; [by apply slider_positive | by apply slider_signed].
    + intros M Hk. replace (num_leb (num_of_Z 1) (step (control key))) with true by (destruct key; first [discriminate Hk | vm_compute; reflexivity]).
      destruct (number_parameter key M parsed Hk Dx Hn) as (z & -> & Hz). by exists z.
Qed.

Lemma parameter_in_range_witness :
  (exists r, normalizeParameterNumberValue k_temperature (INum (num_of_Z 7)) = Some r /\ on_scale (control k_temperature) 1 10 r = true) /\
  (exists z, normalizeParameterNumberValue k_seed (IText (js "99999999999")) = Some (num_of_Z z) /\ 0 <= z <= 2147483647).
Proof.
  split; eapply (parameter_in_range _ _ _ eq_refl); solve [vm_compute; reflexivity | discriminate].
Defined.

(** ** Options come to rest *)
Lemma offers_head models m : head models = Some m -> offers models (m_value m) = true.
Proof. destruct models as [|x l]; [done|]. intros [= ->]. unfold offers. cbn [existsb]. by rewrite bool_decide_eq_true_2. Qed.

(** The model chosen for a list of models stays. *)
Lemma next_model_stays data m : next_model data (next_model data m) = next_model data m.
Proof.
  destruct data as [models|]; [|done]. unfold next_model, getModelFallback, shouldClearModelForGroup.
  destruct (offers models m) eqn:Eo; [rewrite andb_false_r; by rewrite Eo, andb_false_r|].
  destruct (head models) as [h|] eqn:Eh; cbn [fmap option_fmap option_map].
  - pose proof (offers_head _ _ Eh) as Oh. destruct (m_value h) as [|c s] eqn:Ev.
    + rewrite andb_true_r. destruct m as [|c s]; cbn [truthy]; [by rewrite Eo | by rewrite Oh].
    + rewrite Oh. by rewrite andb_false_r.
  - destruct models; [|done]. cbn. by destruct m.
Qed.

Lemma offersGroup_fallback groups g f : getGroupFallback groups g = Some f -> offersGroup groups f = true.
Proof.
  unfold getGroupFallback. destruct (offersGroup groups g); [done|]. destruct (List.find _ groups) as [x|] eqn:E.
  - intros [= <-]. apply find_some in E as [E _]. apply existsb_exists. exists x. split; [done|]. by apply bool_decide_eq_true_2.
  - destruct groups as [|x l]; [done|]. intros [= <-]. cbn [offersGroup existsb]. by rewrite bool_decide_eq_true_2.
Qed.

Lemma next_group_stays data g : next_group data (next_group data g) = next_group data g.
Proof.
  destruct data as [groups|]; [|done]. unfold next_group. destruct (getGroupFallback groups g) as [[|c s]|] eqn:E; [by rewrite E | | by rewrite E].
  apply offersGroup_fallback in E. unfold getGroupFallback. by rewrite E.
Qed.

(** C39.  The choices come to rest and are offered: once the queries have answered,
    two commits of the effects reach choices that no further commit changes; then
    the group is one the server offers, the default group being preferred when
    the old choice is gone, and the model is one of those of that group, or empty
    when the group has none. *)
Theorem options_settle modelsOf groups o :
  Forall (fun g => g_value g <> []) groups -> (forall g ms, modelsOf g = Some ms -> Forall (fun m => m_value m <> []) ms) ->
  let commit := commit_options modelsOf (Some groups) in
  let q := commit (commit o) in
  o_model (commit q) = o_model q /\ o_group (commit q) = o_group q /\
  (groups <> [] -> offersGroup groups (o_group q) = true) /\
  (offersGroup groups (o_group o) = false -> offersGroup groups (js "default") = true -> o_group q = js "default") /\
  (forall ms, modelsData modelsOf (o_group q) = Some ms -> ms <> [] -> offers ms (o_model q) = true) /\
  (modelsData modelsOf (o_group q) = Some [] -> o_model q = []).
Proof.
  intros Hg Hm. cbv zeta. unfold commit_options. cbn [o_model o_group]. rewrite !next_group_stays. set (g := next_group (Some groups) (o_group o)).
  split; [apply next_model_stays|]. split; [done|].
  assert (Hgr : groups <> [] -> offersGroup groups g = true).
  { intros Hne. unfold g, next_group. destruct (getGroupFallback groups (o_group o)) as [f|] eqn:E.
    - pose proof (offersGroup_fallback _ _ _ E) as Ho. destruct f; [|done]. exfalso. apply existsb_exists in Ho as (x & Hx & E1%bool_decide_eq_true).
      rewrite Forall_forall in Hg. apply (Hg x); [by apply list_elem_of_In | done].
    - unfold getGroupFallback in E. destruct (offersGroup groups (o_group o)); [done|]. destruct (List.find _ groups); [done|]. by destruct groups. }
  split; [done|]. split.
  { intros Ho Hd. unfold g, next_group, getGroupFallback. rewrite Ho. apply existsb_exists in Hd as (x & Hx & Ex).
    destruct (List.find _ groups) as [y|] eqn:E; [|by pose proof (find_none _ _ E x Hx) as E'; cbn in E'; rewrite Ex in E'].
    apply find_some in E as [_ E%bool_decide_eq_true]. by rewrite E. }
  split.
  - intros ms Hms Hne. rewrite Hms. set (m0 := next_model _ (o_model o)). unfold next_model, getModelFallback, shouldClearModelForGroup.
    destruct (offers ms m0) eqn:Eo; [by rewrite andb_false_r|]. destruct ms as [|h l]; [done|]. cbn [head fmap option_fmap option_map].
    assert (Hh : m_value h <> []). { unfold modelsData in Hms. destruct (truthy g); [|done]. by apply Hm, Forall_cons in Hms as [? _]. }
    destruct (m_value h) as [|c s] eqn:Ev; [done|]. rewrite <- Ev. by apply (offers_head (h :: l)).
  - intros Hms. rewrite Hms. set (m0 := next_model _ (o_model o)). cbn. by destruct m0.
Qed.

Definition sample_groups : list GroupOption := [mkGroupOption (js "VIP") (js "vip") (num_of_Z 2) None; mkGroupOption (js "Default") (js "default") (num_of_Z 1) None].
Definition sample_models (g : jsstr) : option (list ModelOption) :=
  Some (if bool_decide (g = js "default") then [mkModel (js "gpt-4o") (js "gpt-4o"); mkModel (js "o3") (js "o3")] else [mkModel (js "o3") (js "o3")]).
Definition stale_options : Options := mkOptions (js "gone") (js "removed") [] [].

Lemma options_settle_witness :
  let commit := commit_options sample_models (Some sample_groups) in
  let q := commit (commit stale_options) in
  o_group q = js "default" /\ o_model q = js "o3" /\ (o_model (commit q) = o_model q /\ o_group (commit q) = o_group q).
Proof.
  cbv zeta. split; [vm_compute; reflexivity|]. split; [vm_compute; reflexivity|].
  destruct (options_settle sample_models sample_groups stale_options) as (H1 & H2 & _).
  - repeat (apply Forall_cons_2; [discriminate|]). apply Forall_nil_2.
  - intros g ms [= <-]. destruct (bool_decide _); repeat (apply Forall_cons_2; [discriminate|]); apply Forall_nil_2.
  - split; [exact H1 | exact H2].
Defined.

(** ** Settings survive a reload *)

(** Settings whose texts read back: finite numbers with faithful texts, strings of
    code units. *)
Definition config_ok (c : PlaygroundConfig) : bool := json_ok (JObj (config_members c)).

Definition update_ok (u : ConfigUpdate) : bool :=
  match u with
  | set_model v | set_group v => forallb code_unit v
  | set_temperature v | set_top_p v | set_max_tokens v | set_frequency_penalty v | set_presence_penalty v => num_reads_back v
  | set_seed v => match v with Some n => num_reads_back n | None => true end
  | set_stream _ => true
  end.

Lemma config_ok_iff c :
  config_ok c = forallb code_unit (model c) && forallb code_unit (group c) && num_reads_back (temperature c) && num_reads_back (top_p c) && num_reads_back (max_tokens c)
    && num_reads_back (frequency_penalty c) && num_reads_back (presence_penalty c) && match seed c with Some n => num_reads_back n | None => true end.
Proof.
  unfold config_ok. cbn [json_ok]. rewrite (bool_decide_eq_true_2 (obj_of_members (config_members c) = config_members c)).
  - unfold config_members. cbn [forallb fst snd json_ok andb].
    repeat match goal with |- context [forallb code_unit (js ?k)] => replace (forallb code_unit (js k)) with true by reflexivity end. cbn [andb]. rewrite !andb_assoc, !andb_true_r. by destruct (seed c).
  - apply obj_of_members_plain; [apply (bool_decide_unpack _); vm_compute; reflexivity | repeat constructor].
Qed.

Lemma config_ok_update u c : update_ok u = true -> config_ok c = true -> config_ok (apply_update u c) = true.
Proof.
  rewrite !config_ok_iff. destruct c, u; cbn [apply_update update_ok model group temperature top_p max_tokens frequency_penalty presence_penalty seed];
    rewrite !andb_true_iff; tauto.
Qed.

Lemma envelope_ok v : json_ok v = true -> json_ok (envelope v) = true.
Proof.
  intros Hv. unfold envelope. cbn [json_ok]. apply andb_true_intro. split.
  - apply bool_decide_eq_true_2, obj_of_members_plain; [apply (bool_decide_unpack _); vm_compute; reflexivity | repeat constructor].
  - cbn [forallb fst snd json_ok]. rewrite Hv. vm_compute. reflexivity.
Qed.

Section Reload.
Context (playgroundConfigSchema parameterEnabledSchema : json -> option json).

(** The schemas return a conforming object as it is. *)
Definition config_conforms : Prop := forall c, config_ok c = true -> playgroundConfigSchema (JObj (config_members c)) = Some (JObj (config_members c)).
Definition enabled_conforms : Prop := forall e, parameterEnabledSchema (JObj (enabled_members e)) = Some (JObj (enabled_members e)).

Lemma merge_config d c : mergeConfig d (config_members c) = c.
Proof. destruct c as [m g t p x f q [s|] r]; reflexivity. Qed.

Lemma merge_enabled d e : mergeEnabled d (enabled_members e) = e.
Proof. by destruct e. Qed.

(** What is saved under a key is loaded from it. *)
Lemma load_saved schema key value st :
  schema (JObj value) = Some (JObj value) -> json_ok (JObj value) = true -> loadValue schema key (saveValue schema key value st) = value.
Proof.
  intros Hs Hv. unfold loadValue, saveValue, writeStoredValue, readStoredValue. rewrite Hs, map_get_set_eq.
  assert (Hp : json_parse (json_stringify (envelope (JObj value))) = Some (envelope (JObj value))) by (by apply json_parse_stringify, envelope_ok).
  destruct (stringify_head [] [] _ (envelope_ok _ Hv)) as (c & r & E & _). unfold json_stringify in *. rewrite E in *. rewrite Hp. cbn [fmap option_fmap option_map].
  change (json_truthy (envelope (JObj value))) with true. change (unwrapStoredValue (envelope (JObj value))) with (JObj value). cbn [negb]. by rewrite Hs.
Qed.

Lemma load_other schema schema' key key' value st : key <> key' -> loadValue schema key (saveValue schema' key' value st) = loadValue schema key st.
Proof. intros H. unfold loadValue, saveValue, writeStoredValue, readStoredValue. destruct (schema' _); [|done]. by rewrite map_get_set_ne. Qed.

Lemma enabled_ok e : json_ok (JObj (enabled_members e)) = true.
Proof. destruct e as [[] [] [] [] [] []]; vm_compute; reflexivity. Qed.

Abbreviation storeConfig := (saveConfig playgroundConfigSchema).
Abbreviation storeEnabled := (saveParameterEnabled parameterEnabledSchema).
Abbreviation initialConfig := (getInitialPlaygroundConfig playgroundConfigSchema).
Abbreviation initialEnabled := (getInitialParameterEnabled parameterEnabledSchema).

Hypotheses (Hc : config_conforms) (He : enabled_conforms).

Lemma reload_config c st : config_ok c = true -> initialConfig (storeConfig c st) = c /\ initialEnabled (storeConfig c st) = initialEnabled st.
Proof.
  intros Hok. unfold getInitialPlaygroundConfig, loadConfig, saveConfig, getInitialParameterEnabled, loadParameterEnabled. split.
  - rewrite load_saved; [apply merge_config | by apply Hc | done].
  - by rewrite load_other.
Qed.

Lemma reload_enabled e st : initialEnabled (storeEnabled e st) = e /\ initialConfig (storeEnabled e st) = initialConfig st.
Proof.
  unfold getInitialPlaygroundConfig, loadConfig, saveParameterEnabled, getInitialParameterEnabled, loadParameterEnabled. split.
  - rewrite load_saved; [apply merge_enabled | apply He | apply enabled_ok].
  - by rewrite load_other.
Qed.

(** ** The steps of a page *)
Inductive page_step (p : Page) : Page -> Prop :=
| ps_config u : mounted p = true -> update_ok u = true -> page_step p (updateConfig playgroundConfigSchema u p)
| ps_enabled k v : mounted p = true -> page_step p (updateParameterEnabled parameterEnabledSchema k v p)
| ps_reset : mounted p = true -> page_step p (resetConfig playgroundConfigSchema parameterEnabledSchema p)
| ps_messages f : mounted p = true -> page_step p (updateMessages f p)
| ps_save : saveTimer p = true -> page_step p (fireSave p)
| ps_load t now n1 n2 n3 : loadTimer p = true -> page_step p (fireLoad t now n1 n2 n3 p)
| ps_unmount : mounted p = true -> page_step p (unmount p).

(** The stored conversation is the one on the page. *)
Definition conversation_saved (p : Page) : Prop :=
  match stored p with Some ms => ms = saveMessages (latestMessages p) | None => latestMessages p = [] end.

Record page_inv (p : Page) : Prop := {
  pi_ok : config_ok (config p) = true;
  pi_config : initialConfig (storage p) = config p;
  pi_enabled : initialEnabled (storage p) = parameterEnabled p;
  pi_latest : latestMessages p = messages p;
  pi_timer : saveTimer p = true -> mounted p = true /\ hasLoadedMessages p = true;
  pi_loading : hasLoadedMessages p = negb (isLoadingMessages p);
  pi_load : hasLoadedMessages p = true -> loadTimer p = false;
  pi_saved : hasLoadedMessages p = true -> conversation_saved p \/ saveTimer p = true }.

Lemma loadMessages_written t now parsed n1 n2 n3 : (loadMessages t now parsed n1 n2 n3).2 = Some (loadMessages t now parsed n1 n2 n3).1.
Proof. unfold loadMessages. cbv zeta. destruct (trimMessages _) as [trimmed same]. cbn [fst snd negb orb]. by rewrite !orb_true_r. Qed.

Lemma page_step_inv p q : page_inv p -> page_step p q -> page_inv q.
Proof.
  intros [H1 H2 H3 H4 H5 H6 H7 H8] Hs. destruct Hs as [u Hm Hu|k v Hm|Hm|f Hm|Ht|t now n1 n2 n3 Hl|Hm].
  - pose proof (config_ok_update u _ Hu H1) as Hok. destruct (reload_config _ (storage p) Hok) as [R1 R2]. by split; cbn; rewrite ?R2.
  - destruct (reload_enabled (apply_enabled k v (parameterEnabled p)) (storage p)) as [R1 R2]. by split; cbn; rewrite ?R2.
  - destruct (reload_config DEFAULT_CONFIG (storage p)) as [R1 R2]; [vm_compute; reflexivity|].
    destruct (reload_enabled DEFAULT_PARAMETER_ENABLED (storeConfig DEFAULT_CONFIG (storage p))) as [R3 R4].
    by split; cbn; rewrite ?R4.
  - split; cbn; try done.
    + intros Ht. split; [done|]. apply orb_true_iff in Ht as [?|?]; [done | by apply H5].
    + intros Hl. right. by rewrite Hl.
  - split; cbn; try done. intros _. by left.
  - unfold fireLoad. pose proof (loadMessages_written t now) as Hw. destruct (stored p) as [parsed|] eqn:Es.
    + specialize (Hw parsed n1 n2 n3). destruct (loadMessages t now parsed n1 n2 n3) as [s w]. cbn in Hw. subst w.
      assert (Hn : hasLoadedMessages p = false) by (destruct (hasLoadedMessages p) eqn:E; [specialize (H7 eq_refl); congruence | done]).
      destruct (mounted p) eqn:Em; split; cbn; rewrite ?Hn in *; try done; try (intros _; by left); try (intros Ht; by destruct (H5 Ht)).
    + assert (Hn : hasLoadedMessages p = false) by (destruct (hasLoadedMessages p) eqn:E; [specialize (H7 eq_refl); congruence | done]).
      destruct (mounted p) eqn:Em; split; cbn; rewrite ?Hn in *; try done; try (intros _; by left); try (intros Ht; by destruct (H5 Ht)).
  - split; cbn; try done. intros Hl. left. unfold conversation_saved in *. cbn. destruct (saveTimer p) eqn:Et; [done|].
    destruct (H8 Hl) as [?|?]; done.
Qed.

Lemma mount_inv st conv : config_ok (initialConfig st) = true -> page_inv (mount playgroundConfigSchema parameterEnabledSchema st conv).
Proof. intros H. by split. Qed.

Lemma page_reachable st conv p :
  config_ok (initialConfig st) = true -> rtc page_step (mount playgroundConfigSchema parameterEnabledSchema st conv) p -> page_inv p.
Proof. intros H0 Hr. apply mount_inv with (conv := conv) in H0. induction Hr; [done|]. eauto using page_step_inv. Qed.
End Reload.

(** C12.  Nothing on the page is lost.  In every state reachable from opening the
    playground, a page opened on the same storage would start with the very
    settings and switches now on screen; once the conversation has been loaded,
    it is stored as shown, up to the limit on messages, or its save timer is
    running; and when the page has been left it is stored in any case.  The schemas
    are assumed to return conforming settings as they are. *)
Theorem page_persists configSchema enabledSchema st conv p :
  config_conforms configSchema -> enabled_conforms enabledSchema -> config_ok (getInitialPlaygroundConfig configSchema st) = true ->
  rtc (page_step configSchema enabledSchema) (mount configSchema enabledSchema st conv) p ->
  getInitialPlaygroundConfig configSchema (storage p) = config p /\ getInitialParameterEnabled enabledSchema (storage p) = parameterEnabled p /\
  (isLoadingMessages p = false ->
     let saved := match stored p with Some ms => ms = saveMessages (messages p) | None => messages p = [] end in
     (saveTimer p = true \/ saved) /\ (mounted p = false -> saved)).
Proof.
  intros Hc He H0 Hr. destruct (page_reachable _ _ Hc He _ _ _ H0 Hr) as [_ P1 P2 P3 P4 P5 _ P7]. split; [done|]. split; [done|].
  intros Hl. rewrite Hl in P5. specialize (P7 P5). unfold conversation_saved in P7. rewrite P3 in P7. cbv zeta. split; [tauto|].
  intros Hm. destruct P7 as [?|Ht]; [done|]. destruct (P4 Ht). congruence.
Qed.

Definition hello : Message := mkMessage (js "m1") user [mkVersion (js "v1") (js "hello")] None None None None None None None None None None None.
Definition left_page : Page :=
  unmount (updateMessages (fun ms => ms ++ [hello]) (fireLoad (fun s => s) (fun _ _ => 0) 0 0 0
    (updateConfig Some (set_temperature (num_of_string (js "0.3"))) (mount Some Some [] None)))).

Lemma page_persists_witness :
  temperature (config left_page) = num_of_string (js "0.3") /\ stored left_page = Some [hello] /\
  getInitialPlaygroundConfig Some (storage left_page) = config left_page /\ getInitialParameterEnabled Some (storage left_page) = parameterEnabled left_page.
Proof.
  split; [vm_compute; reflexivity|]. split; [vm_compute; reflexivity|].
  destruct (page_persists Some Some [] None left_page) as (H1 & H2 & _); [by intros c _ | by intros c | vm_compute; reflexivity | | exact (conj H1 H2)].
  unfold left_page.
  eapply rtc_l; [apply (ps_config _ _ _ (set_temperature (num_of_string (js "0.3")))); vm_compute; reflexivity|].
  eapply rtc_l; [apply (ps_load _ _ _ (fun s => s) (fun _ _ => 0) 0 0 0); reflexivity|].
  eapply rtc_l; [apply (ps_messages _ _ _ (fun ms => ms ++ [hello])); reflexivity|].
  eapply rtc_l; [apply ps_unmount; reflexivity|]. apply rtc_refl.
Defined.
End PlaygroundPage.
