(* ===== verification/ParamOverride.v ===== *)
(** * Parameter override rules of a channel

    Models the data and the pure functions of
    [src/web/default/src/features/channels/components/dialogs/param-override-editor-dialog.tsx]:
    the operations a channel applies to a request, how they are read from the
    stored JSON text, checked and written back.  A fresh identifier is drawn
    from a counter ([nextLocalId]), so the readers are programs in the monad
    [gen], which threads the counter and may throw.  The editor's state and its
    handlers are in [ParamOverrideEditor]. *)
From S2P Require Import Prelude JsString JsNumber Json JsonText JsObject.
Local Open Scope Z_scope.

#[local] Arguments js : simpl never.

(** ** Types *)
Record ParamOverrideCondition := mkCondition {
  c_id : jsstr; c_path : jsstr; c_mode : jsstr; c_value_text : jsstr; c_invert : bool; c_pass_missing_key : bool
}.

Record ParamOverrideOperation := mkOperation {
  o_id : jsstr; o_description : jsstr; o_path : jsstr; o_mode : jsstr; o_from : jsstr; o_to : jsstr;
  o_value_text : jsstr; o_keep_origin : bool; o_logic : jsstr; o_conditions : list ParamOverrideCondition
}.

(** ** Constants: the modes, with their labels *)
Definition OPERATION_MODE_OPTIONS : list (jsstr * jsstr) :=
  [(js "Set Field", js "set"); (js "Delete Field", js "delete"); (js "Append to End", js "append");
   (js "Prepend to Start", js "prepend"); (js "Copy Field", js "copy"); (js "Move Field", js "move");
   (js "String Replace", js "replace"); (js "Regex Replace", js "regex_replace");
   (js "Trim Prefix", js "trim_prefix"); (js "Trim Suffix", js "trim_suffix");
   (js "Ensure Prefix", js "ensure_prefix"); (js "Ensure Suffix", js "ensure_suffix");
   (js "Trim Space", js "trim_space"); (js "To Lowercase", js "to_lower"); (js "To Uppercase", js "to_upper");
   (js "Return Custom Error", js "return_error"); (js "Prune Object Items", js "prune_objects");
   (js "Pass Through Headers", js "pass_headers"); (js "Sync Fields", js "sync_fields");
   (js "Set Request Header", js "set_header"); (js "Delete Request Header", js "delete_header");
   (js "Copy Request Header", js "copy_header"); (js "Move Request Header", js "move_header")].

Definition OPERATION_MODE_VALUES : list jsstr := set_of_list (map snd OPERATION_MODE_OPTIONS).

Definition OPERATION_MODE_LABEL_MAP : list (jsstr * jsstr) :=
  fold_left (fun acc item => map_set item.2 item.1 acc) OPERATION_MODE_OPTIONS [].

Definition CONDITION_MODE_OPTIONS : list (jsstr * jsstr) :=
  [(js "Exact Match", js "full"); (js "Prefix", js "prefix"); (js "Suffix", js "suffix"); (js "Contains", js "contains");
   (js "Greater Than", js "gt"); (js "Greater Than or Equal", js "gte"); (js "Less Than", js "lt");
   (js "Less Than or Equal", js "lte")].

Definition CONDITION_MODE_VALUES : list jsstr := set_of_list (map snd CONDITION_MODE_OPTIONS).

(** Which fields an operation of a mode uses. *)
Record ModeMeta := mkMeta {
  m_path : bool; m_pathOptional : bool; m_value : bool; m_from : bool; m_to : option bool; m_keepOrigin : bool; m_pathAlias : bool
}.

Definition meta_path : ModeMeta := mkMeta true false false false None false false.
Definition meta_value_keep : ModeMeta := mkMeta true false true false None true false.
Definition meta_value : ModeMeta := mkMeta true false true false None false false.
Definition meta_from_to : ModeMeta := mkMeta false false false true (Some true) false false.
Definition meta_replace : ModeMeta := mkMeta true false false true (Some false) false false.
Definition meta_alias : ModeMeta := mkMeta false false false true (Some true) true true.
Definition meta_none : ModeMeta := mkMeta false false false false None false false.

Definition MODE_META : list (jsstr * ModeMeta) :=
  [(js "delete", meta_path); (js "set", meta_value_keep); (js "append", meta_value_keep); (js "prepend", meta_value_keep);
   (js "copy", meta_from_to); (js "move", meta_from_to); (js "replace", meta_replace); (js "regex_replace", meta_replace);
   (js "trim_prefix", meta_value); (js "trim_suffix", meta_value); (js "ensure_prefix", meta_value);
   (js "ensure_suffix", meta_value); (js "trim_space", meta_path); (js "to_lower", meta_path); (js "to_upper", meta_path);
   (js "return_error", mkMeta false false true false None false false);
   (js "prune_objects", mkMeta false true true false None false false);
   (js "pass_headers", mkMeta false false true false None true false);
   (js "sync_fields", meta_from_to); (js "set_header", meta_value_keep); (js "delete_header", meta_path);
   (js "copy_header", meta_alias); (js "move_header", meta_alias)].

(** The names a plain object inherits: reading one of them off a record yields
    something truthy without the fields of a meta. *)
Definition inherited : list jsstr :=
  [js "constructor"; js "toString"; js "valueOf"; js "toLocaleString"; js "hasOwnProperty"; js "isPrototypeOf";
   js "propertyIsEnumerable"; js "__proto__"; js "__defineGetter__"; js "__defineSetter__"; js "__lookupGetter__";
   js "__lookupSetter__"].

(** [MODE_META[mode] || MODE_META.set] *)
Definition metaOf (mode : jsstr) : ModeMeta :=
  match map_get mode MODE_META with
  | Some m => m
  | None => if bool_decide (mode ∈ inherited) then meta_none else meta_value_keep
  end.

Definition VALUE_REQUIRED_MODES : list jsstr :=
  [js "trim_prefix"; js "trim_suffix"; js "ensure_prefix"; js "ensure_suffix"; js "set_header"; js "return_error";
   js "prune_objects"; js "pass_headers"].

Definition FROM_REQUIRED_MODES : list jsstr :=
  [js "copy"; js "move"; js "replace"; js "regex_replace"; js "copy_header"; js "move_header"; js "sync_fields"].

Definition TO_REQUIRED_MODES : list jsstr :=
  [js "copy"; js "move"; js "copy_header"; js "move_header"; js "sync_fields"].

(** ** Fresh identifiers *)

(** A program that draws identifiers and may throw: from the counter to its
    result ([None] when it throws) and the counter it leaves. *)
Definition gen (A : Type) : Type := Z -> option A * Z.

Definition gret {A} (a : A) : gen A := fun seed => (Some a, seed).
Definition gthrow {A} : gen A := fun seed => (None, seed).
Definition gbind {A B} (m : gen A) (k : A -> gen B) : gen B :=
  fun seed => match m seed with (Some a, seed') => k a seed' | (None, seed') => (None, seed') end.

Declare Scope gen_scope.
Delimit Scope gen_scope with gen.
Notation "'let*' x := m 'in' k" := (gbind m (fun x => k)) (at level 10, x name, m at level 100, k at level 200) : gen_scope.
Local Open Scope gen_scope.

Fixpoint gmapM {A B} (f : A -> gen B) (l : list A) : gen (list B) :=
  match l with
  | [] => gret []
  | x :: r => let* y := f x in let* ys := gmapM f r in gret (y :: ys)
  end.

Section Overrides.
(** [Date.now()] at the call that takes a given value of the counter. *)
Context (now : Z -> Z).

Definition local_id (seed : Z) : jsstr := js "po_" ++ string_of_Z (now seed) ++ js "_" ++ string_of_Z seed.

Definition nextLocalId : gen jsstr := fun seed => (Some (local_id seed), seed + 1).

(** ** Values and their texts *)

(** [v.k] of a value that is not [null]. *)
Definition prop (k : jsstr) (v : json) : option json := match v with JObj ps => map_get k ps | _ => None end.

Definition toValueText (value : option json) : jsstr :=
  match value with
  | None => []
  | Some (JStr s) => s
  | Some v => json_stringify v
  end.

Definition parseLooseValue (valueText : jsstr) : json :=
  match trim valueText with
  | [] => JStr []
  | raw => match json_parse raw with Some v => v | None => JStr raw end
  end.

Definition verifyJSON (text : jsstr) : bool := if json_parse text is Some _ then true else false.

(** [typeof v === 'string' ? v : ''] *)
Definition string_or_empty (v : option json) : jsstr := match v with Some (JStr s) => s | _ => [] end.

(** [set.has(v) ? v : fallback] *)
Definition mode_or (modes : list jsstr) (fallback : jsstr) (v : option json) : jsstr :=
  match v with Some (JStr s) => if set_has s modes then s else fallback | _ => fallback end.

Definition is_true (v : option json) : bool := match v with Some (JBool true) => true | _ => false end.
Definition is_false (v : option json) : bool := match v with Some (JBool false) => true | _ => false end.
Definition truthy_opt (v : option json) : bool := match v with Some w => json_truthy w | None => false end.

(** [String(v || fallback)] *)
Definition string_or (fallback : jsstr) (v : option json) : jsstr :=
  match v with Some w => if json_truthy w then json_to_string w else fallback | None => fallback end.

Definition normalizeCondition (condition : json) : gen ParamOverrideCondition :=
  let* id := nextLocalId in
  match condition with
  | JNull => gthrow
  | _ =>
      gret (mkCondition id (string_or_empty (prop (js "path") condition))
              (mode_or CONDITION_MODE_VALUES (js "full") (prop (js "mode") condition))
              (toValueText (prop (js "value") condition))
              (is_true (prop (js "invert") condition))
              (is_true (prop (js "pass_missing_key") condition)))
  end.

Definition createDefaultCondition : gen ParamOverrideCondition := normalizeCondition (JObj []).

Definition normalize_logic (v : option json) : jsstr :=
  if bool_decide (ascii_upper (string_or (js "OR") v) = js "AND") then js "AND" else js "OR".

Definition normalizeOperation (operation : json) : gen ParamOverrideOperation :=
  let* id := nextLocalId in
  match operation with
  | JNull => gthrow
  | _ =>
      let* conditions := match prop (js "conditions") operation with
                         | Some (JArr l) => gmapM normalizeCondition l
                         | _ => gret []
                         end in
      gret (mkOperation id (string_or_empty (prop (js "description") operation))
              (string_or_empty (prop (js "path") operation))
              (mode_or OPERATION_MODE_VALUES (js "set") (prop (js "mode") operation))
              (string_or_empty (prop (js "from") operation)) (string_or_empty (prop (js "to") operation))
              (toValueText (prop (js "value") operation)) (is_true (prop (js "keep_origin") operation))
              (normalize_logic (prop (js "logic") operation)) conditions)
  end.

Definition createDefaultOperation : gen ParamOverrideOperation := normalizeOperation (JObj [(js "mode", JStr (js "set"))]).

(** ** Lists of operations *)
Fixpoint find_index {A} (f : A -> bool) (l : list A) : option nat :=
  match l with
  | [] => None
  | x :: r => if f x then Some O else S <$> find_index f r
  end.

Inductive Position := Before | After.

#[global] Instance Position_eq_dec : EqDecision Position.
Proof. solve_decision. Defined.

Definition has_id (id : jsstr) (o : ParamOverrideOperation) : bool := bool_decide (o_id o = id).

(** [next.splice(i, 0, x)] *)
Definition splice_in {A} (i : nat) (x : A) (l : list A) : list A := take i l ++ x :: drop i l.

Definition reorderOperations (ops : list ParamOverrideOperation) (sourceId targetId : jsstr) (position : Position)
  : list ParamOverrideOperation :=
  if bool_decide (sourceId = []) || bool_decide (targetId = []) || bool_decide (sourceId = targetId) then ops
  else
    match find_index (has_id sourceId) ops with
    | None => ops
    | Some srcIdx =>
        match ops !! srcIdx with
        | None => ops
        | Some moved =>
            let next := take srcIdx ops ++ drop (S srcIdx) ops in
            match find_index (has_id targetId) next with
            | None => ops
            | Some insertIdx => splice_in (if decide (position = After) then S insertIdx else insertIdx) moved next
            end
        end
    end.

Definition blank (s : jsstr) : bool := bool_decide (trim s = []).

Definition condition_set (c : ParamOverrideCondition) : bool :=
  negb (blank (c_path c)) || negb (blank (c_value_text c)) || negb (bool_decide (c_mode c = js "full")) ||
  c_invert c || c_pass_missing_key c.

Definition isOperationBlank (operation : ParamOverrideOperation) : bool :=
  let hasCondition := existsb condition_set (o_conditions operation) in
  bool_decide (o_mode operation = js "set") && blank (o_path operation) && blank (o_from operation) &&
  blank (o_to operation) && blank (o_value_text operation) && negb (o_keep_origin operation) && negb hasCondition.

(** [a || b] of strings *)
Definition str_or (a b : jsstr) : jsstr := match a with [] => b | _ => a end.

Definition middle_dot : Z := 183.

Definition getOperationSummary (operation : ParamOverrideOperation) (index : Z) : jsstr :=
  let mode := str_or (o_mode operation) (js "set") in
  let modeLabel := str_or (default [] (map_get mode OPERATION_MODE_LABEL_MAP)) mode in
  let path := trim (o_path operation) in
  let from := trim (o_from operation) in
  let to := trim (o_to operation) in
  let target := if bool_decide (mode = js "sync_fields") then str_or from (str_or to (js "-"))
                else str_or path (str_or from (str_or to (js "-"))) in
  string_of_Z (index + 1) ++ js ". " ++ modeLabel ++ js " " ++ [middle_dot] ++ js " " ++ target.

Definition is_mode (mode : jsstr) (names : list jsstr) : bool := bool_decide (mode ∈ names).

Definition getModePathLabel (mode : jsstr) : jsstr :=
  if is_mode mode [js "set_header"; js "delete_header"] then js "Header Name"
  else if is_mode mode [js "prune_objects"] then js "Target Path (optional)" else js "Target Field Path".

Definition getModePathPlaceholder (mode : jsstr) : jsstr :=
  if is_mode mode [js "set_header"] then js "Authorization"
  else if is_mode mode [js "delete_header"] then js "X-Debug-Mode"
  else if is_mode mode [js "prune_objects"] then js "messages" else js "temperature".

Definition getModeFromLabel (mode : jsstr) : jsstr :=
  if is_mode mode [js "replace"] then js "Match Text"
  else if is_mode mode [js "regex_replace"] then js "Regex Pattern"
  else if is_mode mode [js "copy_header"; js "move_header"] then js "Source Header" else js "Source Field".

Definition getModeFromPlaceholder (mode : jsstr) : jsstr :=
  if is_mode mode [js "replace"] then js "openai/"
  else if is_mode mode [js "regex_replace"] then js "^gpt-"
  else if is_mode mode [js "copy_header"; js "move_header"] then js "Authorization" else js "model".

Definition getModeToLabel (mode : jsstr) : jsstr :=
  if is_mode mode [js "replace"; js "regex_replace"] then js "Replace With"
  else if is_mode mode [js "copy_header"; js "move_header"] then js "Target Header" else js "Target Field".

Definition getModeToPlaceholder (mode : jsstr) : jsstr :=
  if is_mode mode [js "replace"] then js "(leave empty to delete)"
  else if is_mode mode [js "regex_replace"] then js "openai/gpt-"
  else if is_mode mode [js "copy_header"; js "move_header"] then js "X-Upstream-Auth" else js "original_model".

Definition affix_modes : list jsstr := [js "trim_prefix"; js "trim_suffix"; js "ensure_prefix"; js "ensure_suffix"].

Definition getModeValueLabel (mode : jsstr) : jsstr :=
  if is_mode mode [js "set_header"] then js "Header Value (supports string or JSON mapping)"
  else if is_mode mode [js "pass_headers"] then js "Pass-through Headers (comma-separated or JSON array)"
  else if is_mode mode affix_modes then js "Prefix/Suffix Text"
  else if is_mode mode [js "prune_objects"] then js "Prune Rule (string or JSON object)"
  else js "Value (supports JSON or plain text)".

Definition getModeValuePlaceholder (mode : jsstr) : jsstr :=
  if is_mode mode [js "set_header"] then js "Bearer sk-xxx"
  else if is_mode mode [js "pass_headers"] then js "Authorization, X-Request-Id"
  else if is_mode mode affix_modes then js "openai/"
  else if is_mode mode [js "prune_objects"] then
    [123] ++ json_quote (js "type") ++ js ":" ++ json_quote (js "redacted_thinking") ++ [125]
  else js "0.7".

Definition tag_class (hue : jsstr) : jsstr :=
  js "bg-" ++ hue ++ js "-500/15 text-" ++ hue ++ js "-700 dark:text-" ++ hue ++ js "-300 border-" ++ hue ++ js "-500/20".

Definition getModeTagTailwind (mode : jsstr) : jsstr :=
  if includes (js "header") mode then tag_class (js "cyan")
  else if includes (js "replace") mode || includes (js "trim") mode then tag_class (js "violet")
  else if includes (js "copy") mode || includes (js "move") mode then tag_class (js "blue")
  else if includes (js "error") mode || includes (js "prune") mode then tag_class (js "red")
  else if includes (js "sync") mode then tag_class (js "green") else js "bg-muted text-muted-foreground".

(** ** Synchronised fields *)
Definition colon : Z := 58.

(** The type of the target and its key. *)
Definition parseSyncTargetSpec (spec : jsstr) : jsstr * jsstr :=
  match trim spec with
  | [] => (js "json", [])
  | raw =>
      match index_of [colon] raw with
      | None => (js "json", raw)
      | Some idx =>
          let prefix := ascii_lower (trim (take idx raw)) in
          let key := trim (drop (S idx) raw) in
          if bool_decide (prefix = js "header") then (js "header", key) else (js "json", key)
      end
  end.

Definition buildSyncTargetSpec (type key : jsstr) : jsstr :=
  let normalizedType := if bool_decide (type = js "header") then js "header" else js "json" in
  match trim key with
  | [] => []
  | normalizedKey => normalizedType ++ [colon] ++ normalizedKey
  end.

(** ** Custom errors *)
Record ReturnErrorDraft := mkReturnError {
  re_message : jsstr; re_statusCode : num; re_code : jsstr; re_type : jsstr; re_skipRetry : bool; re_simpleMode : bool
}.

(** A status code the editor accepts, or 400. *)
Definition status_or_400 (n : num) : num :=
  if num_is_integer n && num_leb (num_of_Z 100) n && num_leb n (num_of_Z 599) then n else num_of_Z 400.

Definition returnErrorDefaults : ReturnErrorDraft := mkReturnError [] (num_of_Z 400) [] [] true true.

Definition parseReturnErrorDraft (valueText : jsstr) : ReturnErrorDraft :=
  match trim valueText with
  | [] => returnErrorDefaults
  | raw =>
      match json_parse raw with
      | Some (JObj ps) =>
          let parsed := JObj ps in
          let statusRaw := match prop (js "status_code") parsed with Some v => Some v | None => prop (js "status") parsed end in
          let message := if truthy_opt (prop (js "message") parsed) then string_or [] (prop (js "message") parsed)
                         else string_or [] (prop (js "msg") parsed) in
          mkReturnError (trim message) (status_or_400 (json_to_number statusRaw))
            (trim (string_or [] (prop (js "code") parsed))) (trim (string_or [] (prop (js "type") parsed)))
            (negb (is_false (prop (js "skip_retry") parsed))) false
      | _ => mkReturnError raw (num_of_Z 400) [] [] true true
      end
  end.

(** [if (c) payload[k] = v] *)
Definition set_if (c : bool) (k : jsstr) (v : json) (payload : list (jsstr * json)) : list (jsstr * json) :=
  if c then map_set k v payload else payload.

Definition nonempty (s : jsstr) : bool := negb (bool_decide (s = [])).

Definition buildReturnErrorValueText (draft : ReturnErrorDraft) : jsstr :=
  let message := trim (re_message draft) in
  if re_simpleMode draft then message
  else
    let code := trim (re_code draft) in
    let type := trim (re_type draft) in
    let payload := [(js "message", JStr message); (js "status_code", JNum (status_or_400 (re_statusCode draft)))] in
    let payload := set_if (nonempty code) (js "code") (JStr code) payload in
    let payload := set_if (nonempty type) (js "type") (JStr type) payload in
    let payload := set_if (negb (re_skipRetry draft)) (js "skip_retry") (JBool false) payload in
    json_stringify (JObj payload).

(** ** Pruned objects *)
Record PruneObjectsDraft := mkPrune {
  pr_simpleMode : bool; pr_typeText : jsstr; pr_logic : jsstr; pr_recursive : bool; pr_rules : list ParamOverrideCondition
}.

(** A prune rule has the fields of a condition and is normalised like one. *)
Definition normalizePruneRule (rule : json) : gen ParamOverrideCondition :=
  let* id := nextLocalId in
  match rule with
  | JNull => gthrow
  | _ =>
      gret (mkCondition id (string_or_empty (prop (js "path") rule))
              (mode_or CONDITION_MODE_VALUES (js "full") (prop (js "mode") rule))
              (toValueText (prop (js "value") rule)) (is_true (prop (js "invert") rule))
              (is_true (prop (js "pass_missing_key") rule)))
  end.

(** The rules of an object that maps paths to values. *)
Definition entry_rules (ps : list (jsstr * json)) : gen (list ParamOverrideCondition) :=
  gmapM (fun p => normalizePruneRule (JObj [(js "path", JStr p.1); (js "mode", JStr (js "full")); (js "value", p.2)])) ps.

(** [item && typeof item === 'object'] *)
Definition is_object (v : json) : bool := match v with JObj _ | JArr _ => true | _ => false end.

Definition pruneDefaults : PruneObjectsDraft := mkPrune true [] (js "AND") true [].

Definition with_typeText (s : jsstr) : PruneObjectsDraft := mkPrune true s (js "AND") true [].

Definition parsePruneObjectsDraft (valueText : jsstr) : gen PruneObjectsDraft :=
  match trim valueText with
  | [] => gret pruneDefaults
  | raw =>
      match json_parse raw with
      | None => gret (with_typeText raw)
      | Some (JStr s) => gret (with_typeText (trim s))
      | Some (JObj ps) =>
          let parsed := JObj ps in
          let where_ := prop (js "where") parsed in
          let conditions := prop (js "conditions") parsed in
          let* r1 := match where_ with Some (JObj ws) => entry_rules ws | _ => gret [] end in
          let* r2 := match conditions with
                     | Some (JArr l) => gmapM normalizePruneRule (base.filter (fun v => is_object v = true) l)
                     | Some (JObj cs) => entry_rules cs
                     | _ => gret []
                     end in
          let typeText := match prop (js "type") parsed with None => [] | Some v => trim (json_to_string v) end in
          let logic := if bool_decide (ascii_upper (string_or (js "AND") (prop (js "logic") parsed)) = js "OR")
                       then js "OR" else js "AND" in
          let recursive := negb (is_false (prop (js "recursive") parsed)) in
          let hasAdvancedFields := bool_decide (is_Some (prop (js "logic") parsed)) ||
            bool_decide (is_Some (prop (js "recursive") parsed)) || bool_decide (is_Some where_) ||
            bool_decide (is_Some conditions) in
          gret (mkPrune (negb hasAdvancedFields) typeText logic recursive (r1 ++ r2))
      | Some JNull => gret (with_typeText [])
      | Some v => gret (with_typeText (trim (json_to_string v)))
      end
  end.

(** The payload of a condition of a prune rule. *)
Definition prune_condition (rule : ParamOverrideCondition) : json :=
  let payload := [(js "path", JStr (trim (c_path rule)));
                  (js "mode", JStr (if set_has (c_mode rule) CONDITION_MODE_VALUES then c_mode rule else js "full"))] in
  let valueRaw := trim (c_value_text rule) in
  let payload := set_if (nonempty valueRaw) (js "value") (parseLooseValue valueRaw) payload in
  let payload := set_if (c_invert rule) (js "invert") (JBool true) payload in
  JObj (set_if (c_pass_missing_key rule) (js "pass_missing_key") (JBool true) payload).

Definition buildPruneObjectsValueText (draft : PruneObjectsDraft) : jsstr :=
  let typeText := trim (pr_typeText draft) in
  if pr_simpleMode draft then typeText
  else
    let payload := set_if (nonempty typeText) (js "type") (JStr typeText) [] in
    let payload := set_if (bool_decide (ascii_upper (str_or (pr_logic draft) (js "AND")) = js "OR")) (js "logic") (JStr (js "OR")) payload in
    let payload := set_if (negb (pr_recursive draft)) (js "recursive") (JBool false) payload in
    let conditions := map prune_condition (base.filter (fun r => blank (c_path r) = false) (pr_rules draft)) in
    let payload := set_if (negb (bool_decide (conditions = []))) (js "conditions") (JArr conditions) payload in
    if negb (map_has (js "type") payload) && negb (map_has (js "conditions") payload)
    then json_stringify (JObj [(js "logic", JStr (js "AND"))])
    else json_stringify (JObj payload).

(** ** Passed headers *)

(** [String(i ?? '').trim()], blanks dropped *)
Definition header_names (l : list json) : list jsstr :=
  base.filter (fun s => s <> []) (map (fun i => trim (match i with JNull => [] | _ => json_to_string i end)) l).

Definition parsePassHeaderNames (rawValue : json) : list jsstr :=
  match rawValue with
  | JArr l => header_names l
  | JObj ps =>
      match map_get (js "headers") ps with
      | Some (JArr l) => header_names l
      | _ => match map_get (js "header") ps with Some v => header_names [v] | None => [] end
      end
  | JStr s => base.filter (fun s => s <> []) (map trim (split_on comma s))
  | _ => []
  end.

(** ** Writing the operations *)
Definition buildConditionPayload (condition : ParamOverrideCondition) : option json :=
  match trim (c_path condition) with
  | [] => None
  | path =>
      let payload := [(js "path", JStr path); (js "mode", JStr (str_or (c_mode condition) (js "full")));
                      (js "value", parseLooseValue (c_value_text condition))] in
      let payload := set_if (c_invert condition) (js "invert") (JBool true) payload in
      Some (JObj (set_if (c_pass_missing_key condition) (js "pass_missing_key") (JBool true) payload))
  end.

(** The checks of the modes whose value has a form of its own. *)
Definition validate_value (mode raw : jsstr) : option jsstr :=
  if is_mode mode [js "return_error"] then
    if negb (nonempty raw) then Some (js "Rule {{line}} is missing value")
    else match json_parse raw with
         | Some (JObj ps) =>
             if negb (nonempty (trim (string_or [] (map_get (js "message") ps))))
             then Some (js "Rule {{line}} return_error requires a message field") else None
         | _ => None
         end
  else if is_mode mode [js "prune_objects"] then
    if negb (nonempty raw) then Some (js "Rule {{line}} prune_objects is missing conditions") else None
  else if is_mode mode [js "pass_headers"] then
    if negb (nonempty raw) then Some (js "Rule {{line}} pass_headers is missing header names")
    else if bool_decide (parsePassHeaderNames (parseLooseValue raw) = [])
    then Some (js "Rule {{line}} pass_headers format is invalid") else None
  else None.

(** The message of the first check that one operation fails, if any. *)
Definition validateOperation (op : ParamOverrideOperation) : option jsstr :=
  let mode := str_or (o_mode op) (js "set") in
  let meta := metaOf mode in
  let pathValue := trim (o_path op) in
  let fromValue := trim (o_from op) in
  let toValue := trim (o_to op) in
  let raw := trim (o_value_text op) in
  if m_path meta && negb (nonempty pathValue) then Some (js "Rule {{line}} is missing target path")
  else if is_mode mode FROM_REQUIRED_MODES && negb (nonempty fromValue) && negb (m_pathAlias meta && nonempty pathValue)
  then Some (js "Rule {{line}} is missing source field")
  else if is_mode mode TO_REQUIRED_MODES && negb (nonempty toValue) && negb (m_pathAlias meta && nonempty pathValue)
  then Some (js "Rule {{line}} is missing target field")
  else if is_mode mode VALUE_REQUIRED_MODES && negb (nonempty raw) then Some (js "Rule {{line}} is missing value")
  else validate_value mode raw.

(** The translation of a message about a rule, and of a message without one. *)
Context (t_line : jsstr -> Z -> jsstr) (t : jsstr -> jsstr).

Fixpoint validate_from (line : Z) (operations : list ParamOverrideOperation) : jsstr :=
  match operations with
  | [] => []
  | op :: rest =>
      match validateOperation op with
      | Some key => t_line key line
      | None => validate_from (line + 1) rest
      end
  end.

Definition validateOperations (operations : list ParamOverrideOperation) : jsstr := validate_from 1 operations.

(** [!payload[k]] *)
Definition unset (k : jsstr) (p : list (jsstr * json)) : bool :=
  match map_get k p with Some v => negb (json_truthy v) | None => true end.

(** The fields of the payload of one operation, assignment by assignment. *)
Definition payload_base (operation : ParamOverrideOperation) : list (jsstr * json) :=
  let mode := str_or (o_mode operation) (js "set") in
  let meta := metaOf mode in
  let descriptionValue := trim (o_description operation) in
  let pathValue := trim (o_path operation) in
  let fromValue := trim (o_from operation) in
  let toValue := trim (o_to operation) in
  let meta_to := bool_decide (m_to meta = Some true) in
  let p := [(js "mode", JStr mode)] in
  let p := set_if (nonempty descriptionValue) (js "description") (JStr descriptionValue) p in
  let p := set_if (m_path meta) (js "path") (JStr pathValue) p in
  let p := set_if (m_pathOptional meta && nonempty pathValue) (js "path") (JStr pathValue) p in
  let p := set_if (m_value meta) (js "value") (parseLooseValue (o_value_text operation)) p in
  let p := set_if (m_keepOrigin meta && o_keep_origin operation) (js "keep_origin") (JBool true) p in
  let p := set_if (m_from meta) (js "from") (JStr fromValue) p in
  let p := set_if (negb meta_to && nonempty toValue) (js "to") (JStr toValue) p in
  set_if meta_to (js "to") (JStr toValue) p.

(** A missing source or target is the path, in the modes where the path is an alias. *)
Definition payload_fields (operation : ParamOverrideOperation) : list (jsstr * json) :=
  let meta := metaOf (str_or (o_mode operation) (js "set")) in
  let pathValue := trim (o_path operation) in
  let p := payload_base operation in
  let p := set_if (m_pathAlias meta && unset (js "from") p && nonempty pathValue) (js "from") (JStr pathValue) p in
  set_if (m_pathAlias meta && unset (js "to") p && nonempty pathValue) (js "to") (JStr pathValue) p.

Definition operation_payload (operation : ParamOverrideOperation) : list (jsstr * json) :=
  let p := payload_fields operation in
  let conditions := omap buildConditionPayload (o_conditions operation) in
  if bool_decide (conditions = []) then p
  else map_set (js "logic") (JStr (if bool_decide (o_logic operation = js "AND") then js "AND" else js "OR"))
         (map_set (js "conditions") (JArr conditions) p).

Definition operations_value (ops : list ParamOverrideOperation) : json :=
  JObj [(js "operations", JArr (map (fun o => JObj (operation_payload o)) ops))].

Definition nonblank_ops (ops : list ParamOverrideOperation) : list ParamOverrideOperation :=
  base.filter (fun o => isOperationBlank o = false) ops.

(** The text, or the message of the error it throws. *)
Definition buildOperationsJson (sourceOperations : list ParamOverrideOperation) (validate : bool) : jsstr + jsstr :=
  match nonblank_ops sourceOperations with
  | [] => inr []
  | filteredOps =>
      match (if validate then validateOperations filteredOps else []) with
      | [] => inr (json_pretty (operations_value filteredOps))
      | message => inl message
      end
  end.

(** ** Reading the stored text *)
Inductive EditMode := Visual | JsonMode.
Inductive VisualMode := Operations | Legacy.

#[global] Instance EditMode_eq_dec : EqDecision EditMode.
Proof. solve_decision. Defined.
#[global] Instance VisualMode_eq_dec : EqDecision VisualMode.
Proof. solve_decision. Defined.

Record EditorState := mkEditorState {
  s_editMode : EditMode; s_visualMode : VisualMode; s_legacyValue : jsstr;
  s_operations : list ParamOverrideOperation; s_jsonText : jsstr; s_jsonError : jsstr
}.

(** The operations of a stored array, or one default operation. *)
Definition load_operations (l : list json) : gen (list ParamOverrideOperation) :=
  match l with
  | [] => let* o := createDefaultOperation in gret [o]
  | _ => gmapM normalizeOperation l
  end.

Definition parseInitialState (rawValue : jsstr) : gen EditorState :=
  let trimmed := trim rawValue in
  match trimmed with
  | [] => let* o := createDefaultOperation in gret (mkEditorState Visual Operations [] [o] [] [])
  | _ =>
      match json_parse trimmed with
      | None =>
          let* o := createDefaultOperation in
          gret (mkEditorState JsonMode Operations [] [o] rawValue (js "Invalid JSON format"))
      | Some parsed =>
          let pretty := json_pretty parsed in
          match parsed with
          | JObj ps =>
              match map_get (js "operations") ps with
              | Some (JArr l) =>
                  let* ops := load_operations l in
                  gret (mkEditorState Visual Operations [] ops pretty [])
              | _ =>
                  let* o := createDefaultOperation in
                  gret (mkEditorState Visual Legacy pretty [o] pretty [])
              end
          | _ =>
              let* o := createDefaultOperation in
              gret (mkEditorState JsonMode Operations [] [o] pretty [])
          end
      end
  end.
End Overrides.

(** ** Evaluating with literal keys *)

Lemma map_get_set_if k c k' v m :
  map_get k (set_if c k' v m) = if c then (if bool_decide (k = k') then Some v else map_get k m) else map_get k m.
Proof. unfold set_if. destruct c; [|done]. rewrite map_get_set. by repeat case_decide; repeat case_bool_decide. Qed.

(** Reads a field off a payload built by assignments. *)
Ltac payload_get :=
  repeat (rewrite ?map_get_set_if, ?map_get_set_bool, ?map_get_cons, ?map_get_nil; js_keys); rewrite ?if_same.

Section Payload.
Implicit Types (o : ParamOverrideOperation) (c : ParamOverrideCondition).

(** The fields other than the conditions and their logic. *)
Lemma payload_get_field k o :
  bool_decide (k = js "conditions") = false -> bool_decide (k = js "logic") = false ->
  map_get k (operation_payload o) = map_get k (payload_fields o).
Proof.
  intros H1 H2. unfold operation_payload. cbv zeta. destruct (bool_decide (_ = [])); [done|].
  by rewrite !map_get_set_bool, H1, H2.
Qed.

Lemma payload_get_base k o :
  bool_decide (k = js "from") = false -> bool_decide (k = js "to") = false ->
  map_get k (payload_fields o) = map_get k (payload_base o).
Proof. intros H1 H2. unfold payload_fields. cbv zeta. by rewrite !map_get_set_if, H1, H2, !if_same. Qed.

Ltac payload_field :=
  rewrite payload_get_field by reflexivity; rewrite payload_get_base by reflexivity; unfold payload_base; cbv zeta; payload_get.

Lemma payload_mode o : map_get (js "mode") (operation_payload o) = Some (JStr (str_or (o_mode o) (js "set"))).
Proof. payload_field. reflexivity. Qed.

Lemma payload_description o :
  map_get (js "description") (operation_payload o) =
  if nonempty (trim (o_description o)) then Some (JStr (trim (o_description o))) else None.
Proof. payload_field. reflexivity. Qed.

(** The mode an operation is written with, and the fields it uses. *)
Abbreviation op_mode o := (str_or (o_mode o) (js "set")).
Abbreviation op_meta o := (metaOf (op_mode o)).

Lemma payload_path o :
  string_or_empty (map_get (js "path") (operation_payload o)) =
  if m_path (op_meta o) || m_pathOptional (op_meta o) then trim (o_path o) else [].
Proof.
  payload_field. unfold nonempty.
  destruct (m_path _), (m_pathOptional _); simpl; try case_bool_decide; simpl; congruence.
Qed.

Lemma payload_value o :
  map_get (js "value") (operation_payload o) =
  if m_value (op_meta o) then Some (parseLooseValue (o_value_text o)) else None.
Proof. payload_field. reflexivity. Qed.

Lemma payload_keep_origin o :
  is_true (map_get (js "keep_origin") (operation_payload o)) = m_keepOrigin (op_meta o) && o_keep_origin o.
Proof. payload_field. by destruct (_ && _). Qed.

(** The source and the target of the operation: an alias of the path stands in
    for the one that is missing. *)
Definition effective_from o : jsstr :=
  let f := if m_from (op_meta o) then trim (o_from o) else [] in
  if m_pathAlias (op_meta o) && bool_decide (f = []) then trim (o_path o) else f.

Definition effective_to o : jsstr :=
  if m_pathAlias (op_meta o) && bool_decide (trim (o_to o) = []) then trim (o_path o) else trim (o_to o).

Lemma base_from o :
  map_get (js "from") (payload_base o) = if m_from (op_meta o) then Some (JStr (trim (o_from o))) else None.
Proof. unfold payload_base. cbv zeta. payload_get. reflexivity. Qed.

Lemma base_to o :
  map_get (js "to") (payload_base o) =
  if bool_decide (m_to (op_meta o) = Some true) || nonempty (trim (o_to o)) then Some (JStr (trim (o_to o))) else None.
Proof. unfold payload_base. cbv zeta. payload_get. by destruct (bool_decide (m_to _ = _)). Qed.

Lemma payload_from o : string_or_empty (map_get (js "from") (operation_payload o)) = effective_from o.
Proof.
  rewrite payload_get_field by reflexivity. unfold payload_fields, effective_from, unset. cbv zeta.
  rewrite !map_get_set_if. js_keys. rewrite if_same, base_from. unfold nonempty.
  generalize (trim (o_from o)), (trim (o_path o)). intros f p.
  destruct (m_pathAlias _), (m_from _); simpl; [|destruct p; done..]. by destruct f, p.
Qed.

Lemma payload_to o : string_or_empty (map_get (js "to") (operation_payload o)) = effective_to o.
Proof.
  rewrite payload_get_field by reflexivity. unfold payload_fields, effective_to. cbv zeta.
  rewrite map_get_set_if. unfold unset at 1. rewrite !map_get_set_if. js_keys. rewrite !if_same, base_to. unfold nonempty.
  generalize (trim (o_to o)), (trim (o_path o)), (bool_decide (m_to (op_meta o) = Some true)). intros f p b.
  destruct (m_pathAlias _), b; simpl; by destruct f, p.
Qed.

Abbreviation condition_payloads o := (omap buildConditionPayload (o_conditions o)).

Lemma payload_conditions o :
  map_get (js "conditions") (operation_payload o) =
  if bool_decide (condition_payloads o = []) then None else Some (JArr (condition_payloads o)).
Proof.
  unfold operation_payload. cbv zeta. destruct (bool_decide (_ = [])); [|payload_get; reflexivity].
  rewrite payload_get_base by reflexivity. unfold payload_base. cbv zeta. payload_get. reflexivity.
Qed.

Lemma payload_logic o :
  map_get (js "logic") (operation_payload o) =
  if bool_decide (condition_payloads o = []) then None
  else Some (JStr (if bool_decide (o_logic o = js "AND") then js "AND" else js "OR")).
Proof.
  unfold operation_payload. cbv zeta. destruct (bool_decide (_ = [])); [|payload_get; reflexivity].
  rewrite payload_get_base by reflexivity. unfold payload_base. cbv zeta. payload_get. reflexivity.
Qed.

(** ** Payloads that survive their text *)

(** Members with distinct keys, none of them an array index, and values that read back. *)
Definition plain_members (ps : list (jsstr * json)) : Prop :=
  NoDup (map_keys ps) /\
  Forall (fun p => is_index p.1 = false /\ forallb code_unit p.1 = true /\ json_ok p.2 = true) ps.

Lemma plain_members_ok ps : plain_members ps -> json_ok (JObj ps) = true.
Proof.
  intros [Hn Hf]. simpl. rewrite bool_decide_eq_true_2.
  - apply forallb_forall. intros p Hp%list_elem_of_In. rewrite Forall_forall in Hf.
    destruct (Hf p Hp) as (_ & H1 & H2). by rewrite H1, H2.
  - apply obj_of_members_plain; [done|]. eapply Forall_impl; [exact Hf|]. by intros p (? & _).
Qed.

Lemma plain_members_nil : plain_members [].
Proof. split; constructor. Qed.

Lemma plain_members_set k v m :
  is_index k = false /\ forallb code_unit k = true -> json_ok v = true -> plain_members m -> plain_members (map_set k v m).
Proof.
  intros [H1 H2] Hv [Hn Hf]. split; [by apply NoDup_map_set|].
  clear Hn. induction Hf as [|[k' v'] m Hp Hf IH]; simpl; [by repeat constructor|].
  case_decide; constructor; naive_solver.
Qed.

Lemma plain_members_set_if (b : bool) k v m :
  is_index k = false /\ forallb code_unit k = true -> (b = true -> json_ok v = true) -> plain_members m ->
  plain_members (set_if b k v m).
Proof. intros Hk Hv Hm. unfold set_if. destruct b; [|done]. apply plain_members_set; auto. Qed.

Lemma plain_members_cons k v m :
  is_index k = false /\ forallb code_unit k = true -> json_ok v = true -> k ∉ map_keys m -> plain_members m ->
  plain_members ((k, v) :: m).
Proof. intros [H1 H2] Hv Hk [Hn Hf]. split; [by constructor|]. by constructor. Qed.

(** A text of code units whose number, if it is JSON with numbers, reads back. *)
Definition text_ok (s : jsstr) : bool := forallb code_unit s && json_nums_ok (parseLooseValue s).

Lemma parseLooseValue_ok s : text_ok s = true -> json_ok (parseLooseValue s) = true.
Proof.
  unfold text_ok. intros H. bool_to_prop. rewrite json_ok_split, H0, andb_true_r. unfold parseLooseValue.
  pose proof (forallb_trim code_unit s H) as Ht. destruct (trim s) as [|x r]; [done|].
  destruct (json_parse (x :: r)) as [v|] eqn:E; [|done]. by eapply json_parse_shape.
Qed.

Definition condition_ok c : bool :=
  forallb code_unit (c_path c) && set_has (c_mode c) CONDITION_MODE_VALUES && text_ok (c_value_text c).

Definition operation_ok o : bool :=
  forallb code_unit (o_description o) && forallb code_unit (o_path o) && set_has (o_mode o) OPERATION_MODE_VALUES &&
  forallb code_unit (o_from o) && forallb code_unit (o_to o) && text_ok (o_value_text o) &&
  forallb condition_ok (o_conditions o).

Lemma mode_units modes s :
  forallb (forallb code_unit) modes = true -> set_has s modes = true -> forallb code_unit s = true.
Proof.
  intros H Hs. unfold set_has in Hs. bool_to_prop. rewrite forallb_forall in H. apply H. by apply list_elem_of_In.
Qed.

Lemma trim_ok s : forallb code_unit s = true -> json_ok (JStr (trim s)) = true.
Proof. apply forallb_trim. Qed.

Ltac plain_step :=
  first [ apply plain_members_set_if; [split; vm_compute; reflexivity|intros _|]
        | apply plain_members_set; [split; vm_compute; reflexivity| |] ].

Lemma condition_mode_units c : condition_ok c = true -> forallb code_unit (str_or (c_mode c) (js "full")) = true.
Proof.
  intros H. unfold condition_ok in H. bool_to_prop. apply mode_units in H1; [|vm_compute; reflexivity].
  by destruct (c_mode c).
Qed.

Lemma condition_payload_ok c v : condition_ok c = true -> buildConditionPayload c = Some v -> json_ok v = true.
Proof.
  intros Hc. pose proof (condition_mode_units c Hc) as Hm. unfold condition_ok in Hc. bool_to_prop.
  unfold buildConditionPayload. pose proof (trim_ok _ H) as Hp. destruct (trim (c_path c)) as [|x r]; [done|].
  cbv zeta. intros [= <-]. apply plain_members_ok. do 2 (plain_step; [done|]).
  repeat (apply plain_members_cons; [split; vm_compute; reflexivity| |by apply (bool_decide_unpack _); vm_compute|]);
    try done; [by apply parseLooseValue_ok|apply plain_members_nil].
Qed.

Lemma payload_ok o : operation_ok o = true -> json_ok (JObj (operation_payload o)) = true.
Proof.
  intros H. unfold operation_ok in H. bool_to_prop.
  assert (Hm : forallb code_unit (op_mode o) = true).
  { apply mode_units in H4; [|vm_compute; reflexivity]. by destruct (o_mode o). }
  pose proof (parseLooseValue_ok _ H1). apply plain_members_ok. unfold operation_payload. cbv zeta.
  assert (Hf : plain_members (payload_fields o)).
  { unfold payload_fields, payload_base. cbv zeta.
    repeat (plain_step; [first [apply trim_ok; assumption | assumption | reflexivity]|]).
    apply plain_members_cons; [split; vm_compute; reflexivity|exact Hm|apply not_elem_of_nil|apply plain_members_nil]. }
  destruct (bool_decide (_ = [])); [exact Hf|]. plain_step; [case_bool_decide; reflexivity|]. plain_step; [|exact Hf].
  simpl. apply forallb_forall. intros v Hv%list_elem_of_In. apply list_elem_of_omap in Hv as (c & Hc & Hb).
  eapply condition_payload_ok; [|done]. rewrite forallb_forall in H0. apply H0. by apply list_elem_of_In.
Qed.

(** ** Reading a payload back *)

(** A condition and an operation without their identifiers. *)
Definition erase_condition c : ParamOverrideCondition :=
  mkCondition [] (c_path c) (c_mode c) (c_value_text c) (c_invert c) (c_pass_missing_key c).

Definition erase_operation o : ParamOverrideOperation :=
  mkOperation [] (o_description o) (o_path o) (o_mode o) (o_from o) (o_to o) (o_value_text o) (o_keep_origin o)
    (o_logic o) (map erase_condition (o_conditions o)).

(** What is left of a condition and of an operation once it is written: the
    fields are trimmed, those its mode does not use are gone, and the value has
    the text of the JSON value it stands for. *)
Definition canonical_condition c : ParamOverrideCondition :=
  mkCondition [] (trim (c_path c)) (str_or (c_mode c) (js "full")) (toValueText (Some (parseLooseValue (c_value_text c))))
    (c_invert c) (c_pass_missing_key c).

Definition kept_conditions o : list ParamOverrideCondition :=
  base.filter (fun c => blank (c_path c) = false) (o_conditions o).

Definition canonical_operation o : ParamOverrideOperation :=
  mkOperation [] (trim (o_description o))
    (if m_path (op_meta o) || m_pathOptional (op_meta o) then trim (o_path o) else [])
    (op_mode o) (effective_from o) (effective_to o)
    (if m_value (op_meta o) then toValueText (Some (parseLooseValue (o_value_text o))) else [])
    (m_keepOrigin (op_meta o) && o_keep_origin o)
    (if bool_decide (kept_conditions o = []) then js "OR"
     else if bool_decide (o_logic o = js "AND") then js "AND" else js "OR")
    (map canonical_condition (kept_conditions o)).

(** The program succeeds from every counter, with a result of the property. *)
Definition succeeds {A} (m : gen A) (Q : A -> Prop) : Prop := forall seed, exists a seed', m seed = (Some a, seed') /\ Q a.

Lemma succeeds_ret {A} (a : A) (Q : A -> Prop) : Q a -> succeeds (gret a) Q.
Proof. intros H seed. by exists a, seed. Qed.

Lemma succeeds_bind {A B} (m : gen A) (k : A -> gen B) (P : A -> Prop) Q :
  succeeds m P -> (forall a, P a -> succeeds (k a) Q) -> succeeds (gbind m k) Q.
Proof.
  intros Hm Hk seed. destruct (Hm seed) as (a & s & E & Ha). destruct (Hk a Ha s) as (b & s' & E' & Hb).
  exists b, s'. unfold gbind. by rewrite E.
Qed.

Lemma succeeds_mapM {A B} (f : A -> gen B) (Q : A -> B -> Prop) l :
  Forall (fun x => succeeds (f x) (Q x)) l -> succeeds (gmapM f l) (fun ys => Forall2 Q l ys).
Proof.
  induction 1 as [|x l Hx _ IH]; simpl; [apply succeeds_ret; constructor|].
  apply (succeeds_bind _ _ _ _ Hx). intros y Hy. apply (succeeds_bind _ _ _ _ IH). intros ys Hys.
  apply succeeds_ret. by constructor.
Qed.

Lemma succeeds_next now (Q : jsstr -> Prop) : (forall id, Q id) -> succeeds (nextLocalId now) Q.
Proof. intros H seed. by eexists _, _. Qed.

Lemma mode_or_has modes d s : set_has s modes = true -> mode_or modes d (Some (JStr s)) = s.
Proof. simpl. by intros ->. Qed.

Lemma mode_nonempty_str modes s d : set_has [] modes = false -> set_has s modes = true -> str_or s d = s.
Proof. destruct s; [congruence|done]. Qed.

(** A written condition is read back in its canonical form. *)
Lemma normalize_condition_payload now c v :
  condition_ok c = true -> buildConditionPayload c = Some v ->
  succeeds (normalizeCondition now v) (fun c' => erase_condition c' = canonical_condition c).
Proof.
  intros Hc. unfold condition_ok in Hc. bool_to_prop. unfold buildConditionPayload, canonical_condition.
  rewrite (mode_nonempty_str CONDITION_MODE_VALUES) by (done || vm_compute; reflexivity).
  destruct (trim (c_path c)) as [|x r]; [done|]. cbv zeta. intros [= <-].
  unfold normalizeCondition. apply (succeeds_bind _ _ (fun _ => True)); [by apply succeeds_next|].
  intros id _. apply succeeds_ret. unfold erase_condition, prop. cbn [c_path c_mode c_value_text c_invert c_pass_missing_key].
  f_equal; payload_get; try reflexivity; [by rewrite mode_or_has|by destruct (c_invert c)|by destruct (c_pass_missing_key c)].
Qed.

Lemma buildConditionPayload_blank c : blank (c_path c) = true -> buildConditionPayload c = None.
Proof. unfold blank, buildConditionPayload. intros H. bool_to_prop. by rewrite H. Qed.

Lemma buildConditionPayload_kept c : blank (c_path c) = false -> exists v, buildConditionPayload c = Some v.
Proof. unfold blank, buildConditionPayload. intros H. bool_to_prop. destruct (trim (c_path c)); [done|eauto]. Qed.

Lemma condition_payloads_kept o :
  Forall2 (fun v c => buildConditionPayload c = Some v) (condition_payloads o) (kept_conditions o).
Proof.
  unfold kept_conditions. induction (o_conditions o) as [|c l IH]; [constructor|].
  cbn [omap list_omap]. destruct (blank (c_path c)) eqn:E.
  - rewrite filter_cons_False by congruence. by rewrite buildConditionPayload_blank.
  - rewrite filter_cons_True by done. destruct (buildConditionPayload_kept c E) as [v Hv]. rewrite Hv. by constructor.
Qed.

Lemma normalize_conditions_payload now o :
  operation_ok o = true ->
  succeeds (gmapM (normalizeCondition now) (condition_payloads o))
    (fun cs => map erase_condition cs = map canonical_condition (kept_conditions o)).
Proof.
  intros Ho. pose proof (condition_payloads_kept o) as F.
  assert (Hk : Forall (fun c => condition_ok c = true) (kept_conditions o)).
  { unfold operation_ok in Ho. bool_to_prop. apply Forall_forall. intros c [_ Hc]%list_elem_of_filter.
    rewrite forallb_forall in H0. apply H0. by apply list_elem_of_In. }
  revert Hk. induction F as [|v c vs cs Hv F IH]; intros Hk; simpl; [by apply succeeds_ret|].
  apply Forall_cons in Hk as [Hc Hk].
  apply (succeeds_bind _ _ _ _ (normalize_condition_payload now c v Hc Hv)). intros c' Hc'.
  apply (succeeds_bind _ _ _ _ (IH Hk)). intros cs' Hcs'. apply succeeds_ret. simpl. by rewrite Hc', Hcs'.
Qed.

(** A written operation is read back in its canonical form. *)
Lemma normalize_operation_payload now o :
  operation_ok o = true ->
  succeeds (normalizeOperation now (JObj (operation_payload o))) (fun o' => erase_operation o' = canonical_operation o).
Proof.
  intros Ho. unfold normalizeOperation. apply (succeeds_bind _ _ (fun _ => True)); [by apply succeeds_next|].
  intros id _. cbn [prop]. rewrite payload_conditions.
  assert (Hm : set_has (op_mode o) OPERATION_MODE_VALUES = true).
  { unfold operation_ok in Ho. bool_to_prop. by rewrite (mode_nonempty_str OPERATION_MODE_VALUES) by (done || vm_compute; reflexivity). }
  assert (Hnil : bool_decide (condition_payloads o = []) = bool_decide (kept_conditions o = [])).
  { pose proof (condition_payloads_kept o) as F. by destruct F. }
  apply (succeeds_bind _ _ (fun cs => map erase_condition cs = map canonical_condition (kept_conditions o))).
  { case_bool_decide as E; [|by apply normalize_conditions_payload].
    apply succeeds_ret. symmetry in Hnil. apply bool_decide_eq_true in Hnil. by rewrite Hnil. }
  intros cs Hcs. apply succeeds_ret. unfold erase_operation, canonical_operation.
  cbn [o_description o_path o_mode o_from o_to o_value_text o_keep_origin o_logic o_conditions].
  rewrite payload_description, payload_path, payload_mode, payload_from, payload_to, payload_value, payload_keep_origin,
    payload_logic, Hnil, Hcs, mode_or_has by done.
  f_equal.
  - unfold nonempty. by destruct (trim (o_description o)).
  - by destruct (m_value _).
  - destruct (bool_decide (kept_conditions o = [])); [done|]. by destruct (bool_decide (o_logic o = js "AND")).
Qed.
End Payload.

(** ** The stored text round trip *)
Lemma trim_bracketed (o c : Z) m : is_ws o = false -> is_ws c = false -> trim ([o] ++ m ++ [c]) = [o] ++ m ++ [c].
Proof.
  intros Ho Hc. apply trim_trimmed. unfold trimmed. rewrite (assoc_L (++)), rev_app_distr.
  cbn [rev app]. by rewrite Ho, Hc.
Qed.

Lemma json_wrap_bracketed o c gap cur items : exists m, json_wrap o c gap cur items = [o] ++ m ++ [c].
Proof.
  unfold json_wrap. destruct items as [|x items]; [by exists []|]. destruct gap as [|g gap]; [eauto|].
  exists ((10 :: cur ++ g :: gap) ++ join (comma :: 10 :: cur ++ g :: gap) (x :: items) ++ 10 :: cur).
  by rewrite <- !(assoc_L (++)).
Qed.

Lemma trim_pretty_object ps : trim (json_pretty (JObj ps)) = json_pretty (JObj ps).
Proof.
  unfold json_pretty. cbn [stringify].
  destruct (json_wrap_bracketed 123 125 [32; 32] []
    (map (fun p => json_quote p.1 ++ [58] ++ [32] ++ stringify [32; 32] ([] ++ [32; 32]) p.2) ps)) as [m ->].
  by apply trim_bracketed.
Qed.

Lemma pretty_object_nonempty ps : exists c r, json_pretty (JObj ps) = c :: r.
Proof.
  unfold json_pretty. cbn [stringify].
  destruct (json_wrap_bracketed 123 125 [32; 32] []
    (map (fun p => json_quote p.1 ++ [58] ++ [32] ++ stringify [32; 32] ([] ++ [32; 32]) p.2) ps)) as [m ->]. eauto.
Qed.

Lemma operations_value_ok ops : forallb operation_ok ops = true -> json_ok (operations_value ops) = true.
Proof.
  intros H. unfold operations_value. apply plain_members_ok.
  apply plain_members_cons; [split; vm_compute; reflexivity| |apply not_elem_of_nil|apply plain_members_nil].
  simpl. apply forallb_forall. intros v Hv%list_elem_of_In. apply list_elem_of_fmap in Hv as (o & -> & Ho).
  apply payload_ok. rewrite forallb_forall in H. apply H. by apply list_elem_of_In.
Qed.

Lemma load_operations_payloads now ops :
  forallb operation_ok ops = true -> ops <> [] ->
  succeeds (load_operations now (map (fun o => JObj (operation_payload o)) ops))
    (fun l => map erase_operation l = map canonical_operation ops).
Proof.
  intros Hok Hne.
  assert (G : succeeds (gmapM (normalizeOperation now) (map (fun o => JObj (operation_payload o)) ops))
    (fun l => map erase_operation l = map canonical_operation ops)); [|by destruct ops].
  clear Hne. induction ops as [|o ops IH]; simpl in *; [by apply succeeds_ret|]. bool_to_prop.
  apply (succeeds_bind _ _ _ _ (normalize_operation_payload now o H)). intros o' Ho'.
  apply (succeeds_bind _ _ _ _ (IH H0)). intros l Hl. apply succeeds_ret. simpl. by rewrite Ho', Hl.
Qed.

Lemma build_operations_text t_line ops validate text :
  nonblank_ops ops <> [] -> buildOperationsJson t_line ops validate = inr text ->
  text = json_pretty (operations_value (nonblank_ops ops)).
Proof.
  intros Hne. unfold buildOperationsJson. destruct (nonblank_ops ops) as [|o l]; [done|].
  destruct (if validate then _ else _); [|done]. by intros [= <-].
Qed.

(** C22.  Whatever the editor writes, it reads back: from the text of the rules
    that are not blank the dialog opens in its visual form with the same text
    and, identifiers apart, the same rules in the same order, each in its
    canonical form. *)
Theorem overrides_roundtrip (now : Z -> Z) t_line ops validate text seed :
  forallb operation_ok (nonblank_ops ops) = true -> nonblank_ops ops <> [] ->
  buildOperationsJson t_line ops validate = inr text ->
  exists st seed', parseInitialState now text seed = (Some st, seed') /\
    s_editMode st = Visual /\ s_visualMode st = Operations /\ s_jsonText st = text /\ s_jsonError st = [] /\
    map erase_operation (s_operations st) = map canonical_operation (nonblank_ops ops).
Proof.
  intros Hok Hne Hb. pose proof (build_operations_text _ _ _ _ Hne Hb) as ->.
  pose proof (operations_value_ok _ Hok) as Hv. pose proof (load_operations_payloads now _ Hok Hne seed) as (l & s' & El & Hl).
  unfold parseInitialState, operations_value in *. rewrite trim_pretty_object.
  destruct (pretty_object_nonempty [(js "operations", JArr (map (fun o => JObj (operation_payload o)) (nonblank_ops ops)))]) as (c & r & E).
  rewrite (json_parse_pretty _ Hv). rewrite E. rewrite map_get_cons. js_keys. unfold gbind. rewrite El. rewrite <- E.
  by eexists _, _.
Qed.

Definition sample_operation : ParamOverrideOperation :=
  mkOperation (js "po_0_0") (js " default temperature ") (js "temperature") (js "set") [] [] (js " 0.7") true (js "AND")
    [mkCondition (js "po_0_1") (js "model") (js "prefix") (js "openai/") false true; mkCondition (js "po_0_2") [] (js "full") [] false false].

Lemma overrides_roundtrip_witness :
  forallb operation_ok (nonblank_ops [sample_operation]) = true /\
  (exists st seed', parseInitialState (fun _ => 17)
     (json_pretty (operations_value [sample_operation])) 3 = (Some st, seed') /\
     s_editMode st = Visual /\ s_visualMode st = Operations /\
     s_jsonText st = json_pretty (operations_value [sample_operation]) /\ s_jsonError st = [] /\
     map erase_operation (s_operations st) = map canonical_operation (nonblank_ops [sample_operation])).
Proof.
  split; [vm_compute; reflexivity|].
  apply (overrides_roundtrip (fun _ => 17) (fun k _ => k) [sample_operation] true
           (json_pretty (operations_value [sample_operation])) 3).
  - vm_compute. reflexivity.
  - vm_compute. discriminate.
  - vm_compute. reflexivity.
Defined.

(** ** Validation *)

(** What the fields of an operation owe to its mode. *)
Record OperationComplete (op : ParamOverrideOperation) : Prop := {
  oc_path : m_path (metaOf (str_or (o_mode op) (js "set"))) = true -> trim (o_path op) <> [];
  oc_from : str_or (o_mode op) (js "set") ∈ FROM_REQUIRED_MODES -> trim (o_from op) <> [] \/
    m_pathAlias (metaOf (str_or (o_mode op) (js "set"))) = true /\ trim (o_path op) <> [];
  oc_to : str_or (o_mode op) (js "set") ∈ TO_REQUIRED_MODES -> trim (o_to op) <> [] \/
    m_pathAlias (metaOf (str_or (o_mode op) (js "set"))) = true /\ trim (o_path op) <> [];
  oc_value : str_or (o_mode op) (js "set") ∈ VALUE_REQUIRED_MODES -> trim (o_value_text op) <> [];
  oc_error : str_or (o_mode op) (js "set") = js "return_error" -> forall ps,
    json_parse (trim (o_value_text op)) = Some (JObj ps) -> trim (string_or [] (map_get (js "message") ps)) <> [];
  oc_headers : str_or (o_mode op) (js "set") = js "pass_headers" ->
    parsePassHeaderNames (parseLooseValue (trim (o_value_text op))) <> [];
}.

Lemma nonempty_iff s : nonempty s = true <-> s <> [].
Proof. unfold nonempty. by rewrite negb_true_iff, bool_decide_eq_false. Qed.

Lemma nonempty_false s : nonempty s = false <-> s = [].
Proof. unfold nonempty. by rewrite negb_false_iff, bool_decide_eq_true. Qed.

Lemma is_mode_spec mode names : is_mode mode names = true <-> mode ∈ names.
Proof. unfold is_mode. by rewrite bool_decide_eq_true. Qed.

(** A required source or target is there, or the path stands in for it. *)
Lemma required_spec mode names v alias p :
  is_mode mode names && negb (nonempty v) && negb (alias && nonempty p) = false <->
  (mode ∈ names -> v <> [] \/ alias = true /\ p <> []).
Proof.
  rewrite <- is_mode_spec, <- !nonempty_iff.
  destruct (is_mode mode names), (nonempty v), alias, (nonempty p); simpl; naive_solver.
Qed.

Lemma is_mode_one mode name : is_mode mode [name] = true <-> mode = name.
Proof. rewrite is_mode_spec. set_solver. Qed.

Lemma validate_value_spec mode raw :
  (mode ∈ VALUE_REQUIRED_MODES -> raw <> []) ->
  validate_value mode raw = None <->
  (mode = js "return_error" -> forall ps, json_parse raw = Some (JObj ps) ->
     trim (string_or [] (map_get (js "message") ps)) <> []) /\
  (mode = js "pass_headers" -> parsePassHeaderNames (parseLooseValue raw) <> []).
Proof.
  intros Hraw. unfold validate_value.
  assert (Hreq : forall n, n ∈ VALUE_REQUIRED_MODES -> mode = n -> negb (nonempty raw) = false).
  { intros n Hn ->. by apply negb_false_iff, nonempty_iff, Hraw. }
  destruct (is_mode mode [js "return_error"]) eqn:E1.
  { apply is_mode_one in E1. rewrite (Hreq (js "return_error")) by (done || apply (bool_decide_unpack _); vm_compute; done).
    split.
    - intros H. split; [|by rewrite E1]. intros _ ps Hps. rewrite Hps in H. apply nonempty_iff.
      by destruct (nonempty (trim (string_or [] (map_get (js "message") ps)))).
    - intros [H _]. destruct (json_parse raw) as [[| | | | |ps]|]; try done.
      specialize (H E1 ps eq_refl). apply nonempty_iff in H. by rewrite H. }
  assert (mode <> js "return_error") by (rewrite <- is_mode_one; congruence).
  destruct (is_mode mode [js "prune_objects"]) eqn:E2.
  { apply is_mode_one in E2. rewrite (Hreq (js "prune_objects")) by (done || apply (bool_decide_unpack _); vm_compute; done).
    split; [|done]. intros _. split; [done|]. by rewrite E2. }
  destruct (is_mode mode [js "pass_headers"]) eqn:E3.
  { apply is_mode_one in E3. rewrite (Hreq (js "pass_headers")) by (done || apply (bool_decide_unpack _); vm_compute; done).
    destruct (bool_decide (_ = [])) eqn:E; bool_to_prop; naive_solver. }
  assert (mode <> js "pass_headers") by (rewrite <- is_mode_one; congruence). naive_solver.
Qed.

Lemma validateOperation_spec op : validateOperation op = None <-> OperationComplete op.
Proof.
  unfold validateOperation. set (mode := str_or (o_mode op) (js "set")). cbv zeta.
  assert (P : m_path (metaOf mode) && negb (nonempty (trim (o_path op))) = false <->
              (m_path (metaOf mode) = true -> trim (o_path op) <> [])).
  { rewrite <- nonempty_iff. destruct (m_path (metaOf mode)), (nonempty (trim (o_path op))); simpl; intuition congruence. }
  assert (V : is_mode mode VALUE_REQUIRED_MODES && negb (nonempty (trim (o_value_text op))) = false <->
              (mode ∈ VALUE_REQUIRED_MODES -> trim (o_value_text op) <> [])).
  { rewrite <- nonempty_iff, <- is_mode_spec. destruct (is_mode mode VALUE_REQUIRED_MODES), (nonempty (trim (o_value_text op))); simpl; intuition congruence. }
  split.
  - apply proj1 in P, V.
    destruct (m_path (metaOf mode) && _); [done|]. specialize (P eq_refl).
    destruct (is_mode mode FROM_REQUIRED_MODES && _ && _) eqn:E2; [done|].
    destruct (is_mode mode TO_REQUIRED_MODES && _ && _) eqn:E3; [done|].
    destruct (is_mode mode VALUE_REQUIRED_MODES && _); [done|]. specialize (V eq_refl).
    rewrite required_spec in E2, E3. intros H. apply (validate_value_spec mode _ V) in H as [H5 H6]. by constructor.
  - intros [H1 H2 H3 H4 H5 H6]. apply P in H1. fold mode in H2, H3. apply <- required_spec in H2. apply <- required_spec in H3. pose proof (proj2 V H4) as H4'.
    rewrite H1, H2, H3, H4'. by apply validate_value_spec.
Qed.

Lemma validate_from_spec (t_line : jsstr -> Z -> jsstr) ops line :
  (forall key line, t_line key line <> []) ->
  (validate_from t_line line ops = [] <-> Forall OperationComplete ops) /\
  (forall i op, ops !! i = Some op -> ~ OperationComplete op -> Forall OperationComplete (take i ops) ->
    exists key, validateOperation op = Some key /\ validate_from t_line line ops = t_line key (Z.of_nat i + line)).
Proof.
  intros Ht. revert line. induction ops as [|o ops IH]; intros line; simpl.
  { split; [by split|]. intros i op Hi. by rewrite lookup_nil in Hi. }
  pose proof (validateOperation_spec o) as S. destruct (validateOperation o) as [key|] eqn:E.
  - split.
    + split; [by intros ?%Ht|]. intros [Ho _]%Forall_cons. by apply S in Ho.
    + intros [|i] op Hop Hn Hf; simplify_eq/=; [by exists key|]. apply Forall_cons in Hf as [Ho _]. by apply S in Ho.
  - destruct (IH (line + 1)) as [IH1 IH2]. assert (Ho : OperationComplete o) by (by apply S). split.
    + rewrite IH1, Forall_cons. naive_solver.
    + intros [|i] op Hop Hn Hf; simplify_eq/=; [done|]. apply Forall_cons in Hf as [_ Hf].
      destruct (IH2 i op Hop Hn Hf) as (key & H1 & H2). exists key. split; [done|]. rewrite H2. f_equal. lia.
Qed.

(** The editor accepts exactly the lists of rules that are complete, and
    otherwise reports the first rule that is not, by its line. *)
Theorem validate_first_incomplete (t_line : jsstr -> Z -> jsstr) ops :
  (forall key line, t_line key line <> []) ->
  (validateOperations t_line ops = [] <-> Forall OperationComplete ops) /\
  (forall i op, ops !! i = Some op -> ~ OperationComplete op -> Forall OperationComplete (take i ops) ->
     exists key, validateOperation op = Some key /\ validateOperations t_line ops = t_line key (Z.of_nat i + 1)).
Proof. intros Ht. by apply validate_from_spec. Qed.

Lemma validate_first_incomplete_witness :
  let t_line := fun (key : jsstr) (line : Z) => [line] ++ key in
  let incomplete := mkOperation (js "b") [] [] (js "copy_header") [] (js "X-To") [] false (js "OR") [] in
  validateOperations t_line [sample_operation; incomplete] = [2] ++ js "Rule {{line}} is missing source field".
Proof.
  intros t_line incomplete.
  destruct (proj2 (validate_first_incomplete t_line [sample_operation; incomplete]
    ltac:(by intros key line)) 1%nat incomplete eq_refl) as (key & Hk & ->).
  - rewrite <- validateOperation_spec. vm_compute. discriminate.
  - apply Forall_singleton. apply validateOperation_spec. vm_compute. reflexivity.
  - revert Hk. vm_compute. congruence.
Defined.

(** A rule that passed validation is written with every field its mode needs. *)
Lemma complete_payload op :
  OperationComplete op ->
  (str_or (o_mode op) (js "set") ∈ FROM_REQUIRED_MODES -> effective_from op <> []) /\
  (str_or (o_mode op) (js "set") ∈ TO_REQUIRED_MODES -> effective_to op <> []).
Proof.
  intros [_ Hf Ht _ _ _]. unfold effective_from, effective_to. set (mode := str_or _ _) in *.
  assert (M : forall m, m ∈ FROM_REQUIRED_MODES -> m_from (metaOf m) = true).
  { apply Forall_forall. repeat constructor. }
  split.
  - intros Hm. rewrite (M _ Hm). cbv zeta. destruct (Hf Hm) as [H|[H1 H2]].
    + rewrite (bool_decide_eq_false_2 (_ = [])), andb_false_r by done. done.
    + rewrite H1. simpl. case_bool_decide; done.
  - intros Hm. destruct (Ht Hm) as [H|[H1 H2]].
    + rewrite (bool_decide_eq_false_2 (_ = [])), andb_false_r by done. done.
    + rewrite H1. simpl. case_bool_decide; done.
Qed.

(** The rules that are saved name their source and their target wherever
    their mode needs one: the header modes fall back on the path. *)
Theorem saved_rules_complete t_line ops text :
  (forall key line, t_line key line <> []) ->
  buildOperationsJson t_line ops true = inr text ->
  Forall (fun o =>
    (str_or (o_mode o) (js "set") ∈ FROM_REQUIRED_MODES ->
       string_or_empty (map_get (js "from") (operation_payload o)) <> []) /\
    (str_or (o_mode o) (js "set") ∈ TO_REQUIRED_MODES ->
       string_or_empty (map_get (js "to") (operation_payload o)) <> [])) (nonblank_ops ops).
Proof.
  intros Ht Hb. assert (V : validate_from t_line 1 (nonblank_ops ops) = []).
  { unfold buildOperationsJson, validateOperations in Hb. destruct (nonblank_ops ops) as [|o l]; [done|].
    by destruct (validate_from t_line 1 (o :: l)). }
  apply validate_from_spec in V; [|done]. eapply Forall_impl; [exact V|]. intros o Ho.
  rewrite payload_from, payload_to. by apply complete_payload.
Qed.

Lemma saved_rules_complete_witness :
  let o := mkOperation (js "a") [] (js "X-Auth") (js "copy_header") [] [] [] false (js "OR") [] in
  string_or_empty (map_get (js "from") (operation_payload o)) = js "X-Auth" /\
  string_or_empty (map_get (js "from") (operation_payload o)) <> [].
Proof.
  intros o. split; [vm_compute; reflexivity|].
  pose proof (saved_rules_complete (fun k n => [n] ++ k) [o] (json_pretty (operations_value [o]))
                ltac:(by intros key line) ltac:(vm_compute; reflexivity)) as H.
  change (nonblank_ops [o]) with [o] in H. apply Forall_singleton in H as [H _]. apply H.
  apply (bool_decide_unpack _). vm_compute. done.
Defined.

(** ** Identifiers *)
Lemma digits_app_inj a b x y :
  forallb is_digit x = true -> forallb is_digit y = true -> a ++ js "_" ++ x = b ++ js "_" ++ y -> x = y.
Proof.
  intros Hx Hy H. apply (f_equal (@rev Z)) in H. rewrite !rev_app_distr in H. change (rev (js "_")) with [95] in H.
  rewrite <- !(assoc_L (++)) in H.
  assert (G : forall u z, forallb is_digit u = true -> take_while is_digit (rev u ++ [95] ++ z) = rev u).
  { intros u z Hu. rewrite take_while_app by (by rewrite forallb_rev). simpl. apply app_nil_r. }
  apply (f_equal (take_while is_digit)) in H. rewrite !G in H by done. apply (f_equal (@rev Z)) in H. by rewrite !rev_involutive in H.
Qed.

(** Two calls of [nextLocalId] never return the same identifier, whatever the clock says. *)
Lemma local_id_inj now n m : 0 <= n -> 0 <= m -> local_id now n = local_id now m -> n = m.
Proof.
  intros Hn Hm H. unfold local_id in H. rewrite !(assoc_L (++)) in H. rewrite <- !(assoc_L (++) _ (js "_")) in H.
  destruct (string_of_Z_digits n Hn) as (D1 & P1 & _), (string_of_Z_digits m Hm) as (D2 & P2 & _).
  apply digits_app_inj in H; [|done..]. congruence.
Qed.

Lemma local_id_nonempty now n : local_id now n <> [].
Proof. done. Qed.

(** ** Reordering *)
Lemma find_index_Some {A} (f : A -> bool) l i :
  find_index f l = Some i ->
  exists l1 x l2, l = l1 ++ x :: l2 /\ length l1 = i /\ f x = true /\ Forall (fun y => f y = false) l1.
Proof.
  revert i. induction l as [|y l IH]; simpl; intros i; [done|]. destruct (f y) eqn:E.
  - intros [= <-]. by exists [], y, l.
  - destruct (find_index f l) as [j|] eqn:Ej; [|done]. intros [= <-].
    destruct (IH j eq_refl) as (l1 & x & l2 & -> & <- & Hx & Hl). exists (y :: l1), x, l2. by repeat constructor.
Qed.

Lemma find_index_elem {A} (f : A -> bool) l x : x ∈ l -> f x = true -> exists i, find_index f l = Some i.
Proof.
  intros Hx Hf. induction l as [|y l IH]; [set_solver|]. simpl. destruct (f y) eqn:E; [eauto|].
  apply elem_of_cons in Hx as [-> |Hx]; [congruence|]. destruct (IH Hx) as [i ->]. by eexists.
Qed.

Lemma has_id_spec id o : has_id id o = true <-> o_id o = id.
Proof. unfold has_id. by rewrite bool_decide_eq_true. Qed.

Lemma splice_at {A} (l1 l2 : list A) x y (after : bool) :
  splice_in (if after then S (length l1) else length l1) x (l1 ++ y :: l2) =
  l1 ++ (if after then [y; x] else [x; y]) ++ l2.
Proof.
  unfold splice_in. destruct after; simpl.
  - replace (S (length l1)) with (length (l1 ++ [y])) by (rewrite length_app; simpl; lia).
    change (y :: l2) with ([y] ++ l2). rewrite (assoc_L (++)), take_app_length, drop_app_length.
    by rewrite <- (assoc_L (++)).
  - by rewrite take_app_length, drop_app_length.
Qed.

Abbreviation placed position x y :=
  (match position with Before => [x; y] | After => [y; x] end : list ParamOverrideOperation).

Lemma find_index_None {A} (f : A -> bool) l : find_index f l = None -> Forall (fun y => f y = false) l.
Proof.
  induction l as [|y l IH]; simpl; [constructor|]. destruct (f y) eqn:E; [done|].
  destruct (find_index f l); [done|]. constructor; auto.
Qed.

Lemma Forall_no_id id ops : Forall (fun o => has_id id o = false) ops -> Forall (fun o => o_id o <> id) ops.
Proof. intros F. eapply Forall_impl; [exact F|]. intros o H. unfold has_id in H. by bool_to_prop. Qed.

Abbreviation without_source a1 a2 l1 t l2 := (a1 ++ a2 = l1 ++ t :: l2).

(** Either nothing can be moved, or the source is taken out and put next to the target. *)
Lemma reorder_cases ops sourceId targetId position :
  (reorderOperations ops sourceId targetId position = ops /\
   (sourceId = [] \/ targetId = [] \/ sourceId = targetId \/ Forall (fun o => o_id o <> sourceId) ops \/
    Forall (fun o => o_id o <> targetId) ops)) \/
  exists a1 s a2 l1 t l2,
    ops = a1 ++ s :: a2 /\ without_source a1 a2 l1 t l2 /\ o_id s = sourceId /\ o_id t = targetId /\
    reorderOperations ops sourceId targetId position = l1 ++ placed position s t ++ l2.
Proof.
  unfold reorderOperations. destruct (bool_decide (sourceId = []) || _ || _) eqn:G.
  { left. split; [done|]. apply orb_true_iff in G as [G|G]; [apply orb_true_iff in G as [G|G]|]; bool_to_prop; auto. }
  bool_to_prop. destruct (find_index (has_id sourceId) ops) as [i|] eqn:Ei.
  2:{ left. split; [done|]. do 3 right. left. by apply Forall_no_id, find_index_None. }
  destruct (find_index_Some _ _ _ Ei) as (a1 & s & a2 & -> & <- & Hs & _). apply has_id_spec in Hs.
  rewrite list_lookup_middle by done. cbv zeta.
  replace (take (length a1) (a1 ++ s :: a2) ++ drop (S (length a1)) (a1 ++ s :: a2)) with (a1 ++ a2).
  2:{ rewrite take_app_length. f_equal. replace (S (length a1)) with (length (a1 ++ [s])) by (rewrite length_app; simpl; lia).
      change (s :: a2) with ([s] ++ a2). by rewrite (assoc_L (++)), drop_app_length. }
  destruct (find_index (has_id targetId) (a1 ++ a2)) as [j|] eqn:Ej.
  2:{ left. split; [done|]. do 4 right. apply find_index_None, Forall_no_id, Forall_app in Ej as [F1 F2].
      apply Forall_app. split; [done|]. constructor; [congruence|done]. }
  destruct (find_index_Some _ _ _ Ej) as (l1 & t & l2 & Hl & <- & Ht & _). apply has_id_spec in Ht.
  right. exists a1, s, a2, l1, t, l2. split_and!; try done. rewrite Hl.
  destruct position; [exact (splice_at l1 l2 s t false) | exact (splice_at l1 l2 s t true)].
Qed.

Lemma placed_permutation a1 s a2 l1 t l2 position :
  without_source a1 a2 l1 t l2 -> l1 ++ placed position s t ++ l2 ≡ₚ a1 ++ s :: a2.
Proof.
  intros Hl. rewrite <- Permutation_middle, Hl. destruct position; simpl; [by rewrite <- Permutation_middle|].
  rewrite <- !Permutation_middle. apply Permutation_swap.
Qed.

Lemma NoDup_same_id ops x y : NoDup (map o_id ops) -> x ∈ ops -> y ∈ ops -> o_id x = o_id y -> x = y.
Proof.
  intros Hn Hx Hy E. apply list_elem_of_lookup in Hx as [i Hi]. apply list_elem_of_lookup in Hy as [j Hj].
  assert (i = j) as ->; [|congruence].
  eapply NoDup_lookup; [exact Hn| |]; rewrite list_lookup_fmap, ?Hi, ?Hj; simpl; [done|congruence].
Qed.

(** Dragging a rule onto another never loses or copies a rule, and when
    both exist it takes the rule out and puts it next to the target, on the
    side asked for, the other rules keeping their order. *)
Theorem reorder_moves_next_to ops sourceId targetId position :
  reorderOperations ops sourceId targetId position ≡ₚ ops /\
  (forall s t, NoDup (map o_id ops) -> s ∈ ops -> t ∈ ops -> o_id s = sourceId -> o_id t = targetId ->
     sourceId <> targetId -> sourceId <> [] -> targetId <> [] ->
     exists l1 l2, base.filter (fun o => o_id o <> sourceId) ops = l1 ++ t :: l2 /\
       reorderOperations ops sourceId targetId position = l1 ++ placed position s t ++ l2).
Proof.
  destruct (reorder_cases ops sourceId targetId position)
    as [[-> Hwhy] |(a1 & s & a2 & l1 & t & l2 & -> & Hl & Hs & Ht & ->)]; split.
  - done.
  - intros s t _ Hs Ht Es Et Hne He1 He2. rewrite !Forall_forall in Hwhy. exfalso.
    destruct Hwhy as [?|[?|[?|[H|H]]]]; [done|done|done|exact (H s Hs Es)|exact (H t Ht Et)].
  - by apply placed_permutation.
  - intros s' t' Hn Hs' Ht' Es Et _ _ _.
    assert (Hto : t ∈ a1 ++ s :: a2).
    { assert (t ∈ a1 ++ a2) by (rewrite Hl; set_solver). set_solver. }
    assert (s' = s) as -> by (eapply NoDup_same_id; [exact Hn|done|set_solver|congruence]).
    assert (t' = t) as -> by (eapply NoDup_same_id; [exact Hn|done|exact Hto|congruence]).
    exists l1, l2. split; [|done]. rewrite <- Hl. rewrite map_app in Hn. simpl in Hn.
    apply NoDup_app in Hn as (_ & Hd & Hn2). apply NoDup_cons in Hn2 as [Hs2 _].
    assert (Hk : Forall (fun o => o_id o <> sourceId) a1 /\ Forall (fun o => o_id o <> sourceId) a2).
    { split; apply Forall_forall; intros o Ho E.
      - apply (Hd (o_id o)); [by apply list_elem_of_fmap_2|]. rewrite E, <- Hs. set_solver.
      - apply Hs2. rewrite Hs, <- E. by apply list_elem_of_fmap_2. }
    rewrite filter_app, filter_cons_False by (intros HH; by apply HH). by rewrite !filter_all by tauto.
Qed.

Lemma reorder_moves_next_to_witness :
  let o id := mkOperation id [] [] (js "set") [] [] [] false (js "OR") [] in
  exists l1 l2, base.filter (fun x => o_id x <> js "a") [o (js "a"); o (js "b"); o (js "c")] = l1 ++ o (js "c") :: l2 /\
    reorderOperations [o (js "a"); o (js "b"); o (js "c")] (js "a") (js "c") After = l1 ++ [o (js "c"); o (js "a")] ++ l2.
Proof.
  intros o. apply (proj2 (reorder_moves_next_to [o (js "a"); o (js "b"); o (js "c")] (js "a") (js "c") After)
    (o (js "a")) (o (js "c"))); try done; try (apply (bool_decide_unpack _); vm_compute; done).
  - apply list_elem_of_In. simpl. auto.
  - apply list_elem_of_In. simpl. auto.
Defined.

(** ** Synchronised fields *)
Lemma take_while_index (c : Z) (p v : jsstr) : no_char c p = true -> index_of [c] (p ++ c :: v) = Some (length p).
Proof.
  intros Hp. induction p as [|x p IH]; simpl in *.
  - unfold starts_with. simpl. by rewrite Z.eqb_refl.
  - bool_to_prop. unfold starts_with. simpl. destruct (Z.eqb_spec c x); [congruence|]. by rewrite IH.
Qed.

(** The editor of a synchronised field reads back the type and the key it
    has written; a blank key leaves nothing. *)
Theorem sync_target_roundtrip type key :
  parseSyncTargetSpec (buildSyncTargetSpec type key) =
  if bool_decide (trim key = []) then (js "json", [])
  else (if bool_decide (type = js "header") then js "header" else js "json", trim key).
Proof.
  unfold buildSyncTargetSpec. destruct (trim key) as [|x r] eqn:E; [done|].
  rewrite (bool_decide_eq_false_2 (x :: r = [])) by done. cbv zeta.
  set (ty := if bool_decide (type = js "header") then js "header" else js "json").
  assert (Hty : ty = js "header" \/ ty = js "json") by (unfold ty; case_bool_decide; auto).
  assert (Ht : trim (ty ++ [colon] ++ x :: r) = ty ++ [colon] ++ x :: r).
  { apply trim_trimmed. pose proof (trimmed_trim key) as Hk. rewrite E in Hk. unfold trimmed in *.
    rewrite !rev_app_distr. apply andb_true_iff in Hk as [_ Hk].
    destruct (rev (x :: r)) as [|y s] eqn:Er; [by apply (f_equal length) in Er; rewrite length_rev in Er|].
    rewrite <- (assoc_L (++)). apply andb_true_iff. split; [by destruct Hty as [-> | ->]|exact Hk]. }
  unfold parseSyncTargetSpec. rewrite Ht.
  assert (Hi : index_of [colon] (ty ++ [colon] ++ x :: r) = Some (length ty)).
  { apply (take_while_index colon ty (x :: r)). by destruct Hty as [-> | ->]. }
  destruct (ty ++ [colon] ++ x :: r) as [|z w] eqn:Ez; [by destruct ty|]. rewrite Hi, <- Ez. clear Ez Hi.
  rewrite take_app_length. change ([colon] ++ x :: r) with ([colon] ++ (x :: r)). rewrite (assoc_L (++)).
  replace (S (length ty)) with (length (ty ++ [colon])) by (rewrite length_app; simpl; lia).
  rewrite drop_app_length. rewrite <- E, trim_idemp. by destruct Hty as [-> | ->].
Qed.

(** ** Custom errors *)

Lemma status_or_400_idemp n : status_or_400 (status_or_400 n) = status_or_400 n.
Proof.
  unfold status_or_400 at 2 3. destruct (num_is_integer n && _ && _) eqn:E; [|vm_compute; reflexivity].
  unfold status_or_400. by rewrite E.
Qed.

Lemma trim_stringify_object ps : trim (json_stringify (JObj ps)) = json_stringify (JObj ps).
Proof.
  unfold json_stringify. cbn [stringify].
  destruct (json_wrap_bracketed 123 125 [] [] (map (fun p => json_quote p.1 ++ [58] ++ [] ++ stringify [] ([] ++ []) p.2) ps)) as [m ->].
  by apply trim_bracketed.
Qed.

Lemma stringify_object_nonempty ps : exists c r, json_stringify (JObj ps) = c :: r.
Proof.
  unfold json_stringify. cbn [stringify].
  destruct (json_wrap_bracketed 123 125 [] [] (map (fun p => json_quote p.1 ++ [58] ++ [] ++ stringify [] ([] ++ []) p.2) ps)) as [m ->].
  eauto.
Qed.

(** A field that is written only when it is not empty is read back as it was. *)
Lemma string_or_written s :
  trim (string_or [] (if nonempty (trim s) then Some (JStr (trim s)) else None)) = trim s.
Proof. unfold nonempty. destruct (trim s) eqn:E; [done|]. simpl. rewrite <- E. apply trim_idemp. Qed.

Lemma string_or_string s : string_or [] (Some (JStr s)) = s.
Proof. by destruct s. Qed.

(** The payload of a full error. *)
Definition error_payload (d : ReturnErrorDraft) : list (jsstr * json) :=
  set_if (negb (re_skipRetry d)) (js "skip_retry") (JBool false)
    (set_if (nonempty (trim (re_type d))) (js "type") (JStr (trim (re_type d)))
      (set_if (nonempty (trim (re_code d))) (js "code") (JStr (trim (re_code d)))
        [(js "message", JStr (trim (re_message d))); (js "status_code", JNum (status_or_400 (re_statusCode d)))])).

Lemma error_payload_ok d :
  forallb code_unit (re_message d ++ re_code d ++ re_type d) = true ->
  num_reads_back (status_or_400 (re_statusCode d)) = true -> json_ok (JObj (error_payload d)) = true.
Proof.
  intros Hu Hn. rewrite !forallb_app in Hu. bool_to_prop. apply plain_members_ok. unfold error_payload.
  do 3 (apply plain_members_set_if; [split; vm_compute; reflexivity|intros _; first [reflexivity | apply trim_ok; assumption]|]).
  apply plain_members_cons; [split; vm_compute; reflexivity|apply trim_ok; assumption| |].
  - apply (bool_decide_unpack _). vm_compute. done.
  - apply plain_members_cons; [split; vm_compute; reflexivity|exact Hn|apply not_elem_of_nil|apply plain_members_nil].
Qed.

(** The form of a custom error reads back what it writes.  A full error
    keeps its trimmed message, code and type, its retry flag, and its status
    code where that is one from 100 to 599 (400 otherwise); a plain message
    comes back as one unless it is itself the text of a JSON object. *)
Theorem return_error_roundtrip d :
  forallb code_unit (re_message d ++ re_code d ++ re_type d) = true ->
  num_reads_back (status_or_400 (re_statusCode d)) = true ->
  parseReturnErrorDraft (buildReturnErrorValueText d) =
  if re_simpleMode d then
    match trim (re_message d), json_parse (trim (re_message d)) with
    | [], _ => returnErrorDefaults
    | m, Some (JObj _) => parseReturnErrorDraft m
    | m, _ => mkReturnError m (num_of_Z 400) [] [] true true
    end
  else mkReturnError (trim (re_message d)) (status_or_400 (re_statusCode d)) (trim (re_code d)) (trim (re_type d))
         (re_skipRetry d) false.
Proof.
  intros Hu Hn. unfold buildReturnErrorValueText. destruct (re_simpleMode d).
  { unfold parseReturnErrorDraft at 1. rewrite trim_idemp.
    destruct (trim (re_message d)) as [|x r] eqn:E; [done|].
    destruct (json_parse (x :: r)) as [[]|] eqn:J; try done.
    unfold parseReturnErrorDraft. rewrite <- E, trim_idemp, E, J. done. }
  cbv zeta. fold (error_payload d). pose proof (json_parse_stringify _ (error_payload_ok d Hu Hn)) as J.
  unfold parseReturnErrorDraft. rewrite trim_stringify_object.
  destruct (stringify_object_nonempty (error_payload d)) as (c & r & E). rewrite E in *. rewrite J. cbv zeta.
  cbn [prop]. unfold error_payload.
  f_equal.
  - payload_get. cbn [truthy_opt]. rewrite string_or_string. destruct (json_truthy (JStr (trim (re_message d)))) eqn:T.
    + apply trim_idemp.
    + unfold json_truthy in T. by destruct (trim (re_message d)).
  - payload_get. cbn [json_to_number]. apply status_or_400_idemp.
  - payload_get. apply string_or_written.
  - payload_get. apply string_or_written.
  - payload_get. by destruct (re_skipRetry d).
Qed.

Lemma return_error_roundtrip_witness :
  let d := mkReturnError (js " not allowed ") (num_of_Z 403) (js "denied") [] false false in
  parseReturnErrorDraft (buildReturnErrorValueText d) =
  mkReturnError (js "not allowed") (num_of_Z 403) (js "denied") [] false false.
Proof. intros d. rewrite (return_error_roundtrip d); vm_compute; reflexivity. Defined.

(** Every status code of the form reads back. *)
Example status_codes_read_back :
  forallb (fun n => num_reads_back (num_of_Z (Z.of_nat n))) (seq 100 500) = true.
Proof. vm_compute. reflexivity. Qed.

Lemma normalizeOperation_value now ps seed o seed' :
  normalizeOperation now (JObj ps) seed = (Some o, seed') -> o_value_text o = toValueText (map_get (js "value") ps).
Proof.
  unfold normalizeOperation, gbind, nextLocalId. cbn [prop].
  destruct (match map_get (js "conditions") ps with Some (JArr l) => gmapM (normalizeCondition now) l | _ => gret [] end (seed + 1))
    as [[cs|] z]; [|done]. by intros [= <- _].
Qed.

(** A stored rule whose value is a string that happens to be JSON text
    changes its type when the rule is opened and written again: the rule is
    written with the JSON value instead of the string. *)
Theorem string_value_retyped now ps s v seed o seed' :
  map_get (js "value") ps = Some (JStr s) -> trim s = s -> s <> [] -> json_parse s = Some v ->
  normalizeOperation now (JObj ps) seed = (Some o, seed') ->
  m_value (metaOf (str_or (o_mode o) (js "set"))) = true ->
  map_get (js "value") (operation_payload o) = Some v.
Proof.
  intros Hps Ht Hs Hp Hn Hm. apply normalizeOperation_value in Hn. rewrite Hps in Hn. simpl in Hn.
  rewrite payload_value, Hm. f_equal. unfold parseLooseValue. rewrite Hn, Ht. destruct s; [done|]. by rewrite Hp.
Qed.

Lemma string_value_retyped_witness :
  let ps := [(js "mode", JStr (js "set")); (js "path", JStr (js "user")); (js "value", JStr (js "123"))] in
  let o := mkOperation (js "po_0_5") [] (js "user") (js "set") [] [] (js "123") false (js "OR") [] in
  map_get (js "value") (operation_payload o) = Some (JNum (num_of_Z 123)).
Proof.
  intros ps o. apply (string_value_retyped (fun _ => 0) ps (js "123") (JNum (num_of_Z 123)) 5 o 6); try (vm_compute; reflexivity).
  vm_compute. discriminate.
Defined.

(** ** Pruned objects *)
Lemma parseLooseValue_trim s : parseLooseValue (trim s) = parseLooseValue s.
Proof. unfold parseLooseValue. by rewrite trim_idemp. Qed.

Lemma prune_condition_ok r : condition_ok r = true -> json_ok (prune_condition r) = true.
Proof.
  intros Hr. unfold condition_ok in Hr. bool_to_prop. unfold prune_condition. cbv zeta. apply plain_members_ok.
  rewrite parseLooseValue_trim. pose proof (parseLooseValue_ok _ H0) as Hv.
  do 3 (apply plain_members_set_if; [split; vm_compute; reflexivity|intros _; first [reflexivity|assumption]|]).
  rewrite H1. apply mode_units in H1; [|vm_compute; reflexivity].
  apply plain_members_cons; [split; vm_compute; reflexivity|apply trim_ok; assumption| |].
  - apply (bool_decide_unpack _). vm_compute. done.
  - apply plain_members_cons; [split; vm_compute; reflexivity|exact H1|apply not_elem_of_nil|apply plain_members_nil].
Qed.

(** A written rule is read back like a condition. *)
Lemma normalize_prune_condition now r :
  condition_ok r = true ->
  succeeds (normalizePruneRule now (prune_condition r)) (fun r' => erase_condition r' = canonical_condition r).
Proof.
  intros Hr. unfold condition_ok in Hr. bool_to_prop. unfold normalizePruneRule, prune_condition, canonical_condition.
  rewrite (mode_nonempty_str CONDITION_MODE_VALUES) by (done || vm_compute; reflexivity). cbv zeta.
  apply (succeeds_bind _ _ (fun _ => True)); [by apply succeeds_next|]. intros id _. apply succeeds_ret.
  unfold erase_condition, prop. cbn [c_path c_mode c_value_text c_invert c_pass_missing_key].
  rewrite H1. f_equal; payload_get.
  - reflexivity.
  - by rewrite mode_or_has.
  - rewrite parseLooseValue_trim. unfold parseLooseValue, nonempty. by destruct (trim (c_value_text r)).
  - by destruct (c_invert r).
  - by destruct (c_pass_missing_key r).
Qed.

Lemma normalize_prune_conditions now rules :
  forallb condition_ok rules = true ->
  succeeds (gmapM (normalizePruneRule now) (map prune_condition rules))
    (fun l => map erase_condition l = map canonical_condition rules).
Proof.
  induction rules as [|r rules IH]; simpl; intros H; [by apply succeeds_ret|]. bool_to_prop.
  apply (succeeds_bind _ _ _ _ (normalize_prune_condition now r H)). intros r' Hr'.
  apply (succeeds_bind _ _ _ _ (IH H0)). intros l Hl. apply succeeds_ret. simpl. by rewrite Hr', Hl.
Qed.

Definition kept_rules (d : PruneObjectsDraft) : list ParamOverrideCondition :=
  base.filter (fun r => blank (c_path r) = false) (pr_rules d).

Definition logic_is_or (d : PruneObjectsDraft) : bool :=
  bool_decide (ascii_upper (str_or (pr_logic d) (js "AND")) = js "OR").

(** The draft that an advanced draft becomes when it is written and read. *)
Definition prune_result (d : PruneObjectsDraft) (d' : PruneObjectsDraft) : Prop :=
  if bool_decide (trim (pr_typeText d) = []) && bool_decide (kept_rules d = []) then
    d' = mkPrune false [] (js "AND") true []
  else
    pr_simpleMode d' = negb (logic_is_or d || negb (pr_recursive d) || negb (bool_decide (kept_rules d = []))) /\
    pr_typeText d' = trim (pr_typeText d) /\
    pr_logic d' = (if logic_is_or d then js "OR" else js "AND") /\
    pr_recursive d' = pr_recursive d /\
    map erase_condition (pr_rules d') = map canonical_condition (kept_rules d).

Definition prune_payload (d : PruneObjectsDraft) : list (jsstr * json) :=
  set_if (negb (bool_decide (map prune_condition (kept_rules d) = []))) (js "conditions") (JArr (map prune_condition (kept_rules d)))
    (set_if (negb (pr_recursive d)) (js "recursive") (JBool false)
      (set_if (logic_is_or d) (js "logic") (JStr (js "OR"))
        (set_if (nonempty (trim (pr_typeText d))) (js "type") (JStr (trim (pr_typeText d))) []))).

Lemma build_prune_advanced d :
  pr_simpleMode d = false ->
  buildPruneObjectsValueText d =
  if bool_decide (trim (pr_typeText d) = []) && bool_decide (kept_rules d = [])
  then json_stringify (JObj [(js "logic", JStr (js "AND"))]) else json_stringify (JObj (prune_payload d)).
Proof.
  intros Hd. unfold buildPruneObjectsValueText. rewrite Hd. cbv zeta.
  fold (kept_rules d) (logic_is_or d). fold (prune_payload d).
  assert (E1 : map_has (js "type") (prune_payload d) = nonempty (trim (pr_typeText d))).
  { unfold map_has, prune_payload. payload_get. by destruct (nonempty _). }
  assert (E2 : map_has (js "conditions") (prune_payload d) = negb (bool_decide (kept_rules d = []))).
  { unfold map_has, prune_payload. payload_get. by destruct (kept_rules d). }
  rewrite E1, E2. unfold nonempty. by rewrite !negb_involutive.
Qed.

Lemma prune_payload_ok d :
  forallb code_unit (pr_typeText d) = true -> forallb condition_ok (kept_rules d) = true ->
  json_ok (JObj (prune_payload d)) = true.
Proof.
  intros Ht Hr. apply plain_members_ok. unfold prune_payload.
  assert (Hc : json_ok (JArr (map prune_condition (kept_rules d))) = true).
  { simpl. apply forallb_forall. intros v Hv%list_elem_of_In. apply list_elem_of_fmap in Hv as (r & -> & Hin).
    apply prune_condition_ok. rewrite forallb_forall in Hr. apply Hr. by apply list_elem_of_In. }
  do 4 (apply plain_members_set_if; [split; vm_compute; reflexivity
    |intros _; first [exact Hc | reflexivity | apply trim_ok; assumption]|]).
  apply plain_members_nil.
Qed.

Lemma filter_objects rules :
  base.filter (fun v => is_object v = true) (map prune_condition rules) = map prune_condition rules.
Proof. apply filter_all, Forall_forall. by intros v (r & -> & _)%list_elem_of_fmap. Qed.

(** The form of a pruning rule, in its advanced mode: what it writes it
    reads back as [prune_result] says.  The type, the logic, the recursion flag
    and the conditions with a path survive; the mode itself survives only when
    one of the advanced settings differs from its default, and a draft with
    neither a type nor a condition is reset. *)
Theorem prune_draft_roundtrip now d :
  pr_simpleMode d = false -> forallb code_unit (pr_typeText d) = true -> forallb condition_ok (kept_rules d) = true ->
  forall seed, exists d' seed', parsePruneObjectsDraft now (buildPruneObjectsValueText d) seed = (Some d', seed') /\ prune_result d d'.
Proof.
  intros Hd Ht Hr. change (succeeds (parsePruneObjectsDraft now (buildPruneObjectsValueText d)) (prune_result d)).
  rewrite build_prune_advanced by done. unfold prune_result.
  destruct (bool_decide (trim (pr_typeText d) = []) && bool_decide (kept_rules d = [])) eqn:Hnone.
  { intros seed. eexists _, _. split; [vm_compute; reflexivity|done]. }
  pose proof (json_parse_stringify _ (prune_payload_ok d Ht Hr)) as J.
  unfold parsePruneObjectsDraft. rewrite trim_stringify_object.
  destruct (stringify_object_nonempty (prune_payload d)) as (c & r & E). rewrite E in *. rewrite J. cbv zeta. cbn [prop].
  assert (F1 : map_get (js "where") (prune_payload d) = None) by (unfold prune_payload; payload_get; reflexivity).
  assert (F2 : map_get (js "conditions") (prune_payload d) =
    if bool_decide (kept_rules d = []) then None else Some (JArr (map prune_condition (kept_rules d)))).
  { unfold prune_payload. payload_get. by destruct (kept_rules d). }
  assert (F3 : map_get (js "type") (prune_payload d) =
    if nonempty (trim (pr_typeText d)) then Some (JStr (trim (pr_typeText d))) else None)
    by (unfold prune_payload; payload_get; reflexivity).
  assert (F4 : map_get (js "logic") (prune_payload d) = if logic_is_or d then Some (JStr (js "OR")) else None)
    by (unfold prune_payload; payload_get; reflexivity).
  assert (F5 : map_get (js "recursive") (prune_payload d) = if pr_recursive d then None else Some (JBool false)).
  { unfold prune_payload. payload_get. by destruct (pr_recursive d). }
  rewrite F1, F2, F3, F4, F5.
  apply (succeeds_bind _ _ (fun l => l = [])); [by apply succeeds_ret|]. intros l ->.
  apply (succeeds_bind _ _ (fun l => map erase_condition l = map canonical_condition (kept_rules d))).
  { case_bool_decide as K; [apply succeeds_ret; by rewrite K|]. rewrite filter_objects. by apply normalize_prune_conditions. }
  intros rules Hrules. apply succeeds_ret. cbn [pr_simpleMode pr_typeText pr_logic pr_recursive pr_rules].
  split_and!.
  - destruct (logic_is_or d), (pr_recursive d), (bool_decide (kept_rules d = [])); reflexivity.
  - unfold nonempty. destruct (trim (pr_typeText d)) as [|x s] eqn:Et; [done|]. simpl. rewrite <- Et. apply trim_idemp.
  - by destruct (logic_is_or d).
  - by destruct (pr_recursive d).
  - exact Hrules.
Qed.

Lemma prune_draft_roundtrip_witness :
  let d := mkPrune false (js "thinking ") (js "OR") true [mkCondition (js "r") (js " role") (js "gt") (js "2") true false] in
  exists d' seed', parsePruneObjectsDraft (fun _ => 0) (buildPruneObjectsValueText d) 7 = (Some d', seed') /\ prune_result d d'.
Proof. intros d. apply (prune_draft_roundtrip (fun _ => 0) d); vm_compute; reflexivity. Defined.
