(* ===== verification/ParamOverrideEditor.v ===== *)
(** * The editor of parameter override rules

    Models the component [ParamOverrideEditorDialog] of
    [src/web/default/src/features/channels/components/dialogs/param-override-editor-dialog.tsx]:
    its state, its handlers, the effects that run after them, and the rule form
    it shows.  A handler is a function on the state; [dispatch] runs the handler
    of an action and then the effects, as a render does. *)
From S2P Require Import Prelude JsString JsNumber Json JsonText JsObject ParamOverride.
Local Open Scope Z_scope.
Local Open Scope gen_scope.

#[local] Arguments js : simpl never.

(** ** Templates *)
Definition jstr (s : jsstr) : json := JStr s.

Definition LEGACY_TEMPLATE : list (jsstr * json) :=
  [(js "temperature", JNum num_zero); (js "max_tokens", JNum (num_of_Z 1000))].

Definition template_condition (path mode value : jsstr) : json :=
  JObj [(js "path", JStr path); (js "mode", JStr mode); (js "value", JStr value)].

Definition OPERATION_TEMPLATE : list json :=
  [JObj [(js "description", jstr (js "Set default temperature for openai/* models.")); (js "path", jstr (js "temperature"));
         (js "mode", jstr (js "set")); (js "value", JNum (num_of_string (js "0.7")));
         (js "conditions", JArr [template_condition (js "model") (js "prefix") (js "openai/")]); (js "logic", jstr (js "AND"))]].

Definition HEADER_PASSTHROUGH_TEMPLATE : list json :=
  [JObj [(js "description", jstr (js "Pass through X-Request-Id header to upstream.")); (js "mode", jstr (js "pass_headers"));
         (js "value", JArr [jstr (js "X-Request-Id")]); (js "keep_origin", JBool true)]].

Definition GEMINI_IMAGE_4K_TEMPLATE : list json :=
  [JObj [(js "description", jstr (js "Set imageSize to 4K when model contains gemini/image and ends with 4k."));
         (js "mode", jstr (js "set")); (js "path", jstr (js "generationConfig.imageConfig.imageSize")); (js "value", jstr (js "4K"));
         (js "conditions", JArr [template_condition (js "original_model") (js "contains") (js "gemini");
                                 template_condition (js "original_model") (js "contains") (js "image");
                                 template_condition (js "original_model") (js "suffix") (js "4k")]);
         (js "logic", jstr (js "AND"))]].

Definition CODEX_CLI_HEADER_PASSTHROUGH_HEADERS : list jsstr :=
  [js "Originator"; js "Session_id"; js "Thread_id"; js "Session-Id"; js "Thread-Id"; js "X-Client-Request-Id"; js "User-Agent";
   js "X-Codex-Beta-Features"; js "X-Codex-Turn-State"; js "X-Codex-Turn-Metadata"; js "X-Codex-Window-Id";
   js "X-Codex-Parent-Thread-Id"; js "X-OpenAI-Subagent"; js "X-OpenAI-Memgen-Request";
   js "X-ResponsesAPI-Include-Timing-Metrics"; js "X-OpenAI-Internal-Codex-Responses-Lite"].

Definition CLAUDE_CLI_HEADER_PASSTHROUGH_HEADERS : list jsstr :=
  [js "X-Stainless-Arch"; js "X-Stainless-Lang"; js "X-Stainless-Os"; js "X-Stainless-Package-Version";
   js "X-Stainless-Retry-Count"; js "X-Stainless-Runtime"; js "X-Stainless-Runtime-Version"; js "X-Stainless-Timeout";
   js "User-Agent"; js "X-App"; js "Anthropic-Beta"; js "Anthropic-Dangerous-Direct-Browser-Access"; js "Anthropic-Version"].

Definition buildPassHeadersTemplate (headers : list jsstr) : list json :=
  [JObj [(js "mode", jstr (js "pass_headers")); (js "value", JArr (map jstr headers)); (js "keep_origin", JBool true)]].

Definition CODEX_CLI_HEADER_PASSTHROUGH_TEMPLATE : list json :=
  [JObj [(js "mode", jstr (js "pass_headers")); (js "value", JArr (map jstr CODEX_CLI_HEADER_PASSTHROUGH_HEADERS));
         (js "keep_origin", JBool true)]].

Definition CLAUDE_CLI_HEADER_PASSTHROUGH_TEMPLATE : list json := buildPassHeadersTemplate CLAUDE_CLI_HEADER_PASSTHROUGH_HEADERS.

(** The beta tokens that Bedrock drops, and those it keeps or renames, in the order of the table. *)
Definition drop_token (s : jsstr) : jsstr * json := (s, JNull).
Definition keep_token (s : jsstr) : jsstr * json := (s, JStr s).

Definition bedrock_tokens : list (jsstr * json) :=
  [(js "advanced-tool-use-2025-11-20", JStr (js "tool-search-tool-2025-10-19")); drop_token (js "bash_20241022"); drop_token (js "bash_20250124");
   drop_token (js "code-execution-2025-08-25"); keep_token (js "compact-2026-01-12"); keep_token (js "computer-use-2025-01-24");
   keep_token (js "computer-use-2025-11-24"); keep_token (js "context-1m-2025-08-07"); keep_token (js "context-management-2025-06-27");
   drop_token (js "effort-2025-11-24"); drop_token (js "fast-mode-2026-02-01"); drop_token (js "files-api-2025-04-14");
   drop_token (js "fine-grained-tool-streaming-2025-05-14"); keep_token (js "interleaved-thinking-2025-05-14");
   drop_token (js "mcp-client-2025-11-20"); drop_token (js "mcp-client-2025-04-04"); drop_token (js "mcp-servers-2025-12-04");
   drop_token (js "output-128k-2025-02-19"); drop_token (js "structured-output-2024-03-01"); drop_token (js "prompt-caching-scope-2026-01-05");
   drop_token (js "skills-2025-10-02"); drop_token (js "structured-outputs-2025-11-13"); drop_token (js "text_editor_20241022");
   drop_token (js "text_editor_20250124"); drop_token (js "token-efficient-tools-2025-02-19"); keep_token (js "tool-search-tool-2025-10-19");
   drop_token (js "web-fetch-2025-09-10"); drop_token (js "web-search-2025-03-05"); drop_token (js "oauth-2025-04-20")].

Definition AWS_BEDROCK_ANTHROPIC_COMPAT_TEMPLATE : list json :=
  [JObj [(js "description", jstr (js "Normalize anthropic-beta header tokens for Bedrock compatibility."));
         (js "mode", jstr (js "set_header")); (js "path", jstr (js "anthropic-beta")); (js "value", JObj bedrock_tokens)];
   JObj [(js "description", jstr (js "Remove all tools[*].custom.input_examples before upstream relay."));
         (js "mode", jstr (js "delete")); (js "path", jstr (js "tools.*.custom.input_examples"))]].

(** A preset: the operations of its payload, or the object of a legacy one. *)
Inductive Preset := OperationsPreset (label : jsstr) (operations : list json) | LegacyPreset (label : jsstr) (payload : list (jsstr * json)).

Definition TEMPLATE_PRESET_CONFIG : list (jsstr * Preset) :=
  [(js "operations_default", OperationsPreset (js "New Format Template") OPERATION_TEMPLATE);
   (js "legacy_default", LegacyPreset (js "Legacy Format Template") LEGACY_TEMPLATE);
   (js "pass_headers_auth", OperationsPreset (js "Header Passthrough (X-Request-Id)") HEADER_PASSTHROUGH_TEMPLATE);
   (js "gemini_image_4k", OperationsPreset (js "Gemini Image 4K") GEMINI_IMAGE_4K_TEMPLATE);
   (js "claude_cli_headers_passthrough", OperationsPreset (js "Claude CLI Header Passthrough") CLAUDE_CLI_HEADER_PASSTHROUGH_TEMPLATE);
   (js "codex_cli_headers_passthrough", OperationsPreset (js "Codex CLI Header Passthrough") CODEX_CLI_HEADER_PASSTHROUGH_TEMPLATE);
   (js "aws_bedrock_anthropic_beta_override", OperationsPreset (js "AWS Bedrock Claude Compat") AWS_BEDROCK_ANTHROPIC_COMPAT_TEMPLATE)].

(** The key is one of the options of the select. *)
Definition presetOf (key : jsstr) : Preset :=
  default (OperationsPreset (js "New Format Template") OPERATION_TEMPLATE) (map_get key TEMPLATE_PRESET_CONFIG).

(** ** Patches: the fields a form sets *)
Record OperationPatch := mkOpPatch {
  p_description : option jsstr; p_path : option jsstr; p_mode : option jsstr; p_from : option jsstr; p_to : option jsstr;
  p_value_text : option jsstr; p_keep_origin : option bool; p_logic : option jsstr
}.

Definition patch_operation (p : OperationPatch) (o : ParamOverrideOperation) : ParamOverrideOperation :=
  mkOperation (o_id o) (default (o_description o) (p_description p)) (default (o_path o) (p_path p))
    (default (o_mode o) (p_mode p)) (default (o_from o) (p_from p)) (default (o_to o) (p_to p))
    (default (o_value_text o) (p_value_text p)) (default (o_keep_origin o) (p_keep_origin p))
    (default (o_logic o) (p_logic p)) (o_conditions o).

Record ConditionPatch := mkCondPatch {
  cp_path : option jsstr; cp_mode : option jsstr; cp_value_text : option jsstr; cp_invert : option bool; cp_pass_missing_key : option bool
}.

Definition patch_condition (p : ConditionPatch) (c : ParamOverrideCondition) : ParamOverrideCondition :=
  mkCondition (c_id c) (default (c_path c) (cp_path p)) (default (c_mode c) (cp_mode p))
    (default (c_value_text c) (cp_value_text p)) (default (c_invert c) (cp_invert p))
    (default (c_pass_missing_key c) (cp_pass_missing_key p)).

Record ReturnErrorPatch := mkErrPatch {
  ep_message : option jsstr; ep_statusCode : option num; ep_code : option jsstr; ep_type : option jsstr;
  ep_skipRetry : option bool; ep_simpleMode : option bool
}.

Definition patch_return_error (p : ReturnErrorPatch) (d : ReturnErrorDraft) : ReturnErrorDraft :=
  mkReturnError (default (re_message d) (ep_message p)) (default (re_statusCode d) (ep_statusCode p))
    (default (re_code d) (ep_code p)) (default (re_type d) (ep_type p)) (default (re_skipRetry d) (ep_skipRetry p))
    (default (re_simpleMode d) (ep_simpleMode p)).

Record PrunePatch := mkPrunePatch {
  pp_simpleMode : option bool; pp_typeText : option jsstr; pp_logic : option jsstr; pp_recursive : option bool
}.

Definition patch_prune (p : PrunePatch) (d : PruneObjectsDraft) : PruneObjectsDraft :=
  mkPrune (default (pr_simpleMode d) (pp_simpleMode p)) (default (pr_typeText d) (pp_typeText p))
    (default (pr_logic d) (pp_logic p)) (default (pr_recursive d) (pp_recursive p)) (pr_rules d).

Definition with_value_text (s : jsstr) (o : ParamOverrideOperation) : ParamOverrideOperation :=
  mkOperation (o_id o) (o_description o) (o_path o) (o_mode o) (o_from o) (o_to o) s (o_keep_origin o) (o_logic o) (o_conditions o).

Definition with_conditions (cs : list ParamOverrideCondition) (o : ParamOverrideOperation) : ParamOverrideOperation :=
  mkOperation (o_id o) (o_description o) (o_path o) (o_mode o) (o_from o) (o_to o) (o_value_text o) (o_keep_origin o) (o_logic o) cs.

Definition with_rules (rules : list ParamOverrideCondition) (d : PruneObjectsDraft) : PruneObjectsDraft :=
  mkPrune (pr_simpleMode d) (pr_typeText d) (pr_logic d) (pr_recursive d) rules.

(** ** State *)
Inductive Event := ToastError (message : jsstr) | Saved (text : jsstr) | OpenChange (open : bool).

Record Editor := mkEditor {
  editMode : EditMode; visualMode : VisualMode; legacyValue : jsstr; operations : list ParamOverrideOperation;
  jsonText : jsstr; jsonError : jsstr; operationSearch : jsstr; selectedOperationId : jsstr;
  expandedConditions : list (jsstr * bool); draggedOperationId : jsstr; dragOverOperationId : jsstr;
  dragOverPosition : Position; templatePresetKey : jsstr;
  shownPrune : option PruneObjectsDraft;  (* the memo [pruneObjectsDraft] of the last render *)
  localIdSeed : Z; crashed : bool; events : list Event
}.

Section Editor.
Implicit Types e : Editor.

Definition set_core (em : EditMode) (vm : VisualMode) (lv : jsstr) (ops : list ParamOverrideOperation) (jt je : jsstr) e : Editor :=
  mkEditor em vm lv ops jt je (operationSearch e) (selectedOperationId e) (expandedConditions e) (draggedOperationId e)
    (dragOverOperationId e) (dragOverPosition e) (templatePresetKey e) (shownPrune e) (localIdSeed e) (crashed e) (events e).

Definition set_ui (search sel : jsstr) (ex : list (jsstr * bool)) (dr over : jsstr) (pos : Position) (preset : jsstr) e : Editor :=
  mkEditor (editMode e) (visualMode e) (legacyValue e) (operations e) (jsonText e) (jsonError e) search sel ex dr over pos preset
    (shownPrune e) (localIdSeed e) (crashed e) (events e).

Definition set_sys (shown : option PruneObjectsDraft) (seed : Z) (cr : bool) (ev : list Event) e : Editor :=
  mkEditor (editMode e) (visualMode e) (legacyValue e) (operations e) (jsonText e) (jsonError e) (operationSearch e)
    (selectedOperationId e) (expandedConditions e) (draggedOperationId e) (dragOverOperationId e) (dragOverPosition e)
    (templatePresetKey e) shown seed cr ev.

Definition setEditMode m e := set_core m (visualMode e) (legacyValue e) (operations e) (jsonText e) (jsonError e) e.
Definition setVisualMode m e := set_core (editMode e) m (legacyValue e) (operations e) (jsonText e) (jsonError e) e.
Definition setLegacyValue v e := set_core (editMode e) (visualMode e) v (operations e) (jsonText e) (jsonError e) e.
Definition setOperations ops e := set_core (editMode e) (visualMode e) (legacyValue e) ops (jsonText e) (jsonError e) e.
Definition setJsonText s e := set_core (editMode e) (visualMode e) (legacyValue e) (operations e) s (jsonError e) e.
Definition setJsonError s e := set_core (editMode e) (visualMode e) (legacyValue e) (operations e) (jsonText e) s e.
Definition setOperationSearch s e :=
  set_ui s (selectedOperationId e) (expandedConditions e) (draggedOperationId e) (dragOverOperationId e) (dragOverPosition e) (templatePresetKey e) e.
Definition setSelectedOperationId s e :=
  set_ui (operationSearch e) s (expandedConditions e) (draggedOperationId e) (dragOverOperationId e) (dragOverPosition e) (templatePresetKey e) e.
Definition setExpandedConditions x e :=
  set_ui (operationSearch e) (selectedOperationId e) x (draggedOperationId e) (dragOverOperationId e) (dragOverPosition e) (templatePresetKey e) e.
Definition setDrag d o p e :=
  set_ui (operationSearch e) (selectedOperationId e) (expandedConditions e) d o p (templatePresetKey e) e.
Definition setTemplatePresetKey k e :=
  set_ui (operationSearch e) (selectedOperationId e) (expandedConditions e) (draggedOperationId e) (dragOverOperationId e) (dragOverPosition e) k e.
Definition setSeed s e := set_sys (shownPrune e) s (crashed e) (events e) e.
Definition emit ev e := set_sys (shownPrune e) (localIdSeed e) (crashed e) (events e ++ [ev]) e.
Definition setShown p e := set_sys p (localIdSeed e) (crashed e) (events e) e.

(** Runs a program that draws identifiers; when it throws, [onThrow] says what
    becomes of the state. *)
Definition with_ids {A} (m : gen A) (k : A -> Editor -> Editor) (onThrow : Editor -> Editor) e : Editor :=
  match m (localIdSeed e) with
  | (Some a, seed) => k a (setSeed seed e)
  | (None, seed) => onThrow (setSeed seed e)
  end.

(** An exception during rendering or an effect takes the component down; one in
    an event handler leaves the state as it is. *)
Definition crash e : Editor := set_sys (shownPrune e) (localIdSeed e) true (events e) e.
Definition ignore e : Editor := e.

Context (now : Z -> Z) (t_line : jsstr -> Z -> jsstr) (t : jsstr -> jsstr) (toLowerCase : jsstr -> jsstr).

(** ** Effects *)

(** The effect that opens the dialog. *)
Definition openEffect (value : jsstr) e : Editor :=
  with_ids (parseInitialState now value)
    (fun st e =>
       setTemplatePresetKey (if decide (s_visualMode st = Legacy) then js "legacy_default" else js "operations_default")
         (setDrag [] [] Before (setExpandedConditions []
           (setSelectedOperationId (match s_operations st with o :: _ => o_id o | [] => [] end)
             (setOperationSearch []
               (set_core (s_editMode st) (s_visualMode st) (s_legacyValue st) (s_operations st) (s_jsonText st) (s_jsonError st) e))))))
    crash e.

(** The effect that keeps the selection on an existing operation. *)
Definition selectEffect e : Editor :=
  match operations e with
  | [] => setSelectedOperationId [] e
  | o :: _ => if existsb (has_id (selectedOperationId e)) (operations e) then e else setSelectedOperationId (o_id o) e
  end.

(** ** What is shown *)
Definition selectedOperation e : option ParamOverrideOperation := find (has_id (selectedOperationId e)) (operations e).
Definition selectedOperationIndex e : Z := match find_index (has_id (selectedOperationId e)) (operations e) with Some i => Z.of_nat i | None => -1 end.

Definition templatePresetOptions : list (jsstr * jsstr) :=
  map (fun p => (p.1, match p.2 with OperationsPreset l _ | LegacyPreset l _ => l end)) TEMPLATE_PRESET_CONFIG.

Definition operationCount e : Z := Z.of_nat (length (nonblank_ops (operations e))).

Definition searchableText (op : ParamOverrideOperation) : jsstr :=
  toLowerCase (join (js " ") (base.filter (fun s => s <> [])
    [o_description op; o_mode op; o_path op; o_from op; o_to op; o_value_text op])).

Definition filteredOperations e : list ParamOverrideOperation :=
  match toLowerCase (trim (operationSearch e)) with
  | [] => operations e
  | keyword => base.filter (fun op => includes keyword (searchableText op) = true) (operations e)
  end.

Definition returnErrorDraft e : option ReturnErrorDraft :=
  match selectedOperation e with
  | Some o => if bool_decide (o_mode o = js "return_error") then Some (parseReturnErrorDraft (o_value_text o)) else None
  | None => None
  end.

(** The memo of the prune form: it draws identifiers when it is computed. *)
Definition pruneObjectsDraft e : Editor :=
  match selectedOperation e with
  | Some o =>
      if bool_decide (o_mode o = js "prune_objects")
      then with_ids (parsePruneObjectsDraft now (o_value_text o)) (fun d => setShown (Some d)) crash e
      else setShown None e
  | None => setShown None e
  end.

(** The four most frequent modes with their counts. *)
Definition topOperationModes e : list (jsstr * Z) :=
  take 4 (js_sort (fun a b => b.2 - a.2)
    (fold_left (fun counts op =>
       let mode := str_or (o_mode op) (js "set") in map_set mode (default 0 (map_get mode counts) + 1) counts) (operations e) [])).

(** ** Handlers: operations *)

(** [prev.map((o) => (o.id === operationId ? f(o) : o))] *)
Definition map_operation (operationId : jsstr) (f : ParamOverrideOperation -> ParamOverrideOperation)
  (ops : list ParamOverrideOperation) : list ParamOverrideOperation :=
  map (fun o => if has_id operationId o then f o else o) ops.

Definition updateOperation (operationId : jsstr) (patch : OperationPatch) e : Editor :=
  setOperations (map_operation operationId (patch_operation patch) (operations e)) e.

Definition addOperation e : Editor :=
  with_ids (createDefaultOperation now)
    (fun created e => setSelectedOperationId (o_id created) (setOperations (operations e ++ [created]) e)) ignore e.

(** The object that [duplicateOperation] normalises. *)
Definition clone_source (source : ParamOverrideOperation) : json :=
  JObj [(js "description", JStr (o_description source)); (js "path", JStr (o_path source)); (js "mode", JStr (o_mode source));
        (js "value", parseLooseValue (o_value_text source)); (js "keep_origin", JBool (o_keep_origin source));
        (js "from", JStr (o_from source)); (js "to", JStr (o_to source)); (js "logic", JStr (o_logic source));
        (js "conditions", JArr (map (fun c =>
           JObj [(js "path", JStr (c_path c)); (js "mode", JStr (c_mode c)); (js "value", parseLooseValue (c_value_text c));
                 (js "invert", JBool (c_invert c)); (js "pass_missing_key", JBool (c_pass_missing_key c))]) (o_conditions source)))].

(** [eager]: React runs the updater during the call, so that the new identifier
    is known when the selection is set; otherwise the selection stays. *)
Definition duplicateOperation (eager : bool) (operationId : jsstr) e : Editor :=
  match find_index (has_id operationId) (operations e) with
  | None => e
  | Some idx =>
      match operations e !! idx with
      | None => e
      | Some source =>
          with_ids (normalizeOperation now (clone_source source))
            (fun cloned e =>
               let e := setOperations (splice_in (S idx) cloned (operations e)) e in
               if eager then setSelectedOperationId (o_id cloned) e else e) crash e
      end
  end.

Definition removeOperation (operationId : jsstr) e : Editor :=
  if bool_decide (length (operations e) <= 1)%nat
  then with_ids (createDefaultOperation now) (fun o => setOperations [o]) crash e
  else setOperations (base.filter (fun o => o_id o <> operationId) (operations e)) e.

(** ** Handlers: conditions *)
Definition addCondition (operationId : jsstr) e : Editor :=
  with_ids (createDefaultCondition now)
    (fun created e =>
       setExpandedConditions (map_set (c_id created) true (expandedConditions e))
         (setOperations (map_operation operationId (fun op => with_conditions (o_conditions op ++ [created]) op) (operations e)) e))
    ignore e.

Definition updateCondition (operationId conditionId : jsstr) (patch : ConditionPatch) e : Editor :=
  setOperations (map_operation operationId (fun op =>
    with_conditions (map (fun c => if bool_decide (c_id c = conditionId) then patch_condition patch c else c) (o_conditions op)) op)
    (operations e)) e.

Definition removeCondition (operationId conditionId : jsstr) e : Editor :=
  setOperations (map_operation operationId (fun op =>
    with_conditions (base.filter (fun c => c_id c <> conditionId) (o_conditions op)) op) (operations e)) e.

(** ** Handlers: the forms of custom errors and of pruning rules *)
Definition updateReturnErrorDraft (operationId : jsstr) (draftPatch : ReturnErrorPatch) e : Editor :=
  setOperations (map_operation operationId (fun op =>
    with_value_text (buildReturnErrorValueText (patch_return_error draftPatch (parseReturnErrorDraft (o_value_text op)))) op)
    (operations e)) e.

(** The updater draws identifiers while it parses the draft and while it changes it. *)
Definition updatePruneObjectsDraft (operationId : jsstr) (updater : PruneObjectsDraft -> gen PruneObjectsDraft) e : Editor :=
  with_ids (gmapM (fun op =>
      if has_id operationId op then
        let* draft := parsePruneObjectsDraft now (o_value_text op) in
        let* nextDraft := updater draft in
        gret (with_value_text (buildPruneObjectsValueText nextDraft) op)
      else gret op) (operations e))
    setOperations crash e.

Definition addPruneRule (operationId : jsstr) : Editor -> Editor :=
  updatePruneObjectsDraft operationId (fun draft =>
    let* rule := normalizePruneRule now (JObj []) in
    gret (mkPrune false (pr_typeText draft) (pr_logic draft) (pr_recursive draft) (pr_rules draft ++ [rule]))).

Definition updatePruneRule (operationId ruleId : jsstr) (patch : ConditionPatch) : Editor -> Editor :=
  updatePruneObjectsDraft operationId (fun draft =>
    gret (with_rules (map (fun r => if bool_decide (c_id r = ruleId) then patch_condition patch r else r) (pr_rules draft)) draft)).

Definition removePruneRule (operationId ruleId : jsstr) : Editor -> Editor :=
  updatePruneObjectsDraft operationId (fun draft =>
    gret (with_rules (base.filter (fun r => c_id r <> ruleId) (pr_rules draft)) draft)).

(** ** Handlers: drag and drop *)
Definition resetDragState e : Editor := setDrag [] [] Before e.

Definition handleDragStart (operationId : jsstr) e : Editor :=
  setSelectedOperationId operationId (setDrag operationId (dragOverOperationId e) (dragOverPosition e) e).

(** [lower]: the pointer is below the middle of the element. *)
Definition handleDragOver (operationId : jsstr) (lower : bool) e : Editor :=
  if bool_decide (draggedOperationId e = []) || bool_decide (draggedOperationId e = operationId) then e
  else setDrag (draggedOperationId e) operationId (if lower then After else Before) e.

(** [data]: the text the drag carries. *)
Definition handleDrop (operationId data : jsstr) e : Editor :=
  let sourceId := str_or (draggedOperationId e) data in
  let position := if bool_decide (dragOverOperationId e = operationId) then dragOverPosition e else Before in
  resetDragState
    (if nonempty sourceId && nonempty operationId && negb (bool_decide (sourceId = operationId))
     then setSelectedOperationId sourceId (setOperations (reorderOperations (operations e) sourceId operationId position) e)
     else e).

(** ** Handlers: modes and templates *)

(** The text of the visual form, or the message of the error it throws. *)
Definition buildVisualJson e : jsstr + jsstr :=
  match visualMode e with
  | Legacy =>
      match trim (legacyValue e) with
      | [] => inr []
      | trimmed =>
          match json_parse trimmed with
          | None => inl (t (js "Parameter override must be valid JSON format"))
          | Some (JObj ps) => inr (json_pretty (JObj ps))
          | Some _ => inl (t (js "Legacy format must be a JSON object"))
          end
      end
  | Operations => buildOperationsJson t_line (operations e) true
  end.

Definition text_of (r : jsstr + jsstr) : jsstr := match r with inl s | inr s => s end.

Definition switchToJsonMode e : Editor :=
  match editMode e with
  | JsonMode => e
  | Visual =>
      setEditMode JsonMode
        (match buildVisualJson e with
         | inr text => setJsonError [] (setJsonText text e)
         | inl message =>
             let e := emit (ToastError message) e in
             setJsonError (str_or message (t (js "Parameter configuration error")))
               (setJsonText (match visualMode e with
                             | Legacy => legacyValue e
                             | Operations => text_of (buildOperationsJson t_line (operations e) false)
                             end) e)
         end)
  end.

Definition switchToVisualMode e : Editor :=
  match editMode e with
  | Visual => e
  | JsonMode =>
      let trimmed := trim (jsonText e) in
      match trimmed with
      | [] =>
          with_ids (createDefaultOperation now)
            (fun fallback e =>
               setSelectedOperationId (o_id fallback) (set_core Visual Operations [] [fallback] (jsonText e) [] e)) ignore e
      | _ =>
          match json_parse trimmed with
          | None => emit (ToastError (t (js "Parameter override must be valid JSON format"))) e
          | Some (JObj ps) =>
              match map_get (js "operations") ps with
              | Some (JArr l) =>
                  with_ids (load_operations now l)
                    (fun nextOps e =>
                       setTemplatePresetKey (js "operations_default")
                         (setSelectedOperationId (match nextOps with o :: _ => o_id o | [] => [] end)
                           (set_core Visual Operations [] nextOps (jsonText e) [] e))) ignore e
              | _ =>
                  with_ids (createDefaultOperation now)
                    (fun fallback e =>
                       setTemplatePresetKey (js "legacy_default")
                         (setSelectedOperationId (o_id fallback)
                           (set_core Visual Legacy (json_pretty (JObj ps)) [fallback] (jsonText e) [] e))) ignore e
              end
          | Some _ => emit (ToastError (t (js "Parameter override must be a valid JSON object"))) e
          end
      end
  end.

(** The state a legacy text is shown in. *)
Definition show_legacy (text : jsstr) e : Editor :=
  with_ids (createDefaultOperation now) (fun o e => set_core Visual Legacy text [o] text [] e) ignore e.

Inductive FillMode := Fill | Append.

Definition fillTemplate (mode : FillMode) e : Editor :=
  match presetOf (templatePresetKey e) with
  | LegacyPreset _ payload =>
      match mode, visualMode e with
      | Append, Legacy =>
          match trim (legacyValue e) with
          | [] => show_legacy (json_pretty (JObj (obj_of_members payload))) e
          | trimmed =>
              match json_parse trimmed with
              | None => emit (ToastError (t (js "Current legacy JSON is invalid, cannot append"))) e
              | Some parsedCurrent => show_legacy (json_pretty (JObj (obj_of_members (payload ++ spread parsedCurrent)))) e
              end
          end
      | _, _ => show_legacy (json_pretty (JObj payload)) e
      end
  | OperationsPreset _ operationsPayload =>
      match mode with
      | Append =>
          with_ids (gmapM (normalizeOperation now) operationsPayload)
            (fun appended e =>
               let existing := match visualMode e with Operations => nonblank_ops (operations e) | Legacy => [] end in
               let nextOps := existing ++ appended in
               setSelectedOperationId (match nextOps with o :: _ => o_id o | [] => [] end)
                 (set_core Visual Operations [] (match nextOps with [] => appended | _ => nextOps end) [] [] e)) ignore e
      | Fill =>
          with_ids (load_operations now operationsPayload)
            (fun finalOps e =>
               setSelectedOperationId (match finalOps with o :: _ => o_id o | [] => [] end)
                 (set_core Visual Operations (legacyValue e) finalOps
                    (json_pretty (JObj [(js "operations", JArr operationsPayload)])) [] e)) ignore e
      end
  end.

Definition resetEditorState e : Editor :=
  with_ids (createDefaultOperation now)
    (fun fallback e =>
       setTemplatePresetKey (js "operations_default")
         (setSelectedOperationId (o_id fallback) (set_core Visual Operations [] [fallback] [] [] e))) ignore e.

Definition handleJsonChange (nextValue : jsstr) e : Editor :=
  let e := setJsonText nextValue e in
  match trim nextValue with
  | [] => setJsonError [] e
  | trimmed => setJsonError (if verifyJSON trimmed then [] else t (js "JSON format error")) e
  end.

Definition formatJson e : Editor :=
  match trim (jsonText e) with
  | [] => e
  | trimmed =>
      match json_parse trimmed with
      | None => emit (ToastError (t (js "Parameter override must be valid JSON format"))) e
      | Some v => setJsonError [] (setJsonText (json_pretty v) e)
      end
  end.

Definition visualValidationError e : jsstr :=
  match editMode e with
  | JsonMode => []
  | Visual => match buildVisualJson e with
              | inr _ => []
              | inl message => str_or message (t (js "Parameter configuration error"))
              end
  end.

(** The text to save, or the message of the error. *)
Definition save_result e : jsstr + jsstr :=
  match editMode e with
  | JsonMode =>
      match trim (jsonText e) with
      | [] => inr []
      | trimmed => match json_parse trimmed with
                   | None => inl (t (js "Parameter override must be valid JSON format"))
                   | Some v => inr (json_pretty v)
                   end
      end
  | Visual => buildVisualJson e
  end.

Definition handleSave e : Editor :=
  match save_result e with
  | inr result => emit (OpenChange false) (emit (Saved result) e)
  | inl message => emit (ToastError message) e
  end.

Definition set_all_conditions (b : bool) e : Editor :=
  match selectedOperation e with
  | None => e
  | Some o => setExpandedConditions (fold_left (fun m c => map_set (c_id c) b m) (o_conditions o) (expandedConditions e)) e
  end.

Definition expandAllConditions e : Editor := set_all_conditions true e.
Definition collapseAllConditions e : Editor := set_all_conditions false e.

(** The button that formats the value of a rule; nothing happens when it is not JSON. *)
Definition formatValue (operation : ParamOverrideOperation) e : Editor :=
  match json_parse (o_value_text operation) with
  | Some parsed =>
      setOperations (map_operation (o_id operation) (with_value_text (json_pretty parsed)) (operations e)) e
  | None => e
  end.

(** ** Actions *)
Inductive Action :=
| Open (value : jsstr)
| UpdateOperation (operationId : jsstr) (patch : OperationPatch)
| AddOperation
| DuplicateOperation (eager : bool) (operationId : jsstr)
| RemoveOperation (operationId : jsstr)
| AddCondition (operationId : jsstr)
| UpdateCondition (operationId conditionId : jsstr) (patch : ConditionPatch)
| RemoveCondition (operationId conditionId : jsstr)
| UpdateReturnErrorDraft (operationId : jsstr) (patch : ReturnErrorPatch)
| UpdatePruneObjectsDraft (operationId : jsstr) (patch : PrunePatch)
| AddPruneRule (operationId : jsstr)
| UpdatePruneRule (operationId ruleId : jsstr) (patch : ConditionPatch)
| RemovePruneRule (operationId ruleId : jsstr)
| DragStart (operationId : jsstr)
| DragOver (operationId : jsstr) (lower : bool)
| Drop (operationId data : jsstr)
| DragEnd
| SwitchToJsonMode
| SwitchToVisualMode
| FillTemplate (mode : FillMode)
| ResetEditorState
| JsonChange (nextValue : jsstr)
| FormatJson
| FormatValue (operation : ParamOverrideOperation)
| Save
| ExpandAllConditions
| CollapseAllConditions
| ExpandCondition (conditionId : jsstr) (expanded : bool)
| SelectOperation (operationId : jsstr)
| SearchOperations (text : jsstr)
| SetLegacyValue (text : jsstr)
| SetTemplatePresetKey (key : jsstr).

Definition handle (a : Action) : Editor -> Editor :=
  match a with
  | Open value => openEffect value
  | UpdateOperation id p => updateOperation id p
  | AddOperation => addOperation
  | DuplicateOperation eager id => duplicateOperation eager id
  | RemoveOperation id => removeOperation id
  | AddCondition id => addCondition id
  | UpdateCondition id cid p => updateCondition id cid p
  | RemoveCondition id cid => removeCondition id cid
  | UpdateReturnErrorDraft id p => updateReturnErrorDraft id p
  | UpdatePruneObjectsDraft id p => updatePruneObjectsDraft id (fun d => gret (patch_prune p d))
  | AddPruneRule id => addPruneRule id
  | UpdatePruneRule id rid p => updatePruneRule id rid p
  | RemovePruneRule id rid => removePruneRule id rid
  | DragStart id => handleDragStart id
  | DragOver id lower => handleDragOver id lower
  | Drop id data => handleDrop id data
  | DragEnd => resetDragState
  | SwitchToJsonMode => switchToJsonMode
  | SwitchToVisualMode => switchToVisualMode
  | FillTemplate m => fillTemplate m
  | ResetEditorState => resetEditorState
  | JsonChange s => handleJsonChange s
  | FormatJson => formatJson
  | FormatValue o => formatValue o
  | Save => handleSave
  | ExpandAllConditions => expandAllConditions
  | CollapseAllConditions => collapseAllConditions
  | ExpandCondition cid b => fun e => setExpandedConditions (map_set cid b (expandedConditions e)) e
  | SelectOperation id => setSelectedOperationId id
  | SearchOperations s => setOperationSearch s
  | SetLegacyValue s => setLegacyValue s
  | SetTemplatePresetKey k => setTemplatePresetKey (str_or k (js "operations_default"))
  end.

(** After a handler the component renders, which computes the memo of the prune
    form, and the effect on the selection runs; a changed selection renders again. *)
Definition commit e : Editor := if crashed e then e else pruneObjectsDraft (selectEffect e).

Definition dispatch (a : Action) e : Editor := if crashed e then e else commit (handle a e).

Definition initial_with (o : ParamOverrideOperation) (seed : Z) : Editor :=
  mkEditor Visual Operations [] [o] [] [] [] [] [] [] [] Before (js "operations_default") None seed false [].

(** The state after the first render, the counter standing at [seed]. *)
Definition mounted (seed : Z) : option Editor :=
  match createDefaultOperation now seed with
  | (Some o, seed') => Some (commit (initial_with o seed'))
  | (None, _) => None
  end.
End Editor.

(** ** Identifiers drawn by a program *)
Section Fresh.
Context (now : Z -> Z).

(** The identifier was drawn while the counter went from [lo] to [hi]. *)
Definition drawn (lo hi : Z) (id : jsstr) : Prop := exists n, lo <= n < hi /\ id = local_id now n.

Lemma drawn_weaken lo hi lo' hi' id : drawn lo hi id -> lo' <= lo -> hi <= hi' -> drawn lo' hi' id.
Proof. intros (n & Hn & ->) ? ?. exists n. split; [lia|done]. Qed.

Lemma drawn_disjoint lo mid hi id : 0 <= lo -> drawn lo mid id -> drawn mid hi id -> False.
Proof. intros H0 (n & Hn & ->) (m & Hm & E). apply local_id_inj in E; lia. Qed.

Lemma drawn_nonempty lo hi id : drawn lo hi id -> id <> [].
Proof. intros (n & _ & ->). apply local_id_nonempty. Qed.

(** The counter never goes back, and a result satisfies [P] between the counters. *)
Definition draws {A} (m : gen A) (P : Z -> Z -> A -> Prop) : Prop :=
  forall s, 0 <= s -> s <= (m s).2 /\ forall a, (m s).1 = Some a -> P s (m s).2 a.

Lemma draws_ret {A} (a : A) (P : Z -> Z -> A -> Prop) : (forall s, P s s a) -> draws (gret a) P.
Proof. intros H s Hs. simpl. split; [lia|]. by intros ? [= <-]. Qed.

Lemma draws_bind {A B} (m : gen A) (k : A -> gen B) (P : Z -> Z -> A -> Prop) (Q : Z -> Z -> B -> Prop) :
  draws m P -> (forall s s' a, 0 <= s <= s' -> P s s' a -> draws (k a) (fun t t' b => s' = t -> Q s t' b)) ->
  draws (gbind m k) Q.
Proof.
  intros Hm Hk s Hs. unfold gbind. destruct (Hm s Hs) as [Hle Ha]. destruct (m s) as [[a|] s'] eqn:E; simpl in *; [|done].
  destruct (Hk s s' a ltac:(lia) (Ha a eq_refl) s' ltac:(lia)) as [Hle' Hb]. split; [lia|]. intros b Eb. by apply Hb.
Qed.

Lemma draws_weaken {A} (m : gen A) (P Q : Z -> Z -> A -> Prop) :
  draws m P -> (forall s s' a, 0 <= s <= s' -> P s s' a -> Q s s' a) -> draws m Q.
Proof. intros Hm H s Hs. destruct (Hm s Hs) as [Hle Ha]. split; [done|]. intros a E. apply H; [lia|auto]. Qed.

(** Mapping over a list draws distinct identifiers, in disjoint ranges. *)
Lemma draws_mapM {A B} (f : A -> gen B) (ident : B -> jsstr) (Q : Z -> B -> Prop) l :
  (forall s s' b, s <= s' -> Q s b -> Q s' b) ->
  (forall x, draws (f x) (fun s s' b => drawn s s' (ident b) /\ Q s' b)) ->
  draws (gmapM f l) (fun s s' bs => Forall (fun b => drawn s s' (ident b) /\ Q s' b) bs /\ NoDup (map ident bs) /\ length bs = length l).
Proof.
  intros Hmono Hf. induction l as [|x l IH]; simpl; [apply draws_ret; by repeat constructor|].
  eapply draws_bind; [apply Hf|]. intros s s1 b Hs [Hb HQ]. eapply draws_bind; [apply IH|].
  intros t t1 bs Ht (Hbs & Hn & Hlen). apply draws_ret. intros u Hu <-. subst. split_and!.
  - constructor.
    + split; [eapply drawn_weaken; [exact Hb|lia|lia]|]. eapply Hmono; [|exact HQ]. lia.
    + eapply Forall_impl; [exact Hbs|]. intros b' [H1 H2]. split; [|done]. eapply drawn_weaken; [exact H1|lia|lia].
  - simpl. constructor; [|done]. intros (b' & E & Hb')%list_elem_of_fmap. rewrite Forall_forall in Hbs.
    destruct (Hbs b' Hb') as [H1 _]. rewrite <- E in H1. eapply (drawn_disjoint s); [lia|exact Hb|exact H1].
  - simpl. lia.
Qed.

(** ** Well-formed rules *)
Definition condition_wf (c : ParamOverrideCondition) : Prop := c_mode c ∈ CONDITION_MODE_VALUES.

Record operation_body (seed : Z) (o : ParamOverrideOperation) : Prop := {
  ob_mode : o_mode o ∈ OPERATION_MODE_VALUES;
  ob_logic : o_logic o = js "AND" \/ o_logic o = js "OR";
  ob_conditions : Forall (fun c => drawn 0 seed (c_id c) /\ condition_wf c) (o_conditions o);
  ob_condition_ids : NoDup (map c_id (o_conditions o))
}.

Lemma operation_body_mono s s' o : s <= s' -> operation_body s o -> operation_body s' o.
Proof.
  intros Hs [H1 H2 H3 H4]. constructor; try done. eapply Forall_impl; [exact H3|]. intros c [Hc Hw].
  split; [|done]. eapply drawn_weaken; [exact Hc|lia|lia].
Qed.

Lemma mode_or_elem modes d v : d ∈ modes -> mode_or modes d v ∈ modes.
Proof.
  intros Hd. destruct v as [[]|]; simpl; try done. unfold set_has. by case_bool_decide.
Qed.

Lemma draws_next : draws (nextLocalId now) (fun s s' id => s' = s + 1 /\ id = local_id now s).
Proof. intros s Hs. simpl. split; [lia|]. by intros ? [= <-]. Qed.

Lemma draws_condition v :
  draws (normalizeCondition now v) (fun s s' c => drawn s s' (c_id c) /\ condition_wf c).
Proof.
  unfold normalizeCondition. eapply draws_bind; [apply draws_next|]. intros s s' id Hs [-> ->].
  assert (H : forall c, c_id c = local_id now s -> condition_wf c ->
    draws (gret c) (fun t t' b => s + 1 = t -> drawn s t' (c_id b) /\ condition_wf b)).
  { intros c E W. apply draws_ret. intros u <-. split; [|done]. exists s. split; [lia|done]. }
  destruct v; try (apply H; [done|]; apply mode_or_elem; apply (bool_decide_unpack _); vm_compute; done).
  intros u Hu. simpl. split; [lia|done].
Qed.

Lemma draws_prune_rule v : draws (normalizePruneRule now v) (fun s s' c => drawn s s' (c_id c) /\ condition_wf c).
Proof. exact (draws_condition v). Qed.

Lemma draws_conditions l :
  draws (gmapM (normalizeCondition now) l)
    (fun s s' cs => Forall (fun c => drawn s s' (c_id c) /\ condition_wf c) cs /\ NoDup (map c_id cs)).
Proof.
  eapply draws_weaken; [apply (draws_mapM _ c_id (fun _ => condition_wf)); [done|apply draws_condition]|].
  by intros s s' cs _ (H1 & H2 & _).
Qed.

Lemma normalize_logic_cases v : normalize_logic v = js "AND" \/ normalize_logic v = js "OR".
Proof. unfold normalize_logic. case_bool_decide; auto. Qed.

Lemma draws_operation v :
  draws (normalizeOperation now v) (fun s s' o => drawn s s' (o_id o) /\ operation_body s' o).
Proof.
  unfold normalizeOperation. eapply draws_bind; [apply draws_next|]. intros s s' id Hs [-> ->].
  assert (H : draws (match prop (js "conditions") v with Some (JArr l) => gmapM (normalizeCondition now) l | _ => gret [] end)
    (fun s s' cs => Forall (fun c => drawn s s' (c_id c) /\ condition_wf c) cs /\ NoDup (map c_id cs))).
  { destruct (prop _ v) as [[]|]; try (apply draws_ret; by repeat constructor). apply draws_conditions. }
  destruct v; [intros u Hu; simpl; split; [lia|done]|..];
    (eapply draws_bind; [exact H|]; intros t t' cs Ht [Hcs Hn]; apply draws_ret; intros u <- <-; split;
     [exists s; split; [lia|done]|constructor; cbn [o_mode o_logic o_conditions];
       [apply mode_or_elem; apply (bool_decide_unpack _); vm_compute; done|apply normalize_logic_cases| |done];
       eapply Forall_impl; [exact Hcs|]; intros c [Hc Hw]; split; [eapply drawn_weaken; [exact Hc|lia|lia]|done]]).
Qed.

(** The rules an editor may hold when the counter stands at [seed]. *)
Record operations_wf (seed : Z) (ops : list ParamOverrideOperation) : Prop := {
  ow_ops : Forall (fun o => drawn 0 seed (o_id o) /\ operation_body seed o) ops;
  ow_ids : NoDup (map o_id ops);
  ow_nonempty : ops <> []
}.

Lemma operations_wf_mono s s' ops : s <= s' -> operations_wf s ops -> operations_wf s' ops.
Proof.
  intros Hs [H1 H2 H3]. constructor; try done. eapply Forall_impl; [exact H1|]. intros o [Ho Hb].
  split; [eapply drawn_weaken; [exact Ho|lia|lia]|by eapply operation_body_mono].
Qed.

Lemma draws_operations l :
  draws (gmapM (normalizeOperation now) l)
    (fun s s' ops => Forall (fun o => drawn s s' (o_id o) /\ operation_body s' o) ops /\ NoDup (map o_id ops) /\ length ops = length l).
Proof. apply (draws_mapM _ o_id operation_body); [intros; by eapply operation_body_mono|apply draws_operation]. Qed.

(** Freshly loaded rules. *)
Lemma draws_load l : draws (load_operations now l) (fun s s' ops => operations_wf s' ops).
Proof.
  destruct l as [|v l]; simpl.
  - unfold createDefaultOperation. eapply draws_bind; [apply draws_operation|]. intros s s' o Hs [Ho Hb].
    apply draws_ret. intros u <-. constructor; [|apply NoDup_singleton|done].
    apply Forall_singleton. split; [|done]. eapply drawn_weaken; [exact Ho|lia|lia].
  - eapply draws_weaken; [apply (draws_operations (v :: l))|]. intros s s' ops Hs (Hops & Hn & Hlen). constructor; [|done|by destruct ops].
    eapply Forall_impl; [exact Hops|]. intros o [Ho Hb]. split; [|done]. eapply drawn_weaken; [exact Ho|lia|lia].
Qed.

(** ** The invariant of the editor *)

(** The well-formedness of the data the handlers work on. *)
Record editor_core (e : Editor) : Prop := {
  ec_seed : 0 <= localIdSeed e;
  ec_operations : operations_wf (localIdSeed e) (operations e);
  ec_shown : forall d, shownPrune e = Some d -> Forall (fun r => drawn 0 (localIdSeed e) (c_id r)) (pr_rules d)
}.

Lemma core_ext e e' :
  editor_core e -> operations e' = operations e -> localIdSeed e' = localIdSeed e -> shownPrune e' = shownPrune e -> editor_core e'.
Proof. intros [H1 H2 H3] E1 E2 E3. constructor; rewrite ?E1, ?E2, ?E3; done. Qed.

Lemma core_ops e e' :
  editor_core e -> operations_wf (localIdSeed e) (operations e') -> localIdSeed e' = localIdSeed e -> shownPrune e' = shownPrune e ->
  editor_core e'.
Proof. intros [H1 H2 H3] W E2 E3. constructor; rewrite ?E2, ?E3; done. Qed.

Lemma core_seed e s : editor_core e -> localIdSeed e <= s -> editor_core (setSeed s e).
Proof.
  intros [H1 H2 H3] Hs. constructor; simpl; [lia|by eapply operations_wf_mono|].
  intros d Hd. eapply Forall_impl; [exact (H3 d Hd)|]. intros r Hr. eapply drawn_weaken; [exact Hr|lia|lia].
Qed.

Lemma core_with_ids {A} (m : gen A) P k onThrow e :
  editor_core e -> draws m P ->
  (forall a s, localIdSeed e <= s -> P (localIdSeed e) s a -> editor_core (setSeed s e) -> editor_core (k a (setSeed s e))) ->
  (forall s, editor_core (setSeed s e) -> editor_core (onThrow (setSeed s e))) ->
  editor_core (with_ids m k onThrow e).
Proof.
  intros He Hm Hk Ht. unfold with_ids. destruct (Hm (localIdSeed e) (ec_seed e He)) as [Hle Ha].
  destruct (m (localIdSeed e)) as [[a|] s] eqn:E; simpl in *.
  - apply Hk; [done|by apply Ha|by apply core_seed].
  - apply Ht. by apply core_seed.
Qed.

(** A rule changed in place keeps its identifier. *)
Lemma operations_wf_map seed id f ops :
  operations_wf seed ops ->
  (forall o, o ∈ ops -> o_id (f o) = o_id o /\ (operation_body seed o -> operation_body seed (f o))) ->
  operations_wf seed (map_operation id f ops).
Proof.
  intros [H1 H2 H3] Hf. unfold map_operation.
  set (g := fun o => if has_id id o then f o else o).
  assert (Hg : forall o, o ∈ ops -> o_id (g o) = o_id o /\ (operation_body seed o -> operation_body seed (g o))).
  { intros o Ho. unfold g. destruct (has_id id o); [by apply Hf|done]. }
  constructor.
  - apply Forall_forall. intros o' (o & -> & Ho)%list_elem_of_fmap. rewrite Forall_forall in H1.
    destruct (H1 o Ho) as [Hd Hb]. destruct (Hg o Ho) as [-> Hgb]. auto.
  - replace (map o_id (map g ops)) with (map o_id ops); [done|]. rewrite map_map. apply map_ext_in.
    intros o Ho%list_elem_of_In. symmetry. by apply Hg.
  - intros E. apply map_eq_nil in E. done.
Qed.

Lemma operations_wf_snoc seed ops o :
  operations_wf seed ops -> drawn 0 seed (o_id o) -> operation_body seed o -> o_id o ∉ map o_id ops ->
  operations_wf seed (ops ++ [o]).
Proof.
  intros [H1 H2 H3] Hd Hb Hn. constructor.
  - apply Forall_app. split; [done|]. by apply Forall_singleton.
  - rewrite map_app. apply NoDup_app. split_and!; [done| |apply NoDup_singleton]. set_solver.
  - by destruct ops.
Qed.

Lemma drawn_not_in seed s ops o :
  0 <= seed -> operations_wf seed ops -> drawn seed s (o_id o) -> o_id o ∉ map o_id ops.
Proof.
  intros H0 [H1 _ _] Hd (o' & E & Ho')%list_elem_of_fmap. rewrite Forall_forall in H1. destruct (H1 o' Ho') as [Hd' _].
  rewrite E in Hd. exact (drawn_disjoint 0 seed s _ ltac:(lia) Hd' Hd).
Qed.

Lemma sublist_map {A B} (f : A -> B) l l' : sublist l l' -> sublist (map f l) (map f l').
Proof. induction 1; simpl; by constructor. Qed.

Lemma operations_wf_sub seed ops ops' :
  operations_wf seed ops -> sublist ops' ops -> ops' <> [] -> operations_wf seed ops'.
Proof.
  intros [H1 H2 _] Hs Hne. constructor; [|eapply sublist_NoDup; [exact H2|by apply sublist_map]|done].
  apply Forall_forall. intros o Ho. rewrite Forall_forall in H1. apply H1. by eapply elem_of_sublist.
Qed.

Lemma operations_wf_perm seed ops ops' : operations_wf seed ops -> ops' ≡ₚ ops -> operations_wf seed ops'.
Proof.
  intros [H1 H2 H3] Hp. constructor; [by rewrite Hp| |].
  - assert (map o_id ops' ≡ₚ map o_id ops) as -> by (by apply Permutation_map). done.
  - intros ->. by apply Permutation_nil_l in Hp.
Qed.

Lemma draws_entry_rules ps :
  draws (entry_rules now ps) (fun s s' rs => Forall (fun r => drawn s s' (c_id r)) rs).
Proof.
  eapply draws_weaken.
  - apply (draws_mapM _ c_id (fun _ => condition_wf)); [done|]. intros p. apply draws_prune_rule.
  - intros s s' rs _ [H _]. eapply Forall_impl; [exact H|]. by intros r [? _].
Qed.

Lemma draws_rules l :
  draws (gmapM (normalizePruneRule now) l) (fun s s' rs => Forall (fun r => drawn s s' (c_id r)) rs).
Proof.
  eapply draws_weaken.
  - apply (draws_mapM _ c_id (fun _ => condition_wf)); [done|]. intros p. apply draws_prune_rule.
  - intros s s' rs _ [H _]. eapply Forall_impl; [exact H|]. by intros r [? _].
Qed.

(** The rules of a parsed draft have identifiers of their own. *)
Lemma draws_prune_draft text :
  draws (parsePruneObjectsDraft now text) (fun s s' d => Forall (fun r => drawn s s' (c_id r)) (pr_rules d)).
Proof.
  unfold parsePruneObjectsDraft. destruct (trim text) as [|x r]; [apply draws_ret; constructor|].
  destruct (json_parse (x :: r)) as [[| | | | |ps]|]; try (apply draws_ret; constructor). cbv zeta. cbn [prop].
  assert (H1 : draws (match map_get (js "where") ps with Some (JObj ws) => entry_rules now ws | _ => gret [] end)
    (fun s s' rs => Forall (fun r => drawn s s' (c_id r)) rs)).
  { destruct (map_get (js "where") ps) as [[]|]; try (apply draws_ret; constructor). apply draws_entry_rules. }
  assert (H2 : draws (match map_get (js "conditions") ps with
      | Some (JArr l) => gmapM (normalizePruneRule now) (base.filter (fun v => is_object v = true) l)
      | Some (JObj cs) => entry_rules now cs | _ => gret [] end)
    (fun s s' rs => Forall (fun r => drawn s s' (c_id r)) rs)).
  { destruct (map_get (js "conditions") ps) as [[]|]; try (apply draws_ret; constructor); [apply draws_rules|apply draws_entry_rules]. }
  eapply draws_bind; [exact H1|]. intros s s1 r1 Hs F1. eapply draws_bind; [exact H2|]. intros t0 s2 r2 Ht F2.
  apply draws_ret. intros u <- <-. simpl. apply Forall_app. split.
  - eapply Forall_impl; [exact F1|]. intros c Hc. eapply drawn_weaken; [exact Hc|lia|lia].
  - eapply Forall_impl; [exact F2|]. intros c Hc. eapply drawn_weaken; [exact Hc|lia|lia].
Qed.

(** The rule differs from the other at most in the text of its value. *)
Definition same_but_value (o o' : ParamOverrideOperation) : Prop := exists s, o' = with_value_text s o.

Lemma operations_wf_same seed ops ops' : operations_wf seed ops -> Forall2 same_but_value ops ops' -> operations_wf seed ops'.
Proof.
  intros [H1 H2 H3] F.
  assert (Hids : map o_id ops' = map o_id ops).
  { clear -F. induction F as [|o o' ops ops' [s ->] F IH]; simpl; [done|]. by rewrite IH. }
  constructor; [|by rewrite Hids|by intros ->; inversion F; subst].
  clear -H1 F. induction F as [|o o' ops ops' [s ->] F IH]; [constructor|]. apply Forall_cons in H1 as [[Hd [B1 B2 B3 B4]] H1].
  constructor; [|auto]. split; [done|]. by constructor.
Qed.

Lemma draws_update_prune id updater ops :
  (forall d, draws (updater d) (fun _ _ _ => True)) ->
  draws (gmapM (fun op =>
      if has_id id op then
        let* draft := parsePruneObjectsDraft now (o_value_text op) in
        let* nextDraft := updater draft in
        gret (with_value_text (buildPruneObjectsValueText nextDraft) op)
      else gret op) ops) (fun _ _ ops' => Forall2 same_but_value ops ops').
Proof.
  intros Hu. induction ops as [|o ops IH]; cbn [gmapM]; [apply draws_ret; constructor|].
  assert (Ho : draws (if has_id id o then
        let* draft := parsePruneObjectsDraft now (o_value_text o) in
        let* nextDraft := updater draft in
        gret (with_value_text (buildPruneObjectsValueText nextDraft) o)
      else gret o) (fun _ _ o' => same_but_value o o')).
  { destruct (has_id id o); [|apply draws_ret; intros _; exists (o_value_text o); by destruct o].
    eapply draws_bind; [apply draws_prune_draft|]. intros s s' d _ _. eapply draws_bind; [apply Hu|].
    intros t0 t1 d' _ _. apply draws_ret. intros _ _ _. by eexists. }
  eapply draws_bind; [exact Ho|]. intros s s' o' _ Hs. eapply draws_bind; [exact IH|]. intros t0 t1 ops' _ Hops.
  apply draws_ret. intros _ _ _. by constructor.
Qed.

Lemma core_update_prune id updater e :
  (forall d, draws (updater d) (fun _ _ _ => True)) -> editor_core e -> editor_core (updatePruneObjectsDraft now id updater e).
Proof.
  intros Hu He. unfold updatePruneObjectsDraft.
  eapply (core_with_ids _ _ _ _ _ He (draws_update_prune id updater (operations e) Hu)).
  - intros ops s Hs F Hc. eapply core_ops; [exact Hc| |done|done].
    eapply operations_wf_same; [|exact F]. exact (ec_operations _ Hc).
  - intros s Hc. by eapply core_ext.
Qed.

Context (t_line : jsstr -> Z -> jsstr) (t : jsstr -> jsstr).

(** What the controls of the forms pass on: the options of the selects. *)
Definition legit (a : Action) : Prop :=
  match a with
  | UpdateOperation _ p =>
      (forall m, p_mode p = Some m -> m ∈ OPERATION_MODE_VALUES) /\
      (forall l, p_logic p = Some l -> l = js "AND" \/ l = js "OR")
  | UpdateCondition _ _ p => forall m, cp_mode p = Some m -> m ∈ CONDITION_MODE_VALUES
  | _ => True
  end.

Ltac core_same := eapply core_ext; [eassumption|reflexivity|reflexivity|reflexivity].

Lemma core_patch id p e :
  legit (UpdateOperation id p) -> editor_core e -> editor_core (updateOperation id p e).
Proof.
  intros [Hm Hl] He. eapply core_ops; [exact He| |done|done]. apply operations_wf_map; [apply He|].
  intros o _. split; [done|]. intros [B1 B2 B3 B4]. constructor; simpl; try done.
  - destruct (p_mode p) as [m|] eqn:E; simpl; [by apply Hm|done].
  - destruct (p_logic p) as [l|] eqn:E; simpl; [by apply Hl|done].
Qed.

Lemma core_add_condition id e : editor_core e -> editor_core (addCondition now id e).
Proof.
  intros He. eapply (core_with_ids _ _ _ _ _ He (draws_condition (JObj []))).
  - intros c s Hs [Hd Hw] Hc. eapply core_ops; [exact Hc| |done|done].
    pose proof (ec_operations _ He) as [HW _ _]. pose proof (ec_seed _ He).
    apply operations_wf_map; [apply Hc|]. intros o Ho. split; [done|]. intros [B1 B2 B3 B4]. constructor; simpl; try done.
    + apply Forall_app. split; [done|]. apply Forall_singleton. split; [|done]. simpl. eapply drawn_weaken; [exact Hd|lia|lia].
    + rewrite map_app. apply NoDup_app. split_and!; [done| |apply NoDup_singleton].
      intros id' Hid Hin. apply list_elem_of_singleton in Hin as ->.
      apply list_elem_of_fmap in Hid as (c' & E & Hc').
      rewrite Forall_forall in HW. destruct (HW o Ho) as [_ [_ _ B3' _]]. rewrite Forall_forall in B3'.
      destruct (B3' c' Hc') as [Hd' _]. rewrite E in Hd. exact (drawn_disjoint 0 _ s _ ltac:(lia) Hd' Hd).
  - intros s Hc. exact Hc.
Qed.

Lemma core_update_condition id cid p e :
  legit (UpdateCondition id cid p) -> editor_core e -> editor_core (updateCondition id cid p e).
Proof.
  intros Hl He. eapply core_ops; [exact He| |done|done]. apply operations_wf_map; [apply He|].
  intros o _. split; [done|]. intros [B1 B2 B3 B4]. constructor; simpl; try done.
  - apply Forall_forall. intros c' (c & -> & Hc)%list_elem_of_fmap. rewrite Forall_forall in B3. destruct (B3 c Hc) as [Hd Hw].
    case_bool_decide; [|done]. split; [done|]. unfold condition_wf. simpl. destruct (cp_mode p) eqn:E; [by apply Hl|done].
  - replace (map c_id (map _ (o_conditions o))) with (map c_id (o_conditions o)); [done|]. rewrite map_map. apply map_ext.
    intros c. by case_bool_decide.
Qed.

Lemma core_remove_condition id cid e : editor_core e -> editor_core (removeCondition id cid e).
Proof.
  intros He. eapply core_ops; [exact He| |done|done]. apply operations_wf_map; [apply He|].
  intros o _. split; [done|]. intros [B1 B2 B3 B4].
  assert (S : sublist (base.filter (fun c => c_id c <> cid) (o_conditions o)) (o_conditions o)) by apply sublist_filter.
  constructor; simpl; try done.
  - apply Forall_forall. intros c Hc. rewrite Forall_forall in B3. apply B3. by eapply elem_of_sublist.
  - eapply sublist_NoDup; [exact B4|by apply sublist_map].
Qed.

Lemma core_add e : editor_core e -> editor_core (addOperation now e).
Proof.
  intros He. eapply (core_with_ids _ _ _ _ _ He (draws_operation _)).
  - intros o s Hs [Hd Hb] Hc. eapply core_ops; [exact Hc| |done|done]. pose proof (ec_seed _ He). simpl.
    apply operations_wf_snoc; [apply Hc|eapply drawn_weaken; [exact Hd|lia|lia]|done|].
    eapply drawn_not_in; [|apply He|exact Hd]. lia.
  - intros s Hc. exact Hc.
Qed.

Lemma splice_in_perm {A} i (x : A) l : splice_in i x l ≡ₚ l ++ [x].
Proof.
  unfold splice_in. rewrite <- Permutation_middle, take_drop, (comm (++) l [x]). done.
Qed.

Lemma core_duplicate eager id e : editor_core e -> editor_core (duplicateOperation now eager id e).
Proof.
  intros He. unfold duplicateOperation. destruct (find_index _ _) as [i|]; [|done]. destruct (operations e !! i) as [src|]; [|done].
  eapply (core_with_ids _ _ _ _ _ He (draws_operation _)).
  - intros o s Hs [Hd Hb] Hc. pose proof (ec_seed _ He).
    assert (W : operations_wf s (splice_in (S i) o (operations e))).
    { eapply operations_wf_perm; [|apply splice_in_perm]. apply operations_wf_snoc; [apply Hc| |done|].
      - eapply drawn_weaken; [exact Hd|lia|lia].
      - eapply drawn_not_in; [|apply He|exact Hd]. lia. }
    destruct eager; (eapply core_ops; [exact Hc|exact W|done|done]).
  - intros s Hc. core_same.
Qed.

Lemma operations_wf_one s o : 0 <= s -> drawn 0 s (o_id o) -> operation_body s o -> operations_wf s [o].
Proof. intros Hs Hd Hb. constructor; [by apply Forall_singleton|apply NoDup_singleton|done]. Qed.

(** The state is replaced by one default rule. *)
Lemma core_default k onThrow e :
  editor_core e ->
  (forall o e', operations (k o e') = [o] /\ localIdSeed (k o e') = localIdSeed e' /\ shownPrune (k o e') = shownPrune e') ->
  (forall e', editor_core e' -> editor_core (onThrow e')) ->
  editor_core (with_ids (createDefaultOperation now) k onThrow e).
Proof.
  intros He Hk Ht. eapply (core_with_ids _ _ _ _ _ He (draws_operation _)); [|auto].
  intros o s Hs [Hd Hb] Hc. destruct (Hk o (setSeed s e)) as (E1 & E2 & E3). pose proof (ec_seed _ He).
  eapply core_ops; [exact Hc| |done|done]. rewrite E1. apply operations_wf_one; [simpl; lia| |done].
  eapply drawn_weaken; [exact Hd|lia|simpl; lia].
Qed.

Lemma core_ignore e : editor_core e -> editor_core (ignore e).
Proof. done. Qed.

Lemma core_crash e : editor_core e -> editor_core (crash e).
Proof. intros He. core_same. Qed.

Lemma core_remove id e : editor_core e -> editor_core (removeOperation now id e).
Proof.
  intros He. unfold removeOperation. case_bool_decide as Hlen; [by apply core_default; [|done|apply core_crash]|].
  eapply core_ops; [exact He| |done|done]. simpl. pose proof (ec_operations _ He) as W.
  eapply operations_wf_sub; [exact W|apply sublist_filter|]. destruct W as [_ Hn _].
  destruct (operations e) as [|o1 [|o2 ops]]; [simpl in Hlen; lia..|]. simpl in Hn. apply NoDup_cons in Hn as [Hn _].
  intros E. assert (H1 : o1 ∉ base.filter (fun o => o_id o <> id) (o1 :: o2 :: ops)) by (rewrite E; apply not_elem_of_nil).
  assert (H2 : o2 ∉ base.filter (fun o => o_id o <> id) (o1 :: o2 :: ops)) by (rewrite E; apply not_elem_of_nil).
  rewrite list_elem_of_filter in H1, H2. apply Hn.
  destruct (decide (o_id o1 = id)) as [-> |]; [|exfalso; apply H1; split; [done|by left]].
  destruct (decide (o_id o2 = id)) as [<- |]; [by left|]. exfalso. apply H2. split; [done|by right; left].
Qed.

Lemma core_return_error id p e : editor_core e -> editor_core (updateReturnErrorDraft id p e).
Proof.
  intros He. eapply core_ops; [exact He| |done|done]. apply operations_wf_map; [apply He|].
  intros o _. split; [done|]. intros [B1 B2 B3 B4]. by constructor.
Qed.

Lemma core_format_value o e : editor_core e -> editor_core (formatValue o e).
Proof.
  intros He. unfold formatValue. destruct (json_parse _); [|done].
  eapply core_ops; [exact He| |done|done]. apply operations_wf_map; [apply He|].
  intros o' _. split; [done|]. intros [B1 B2 B3 B4]. by constructor.
Qed.

Lemma core_drop id data e : editor_core e -> editor_core (handleDrop id data e).
Proof.
  intros He. unfold handleDrop. cbv zeta. destruct (_ && _ && _); [|core_same].
  eapply core_ops; [exact He| |done|done]. simpl. eapply operations_wf_perm; [apply He|].
  set (pos := if bool_decide _ then _ else _). set (src := str_or _ _).
  destruct (reorder_cases (operations e) src id pos) as [[-> _]|(a1 & s & a2 & l1 & t0 & l2 & -> & Hl & _ & _ & ->)]; [done|].
  by apply placed_permutation.
Qed.

Lemma core_load l k onThrow e :
  editor_core e ->
  (forall ops e', operations (k ops e') = ops /\ localIdSeed (k ops e') = localIdSeed e' /\ shownPrune (k ops e') = shownPrune e') ->
  (forall e', editor_core e' -> editor_core (onThrow e')) ->
  editor_core (with_ids (load_operations now l) k onThrow e).
Proof.
  intros He Hk Ht. eapply (core_with_ids _ _ _ _ _ He (draws_load l)); [|auto].
  intros ops s Hs W Hc. destruct (Hk ops (setSeed s e)) as (E1 & E2 & E3). eapply core_ops; [exact Hc|by rewrite E1|done|done].
Qed.

Lemma core_show_legacy text e : editor_core e -> editor_core (show_legacy now text e).
Proof. intros He. by apply core_default; [|done|apply core_ignore]. Qed.

Lemma presets_nonempty key label ops : presetOf key = OperationsPreset label ops -> ops <> [].
Proof.
  intros E ->. assert (F : Forall (fun p => match p.2 with OperationsPreset _ l => l <> [] | _ => True end) TEMPLATE_PRESET_CONFIG)
    by (repeat constructor; discriminate).
  unfold presetOf in E. destruct (map_get key TEMPLATE_PRESET_CONFIG) as [p|] eqn:G; simpl in E; [|discriminate].
  apply map_get_Some_elem in G. rewrite Forall_forall in F. specialize (F _ G). simpl in F. by rewrite E in F.
Qed.

Lemma core_append label l e :
  presetOf (templatePresetKey e) = OperationsPreset label l -> editor_core e -> editor_core (fillTemplate now t Append e).
Proof.
  intros El He. unfold fillTemplate. rewrite El. apply presets_nonempty in El.
  eapply (core_with_ids _ _ _ _ _ He (draws_operations l)); [|intros; by apply core_ignore].
  intros ops s Hs (F & Hn & Hlen) Hc. cbv zeta. eapply core_ops; [exact Hc| |done|done].
  set (existing := match visualMode (setSeed s e) with Operations => _ | Legacy => [] end). simpl.
  assert (Hne : existing ++ ops <> []) by (destruct l; [done|]; destruct existing, ops; done).
  replace (match existing ++ ops with [] => ops | _ => existing ++ ops end) with (existing ++ ops) by (by destruct (existing ++ ops)).
  pose proof (ec_seed _ He). pose proof (ec_operations _ He) as [W1 W2 _].
  assert (S : sublist existing (operations e)).
  { unfold existing, nonblank_ops. simpl. destruct (visualMode e); [apply sublist_filter|apply sublist_nil_l]. }
  clearbody existing.
  assert (HE : Forall (fun o => drawn 0 (localIdSeed e) (o_id o) /\ operation_body (localIdSeed e) o) existing).
  { apply Forall_forall. intros o Ho. rewrite Forall_forall in W1. apply W1. by eapply elem_of_sublist. }
  constructor; [| |done].
  - apply Forall_app. split.
    + eapply Forall_impl; [exact HE|]. intros o [Hd Hb]. split; [eapply drawn_weaken; [exact Hd|lia|lia]|by eapply operation_body_mono].
    + eapply Forall_impl; [exact F|]. intros o [Hd Hb]. split; [eapply drawn_weaken; [exact Hd|lia|lia]|done].
  - rewrite map_app. apply NoDup_app. split_and!; [eapply sublist_NoDup; [exact W2|by apply sublist_map]| |done].
    intros id (o1 & -> & H1)%list_elem_of_fmap (o2 & E & H2)%list_elem_of_fmap.
    rewrite Forall_forall in HE, F. destruct (HE o1 H1) as [D1 _], (F o2 H2) as [D2 _]. rewrite E in D1.
    exact (drawn_disjoint 0 _ s _ ltac:(lia) D1 D2).
Qed.

Lemma core_fill mode e : editor_core e -> editor_core (fillTemplate now t mode e).
Proof.
  intros He. destruct (presetOf (templatePresetKey e)) as [label l|label payload] eqn:E.
  - destruct mode; [|by eapply core_append]. unfold fillTemplate. rewrite E. by apply core_load; [|done|apply core_ignore].
  - unfold fillTemplate. rewrite E. destruct mode, (visualMode e); try by apply core_show_legacy.
    destruct (trim (legacyValue e)); [by apply core_show_legacy|].
    destruct (json_parse _); [by apply core_show_legacy|core_same].
Qed.

Lemma core_switch_visual e : editor_core e -> editor_core (switchToVisualMode now t e).
Proof.
  intros He. unfold switchToVisualMode. destruct (editMode e); [done|]. cbv zeta.
  destruct (trim (jsonText e)) as [|x r]; [by apply core_default; [|done|apply core_ignore]|].
  destruct (json_parse (x :: r)) as [[| | | | |ps]|]; try core_same.
  destruct (map_get (js "operations") ps) as [[| | | |l|]|];
    first [by apply core_load; [|done|apply core_ignore] | by apply core_default; [|done|apply core_ignore]].
Qed.

Lemma core_switch_json e : editor_core e -> editor_core (switchToJsonMode t_line t e).
Proof.
  intros He. unfold switchToJsonMode. destruct (editMode e); [|done]. destruct (buildVisualJson t_line t e); core_same.
Qed.

Lemma draws_initial text :
  draws (parseInitialState now text) (fun s s' st => operations_wf s' (s_operations st)).
Proof.
  assert (D : forall f, (forall o, s_operations (f o) = [o]) ->
    draws (gbind (createDefaultOperation now) (fun o => gret (f o))) (fun s s' st => operations_wf s' (s_operations st))).
  { intros f Hf. eapply draws_bind; [apply draws_operation|]. intros s s' o Hs [Hd Hb]. apply draws_ret. intros u <-.
    rewrite Hf. apply operations_wf_one; [lia| |done]. eapply drawn_weaken; [exact Hd|lia|lia]. }
  unfold parseInitialState. cbv zeta. destruct (trim text) as [|x r]; [by apply D|].
  destruct (json_parse (x :: r)) as [[| | | | |ps]|]; try (by apply D).
  destruct (map_get (js "operations") ps) as [[| | | |l|]|]; try (by apply D).
  eapply draws_bind; [apply draws_load|]. intros s s' ops _ W. apply draws_ret. by intros u <-.
Qed.

Lemma core_open value e : editor_core e -> editor_core (openEffect now value e).
Proof.
  intros He. eapply (core_with_ids _ _ _ _ _ He (draws_initial value)); [|intros; by apply core_crash].
  intros st s Hs W Hc. eapply core_ops; [exact Hc|exact W|done|done].
Qed.

(** Every handler keeps the data well-formed. *)
Lemma core_handle a e : legit a -> editor_core e -> editor_core (handle now t_line t a e).
Proof.
  intros Hl He. destruct a; cbn [handle]; try core_same.
  - by apply core_open.
  - by apply core_patch.
  - by apply core_add.
  - by apply core_duplicate.
  - by apply core_remove.
  - by apply core_add_condition.
  - by apply core_update_condition.
  - by apply core_remove_condition.
  - by apply core_return_error.
  - apply core_update_prune; [|done]. intros d. by apply draws_ret.
  - apply core_update_prune; [|done]. intros d. eapply draws_bind; [apply draws_prune_rule|]. intros. by apply draws_ret.
  - apply core_update_prune; [|done]. intros d. by apply draws_ret.
  - apply core_update_prune; [|done]. intros d. by apply draws_ret.
  - unfold handleDragOver. destruct (_ || _); core_same.
  - by apply core_drop.
  - by apply core_switch_json.
  - by apply core_switch_visual.
  - by apply core_fill.
  - by apply core_default; [|done|apply core_ignore].
  - unfold handleJsonChange. cbv zeta. destruct (trim nextValue); core_same.
  - unfold formatJson. destruct (trim (jsonText e)); [core_same|]. destruct (json_parse _); core_same.
  - by apply core_format_value.
  - unfold handleSave. destruct (save_result t_line t e); core_same.
  - unfold expandAllConditions, set_all_conditions. destruct (selectedOperation e); core_same.
  - unfold collapseAllConditions, set_all_conditions. destruct (selectedOperation e); core_same.
Qed.

(** ** The effects *)
Definition never_throws {A} (m : gen A) : Prop := forall s, exists a s', m s = (Some a, s').

Lemma never_throws_ret {A} (a : A) : never_throws (gret a).
Proof. intros s. by eexists _, _. Qed.

Lemma never_throws_bind {A B} (m : gen A) (k : A -> gen B) :
  never_throws m -> (forall a, never_throws (k a)) -> never_throws (gbind m k).
Proof. intros Hm Hk s. unfold gbind. destruct (Hm s) as (a & s' & ->). apply Hk. Qed.

Lemma never_throws_mapM {A B} (f : A -> gen B) l : Forall (fun x => never_throws (f x)) l -> never_throws (gmapM f l).
Proof.
  induction 1 as [|x l Hx _ IH]; simpl; [apply never_throws_ret|].
  apply never_throws_bind; [done|]. intros y. apply never_throws_bind; [done|]. intros ys. apply never_throws_ret.
Qed.

Lemma prune_rule_never_throws v : v <> JNull -> never_throws (normalizePruneRule now v).
Proof.
  intros Hv. unfold normalizePruneRule. apply never_throws_bind; [by intros s; eexists _, _|]. intros id.
  destruct v; try done; apply never_throws_ret.
Qed.

(** The form of a pruning rule can be shown for every text. *)
Lemma prune_draft_never_throws text : never_throws (parsePruneObjectsDraft now text).
Proof.
  assert (E : forall ps, never_throws (entry_rules now ps)).
  { intros ps. apply never_throws_mapM, Forall_forall. intros p _. by apply prune_rule_never_throws. }
  unfold parsePruneObjectsDraft. destruct (trim text) as [|x r]; [apply never_throws_ret|].
  destruct (json_parse (x :: r)) as [[| | | | |ps]|]; try apply never_throws_ret. cbv zeta.
  apply never_throws_bind.
  { destruct (prop (js "where") (JObj ps)) as [[]|]; try apply never_throws_ret. apply E. }
  intros r1. apply never_throws_bind; [|intros; apply never_throws_ret].
  destruct (prop (js "conditions") (JObj ps)) as [[]|]; try apply never_throws_ret; [|apply E].
  apply never_throws_mapM, Forall_forall. intros v [Hv _]%list_elem_of_filter. apply prune_rule_never_throws. by intros ->.
Qed.

(** The invariant: well-formed rules, and a selection among them. *)
Record editor_wf (e : Editor) : Prop := {
  ew_core : editor_core e;
  ew_selected : selectedOperationId e ∈ map o_id (operations e)
}.

Lemma select_wf e : editor_core e -> editor_wf (selectEffect e).
Proof.
  intros He. unfold selectEffect. destruct (operations e) as [|o ops] eqn:E; [by destruct (ow_nonempty _ _ (ec_operations _ He))|].
  destruct (existsb (has_id (selectedOperationId e)) (o :: ops)) eqn:X.
  - constructor; [done|]. rewrite E. apply existsb_exists in X as (o' & Ho' & Hid). apply has_id_spec in Hid. rewrite <- Hid.
    apply list_elem_of_fmap_2. by apply list_elem_of_In.
  - constructor; [core_same|]. simpl. rewrite E. by left.
Qed.

Lemma commit_wf e : editor_core e -> crashed e = false -> crashed (commit now e) = false /\ editor_wf (commit now e).
Proof.
  intros He Hc. unfold commit. rewrite Hc. pose proof (select_wf e He) as [Hs Hsel].
  assert (Hcs : crashed (selectEffect e) = false).
  { unfold selectEffect. destruct (operations e); [done|]. by destruct (existsb _ _). }
  revert Hs Hsel Hcs. generalize (selectEffect e) as s. clear e He Hc. intros e He Hsel Hc. unfold pruneObjectsDraft.
  assert (HN : crashed (setShown None e) = false /\ editor_wf (setShown None e)).
  { split; [done|]. constructor; [|done]. destruct He as [H1 H2 H3]. by constructor. }
  destruct (selectedOperation e) as [o|]; [|done]. destruct (bool_decide _); [|done].
  unfold with_ids. destruct (prune_draft_never_throws (o_value_text o) (localIdSeed e)) as (d & s & E). rewrite E.
  destruct (draws_prune_draft (o_value_text o) (localIdSeed e) (ec_seed _ He)) as [Hle Hd]. rewrite E in Hle, Hd. simpl in Hle, Hd.
  specialize (Hd d eq_refl). split; [done|]. constructor; [|done].
  pose proof (core_seed e s He Hle) as [H1 H2 H3]. constructor; [done|done|]. simpl. intros d' [= <-].
  eapply Forall_impl; [exact Hd|]. intros r Hr. pose proof (ec_seed _ He). eapply drawn_weaken; [exact Hr|lia|lia].
Qed.

(** ** Reachable states *)
Inductive reachable (seed : Z) : Editor -> Prop :=
| reach_mount e : mounted now seed = Some e -> reachable seed e
| reach_step e a : reachable seed e -> legit a -> reachable seed (dispatch now t_line t a e).

Lemma mounted_wf seed e : 0 <= seed -> mounted now seed = Some e -> crashed e = false /\ editor_wf e.
Proof.
  intros Hs. unfold mounted.
  destruct (draws_operation (JObj [(js "mode", JStr (js "set"))]) seed Hs) as [Hle Ho].
  fold (createDefaultOperation now) in Hle, Ho. destruct (createDefaultOperation now seed) as [[o|] s] eqn:E; [|done]. simpl in Hle, Ho.
  intros [= <-]. destruct (Ho o eq_refl) as [Hd Hb]. apply commit_wf; [|done]. constructor; simpl; [lia| |done].
  apply operations_wf_one; [lia| |done]. eapply drawn_weaken; [exact Hd|lia|lia].
Qed.

Lemma reachable_wf seed e : 0 <= seed -> reachable seed e -> crashed e = false -> editor_wf e.
Proof.
  intros Hs. induction 1 as [e He|e a Hr IH Hl]; intros Hc; [by eapply mounted_wf|].
  unfold dispatch in *. destruct (crashed e) eqn:E; [congruence|]. specialize (IH eq_refl).
  pose proof (core_handle a e Hl (ew_core _ IH)) as Hcore.
  destruct (crashed (handle now t_line t a e)) eqn:E'; [unfold commit in Hc; rewrite E' in Hc; congruence|].
  by apply commit_wf.
Qed.

(** C15.  In every state the editor reaches from its first render, by any
    sequence of handlers that the controls can trigger, each rule has a mode of
    the table, a logic of AND or OR and conditions with modes of their table;
    the identifiers of the rules are distinct, as are those of the conditions of
    a rule; there is at least one rule, and the selected one exists. *)
Theorem editor_states_typed seed e :
  0 <= seed -> reachable seed e -> crashed e = false ->
  Forall (fun o => o_mode o ∈ OPERATION_MODE_VALUES /\ (o_logic o = js "AND" \/ o_logic o = js "OR") /\
                   Forall (fun c => c_mode c ∈ CONDITION_MODE_VALUES) (o_conditions o) /\
                   NoDup (map c_id (o_conditions o))) (operations e) /\
  NoDup (map o_id (operations e)) /\ operations e <> [] /\
  exists o, o ∈ operations e /\ o_id o = selectedOperationId e.
Proof.
  intros Hs Hr Hc. destruct (reachable_wf seed e Hs Hr Hc) as [[_ [W1 W2 W3] _] Hsel]. split_and!; [|done|done|].
  - eapply Forall_impl; [exact W1|]. intros o [_ [B1 B2 B3 B4]]. split_and!; [done|done| |done].
    eapply Forall_impl; [exact B3|]. by intros c [_ Hw].
  - apply list_elem_of_fmap in Hsel as (o & E & Ho). by exists o.
Qed.
End Fresh.

(** A first state and the default rule it shows, for the witnesses. *)
Definition sample_editor : Editor :=
  commit (fun _ => 17) (initial_with (mkOperation (js "po_17_0") [] [] (js "set") [] [] [] false (js "OR") []) 1).

Lemma sample_reachable t_line t : reachable (fun _ => 17) t_line t 0 sample_editor.
Proof. apply reach_mount. vm_compute. reflexivity. Qed.

Lemma editor_states_typed_witness :
  NoDup (map o_id (operations (dispatch (fun _ => 17) (fun k _ => k) (fun k => k) (FillTemplate Append) sample_editor))).
Proof.
  apply (editor_states_typed (fun _ => 17) (fun k _ => k) (fun k => k) 0
    (dispatch (fun _ => 17) (fun k _ => k) (fun k => k) (FillTemplate Append) sample_editor)).
  - lia.
  - apply reach_step; [apply sample_reachable|exact I].
  - vm_compute. reflexivity.
Defined.

(** ** What the effects leave alone *)
Section Behaviour.
Context (now : Z -> Z) (t_line : jsstr -> Z -> jsstr) (t : jsstr -> jsstr).

Lemma select_keeps e :
  editMode (selectEffect e) = editMode e /\ visualMode (selectEffect e) = visualMode e /\
  operations (selectEffect e) = operations e /\ jsonText (selectEffect e) = jsonText e /\
  jsonError (selectEffect e) = jsonError e /\ events (selectEffect e) = events e /\ crashed (selectEffect e) = crashed e.
Proof.
  unfold selectEffect. destruct (operations e) as [|o ops] eqn:E; [by rewrite <- E|].
  destruct (existsb _ (o :: ops)); by rewrite <- E.
Qed.

Lemma prune_memo_keeps e :
  let e' := pruneObjectsDraft now e in
  editMode e' = editMode e /\ visualMode e' = visualMode e /\ operations e' = operations e /\ jsonText e' = jsonText e /\
  jsonError e' = jsonError e /\ events e' = events e /\ crashed e' = crashed e.
Proof.
  unfold pruneObjectsDraft. destruct (selectedOperation e) as [o|]; [|done]. destruct (bool_decide _); [|done].
  unfold with_ids. by destruct (prune_draft_never_throws now (o_value_text o) (localIdSeed e)) as (d & s & ->).
Qed.

Lemma commit_keeps e :
  let e' := commit now e in
  editMode e' = editMode e /\ visualMode e' = visualMode e /\ operations e' = operations e /\ jsonText e' = jsonText e /\
  jsonError e' = jsonError e /\ events e' = events e /\ crashed e' = crashed e.
Proof.
  unfold commit. destruct (crashed e) eqn:Ec; [by rewrite <- Ec|]. rewrite <- Ec.
  destruct (select_keeps e) as (<- & <- & <- & <- & <- & <- & <-). apply prune_memo_keeps.
Qed.

(** ** Opening the dialog *)

(** A stored rule the editor can show: not [null], and no condition [null]. *)
Definition showable (v : json) : bool :=
  match v with
  | JNull => false
  | _ => match prop (js "conditions") v with
         | Some (JArr l) => forallb (fun c => if c is JNull then false else true) l
         | _ => true
         end
  end.

Lemma mapM_throws {A B} (f : A -> gen B) (ok : A -> bool) l :
  (forall x s, (exists a s', f x s = (Some a, s')) <-> ok x = true) ->
  forall s, (exists a s', gmapM f l s = (Some a, s')) <-> forallb ok l = true.
Proof.
  intros Hf. induction l as [|x l IH]; intros s; simpl; [split; [done|by eexists _, _]|].
  unfold gbind. specialize (Hf x s). destruct (f x s) as [[a|] s'].
  - assert (ok x = true) as -> by (apply Hf; by eexists _, _). simpl. rewrite <- (IH s').
    destruct (gmapM f l s') as [[b|] s'']; simpl; naive_solver.
  - destruct (ok x) eqn:E; simpl; [|naive_solver]. exfalso. by destruct (proj2 Hf eq_refl) as (? & ? & ?).
Qed.

Lemma condition_throws v s :
  (exists c s', normalizeCondition now v s = (Some c, s')) <-> (if v is JNull then false else true) = true.
Proof. destruct v; simpl; split; intros; try done; try (by eexists _, _). by destruct H as (? & ? & ?). Qed.

Lemma operation_throws v s : (exists o s', normalizeOperation now v s = (Some o, s')) <-> showable v = true.
Proof.
  unfold normalizeOperation, showable, gbind, nextLocalId.
  assert (G : forall (m : gen (list ParamOverrideCondition)) k b,
    (forall s, (exists a s', m s = (Some a, s')) <-> b = true) ->
    (exists (o : ParamOverrideOperation) s', (match m (s + 1) with (Some a, s') => gret (k a) s' | (None, s') => (None, s') end) = (Some o, s')) <-> b = true).
  { intros m k b Hm. rewrite <- (Hm (s + 1)). destruct (m (s + 1)) as [[a|] s']; simpl; naive_solver. }
  destruct v; try (apply G; intros; simpl; split; [done|by eexists _, _]); [naive_solver|].
  apply G. intros s'. destruct (prop (js "conditions") (JObj props)) as [[]|]; try (split; [done|by eexists _, _]).
  apply (mapM_throws (normalizeCondition now) (fun c => if c is JNull then false else true)). apply condition_throws.
Qed.

Lemma createDefault_succeeds s : exists o s', createDefaultOperation now s = (Some o, s').
Proof. by apply operation_throws. Qed.

Lemma load_throws l s : (exists ops s', load_operations now l s = (Some ops, s')) <-> forallb showable l = true.
Proof.
  destruct l as [|v l].
  - split; [done|]. intros _. simpl. unfold gbind. destruct (createDefault_succeeds s) as (o & s' & ->). by eexists _, _.
  - apply (mapM_throws (normalizeOperation now) showable (v :: l)). apply operation_throws.
Qed.

(** The stored rules of a text that has any. *)
Definition stored_rules (value : jsstr) : option (list json) :=
  match json_parse (trim value) with
  | Some (JObj ps) => match map_get (js "operations") ps with Some (JArr l) => Some l | _ => None end
  | _ => None
  end.

Lemma initial_throws value s :
  (exists st s', parseInitialState now value s = (Some st, s')) <-> forallb showable (default [] (stored_rules value)) = true.
Proof.
  assert (D : forall f, (exists (st : EditorState) s', gbind (createDefaultOperation now) (fun o => gret (f o)) s = (Some st, s')) <-> true = true).
  { intros f. split; [done|]. intros _. unfold gbind. destruct (createDefault_succeeds s) as (o & s' & ->). by eexists _, _. }
  unfold parseInitialState, stored_rules. cbv zeta. destruct (trim value) as [|x r]; [apply (D _)|].
  destruct (json_parse (x :: r)) as [[| | | | |ps]|]; try apply (D _).
  destruct (map_get (js "operations") ps) as [[| | | |l|]|]; try apply (D _). simpl.
  rewrite <- (load_throws l s). unfold gbind. destruct (load_operations now l s) as [[ops|] s']; simpl; naive_solver.
Qed.

(** Opening the dialog takes it down exactly when the stored text has a
    list of operations in which an operation, or a condition of one, is [null];
    every other text, JSON or not, opens. *)
Theorem open_crashes_iff value e :
  crashed e = false ->
  crashed (dispatch now t_line t (Open value) e) = true <->
  exists l v, stored_rules value = Some l /\ v ∈ l /\ showable v = false.
Proof.
  intros Hc. unfold dispatch. rewrite Hc. destruct (commit_keeps (handle now t_line t (Open value) e)) as (_ & _ & _ & _ & _ & _ & ->).
  cbn [handle]. unfold openEffect, with_ids. pose proof (initial_throws value (localIdSeed e)) as I.
  destruct (parseInitialState now value (localIdSeed e)) as [[st|] s'].
  - simpl. rewrite Hc. split; [done|]. intros (l & v & El & Hv & Hs). rewrite El in I. simpl in I.
    assert (F : forallb showable l = true) by (apply I; by eexists _, _). rewrite forallb_forall in F.
    rewrite (F v) in Hs; [done|]. by apply list_elem_of_In.
  - simpl. split; [|done]. intros _. destruct (stored_rules value) as [l|]; simpl in I.
    + destruct (forallb showable l) eqn:F; [by destruct (proj2 I eq_refl) as (? & ? & ?)|].
      apply not_true_iff_false in F. exists l.
      assert (N : ~ Forall (fun v => showable v = true) l).
      { intros G. apply F. apply forallb_forall. intros v Hv%list_elem_of_In. by rewrite Forall_forall in G; apply G. }
      apply not_Forall_Exists in N; [|apply _]. apply Exists_exists in N as (v & Hv & Hn).
      exists v. split_and!; [done|done|by apply not_true_iff_false].
    + by destruct (proj2 I eq_refl) as (? & ? & ?).
Qed.

(** ** Editing the rules of a pruning form *)

(** Two programs that agree from a counter on, one of which never goes back. *)
Lemma mapM_ext_from {A B} (f g : A -> gen B) l s0 :
  (forall x s, s0 <= s -> f x s = g x s /\ s <= (f x s).2) ->
  forall s, s0 <= s -> gmapM f l s = gmapM g l s.
Proof.
  intros H. induction l as [|x l IH]; intros s Hs; simpl; [done|]. unfold gbind.
  destruct (H x s Hs) as [<- Hle]. destruct (f x s) as [[b|] s'] eqn:E; [|done]. simpl in Hle. by rewrite IH by lia.
Qed.

Definition no_prune_patch : PrunePatch := mkPrunePatch None None None None.

(** An updater that only changes rules with an identifier drawn earlier changes nothing. *)
Lemma update_prune_old_rule id e (updater : PruneObjectsDraft -> PruneObjectsDraft) :
  0 <= localIdSeed e ->
  (forall d, Forall (fun r => exists s, drawn now (localIdSeed e) s (c_id r)) (pr_rules d) -> updater d = d) ->
  updatePruneObjectsDraft now id (fun d => gret (updater d)) e =
  updatePruneObjectsDraft now id (fun d => gret (patch_prune no_prune_patch d)) e.
Proof.
  intros H0 Hu. unfold updatePruneObjectsDraft, with_ids.
  erewrite (mapM_ext_from _ _ _ (localIdSeed e)); [reflexivity| |lia].
  intros o s Hs. simpl. destruct (has_id id o); [|simpl; split; [done|lia]]. unfold gbind.
  destruct (draws_prune_draft now (o_value_text o) s ltac:(lia)) as [Hle Hd].
  destruct (parsePruneObjectsDraft now (o_value_text o) s) as [[d|] s'] eqn:E; simpl in *; [|split; [done|lia]].
  split; [|lia]. rewrite Hu; [by destruct d|]. eapply Forall_impl; [exact (Hd d eq_refl)|]. intros r Hr.
  exists s'. eapply drawn_weaken; [exact Hr|lia|lia].
Qed.

Lemma old_rule_differs seed s r r' :
  0 <= seed -> drawn now 0 seed (c_id r) -> drawn now seed s (c_id r') -> c_id r' <> c_id r.
Proof. intros H0 H1 H2 E. rewrite E in H2. exact (drawn_disjoint now 0 seed s _ ltac:(lia) H1 H2). Qed.

(** The controls of a rule in the pruning form have no effect: editing or
    deleting a rule that is shown leaves the editor in the state it has when
    nothing was edited, because the rules get new identifiers each time the
    draft is read and the shown one is never found. *)
Theorem prune_rule_edits_lost seed e d r id patch :
  0 <= seed -> reachable now t_line t seed e -> crashed e = false -> shownPrune e = Some d -> r ∈ pr_rules d ->
  dispatch now t_line t (UpdatePruneRule id (c_id r) patch) e = dispatch now t_line t (UpdatePruneObjectsDraft id no_prune_patch) e /\
  dispatch now t_line t (RemovePruneRule id (c_id r)) e = dispatch now t_line t (UpdatePruneObjectsDraft id no_prune_patch) e.
Proof.
  intros Hs Hr Hc Hd Hin. destruct (reachable_wf _ _ _ _ _ Hs Hr Hc) as [[H0 _ Hsh] _].
  specialize (Hsh d Hd). rewrite Forall_forall in Hsh. specialize (Hsh r Hin).
  unfold dispatch. rewrite Hc. cbn [handle]. unfold updatePruneRule, removePruneRule. split; f_equal.
  - apply (update_prune_old_rule id e (fun d => with_rules (map (fun r' => if bool_decide (c_id r' = c_id r) then patch_condition patch r' else r') (pr_rules d)) d)); [done|].
    intros d' F. unfold with_rules. replace (map _ (pr_rules d')) with (pr_rules d'); [by destruct d'|].
    induction F as [|r' l [s Hr'] F IH]; simpl; [done|]. rewrite bool_decide_eq_false_2 by (by eapply old_rule_differs).
    by rewrite <- IH.
  - apply (update_prune_old_rule id e (fun d => with_rules (base.filter (fun r' => c_id r' <> c_id r) (pr_rules d)) d)); [done|].
    intros d' F. unfold with_rules. rewrite filter_all; [by destruct d'|]. eapply Forall_impl; [exact F|].
    intros r' [s Hr']. by eapply old_rule_differs.
Qed.

(** The rule that [addPruneRule] appends has no path and is dropped when the draft is written. *)
Lemma added_rule_dropped s r s' d :
  normalizePruneRule now (JObj []) s = (Some r, s') ->
  buildPruneObjectsValueText (mkPrune false (pr_typeText d) (pr_logic d) (pr_recursive d) (pr_rules d ++ [r])) =
  buildPruneObjectsValueText (mkPrune false (pr_typeText d) (pr_logic d) (pr_recursive d) (pr_rules d)).
Proof.
  intros [= <- _]. unfold buildPruneObjectsValueText. simpl pr_rules. simpl pr_typeText. simpl pr_logic. simpl pr_recursive.
  by rewrite filter_app, (filter_none _ [_]), app_nil_r by (by apply Forall_singleton).
Qed.

(** ** Saving *)
Lemma dispatch_save_events e :
  crashed e = false ->
  events (dispatch now t_line t Save e) = events e ++
    match save_result t_line t e with inr result => [Saved result; OpenChange false] | inl message => [ToastError message] end.
Proof.
  intros Hc. unfold dispatch. rewrite Hc. destruct (commit_keeps (handle now t_line t Save e)) as (_ & _ & _ & _ & _ & -> & _).
  cbn [handle]. unfold handleSave. destruct (save_result t_line t e); simpl; [done|]. by rewrite <- (assoc_L (++)).
Qed.

(** Rules that are not all complete have a first incomplete one. *)
Lemma first_incomplete ops :
  ~ Forall OperationComplete ops ->
  exists i op, ops !! i = Some op /\ ~ OperationComplete op /\ Forall OperationComplete (take i ops).
Proof.
  induction ops as [|x xs IH]; intros N; [destruct N; constructor|].
  destruct (validateOperation x) as [k|] eqn:V.
  - exists O, x. split_and!; [done| |constructor]. intros C%validateOperation_spec. congruence.
  - apply validateOperation_spec in V. destruct IH as (i & op & H1 & H2 & H3).
    { intros F. apply N. by constructor. }
    exists (S i), op. split_and!; [done|done|by constructor].
Qed.

(** C40.  Saving the visual rules: when every rule that is not blank is complete
    the dialog passes on their text (the empty text for none) and closes;
    otherwise it passes nothing on and reports, among the rules that are not
    blank, the first incomplete one, the rules before it being complete. *)
Theorem save_visual_rules e :
  (forall key line, t_line key line <> []) -> crashed e = false -> editMode e = Visual -> visualMode e = Operations ->
  (Forall OperationComplete (nonblank_ops (operations e)) ->
   events (dispatch now t_line t Save e) = events e ++
     [Saved (match nonblank_ops (operations e) with [] => [] | ops => json_pretty (operations_value ops) end); OpenChange false]) /\
  (~ Forall OperationComplete (nonblank_ops (operations e)) ->
   exists i op key, nonblank_ops (operations e) !! i = Some op /\ ~ OperationComplete op /\
     Forall OperationComplete (take i (nonblank_ops (operations e))) /\ validateOperation op = Some key /\
     events (dispatch now t_line t Save e) = events e ++ [ToastError (t_line key (Z.of_nat i + 1))]).
Proof.
  intros Ht Hc Hm Hv. rewrite dispatch_save_events by done. unfold save_result, buildVisualJson. rewrite Hm, Hv.
  unfold buildOperationsJson, validateOperations. set (ops := nonblank_ops (operations e)).
  destruct (validate_from_spec t_line ops 1 Ht) as [Hok Hbad]. split.
  - intros F. apply Hok in F. destruct ops as [|o l]; [done|]. by rewrite F.
  - intros N. destruct (first_incomplete ops N) as (i & op & H1 & H2 & H3).
    destruct (Hbad i op H1 H2 H3) as (key & Hk & Hv').
    exists i, op, key. split_and!; try done. destruct ops as [|o l]; [done|]. rewrite Hv'.
    destruct (t_line key (Z.of_nat i + 1)) eqn:Et; [by apply Ht in Et|done].
Qed.

(** ** Between the two forms *)
Lemma switch_json_text e text :
  crashed e = false -> editMode e = Visual -> buildVisualJson t_line t e = inr text ->
  let e' := dispatch now t_line t SwitchToJsonMode e in
  editMode e' = JsonMode /\ jsonText e' = text /\ jsonError e' = [] /\ events e' = events e /\ crashed e' = false.
Proof.
  intros Hc Hm Hb. unfold dispatch. rewrite Hc.
  destruct (commit_keeps (handle now t_line t SwitchToJsonMode e)) as (-> & _ & _ & -> & -> & -> & ->).
  cbn [handle]. unfold switchToJsonMode. rewrite Hm, Hb. done.
Qed.

Lemma switch_visual_rules e ps l ops :
  crashed e = false -> editMode e = JsonMode -> trim (jsonText e) <> [] -> json_parse (trim (jsonText e)) = Some (JObj ps) ->
  map_get (js "operations") ps = Some (JArr l) -> (exists s', load_operations now l (localIdSeed e) = (Some ops, s')) ->
  let e' := dispatch now t_line t SwitchToVisualMode e in
  editMode e' = Visual /\ visualMode e' = Operations /\ operations e' = ops /\ events e' = events e /\ crashed e' = false.
Proof.
  intros Hc Hm Hne Hp Hl [s' Hload]. unfold dispatch. rewrite Hc.
  destruct (commit_keeps (handle now t_line t SwitchToVisualMode e)) as (-> & -> & -> & _ & _ & -> & ->).
  cbn [handle]. unfold switchToVisualMode. rewrite Hm. cbv zeta. destruct (trim (jsonText e)) as [|x r]; [done|].
  rewrite Hp, Hl. unfold with_ids. rewrite Hload. done.
Qed.

(** Switching to the JSON text and back, from rules that are complete,
    reports no error and keeps the rules that are not blank, in order and in
    their canonical form. *)
Theorem switch_roundtrip e :
  (forall key line, t_line key line <> []) -> crashed e = false -> editMode e = Visual -> visualMode e = Operations ->
  nonblank_ops (operations e) <> [] -> forallb operation_ok (nonblank_ops (operations e)) = true ->
  Forall OperationComplete (nonblank_ops (operations e)) ->
  let e' := dispatch now t_line t SwitchToVisualMode (dispatch now t_line t SwitchToJsonMode e) in
  editMode e' = Visual /\ visualMode e' = Operations /\ events e' = events e /\ crashed e' = false /\
  map erase_operation (operations e') = map canonical_operation (nonblank_ops (operations e)).
Proof.
  intros Ht Hc Hm Hv Hne Hok Hcomp. set (text := json_pretty (operations_value (nonblank_ops (operations e)))).
  assert (Hb : buildVisualJson t_line t e = inr text).
  { unfold buildVisualJson. rewrite Hv. unfold buildOperationsJson, validateOperations.
    apply (validate_from_spec t_line _ 1 Ht) in Hcomp. subst text. destruct (nonblank_ops (operations e)); [done|]. by rewrite Hcomp. }
  destruct (switch_json_text e text Hc Hm Hb) as (E1 & E2 & E3 & E4 & E5). cbv zeta.
  revert E1 E2 E3 E4 E5. generalize (dispatch now t_line t SwitchToJsonMode e) as j. intros j E1 E2 E3 E4 E5.
  destruct (load_operations_payloads now _ Hok Hne (localIdSeed j)) as (l & s' & El & Hl).
  assert (Htrim : trim text = text) by apply trim_pretty_object.
  destruct (switch_visual_rules j [(js "operations", JArr (map (fun o => JObj (operation_payload o)) (nonblank_ops (operations e))))]
    (map (fun o => JObj (operation_payload o)) (nonblank_ops (operations e))) l E5 E1) as (V1 & V2 & V3 & V4 & V5).
  - rewrite E2, Htrim. destruct (pretty_object_nonempty [(js "operations", JArr (map (fun o => JObj (operation_payload o)) (nonblank_ops (operations e))))]) as (c & r & E).
    intros N. unfold text, operations_value in N. by rewrite E in N.
  - rewrite E2, Htrim. apply json_parse_pretty. by apply operations_value_ok.
  - reflexivity.
  - eauto.
  - split_and!; [done|done|by rewrite V4|done|by rewrite V3].
Qed.
End Behaviour.

(** ** Witnesses *)
Definition opened (value : jsstr) : Editor := dispatch (fun _ => 17) (fun k n => [n] ++ k) (fun k => k) (Open value) sample_editor.

Definition prune_text : jsstr :=
  json_stringify (JObj [(js "operations", JArr [JObj [(js "mode", JStr (js "prune_objects"));
    (js "value", JObj [(js "conditions", JArr [JObj [(js "path", JStr (js "role"))]])])]])]).

Lemma open_crashes_iff_witness :
  crashed (opened (json_stringify (JObj [(js "operations", JArr [JNull])]))) = true.
Proof.
  unfold opened. apply (open_crashes_iff (fun _ => 17) (fun k n => [n] ++ k) (fun k => k)
    (json_stringify (JObj [(js "operations", JArr [JNull])])) sample_editor ltac:(vm_compute; reflexivity)).
  exists [JNull], JNull. split_and!; [vm_compute; reflexivity|by left|reflexivity].
Defined.

Lemma prune_rule_edits_lost_witness :
  dispatch (fun _ => 17) (fun k n => [n] ++ k) (fun k => k) (RemovePruneRule (js "po_17_1") (js "po_17_2")) (opened prune_text) =
  dispatch (fun _ => 17) (fun k n => [n] ++ k) (fun k => k) (UpdatePruneObjectsDraft (js "po_17_1") no_prune_patch) (opened prune_text).
Proof.
  refine (proj2 (prune_rule_edits_lost (fun _ => 17) (fun k n => [n] ++ k) (fun k => k) 0 (opened prune_text)
    (mkPrune false [] (js "AND") true [mkCondition (js "po_17_2") (js "role") (js "full") [] false false])
    (mkCondition (js "po_17_2") (js "role") (js "full") [] false false) (js "po_17_1")
    (mkCondPatch None None None None None) _ _ _ _ _)).
  - lia.
  - apply reach_step; [apply sample_reachable|exact I].
  - vm_compute. reflexivity.
  - vm_compute. reflexivity.
  - by left.
Defined.

Definition sample_rules : Editor := opened (json_pretty (operations_value [sample_operation])).

Lemma save_visual_rules_witness :
  events (dispatch (fun _ => 17) (fun k n => [n] ++ k) (fun k => k) Save sample_rules) =
  [Saved (json_pretty (operations_value (nonblank_ops (operations sample_rules)))); OpenChange false].
Proof.
  refine (proj1 (save_visual_rules (fun _ => 17) (fun k n => [n] ++ k) (fun k => k) sample_rules _ _ _ _) _).
  - by intros key line.
  - vm_compute. reflexivity.
  - vm_compute. reflexivity.
  - vm_compute. reflexivity.
  - assert (E : map validateOperation (nonblank_ops (operations sample_rules)) = [None]) by (vm_compute; reflexivity).
    destruct (nonblank_ops (operations sample_rules)) as [|o [|o' l]]; [done| |done]. injection E as E.
    apply Forall_singleton. by apply validateOperation_spec.
Defined.

Lemma switch_roundtrip_witness :
  let e := dispatch (fun _ => 17) (fun k n => [n] ++ k) (fun k => k) SwitchToVisualMode
             (dispatch (fun _ => 17) (fun k n => [n] ++ k) (fun k => k) SwitchToJsonMode sample_rules) in
  editMode e = Visual /\ visualMode e = Operations /\ events e = [] /\ crashed e = false /\
  map erase_operation (operations e) = map canonical_operation (nonblank_ops (operations sample_rules)).
Proof.
  apply (switch_roundtrip (fun _ => 17) (fun k n => [n] ++ k) (fun k => k) sample_rules).
  - by intros key line.
  - vm_compute. reflexivity.
  - vm_compute. reflexivity.
  - vm_compute. reflexivity.
  - vm_compute. discriminate.
  - vm_compute. reflexivity.
  - assert (E : map validateOperation (nonblank_ops (operations sample_rules)) = [None]) by (vm_compute; reflexivity).
    destruct (nonblank_ops (operations sample_rules)) as [|o [|o' l]]; [done| |done]. injection E as E.
    apply Forall_singleton. by apply validateOperation_spec.
Defined.
